(* ===== verification/_CoqProject ===== *)
-Q . S2P
Prelude.v
JsNum.v
JsValue.v
JsDate.v
ConvergenceBudget.v
Pipeline.v
RoleRouting.v
PromptStage.v
PipelineRollup.v
LedgerEvents.v
LedgerFold.v
Eligibility.v
LedgerStore.v
LeaseStore.v
Surfaces.v
Executor.v
TrivialFinalizer.v
Divergence.v
QueueLane.v
QueueStore.v
QueueOwner.v
QueueRun.v
CheckRollup.v
OperatorEvidence.v
MergeEligibility.v
QueueAdmission.v
JsText.v
JsRegExp.v
ReviewMarkdown.v
FindingLines.v
ReviewFindings.v
Verdict.v
ReviewReply.v
RemediationReply.v
JsMath.v
LoadAware.v
QueueHandoff.v
HandoffStore.v
QueueService.v
QueueMerge.v
QueueChecks.v
QueueReconcile.v
QueueRebase.v
QueueCheckReader.v
QueueRouting.v
JsState.v
LeaseFiles.v
MergeLease.v
LeaseSafety.v
BaseRevalidation.v
