(* ===== verification/Prelude.v ===== *)
(** * Verification of the review kernel, the merge gates and the finalization lane

    The repository drives pull requests (and other subjects) from adversarial
    review to merge. This library models the decision core of that program and
    the two durable lanes that act on its decisions; file names below are under
    src/src of the repository, and a definition keeps the name of the function
    it translates.

    ** The parts and how they interact

    - The review kernel (kernel/) is pure. A panel of reviewers posts verdicts;
      a stage folds them by its policy; budgets bound the remediation rounds;
      roles and prompts are selected for the next pass.
      [ConvergenceBudget] (convergence-budget.mjs), [Pipeline] (pipeline.mjs),
      [RoleRouting] (role-routing.mjs), [PromptStage] (prompt-stage.mjs),
      [PipelineRollup] (pipeline-rollup.mjs).
    - The finalization ledger (finalization/) is an append-only list of events
      per subject. [LedgerEvents] (ledger-events.mjs) builds and validates the
      events, [LedgerStore] (ledger-store.mjs) appends and reads rows,
      [LedgerFold] (ledger-fold.mjs) folds them into a state, [Eligibility]
      (eligibility.mjs) decides from the state, [LeaseStore]
      (executor-lease-store.mjs) serializes executors, [Surfaces]
      (execution-surfaces.mjs) holds the merge seam and the identity check, and
      [Executor] (executor.mjs) runs one tick: lease, fold, decide, act, append,
      release.
    - [TrivialFinalizer] (finalization-port.mjs, trivial-finalizer.mjs) is the
      port of the domains without a merge; it reads verdicts through [Pipeline].
    - [Divergence] (shadow-actions.mjs, divergence-classifier.mjs) compares the
      old lane's action with the decision of [Eligibility].
    - The merge gates read fetched GitHub state: [CheckRollup]
      (checks-summary.mjs) classifies CI, [OperatorEvidence] (ama/eligibility.mjs,
      operator-hold-labels.mjs, duplicate-family-gate.mjs, docs-only.mjs) reads
      labels and operator approvals, [MergeEligibility]
      (ama/merge-eligibility.mjs) is the predicate every merger calls.
    - The finalization queue (finalization/queue-*.mjs) orders ready pull
      requests per repository and base branch. [QueueLane] has its vocabulary
      and the replay of its events, [QueueStore] (queue-store.mjs) its tables
      with admission and fenced progress, [QueueOwner] (queue-owner.mjs) the
      claims and the issued mutations, [QueueRun] any interleaving of all of
      these, and [QueueAdmission] (queue-admission.mjs, queue-check-reader.mjs,
      queue-checks.mjs) what live evidence decides about an entry; it calls
      [MergeEligibility] and [CheckRollup].

    ** State and operations

    A ledger is a list of rows in [seq] order with its counter, a lease table and
    the lane table are finite maps on their primary keys, the entries, events and
    operations of the queue are row lists. A statement is a function on them; a
    transaction answers a new database or throws and leaves the old one, so that
    rollback is by construction. A function that may throw answers [result]; the
    executor and the queue owner are computations over a world (store and calls
    made) that persists across a throw. An awaited adapter is a function of the
    database that answers a reply and the database at the time it settles, so
    other actors may act in between; where a theorem needs a bound on what they
    do it is a hypothesis ([QueueOwner.frames]) that an idle adapter meets.

    ** Values of the language

    This file has exceptions ([result]), the array helpers, property lists
    ([jsmap]), strings as their UTF-8 encoding, and the automation the other
    files share. [JsNum] has binary64 numbers on the standard library's
    [spec_float], with [Number(s)] and [String(n)]; [JsValue] untyped values,
    their coercions, comparisons and JSON normal forms; [JsDate] the parsing and
    printing of timestamps. Values are trees, without object identity. Case
    mapping is that of the ASCII letters; other characters are kept. Host
    behaviour is a class: [HostDate] for date texts outside the format of the
    language, [PromptFs] for the prompt directories, [SqliteText] for numbers
    bound to a TEXT column. The only fuel is in [String(n)]: 330 steps to find
    the decimal exponent, since the least positive number is above 10^-324, and
    18 to find the digits, since 17 always read back. Every other definition is
    structurally recursive.

    ** What the theorems show

    - Executor: a merge is called only on what the ledger then holds
      ([Executor.tick_merge_grounded]); nothing but escalations happens with
      autonomous execution off ([Executor.tick_kill_switch]); every effect is
      under the lease, which is always released ([Executor.tick_lease_discipline]);
      a reported merge is recorded ([Executor.tick_executed_merge_recorded]).
    - Eligibility: what each decision kind rests on, that a wait with a deadline
      ends, that the kill switch and a moved head stop mutation.
    - Ledger: the fold is a projection of the events and resumes from a snapshot;
      reads refine appends; rows are never changed; keys deduplicate. Leases
      exclude each other and survive foreign operations.
    - Queue: after any run from an empty store the tables keep their invariant
      and are the replay of the journal ([QueueRun.tables_project_journal]);
      a granted claim is exclusive and the fence it supersedes stays refused
      ([QueueOwner.claim_grants_exclusively], [QueueRun.superseded_fence_stale]);
      a mutation is journalled before it is issued and issued at most once
      ([QueueRun.issue_journals_first], [QueueRun.issue_at_most_once]); admission
      is first in, first out and idempotent; progress follows the phases.
      The invariant asks that sequence numbers stay safe integers and that a
      progress patch holds no undefined field, which the journal could not carry.
    - Gates: the merge predicate is exactly the conjunction of its gates; a green
      rollup has no live failure; an operator override is attributable; an entry
      becomes ready, and its checks green, only on evidence for its own head.
    - Kernel: budgets are coherent, blocking verdicts block, no role reviews its
      own builder family, a prompt set is a declared, existing directory.

    ** What is not modelled

    Process orchestration and I/O: the watcher, the follow-up jobs, the AMA
    closer, the reviewer harness, GitHub access, alerts, configuration files,
    opening databases and taking file locks. The diff analysis of the primary
    change (ama/primary-change.mjs) is an argument of the merge predicate, the
    load-scaled timeouts (load-aware-timeout.mjs) are arguments of the waits, and
    the adapters of the surfaces are arguments of the executor and the owner. The
    services over the queue store (rebase, merge, routing, handoff, the polling
    of checks), the shadow store and its report, the v1 port wrapper and the
    parsing of review markdown (kernel/verdict.mjs, review-findings.mjs) are
    left to later work; the parsing needs a matcher for the expressions used. *)

From Stdlib Require Import ZArith Lia Ascii.
From stdpp Require Import base list strings pretty.

(** ** Thrown exceptions

    A JavaScript function that may throw is a function into [result]: the
    constructors of [jserror] are the error classes the sources raise, with the
    message the source builds, and the error an adapter throws with the marks the
    sources read off it: a credential outage, a named reason. *)

Inductive jserror :=
| TypeError (msg : string)
| RangeError (msg : string)
| PlainError (msg : string)
| MarkedError (msg : string) (authOutage : bool) (reason : option string).

Definition error_message (e : jserror) : string :=
  match e with TypeError m | RangeError m | PlainError m | MarkedError m _ _ => m end.
Definition auth_outage (e : jserror) : bool := match e with MarkedError _ b _ => b | _ => false end.
Definition error_reason (e : jserror) : option string := match e with MarkedError _ _ r => r | _ => None end.

Inductive result (A : Type) :=
| Ok (a : A)
| Throw (e : jserror).
Arguments Ok {A} a.
Arguments Throw {A} e.

#[export] Instance jserror_eq_dec : EqDecision jserror.
Proof. solve_decision. Defined.
#[export] Instance result_eq_dec {A} `{EqDecision A} : EqDecision (result A).
Proof. solve_decision. Defined.

Definition rbind {A B} (r : result A) (f : A -> result B) : result B :=
  match r with
  | Ok a => f a
  | Throw e => Throw e
  end.

Definition rmap {A B} (f : A -> B) (r : result A) : result B :=
  rbind r (fun a => Ok (f a)).

Definition is_ok {A} (r : result A) : bool :=
  match r with Ok _ => true | Throw _ => false end.

(** [try { r } catch { h }]. *)
Definition rcatch {A} (r : result A) (h : jserror -> A) : A :=
  match r with Ok a => a | Throw e => h e end.

Declare Scope js_scope.
Delimit Scope js_scope with js.
Notation "'let*' x ':=' r 'in' k" := (rbind r (fun x => k))
  (at level 10, x name, r at level 100, k at level 200) : js_scope.
Notation "'guard' b 'else' e 'in' k" := (if b then k else Throw e)
  (at level 10, b at level 100, e at level 100, k at level 200) : js_scope.
Open Scope js_scope.

(** [array.map(f)] for an [f] that may throw: left to right, first throw wins. *)
Fixpoint rmapM {A B} (f : A -> result B) (l : list A) : result (list B) :=
  match l with
  | [] => Ok []
  | x :: l' => let* y := f x in let* ys := rmapM f l' in Ok (y :: ys)
  end.

(** ** Array helpers of the language *)

Section Arrays.
Context {A : Type}.

(** [array.some(p)], [array.every(p)], [array.find(p)], [array.at(-1)]. *)
Definition some_b (p : A -> bool) (l : list A) : bool := existsb p l.
Definition every_b (p : A -> bool) (l : list A) : bool := forallb p l.
Definition find_b (p : A -> bool) (l : list A) : option A := List.find p l.
Definition filter_b (p : A -> bool) (l : list A) : list A := List.filter p l.

(** [array.findIndex(p)], with [None] for [-1]. *)
Fixpoint find_index (p : A -> bool) (l : list A) : option nat :=
  match l with
  | [] => None
  | x :: l' => if p x then Some 0%nat else option_map S (find_index p l')
  end.

(** A JavaScript [Map] keeps insertion order and overwrites in place. *)
Definition jsmap := list (string * A).

Fixpoint map_get (m : jsmap) (k : string) : option A :=
  match m with
  | [] => None
  | (k', v) :: m' => if String.eqb k k' then Some v else map_get m' k
  end.

Fixpoint map_set (m : jsmap) (k : string) (v : A) : jsmap :=
  match m with
  | [] => [(k, v)]
  | (k', v') :: m' =>
      if String.eqb k k' then (k', v) :: m' else (k', v') :: map_set m' k v
  end.

Lemma map_get_set m k v : map_get (map_set m k v) k = Some v.
Proof.
  induction m as [|[k' v'] m IH]; simpl.
  - by rewrite String.eqb_refl.
  - destruct (String.eqb k k') eqn:E; simpl; rewrite E; done.
Qed.

Lemma map_get_set_ne m k k' v : k <> k' -> map_get (map_set m k v) k' = map_get m k'.
Proof.
  intros Hne. induction m as [|[k0 v0] m IH]; simpl.
  - destruct (String.eqb k' k) eqn:E; [|done]. apply String.eqb_eq in E. congruence.
  - destruct (String.eqb k k0) eqn:E; simpl.
    + apply String.eqb_eq in E as ->.
      destruct (String.eqb k' k0) eqn:E'; [apply String.eqb_eq in E'; congruence | done].
    + by rewrite IH.
Qed.

Lemma map_set_In m k v k' v' :
  In (k', v') (map_set m k v) -> v' = v \/ In (k', v') m.
Proof.
  induction m as [|[k0 v0] m IH]; simpl.
  - intros [[= <- <-]|[]]; auto.
  - destruct (String.eqb k k0); simpl; intros [[= <- <-]|H]; auto.
    destruct (IH H); auto.
Qed.

Lemma map_set_keys m k v x :
  In x (map fst (map_set m k v)) <-> x = k \/ In x (map fst m).
Proof.
  induction m as [|[k0 v0] m IH]; simpl.
  - intuition.
  - destruct (String.eqb k k0) eqn:E; simpl.
    + apply String.eqb_eq in E as ->. intuition.
    + rewrite IH. intuition.
Qed.

Lemma find_b_In (p : A -> bool) l x : find_b p l = Some x -> In x l /\ p x = true.
Proof. apply List.find_some. Qed.

Lemma find_b_None (p : A -> bool) l x : find_b p l = None -> In x l -> p x = false.
Proof. intros H. apply (List.find_none _ _ H). Qed.

Lemma find_index_Some (p : A -> bool) l i :
  find_index p l = Some i ->
  (exists x, l !! i = Some x /\ p x = true) /\
  forall j x, (j < i)%nat -> l !! j = Some x -> p x = false.
Proof.
  revert i. induction l as [|y l IH]; simpl; [done|]. intros i.
  destruct (p y) eqn:E.
  - intros [= <-]. split; [by exists y|]. intros j x Hj. lia.
  - destruct (find_index p l) as [k|] eqn:Ek; simpl; [|done]. intros [= <-].
    destruct (IH k eq_refl) as [Hx Hlt]. split; [done|].
    intros [|j] x Hj Hl; simpl in Hl; [congruence|]. eapply Hlt; [|done]. lia.
Qed.

Lemma find_index_None (p : A -> bool) l :
  find_index p l = None -> forall x, In x l -> p x = false.
Proof.
  induction l as [|y l IH]; simpl; [done|].
  destruct (p y) eqn:E; [done|]. destruct (find_index p l); [done|].
  intros _ x [<-|H]; auto.
Qed.

(** Number of elements a predicate accepts. *)
Definition count_b (p : A -> bool) (l : list A) : nat := length (filter_b p l).

Lemma count_b_le p l : (count_b p l <= length l)%nat.
Proof. apply List.filter_length_le. Qed.

Lemma count_b_all p l : count_b p l = length l <-> forall x, In x l -> p x = true.
Proof.
  unfold count_b, filter_b. induction l as [|x l IH]; simpl; [done|].
  pose proof (List.filter_length_le p l).
  destruct (p x) eqn:E; simpl.
  - split.
    + intros [= Hl]. intros y [<-|Hy]; [done|]. by apply IH.
    + intros Hall. f_equal. apply IH. auto.
  - split; [lia|]. intros Hall. rewrite (Hall x (or_introl eq_refl)) in E. done.
Qed.

Lemma count_b_pos p l : (0 < count_b p l)%nat <-> exists x, In x l /\ p x = true.
Proof.
  unfold count_b, filter_b. induction l as [|x l IH]; simpl.
  - split; [lia | by intros (? & [] & _)].
  - destruct (p x) eqn:E; simpl.
    + split; [eauto | lia].
    + rewrite IH. split; [intros (y & ? & ?); eauto|].
      intros (y & [<-|?] & Ey); [congruence | eauto].
Qed.
End Arrays.
Arguments jsmap A : clear implicits.

(** ** Strings

    A JavaScript string is modelled by its UTF-8 encoding. Equality,
    concatenation, prefixes and the search for an ASCII character commute with
    that encoding; [js_length] counts UTF-16 code units of the decoded text. *)

Definition code (a : ascii) : N := N_of_ascii a.

Definition in_range (lo hi : N) (a : ascii) : bool :=
  (lo <=? code a)%N && (code a <=? hi)%N.

Fixpoint js_length (s : string) : nat :=
  match s with
  | EmptyString => 0
  | String a s' =>
      (if in_range 128 191 a then 0 else if in_range 240 255 a then 2 else 1) + js_length s'
  end.

(** WhiteSpace and LineTerminator of ECMAScript, by encoded length. *)
Definition is_ws1 (a : ascii) : bool := in_range 9 13 a || (code a =? 32)%N.
Definition is_ws2 (a b : ascii) : bool := (code a =? 194)%N && (code b =? 160)%N.
Definition is_ws3 (a b c : ascii) : bool :=
  let x := code a in let y := code b in let z := code c in
  ((x =? 225) && (y =? 154) && (z =? 128))%N
  || ((x =? 226) && (y =? 128) && (in_range 128 138 c || (z =? 168) || (z =? 169) || (z =? 175)))%N
  || ((x =? 226) && (y =? 129) && (z =? 159))%N
  || ((x =? 227) && (y =? 128) && (z =? 128))%N
  || ((x =? 239) && (y =? 187) && (z =? 191))%N.

(** White space at the head of a text, by its encoding. *)
Definition is_ws_at (s : string) : bool :=
  match s with
  | String a EmptyString => is_ws1 a
  | String a (String b EmptyString) => is_ws1 a || is_ws2 a b
  | String a (String b (String c _)) => is_ws1 a || is_ws2 a b || is_ws3 a b c
  | EmptyString => false
  end.

Fixpoint trim_start (s : string) : string :=
  match s with
  | EmptyString => s
  | String a s1 =>
      if is_ws1 a then trim_start s1
      else match s1 with
           | EmptyString => s
           | String b s2 =>
               if is_ws2 a b then trim_start s2
               else match s2 with
                    | EmptyString => s
                    | String c s3 => if is_ws3 a b c then trim_start s3 else s
                    end
           end
  end.

(** The same scan from the end of the text: the argument is reversed. *)
Fixpoint trim_rev (s : string) : string :=
  match s with
  | EmptyString => s
  | String a s1 =>
      if is_ws1 a then trim_rev s1
      else match s1 with
           | EmptyString => s
           | String b s2 =>
               if is_ws2 b a then trim_rev s2
               else match s2 with
                    | EmptyString => s
                    | String c s3 => if is_ws3 c b a then trim_rev s3 else s
                    end
           end
  end.

Fixpoint str_rev_app (s acc : string) : string :=
  match s with
  | EmptyString => acc
  | String a s' => str_rev_app s' (String a acc)
  end.
Definition str_rev (s : string) : string := str_rev_app s "".

Definition trim_end (s : string) : string := str_rev (trim_rev (str_rev s)).
(** [s.trim()]. *)
Definition trim (s : string) : string := trim_end (trim_start s).

(** [s.toLowerCase()] on the ASCII letters; other characters are kept. *)
Definition lower_ascii (a : ascii) : ascii :=
  if in_range 65 90 a then ascii_of_N (code a + 32) else a.
Fixpoint to_lower (s : string) : string :=
  match s with
  | EmptyString => ""
  | String a s' => String (lower_ascii a) (to_lower s')
  end.

(** [s.toUpperCase()] on the ASCII letters; other characters are kept. *)
Definition upper_ascii (a : ascii) : ascii :=
  if in_range 97 122 a then ascii_of_N (code a - 32) else a.
Fixpoint to_upper (s : string) : string :=
  match s with
  | EmptyString => ""
  | String a s' => String (upper_ascii a) (to_upper s')
  end.

(** Every character of [s] is one of the class [p]. *)
Fixpoint all_chars (p : ascii -> bool) (s : string) : bool :=
  match s with EmptyString => true | String a s' => p a && all_chars p s' end.

(** [s.startsWith(p)], [s.endsWith(p)], [s.includes(p)]. *)
Definition starts_with (p s : string) : bool := String.prefix p s.
Definition ends_with (p s : string) : bool := String.prefix (str_rev p) (str_rev s).
Fixpoint includes (p s : string) : bool :=
  String.prefix p s || match s with EmptyString => false | String _ s' => includes p s' end.

(** [array.join(sep)] on strings. *)
Definition join (sep : string) (l : list string) : string := String.concat sep l.

(** [s.split(sep)] for a one-character separator. *)
Fixpoint split_on (sep : ascii) (s : string) : list string :=
  match s with
  | EmptyString => [""]
  | String a s' =>
      if Ascii.eqb a sep then "" :: split_on sep s'
      else match split_on sep s' with
           | [] => [String a ""]
           | w :: ws => String a w :: ws
           end
  end.

(** [JSON.stringify(s)] on a string. *)
Definition dquote : string := String (ascii_of_N 34) "".
Definition backslash : string := String (ascii_of_N 92) "".
Definition hex_digit (n : N) : ascii := ascii_of_N (if (n <? 10)%N then 48 + n else 87 + n).
Definition json_char (a : ascii) : string :=
  let c := code a in
  if (c =? 34)%N || (c =? 92)%N then backslash +:+ String a ""
  else if (c =? 8)%N then backslash +:+ "b" else if (c =? 9)%N then backslash +:+ "t"
  else if (c =? 10)%N then backslash +:+ "n" else if (c =? 12)%N then backslash +:+ "f"
  else if (c =? 13)%N then backslash +:+ "r"
  else if (c <? 32)%N then
    backslash +:+ "u00" +:+ String (hex_digit (c / 16)) (String (hex_digit (c mod 16)) "")
  else String a "".
Fixpoint json_chars (s : string) : string :=
  match s with EmptyString => "" | String a s' => json_char a +:+ json_chars s' end.
Definition json_quote (s : string) : string := dquote +:+ json_chars s +:+ dquote.

(** [set.has(s)] for a set of string literals. *)
Definition str_in (s : string) (l : list string) : bool := existsb (String.eqb s) l.

Lemma str_in_In s l : str_in s l = true <-> In s l.
Proof.
  unfold str_in. rewrite existsb_exists. split.
  - intros (x & Hx & E). apply String.eqb_eq in E as ->. done.
  - intros H. exists s. by rewrite String.eqb_refl.
Qed.

#[export] Instance In_str_dec (s : string) (l : list string) : Decision (In s l) :=
  List.in_dec String.string_dec s l.

#[global] Arguments String.append : simpl nomatch.

Lemma str_rev_app_app s acc acc' :
  str_rev_app s acc +:+ acc' = str_rev_app s (acc +:+ acc').
Proof. revert acc. induction s as [|a s IH]; intros acc; simpl; [done|]. by rewrite IH. Qed.

Lemma str_app_nil s : s +:+ "" = s.
Proof. induction s; simpl; f_equal; done. Qed.

Lemma str_app_assoc s t u : (s +:+ t) +:+ u = s +:+ (t +:+ u).
Proof. induction s; simpl; f_equal; done. Qed.

Lemma str_rev_app_rev s acc : str_rev_app s acc = str_rev s +:+ acc.
Proof. unfold str_rev. by rewrite str_rev_app_app. Qed.

Lemma str_rev_cons a s : str_rev (String a s) = str_rev s +:+ String a "".
Proof. unfold str_rev at 1. simpl. apply str_rev_app_rev. Qed.

Lemma str_rev_app_distr s t : str_rev (s +:+ t) = str_rev t +:+ str_rev s.
Proof.
  induction s as [|a s IH]; simpl.
  - by rewrite str_app_nil.
  - by rewrite !str_rev_cons, IH, str_app_assoc.
Qed.

Lemma str_rev_involutive s : str_rev (str_rev s) = s.
Proof.
  induction s as [|a s IH]; [done|].
  rewrite str_rev_cons, str_rev_app_distr, IH. done.
Qed.

Lemma str_app_inj_l s t u : s +:+ t = s +:+ u -> t = u.
Proof. induction s; simpl; [done|]. intros [= H]. auto. Qed.

Lemma str_app_inj_r s t u : t +:+ s = u +:+ s -> t = u.
Proof.
  intros H. apply (f_equal str_rev) in H. rewrite !str_rev_app_distr in H.
  apply str_app_inj_l in H. rewrite <- (str_rev_involutive t), H.
  apply str_rev_involutive.
Qed.

Lemma to_lower_idem s : to_lower (to_lower s) = to_lower s.
Proof.
  induction s as [|a s IH]; simpl; [done|]. rewrite IH. f_equal.
  destruct a as [b0 b1 b2 b3 b4 b5 b6 b7].
  destruct b0, b1, b2, b3, b4, b5, b6, b7; vm_compute; reflexivity.
Qed.

(** The lexicographic order on strings is a total preorder. *)
Lemma str_leb_refl s : String.leb s s = true.
Proof. destruct (String.leb_total s s); done. Qed.

Lemma ascii_compare_trans a b c : Ascii.compare a b = Lt -> Ascii.compare b c = Lt -> Ascii.compare a c = Lt.
Proof. unfold Ascii.compare. rewrite !N.compare_lt_iff. lia. Qed.

Lemma str_leb_trans s t u : String.leb s t = true -> String.leb t u = true -> String.leb s u = true.
Proof.
  unfold String.leb. revert t u.
  induction s as [|a s IH]; intros [|b t] [|c u]; simpl; try done.
  destruct (Ascii.compare a b) eqn:Eab; try done;
    destruct (Ascii.compare b c) eqn:Ebc; try done; intros Hst Htu.
  - apply Ascii.compare_eq_iff in Eab as ->. rewrite Ebc. eapply IH; eassumption.
  - apply Ascii.compare_eq_iff in Eab as ->. by rewrite Ebc.
  - apply Ascii.compare_eq_iff in Ebc as ->. by rewrite Eab.
  - by rewrite (ascii_compare_trans _ _ _ Eab Ebc).
Qed.

(** ** Proof automation shared by the development *)

(** Reduce one [let*] whose computation is known, and split on the rest. *)
Ltac inv_result :=
  repeat match goal with
  | H : Ok _ = Ok _ |- _ => injection H as H; try subst
  | H : Throw _ = Throw _ |- _ => injection H as H; try subst
  | H : Ok _ = Throw _ |- _ => discriminate H
  | H : Throw _ = Ok _ |- _ => discriminate H
  | H : rbind ?r _ = Ok _ |- _ =>
      let E := fresh "E" in destruct r eqn:E; simpl in H; [|discriminate H]
  end.

(** Case split on the innermost [match]/[if] scrutinee of a hypothesis or goal. *)
Ltac case_goal :=
  match goal with
  | |- context [match ?x with _ => _ end] =>
      lazymatch x with
      | context [match _ with _ => _ end] => fail
      | _ => let E := fresh "E" in destruct x eqn:E
      end
  end.

Ltac case_in H :=
  match type of H with
  | context [match ?x with _ => _ end] =>
      lazymatch x with
      | context [match _ with _ => _ end] => fail
      | _ => let E := fresh "E" in destruct x eqn:E
      end
  end.

(** Boolean conjunctions and disjunctions into propositional ones. *)
Ltac bool_simpl :=
  repeat match goal with
  | H : _ && _ = true |- _ => apply andb_true_iff in H as [? ?]
  | H : _ || _ = false |- _ => apply orb_false_iff in H as [? ?]
  | H : negb _ = true |- _ => apply negb_true_iff in H
  | H : negb _ = false |- _ => apply negb_false_iff in H
  | H : String.eqb _ _ = true |- _ => apply String.eqb_eq in H
  end.

Lemma rbind_Ok {A B} (r : result A) (f : A -> result B) b :
  rbind r f = Ok b -> exists a, r = Ok a /\ f a = Ok b.
Proof. destruct r; simpl; [eauto | done]. Qed.

Lemma rmapM_length {A B} (f : A -> result B) l l' :
  rmapM f l = Ok l' -> length l' = length l.
Proof.
  revert l'. induction l as [|x l IH]; simpl; intros l' H; [by inv_result|].
  apply rbind_Ok in H as (y & _ & H). apply rbind_Ok in H as (ys & E & H).
  injection H as <-. simpl. by rewrite (IH _ E).
Qed.

Lemma Forall_snoc_inv {A} (P : A -> Prop) l x : Forall P (l ++ [x]) -> Forall P l /\ P x.
Proof. intros [H1 H2]%Forall_app. split; [done|]. by inversion H2. Qed.

(** Filters, last elements and appends. *)
Lemma filter_b_snoc {A} (p : A -> bool) l x :
  filter_b p (l ++ [x]) = filter_b p l ++ (if p x then [x] else []).
Proof. unfold filter_b. rewrite List.filter_app. simpl. by destruct (p x). Qed.

Lemma count_b_snoc {A} (p : A -> bool) l x :
  count_b p (l ++ [x]) = (count_b p l + if p x then 1 else 0)%nat.
Proof. unfold count_b. rewrite filter_b_snoc, length_app. by destruct (p x). Qed.

Lemma last_snoc_if {A} (p : A -> bool) l x :
  last (filter_b p (l ++ [x])) = if p x then Some x else last (filter_b p l).
Proof.
  rewrite filter_b_snoc. destruct (p x); [by rewrite last_snoc | by rewrite app_nil_r].
Qed.

Lemma filter_b_map {A B} (f : A -> B) (p : B -> bool) l :
  filter_b p (map f l) = map f (filter_b (fun x => p (f x)) l).
Proof. unfold filter_b. induction l as [|x l IH]; simpl; [done|]. rewrite IH. by case_match. Qed.

Lemma filter_b_filter {A} (p q : A -> bool) l :
  filter_b p (filter_b q l) = filter_b (fun x => q x && p x) l.
Proof.
  unfold filter_b. induction l as [|x l IH]; simpl; [done|].
  destruct (q x); simpl; [|done]. destruct (p x); by rewrite IH.
Qed.

Lemma last_map {A B} (f : A -> B) l : last (map f l) = f <$> last l.
Proof. induction l as [|x l IH] using rev_ind; [done|].
  rewrite map_app. simpl. by rewrite !last_snoc.
Qed.

Lemma last_filter_In {A} (p : A -> bool) l x :
  last (filter_b p l) = Some x -> In x l /\ p x = true.
Proof.
  intros E. apply last_Some in E as (l' & E). apply List.filter_In.
  fold (filter_b p l). rewrite E. apply in_or_app. right. by left.
Qed.

(** [Math.max(...xs)] on a non-empty array. *)
Definition max_of (x : Z) (xs : list Z) : Z := fold_left Z.max xs x.

Lemma max_of_ge x xs y : In y (x :: xs) -> (y <= max_of x xs)%Z.
Proof.
  unfold max_of. revert x y. induction xs as [|z xs IH]; simpl; intros x y.
  - intros [->|[]]. lia.
  - intros H. pose proof (IH (Z.max x z) (Z.max x z) (or_introl eq_refl)).
    destruct H as [<-|[<-|H]]; [lia | lia |]. apply (IH (Z.max x z)). by right.
Qed.

Lemma max_of_In x xs : In (max_of x xs) (x :: xs).
Proof.
  unfold max_of. revert x. induction xs as [|z xs IH]; simpl; intros x; [auto|].
  destruct (IH (Z.max x z)) as [E|H]; [|auto].
  destruct (Z.max_spec x z) as [[_ M]|[_ M]]; rewrite M in *; auto.
Qed.

Create Rewrite HintDb js_strings.
#[export] Hint Rewrite @map_get_set : js_strings.
#[export] Hint Rewrite str_app_nil str_rev_involutive to_lower_idem : js_strings.

Lemma NoDup_map_inj {A B} (f : A -> B) l a b :
  NoDup (map f l) -> In a l -> In b l -> f a = f b -> a = b.
Proof.
  induction l as [|x l IH]; [done|]. cbn [map]. intros [Hn Hd]%NoDup_cons Ha Hb E.
  destruct Ha as [<-|Ha], Hb as [<-|Hb]; [done| | |by apply IH].
  - exfalso. apply Hn. rewrite E. apply list_elem_of_In. by apply in_map.
  - exfalso. apply Hn. rewrite <- E. apply list_elem_of_In. by apply in_map.
Qed.

Lemma some_b_false {A} (p : A -> bool) l x : some_b p l = false -> In x l -> p x = false.
Proof.
  intros Hl Hx. destruct (p x) eqn:E; [|done]. rewrite <- Hl. symmetry. apply existsb_exists. eauto.
Qed.

Lemma find_b_snoc {A} (p : A -> bool) l x :
  find_b p (l ++ [x]) = match find_b p l with Some y => Some y | None => if p x then Some x else None end.
Proof. induction l as [|y l IH]; simpl; [done|]. destruct (p y); [done | exact IH]. Qed.

Lemma find_b_map_same {A} (p : A -> bool) (g : A -> A) l :
  (forall x, In x l -> p (g x) = p x) -> find_b p (map g l) = g <$> find_b p l.
Proof.
  induction l as [|x l IH]; simpl; intros Hg; [done|]. rewrite Hg by auto.
  destruct (p x); [done|]. apply IH. auto.
Qed.

(** Equality of closed terms, compared by the virtual machine without reading
    the values back (the values of a finite map carry large types). *)
Ltac by_vm := match goal with |- ?a = ?b => exact (eq_refl a <: a = b) end.

(** [NoDup] of a list of known keys, by evaluation. *)
Ltac keys := match goal with |- NoDup ?l => apply (bool_decide_unpack (NoDup l)); vm_compute; exact I end.
