(* ===== verification/JsNum.v ===== *)
(** The Number type of the language: IEEE 754 binary64 values, as the
    standard library's executable [spec_float] at precision 53 and exponent
    bound 1024, with the conversions between numbers and strings the sources
    use ([Number(s)], [String(n)]) and the predicates [Number.isInteger],
    [Number.isFinite] and [Number.isSafeInteger]. *)

From Stdlib Require Import ZArith Lia Ascii SpecFloat.
From stdpp Require Import base list strings pretty.
From S2P Require Import Prelude.

Definition num := spec_float.

Definition NaN : num := S754_nan.
Definition num_of_Z (z : Z) : num := binary_normalize 53 1024 z 0 false.

Definition num_add (x y : num) : num := SFadd 53 1024 x y.
Definition num_sub (x y : num) : num := SFsub 53 1024 x y.
Definition num_mul (x y : num) : num := SFmul 53 1024 x y.

(** [x === y], [x < y], [x <= y] on numbers: false as soon as one is NaN. *)
Definition num_eqb (x y : num) : bool := SFeqb x y.
Definition num_ltb (x y : num) : bool := SFltb x y.
Definition num_leb (x y : num) : bool := SFleb x y.

Definition is_nan (x : num) : bool := match x with S754_nan => true | _ => false end.
(** [Number.isFinite(x)]. *)
Definition is_finite (x : num) : bool :=
  match x with S754_zero _ | S754_finite _ _ _ => true | _ => false end.

Definition signed (neg : bool) (z : Z) : Z := if neg then Z.opp z else z.

(** The integer a number is equal to, if it is one. *)
Definition num_to_Z (x : num) : option Z :=
  match x with
  | S754_zero _ => Some 0%Z
  | S754_finite s m e =>
      if (0 <=? e)%Z then Some (signed s (Zpos m * 2 ^ e)%Z)
      else if (Zpos m mod 2 ^ (- e) =? 0)%Z
           then Some (signed s (Zpos m / 2 ^ (- e))%Z) else None
  | _ => None
  end.

(** [Number.isInteger(x)] and [Number.isSafeInteger(x)]. *)
Definition is_integer (x : num) : bool :=
  match num_to_Z x with Some _ => true | None => false end.
Definition max_safe_integer : Z := 2 ^ 53 - 1.
Definition is_safe_integer (x : num) : bool :=
  match num_to_Z x with Some z => (Z.abs z <=? max_safe_integer)%Z | None => false end.

(** ToIntegerOrInfinity on a finite number: truncation towards zero. *)
Definition num_trunc (x : num) : option Z :=
  match x with
  | S754_zero _ => Some 0%Z
  | S754_finite s m e =>
      Some (signed s (if (0 <=? e)%Z then Zpos m * 2 ^ e else Zpos m / 2 ^ (- e))%Z)
  | _ => None
  end.

(** ** [Number(s)] on strings (StringToNumber) *)

(** The number nearest to [± m * 10^e]: exact integers on both sides of one
    correctly rounded division. *)
Definition dec_to_num (neg : bool) (m e : Z) : num :=
  match m with
  | Zpos p =>
      if (0 <=? e)%Z then binary_normalize 53 1024 (signed neg (m * 10 ^ e)) 0 neg
      else match (10 ^ (- e))%Z with
           | Zpos d => SFdiv 53 1024 (S754_finite neg p 0) (S754_finite false d 0)
           | _ => NaN
           end
  | _ => S754_zero neg
  end.

Definition digit_val (a : ascii) : option Z :=
  if in_range 48 57 a then Some (Z.of_N (code a) - 48)%Z else None.

(** Longest run of digits, its value and its length. *)
Fixpoint take_digits (s : string) (acc : Z) (n : Z) : Z * Z * string :=
  match s with
  | String a s' =>
      match digit_val a with
      | Some d => take_digits s' (10 * acc + d)%Z (n + 1)%Z
      | None => (acc, n, s)
      end
  | EmptyString => (acc, n, s)
  end.

Definition take_sign (s : string) : bool * string :=
  match s with
  | String "-" s' => (true, s')
  | String "+" s' => (false, s')
  | _ => (false, s)
  end.

(** StrDecimalLiteral without its sign. *)
Definition parse_unsigned_decimal (neg : bool) (s : string) : num :=
  let '(m1, n1, r1) := take_digits s 0 0 in
  let '(m2, n2, r2) :=
    match r1 with
    | String "." r => take_digits r m1 0
    | _ => (m1, 0%Z, r1)
    end in
  if (n1 + n2 =? 0)%Z then NaN
  else match r2 with
       | EmptyString => dec_to_num neg m2 (- n2)
       | String a r =>
           if Ascii.eqb a "e" || Ascii.eqb a "E" then
             let '(eneg, r3) := take_sign r in
             let '(x, nx, r4) := take_digits r3 0 0 in
             match r4 with
             | EmptyString =>
                 if (nx =? 0)%Z then NaN else dec_to_num neg m2 (signed eneg x - n2)
             | _ => NaN
             end
           else NaN
       end.

Definition radix_digit (radix : Z) (a : ascii) : option Z :=
  let v := if in_range 48 57 a then Some (Z.of_N (code a) - 48)%Z
           else if in_range 97 102 a then Some (Z.of_N (code a) - 87)%Z
           else if in_range 65 70 a then Some (Z.of_N (code a) - 55)%Z
           else None in
  match v with
  | Some d => if (d <? radix)%Z then Some d else None
  | None => None
  end.

Fixpoint parse_radix (radix : Z) (s : string) (acc : Z) : option Z :=
  match s with
  | EmptyString => Some acc
  | String a s' =>
      match radix_digit radix a with
      | Some d => parse_radix radix s' (radix * acc + d)%Z
      | None => None
      end
  end.

Definition parse_radix_literal (radix : Z) (s : string) : num :=
  match s with
  | EmptyString => NaN
  | _ => match parse_radix radix s 0 with Some z => num_of_Z z | None => NaN end
  end.

Definition string_to_number (s0 : string) : num :=
  let s := trim s0 in
  match s with
  | EmptyString => S754_zero false
  | String "0" (String x r) =>
      if str_in (String x "") ["x"; "X"] then parse_radix_literal 16 r
      else if str_in (String x "") ["o"; "O"] then parse_radix_literal 8 r
      else if str_in (String x "") ["b"; "B"] then parse_radix_literal 2 r
      else parse_unsigned_decimal false s
  | _ =>
      let '(neg, r) := take_sign s in
      if String.eqb r "Infinity" then S754_infinity neg else parse_unsigned_decimal neg r
  end.

(** ** [String(n)] on numbers (Number::toString, radix 10) *)

(** The least [n] with [num/den < 10^n], for [0 < num], [0 < den]. *)
Fixpoint small_exp (fuel : nat) (n d : Z) (k : Z) : Z :=
  match fuel with
  | O => k
  | S fuel' => if (d <=? 10 * n)%Z then k else small_exp fuel' (10 * n)%Z d (k - 1)%Z
  end.

Definition dec_exp (n d : Z) : Z :=
  if (d <=? n)%Z then Z.of_nat (String.length (pretty (n / d)%Z))
  else small_exp 330 n d 0.

(** The closest [k]-digit decimal that reads back as [x], if there is one:
    the digits and their exponent. *)
Definition round_digits (x : num) (n d : Z) (pos : Z) (k : Z) : option Z :=
  let e := (k - pos)%Z in
  let n' := if (0 <=? e)%Z then (n * 10 ^ e)%Z else n in
  let d' := if (0 <=? e)%Z then d else (d * 10 ^ (- e))%Z in
  let q := (n' / d')%Z in
  let r := (n' mod d')%Z in
  let up := ((d' <? 2 * r) || ((d' =? 2 * r) && Z.odd q))%Z in
  let first := if up then (q + 1)%Z else q in
  let second := if up then q else (q + 1)%Z in
  if num_eqb (dec_to_num false first (- e)) x then Some first
  else if num_eqb (dec_to_num false second (- e)) x then Some second
  else None.

Fixpoint shortest (fuel : nat) (x : num) (n d pos k : Z) : Z * Z :=
  match fuel with
  | O => ((n / d)%Z, k)
  | S fuel' =>
      match round_digits x n d pos k with
      | Some s => (s, k)
      | None => shortest fuel' x n d pos (k + 1)%Z
      end
  end.

Fixpoint zeros (n : nat) : string :=
  match n with O => "" | S n' => String "0" (zeros n') end.

Definition format_digits (ds : string) (k n : Z) : string :=
  if ((k <=? n) && (n <=? 21))%Z then ds +:+ zeros (Z.to_nat (n - k))
  else if ((0 <? n) && (n <=? 21))%Z then
    String.substring 0 (Z.to_nat n) ds +:+ "." +:+ String.substring (Z.to_nat n) (Z.to_nat (k - n)) ds
  else if ((-6 <? n) && (n <=? 0))%Z then "0." +:+ zeros (Z.to_nat (- n)) +:+ ds
  else
    let e := (n - 1)%Z in
    let esign := if (e <? 0)%Z then "-" else "+" in
    let frac := String.substring 1 (Z.to_nat (k - 1)) ds in
    String.substring 0 1 ds +:+ (if (k =? 1)%Z then "" else "." +:+ frac)
      +:+ "e" +:+ esign +:+ pretty (Z.abs e).

Definition pos_to_string (x : num) (m : positive) (e : Z) : string :=
  let n := if (0 <=? e)%Z then (Zpos m * 2 ^ e)%Z else Zpos m in
  let d := if (0 <=? e)%Z then 1%Z else (2 ^ (- e))%Z in
  let pos := dec_exp n d in
  let '(s, k) := shortest 18 x n d pos 1 in
  (* a [k]-digit candidate rounded up to a power of ten has one digit more *)
  let ds := pretty s in
  let extra := (Z.of_nat (String.length ds) - k)%Z in
  let ds' := if (0 <? extra)%Z then String.substring 0 (Z.to_nat k) ds else ds in
  format_digits ds' k (pos + Z.max 0 extra).

Definition num_to_string (x : num) : string :=
  match x with
  | S754_nan => "NaN"
  | S754_zero _ => "0"
  | S754_infinity s => if s then "-Infinity" else "Infinity"
  | S754_finite s m e =>
      (if s then "-" else "") +:+ pos_to_string (S754_finite false m e) m e
  end.

(** ** Facts *)

Lemma num_eqb_refl x : is_nan x = false -> num_eqb x x = true.
Proof.
  destruct x as [s|s| |s m e]; try destruct s; try reflexivity; intros; try discriminate;
    unfold num_eqb, SFeqb, SFcompare; rewrite Z.compare_refl;
    unfold PosDef.Pos.compare_cont; fold Pos.compare_cont;
    change (Pos.compare_cont Eq m m) with (Pos.compare m m); rewrite Pos.compare_refl;
    reflexivity.
Qed.

Lemma num_to_Z_finite x z : num_to_Z x = Some z -> is_finite x = true.
Proof. destruct x; simpl; congruence. Qed.

Lemma is_integer_finite x : is_integer x = true -> is_finite x = true.
Proof.
  unfold is_integer. destruct (num_to_Z x) eqn:E; [|discriminate].
  intros _. eapply num_to_Z_finite, E.
Qed.

(** The sign of an integer-valued number is the sign of the integer. *)
Lemma num_to_Z_pos x z :
  num_to_Z x = Some z -> num_ltb (S754_zero false) x = (0 <? z)%Z.
Proof.
  destruct x as [s|s| |s m e]; simpl; try discriminate.
  - by intros [= <-].
  - destruct (0 <=? e)%Z eqn:He.
    + intros [= <-]. apply Z.leb_le in He.
      assert (0 < Zpos m * 2 ^ e)%Z by (apply Z.mul_pos_pos; [lia | apply Z.pow_pos_nonneg; lia]).
      destruct s; cbn -[Z.mul Z.pow]; symmetry; [apply Z.ltb_ge | apply Z.ltb_lt]; lia.
    + destruct (Zpos m mod 2 ^ (- e) =? 0)%Z eqn:Hm; [|discriminate].
      intros [= <-]. apply Z.leb_gt in He. apply Z.eqb_eq in Hm.
      assert (Hp : (0 < 2 ^ (- e))%Z) by (apply Z.pow_pos_nonneg; lia).
      assert (0 < Zpos m / 2 ^ (- e))%Z.
      { apply Z.div_exact in Hm; [|lia]. nia. }
      destruct s; cbn -[Z.div Z.pow Z.opp]; symmetry; [apply Z.ltb_ge | apply Z.ltb_lt]; lia.
Qed.

(** ** The order of numbers

    A number that is not NaN sits at a lexicographic rank, so comparison is a
    total preorder on the others. *)

Definition num_rank (x : num) : Z * Z * Z :=
  match x with
  | S754_nan => (3, 0, 0)%Z
  | S754_zero _ => (0, 0, 0)%Z
  | S754_infinity s => (if s then -2 else 2, 0, 0)%Z
  | S754_finite false m e => (1, e, Zpos m)%Z
  | S754_finite true m e => (-1, - e, - Zpos m)%Z
  end.

Definition lex_le (a b : Z * Z * Z) : Prop :=
  let '(a1, a2, a3) := a in let '(b1, b2, b3) := b in
  (a1 < b1 \/ (a1 = b1 /\ (a2 < b2 \/ (a2 = b2 /\ a3 <= b3))))%Z.

Lemma compare_cont_Eq m m' : PosDef.Pos.compare_cont Eq m m' = Pos.compare m m'.
Proof. reflexivity. Qed.

Lemma num_leb_rank x y :
  num_leb x y = true <-> is_nan x = false /\ is_nan y = false /\ lex_le (num_rank x) (num_rank y).
Proof.
  unfold num_leb, SFleb, SFcompare.
  destruct x as [s|[]| |[] m e], y as [s'|[]| |[] m' e']; simpl;
    try (split; [done | intros (? & ? & ?); done || lia]);
    try (split; [intros _; repeat split; lia | done]).
  all: destruct (Z.compare_spec e e') as [->|He|He]; rewrite ?compare_cont_Eq;
    try destruct (Pos.compare_spec m m'); simpl;
    (split; [intros; repeat split; try done; lia | intros (_ & _ & ?); try done; lia]).
Qed.

Lemma num_leb_trans x y z : num_leb x y = true -> num_leb y z = true -> num_leb x z = true.
Proof.
  rewrite !num_leb_rank. intros (Hx & _ & H1) (_ & Hz & H2). split; [done|]. split; [done|].
  destruct (num_rank x) as [[a1 a2] a3], (num_rank y) as [[b1 b2] b3], (num_rank z) as [[c1 c2] c3].
  simpl in *. lia.
Qed.

Example number_of_decimal : string_to_number " 0.1 " = S754_finite false 7205759403792794 (-56).
Proof. vm_compute. reflexivity. Qed.

Example number_of_strings :
  map string_to_number [""; "3"; "0x10"; "-2"; "1e3"; "3 rounds"; ".5"; "."]
  = [S754_zero false; num_of_Z 3; num_of_Z 16; num_of_Z (-2); num_of_Z 1000; NaN;
     S754_finite false 4503599627370496 (-53); NaN].
Proof. vm_compute. reflexivity. Qed.

Example string_of_numbers :
  map (fun s => num_to_string (string_to_number s))
    ["7"; "-12"; "0.1"; "123456789012345680000"; "1e21"; "5e-324"; "0.000001"; "1e-7"; "1.5"; "9.5e200"]
  = ["7"; "-12"; "0.1"; "123456789012345680000"; "1e+21"; "5e-324"; "0.000001"; "1e-7"; "1.5"; "9.5e+200"].
Proof. vm_compute. reflexivity. Qed.

(** ** Safe integers are represented exactly *)

Lemma iter_xO m k : Zpos (Pos.iter xO m k) = (Zpos m * 2 ^ Zpos k)%Z.
Proof.
  induction k using Pos.peano_ind; [simpl; lia|].
  rewrite Pos.iter_succ, Pos2Z.inj_xO, IHk, Pos2Z.inj_succ, Z.pow_succ_r by lia. lia.
Qed.

Lemma digits_iter_xO m k : Zpos (digits2_pos (Pos.iter xO m k)) = (Zpos (digits2_pos m) + Zpos k)%Z.
Proof.
  induction k using Pos.peano_ind; [simpl; lia|].
  rewrite Pos.iter_succ. cbn [digits2_pos]. rewrite !Pos2Z.inj_succ, IHk. lia.
Qed.

Lemma digits_le m n : (Zpos m < 2 ^ Zpos n)%Z -> (Zpos (digits2_pos m) <= Zpos n)%Z.
Proof.
  assert (Hs : forall n : positive, n = 1%positive \/ exists k, n = Pos.succ k).
  { intros k. destruct (Pos.succ_pred_or k) as [|E]; [by left | right; eauto]. }
  revert n. induction m as [m IH|m IH|]; intros n H; cbn [digits2_pos]; [| |lia].
  all: destruct (Hs n) as [->|[k ->]]; [simpl in H; lia|].
  all: rewrite Pos2Z.inj_succ, Z.pow_succ_r in H by lia; specialize (IH k);
    rewrite !Pos2Z.inj_succ; lia.
Qed.

(** Rounding a mantissa of exactly 53 digits keeps it. *)
Lemma round_full s m e :
  Zpos (digits2_pos m) = 53%Z -> (-1074 <= e <= 971)%Z ->
  binary_round_aux 53 1024 s (Zpos m) e loc_Exact = S754_finite s m e.
Proof.
  intros Hd He. unfold binary_round_aux, shr_fexp, fexp, emin. cbn [Zdigits2]. rewrite Hd.
  replace (Z.max (53 + e - 53) (3 - 1024 - 53) - e)%Z with 0%Z by lia.
  cbn [shr shr_record_of_loc shr_m loc_of_shr_record round_nearest_even Zdigits2]. rewrite Hd.
  replace (Z.max (53 + e - 53) (3 - 1024 - 53) - e)%Z with 0%Z by lia.
  cbn [shr shr_record_of_loc shr_m]. by replace (e <=? 1024 - 53)%Z with true by lia.
Qed.

Lemma round_integer s m :
  (Zpos m < 2 ^ 53)%Z -> num_to_Z (binary_round 53 1024 s m 0) = Some (signed s (Zpos m)).
Proof.
  intros Hm. assert (Hd : (Zpos (digits2_pos m) <= 53)%Z) by (by apply digits_le).
  unfold binary_round, shl_align.
  replace (fexp 53 1024 (Z.pos (digits2_pos m) + 0)) with (Z.pos (digits2_pos m) - 53)%Z
    by (unfold fexp, emin; lia).
  destruct (Z.pos (digits2_pos m) - 53 - 0)%Z as [|p|d] eqn:E; [|lia|].
  - rewrite round_full by lia. cbn [num_to_Z]. f_equal. rewrite Z.pow_0_r. simpl. f_equal. lia.
  - assert (Ez : (Z.pos (digits2_pos m) - 53)%Z = Z.neg d) by lia. rewrite Ez.
    rewrite round_full by (try rewrite digits_iter_xO; lia). cbn [num_to_Z]. cbn [Z.leb Z.compare Z.opp].
    rewrite iter_xO. assert (Hp : (2 ^ Z.pos d <> 0)%Z) by (apply Z.pow_nonzero; lia).
    rewrite Z.mod_mul by done. rewrite Z.eqb_refl, Z.div_mul by done. done.
Qed.

(** The number of a safe integer is that integer. *)
Lemma num_to_Z_of_Z z : (Z.abs z <= max_safe_integer)%Z -> num_to_Z (num_of_Z z) = Some z.
Proof.
  unfold max_safe_integer. intros Hz. unfold num_of_Z, binary_normalize.
  destruct z as [|m|m]; [done| |]; rewrite round_integer by lia; reflexivity.
Qed.

Lemma num_of_Z_inj y z :
  (Z.abs y <= max_safe_integer)%Z -> (Z.abs z <= max_safe_integer)%Z -> num_of_Z y = num_of_Z z -> y = z.
Proof. intros Hy Hz E. apply (f_equal num_to_Z) in E. rewrite !num_to_Z_of_Z in E by done. congruence. Qed.

(** ** The order of safe integers is that of their numbers *)

Lemma digits_lower m : (2 ^ (Zpos (digits2_pos m) - 1) <= Zpos m)%Z.
Proof.
  induction m as [m IH|m IH|]; cbn [digits2_pos]; [| |simpl; lia];
    rewrite Pos2Z.inj_succ;
    replace (Z.succ (Zpos (digits2_pos m)) - 1)%Z with (Z.succ (Zpos (digits2_pos m) - 1)) by lia;
    rewrite Z.pow_succ_r by lia; lia.
Qed.
Lemma digits_upper m : (Zpos m < 2 ^ Zpos (digits2_pos m))%Z.
Proof.
  induction m as [m IH|m IH|]; cbn [digits2_pos]; [| |simpl; lia];
    rewrite Pos2Z.inj_succ, Z.pow_succ_r by lia; lia.
Qed.

(** A positive safe integer as a mantissa of 53 digits. *)
Lemma num_of_pos m :
  (Zpos m < 2 ^ 53)%Z ->
  exists m' d, num_of_Z (Zpos m) = S754_finite false m' (- d) /\ num_of_Z (Zneg m) = S754_finite true m' (- d)
    /\ (0 <= d)%Z /\ Zpos m' = (Zpos m * 2 ^ d)%Z /\ (2 ^ 52 <= Zpos m' < 2 ^ 53)%Z.
Proof.
  intros Hm. assert (Hd : (Zpos (digits2_pos m) <= 53)%Z) by (by apply digits_le).
  pose proof (digits_lower m) as Hlo. pose proof (digits_upper m) as Hup.
  unfold num_of_Z, binary_normalize, binary_round, shl_align.
  replace (fexp 53 1024 (Z.pos (digits2_pos m) + 0)) with (Z.pos (digits2_pos m) - 53)%Z by (unfold fexp, emin; lia).
  destruct (Z.pos (digits2_pos m) - 53 - 0)%Z as [|p|d] eqn:E; [|lia|].
  - exists m, 0%Z. rewrite !round_full by lia. split; [done|]. split; [done|]. split; [lia|]. split; [lia|].
    replace (Zpos (digits2_pos m)) with 53%Z in * by lia. split; [exact Hlo | lia].
  - assert (Ez : (Z.pos (digits2_pos m) - 53)%Z = Z.neg d) by lia. rewrite Ez.
    rewrite !round_full by (try rewrite digits_iter_xO; lia).
    exists (Pos.iter xO m d), (Zpos d). split; [done|]. split; [done|]. split; [lia|]. rewrite iter_xO. split; [done|].
    assert (Hp : (0 < 2 ^ Zpos d)%Z) by (apply Z.pow_pos_nonneg; lia).
    assert (E1 : (2 ^ 52 = 2 ^ (Zpos (digits2_pos m) - 1) * 2 ^ Zpos d)%Z) by (rewrite <- Z.pow_add_r by lia; f_equal; lia).
    assert (E2 : (2 ^ 53 = 2 ^ Zpos (digits2_pos m) * 2 ^ Zpos d)%Z) by (rewrite <- Z.pow_add_r by lia; f_equal; lia).
    rewrite E1, E2. nia.
Qed.

(** Mantissas of full length order as their values. *)
Lemma full_order a b da db :
  (0 <= da)%Z -> (0 <= db)%Z -> (2 ^ 52 <= a * 2 ^ da < 2 ^ 53)%Z -> (2 ^ 52 <= b * 2 ^ db < 2 ^ 53)%Z ->
  (a <= b)%Z <-> (- da < - db \/ (- da = - db /\ a * 2 ^ da <= b * 2 ^ db))%Z.
Proof.
  intros Ha Hb Hxa Hxb.
  assert (Hpa : (0 < 2 ^ da)%Z) by (apply Z.pow_pos_nonneg; lia).
  assert (Hpb : (0 < 2 ^ db)%Z) by (apply Z.pow_pos_nonneg; lia).
  assert (Hgap : forall x y u v, (0 <= v < u)%Z -> (x * 2 ^ u < 2 ^ 53)%Z -> (2 ^ 52 <= y * 2 ^ v)%Z -> (x < y)%Z).
  { intros x y u v Huv Hx Hy. assert (E : (2 ^ u = 2 ^ v * 2 ^ (u - v))%Z) by (rewrite <- Z.pow_add_r by lia; f_equal; lia).
    assert (Hv : (0 < 2 ^ v)%Z) by (apply Z.pow_pos_nonneg; lia).
    assert (Hg : (2 <= 2 ^ (u - v))%Z) by (change 2%Z with (2 ^ 1)%Z at 1; apply Z.pow_le_mono_r; lia).
    assert (2 ^ 53 = 2 * 2 ^ 52)%Z by reflexivity. nia. }
  destruct (Z.lt_trichotomy da db) as [H|[->|H]].
  - split; [intros Hle; exfalso; pose proof (Hgap b a db da); lia | lia].
  - split; [intros; right; split; [done | nia] | intros [?|[_ ?]]; [lia | nia]].
  - split; [lia|]. intros _. pose proof (Hgap a b da db). lia.
Qed.

Lemma num_leb_of_Z a b :
  (Z.abs a <= max_safe_integer)%Z -> (Z.abs b <= max_safe_integer)%Z ->
  num_leb (num_of_Z a) (num_of_Z b) = (a <=? b)%Z.
Proof.
  unfold max_safe_integer. intros Ha Hb. apply eq_true_iff_eq. rewrite num_leb_rank, Z.leb_le.
  destruct a as [|a|a], b as [|b|b];
    try (destruct (num_of_pos a ltac:(lia)) as (ma & da & Epa & Ena & Hda & Hma & Hra));
    try (destruct (num_of_pos b ltac:(lia)) as (mb & db & Epb & Enb & Hdb & Hmb & Hrb));
    rewrite ?Epa, ?Ena, ?Epb, ?Enb; change (num_of_Z 0) with (S754_zero false); cbn [is_nan num_rank lex_le];
    try (split; [lia | intros; repeat split; lia]).
  - rewrite Hma, Hmb in *. pose proof (full_order (Zpos a) (Zpos b) da db Hda Hdb Hra Hrb) as H.
    split; [intros (_ & _ & H1); apply H; lia | intros H1; apply H in H1; repeat split; lia].
  - rewrite Hma, Hmb in *. pose proof (full_order (Zpos b) (Zpos a) db da Hdb Hda Hrb Hra) as H.
    split; [intros (_ & _ & H1); assert (Zpos b <= Zpos a)%Z by (apply H; lia); lia|].
    intros H1. assert (Zpos b <= Zpos a)%Z as H2 by lia. apply H in H2. repeat split; lia.
Qed.

Lemma num_ltb_leb x y : is_nan x = false -> is_nan y = false -> num_ltb x y = negb (num_leb y x).
Proof.
  unfold num_ltb, num_leb, SFltb, SFleb, SFcompare.
  destruct x as [s|[]| |[] m e], y as [s'|[]| |[] m' e']; try done; intros _ _; rewrite (Z.compare_antisym e e');
    destruct (e ?= e')%Z; simpl; try done;
    change (PosDef.Pos.compare_cont Eq m' m) with (Pos.compare m' m); change (PosDef.Pos.compare_cont Eq m m') with (Pos.compare m m');
    rewrite (Pos.compare_antisym m m'); by destruct (m ?= m')%positive.
Qed.

Lemma num_of_Z_not_nan z : (Z.abs z <= max_safe_integer)%Z -> is_nan (num_of_Z z) = false.
Proof. intros H%num_to_Z_of_Z. by destruct (num_of_Z z). Qed.

Lemma num_ltb_of_Z a b :
  (Z.abs a <= max_safe_integer)%Z -> (Z.abs b <= max_safe_integer)%Z ->
  num_ltb (num_of_Z a) (num_of_Z b) = (a <? b)%Z.
Proof.
  intros Ha Hb. rewrite num_ltb_leb, num_leb_of_Z by (try apply num_of_Z_not_nan; done). symmetry. apply Z.ltb_antisym.
Qed.
