(* ===== verification/JsValue.v ===== *)
(** Dynamically typed values: what the sources call [unknown]. A plain object
    is the ordered list of its own enumerable properties; a missing property
    reads as [VUndef]. Values are trees: identity of objects is not modelled,
    so [strict_eq] answers [false] on two objects. *)

From Stdlib Require Import ZArith Lia Ascii SpecFloat.
From stdpp Require Import base list strings.
From S2P Require Import Prelude JsNum.

#[local] Set Warnings "-register-all".

Inductive val :=
| VUndef
| VNull
| VBool (b : bool)
| VNum (n : num)
| VStr (s : string)
| VArr (l : list val)
| VObj (o : list (string * val)).

Abbreviation obj := (jsmap val).

Definition VInt (z : Z) : val := VNum (num_of_Z z).

(** [o.k] on an object; [v?.k] on any value that is not a string or a number. *)
Definition get (o : obj) (k : string) : val :=
  match map_get o k with Some v => v | None => VUndef end.
Definition oget (v : val) (k : string) : val :=
  match v with VObj o => get o k | _ => VUndef end.

Definition is_nullish (v : val) : bool :=
  match v with VUndef | VNull => true | _ => false end.
(** [a ?? b]. *)
Definition coalesce (a b : val) : val := if is_nullish a then b else a.

(** ToBoolean. *)
Definition truthy (v : val) : bool :=
  match v with
  | VUndef | VNull => false
  | VBool b => b
  | VNum (S754_zero _) | VNum S754_nan => false
  | VNum _ => true
  | VStr s => negb (String.eqb s "")
  | VArr _ | VObj _ => true
  end.
(** [a || b], as a value. *)
Definition or_else (a b : val) : val := if truthy a then a else b.

(** [a === b] on primitives. *)
Definition strict_eq (a b : val) : bool :=
  match a, b with
  | VUndef, VUndef | VNull, VNull => true
  | VBool x, VBool y => Bool.eqb x y
  | VNum x, VNum y => num_eqb x y
  | VStr x, VStr y => String.eqb x y
  | _, _ => false
  end.

Definition is_str (v : val) (s : string) : bool := strict_eq v (VStr s).
Definition is_true (v : val) : bool := match v with VBool b => b | _ => false end.
Definition is_false (v : val) : bool := match v with VBool b => negb b | _ => false end.

(** [set.has(v)] for a set of strings. *)
Definition val_in (v : val) (l : list string) : bool :=
  match v with VStr s => str_in s l | _ => false end.

(** [typeof v === '...'], [Array.isArray(v)]. *)
Definition is_string (v : val) : bool := match v with VStr _ => true | _ => false end.
Definition is_bool (v : val) : bool := match v with VBool _ => true | _ => false end.
Definition is_array (v : val) : bool := match v with VArr _ => true | _ => false end.
(** [v && typeof v === 'object']. *)
Definition is_object (v : val) : bool := match v with VArr _ | VObj _ => true | _ => false end.
Definition val_is_integer (v : val) : bool :=
  match v with VNum n => is_integer n | _ => false end.

(** [isDeepStrictEqual(a, b)] on plain trees: the order of properties does not
    matter, numbers are compared as by [Object.is]. *)
Definition same_value (x y : num) : bool :=
  match x, y with
  | S754_nan, S754_nan => true
  | S754_zero s, S754_zero t => Bool.eqb s t
  | _, _ => num_eqb x y
  end.

Fixpoint deep_eq (a b : val) {struct a} : bool :=
  match a, b with
  | VUndef, VUndef | VNull, VNull => true
  | VBool x, VBool y => Bool.eqb x y
  | VNum x, VNum y => same_value x y
  | VStr x, VStr y => String.eqb x y
  | VArr l, VArr m =>
      (fix go (l m : list val) : bool :=
         match l, m with
         | [], [] => true
         | x :: l', y :: m' => deep_eq x y && go l' m'
         | _, _ => false
         end) l m
  | VObj o, VObj p =>
      Nat.eqb (length o) (length p)
      && (fix go (o : list (string * val)) : bool :=
            match o with
            | [] => true
            | (k, v) :: o' =>
                match map_get p k with Some w => deep_eq v w | None => false end && go o'
            end) o
  | _, _ => false
  end.

(** [String(v)]. *)
Fixpoint to_str (v : val) : string :=
  match v with
  | VUndef => "undefined"
  | VNull => "null"
  | VBool true => "true"
  | VBool false => "false"
  | VNum n => num_to_string n
  | VStr s => s
  | VArr l => join "," (map (fun w => if is_nullish w then "" else to_str w) l)
  | VObj _ => "[object Object]"
  end.

(** [Number(v)]: objects and arrays convert through their string. *)
Definition to_num (v : val) : num :=
  match v with
  | VUndef => NaN
  | VNull => S754_zero false
  | VBool b => num_of_Z (if b then 1 else 0)
  | VNum n => n
  | VStr s => string_to_number s
  | VArr _ | VObj _ => string_to_number (to_str v)
  end.

(** The members every object inherits: a computed key may find one of them. *)
Definition OBJECT_MEMBERS : list string :=
  ["constructor"; "__defineGetter__"; "__defineSetter__"; "hasOwnProperty"; "__lookupGetter__";
   "__lookupSetter__"; "isPrototypeOf"; "propertyIsEnumerable"; "toString"; "valueOf"; "__proto__";
   "toLocaleString"].

(** [v.k], which throws on a nullish value. *)
Definition member (v : val) (k : string) : result val :=
  if is_nullish v
  then Throw (TypeError ("Cannot read properties of " +:+ to_str v +:+ " (reading '" +:+ k +:+ "')"))
  else Ok (oget v k).

(** [{ ...o, ...p }]. *)
Definition spread (o p : obj) : obj :=
  fold_left (fun acc kv => map_set acc (fst kv) (snd kv)) p o.

(** The value [JSON.parse(JSON.stringify(v))] of a plain tree: numbers with no
    JSON form become null, properties holding undefined are dropped, undefined
    in an array becomes null, and negative zero becomes zero. A bare undefined
    has no JSON text; a caller that holds one in a property loses the property. *)
Definition json_num (n : num) : val :=
  match n with
  | S754_nan | S754_infinity _ => VNull
  | S754_zero _ => VNum (S754_zero false)
  | _ => VNum n
  end.

Fixpoint json_norm (v : val) : val :=
  match v with
  | VNum n => json_num n
  | VArr l => VArr (map (fun w => match w with VUndef => VNull | _ => json_norm w end) l)
  | VObj o =>
      VObj ((fix go (o : list (string * val)) : list (string * val) :=
               match o with
               | [] => []
               | (k, w) :: o' =>
                   match w with VUndef => go o' | _ => (k, json_norm w) :: go o' end
               end) o)
  | _ => v
  end.

(** Values unchanged by a JSON round trip. *)
Definition json_stable (v : val) : Prop := json_norm v = v.

(** ** Facts *)

Lemma get_set o k v : get (map_set o k v) k = v.
Proof. unfold get. by rewrite map_get_set. Qed.

Lemma get_set_ne o k k' v : k <> k' -> get (map_set o k v) k' = get o k'.
Proof. intros. unfold get. by rewrite map_get_set_ne. Qed.

Lemma is_str_eq v s : is_str v s = true <-> v = VStr s.
Proof.
  unfold is_str. destruct v; simpl; try (split; congruence).
  rewrite String.eqb_eq. split; congruence.
Qed.

Lemma is_true_eq v : is_true v = true <-> v = VBool true.
Proof. destruct v as [| |[]| | | |]; simpl; split; congruence. Qed.

Lemma val_in_spec v l : val_in v l = true <-> exists s, v = VStr s /\ In s l.
Proof.
  destruct v; simpl; try (split; [congruence | by intros (? & [=] & _)]).
  rewrite str_in_In. split; [eauto | by intros (? & [= ->] & ?)].
Qed.

Lemma coalesce_str v s : coalesce (VStr s) v = VStr s.
Proof. done. Qed.

Lemma coalesce_some a b : is_nullish a = false -> coalesce a b = a.
Proof. intros H. unfold coalesce. by rewrite H. Qed.

Lemma strict_eq_str_l s v : strict_eq (VStr s) v = true <-> v = VStr s.
Proof.
  destruct v; simpl; try (split; congruence). rewrite String.eqb_eq. split; congruence.
Qed.

Lemma truthy_str s : truthy (VStr s) = true <-> s <> "".
Proof. simpl. rewrite negb_true_iff, String.eqb_neq. done. Qed.

(** A JSON round trip is idempotent: its result is stable. *)
Section JsonInd.
Variable P : val -> Prop.
Hypothesis (Hu : P VUndef) (Hn : P VNull) (Hb : forall b, P (VBool b))
  (Hm : forall n, P (VNum n)) (Hs : forall s, P (VStr s))
  (Ha : forall l, Forall P l -> P (VArr l))
  (Ho : forall o, Forall (fun kv => P (snd kv)) o -> P (VObj o)).

Fixpoint val_nested_ind (v : val) : P v :=
  match v with
  | VUndef => Hu
  | VNull => Hn
  | VBool b => Hb b
  | VNum n => Hm n
  | VStr s => Hs s
  | VArr l =>
      Ha l ((fix go (l : list val) : Forall P l :=
               match l with
               | [] => Forall_nil_2 _
               | w :: l' => Forall_cons_2 _ _ _ (val_nested_ind w) (go l')
               end) l)
  | VObj o =>
      Ho o ((fix go (o : list (string * val)) : Forall (fun kv => P (snd kv)) o :=
               match o with
               | [] => Forall_nil_2 _
               | kv :: o' => Forall_cons_2 _ _ _ (val_nested_ind (snd kv)) (go o')
               end) o)
  end.
End JsonInd.

Lemma json_norm_stable v : json_stable (json_norm v).
Proof.
  unfold json_stable.
  induction v as [| |b|n|s|l IH|o IH] using val_nested_ind; try reflexivity.
  - destruct n; reflexivity.
  - simpl. f_equal. rewrite map_map. induction IH as [|w l Hw _ IHl]; simpl; [done|].
    f_equal; [|done].
    destruct w as [| | |[]| | |]; simpl in *; done.
  - simpl. f_equal. induction IH as [|[k w] o Hw _ IHo]; simpl; [done|]. simpl in Hw.
    destruct w as [| | |[]| | |]; simpl in *; rewrite ?IHo; congruence.
Qed.

(** The properties that survive a JSON round trip. *)
Fixpoint norm_fields (o : list (string * val)) : list (string * val) :=
  match o with
  | [] => []
  | (k, w) :: o' =>
      match w with VUndef => norm_fields o' | _ => (k, json_norm w) :: norm_fields o' end
  end.

Lemma json_norm_obj o : json_norm (VObj o) = VObj (norm_fields o).
Proof. reflexivity. Qed.

Lemma norm_fields_length o : (length (norm_fields o) <= length o)%nat.
Proof. induction o as [|[k w] o IH]; simpl; [lia|]. destruct w; simpl; lia. Qed.

Lemma json_stable_get o k : json_stable (VObj o) -> json_stable (get o k).
Proof.
  unfold json_stable. rewrite json_norm_obj. intros [= H]. unfold get.
  induction o as [|[k' w] o IH]; simpl; [done|]. simpl in H.
  assert (Hw : json_norm w = w /\ norm_fields o = o).
  { assert (Hc : (k', json_norm w) :: norm_fields o = (k', w) :: o).
    { destruct w; try exact H. pose proof (norm_fields_length o) as Hl. rewrite H in Hl. simpl in Hl. lia. }
    split; congruence. }
  destruct Hw as [Hw Ho]. destruct (String.eqb k k'); [exact Hw | by apply IH].
Qed.

(** What a spread writes, and what it keeps. *)
Lemma get_spread_other o u k : ~ In k (map fst u) -> get (spread o u) k = get o k.
Proof.
  unfold spread. revert o. induction u as [|[k' v] u IH]; simpl; intros o Hk; [done|].
  rewrite IH by tauto. apply get_set_ne. tauto.
Qed.
Lemma get_spread_in o u k v : NoDup (map fst u) -> In (k, v) u -> get (spread o u) k = v.
Proof.
  unfold spread. revert o. induction u as [|[k' v'] u IH]; intros o Hn Hin; [done|]. simpl in Hn.
  apply NoDup_cons in Hn as [Hk Hn]. cbn [fold_left fst snd]. destruct Hin as [[= -> ->]|Hin]; [|by apply IH].
  fold (spread (map_set o k v) u). rewrite get_spread_other; [apply get_set|].
  intros Hin. apply Hk. by apply list_elem_of_In.
Qed.

Create HintDb js_vals.
#[export] Hint Resolve <- is_str_eq is_true_eq : js_vals.
#[export] Hint Resolve get_set json_norm_stable json_stable_get : js_vals.
