(* ===== verification/JsDate.v ===== *)
(** Timestamps: [Date.parse] and [Date.prototype.toISOString]. A time value is
    an integer number of milliseconds since the epoch. The Date Time String
    Format of the language (expanded years included) is parsed here when its
    meaning does not depend on the host; every other text (local times, dates a
    host accepts beyond the format) is the host's, the class [HostDate]. *)

From Stdlib Require Import ZArith Lia Ascii SpecFloat.
From stdpp Require Import base list strings.
From S2P Require Import Prelude JsNum.

(** What the host answers for a text outside the format: [None] is NaN. *)
Class HostDate := { host_date_parse : string -> option Z }.

Open Scope Z_scope.

(** ** Calendar: proleptic Gregorian, days since 1970-01-01 *)

Definition days_from_civil (y m d : Z) : Z :=
  let y' := if m <=? 2 then y - 1 else y in
  let era := y' / 400 in
  let yoe := y' mod 400 in
  let mp := (m + 9) mod 12 in
  let doy := (153 * mp + 2) / 5 + d - 1 in
  let doe := yoe * 365 + yoe / 4 - yoe / 100 + doy in
  era * 146097 + doe - 719468.

Definition civil_from_days (z0 : Z) : Z * Z * Z :=
  let z := z0 + 719468 in
  let era := z / 146097 in
  let doe := z mod 146097 in
  let yoe := (doe - doe / 1460 + doe / 36524 - doe / 146096) / 365 in
  let doy := doe - (365 * yoe + yoe / 4 - yoe / 100) in
  let mp := (5 * doy + 2) / 153 in
  let d := doy - (153 * mp + 2) / 5 + 1 in
  let m := if mp <? 10 then mp + 3 else mp - 9 in
  let y := yoe + era * 400 in
  (if m <=? 2 then y + 1 else y, m, d).

Definition is_leap (y : Z) : bool :=
  (y mod 4 =? 0) && (negb (y mod 100 =? 0) || (y mod 400 =? 0)).

Definition days_in_month (y m : Z) : Z :=
  if m =? 2 then (if is_leap y then 29 else 28)
  else if (m =? 4) || (m =? 6) || (m =? 9) || (m =? 11) then 30 else 31.

Definition ms_per_day : Z := 86400000.
Definition max_time : Z := 8640000000000000.

(** ** Printing *)

Definition digit (z : Z) : ascii := ascii_of_N (Z.to_N (z + 48)).

(** The last [n] decimal digits of [z], then [rest]. *)
Fixpoint fixed (n : nat) (z : Z) (rest : string) : string :=
  match n with
  | O => rest
  | S n' => fixed n' (z / 10) (String (digit (z mod 10)) rest)
  end.

Definition print_year (y : Z) (rest : string) : string :=
  if (0 <=? y) && (y <=? 9999) then fixed 4 y rest
  else if y <? 0 then String "-" (fixed 6 (- y) rest)
  else String "+" (fixed 6 y rest).

(** [new Date(t).toISOString()] on a valid time value. *)
Definition to_iso (t : Z) : string :=
  let day := t / ms_per_day in
  let msd := t mod ms_per_day in
  let '(y, m, d) := civil_from_days day in
  print_year y (String "-" (fixed 2 m (String "-" (fixed 2 d (String "T"
    (fixed 2 (msd / 3600000) (String ":"
    (fixed 2 (msd / 60000 mod 60) (String ":"
    (fixed 2 (msd / 1000 mod 60) (String "."
    (fixed 3 (msd mod 1000) "Z")))))))))))).

(** TimeClip, then [toISOString]: an invalid time value throws. *)
Definition time_clip (x : num) : option Z :=
  match num_trunc x with
  | Some z => if (Z.abs z <=? max_time) then Some z else None
  | None => None
  end.

Definition date_to_iso (x : num) : result string :=
  match time_clip x with
  | Some t => Ok (to_iso t)
  | None => Throw (RangeError "Invalid time value")
  end.

(** ** Parsing *)

Definition one_digit (s : string) : option (Z * string) :=
  match s with
  | String a r => match digit_val a with Some d => Some (d, r) | None => None end
  | EmptyString => None
  end.

Fixpoint digitsN (n : nat) (s : string) (acc : Z) : option (Z * string) :=
  match n with
  | O => Some (acc, s)
  | S n' =>
      match one_digit s with
      | Some (d, r) => digitsN n' r (10 * acc + d)
      | None => None
      end
  end.

Definition parse_year (s : string) : option (Z * string) :=
  match digitsN 4 s 0 with
  | Some r => Some r
  | None =>
      match s with
      | String "+" r => digitsN 6 r 0
      | String "-" r =>
          match digitsN 6 r 0 with
          | Some (y, r') => if y =? 0 then None else Some (- y, r')
          | None => None
          end
      | _ => None
      end
  end.

Definition eat (c : ascii) (s : string) : option string :=
  match s with
  | String a r => if Ascii.eqb a c then Some r else None
  | EmptyString => None
  end.

(** A separator and two or three digits. *)
Definition field (c : ascii) (n : nat) (s : string) : option (Z * string) :=
  match eat c s with Some r => digitsN n r 0 | None => None end.

(** The offset from UTC in minutes. *)
Definition parse_zone (s : string) : option Z :=
  if String.eqb s "Z" then Some 0
  else
    let signed_zone neg r :=
      match digitsN 2 r 0 with
      | Some (h, r1) =>
          match field ":" 2 r1 with
          | Some (m, EmptyString) =>
              if (h <=? 23) && (m <=? 59) then Some (signed neg (h * 60 + m)) else None
          | _ => None
          end
      | None => None
      end in
    match s with
    | String "+" r => signed_zone false r
    | String "-" r => signed_zone true r
    | _ => None
    end.

Definition make_time (y m d h mi s ms zone : Z) : option Z :=
  if (1 <=? m) && (m <=? 12) && (1 <=? d) && (d <=? days_in_month y m)
     && (h <=? 24) && (mi <=? 59) && (s <=? 59)
     && ((h <? 24) || ((mi =? 0) && (s =? 0) && (ms =? 0)))
  then
    let t := days_from_civil y m d * ms_per_day
             + h * 3600000 + mi * 60000 + s * 1000 + ms - zone * 60000 in
    if Z.abs t <=? max_time then Some t else None
  else None.

(** Hours, minutes, optional seconds and milliseconds, then the zone. *)
Definition parse_time (y m d : Z) (s : string) : option Z :=
  match digitsN 2 s 0 with
  | None => None
  | Some (h, r1) =>
      match field ":" 2 r1 with
      | None => None
      | Some (mi, r2) =>
          let '(sec, r3) := match field ":" 2 r2 with Some x => x | None => (0, r2) end in
          let '(ms, r4) := match field "." 3 r3 with Some x => x | None => (0, r3) end in
          match parse_zone r4 with
          | Some zone => make_time y m d h mi sec ms zone
          | None => None
          end
      end
  end.

Definition es_date_parse (s : string) : option Z :=
  match parse_year s with
  | None => None
  | Some (y, EmptyString) => make_time y 1 1 0 0 0 0 0
  | Some (y, r1) =>
      match field "-" 2 r1 with
      | None => None
      | Some (m, EmptyString) => make_time y m 1 0 0 0 0 0
      | Some (m, r2) =>
          match field "-" 2 r2 with
          | None => None
          | Some (d, EmptyString) => make_time y m d 0 0 0 0 0
          | Some (d, r3) =>
              match eat "T" r3 with
              | Some r4 => parse_time y m d r4
              | None => None
              end
          end
      end
  end.

(** [Date.parse(s)]; [None] is NaN. *)
Definition date_parse `{HostDate} (s : string) : option Z :=
  match es_date_parse s with
  | Some t => Some t
  | None => host_date_parse s
  end.

(** ** Facts: the calendar *)

Ltac zdiv := Z.to_euclidean_division_equations; nia.
Ltac zlia := Z.to_euclidean_division_equations; lia.

Lemma yoe_bounds doe (yoe := (doe - doe / 1460 + doe / 36524 - doe / 146096) / 365) :
  0 <= doe < 146097 ->
  0 <= yoe <= 399 /\ 0 <= doe - (365 * yoe + yoe / 4 - yoe / 100) <= 365.
Proof. subst yoe. intros H. split; zlia. Qed.

(** The month index and day of a day-of-year counted from the first of March. *)
Lemma month_bounds doy (mp := (5 * doy + 2) / 153) :
  0 <= doy <= 365 -> 0 <= mp <= 11 /\ 1 <= doy - (153 * mp + 2) / 5 + 1 <= 31.
Proof. subst mp. intros H. split; zlia. Qed.

Lemma civil_from_days_eq z era doe yoe doy mp :
  era = (z + 719468) / 146097 -> doe = (z + 719468) mod 146097 ->
  yoe = (doe - doe / 1460 + doe / 36524 - doe / 146096) / 365 ->
  doy = doe - (365 * yoe + yoe / 4 - yoe / 100) ->
  mp = (5 * doy + 2) / 153 ->
  civil_from_days z =
    (if mp <? 10 then yoe + era * 400 else yoe + era * 400 + 1,
     if mp <? 10 then mp + 3 else mp - 9, doy - (153 * mp + 2) / 5 + 1)
  /\ 0 <= yoe <= 399 /\ 0 <= doy <= 365 /\ 0 <= mp <= 11.
Proof.
  intros -> -> Hy Hd Hm.
  pose proof (Z.mod_pos_bound (z + 719468) 146097 ltac:(lia)) as Hdoe.
  pose proof (yoe_bounds _ Hdoe) as [Hyb Hdb]. rewrite <- Hy, <- Hd in *.
  pose proof (month_bounds _ Hdb) as [Hmb _]. rewrite <- Hm in Hmb.
  split; [|lia]. unfold civil_from_days. rewrite <- Hy, <- Hd, <- Hm.
  destruct (Z.ltb_spec mp 10); f_equal; f_equal.
  - destruct (Z.leb_spec (mp + 3) 2); lia.
  - destruct (Z.leb_spec (mp - 9) 2); lia.
Qed.

Ltac civil_intro z :=
  let era := fresh "era" in let doe := fresh "doe" in let yoe := fresh "yoe" in
  let doy := fresh "doy" in let mp := fresh "mp" in
  remember ((z + 719468) / 146097) as era eqn:Hera;
  remember ((z + 719468) mod 146097) as doe eqn:Hdoe;
  remember ((doe - doe / 1460 + doe / 36524 - doe / 146096) / 365) as yoe eqn:Hyoe;
  remember (doe - (365 * yoe + yoe / 4 - yoe / 100)) as doy eqn:Hdoy;
  remember ((5 * doy + 2) / 153) as mp eqn:Hmp;
  destruct (civil_from_days_eq z era doe yoe doy mp Hera Hdoe Hyoe Hdoy Hmp)
    as (Hcivil & Hyb & Hdb & Hmb).

(** Converting a day number to a date and back is the identity. *)
Lemma days_from_civil_from_days z y m d :
  civil_from_days z = (y, m, d) -> days_from_civil y m d = z.
Proof.
  civil_intro z. rewrite Hcivil. intros [= <- <- <-]. unfold days_from_civil.
  assert (Hz : z = era * 146097 + doe - 719468) by (subst era doe; zlia).
  destruct (Z.ltb_spec mp 10).
  - replace (mp + 3 <=? 2) with false by (symmetry; apply Z.leb_gt; lia).
    replace ((mp + 3 + 9) mod 12) with mp by zlia.
    rewrite Z.div_add, Z.mod_add, (Z.div_small yoe), (Z.mod_small yoe) by lia. lia.
  - replace (mp - 9 <=? 2) with true by (symmetry; apply Z.leb_le; lia).
    replace ((mp - 9 + 9) mod 12) with mp by zlia.
    replace (yoe + era * 400 + 1 - 1) with (yoe + era * 400) by lia.
    rewrite Z.div_add, Z.mod_add, (Z.div_small yoe), (Z.mod_small yoe) by lia. lia.
Qed.

(** The last day of a 400-year computational year is 29 February of a leap year. *)
Lemma feb29_leap doe (yoe := (doe - doe / 1460 + doe / 36524 - doe / 146096) / 365) :
  0 <= doe < 146097 -> doe - (365 * yoe + yoe / 4 - yoe / 100) = 365 ->
  (yoe + 1) mod 4 = 0 /\ ((yoe + 1) mod 100 <> 0 \/ (yoe + 1) mod 400 = 0).
Proof. subst yoe. intros H E. zlia. Qed.

Lemma is_leap_shift yoe era :
  (yoe + 1) mod 4 = 0 -> (yoe + 1) mod 100 <> 0 \/ (yoe + 1) mod 400 = 0 ->
  is_leap (yoe + era * 400 + 1) = true.
Proof.
  intros H4 H100. unfold is_leap.
  replace (yoe + era * 400 + 1) with (yoe + 1 + era * 100 * 4) at 1 by lia.
  rewrite Z.mod_add, H4 by lia. simpl.
  replace (yoe + era * 400 + 1) with (yoe + 1 + era * 4 * 100) at 1 by lia.
  replace (yoe + era * 400 + 1) with (yoe + 1 + era * 400) at 1 by lia.
  rewrite !Z.mod_add by lia.
  destruct H100 as [H|H]; [apply Z.eqb_neq in H | apply Z.eqb_eq in H]; rewrite H; [done|].
  apply orb_true_r.
Qed.

(** Every date printed is a date of its month. *)
Lemma civil_from_days_valid z y m d :
  civil_from_days z = (y, m, d) -> 1 <= m <= 12 /\ 1 <= d <= days_in_month y m.
Proof.
  civil_intro z. rewrite Hcivil. intros [= Hy Hm Hd].
  pose proof (month_bounds _ Hdb) as [_ Hd31]. rewrite <- Hmp in Hd31.
  assert (Hdoeb : 0 <= doe < 146097) by (subst doe; apply Z.mod_pos_bound; lia).
  assert (Hleap : doy = 365 -> is_leap (yoe + era * 400 + 1) = true).
  { intros E. subst doy yoe. destruct (feb29_leap doe Hdoeb E). by apply is_leap_shift. }
  split; [destruct (Z.ltb_spec mp 10); lia|]. split; [lia|].
  unfold days_in_month. destruct (Z.ltb_spec mp 10) as [Hlt|Hge].
  - replace (m =? 2) with false by (symmetry; apply Z.eqb_neq; lia).
    case_match eqn:E; [|lia].
    rewrite !orb_true_iff, !Z.eqb_eq in E.
    destruct E as [[[E|E]|E]|E]; subst m; zlia.
  - assert (mp = 10 \/ mp = 11) as [E|E] by lia.
    + replace (m =? 2) with false by (symmetry; apply Z.eqb_neq; lia).
      replace m with 1 by lia. simpl. lia.
    + replace m with 2 by lia. simpl.
      destruct (Z.eq_dec doy 365) as [E365|N365].
      * rewrite <- Hy, (Hleap E365). zlia.
      * destruct (is_leap y); zlia.
Qed.

(** ** Facts: digits *)

Lemma digit_val_digit k : 0 <= k <= 9 -> digit_val (digit k) = Some k.
Proof.
  intros H. assert (k = 0 \/ k = 1 \/ k = 2 \/ k = 3 \/ k = 4 \/ k = 5 \/ k = 6 \/ k = 7
    \/ k = 8 \/ k = 9) as E by lia.
  repeat destruct E as [->|E]; try subst; reflexivity.
Qed.

(** Reading [S n] digits is reading [n] digits and then one. *)
Lemma digitsN_snoc n s acc :
  digitsN (S n) s acc =
  match digitsN n s acc with
  | Some (v, r) =>
      match one_digit r with Some (d, r') => Some (10 * v + d, r') | None => None end
  | None => None
  end.
Proof.
  revert s acc. induction n as [|n IH]; intros s acc; [done|].
  cbn [digitsN] in *. destruct (one_digit s) as [[d r]|]; [|done]. apply IH.
Qed.

Lemma digitsN_fixed n z rest acc :
  0 <= z -> digitsN n (fixed n z rest) acc = Some (acc * 10 ^ Z.of_nat n + z mod 10 ^ Z.of_nat n, rest).
Proof.
  revert z rest. induction n as [|n IH]; intros z rest Hz.
  - simpl. rewrite Z.mod_1_r. do 2 f_equal. lia.
  - rewrite digitsN_snoc. simpl fixed. rewrite IH by zlia.
    cbn [one_digit]. rewrite digit_val_digit by zlia.
    do 2 f_equal. rewrite Nat2Z.inj_succ, Z.pow_succ_r by lia.
    set (p := 10 ^ Z.of_nat n). assert (0 < p) by (apply Z.pow_pos_nonneg; lia).
    rewrite Z.rem_mul_r by lia. lia.
Qed.

(** A field of [n] digits reads back a number that fits in it. *)
Lemma digitsN_fits n z rest :
  0 <= z < 10 ^ Z.of_nat n -> digitsN n (fixed n z rest) 0 = Some (z, rest).
Proof. intros H. rewrite digitsN_fixed by lia. rewrite Z.mod_small by lia. done. Qed.

Lemma field_fits c n z rest :
  0 <= z < 10 ^ Z.of_nat n -> field c n (String c (fixed n z rest)) = Some (z, rest).
Proof. intros H. unfold field, eat. rewrite Ascii.eqb_refl. by apply digitsN_fits. Qed.

Lemma parse_print_year y rest :
  -1000000 < y < 1000000 -> parse_year (print_year y rest) = Some (y, rest).
Proof.
  intros H. unfold parse_year, print_year.
  destruct ((0 <=? y) && (y <=? 9999)) eqn:E.
  - apply andb_true_iff in E as [?%Z.leb_le ?%Z.leb_le].
    rewrite digitsN_fits by (simpl; lia). done.
  - apply andb_false_iff in E. destruct (Z.ltb_spec y 0).
    + cbn -[digitsN fixed]. change (digitsN 4 _ 0) with (@None (Z * string)).
      rewrite (digitsN_fits 6) by (simpl; lia).
      replace (- y =? 0) with false by (symmetry; apply Z.eqb_neq; lia).
      do 2 f_equal. lia.
    + cbn -[digitsN fixed]. change (digitsN 4 _ 0) with (@None (Z * string)).
      rewrite (digitsN_fits 6) by (simpl; lia). done.
Qed.

Lemma eat_T rest : eat "T" (String "T" rest) = Some rest.
Proof. done. Qed.

(** The years of the representable times fit in six digits. *)
Lemma civil_year_bounds z y m d :
  civil_from_days z = (y, m, d) -> Z.abs z <= 100000000 -> -1000000 < y < 1000000.
Proof.
  civil_intro z. rewrite Hcivil. intros [= Hy _ _] Hz.
  assert (-1000 <= era <= 1000) by (subst era; zlia).
  destruct (mp <? 10); lia.
Qed.

Lemma parse_time_printed y m d msd :
  0 <= msd < ms_per_day ->
  parse_time y m d
    (fixed 2 (msd / 3600000) (String ":"
    (fixed 2 (msd / 60000 mod 60) (String ":"
    (fixed 2 (msd / 1000 mod 60) (String "."
    (fixed 3 (msd mod 1000) "Z")))))))
  = make_time y m d (msd / 3600000) (msd / 60000 mod 60) (msd / 1000 mod 60) (msd mod 1000) 0.
Proof.
  intros H. unfold ms_per_day in H. unfold parse_time.
  rewrite digitsN_fits by (simpl; zlia).
  rewrite !field_fits by (simpl; zlia).
  reflexivity.
Qed.

(** Printing a time value and parsing the text gives the time value back, over
    the whole range of time values. *)
Lemma es_date_parse_to_iso t : Z.abs t <= max_time -> es_date_parse (to_iso t) = Some t.
Proof.
  intros Ht. unfold max_time in Ht. unfold to_iso.
  assert (Hmsd : 0 <= t mod ms_per_day < ms_per_day) by (apply Z.mod_pos_bound; done).
  assert (Hday : Z.abs (t / ms_per_day) <= 100000000) by (unfold ms_per_day; zlia).
  destruct (civil_from_days (t / ms_per_day)) as [[y m] d] eqn:Hciv.
  pose proof (civil_year_bounds _ _ _ _ Hciv Hday).
  pose proof (civil_from_days_valid _ _ _ _ Hciv) as [Hm Hd].
  pose proof (days_from_civil_from_days _ _ _ _ Hciv) as Hdays.
  assert (d <= 31) by (revert Hd; unfold days_in_month; repeat case_match; lia).
  unfold es_date_parse. rewrite parse_print_year by lia.
  rewrite !field_fits by (simpl; lia). rewrite eat_T, parse_time_printed by done.
  unfold make_time. rewrite Hdays. unfold ms_per_day, max_time in *.
  set (msd := t mod 86400000) in *.
  replace (_ && _) with true.
  2: { symmetry. repeat rewrite andb_true_iff. rewrite orb_true_iff.
       rewrite !Z.leb_le, Z.ltb_lt. repeat split; try lia; [zlia.. |]. left. zlia. }
  replace (t / 86400000 * 86400000 + _ + _ + _ + _ - _) with t by (subst msd; zlia).
  apply Z.leb_le in Ht. by rewrite Ht.
Qed.

Lemma date_parse_to_iso `{HostDate} t :
  Z.abs t <= max_time -> date_parse (to_iso t) = Some t.
Proof. intros Ht. unfold date_parse. by rewrite es_date_parse_to_iso. Qed.

Example iso_examples :
  map to_iso [0; 1792000000123; -62198755200000; max_time]
  = ["1970-01-01T00:00:00.000Z"; "2026-10-14T17:46:40.123Z"; "-000001-01-01T00:00:00.000Z";
     "+275760-09-13T00:00:00.000Z"].
Proof. vm_compute. reflexivity. Qed.

Example parse_examples :
  map es_date_parse
    ["2026-10-14T17:46:40.123Z"; "2024-02-29"; "2026-07-17T10:00:00Z"; "2026-07-17T10:00+02:00";
     "2026-02-30T00:00:00Z"; "2026-07-17T10:00:00"; ""; "yesterday"; "2026-07-17T24:00Z"]
  = [Some 1792000000123; Some 1709164800000; Some 1784282400000; Some 1784275200000;
     None; None; None; None; Some 1784332800000].
Proof. vm_compute. reflexivity. Qed.

Create Rewrite HintDb js_dates.
#[export] Hint Rewrite @date_parse_to_iso using lia : js_dates.
