(* ===== verification/ConvergenceBudget.v ===== *)
(** The convergence budget (src/src/kernel/convergence-budget.mjs): how many
    remediation rounds a subject gets and every bound derived from that number.
    Numeric results are the integers the source computes; products by two of
    integral doubles are exact below 2^1023. *)

From Stdlib Require Import ZArith Lia Ascii.
From stdpp Require Import base list strings.
From S2P Require Import Prelude JsNum JsValue.
Open Scope Z_scope.

Definition RISK_CLASSES : list string := ["low"; "medium"; "high"; "critical"].
Definition DEFAULT_RISK_CLASS : string := "medium".

Definition DEFAULT_ROUND_BUDGET_BY_RISK : obj :=
  [("low", VInt 1); ("medium", VInt 2); ("high", VInt 2); ("critical", VInt 2)].

Definition HAMMER_SERIES_RETRIES : Z := 1.
Definition HAMMER_SERIES_TOTAL_DISPATCHES : Z := HAMMER_SERIES_RETRIES + 1.
Definition HAMMER_LIFETIME_BUDGET_MULTIPLE : Z := 2.
Definition REMEDIATION_CEILING_BUDGET_MULTIPLE : Z := 2.

(** The integer a number is, when it is a positive one. *)
Definition positive_int (n : num) : option Z :=
  match num_to_Z n with
  | Some z => if 0 <? z then Some z else None
  | None => None
  end.

Definition isPositiveInt (v : val) : bool :=
  match v with
  | VNum n => match positive_int n with Some _ => true | None => false end
  | _ => false
  end.

(** The integer value of a number that is one. *)
Definition int_of (n : num) : Z := match num_to_Z n with Some z => z | None => 0 end.

Definition medium_default : num := num_of_Z 2.

Definition normalizeRoundBudget_with (maxRounds fallback : val) : num :=
  let parsed := to_num maxRounds in
  if isPositiveInt (VNum parsed) then parsed
  else match fallback with
       | VNum f => if isPositiveInt fallback then f else medium_default
       | _ => medium_default
       end.

Definition normalizeRoundBudget (maxRounds : val) : num :=
  normalizeRoundBudget_with maxRounds (get DEFAULT_ROUND_BUDGET_BY_RISK DEFAULT_RISK_CLASS).

Definition amaRetainLoopCapFor (maxRounds : val) : num := normalizeRoundBudget maxRounds.

Definition hammerLifetimeDispatchesFor (maxRounds : val) : Z :=
  let derived := int_of (normalizeRoundBudget maxRounds) * HAMMER_LIFETIME_BUDGET_MULTIPLE in
  Z.max derived (HAMMER_SERIES_TOTAL_DISPATCHES + 1).

Record Budget := {
  remediationRounds : num;
  amaRetainLoopCap : num;
  hammerLifetimeDispatches : Z
}.

Definition convergenceBudget (maxRounds : val) : Budget :=
  let rounds := normalizeRoundBudget maxRounds in
  {| remediationRounds := rounds;
     amaRetainLoopCap := amaRetainLoopCapFor (VNum rounds);
     hammerLifetimeDispatches := hammerLifetimeDispatchesFor (VNum rounds) |}.

Definition normalizeRiskClassName_with (fallback : string) (riskClass : val) : string :=
  let normalized := to_lower (trim (to_str (coalesce riskClass (VStr "")))) in
  if str_in normalized RISK_CLASSES then normalized else fallback.
Definition normalizeRiskClassName := normalizeRiskClassName_with DEFAULT_RISK_CLASS.

Definition convergenceBudgetForRiskClass (riskClass budgetByRisk : val) : Budget :=
  let risk := normalizeRiskClassName riskClass in
  let declared := oget budgetByRisk risk in
  convergenceBudget
    (if isPositiveInt (VNum (to_num declared))
     then VNum (to_num declared)
     else get DEFAULT_ROUND_BUDGET_BY_RISK risk).

Definition remediationCeilingCapFor (budgetByRisk : val) : Z :=
  let values := map (fun risk => int_of
    (remediationRounds (convergenceBudgetForRiskClass (VStr risk) budgetByRisk))) RISK_CLASSES in
  let widest := match values with [] => 0 | v :: vs => max_of v vs end in
  widest * REMEDIATION_CEILING_BUDGET_MULTIPLE.

(** ** Facts *)

Lemma isPositiveInt_num n :
  isPositiveInt (VNum n) = true <-> exists z, num_to_Z n = Some z /\ 0 < z.
Proof.
  simpl. unfold positive_int. destruct (num_to_Z n) as [z|]; [|split; [done | by intros (? & [=] & _)]].
  destruct (Z.ltb_spec 0 z); split; try done; eauto.
  intros (? & [= <-] & ?). lia.
Qed.

Lemma isPositiveInt_int_of n : isPositiveInt (VNum n) = true -> 1 <= int_of n.
Proof.
  intros (z & E & H)%isPositiveInt_num. unfold int_of. rewrite E. lia.
Qed.

Lemma normalizeRoundBudget_with_pos v f : isPositiveInt (VNum (normalizeRoundBudget_with v f)) = true.
Proof.
  unfold normalizeRoundBudget_with.
  destruct (isPositiveInt (VNum (to_num v))) eqn:E; [exact E|].
  destruct f as [| | |n| | |]; try reflexivity.
  destruct (isPositiveInt (VNum n)) eqn:Ef; [exact Ef | reflexivity].
Qed.

Lemma normalizeRoundBudget_pos v : isPositiveInt (VNum (normalizeRoundBudget v)) = true.
Proof. apply normalizeRoundBudget_with_pos. Qed.

(** Normalization keeps every positive integer, so it is idempotent. *)
Lemma normalizeRoundBudget_keeps n :
  isPositiveInt (VNum n) = true -> normalizeRoundBudget (VNum n) = n.
Proof. intros E. unfold normalizeRoundBudget, normalizeRoundBudget_with. cbn [to_num]. by rewrite E. Qed.

Lemma normalizeRoundBudget_idem v :
  normalizeRoundBudget (VNum (normalizeRoundBudget v)) = normalizeRoundBudget v.
Proof. apply normalizeRoundBudget_keeps, normalizeRoundBudget_pos. Qed.

Lemma normalizeRiskClassName_known v : In (normalizeRiskClassName v) RISK_CLASSES.
Proof.
  unfold normalizeRiskClassName, normalizeRiskClassName_with.
  case_match eqn:E; [by apply str_in_In | right; left; done].
Qed.

Lemma normalizeRiskClassName_id r :
  In r RISK_CLASSES -> normalizeRiskClassName (VStr r) = r.
Proof. intros [<-|[<-|[<-|[<-|[]]]]]; vm_compute; reflexivity. Qed.

Create HintDb convergence.
#[export] Hint Resolve normalizeRoundBudget_pos isPositiveInt_int_of : convergence.

(** Whatever is passed as a round budget (undefined, a string, a negative,
    a fraction), the derived bounds are coherent: at least one remediation
    round, a retain cap equal to the rounds, and a lifetime dispatch ceiling
    strictly above the per-series cap and at least twice the rounds. *)
Theorem convergenceBudget_coherent (v : val) :
  let b := convergenceBudget v in
  1 <= int_of (remediationRounds b)
  /\ amaRetainLoopCap b = remediationRounds b
  /\ HAMMER_SERIES_TOTAL_DISPATCHES < hammerLifetimeDispatches b
  /\ 2 * int_of (remediationRounds b) <= hammerLifetimeDispatches b.
Proof.
  cbn. unfold amaRetainLoopCapFor, hammerLifetimeDispatchesFor.
  rewrite normalizeRoundBudget_idem.
  pose proof (isPositiveInt_int_of _ (normalizeRoundBudget_pos v)).
  unfold HAMMER_SERIES_TOTAL_DISPATCHES, HAMMER_SERIES_RETRIES, HAMMER_LIFETIME_BUDGET_MULTIPLE.
  repeat split; lia.
Qed.

Lemma convergenceBudgetForRiskClass_normalized v t :
  convergenceBudgetForRiskClass v t
  = convergenceBudgetForRiskClass (VStr (normalizeRiskClassName v)) t.
Proof.
  unfold convergenceBudgetForRiskClass at 1 2.
  rewrite (normalizeRiskClassName_id _ (normalizeRiskClassName_known v)). done.
Qed.

(** The rounds of one risk class under a table. *)
Definition risk_rounds (table : val) (risk : string) : Z :=
  int_of (remediationRounds (convergenceBudgetForRiskClass (VStr risk) table)).

Lemma remediationCeilingCapFor_eq table :
  remediationCeilingCapFor table
  = max_of (risk_rounds table "low") (map (risk_rounds table) ["medium"; "high"; "critical"]) * 2.
Proof. reflexivity. Qed.

(** The subject ceiling admits two full-budget stages of every risk class
    under any operator table, and is exactly two stages of the widest one. *)
Theorem remediationCeilingCapFor_two_stages (table : val) :
  (forall v, 2 * int_of (remediationRounds (convergenceBudgetForRiskClass v table))
             <= remediationCeilingCapFor table)
  /\ exists r, In r RISK_CLASSES /\
       remediationCeilingCapFor table
       = 2 * int_of (remediationRounds (convergenceBudgetForRiskClass (VStr r) table)).
Proof.
  rewrite remediationCeilingCapFor_eq. split.
  - intros v. rewrite convergenceBudgetForRiskClass_normalized.
    fold (risk_rounds table (normalizeRiskClassName v)).
    assert (risk_rounds table (normalizeRiskClassName v)
      <= max_of (risk_rounds table "low") (map (risk_rounds table) ["medium"; "high"; "critical"])).
    { apply max_of_ge.
      apply (in_map (risk_rounds table) RISK_CLASSES), normalizeRiskClassName_known. }
    lia.
  - destruct (proj1 (in_map_iff (risk_rounds table) RISK_CLASSES _)
      (max_of_In (risk_rounds table "low") (map (risk_rounds table) ["medium"; "high"; "critical"])))
      as (r & E & Hr).
    exists r. split; [exact Hr|]. rewrite <- E. unfold risk_rounds. lia.
Qed.

(** The ceiling at the shipped table is 4, two stages of two rounds. *)
Example default_ceiling : remediationCeilingCapFor (VObj DEFAULT_ROUND_BUDGET_BY_RISK) = 4.
Proof. vm_compute. reflexivity. Qed.

Example lifetime_of_low : hammerLifetimeDispatches
  (convergenceBudgetForRiskClass (VStr " LOW ") (VObj DEFAULT_ROUND_BUDGET_BY_RISK)) = 3.
Proof. vm_compute. reflexivity. Qed.
