(* ===== verification/Pipeline.v ===== *)
(** The review pipeline (src/src/kernel/pipeline.mjs): folding panel verdicts
    through an aggregation policy, per-stage round budgets and the subject
    ceiling, the re-review plan after a revision advance, and the deprecated
    latest-verdict alias. Optional fields of the contract types are options;
    the values of policies and budget tables are untyped. *)

From Stdlib Require Import ZArith Lia Ascii SpecFloat.
From stdpp Require Import base list strings.
From S2P Require Import Prelude JsNum JsValue ConvergenceBudget.
Open Scope Z_scope.

(** ** Contract types *)

Record Verdict := {
  kind : string;
  blockingFindings : option (list val);
  observedAt : option string;
  revisionRef : option string;
  verdictStageId : option string;
  reviewerRoleId : option string
}.

Record AggregationPolicy := {
  policyKind : string;
  quorum : val;
  threshold : val;
  weights : obj
}.

Record Stage := {
  stageId : string;
  (** [role.id] of each panel member. *)
  panel : list (option string);
  aggregation : option AggregationPolicy;
  roundBudgetByRisk : obj
}.

Record StageState := {
  stateStageId : string;
  stageIndex : option Z;
  panelVerdicts : list Verdict
}.

Record SubjectState := {
  pipeline : list StageState;
  currentRef : option string;
  latestVerdict : option Verdict
}.

Inductive Disposition := clean | blocking | indeterminate.
Inductive Decision := DClean | DBlocking | DPending.

#[export] Instance Disposition_eq_dec : EqDecision Disposition.
Proof. solve_decision. Defined.
#[export] Instance Decision_eq_dec : EqDecision Decision.
Proof. solve_decision. Defined.

Definition AGGREGATION_POLICY_KINDS : list string :=
  ["unanimous-clean"; "any-blocking-blocks"; "quorum"; "weighted"].

Definition DEFAULT_REMEDIATION_CEILING_CAP : Z :=
  remediationCeilingCapFor (VObj DEFAULT_ROUND_BUDGET_BY_RISK).

Definition normalizeRiskClass (value : val) : string :=
  let normalized := to_lower (trim (to_str (coalesce value (VStr "")))) in
  if str_in normalized RISK_CLASSES then normalized else DEFAULT_RISK_CLASS.

(** ** Verdicts *)

Definition classifyVerdictDisposition (verdict : option Verdict) : Disposition :=
  match verdict with
  | None => indeterminate
  | Some v =>
      if String.eqb (kind v) "request-changes" then blocking
      else if match blockingFindings v with Some (_ :: _) => true | _ => false end then blocking
      else if String.eqb (kind v) "approved" || String.eqb (kind v) "comment-only" then clean
      else indeterminate
  end.

Definition text_or_empty (s : option string) : string := default "" s.

Definition stageVerdictAppliesToRevision (verdict : option Verdict) (rev : option string) : bool :=
  let current := trim (text_or_empty rev) in
  if String.eqb current "" then false
  else
    let pinned := trim (text_or_empty (verdict ≫= revisionRef)) in
    negb (String.eqb pinned "") && String.eqb pinned current.

Definition verdictSortKey (v : Verdict) : string := text_or_empty (observedAt v).

(** [a >= b] on strings. *)
Definition str_ge (a b : string) : bool := String.leb b a.

Definition newestVerdict (verdicts : list Verdict) : option Verdict :=
  fold_left (fun best v =>
    match best with
    | None => Some v
    | Some b => if str_ge (verdictSortKey v) (verdictSortKey b) then Some v else best
    end) verdicts None.

Definition stageVerdictsForRevision (st : option StageState) (rev : option string) : list Verdict :=
  filter_b (fun v => stageVerdictAppliesToRevision (Some v) rev)
    (match st with Some s => panelVerdicts s | None => [] end).

Definition panelRoleIds (stage : Stage) : list string :=
  omap (fun id => match id with
                  | Some s => if String.eqb s "" then None else Some s
                  | None => None
                  end) (panel stage).

(** The role a verdict is credited to. *)
Definition attributedRole (soleRole : option string) (v : Verdict) : option string :=
  match reviewerRoleId v with
  | Some r => if String.eqb r "" then soleRole else Some r
  | None => soleRole
  end.

Definition recordRoleVerdict (roleIds : list string) (soleRole : option string)
    (byRole : jsmap Verdict) (v : Verdict) : jsmap Verdict :=
  match attributedRole soleRole v with
  | None => byRole
  | Some roleId =>
      if str_in roleId roleIds then
        match map_get byRole roleId with
        | Some prev =>
            if str_ge (verdictSortKey v) (verdictSortKey prev) then map_set byRole roleId v else byRole
        | None => map_set byRole roleId v
        end
      else byRole
  end.

Definition resolvePanelRoleVerdicts (stage : Stage) (verdicts : list Verdict)
  : list (string * option Verdict) :=
  let roleIds := panelRoleIds stage in
  let soleRole := match roleIds with [r] => Some r | _ => None end in
  let byRole := fold_left (recordRoleVerdict roleIds soleRole) verdicts [] in
  map (fun id => (id, map_get byRole id)) roleIds.

Definition roleWeight (policy : AggregationPolicy) (roleId : string) : num :=
  match get (weights policy) roleId with
  | VNum w => if is_finite w then w else num_of_Z 1
  | _ => num_of_Z 1
  end.

(** ** Aggregation *)

Record StageDecision := {
  sdStageId : string;
  sdPolicy : string;
  panelSize : nat;
  cleanCount : nat;
  blockingCount : nat;
  indeterminateCount : nat;
  missingCount : nat;
  decision : Decision
}.

(** The disposition of a role's newest verdict; [None] when it has not reported. *)
Definition disposition_of (rv : string * option Verdict) : option Disposition :=
  (fun v => classifyVerdictDisposition (Some v)) <$> snd rv.
Definition count_disposition (d : Disposition) : list (string * option Verdict) -> nat :=
  count_b (fun rv => bool_decide (disposition_of rv = Some d)).
Definition count_missing : list (string * option Verdict) -> nat :=
  count_b (fun rv => bool_decide (disposition_of rv = None)).

Record Weights := { cleanWeight : num; blockingWeight : num; totalWeight : num }.

Definition add_weight (policy : AggregationPolicy) (w : Weights) (rv : string * option Verdict) : Weights :=
  let weight := roleWeight policy (fst rv) in
  let total := num_add (totalWeight w) weight in
  match snd rv with
  | None => {| cleanWeight := cleanWeight w; blockingWeight := blockingWeight w; totalWeight := total |}
  | Some v =>
      match classifyVerdictDisposition (Some v) with
      | clean => {| cleanWeight := num_add (cleanWeight w) weight;
                    blockingWeight := blockingWeight w; totalWeight := total |}
      | blocking => {| cleanWeight := cleanWeight w;
                       blockingWeight := num_add (blockingWeight w) weight; totalWeight := total |}
      | indeterminate => {| cleanWeight := cleanWeight w;
                            blockingWeight := blockingWeight w; totalWeight := total |}
      end
  end.

Definition zero_num : num := num_of_Z 0.

Definition weighted_decision (policy : AggregationPolicy) (rvs : list (string * option Verdict))
  : result Decision :=
  match threshold policy with
  | VNum t =>
      if is_finite t && num_ltb zero_num t then
        let w := fold_left (add_weight policy) rvs
          {| cleanWeight := zero_num; blockingWeight := zero_num; totalWeight := zero_num |} in
        let reachableClean := num_sub (totalWeight w) (blockingWeight w) in
        Ok (if num_leb t (cleanWeight w) then DClean
            else if num_ltb reachableClean t then DBlocking else DPending)
      else Throw (TypeError "weighted policy requires a positive `threshold`")
  | _ => Throw (TypeError "weighted policy requires a positive `threshold`")
  end.

Definition quorum_decision (policy : AggregationPolicy) (size cleans blockings : nat) : result Decision :=
  match quorum policy with
  | VNum q =>
      match positive_int q with
      | Some need =>
          let reachableClean := Z.of_nat size - Z.of_nat blockings in
          Ok (if need <=? Z.of_nat cleans then DClean
              else if reachableClean <? need then DBlocking else DPending)
      | None => Throw (TypeError "quorum policy requires a positive integer `quorum`")
      end
  | _ => Throw (TypeError "quorum policy requires a positive integer `quorum`")
  end.

Definition aggregateStageVerdict (stage : Stage) (verdicts : list Verdict) : result StageDecision :=
  match aggregation stage with
  | None => Throw (TypeError "unknown aggregation policy: undefined")
  | Some policy =>
      let kind := policyKind policy in
      if str_in kind AGGREGATION_POLICY_KINDS then
        let rvs := resolvePanelRoleVerdicts stage verdicts in
        let size := length rvs in
        let cleans := count_disposition clean rvs in
        let blockings := count_disposition blocking rvs in
        let indets := count_disposition indeterminate rvs in
        let missing := count_missing rvs in
        let* d :=
          (if Nat.eqb size 0 then Ok DPending
           else if String.eqb kind "unanimous-clean" then
             Ok (if Nat.ltb 0 blockings then DBlocking
                 else if Nat.eqb cleans size then DClean else DPending)
           else if String.eqb kind "any-blocking-blocks" then
             Ok (if Nat.ltb 0 blockings then DBlocking
                 else if Nat.ltb 0 missing then DPending else DClean)
           else if String.eqb kind "quorum" then quorum_decision policy size cleans blockings
           else weighted_decision policy rvs) in
        Ok {| sdStageId := stageId stage; sdPolicy := kind; panelSize := size;
              cleanCount := cleans; blockingCount := blockings; indeterminateCount := indets;
              missingCount := missing; decision := d |}
      else Throw (TypeError ("unknown aggregation policy: " +:+ json_quote kind))
  end.

(** ** Budgets *)

Definition resolveStageRoundBudget (stage : Stage) (riskClass : val) : Z :=
  let risk := normalizeRiskClass riskClass in
  let declared := get (roundBudgetByRisk stage) risk in
  if isPositiveInt declared
  then match declared with VNum n => int_of n | _ => 0 end
  else match get DEFAULT_ROUND_BUDGET_BY_RISK risk with VNum n => int_of n | _ => 0 end.

Inductive CeilingSource := FromOverride | SumCapped.

Record RemediationBudgetPlan := {
  planRiskClass : string;
  perStage : list (string * Z);
  ceiling : Z;
  ceilingSource : CeilingSource
}.

Definition int_value (v : val) : Z := match v with VNum n => int_of n | _ => 0 end.

Definition resolveRemediationBudgetPlan (stages : list Stage) (riskClass cap override : val)
  : result RemediationBudgetPlan :=
  match stages with
  | [] => Throw (TypeError "resolveRemediationBudgetPlan requires a non-empty pipeline")
  | _ =>
      let risk := normalizeRiskClass riskClass in
      let perStage := map (fun s => (stageId s, resolveStageRoundBudget s (VStr risk))) stages in
      let sum := fold_left (fun total e => total + snd e) perStage 0 in
      let maxSingleStage := fold_left (fun m e => Z.max m (snd e)) perStage 0 in
      Ok (if isPositiveInt override
          then {| planRiskClass := risk; perStage := perStage;
                  ceiling := int_value override; ceilingSource := FromOverride |}
          else
            let effectiveCap :=
              if isPositiveInt cap then int_value cap else DEFAULT_REMEDIATION_CEILING_CAP in
            {| planRiskClass := risk; perStage := perStage;
               ceiling := Z.max (Z.min sum effectiveCap) maxSingleStage;
               ceilingSource := SumCapped |})
  end.

(** The [cap] argument left out. *)
Definition default_cap : val := VInt DEFAULT_REMEDIATION_CEILING_CAP.

(** ** The re-review plan *)

Record PlannedStage := {
  aggregated : StageDecision;
  planStageIndex : nat;
  hadPriorVerdicts : bool
}.

Record ReReviewPlan := {
  rrRiskClass : string;
  rrRevisionRef : option string;
  decisions : list PlannedStage;
  complete : bool;
  activeStageIndex : option nat;
  activeStageId : option string;
  stagesToRun : list string;
  invalidatedStageIds : list string;
  budget : RemediationBudgetPlan
}.

Definition index_states (stageStates : list StageState) : jsmap StageState :=
  fold_left (fun m s => map_set m (stateStageId s) s) stageStates [].

Definition planStage (stateById : jsmap StageState) (rev : option string) (stage : Stage) (index : nat)
  : result PlannedStage :=
  let state := map_get stateById (stageId stage) in
  let liveVerdicts := stageVerdictsForRevision state rev in
  let* a := aggregateStageVerdict stage liveVerdicts in
  Ok {| aggregated := a; planStageIndex := index;
        hadPriorVerdicts := match state with
                            | Some s => Nat.ltb 0 (length (panelVerdicts s))
                            | None => false
                            end |}.

Fixpoint planStages (stateById : jsmap StageState) (rev : option string) (stages : list Stage) (index : nat)
  : result (list PlannedStage) :=
  match stages with
  | [] => Ok []
  | s :: rest =>
      let* d := planStage stateById rev s index in
      let* ds := planStages stateById rev rest (S index) in
      Ok (d :: ds)
  end.

Definition not_clean (d : PlannedStage) : bool :=
  negb (bool_decide (decision (aggregated d) = DClean)).
Definition planned_id (d : PlannedStage) : string := sdStageId (aggregated d).

Definition non_empty_text (s : string) : option string := if String.eqb s "" then None else Some s.

Definition planPipelineReReview (stages : list Stage) (stageStates : list StageState)
    (rev : option string) (riskClass budgetOverride : val) : result ReReviewPlan :=
  match stages with
  | [] => Throw (TypeError "planPipelineReReview requires a non-empty pipeline")
  | _ =>
      let stateById := index_states stageStates in
      let* ds := planStages stateById rev stages 0 in
      let activeIndex := find_index not_clean ds in
      let* plan := resolveRemediationBudgetPlan stages riskClass default_cap budgetOverride in
      Ok {| rrRiskClass := normalizeRiskClass riskClass;
            rrRevisionRef := non_empty_text (text_or_empty rev);
            decisions := ds;
            complete := match activeIndex with None => true | Some _ => false end;
            activeStageIndex := activeIndex;
            activeStageId := match activeIndex with
                             | None => None
                             | Some i => planned_id <$> ds !! i
                             end;
            stagesToRun := match activeIndex with
                           | None => []
                           | Some i => map planned_id (drop i ds)
                           end;
            invalidatedStageIds :=
              match activeIndex with
              | None => []
              | Some i => map planned_id (filter_b hadPriorVerdicts (drop (S i) ds))
              end;
            budget := plan |}
  end.

(** ** The active stage and the latest verdict *)

Definition index_or_zero (s : StageState) : Z := default 0 (stageIndex s).

Definition resolveActiveStage (subject : SubjectState) : option StageState :=
  fold_left (fun active s =>
    match stageVerdictsForRevision (Some s) (currentRef subject) with
    | [] => active
    | _ =>
        match active with
        | None => Some s
        | Some a => if index_or_zero a <=? index_or_zero s then Some s else active
        end
    end) (pipeline subject) None.

Definition hasPipelineHistory (subject : SubjectState) : bool :=
  some_b (fun s => Nat.ltb 0 (length (panelVerdicts s))) (pipeline subject).

Definition resolveLatestVerdict (subject : SubjectState) : option Verdict :=
  let newest :=
    match resolveActiveStage subject with
    | Some active => newestVerdict (stageVerdictsForRevision (Some active) (currentRef subject))
    | None => None
    end in
  match newest with
  | Some v => Some v
  | None => if hasPipelineHistory subject then None else latestVerdict subject
  end.

(** ** Facts: newest verdicts *)

Lemma newestVerdict_fold l best :
  match fold_left (fun best v =>
          match best with
          | None => Some v
          | Some b => if str_ge (verdictSortKey v) (verdictSortKey b) then Some v else best
          end) l best with
  | Some v => (In v l \/ best = Some v)
      /\ (forall w, In w l -> str_ge (verdictSortKey v) (verdictSortKey w) = true)
      /\ (forall b, best = Some b -> str_ge (verdictSortKey v) (verdictSortKey b) = true)
  | None => l = [] /\ best = None
  end.
Proof.
  unfold str_ge. revert best. induction l as [|x l IH]; intros best; simpl.
  - destruct best as [b|]; [|done]. split; [by right|]. split; [done|].
    intros b' [= <-]. apply str_leb_refl.
  - set (best' := match best with
          | None => Some x
          | Some b => if (verdictSortKey b <=? verdictSortKey x)%string then Some x else best
          end).
    specialize (IH best').
    assert (Hb : forall y, best = Some y \/ y = x -> exists z, best' = Some z /\
      (verdictSortKey y <=? verdictSortKey z)%string = true).
    { intros y Hy. unfold best'. destruct best as [b|].
      - destruct (verdictSortKey b <=? verdictSortKey x)%string eqn:E.
        + exists x. split; [done|]. destruct Hy as [[= <-]| ->]; [done|apply str_leb_refl].
        + exists b. split; [done|]. destruct Hy as [[= <-]| ->]; [apply str_leb_refl|].
          destruct (String.leb_total (verdictSortKey x) (verdictSortKey b)); [done|congruence].
      - exists x. split; [done|]. destruct Hy as [[=]| ->]. apply str_leb_refl. }
    assert (Hor : best' = Some x \/ best' = best).
    { unfold best'. destruct best as [b|]; [destruct (_ <=? _)%string|]; auto. }
    destruct (fold_left _ l best') as [v|].
    + destruct IH as (Hin & Hl & Hbest). split.
      * destruct Hin as [?|Hin]; [by left; right|]. rewrite Hin in Hor.
        destruct Hor as [[= <-]|Hor]; [by left; left | by right].
      * split.
        -- intros w [<-|Hw]; [|by apply Hl].
           destruct (Hb x (or_intror eq_refl)) as (z & Ez & Hz).
           eapply str_leb_trans; [exact Hz | by apply Hbest].
        -- intros b Hbb. destruct (Hb b (or_introl Hbb)) as (z & Ez & Hz).
           eapply str_leb_trans; [exact Hz | by apply Hbest].
    + destruct IH as [-> IH]. destruct (Hb x (or_intror eq_refl)) as (z & Ez & _). congruence.
Qed.

(** The newest verdict is one of the list and no verdict of it is newer. *)
Lemma newestVerdict_spec l v :
  newestVerdict l = Some v ->
  In v l /\ forall w, In w l -> str_ge (verdictSortKey v) (verdictSortKey w) = true.
Proof.
  unfold newestVerdict. intros E. pose proof (newestVerdict_fold l None) as H. rewrite E in H.
  destruct H as ([Hin|[=]] & Hl & _). done.
Qed.

Lemma newestVerdict_None l : newestVerdict l = None <-> l = [].
Proof.
  split; [|by intros ->]. unfold newestVerdict. intros E.
  pose proof (newestVerdict_fold l None) as H. rewrite E in H. tauto.
Qed.

(** ** Facts: panel resolution *)

Section Panel.
Context (roleIds : list string) (soleRole : option string).

(** What the map holds after folding the verdicts [seen] into it. *)
Definition byRole_inv (seen : list Verdict) (m : jsmap Verdict) : Prop :=
  forall r,
    match map_get m r with
    | Some v => In r roleIds /\ In v seen /\ attributedRole soleRole v = Some r /\
        forall w, In w seen -> attributedRole soleRole w = Some r ->
                  str_ge (verdictSortKey v) (verdictSortKey w) = true
    | None => In r roleIds -> forall w, In w seen -> attributedRole soleRole w <> Some r
    end.

Lemma recordRoleVerdict_other r m v :
  attributedRole soleRole v <> Some r ->
  map_get (recordRoleVerdict roleIds soleRole m v) r = map_get m r.
Proof.
  intros Hne. unfold recordRoleVerdict.
  destruct (attributedRole soleRole v) as [r'|]; [|done].
  assert (r' <> r) by congruence.
  destruct (str_in r' roleIds); [|done].
  destruct (map_get m r'); [destruct (str_ge _ _)|]; try done; by apply map_get_set_ne.
Qed.

Lemma recordRoleVerdict_inv seen m v :
  byRole_inv seen m -> byRole_inv (seen ++ [v]) (recordRoleVerdict roleIds soleRole m v).
Proof.
  intros Hinv r. specialize (Hinv r).
  destruct (decide (attributedRole soleRole v = Some r)) as [Ev|Ev].
  - unfold recordRoleVerdict. rewrite Ev. destruct (str_in r roleIds) eqn:Er.
    + destruct (map_get m r) as [p|] eqn:Em.
      * destruct Hinv as (Hr & Hp & Ep & Hmax).
        destruct (str_ge (verdictSortKey v) (verdictSortKey p)) eqn:Ege.
        -- rewrite map_get_set. split; [by apply str_in_In|]. split; [apply in_or_app; simpl; auto|]. split; [done|].
           intros w [Hw|[<-|[]]]%in_app_or Ew; [|apply str_leb_refl].
           unfold str_ge in *. eapply str_leb_trans; [by apply Hmax | done].
        -- rewrite Em. split; [done|]. split; [apply in_or_app; auto|]. split; [done|].
           intros w [Hw|[<-|[]]]%in_app_or Ew; [by apply Hmax|].
           unfold str_ge in *. destruct (String.leb_total (verdictSortKey v) (verdictSortKey p)); congruence.
      * rewrite map_get_set. split; [by apply str_in_In|]. split; [apply in_or_app; simpl; auto|]. split; [done|].
        intros w [Hw|[<-|[]]]%in_app_or Ew; [|apply str_leb_refl].
        apply str_in_In in Er. by destruct (Hinv Er w Hw).
    + destruct (map_get m r) as [p|] eqn:Em.
      * destruct Hinv as (Hr & Hp & Ep & Hmax). split; [done|]. split; [apply in_or_app; auto|]. split; [done|].
        intros w [Hw|[<-|[]]]%in_app_or Ew; [by apply Hmax|].
        apply str_in_In in Hr. congruence.
      * intros Hr%str_in_In. congruence.
  - rewrite recordRoleVerdict_other by done. destruct (map_get m r) as [p|].
    + destruct Hinv as (Hr & Hp & Ep & Hmax). split; [done|]. split; [apply in_or_app; auto|]. split; [done|].
      intros w [Hw|[<-|[]]]%in_app_or Ew; [by apply Hmax | done].
    + intros Hr w [Hw|[<-|[]]]%in_app_or; [by apply Hinv | done].
Qed.
End Panel.

(** The only role of a one-role panel. *)
Definition sole_role (stage : Stage) : option string :=
  match panelRoleIds stage with [r] => Some r | _ => None end.

Lemma byRole_inv_fold roleIds sole l :
  byRole_inv roleIds sole l (fold_left (recordRoleVerdict roleIds sole) l []).
Proof.
  induction l as [|v l IH] using rev_ind.
  - intros r. simpl. by intros _ w [].
  - rewrite fold_left_app. simpl. by apply recordRoleVerdict_inv.
Qed.

(** Every panel role is reported with the newest verdict credited to it,
    and is reported missing exactly when no verdict is credited to it. *)
Theorem resolvePanelRoleVerdicts_newest (stage : Stage) (verdicts : list Verdict) (r : string) :
  (forall v, In (r, Some v) (resolvePanelRoleVerdicts stage verdicts) ->
     In v verdicts /\ attributedRole (sole_role stage) v = Some r /\
     forall w, In w verdicts -> attributedRole (sole_role stage) w = Some r ->
               str_ge (verdictSortKey v) (verdictSortKey w) = true)
  /\ (In (r, None) (resolvePanelRoleVerdicts stage verdicts) ->
      forall w, In w verdicts -> attributedRole (sole_role stage) w <> Some r)
  /\ map fst (resolvePanelRoleVerdicts stage verdicts) = panelRoleIds stage.
Proof.
  unfold resolvePanelRoleVerdicts. fold (sole_role stage).
  pose proof (byRole_inv_fold (panelRoleIds stage) (sole_role stage) verdicts r) as H.
  repeat split.
  - apply in_map_iff in H0 as (id & [= -> E] & Hid). rewrite E in H. tauto.
  - apply in_map_iff in H0 as (id & [= -> E] & Hid). rewrite E in H. tauto.
  - apply in_map_iff in H0 as (id & [= -> E] & Hid). rewrite E in H. apply H.
  - intros Hin. apply in_map_iff in Hin as (id & [= -> E] & Hid). rewrite E in H. by apply H.
  - rewrite map_map. simpl. apply map_id.
Qed.

Lemma resolvePanelRoleVerdicts_nil stage r o :
  In (r, o) (resolvePanelRoleVerdicts stage []) -> o = None.
Proof.
  unfold resolvePanelRoleVerdicts. simpl. intros (id & [= _ E] & _)%in_map_iff. done.
Qed.

(** ** Facts: counting dispositions *)

Lemma count_disposition_all d rvs :
  count_disposition d rvs = length rvs <-> forall rv, In rv rvs -> disposition_of rv = Some d.
Proof.
  unfold count_disposition. rewrite count_b_all.
  split; intros H rv Hrv; specialize (H rv Hrv); by apply bool_decide_eq_true in H || by apply bool_decide_eq_true.
Qed.

Lemma count_disposition_pos d rvs :
  (0 < count_disposition d rvs)%nat <-> exists rv, In rv rvs /\ disposition_of rv = Some d.
Proof.
  unfold count_disposition. rewrite count_b_pos.
  split; intros (rv & Hrv & H); exists rv; (split; [done|]);
    by apply bool_decide_eq_true in H || by apply bool_decide_eq_true.
Qed.

Lemma count_missing_pos rvs :
  (0 < count_missing rvs)%nat <-> exists rv, In rv rvs /\ disposition_of rv = None.
Proof.
  unfold count_missing. rewrite count_b_pos.
  split; intros (rv & Hrv & H); exists rv; (split; [done|]);
    by apply bool_decide_eq_true in H || by apply bool_decide_eq_true.
Qed.

Lemma counts_partition rvs :
  (count_disposition clean rvs + count_disposition blocking rvs
   + count_disposition indeterminate rvs + count_missing rvs)%nat = length rvs.
Proof.
  unfold count_disposition, count_missing, count_b, filter_b.
  induction rvs as [|rv rvs IH]; simpl; [done|].
  destruct (disposition_of rv) as [[]|]; simpl; lia.
Qed.

(** ** The aggregation policies *)

Lemma aggregate_inv stage verdicts d :
  aggregateStageVerdict stage verdicts = Ok d ->
  exists policy, aggregation stage = Some policy
    /\ In (policyKind policy) AGGREGATION_POLICY_KINDS
    /\ let rvs := resolvePanelRoleVerdicts stage verdicts in
       sdStageId d = stageId stage /\ sdPolicy d = policyKind policy
       /\ panelSize d = length rvs /\ cleanCount d = count_disposition clean rvs
       /\ blockingCount d = count_disposition blocking rvs
       /\ indeterminateCount d = count_disposition indeterminate rvs
       /\ missingCount d = count_missing rvs.
Proof.
  unfold aggregateStageVerdict. destruct (aggregation stage) as [policy|]; [|done].
  destruct (str_in (policyKind policy) AGGREGATION_POLICY_KINDS) eqn:Ek; [|done].
  apply str_in_In in Ek. intros (x & _ & [= <-])%rbind_Ok. exists policy. simpl. done.
Qed.

(** Safety of the blocking policies: under [unanimous-clean] and
    [any-blocking-blocks] a single role whose newest verdict blocks makes the
    stage blocking, whatever the other roles say. *)
Theorem blocking_verdict_blocks (stage : Stage) (verdicts : list Verdict) d r v :
  aggregateStageVerdict stage verdicts = Ok d ->
  sdPolicy d = "unanimous-clean" \/ sdPolicy d = "any-blocking-blocks" ->
  In (r, Some v) (resolvePanelRoleVerdicts stage verdicts) ->
  classifyVerdictDisposition (Some v) = blocking ->
  decision d = DBlocking.
Proof.
  intros Hd Hpol Hin Hv.
  assert (Hpos : (0 < count_disposition blocking (resolvePanelRoleVerdicts stage verdicts))%nat).
  { apply count_disposition_pos. eexists. split; [exact Hin|]. unfold disposition_of. simpl. by f_equal. }
  assert (Hne : Nat.eqb (length (resolvePanelRoleVerdicts stage verdicts)) 0 = false).
  { destruct (resolvePanelRoleVerdicts stage verdicts); [done|]. done. }
  apply Nat.ltb_lt in Hpos. revert Hd. unfold aggregateStageVerdict.
  destruct (aggregation stage) as [policy|]; [|done].
  destruct (str_in _ _); [|done]. cbv zeta. rewrite Hne, Hpos.
  intros (x & Ex & [= <-])%rbind_Ok. simpl in *.
  destruct Hpol as [E|E]; rewrite E in Ex; simpl in Ex; by injection Ex as <-.
Qed.

(** [unanimous-clean] passes a stage exactly when its panel is non-empty and
    the newest verdict of every panel role is clean. *)
Theorem unanimous_clean_iff (stage : Stage) (verdicts : list Verdict) d :
  aggregateStageVerdict stage verdicts = Ok d ->
  sdPolicy d = "unanimous-clean" ->
  decision d = DClean <->
  panelRoleIds stage <> [] /\
  forall rv, In rv (resolvePanelRoleVerdicts stage verdicts) -> disposition_of rv = Some clean.
Proof.
  intros Hd Hpol. rewrite <- count_disposition_all.
  assert (Hlen : length (resolvePanelRoleVerdicts stage verdicts) = length (panelRoleIds stage))
    by apply length_map.
  pose proof (counts_partition (resolvePanelRoleVerdicts stage verdicts)) as Hpart.
  revert Hd. unfold aggregateStageVerdict.
  destruct (aggregation stage) as [policy|]; [|done].
  destruct (str_in _ _); [|done]. cbv zeta.
  intros (x & Ex & [= <-])%rbind_Ok. simpl in *. rewrite Hpol in Ex. simpl in Ex.
  destruct (Nat.eqb_spec (length (resolvePanelRoleVerdicts stage verdicts)) 0) as [E0|E0].
  - injection Ex as <-. split; [done|]. intros [Hne _]. destruct (panelRoleIds stage); simpl in *; [done|lia].
  - injection Ex as <-. assert (panelRoleIds stage <> []) by (intros E; rewrite E in Hlen; simpl in *; lia).
    destruct (Nat.ltb_spec 0 (count_disposition blocking (resolvePanelRoleVerdicts stage verdicts)));
      [split; [done | lia]|].
    destruct (Nat.eqb_spec (count_disposition clean (resolvePanelRoleVerdicts stage verdicts))
      (length (resolvePanelRoleVerdicts stage verdicts))); split; try done; tauto.
Qed.

Lemma quorum_decision_spec policy need size cleans blockings d n :
  quorum policy = VNum n -> positive_int n = Some need ->
  quorum_decision policy size cleans blockings = Ok d ->
  d = if need <=? Z.of_nat cleans then DClean
      else if Z.of_nat size - Z.of_nat blockings <? need then DBlocking else DPending.
Proof. unfold quorum_decision. intros -> ->. by intros [= <-]. Qed.

(** The number of clean roles a stage can still reach: those clean now plus any
    of the roles that are indeterminate or have not reported. *)
Definition reachable_clean_counts (d : StageDecision) (k : nat) : Prop :=
  (cleanCount d <= k <= cleanCount d + indeterminateCount d + missingCount d)%nat.

(** The quorum policy is exact: with [need] roles required, the stage is
    clean when the quorum is reached, and blocking exactly when no outcome of
    the undecided roles can still reach it. *)
Theorem quorum_exact (stage : Stage) (verdicts : list Verdict) d policy n need :
  aggregateStageVerdict stage verdicts = Ok d ->
  aggregation stage = Some policy -> policyKind policy = "quorum" ->
  quorum policy = VNum n -> positive_int n = Some need ->
  panelRoleIds stage <> [] ->
  (decision d = DClean <-> need <= Z.of_nat (cleanCount d))
  /\ (decision d = DBlocking <-> forall k, reachable_clean_counts d k -> Z.of_nat k < need).
Proof.
  intros Hd Hpol Hk Hq Hn Hne.
  assert (Hlen : length (resolvePanelRoleVerdicts stage verdicts) = length (panelRoleIds stage))
    by apply length_map.
  pose proof (counts_partition (resolvePanelRoleVerdicts stage verdicts)) as Hpart.
  revert Hd. unfold aggregateStageVerdict. rewrite Hpol.
  destruct (str_in _ _); [|done]. cbv zeta. rewrite Hk.
  replace (Nat.eqb (length (resolvePanelRoleVerdicts stage verdicts)) 0) with false
    by (symmetry; apply Nat.eqb_neq; destruct (panelRoleIds stage); simpl in *; [done|lia]).
  intros (x & Ex & [= <-])%rbind_Ok. simpl in *.
  apply (quorum_decision_spec _ _ _ _ _ _ _ Hq Hn) in Ex. unfold reachable_clean_counts. simpl.
  destruct (Z.leb_spec need (Z.of_nat (count_disposition clean (resolvePanelRoleVerdicts stage verdicts)))).
  - subst x. split; split; try done.
    intros H'. specialize (H' _ ltac:(split; [reflexivity | lia])). lia.
  - destruct (Z.ltb_spec (Z.of_nat (length (resolvePanelRoleVerdicts stage verdicts))
      - Z.of_nat (count_disposition blocking (resolvePanelRoleVerdicts stage verdicts))) need);
      subst x; split; split; try done; try lia.
    intros H'. specialize (H' _ ltac:(split; [|reflexivity]; lia)). lia.
Qed.

(** ** The remediation budget plan *)

Lemma normalizeRiskClass_known v : In (normalizeRiskClass v) RISK_CLASSES.
Proof.
  unfold normalizeRiskClass. case_match eqn:E; [by apply str_in_In | right; left; done].
Qed.

Lemma default_budget_pos r :
  In r RISK_CLASSES ->
  1 <= match get DEFAULT_ROUND_BUDGET_BY_RISK r with VNum n => int_of n | _ => 0 end.
Proof. by intros [<-|[<-|[<-|[<-|[]]]]]; vm_compute. Qed.

Lemma resolveStageRoundBudget_pos stage risk : 1 <= resolveStageRoundBudget stage risk.
Proof.
  unfold resolveStageRoundBudget.
  destruct (isPositiveInt (get (roundBudgetByRisk stage) (normalizeRiskClass risk))) eqn:E.
  - destruct (get _ _) as [| | |n| | |]; try done. by apply isPositiveInt_int_of.
  - apply default_budget_pos, normalizeRiskClass_known.
Qed.

Lemma fold_sum_ge (l : list (string * Z)) acc :
  Forall (fun e => 1 <= snd e) l ->
  acc <= fold_left (fun total e => total + snd e) l acc /\
  (forall e, In e l -> acc + snd e <= fold_left (fun total e => total + snd e) l acc).
Proof.
  intros H. revert acc. induction H as [|e l He _ IH]; intros acc; simpl; [done|].
  destruct (IH (acc + snd e)) as [H1 H2]. split; [lia|].
  intros e' [<-|Hin]; [lia|]. specialize (H2 _ Hin). lia.
Qed.

Lemma fold_max_ge (l : list (string * Z)) acc :
  acc <= fold_left (fun m e => Z.max m (snd e)) l acc /\
  (forall e, In e l -> snd e <= fold_left (fun m e => Z.max m (snd e)) l acc) /\
  (fold_left (fun m e => Z.max m (snd e)) l acc = acc \/
   exists e, In e l /\ fold_left (fun m e => Z.max m (snd e)) l acc = snd e).
Proof.
  revert acc. induction l as [|e l IH]; intros acc; simpl.
  { split; [lia|]. split; [intros _ [] | by left]. }
  destruct (IH (Z.max acc (snd e))) as (H1 & H2 & H3). split; [lia|]. split.
  - intros e' [<-|Hin]; [lia|]. by apply H2.
  - destruct H3 as [E|(e' & Hin & E)]; [|right; exists e'; auto].
    destruct (Z.max_spec acc (snd e)) as [[_ M]|[_ M]]; rewrite M in E at 2; rewrite E; [|by left].
    right. exists e. auto.
Qed.

(** The sum of the stage budgets of a plan, and the cap it is clamped to. *)
Definition budget_sum (p : RemediationBudgetPlan) : Z :=
  fold_left (fun total e => total + snd e) (perStage p) 0.
Definition effective_cap (cap : val) : Z :=
  if isPositiveInt cap then int_value cap else DEFAULT_REMEDIATION_CEILING_CAP.

(** Budget bounds: every stage gets at least one round; an override sets the
    ceiling; otherwise the ceiling covers each single stage, never exceeds both
    the sum of the stages and the larger of the cap and the largest stage, and
    is the plain sum whenever the sum is within the cap. *)
Theorem budget_plan_bounds (stages : list Stage) (risk cap override : val) p :
  resolveRemediationBudgetPlan stages risk cap override = Ok p ->
  (forall e, In e (perStage p) -> 1 <= snd e)
  /\ map fst (perStage p) = map stageId stages
  /\ (isPositiveInt override = true -> ceiling p = int_value override)
  /\ (isPositiveInt override = false ->
      (forall e, In e (perStage p) -> snd e <= ceiling p)
      /\ 1 <= ceiling p <= budget_sum p
      /\ (ceiling p <= effective_cap cap \/ exists e, In e (perStage p) /\ ceiling p = snd e)
      /\ (budget_sum p <= effective_cap cap -> ceiling p = budget_sum p)).
Proof.
  unfold resolveRemediationBudgetPlan. destruct stages as [|s0 rest]; [done|].
  cbv zeta. set (stages := s0 :: rest). set (risk' := normalizeRiskClass risk).
  set (ps := map (fun s => (stageId s, resolveStageRoundBudget s (VStr risk'))) stages).
  assert (Hps : Forall (fun e => 1 <= snd e) ps).
  { apply List.Forall_forall. intros e (s & <- & _)%in_map_iff. apply resolveStageRoundBudget_pos. }
  assert (Hin0 : In (stageId s0, resolveStageRoundBudget s0 (VStr risk')) ps) by (left; done).
  assert (Hfst : map fst ps = map stageId stages) by (unfold ps; rewrite map_map; done).
  destruct (fold_sum_ge ps 0 Hps) as [_ Hsum].
  destruct (fold_max_ge ps 0) as (_ & Hmax & Hattain).
  pose proof (resolveStageRoundBudget_pos s0 (VStr risk')) as Hpos.
  rewrite List.Forall_forall in Hps. clearbody ps.
  intros [= <-]. fold (effective_cap cap).
  destruct (isPositiveInt override) eqn:Eo; cbn [perStage ceiling]; split; try done; split; try done; split; try done.
  intros _. unfold budget_sum; cbn [perStage].
  pose proof (Hsum _ Hin0) as Hs0. pose proof (Hmax _ Hin0) as Hm0. cbn [snd] in Hs0, Hm0.
  set (S := fold_left (fun total e => total + snd e) ps 0) in *.
  set (M := fold_left (fun m e => Z.max m (snd e)) ps 0) in *.
  clearbody S M. cbn [fst snd] in *.
  assert (Hle : M <= S).
  { destruct Hattain as [E|(e & He & E)]; [lia|]. specialize (Hsum _ He). lia. }
  split; [intros e He; specialize (Hmax _ He); lia|].
  split; [lia|]. split; [|lia].
  destruct (Z.max_spec (Z.min S (effective_cap cap)) M) as [[_ ->]|[_ ->]]; [|left; lia].
  destruct Hattain as [E|(e & He & E)]; [lia | right; eauto].
Qed.

(** ** The re-review plan *)

Lemma add_weight_missing policy rvs w :
  (forall rv, In rv rvs -> snd rv = None) ->
  cleanWeight (fold_left (add_weight policy) rvs w) = cleanWeight w.
Proof.
  revert w. induction rvs as [|rv rvs IH]; intros w H; simpl; [done|].
  rewrite IH by (intros; apply H; by right). unfold add_weight.
  rewrite (H rv (or_introl eq_refl)). reflexivity.
Qed.

Lemma positive_not_le_zero t : num_ltb zero_num t = true -> num_leb t zero_num = false.
Proof. destruct t as [[]|[]| |[] ? ?]; try done; by vm_compute. Qed.

(** Without live verdicts no policy passes a stage. *)
Lemma aggregate_nil_not_clean stage d :
  aggregateStageVerdict stage [] = Ok d -> decision d <> DClean.
Proof.
  unfold aggregateStageVerdict. destruct (aggregation stage) as [policy|]; [|done].
  destruct (str_in _ _); [|done]. cbv zeta.
  set (rvs := resolvePanelRoleVerdicts stage []).
  assert (Hall : forall rv, In rv rvs -> snd rv = None).
  { intros [r o] H. by eapply resolvePanelRoleVerdicts_nil. }
  assert (Hc : count_disposition clean rvs = 0%nat).
  { destruct (count_disposition clean rvs) eqn:E; [done|].
    destruct (proj1 (count_disposition_pos clean rvs)) as (rv & Hrv & Ed); [lia|].
    unfold disposition_of in Ed. by rewrite (Hall rv Hrv) in Ed. }
  assert (Hm : (length rvs <> 0)%nat -> (0 < count_missing rvs)%nat).
  { intros Hne. apply count_missing_pos. destruct rvs as [|rv rvs']; [done|].
    exists rv. split; [by left|]. unfold disposition_of. by rewrite (Hall rv (or_introl eq_refl)). }
  intros (x & Ex & [= <-])%rbind_Ok. simpl. rewrite Hc in Ex. intros ->. revert Ex.
  destruct (Nat.eqb_spec (length rvs) 0) as [|Hne]; [done|]. specialize (Hm Hne).
  destruct (String.eqb _ "unanimous-clean").
  { destruct (Nat.ltb _ _); [done|]. destruct (Nat.eqb_spec 0 (length rvs)); [lia | done]. }
  destruct (String.eqb _ "any-blocking-blocks").
  { destruct (Nat.ltb _ _); [done|]. by apply Nat.ltb_lt in Hm as ->. }
  destruct (String.eqb _ "quorum").
  { unfold quorum_decision. destruct (quorum policy) as [| | |n| | |]; try done.
    destruct (positive_int n) as [need|] eqn:En; [|done].
    unfold positive_int in En. destruct (num_to_Z n); [|done].
    destruct (Z.ltb_spec 0 z); [|done]. injection En as <-.
    destruct (Z.leb_spec z (Z.of_nat 0)); [simpl in *; lia|]. by destruct (_ <? _). }
  unfold weighted_decision. destruct (threshold policy) as [| | |t| | |]; try done.
  destruct (is_finite t && num_ltb zero_num t) eqn:Et; [|done].
  apply andb_true_iff in Et as [_ Et%positive_not_le_zero].
  rewrite (add_weight_missing policy rvs) by done. simpl cleanWeight. rewrite Et.
  by destruct (num_ltb _ _).
Qed.

Lemma planStages_spec m rev stages i ds :
  planStages m rev stages i = Ok ds ->
  map planned_id ds = map stageId stages /\
  forall j d, ds !! j = Some d -> exists s,
    stages !! j = Some s /\ planStage m rev s (i + j)%nat = Ok d.
Proof.
  revert i ds. induction stages as [|s stages IH]; intros i ds; simpl.
  - intros [= <-]. split; [done|]. intros j d. by rewrite lookup_nil.
  - intros (d & Ed & (ds' & Eds & [= <-])%rbind_Ok)%rbind_Ok. destruct (IH _ _ Eds) as [Hids Hlk].
    split.
    + simpl. rewrite Hids. f_equal. unfold planStage in Ed.
      apply rbind_Ok in Ed as (a & Ea & [= <-]). unfold planned_id. simpl.
      by destruct (aggregate_inv _ _ _ Ea) as (? & _ & _ & -> & _).
    + intros [|j] d'; simpl.
      * intros [= <-]. exists s. rewrite Nat.add_0_r. done.
      * intros (s' & Hs & E)%Hlk. exists s'. split; [done|]. rewrite <- E. f_equal. lia.
Qed.

Lemma plan_inv stages states rev risk ov plan :
  planPipelineReReview stages states rev risk ov = Ok plan ->
  stages <> [] /\
  exists ds, planStages (index_states states) rev stages 0 = Ok ds
    /\ decisions plan = ds
    /\ activeStageIndex plan = find_index not_clean ds
    /\ complete plan = match find_index not_clean ds with None => true | Some _ => false end
    /\ stagesToRun plan = match find_index not_clean ds with
                          | None => [] | Some i => map planned_id (drop i ds) end
    /\ resolveRemediationBudgetPlan stages risk default_cap ov = Ok (budget plan).
Proof.
  unfold planPipelineReReview. destruct stages as [|s stages]; [done|].
  intros (ds & Eds & (b & Eb & [= <-])%rbind_Ok)%rbind_Ok. split; [done|].
  exists ds. simpl. done.
Qed.

(** The plan is the first non-clean stage and everything it gates: stages
    before the active one are clean, the stages to run are exactly the suffix
    from the active stage, and the plan is complete when every stage is clean. *)
Theorem plan_active_suffix (stages : list Stage) (states : list StageState) rev risk ov plan :
  planPipelineReReview stages states rev risk ov = Ok plan ->
  match activeStageIndex plan with
  | Some i =>
      complete plan = false
      /\ (forall j d, (j < i)%nat -> decisions plan !! j = Some d -> decision (aggregated d) = DClean)
      /\ (exists d, decisions plan !! i = Some d /\ decision (aggregated d) <> DClean)
      /\ stagesToRun plan = map stageId (drop i stages)
  | None =>
      complete plan = true /\ stagesToRun plan = []
      /\ forall d, In d (decisions plan) -> decision (aggregated d) = DClean
  end.
Proof.
  intros (_ & ds & Eds & -> & -> & -> & -> & _)%plan_inv.
  destruct (planStages_spec _ _ _ _ _ Eds) as [Hids _].
  destruct (find_index not_clean ds) as [i|] eqn:Ei.
  - apply find_index_Some in Ei as [(d & Hd & Hnc) Hlt]. split; [done|]. split; [|split].
    + intros j d' Hj Hl. specialize (Hlt _ _ Hj Hl). unfold not_clean in Hlt.
      apply negb_false_iff, bool_decide_eq_true in Hlt. done.
    + exists d. split; [done|]. unfold not_clean in Hnc.
      by apply negb_true_iff, bool_decide_eq_false in Hnc.
    + rewrite <- !skipn_map, Hids. done.
  - split; [done|]. split; [done|]. intros d Hd.
    pose proof (find_index_None _ _ Ei d Hd) as H. unfold not_clean in H.
    by apply negb_false_iff, bool_decide_eq_true in H.
Qed.

Lemma index_states_In states k s :
  map_get (index_states states) k = Some s -> In s states.
Proof.
  unfold index_states. induction states as [|x states IH] using rev_ind; [done|].
  rewrite fold_left_app. simpl. destruct (decide (stateStageId x = k)) as [<-|Hne].
  - rewrite map_get_set. intros [= <-]. apply in_or_app; simpl; auto.
  - rewrite map_get_set_ne by done. intros H%IH. apply in_or_app; auto.
Qed.

Lemma stageVerdictsForRevision_stale st rev :
  (forall v, In v (panelVerdicts st) -> stageVerdictAppliesToRevision (Some v) rev = false) ->
  stageVerdictsForRevision (Some st) rev = [].
Proof.
  unfold stageVerdictsForRevision, filter_b. induction (panelVerdicts st) as [|v l IH]; simpl; [done|].
  intros H. rewrite (H v (or_introl eq_refl)). auto.
Qed.

(** A revision advance invalidates everything: when no recorded verdict is
    pinned to the current revision, the plan restarts at the first stage and
    runs the whole pipeline, under every aggregation policy. *)
Theorem revision_advance_restarts (stages : list Stage) (states : list StageState) rev risk ov plan :
  planPipelineReReview stages states rev risk ov = Ok plan ->
  (forall st v, In st states -> In v (panelVerdicts st) ->
     stageVerdictAppliesToRevision (Some v) rev = false) ->
  complete plan = false /\ activeStageIndex plan = Some 0%nat
  /\ stagesToRun plan = map stageId stages.
Proof.
  intros (Hne & ds & Eds & _ & -> & -> & -> & _)%plan_inv Hstale.
  destruct (planStages_spec _ _ _ _ _ Eds) as [Hids Hlk].
  destruct ds as [|d ds]; [destruct stages; simpl in Hids; done|].
  assert (Hnc : not_clean d = true).
  { destruct (Hlk 0%nat d eq_refl) as (s & _ & Hp). unfold planStage in Hp.
    apply rbind_Ok in Hp as (a & Ea & [= <-]). unfold not_clean. simpl.
    apply negb_true_iff, bool_decide_eq_false. eapply aggregate_nil_not_clean.
    destruct (map_get (index_states states) (stageId s)) as [st|] eqn:Em; [|exact Ea].
    rewrite stageVerdictsForRevision_stale in Ea; [exact Ea|].
    intros v Hv. eapply Hstale; [by eapply index_states_In | done]. }
  simpl find_index. rewrite Hnc. simpl drop. split; [done|]. split; [done|]. exact Hids.
Qed.

(** ** The latest verdict *)

Lemma resolveActiveStage_In subject st :
  resolveActiveStage subject = Some st ->
  In st (pipeline subject) /\ stageVerdictsForRevision (Some st) (currentRef subject) <> [].
Proof.
  unfold resolveActiveStage.
  set (f := fun active s => _).
  assert (G : forall l a, (forall x, a = Some x -> In x (pipeline subject) /\
      stageVerdictsForRevision (Some x) (currentRef subject) <> []) ->
    (forall x, In x l -> In x (pipeline subject)) ->
    forall x, fold_left f l a = Some x -> In x (pipeline subject) /\
      stageVerdictsForRevision (Some x) (currentRef subject) <> []).
  { induction l as [|s l IH]; intros a Ha Hl x; simpl; [apply Ha|].
    apply IH; [|intros; apply Hl; by right].
    intros y. unfold f. destruct (stageVerdictsForRevision (Some s) (currentRef subject)) eqn:E; [apply Ha|].
    assert (In s (pipeline subject)) by (apply Hl; by left).
    destruct a as [a|]; [destruct (_ <=? _)|]; [|apply Ha|];
      intros [= <-]; (split; [done|]); by rewrite E. }
  apply G; [done | auto].
Qed.

(** The latest-verdict alias never resurrects stale evidence: with pipeline
    history the verdict returned is one of the pipeline's and is pinned to the
    current revision; the legacy field is used only without any history. *)
Theorem resolveLatestVerdict_pinned (subject : SubjectState) v :
  resolveLatestVerdict subject = Some v ->
  (hasPipelineHistory subject = true ->
     stageVerdictAppliesToRevision (Some v) (currentRef subject) = true
     /\ exists st, In st (pipeline subject) /\ In v (panelVerdicts st))
  /\ (hasPipelineHistory subject = false -> latestVerdict subject = Some v).
Proof.
  unfold resolveLatestVerdict.
  destruct (resolveActiveStage subject) as [st|] eqn:Ea.
  - destruct (resolveActiveStage_In _ _ Ea) as [Hst Hne].
    destruct (newestVerdict _) as [w|] eqn:En; [|by apply newestVerdict_None in En].
    intros [= <-]. destruct (newestVerdict_spec _ _ En) as [Hin _].
    apply List.filter_In in Hin as [Hin Hap]. split; [eauto|].
    unfold hasPipelineHistory, some_b. intros Hno.
    assert (Hyes : existsb (fun s => Nat.ltb 0 (length (panelVerdicts s))) (pipeline subject) = true).
    { apply existsb_exists. exists st. split; [done|]. by destruct (panelVerdicts st). }
    congruence.
  - destruct (hasPipelineHistory subject); [done|]. intros H. split; [done | auto].
Qed.

(** ** Concrete inputs *)

Definition ex_verdict (role kind at_ rev : string) : Verdict :=
  {| kind := kind; blockingFindings := None; observedAt := Some at_;
     revisionRef := Some rev; verdictStageId := Some "s1"; reviewerRoleId := Some role |}.

Definition ex_policy (k : string) (q : val) : AggregationPolicy :=
  {| policyKind := k; quorum := q; threshold := VUndef; weights := [] |}.

Definition ex_stage (id k : string) (q : val) : Stage :=
  {| stageId := id; panel := [Some "r1"; Some "r2"]; aggregation := Some (ex_policy k q);
     roundBudgetByRisk := [] |}.

Definition ex_verdicts : list Verdict :=
  [ex_verdict "r1" "request-changes" "2026-01-01T00:00:00.000Z" "abc";
   ex_verdict "r2" "approved" "2026-01-01T00:01:00.000Z" "abc";
   ex_verdict "r1" "approved" "2026-01-01T00:02:00.000Z" "abc"].

Definition ex_states : list StageState :=
  [{| stateStageId := "s1"; stageIndex := Some 0; panelVerdicts := ex_verdicts |}].

Definition ex_subject : SubjectState :=
  {| pipeline := ex_states; currentRef := Some "abc"; latestVerdict := None |}.

Lemma blocking_verdict_blocks_witness :
  exists d, aggregateStageVerdict (ex_stage "s1" "any-blocking-blocks" VUndef) (firstn 2 ex_verdicts) = Ok d
    /\ decision d = DBlocking.
Proof.
  eexists. split; [vm_compute; reflexivity|].
  eapply (blocking_verdict_blocks (ex_stage "s1" "any-blocking-blocks" VUndef) (firstn 2 ex_verdicts) _ "r1");
    [vm_compute; reflexivity | right; vm_compute; reflexivity | vm_compute; left; reflexivity | vm_compute; reflexivity].
Defined.

Lemma unanimous_clean_iff_witness :
  exists d, aggregateStageVerdict (ex_stage "s1" "unanimous-clean" VUndef) ex_verdicts = Ok d
    /\ (decision d = DClean <->
        panelRoleIds (ex_stage "s1" "unanimous-clean" VUndef) <> [] /\
        forall rv, In rv (resolvePanelRoleVerdicts (ex_stage "s1" "unanimous-clean" VUndef) ex_verdicts) ->
                   disposition_of rv = Some clean).
Proof.
  eexists. split; [vm_compute; reflexivity|].
  eapply (unanimous_clean_iff (ex_stage "s1" "unanimous-clean" VUndef) ex_verdicts); vm_compute; reflexivity.
Defined.

Lemma quorum_exact_witness :
  exists d, aggregateStageVerdict (ex_stage "s1" "quorum" (VInt 1)) ex_verdicts = Ok d
    /\ (decision d = DClean <-> 1 <= Z.of_nat (cleanCount d)).
Proof.
  eexists. split; [vm_compute; reflexivity|].
  eapply (quorum_exact (ex_stage "s1" "quorum" (VInt 1)) ex_verdicts _ (ex_policy "quorum" (VInt 1)) (num_of_Z 1) 1);
    try (vm_compute; reflexivity). vm_compute. discriminate.
Defined.

Lemma budget_plan_bounds_witness :
  exists p, resolveRemediationBudgetPlan
      [ex_stage "s1" "quorum" (VInt 1); ex_stage "s2" "quorum" (VInt 1); ex_stage "s3" "quorum" (VInt 1)]
      (VStr "high") default_cap VUndef = Ok p
    /\ ceiling p = 4 /\ forall e, In e (perStage p) -> 1 <= snd e.
Proof.
  eexists. split; [vm_compute; reflexivity|]. split; [vm_compute; reflexivity|].
  eapply (budget_plan_bounds
      [ex_stage "s1" "quorum" (VInt 1); ex_stage "s2" "quorum" (VInt 1); ex_stage "s3" "quorum" (VInt 1)]
      (VStr "high") default_cap VUndef). vm_compute. reflexivity.
Defined.

Lemma plan_active_suffix_witness :
  exists plan, planPipelineReReview
      [ex_stage "s1" "unanimous-clean" VUndef; ex_stage "s2" "unanimous-clean" VUndef]
      ex_states (Some "abc") VUndef VUndef = Ok plan
    /\ stagesToRun plan = ["s2"].
Proof.
  eexists. split; [vm_compute; reflexivity|].
  match goal with |- stagesToRun ?p = _ =>
    exact (proj2 (proj2 (proj2 (plan_active_suffix
      [ex_stage "s1" "unanimous-clean" VUndef; ex_stage "s2" "unanimous-clean" VUndef]
      ex_states (Some "abc") VUndef VUndef p ltac:(vm_compute; reflexivity))))) end.
Defined.

Lemma revision_advance_restarts_witness :
  exists plan, planPipelineReReview
      [ex_stage "s1" "unanimous-clean" VUndef; ex_stage "s2" "unanimous-clean" VUndef]
      ex_states (Some "def") VUndef VUndef = Ok plan
    /\ stagesToRun plan = ["s1"; "s2"].
Proof.
  eexists. split; [vm_compute; reflexivity|].
  eapply (revision_advance_restarts
      [ex_stage "s1" "unanimous-clean" VUndef; ex_stage "s2" "unanimous-clean" VUndef]
      ex_states (Some "def") VUndef VUndef); [vm_compute; reflexivity|].
  intros st v [<-|[]]. simpl. intros [<-|[<-|[<-|[]]]]; vm_compute; reflexivity.
Defined.

Lemma resolveLatestVerdict_pinned_witness :
  exists v, resolveLatestVerdict ex_subject = Some v
    /\ stageVerdictAppliesToRevision (Some v) (currentRef ex_subject) = true.
Proof.
  eexists. split; [vm_compute; reflexivity|].
  eapply (resolveLatestVerdict_pinned ex_subject); vm_compute; reflexivity.
Defined.
