(* ===== verification/RoleRouting.v ===== *)
(** Reviewer routing (src/src/kernel/role-routing.mjs): which registry roles may
    review a subject, and in which order. Roles, registries and subjects are the
    untyped values the module receives; the injected [builderClassFamily]
    resolver is an argument. *)

From Stdlib Require Import ZArith Lia Ascii SpecFloat Permutation Sorted.
From stdpp Require Import base list strings pretty.
From S2P Require Import Prelude JsNum JsValue.
Open Scope Z_scope.

Definition DEFAULT_FAMILY_ALIASES : obj := [("claude", VStr "claude-code")].
Definition DEFAULT_REVIEW_ROLE_PRIORITY : Z := 100.

(** Reading the alias table with a computed key also finds the two lower-case
    names a plain object inherits; they are given by the text they convert to. *)
Definition alias_lookup (token : string) : val :=
  if String.eqb token "constructor" then VStr "function Object() { [native code] }"
  else if String.eqb token "__proto__" then VStr "[object Object]"
  else get DEFAULT_FAMILY_ALIASES token.

Definition defaultBuilderClassFamily (value : val) : val :=
  let token := to_lower (trim (to_str (coalesce value (VStr "")))) in
  if String.eqb token "" then VNull else coalesce (alias_lookup token) (VStr token).

Definition resolveFamily (resolver : option (val -> val)) (value : val) : option string :=
  let familyOf := default defaultBuilderClassFamily resolver in
  let family := familyOf value in
  let normalized := if is_nullish family then "" else to_lower (trim (to_str family)) in
  if String.eqb normalized "" then None else Some normalized.

Definition reviewerRolePriority (role : val) : Z :=
  match oget role "priority" with
  | VNum n => default DEFAULT_REVIEW_ROLE_PRIORITY (num_to_Z n)
  | _ => DEFAULT_REVIEW_ROLE_PRIORITY
  end.

Definition roleReviewerClass (role : val) : val :=
  let workerClass := trim (to_str (coalesce (oget role "workerClass") (VStr ""))) in
  if String.eqb workerClass "" then VNull else VStr workerClass.

Record RoleDecision := {
  allowed : bool;
  reason : string;
  roleFamily : option string;
  subjectFamily : option string
}.

Definition roleMayReviewSubject (role subjectBuilderClass : val)
    (neverReviewOwnBuilderClass : bool) (resolver : option (val -> val)) : RoleDecision :=
  let roleFam := resolveFamily resolver (roleReviewerClass role) in
  let subjectFam := resolveFamily resolver subjectBuilderClass in
  let base ok why :=
    {| allowed := ok; reason := why; roleFamily := roleFam; subjectFamily := subjectFam |} in
  if negb neverReviewOwnBuilderClass then base true "constraint-disabled"
  else match roleFam, subjectFam with
       | None, _ => base true "role-has-no-worker-class"
       | Some _, None => base true "subject-has-no-builder-class"
       | Some r, Some s =>
           if String.eqb r s then base false "own-builder-class" else base true "cross-class"
       end.

Record EligibleRole := { roleId : string; role : val; roleDecision : RoleDecision }.

(** [Object.entries] of an object or an array. *)
Fixpoint indexed (i : N) (l : list val) : list (string * val) :=
  match l with [] => [] | v :: l' => (pretty i, v) :: indexed (i + 1) l' end.
Definition object_entries (v : val) : list (string * val) :=
  match v with VObj o => o | VArr l => indexed 0 l | _ => [] end.

(** The comparator: priority, then registry position. *)
Definition before (a b : EligibleRole * nat) : bool :=
  let pa := reviewerRolePriority (role (fst a)) in
  let pb := reviewerRolePriority (role (fst b)) in
  if pa =? pb then Nat.leb (snd a) (snd b) else pa <? pb.

(** [eligible.sort(comparator)], by insertion. *)
Fixpoint insert_sorted (x : EligibleRole * nat) (l : list (EligibleRole * nat)) :=
  match l with
  | [] => [x]
  | y :: l' => if before x y then x :: l else y :: insert_sorted x l'
  end.
Definition sort_eligible (l : list (EligibleRole * nat)) : list (EligibleRole * nat) :=
  foldr insert_sorted [] l.

Definition subject_builder_class (subject : val) : val :=
  if is_string subject then subject else coalesce (oget subject "builderClass") VNull.

Fixpoint collect_eligible (never : bool) (resolver : option (val -> val)) (sbc : val)
    (entries : list (string * val)) (index : nat) : list (EligibleRole * nat) :=
  match entries with
  | [] => []
  | (id, r) :: rest =>
      let tail := collect_eligible never resolver sbc rest (S index) in
      if is_str (oget r "taskKind") "review" then
        let d := roleMayReviewSubject r sbc never resolver in
        if allowed d
        then ({| roleId := id; role := r; roleDecision := d |}, index) :: tail
        else tail
      else tail
  end.

Definition selectEligibleReviewerRoles (registry subject : val) (resolver : option (val -> val))
  : list EligibleRole :=
  let roles := oget registry "roles" in
  if negb (is_object roles) then []
  else
    let never := negb (is_false (oget (oget registry "routing") "neverReviewOwnBuilderClass")) in
    let eligible := collect_eligible never resolver (subject_builder_class subject)
                      (object_entries roles) 0 in
    map fst (sort_eligible eligible).

(** ** The order *)

Lemma before_total a b : before a b = false -> before b a = true.
Proof.
  unfold before.
  destruct (Z.eqb_spec (reviewerRolePriority (role a.1)) (reviewerRolePriority (role b.1))) as [E|E].
  - rewrite E, Z.eqb_refl. rewrite Nat.leb_gt, Nat.leb_le. lia.
  - rewrite Z.ltb_ge. destruct (Z.eqb_spec (reviewerRolePriority (role b.1)) (reviewerRolePriority (role a.1)));
      [lia|]. rewrite Z.ltb_lt. lia.
Qed.

Lemma insert_sorted_perm x l : Permutation (insert_sorted x l) (x :: l).
Proof.
  induction l as [|y l IH]; simpl; [done|]. destruct (before x y); [done|].
  rewrite IH. apply perm_swap.
Qed.

Lemma sort_eligible_perm l : Permutation (sort_eligible l) l.
Proof.
  induction l as [|x l IH]; simpl; [done|]. rewrite insert_sorted_perm. by constructor.
Qed.

Definition ordered (a b : EligibleRole * nat) : Prop := before a b = true.

Lemma insert_sorted_sorted x l : LocallySorted ordered l -> LocallySorted ordered (insert_sorted x l).
Proof.
  induction 1 as [|y|y z l Hl IH Hyz]; simpl.
  - constructor.
  - destruct (before x y) eqn:E; repeat constructor; [exact E | by apply before_total].
  - destruct (before x y) eqn:E; [repeat constructor; done|].
    simpl in IH. destruct (before x z) eqn:E2.
    + repeat constructor; try done. by apply before_total.
    + by constructor.
Qed.

Lemma sort_eligible_sorted l : LocallySorted ordered (sort_eligible l).
Proof. induction l as [|x l IH]; simpl; [constructor|]. by apply insert_sorted_sorted. Qed.

Lemma collect_eligible_In never resolver sbc entries i e k :
  In (e, k) (collect_eligible never resolver sbc entries i) <->
  (i <= k)%nat /\ entries !! (k - i)%nat = Some (roleId e, role e)
  /\ is_str (oget (role e) "taskKind") "review" = true
  /\ roleDecision e = roleMayReviewSubject (role e) sbc never resolver
  /\ allowed (roleDecision e) = true.
Proof.
  revert i. induction entries as [|[id r] entries IH]; intros i; simpl.
  { split; [done|]. rewrite lookup_nil. by intros (_ & ? & _). }
  assert (Htail : In (e, k) (collect_eligible never resolver sbc entries (S i)) <->
    (i < k)%nat /\ ((id, r) :: entries) !! (k - i)%nat = Some (roleId e, role e)
    /\ is_str (oget (role e) "taskKind") "review" = true
    /\ roleDecision e = roleMayReviewSubject (role e) sbc never resolver
    /\ allowed (roleDecision e) = true).
  { rewrite IH. split; intros (Hk & Hrest); (split; [lia|]).
    - by replace (k - i)%nat with (S (k - S i)) by lia.
    - by replace (k - i)%nat with (S (k - S i)) in Hrest by lia. }
  assert (Hsplit : forall P : Prop, (i <= k)%nat /\ P <-> (i = k /\ P) \/ ((i < k)%nat /\ P)).
  { intros P. split; [|intuition lia]. intros [H HP]. destruct (decide (i = k)); [auto | right; split; [lia|done]]. }
  rewrite Hsplit, <- Htail. clear Hsplit IH.
  destruct (is_str (oget r "taskKind") "review") eqn:Ek.
  - destruct (allowed (roleMayReviewSubject r sbc never resolver)) eqn:Ea; simpl.
    + split; (intros [H|H]; [left | by right]).
      * injection H as <- <-. rewrite Nat.sub_diag. done.
      * destruct H as (-> & Hlk & _ & Hd & _). rewrite Nat.sub_diag in Hlk. simpl in Hlk.
        destruct e as [id' r' d']. simpl in *. congruence.
    + split; [by right|]. intros [H|H]; [|done]. destruct H as (-> & Hlk & _ & Hd & Hal).
      rewrite Nat.sub_diag in Hlk. injection Hlk as -> ->. congruence.
  - split; [by right|]. intros [H|H]; [|done]. destruct H as (-> & Hlk & Ht & _).
    rewrite Nat.sub_diag in Hlk. injection Hlk as -> ->. congruence.
Qed.

Lemma select_In registry subject resolver e :
  In e (selectEligibleReviewerRoles registry subject resolver) <->
  is_object (oget registry "roles") = true /\ exists k,
    In (e, k) (collect_eligible
      (negb (is_false (oget (oget registry "routing") "neverReviewOwnBuilderClass")))
      resolver (subject_builder_class subject) (object_entries (oget registry "roles")) 0).
Proof.
  unfold selectEligibleReviewerRoles. destruct (is_object _); simpl.
  - rewrite in_map_iff. split.
    + intros ([e' k] & <- & Hin). split; [done|]. exists k.
      by rewrite sort_eligible_perm in Hin.
    + intros (_ & k & Hin). exists (e, k). split; [done|]. by rewrite sort_eligible_perm.
  - split; [done | by intros [[=] _]].
Qed.

(** Never review your own builder class: unless the registry disables the
    constraint, a selected role and the subject have different families as soon
    as both have one, whatever family resolver is injected. *)
Theorem selected_never_own_class (registry subject : val) (resolver : option (val -> val)) e rf sf :
  In e (selectEligibleReviewerRoles registry subject resolver) ->
  is_false (oget (oget registry "routing") "neverReviewOwnBuilderClass") = false ->
  resolveFamily resolver (roleReviewerClass (role e)) = Some rf ->
  resolveFamily resolver (subject_builder_class subject) = Some sf ->
  rf <> sf.
Proof.
  intros [_ (k & Hin)]%select_In Hon Hrf Hsf ->. rewrite Hon in Hin.
  apply collect_eligible_In in Hin as (_ & _ & _ & Hd & Hal).
  unfold roleMayReviewSubject in Hd. rewrite Hrf, Hsf, String.eqb_refl in Hd. simpl in Hd.
  by rewrite Hd in Hal.
Qed.

(** The selection is complete and ordered: it contains exactly the review
    roles of the registry that may review the subject, sorted by priority, ties
    in registry order. *)
Theorem selection_sorted_complete (registry subject : val) (resolver : option (val -> val)) :
  let never := negb (is_false (oget (oget registry "routing") "neverReviewOwnBuilderClass")) in
  let sbc := subject_builder_class subject in
  (forall id r, is_object (oget registry "roles") = true ->
     (exists i, object_entries (oget registry "roles") !! i = Some (id, r)) ->
     (exists e, In e (selectEligibleReviewerRoles registry subject resolver)
                /\ roleId e = id /\ role e = r)
     \/ oget r "taskKind" <> VStr "review"
     \/ allowed (roleMayReviewSubject r sbc never resolver) = false)
  /\ exists indexed_roles, LocallySorted ordered indexed_roles
       /\ map fst indexed_roles = selectEligibleReviewerRoles registry subject resolver
       /\ forall e k, In (e, k) indexed_roles ->
            object_entries (oget registry "roles") !! k = Some (roleId e, role e)
            /\ oget (role e) "taskKind" = VStr "review"
            /\ allowed (roleMayReviewSubject (role e) sbc never resolver) = true.
Proof.
  intros never sbc. split.
  - intros id r Hobj (i & Hi).
    destruct (is_str (oget r "taskKind") "review") eqn:Ek;
      [|right; left; intros E; rewrite E in Ek; by vm_compute in Ek].
    destruct (allowed (roleMayReviewSubject r sbc never resolver)) eqn:Ea; [|by right; right].
    left. exists {| roleId := id; role := r; roleDecision := roleMayReviewSubject r sbc never resolver |}.
    split; [|done]. apply select_In. split; [done|]. exists i. apply collect_eligible_In.
    rewrite Nat.sub_0_r. simpl. repeat split; try done. lia.
  - unfold selectEligibleReviewerRoles. fold never sbc.
    destruct (is_object (oget registry "roles")); simpl; [|exists []; split; [constructor | done]].
    exists (sort_eligible (collect_eligible never resolver sbc (object_entries (oget registry "roles")) 0)).
    split; [apply sort_eligible_sorted|]. split; [done|]. intros e k Hin.
    rewrite sort_eligible_perm in Hin. apply collect_eligible_In in Hin as (_ & Hlk & Hk & Hd & Ha).
    rewrite Nat.sub_0_r in Hlk. split; [done|]. split; [by apply is_str_eq | by rewrite <- Hd].
Qed.

(** ** Concrete inputs *)

Definition ex_role (wc : string) (prio : val) : val :=
  VObj [("taskKind", VStr "review"); ("workerClass", VStr wc); ("priority", prio)].
Definition ex_registry : val :=
  VObj [("roles", VObj [("a", ex_role "codex" VUndef); ("b", ex_role "claude-code" (VInt 1));
                        ("c", ex_role "gemini" (VInt 5)); ("d", ex_role "codex" (VInt 100))])].

Example select_order :
  map roleId (selectEligibleReviewerRoles ex_registry (VStr " Claude ") None) = ["c"; "a"; "d"].
Proof. vm_compute. reflexivity. Qed.

Lemma selected_never_own_class_witness : "codex" <> "claude-code".
Proof.
  eapply (selected_never_own_class ex_registry (VStr " Claude ") None);
    [vm_compute; right; left; reflexivity | vm_compute; reflexivity | vm_compute; reflexivity
    | vm_compute; reflexivity].
Defined.
