(* ===== verification/PromptStage.v ===== *)
(** Prompt selection (src/src/kernel/prompt-stage.mjs): resolving the prompt set
    a domain declares and picking the reviewer's and the remediator's stage from
    the attempt counters. The file system is the class [PromptFs], addressed by
    the path segments the source joins. *)

From Stdlib Require Import ZArith Lia Ascii SpecFloat.
From stdpp Require Import base list strings.
From S2P Require Import Prelude JsNum JsValue.

(** [existsSync], [statSync(..).isDirectory()] and [readFileSync]. *)
Class PromptFs := {
  exists_sync : list string -> bool;
  is_directory : list string -> bool;
  read_text : list string -> option string
}.

Inductive prompt_error :=
| PromptSetResolutionError (message : string) (domainId promptSet : val) (reason : string)
| PromptError (message : string)
| ReadError (path : list string).

Definition outcome (A : Type) : Type := prompt_error + A.
Definition obind {A B} (r : outcome A) (f : A -> outcome B) : outcome B :=
  match r with inl e => inl e | inr a => f a end.

Inductive PromptStage := first | middle | last.

#[export] Instance PromptStage_eq_dec : EqDecision PromptStage.
Proof. solve_decision. Defined.

Definition stage_name (s : PromptStage) : string :=
  match s with first => "first" | middle => "middle" | last => "last" end.

(** [/^[A-Za-z0-9_-]+$/]. *)
Definition segment_char (a : ascii) : bool :=
  in_range 65 90 a || in_range 97 122 a || in_range 48 57 a
  || Ascii.eqb a "_" || Ascii.eqb a "-".
Fixpoint all_chars (p : ascii -> bool) (s : string) : bool :=
  match s with EmptyString => true | String a s' => p a && all_chars p s' end.
Definition is_path_segment (s : string) : bool :=
  negb (String.eqb s "") && all_chars segment_char s.
Definition PROMPT_PATH_SEGMENT_TEXT : string := "/^[A-Za-z0-9_-]+$/".

Section WithFs.
Context `{PromptFs}.

Definition unknown_domain (id : val) : string := to_str (coalesce id (VStr "<unknown>")).

Definition resolvePromptSet (rootDir : string) (domainConfig domainId : val) : outcome string :=
  if String.eqb rootDir "" then inl (PromptError "rootDir is required")
  else
    let id := coalesce (coalesce domainId (oget domainConfig "id")) VNull in
    if negb (is_object domainConfig) then
      inl (PromptSetResolutionError
        ("prompt-set resolution failed: no domain config for domain=" +:+ unknown_domain id)
        id VNull "missing-domain-config")
    else
      match oget domainConfig "promptSet" with
      | VStr promptSet =>
          if String.eqb (trim promptSet) "" then
            inl (PromptSetResolutionError
              ("prompt-set resolution failed: domain=" +:+ unknown_domain id
               +:+ " declares no promptSet") id VNull "missing-prompt-set")
          else if negb (is_path_segment promptSet) then
            inl (PromptSetResolutionError
              ("prompt-set resolution failed: promptSet " +:+ json_quote promptSet +:+ " for domain="
               +:+ unknown_domain id +:+ " must match " +:+ PROMPT_PATH_SEGMENT_TEXT)
              id (VStr promptSet) "invalid-prompt-set")
          else
            let promptSetDir := [rootDir; "prompts"; promptSet] in
            if negb (exists_sync promptSetDir) || negb (is_directory promptSetDir) then
              inl (PromptSetResolutionError
                ("prompt-set resolution failed: domain=" +:+ unknown_domain id
                 +:+ " declares unknown promptSet " +:+ json_quote promptSet +:+ " (no prompts/"
                 +:+ promptSet +:+ "/ directory)") id (VStr promptSet) "unknown-prompt-set")
            else inr promptSet
      | _ =>
          inl (PromptSetResolutionError
            ("prompt-set resolution failed: domain=" +:+ unknown_domain id
             +:+ " declares no promptSet") id VNull "missing-prompt-set")
      end.

Definition num_zero : num := S754_zero false.
Definition num_one : num := num_of_Z 1.

Definition toPositiveNumber (value : val) : option num :=
  let number := to_num value in
  if is_finite number && num_ltb num_zero number then Some number else None.

Definition toNonNegativeNumber (value : val) : option num :=
  let number := to_num value in
  if is_finite number && num_leb num_zero number then Some number else None.

(** [set.has(stage)] on the three stage names. *)
Definition assertStage (stage : string) : outcome PromptStage :=
  if String.eqb stage "first" then inr first
  else if String.eqb stage "middle" then inr middle
  else if String.eqb stage "last" then inr last
  else inl (PromptError ("unknown prompt stage: " +:+ stage)).

Definition assertPromptPathSegment (name value : string) : outcome string :=
  if is_path_segment value then inr value
  else inl (PromptError (name +:+ " must match " +:+ PROMPT_PATH_SEGMENT_TEXT)).

Definition opt_is (o : option num) (n : num) : bool :=
  match o with Some x => num_eqb x n | None => false end.
Definition at_least (o cap : option num) : bool :=
  match o, cap with Some x, Some c => num_leb c x | _, _ => false end.

Definition pickReviewerStage (reviewAttemptNumber completedRemediationRounds maxRemediationRounds : val)
  : outcome PromptStage :=
  let attempt := toPositiveNumber reviewAttemptNumber in
  let completed := toNonNegativeNumber completedRemediationRounds in
  let cap := toPositiveNumber maxRemediationRounds in
  match attempt, completed, cap with
  | None, None, None => inl (PromptError "pickReviewerStage requires review attempt context")
  | _, _, _ =>
      inr (if opt_is attempt num_one || opt_is completed num_zero
              || match completed with None => true | Some _ => false end then first
           else if at_least completed cap then last
           else middle)
  end.

Definition pickRemediatorStage (remediationRound maxRemediationRounds : val) : PromptStage :=
  let round := toPositiveNumber remediationRound in
  let cap := toPositiveNumber maxRemediationRounds in
  match round with
  | None => first
  | Some _ =>
      if at_least round cap then last
      else if opt_is round num_one then first else middle
  end.

(** [readFileSync(path, 'utf8').trim()]. *)
Definition read_trimmed (path : list string) : outcome string :=
  match read_text path with Some t => inr (trim t) | None => inl (ReadError path) end.

Definition newline : string := String (ascii_of_N 10) "".

Definition loadStagePrompt (REVIEW_EVIDENCE_GUIDANCE rootDir promptSet actor stage : string) : outcome string :=
  if String.eqb rootDir "" then inl (PromptError "rootDir is required")
  else if String.eqb promptSet "" then inl (PromptError "promptSet is required")
  else if String.eqb actor "" then inl (PromptError "actor is required")
  else
    obind (assertStage stage) (fun selectedStage =>
    obind (assertPromptPathSegment "promptSet" promptSet) (fun set_ =>
    obind (assertPromptPathSegment "actor" actor) (fun actor_ =>
    obind (read_trimmed [rootDir; "prompts"; set_; actor_ +:+ "." +:+ stage_name selectedStage +:+ ".md"])
      (fun prompt =>
       if negb (String.eqb actor "reviewer") then inr prompt
       else obind (read_trimmed [rootDir; "prompts"; "shared"; "simplicity-and-cost.md"]) (fun guidance =>
         inr (prompt +:+ newline +:+ newline +:+ REVIEW_EVIDENCE_GUIDANCE
              +:+ newline +:+ newline +:+ guidance)))))).

(** Prompt selection fails loud: a resolved prompt set is the one the
    domain config declares, is a single safe path segment, and names an existing
    directory under [prompts/]; there is no fallback value. *)
Theorem resolvePromptSet_declared (rootDir : string) (domainConfig domainId : val) (s : string) :
  resolvePromptSet rootDir domainConfig domainId = inr s ->
  oget domainConfig "promptSet" = VStr s
  /\ is_path_segment s = true
  /\ is_directory [rootDir; "prompts"; s] = true
  /\ includes "/" s = false /\ includes "." s = false.
Proof.
  unfold resolvePromptSet. destruct (String.eqb rootDir ""); [done|].
  destruct (negb (is_object domainConfig)); [done|].
  destruct (oget domainConfig "promptSet") as [| | | |p| |]; try done.
  destruct (String.eqb (trim p) ""); [done|].
  destruct (is_path_segment p) eqn:Ep; [|done]. simpl.
  destruct (is_directory [rootDir; "prompts"; p]) eqn:Ed; [|by rewrite orb_true_r].
  rewrite orb_false_r. destruct (exists_sync [rootDir; "prompts"; p]); [|done]. simpl.
  intros [= <-]. repeat split; try done.
  all: unfold is_path_segment in Ep; apply andb_true_iff in Ep as [_ Ep]; clear Ed;
    induction p as [|a p IH]; [done|]; simpl in *; apply andb_true_iff in Ep as [Ha Hp];
    rewrite (IH Hp), orb_false_r; case_match; [subst | done];
    by vm_compute in Ha.
Qed.

End WithFs.

(** ** Monotonicity of the stages *)

Definition stage_rank (s : PromptStage) : nat :=
  match s with first => 0 | middle => 1 | last => 2 end.

Lemma toNonNegativeNumber_Some v n :
  toNonNegativeNumber v = Some n -> n = to_num v /\ is_finite n = true /\ num_leb num_zero n = true.
Proof.
  unfold toNonNegativeNumber. destruct (is_finite _ && _) eqn:E; [|done].
  intros [= <-]. apply andb_true_iff in E as [? ?]. done.
Qed.

Lemma num_eqb_zero_le x y :
  num_leb num_zero x = true -> num_leb x y = true -> num_eqb y num_zero = true -> num_eqb x num_zero = true.
Proof.
  rewrite !num_leb_rank. intros (_ & _ & Hx) (_ & _ & Hxy).
  destruct y as [[]|[]| |[] ? ?]; try done; intros _;
    destruct x as [[]|[]| |[] ? ?]; simpl in *; try done; lia.
Qed.

(** The reviewer's stage only advances: with the same attempt number and
    cap, more completed remediation rounds never select an earlier stage. *)
Theorem reviewer_stage_monotone (attempt cap c1 c2 : val) s1 s2 :
  toNonNegativeNumber c1 <> None ->
  num_leb (to_num c1) (to_num c2) = true -> is_finite (to_num c2) = true ->
  pickReviewerStage attempt c1 cap = inr s1 ->
  pickReviewerStage attempt c2 cap = inr s2 ->
  (stage_rank s1 <= stage_rank s2)%nat.
Proof.
  intros Hc1 Hle Hfin. unfold pickReviewerStage.
  destruct (toNonNegativeNumber c1) as [n1|] eqn:E1; [|done]. clear Hc1.
  destruct (toNonNegativeNumber_Some _ _ E1) as (-> & Hf1 & Hz1).
  assert (E2 : toNonNegativeNumber c2 = Some (to_num c2)).
  { unfold toNonNegativeNumber. rewrite Hfin. by rewrite (num_leb_trans _ _ _ Hz1 Hle). }
  rewrite E2. set (a := toPositiveNumber attempt). set (k := toPositiveNumber cap).
  intros H1 H2. assert (S1 : s1 = if opt_is a num_one || opt_is (Some (to_num c1)) num_zero || false
        then first else if at_least (Some (to_num c1)) k then last else middle)
    by (destruct a, k; by injection H1 as <-).
  assert (S2 : s2 = if opt_is a num_one || opt_is (Some (to_num c2)) num_zero || false
        then first else if at_least (Some (to_num c2)) k then last else middle)
    by (destruct a, k; by injection H2 as <-).
  rewrite S1, S2. destruct (opt_is a num_one); [simpl; lia|]. simpl.
  destruct (num_eqb (to_num c1) num_zero) eqn:Z1; simpl; [lia|].
  destruct (num_eqb (to_num c2) num_zero) eqn:Z2; simpl.
  { rewrite (num_eqb_zero_le _ _ Hz1 Hle Z2) in Z1. done. }
  destruct k as [c|]; simpl; [|lia].
  destruct (num_leb c (to_num c1)) eqn:L1; simpl.
  - by rewrite (num_leb_trans _ _ _ L1 Hle).
  - destruct (num_leb c (to_num c2)); simpl; lia.
Qed.

(** ** Concrete inputs *)

Definition ex_fs : PromptFs := {|
  exists_sync := fun p => bool_decide (p = ["/repo"; "prompts"; "code-pr"]);
  is_directory := fun p => bool_decide (p = ["/repo"; "prompts"; "code-pr"]);
  read_text := fun _ => None |}.

Lemma resolvePromptSet_declared_witness :
  @is_directory ex_fs ["/repo"; "prompts"; "code-pr"] = true.
Proof.
  eapply (@resolvePromptSet_declared ex_fs "/repo" (VObj [("promptSet", VStr "code-pr")]) VUndef "code-pr").
  vm_compute. reflexivity.
Defined.

Lemma reviewer_stage_monotone_witness : (stage_rank middle <= stage_rank last)%nat.
Proof.
  apply (reviewer_stage_monotone (VInt 3) (VInt 2) (VInt 1) (VStr "2") middle last);
    vm_compute; try reflexivity. discriminate.
Defined.

Example remediator_stages :
  map (fun r => pickRemediatorStage (VInt r) (VInt 3)) [0; 1; 2; 3; 4]%Z
  = [first; first; middle; last; last].
Proof. vm_compute. reflexivity. Qed.
