(* ===== verification/PipelineRollup.v ===== *)
(** The rollup comment (src/src/kernel/pipeline-rollup.mjs): the markdown table
    posted once per review pass. Lengths are UTF-16 code units, as the source's
    [length] and [padEnd] count them; rows are objects, as the contract types them. *)

From Stdlib Require Import ZArith Lia Ascii SpecFloat.
From stdpp Require Import base list strings pretty.
From S2P Require Import Prelude JsNum JsValue.

(** The UTF-8 bytes of U+2014. *)
Definition EM_DASH : string :=
  String (ascii_of_N 226) (String (ascii_of_N 128) (String (ascii_of_N 148) "")).
Definition COLUMN_HEADERS : list string := ["stage"; "reviewer role"; "verdict"; "round"].
Definition NOT_RUN : string := "not run".

(** [s.slice(0, n)], whole characters: a character of two code units that the
    cut would split is dropped. *)
Fixpoint slice_units (n : nat) (s : string) : string :=
  match s with
  | EmptyString => ""
  | String a s' =>
      if in_range 128 191 a then String a (slice_units n s')
      else
        let w := if in_range 240 255 a then 2%nat else 1%nat in
        if Nat.leb w n then String a (slice_units (n - w) s') else ""
  end.

Definition trimmed_text (v : val) : string := trim (to_str (coalesce v (VStr ""))).

Definition shortRevision (revisionRef : val) : string :=
  let ref := trimmed_text revisionRef in
  if String.eqb ref "" then "(unknown)"
  else if Nat.ltb 7 (js_length ref) then slice_units 7 ref else ref.

Definition cell (value : val) (fallback : string) : string :=
  let text := trimmed_text value in
  if String.eqb text "" then fallback else text.

Fixpoint repeat_char (a : ascii) (n : nat) : string :=
  match n with O => "" | S n' => String a (repeat_char a n') end.
(** [s.padEnd(width)]. *)
Definition padEnd (s : string) (width : nat) : string :=
  s +:+ repeat_char " " (width - js_length s).

Definition renderRow (cells : list string) (widths : list nat) : string :=
  "| " +:+ join " | " (zip_with padEnd cells widths) +:+ " |".

Definition positive_or_unknown (v : val) : string :=
  let n := to_num v in
  if is_finite n && num_ltb (S754_zero false) n then num_to_string n else "?".

Definition renderRound (row : val) : string :=
  if is_nullish (oget row "verdict") || is_str (oget row "verdict") "" then EM_DASH
  else positive_or_unknown (oget row "round") +:+ "/" +:+ positive_or_unknown (oget row "roundBudget").

Definition pluralizeFindings (count : num) : string :=
  num_to_string count +:+ " blocking finding" +:+ (if num_eqb count (num_of_Z 1) then "" else "s").

(** [Math.max(0, Number(v) || 0)]. *)
Definition non_negative (v : val) : num :=
  let n := to_num v in
  if num_ltb (S754_zero false) n then n else S754_zero false.

Definition renderDispositionLine (disposition blockingStageId pendingStageId blockingFindingsCount : val)
    (stageCount : nat) (revisionRef : val) : string :=
  if is_str disposition "blocking" then
    "pipeline: BLOCKED at " +:+ cell blockingStageId "(unknown stage)" +:+ " " +:+ EM_DASH +:+ " "
    +:+ pluralizeFindings (non_negative blockingFindingsCount) +:+ " routed to remediation"
  else if is_str disposition "pending" then
    "pipeline: PENDING at " +:+ cell pendingStageId "(unknown stage)" +:+ " " +:+ EM_DASH
    +:+ " awaiting verdict at rev " +:+ shortRevision revisionRef
  else
    "pipeline: CLEAN " +:+ EM_DASH +:+ " all " +:+ pretty (N.of_nat stageCount) +:+ " "
    +:+ (if Nat.eqb stageCount 1 then "stage" else "stages")
    +:+ " clean at rev " +:+ shortRevision revisionRef.

Definition body_row (row : val) : list string :=
  [cell (oget row "stageId") "(unknown)"; cell (oget row "roleId") EM_DASH;
   cell (oget row "verdict") NOT_RUN; renderRound row].

Definition max_len (l : list string) : nat := fold_left (fun m s => Nat.max m (js_length s)) l 0%nat.

(** The cells of column [index]. *)
Definition column (bodyRows : list (list string)) (index : nat) : list string :=
  map (fun cells => nth index cells "") bodyRows.
Definition column_widths (bodyRows : list (list string)) : list nat :=
  map (fun index => max_len (nth index COLUMN_HEADERS "" :: column bodyRows index)) (seq 0 4).

(** The header row, the divider and one row per stage. *)
Definition table_lines (bodyRows : list (list string)) : list string :=
  let widths := column_widths bodyRows in
  renderRow COLUMN_HEADERS widths
  :: ("| " +:+ join " | " (map (repeat_char "-") widths) +:+ " |")
  :: map (fun cells => renderRow cells widths) bodyRows.

Definition rollup_lines (revisionRef rows disposition blockingStageId pendingStageId
    blockingFindingsCount : val) : list string :=
  let bodyRows := map body_row (match rows with VArr l => l | _ => [] end) in
  ("## Adversarial review " +:+ EM_DASH +:+ " pipeline rollup (rev " +:+ shortRevision revisionRef +:+ ")")
  :: table_lines bodyRows
  ++ [renderDispositionLine disposition blockingStageId pendingStageId blockingFindingsCount
        (length bodyRows) revisionRef].

Definition renderPipelineRollup (revisionRef rows disposition blockingStageId pendingStageId
    blockingFindingsCount : val) : string :=
  join (String (ascii_of_N 10) "")
    (rollup_lines revisionRef rows disposition blockingStageId pendingStageId blockingFindingsCount).

(** ** The table is aligned *)

Lemma js_length_app s t : js_length (s +:+ t) = (js_length s + js_length t)%nat.
Proof. induction s as [|a s IH]; simpl; [done|]. rewrite IH. lia. Qed.

Lemma js_length_repeat a n : in_range 128 255 a = false -> js_length (repeat_char a n) = n.
Proof.
  intros Ha. induction n as [|n IH]; simpl; [done|]. rewrite IH.
  unfold in_range in *. apply andb_false_iff in Ha as [Ha|Ha]; apply N.leb_gt in Ha.
  - replace (128 <=? code a)%N with false by (symmetry; apply N.leb_gt; lia).
    replace (240 <=? code a)%N with false by (symmetry; apply N.leb_gt; lia). done.
  - pose proof (N_ascii_bounded a). unfold code in Ha. lia.
Qed.

Lemma js_length_padEnd s w : (js_length s <= w)%nat -> js_length (padEnd s w) = w.
Proof. intros H. unfold padEnd. rewrite js_length_app, js_length_repeat by done. lia. Qed.

Lemma max_len_ge l s : In s l -> (js_length s <= max_len l)%nat.
Proof.
  unfold max_len.
  assert (G : forall l m s, (In s l -> js_length s <= fold_left (fun m s => Nat.max m (js_length s)) l m)%nat
    /\ (m <= fold_left (fun m s => Nat.max m (js_length s)) l m)%nat).
  { clear l s. induction l as [|x l IH]; intros m s; simpl; [split; [intros [] | lia]|].
    destruct (IH (Nat.max m (js_length x)) s) as [H1 H2]. split; [|lia].
    intros [<-|H]; [lia | auto]. }
  apply G.
Qed.

Fixpoint sum_nat (l : list nat) : nat := match l with [] => 0 | x :: l' => (x + sum_nat l')%nat end.

Lemma js_length_join l :
  js_length (join " | " l) = (sum_nat (map js_length l) + 3 * (length l - 1))%nat.
Proof.
  unfold join. induction l as [|x l IH]; [done|]. destruct l as [|y l]; [simpl; lia|].
  change (String.concat " | " (x :: y :: l)) with (x +:+ " | " +:+ String.concat " | " (y :: l)).
  rewrite !js_length_app, IH. simpl. lia.
Qed.

Definition row_width (widths : list nat) : nat :=
  (sum_nat widths + 3 * (length widths - 1) + 4)%nat.

Lemma renderRow_width cells widths :
  Forall2 (fun c w => js_length c <= w)%nat cells widths ->
  js_length (renderRow cells widths) = row_width widths.
Proof.
  intros H. unfold renderRow, row_width. rewrite !js_length_app, js_length_join.
  assert (E : map js_length (zip_with padEnd cells widths) = widths /\
              length (zip_with padEnd cells widths) = length widths).
  { induction H as [|c w cs ws Hc _ IH]; simpl; [done|]. destruct IH as [-> ->].
    by rewrite js_length_padEnd. }
  destruct E as [-> ->]. simpl. lia.
Qed.

Lemma column_widths_fit bodyRows cells :
  Forall (fun r => length r = 4%nat) bodyRows ->
  In cells (COLUMN_HEADERS :: bodyRows) -> Forall2 (fun c w => js_length c <= w)%nat cells (column_widths bodyRows).
Proof.
  intros Hlen Hin. assert (Hl : length cells = 4%nat).
  { destruct Hin as [<-|Hin]; [done|]. rewrite List.Forall_forall in Hlen. by apply Hlen. }
  destruct cells as [|c0 [|c1 [|c2 [|c3 [|? ?]]]]]; try done.
  assert (Hk : forall k, (k < 4)%nat -> (js_length (nth k [c0; c1; c2; c3] "")
    <= max_len (nth k COLUMN_HEADERS "" :: column bodyRows k))%nat).
  { intros k Hk. apply max_len_ge. destruct Hin as [<-|Hin]; [by left|]. right.
    apply (in_map (fun cells => nth k cells "") bodyRows [c0; c1; c2; c3] Hin). }
  repeat constructor; [apply (Hk 0%nat) | apply (Hk 1%nat) | apply (Hk 2%nat) | apply (Hk 3%nat)]; lia.
Qed.

(** Every line of the rendered table (header, divider, one row per stage)
    has the same length, and there is exactly one row per stage. *)
Theorem rollup_table_aligned (rows : list val) :
  let bodyRows := map body_row rows in
  (forall line, In line (table_lines bodyRows) -> js_length line = row_width (column_widths bodyRows))
  /\ length (table_lines bodyRows) = (2 + length rows)%nat.
Proof.
  intros bodyRows. assert (Hlen : Forall (fun r => length r = 4%nat) bodyRows).
  { apply List.Forall_forall. unfold bodyRows. intros r (x & <- & _)%in_map_iff. done. }
  split; [|unfold table_lines; simpl; unfold bodyRows; by rewrite !length_map].
  intros line [<-|[<-|Hin]].
  - apply renderRow_width, column_widths_fit; [done | by left].
  - unfold row_width. rewrite !js_length_app, js_length_join. simpl length.
    rewrite map_map. rewrite (map_ext _ id); [|intros; by apply js_length_repeat].
    rewrite map_id. simpl. lia.
  - apply in_map_iff in Hin as (cells & <- & Hin).
    apply renderRow_width, column_widths_fit; [done | by right].
Qed.

(** ** The rollup of the design document *)

Definition ex_row (stage role verdict : string) (round budget : Z) : val :=
  VObj [("stageId", VStr stage); ("roleId", VStr role); ("verdict", VStr verdict);
        ("round", VInt round); ("roundBudget", VInt budget)].

Example rollup_example :
  rollup_lines (VStr "4f2c9a1b22") (VArr [ex_row "code-quality" "code-quality-reviewer" "comment-only" 1 2;
      ex_row "security" "security-reviewer" "request-changes" 1 3])
    (VStr "blocking") (VStr "security") VNull (VInt 2)
  = ["## Adversarial review " +:+ EM_DASH +:+ " pipeline rollup (rev 4f2c9a1)";
     "| stage        | reviewer role         | verdict         | round |";
     "| ------------ | --------------------- | --------------- | ----- |";
     "| code-quality | code-quality-reviewer | comment-only    | 1/2   |";
     "| security     | security-reviewer     | request-changes | 1/3   |";
     "pipeline: BLOCKED at security " +:+ EM_DASH +:+ " 2 blocking findings routed to remediation"].
Proof. vm_compute. reflexivity. Qed.
