(* ===== verification/LedgerEvents.v ===== *)
(** The finalization event vocabulary (src/src/finalization/ledger-events.mjs):
    constructors and validators of the events of the append-only ledger. An
    event is the plain object the source builds; field values are untyped, as
    they are where an event is read back from the store. *)

From Stdlib Require Import ZArith Lia Ascii SpecFloat.
From stdpp Require Import base list strings.
From S2P Require Import Prelude JsNum JsValue.

Definition FINALIZATION_EVENT_TYPES : list string :=
  ["revision_advanced"; "verdict_recorded"; "checks_settled"; "attestation_recorded";
   "remediation_dispatched"; "remediation_concluded"; "budget_exhausted"; "operator_override";
   "finalized"; "closed"; "escalated"; "halted"].

Definition REVISION_SCOPED_EVENT_TYPES : list string :=
  ["revision_advanced"; "verdict_recorded"; "checks_settled"; "attestation_recorded";
   "remediation_dispatched"; "remediation_concluded"; "finalized"].

Definition TERMINAL_EVENT_TYPES : list string := ["finalized"; "closed"; "escalated"; "halted"].

Definition isNonEmptyString (v : val) : bool :=
  match v with VStr s => negb (String.eqb s "") | _ => false end.

Definition subject_error : jserror :=
  TypeError "finalization event requires a subject with domainId + subjectExternalId".

Record SubjectKey := { domainId : string; subjectExternalId : string }.

#[export] Instance SubjectKey_eq_dec : EqDecision SubjectKey.
Proof. solve_decision. Defined.

Definition key_obj (k : SubjectKey) : obj :=
  [("domainId", VStr (domainId k)); ("subjectExternalId", VStr (subjectExternalId k))].

Definition resolveSubjectKey (subject : val) : result SubjectKey :=
  let ref := if truthy (oget subject "ref") then oget subject "ref" else subject in
  if negb (is_object ref) then Throw subject_error
  else
    match oget ref "domainId", oget ref "subjectExternalId" with
    | VStr d, VStr x =>
        if String.eqb d "" || String.eqb x "" then Throw subject_error
        else Ok {| domainId := d; subjectExternalId := x |}
    | _, _ => Throw subject_error
    end.

Definition REQUIRED_FIELDS : jsmap (list string) :=
  [("revision_advanced", ["revisionRef"]);
   ("verdict_recorded", ["revisionRef"; "stageId"; "role"; "verdictKind"; "sourceRef"]);
   ("checks_settled", ["revisionRef"; "conclusion"; "requiredChecksPresent"; "sourceRef"]);
   ("attestation_recorded", ["revisionRef"; "kind"; "principal"; "sourceRef"]);
   ("remediation_dispatched", ["revisionRef"; "round"; "idempotencyKey"]);
   ("remediation_concluded", ["revisionRef"; "round"; "outcome"]);
   ("budget_exhausted", ["stageId"]);
   ("operator_override", ["overrideKind"; "principal"; "reason"]);
   ("finalized", ["revisionRef"; "method"]);
   ("closed", ["reason"]);
   ("escalated", ["reason"]);
   ("halted", ["reason"])].

Definition OPTIONAL_FIELDS : jsmap (list string) :=
  [("revision_advanced", ["sourceRef"]);
   ("verdict_recorded", []);
   ("checks_settled", []);
   ("attestation_recorded", []);
   ("remediation_dispatched", ["stageId"; "final"; "sourceRef"]);
   ("remediation_concluded", ["stageId"; "sourceRef"]);
   ("budget_exhausted", ["sourceRef"]);
   ("operator_override", ["revisionRef"; "roundCap"; "sourceRef"]);
   ("finalized", ["sourceRef"]);
   ("closed", ["sourceRef"]);
   ("escalated", ["sourceRef"]);
   ("halted", ["sourceRef"])].

Definition fields_of (table : jsmap (list string)) (type : string) : list string :=
  default [] (map_get table type).

Definition is_missing (v : val) : bool := is_nullish v || is_str v "".

Fixpoint require_fields (type : string) (keys : list string) (fields : obj) : result unit :=
  match keys with
  | [] => Ok tt
  | key :: keys' =>
      if is_missing (get fields key)
      then Throw (TypeError ("finalization " +:+ type +:+ " event requires a non-empty " +:+ key))
      else require_fields type keys' fields
  end.

Definition is_undef (v : val) : bool := match v with VUndef => true | _ => false end.

Definition assertRequired (type : string) (fields : obj) : result unit :=
  let* _ := require_fields type (fields_of REQUIRED_FIELDS type) fields in
  if String.eqb type "checks_settled" && negb (is_bool (get fields "requiredChecksPresent"))
  then Throw (TypeError "finalization checks_settled event requires a boolean requiredChecksPresent")
  else if String.eqb type "remediation_dispatched" && negb (is_undef (get fields "final"))
          && negb (is_bool (get fields "final"))
  then Throw (TypeError "finalization remediation_dispatched event requires a boolean final")
  else if (String.eqb type "remediation_dispatched" || String.eqb type "remediation_concluded")
          && negb (val_is_integer (get fields "round"))
  then Throw (TypeError ("finalization " +:+ type +:+ " event requires an integer round"))
  else Ok tt.

(** [if (value !== undefined && value !== null) event[key] = value]. *)
Definition copy_field (fields event : obj) (key : string) : obj :=
  let value := get fields key in
  if is_nullish value then event else map_set event key value.
Definition copy_fields (keys : list string) (fields event : obj) : obj :=
  fold_left (copy_field fields) keys event.

Definition event_keys (type : string) : list string :=
  fields_of REQUIRED_FIELDS type ++ fields_of OPTIONAL_FIELDS type.

Definition makeFinalizationEvent (type : string) (subject : val) (fields : obj) : result obj :=
  if negb (str_in type FINALIZATION_EVENT_TYPES)
  then Throw (TypeError ("unknown finalization event type: " +:+ json_quote type))
  else if negb (isNonEmptyString (get fields "at"))
  then Throw (TypeError "finalization event requires an `at` ISO timestamp")
  else
    let* subjectKey := resolveSubjectKey subject in
    let* _ := assertRequired type fields in
    Ok (copy_fields (event_keys type) fields
          [("type", VStr type); ("subjectKey", VObj (key_obj subjectKey)); ("at", get fields "at")]).

Definition revisionAdvanced := makeFinalizationEvent "revision_advanced".
Definition verdictRecorded := makeFinalizationEvent "verdict_recorded".
Definition checksSettled := makeFinalizationEvent "checks_settled".
Definition attestationRecorded := makeFinalizationEvent "attestation_recorded".
Definition remediationDispatched := makeFinalizationEvent "remediation_dispatched".
Definition remediationConcluded := makeFinalizationEvent "remediation_concluded".
Definition budgetExhausted := makeFinalizationEvent "budget_exhausted".
Definition operatorOverride := makeFinalizationEvent "operator_override".
Definition finalized := makeFinalizationEvent "finalized".
Definition closed := makeFinalizationEvent "closed".
Definition escalated := makeFinalizationEvent "escalated".
Definition halted := makeFinalizationEvent "halted".

Definition isFinalizationEvent (value : val) : bool :=
  match value with
  | VObj event =>
      match get event "type" with
      | VStr type =>
          str_in type FINALIZATION_EVENT_TYPES
          && isNonEmptyString (get event "at")
          && is_ok (resolveSubjectKey (get event "subjectKey"))
          && is_ok (assertRequired type event)
      | _ => false
      end
  | _ => false
  end.

Definition isRevisionScopedEvent (type : val) : bool := val_in type REVISION_SCOPED_EVENT_TYPES.

(** ** Facts *)

Lemma get_copy_field_ne fields event key k :
  key <> k -> get (copy_field fields event key) k = get event k.
Proof.
  intros Hne. unfold copy_field. case_match; [done|]. by apply get_set_ne.
Qed.

Lemma get_copy_fields_other keys fields event k :
  ~ In k keys -> get (copy_fields keys fields event) k = get event k.
Proof.
  unfold copy_fields. revert event. induction keys as [|key keys IH]; intros event Hk; simpl; [done|].
  rewrite IH by (intros ?; apply Hk; by right). apply get_copy_field_ne. intros ->. apply Hk. by left.
Qed.

Lemma get_copy_fields_In keys fields event k :
  In k keys -> get (copy_fields keys fields event) k
    = if is_nullish (get fields k) then get event k else get fields k.
Proof.
  unfold copy_fields. revert event. induction keys as [|key keys IH]; intros event; simpl; [done|].
  intros Hin. destruct (decide (In k keys)) as [Hk|Hk].
  - rewrite IH by done. case_match; [|done].
    destruct (decide (key = k)) as [->|Hne]; [|by apply get_copy_field_ne].
    unfold copy_field. by case_match.
  - fold (copy_fields keys fields (copy_field fields event key)). rewrite get_copy_fields_other by done.
    destruct Hin as [->|?]; [|done]. unfold copy_field. case_match; [done | by rewrite get_set].
Qed.

(** Copying depends on the fields only through their non-null values. *)
Lemma copy_fields_ext keys f g event :
  (forall k, In k keys -> is_nullish (get f k) = is_nullish (get g k)
             /\ (is_nullish (get f k) = false -> get f k = get g k)) ->
  copy_fields keys f event = copy_fields keys g event.
Proof.
  unfold copy_fields. revert event. induction keys as [|key keys IH]; intros event Hfg; simpl; [done|].
  rewrite IH by (intros; apply Hfg; by right). f_equal.
  destruct (Hfg key (or_introl eq_refl)) as [En Ev]. unfold copy_field. rewrite <- En.
  destruct (is_nullish (get f key)); [done|]. by rewrite Ev.
Qed.

Lemma require_fields_ext type keys f g :
  (forall k, In k keys -> is_missing (get f k) = is_missing (get g k)) ->
  require_fields type keys f = require_fields type keys g.
Proof.
  induction keys as [|key keys IH]; intros H; simpl; [done|].
  rewrite (H key) by (by left). case_match; [done|]. apply IH. intros; apply H; by right.
Qed.

Lemma require_fields_In type keys f k :
  require_fields type keys f = Ok tt -> In k keys -> is_missing (get f k) = false.
Proof.
  induction keys as [|key keys IH]; simpl; [done|].
  destruct (is_missing (get f key)) eqn:E; [done|]. intros H [<-|Hk]; auto.
Qed.

Lemma event_type_cases type :
  str_in type FINALIZATION_EVENT_TYPES = true -> In type FINALIZATION_EVENT_TYPES.
Proof. apply str_in_In. Qed.

Ltac event_cases H :=
  apply event_type_cases in H; simpl in H;
  repeat (destruct H as [<-|H]; [|]); [..|destruct H].

(** The own keys of an event are never payload keys. *)
Lemma event_keys_base type k :
  str_in type FINALIZATION_EVENT_TYPES = true -> In k ["type"; "subjectKey"; "at"; "ref"] ->
  ~ In k (event_keys type).
Proof.
  intros H Hk Hin. apply str_in_In in Hin. revert Hin.
  destruct Hk as [<-|[<-|[<-|[<-|[]]]]]; event_cases H; vm_compute; discriminate.
Qed.

Lemma resolveSubjectKey_key_obj k s :
  resolveSubjectKey s = Ok k -> resolveSubjectKey (VObj (key_obj k)) = Ok k.
Proof.
  unfold resolveSubjectKey. set (ref := if truthy _ then _ else _).
  destruct (negb (is_object ref)); [done|].
  destruct (oget ref "domainId") as [| | | |d| |]; try done.
  destruct (oget ref "subjectExternalId") as [| | | |x| |]; try done.
  destruct (String.eqb d "" || String.eqb x "") eqn:E; [done|]. intros [= <-].
  simpl. by rewrite E.
Qed.

Lemma make_inv type subject fields event :
  makeFinalizationEvent type subject fields = Ok event ->
  str_in type FINALIZATION_EVENT_TYPES = true
  /\ isNonEmptyString (get fields "at") = true
  /\ assertRequired type fields = Ok tt
  /\ exists key, resolveSubjectKey subject = Ok key
     /\ event = copy_fields (event_keys type) fields
                  [("type", VStr type); ("subjectKey", VObj (key_obj key)); ("at", get fields "at")].
Proof.
  unfold makeFinalizationEvent.
  destruct (str_in type FINALIZATION_EVENT_TYPES); [|done].
  destruct (isNonEmptyString (get fields "at")); [|done]. simpl.
  intros (key & Ek & ([] & Er & [= <-])%rbind_Ok)%rbind_Ok. eauto 10.
Qed.

(** Reading an event built by a constructor. *)
Lemma make_get type subject fields event :
  makeFinalizationEvent type subject fields = Ok event ->
  get event "type" = VStr type
  /\ get event "at" = get fields "at"
  /\ (forall k, In k (event_keys type) ->
        get event k = if is_nullish (get fields k) then VUndef else get fields k).
Proof.
  intros (Ht & _ & _ & key & _ & ->)%make_inv. split; [|split].
  - rewrite get_copy_fields_other; [done|]. apply event_keys_base; simpl; auto.
  - rewrite get_copy_fields_other; [done|]. apply event_keys_base; simpl; auto.
  - intros k Hk. rewrite get_copy_fields_In by done. case_match; [|done].
    assert (Hne : forall s, In s ["type"; "subjectKey"; "at"; "ref"] -> String.eqb k s = false).
    { intros s Hs. apply String.eqb_neq. intros ->. by apply (event_keys_base type s). }
    unfold get. simpl. by rewrite !Hne by (simpl; auto).
Qed.

Lemma make_get_subjectKey type subject fields event :
  makeFinalizationEvent type subject fields = Ok event ->
  exists key, resolveSubjectKey subject = Ok key /\ get event "subjectKey" = VObj (key_obj key).
Proof.
  intros (Ht & _ & _ & key & Ek & ->)%make_inv. exists key. split; [done|].
  rewrite get_copy_fields_other; [done|]. apply event_keys_base; simpl; auto.
Qed.

Lemma nullish_missing v : is_nullish v = true -> is_missing v = true.
Proof. by destruct v. Qed.

(** What [assertRequired] accepted stays accepted on the event built from it. *)
Lemma assertRequired_event type fields event :
  str_in type FINALIZATION_EVENT_TYPES = true ->
  (forall k, In k (event_keys type) ->
     get event k = if is_nullish (get fields k) then VUndef else get fields k) ->
  assertRequired type fields = Ok tt -> assertRequired type event = Ok tt.
Proof.
  intros Ht Hget. unfold assertRequired.
  assert (Hreq : require_fields type (fields_of REQUIRED_FIELDS type) event
                 = require_fields type (fields_of REQUIRED_FIELDS type) fields).
  { apply require_fields_ext. intros k Hk. rewrite Hget by (apply in_or_app; auto).
    destruct (is_nullish (get fields k)) eqn:E; [|done]. by rewrite (nullish_missing _ E). }
  rewrite Hreq. destruct (require_fields type _ fields) as [[]|]; [|done]. simpl.
  event_cases Ht; simpl; try done.
  - rewrite Hget by (vm_compute; tauto). destruct (get fields "requiredChecksPresent"); done.
  - rewrite !Hget by (vm_compute; tauto).
    destruct (get fields "final") as [| |[]| | | |], (get fields "round"); done.
  - rewrite !Hget by (vm_compute; tauto). destruct (get fields "round"); done.
Qed.

Lemma copy_fields_keys keys fields event k v :
  In (k, v) (copy_fields keys fields event) -> In k keys \/ In k (map fst event).
Proof.
  unfold copy_fields. revert event. induction keys as [|key keys IH]; intros event; simpl.
  - intros H. right. apply (in_map fst _ _ H).
  - intros [H|H]%IH; [auto|]. unfold copy_field in H. case_match; [auto|].
    apply map_set_keys in H as [->|H]; auto.
Qed.

Lemma make_ok type subject fields key :
  str_in type FINALIZATION_EVENT_TYPES = true -> isNonEmptyString (get fields "at") = true ->
  resolveSubjectKey subject = Ok key -> assertRequired type fields = Ok tt ->
  makeFinalizationEvent type subject fields = Ok
    (copy_fields (event_keys type) fields
      [("type", VStr type); ("subjectKey", VObj (key_obj key)); ("at", get fields "at")]).
Proof. intros Ht Ha Hk Hr. unfold makeFinalizationEvent. by rewrite Ht, Ha, Hk, Hr. Qed.


(** Rebuilding is the identity on events a constructor built. *)
Lemma make_event_roundtrip (type : string) (subject : val) (fields event : obj) :
  makeFinalizationEvent type subject fields = Ok event ->
  makeFinalizationEvent type (get event "subjectKey") event = Ok event.
Proof.
  intros H. destruct (make_inv _ _ _ _ H) as (Ht & Ha & Hr & _).
  destruct (make_get _ _ _ _ H) as (Gt & Ga & Gk).
  destruct (make_get_subjectKey _ _ _ _ H) as (key & Ek & Gs).
  destruct (make_inv _ _ _ _ H) as (_ & _ & _ & key2 & Ek2 & Ee).
  assert (key2 = key) as -> by congruence. rewrite Gs.
  rewrite (make_ok type _ event key); [| done | by rewrite Ga | by eapply resolveSubjectKey_key_obj
    | by eapply assertRequired_event].
  f_equal. rewrite Ga. rewrite Ee at 2. apply copy_fields_ext. intros k Hk. rewrite (Gk k Hk).
  destruct (is_nullish (get fields k)) eqn:E; [|by rewrite E]. done.
Qed.

(** A constructor reads its fields at [at] and at the keys of the type only. *)
Lemma make_ext type subject f g :
  get f "at" = get g "at" -> (forall k, In k (event_keys type) -> get f k = get g k) ->
  makeFinalizationEvent type subject f = makeFinalizationEvent type subject g.
Proof.
  intros Ha Hk. unfold makeFinalizationEvent. rewrite Ha.
  destruct (negb (str_in type FINALIZATION_EVENT_TYPES)) eqn:Et; [done|]. apply negb_false_iff in Et.
  destruct (negb (isNonEmptyString (get g "at"))); [done|].
  destruct (resolveSubjectKey subject) as [key|]; [|done]. simpl.
  assert (Hr : assertRequired type f = assertRequired type g).
  { unfold assertRequired. rewrite (require_fields_ext type _ f g).
    - destruct (require_fields _ _ g); [|done]. simpl. revert Hk. event_cases Et; intros Hk; simpl; try done;
        rewrite ?Hk by (vm_compute; tauto); done.
    - intros k Hin. rewrite Hk; [done|]. apply in_or_app; auto. }
  rewrite Hr. destruct (assertRequired type g); [|done]. simpl. f_equal.
  apply copy_fields_ext. intros k Hin. by rewrite Hk.
Qed.

(** The validator and the constructors agree: an object read back is a
    valid event exactly when the constructor of its type accepts it. *)
Theorem validator_matches_constructor (event : obj) :
  isFinalizationEvent (VObj event) = true <->
  exists type e, get event "type" = VStr type
    /\ makeFinalizationEvent type (get event "subjectKey") event = Ok e.
Proof.
  unfold isFinalizationEvent. split.
  - destruct (get event "type") as [| | | |t| |]; try done. intros H. bool_simpl.
    destruct (resolveSubjectKey (get event "subjectKey")) as [key|] eqn:Ek; [|done].
    destruct (assertRequired t event) as [[]|] eqn:Er; [|done].
    exists t. eexists. split; [done|]. by eapply make_ok.
  - intros (t & e & -> & (Ht & Ha & Hr & key & Ek & _)%make_inv). by rewrite Ht, Ha, Hr, Ek.
Qed.

(** ** Concrete inputs *)

Definition ex_key : obj := [("domainId", VStr "code-pr"); ("subjectExternalId", VStr "org/repo#7")].

Definition ex_verdict_fields : obj :=
  [("at", VStr "2026-01-01T00:05:00.000Z"); ("revisionRef", VStr "abc"); ("stageId", VStr "review");
   ("role", VStr "codex"); ("verdictKind", VStr "approved"); ("sourceRef", VStr "gh:1");
   ("ignored", VInt 1)].

Example ex_make :
  verdictRecorded (VObj [("ref", VObj ex_key)]) ex_verdict_fields
  = Ok [("type", VStr "verdict_recorded"); ("subjectKey", VObj ex_key);
        ("at", VStr "2026-01-01T00:05:00.000Z"); ("revisionRef", VStr "abc"); ("stageId", VStr "review");
        ("role", VStr "codex"); ("verdictKind", VStr "approved"); ("sourceRef", VStr "gh:1")].
Proof. vm_compute. reflexivity. Qed.

Definition ex_event : obj :=
  match verdictRecorded (VObj ex_key) ex_verdict_fields with Ok e => e | Throw _ => [] end.

