(* ===== verification/LedgerFold.v ===== *)
(** The ledger fold (src/src/finalization/ledger-fold.mjs, [fold], [foldFrom]
    and [applyEvent]): the projection of the append-only event list into the
    per-revision, per-stage and terminal state that eligibility reads. Events
    are untyped objects; the state is the record the source builds, with
    untyped leaves where it copies a field through. *)

From Stdlib Require Import ZArith Lia Ascii SpecFloat.
From stdpp Require Import base list strings.
From S2P Require Import Prelude JsNum JsValue LedgerEvents.

Definition RESUMING_OVERRIDE_KINDS : list string :=
  ["resume"; "reopen"; "force-rereview"; "raise-cap"; "approve"].

(** ** State *)

Record VerdictEntry := {
  vStageId : val; vRole : val; verdictKind : val; vSourceRef : val; vAt : val }.
Record ChecksState := {
  conclusion : val; requiredChecksPresent : bool; cSourceRef : val; cAt : val }.
Record Attestation := {
  aKind : val; aPrincipal : val; aSourceRef : val; aAt : val }.
Record RevisionState := {
  verdicts : list VerdictEntry;
  checks : option ChecksState;
  attestations : list Attestation;
  revisionAdvancedAt : val }.
Record LedgerStage := {
  stageBudgetExhausted : bool;
  budgetExhaustedAt : val;
  dispatchedRounds : nat;
  concludedRounds : nat }.
Record Dispatch := {
  dRevisionRef : val; dRound : val; dIdempotencyKey : val; dStageId : val; dFinal : bool; dAt : val }.
Record Conclusion := {
  cnRevisionRef : val; cnRound : val; outcome : val; cnStageId : val; cnAt : val }.
Record Override := {
  overrideKind : val; oPrincipal : val; oReason : val; roundCap : val; oRevisionRef : val; oAt : val }.

Inductive Terminal :=
| TFinalized (revisionRef method at_ : val)
| TClosed (reason at_ : val)
| TEscalated (reason at_ : val)
| THalted (reason at_ : val).

Record LedgerState := {
  subjectKey : val;
  eventCount : nat;
  lastEventAt : val;
  currentRevision : val;
  revisions : jsmap RevisionState;
  stages : jsmap LedgerStage;
  dispatched : list Dispatch;
  concluded : list Conclusion;
  operatorOverrides : list Override;
  terminal : option Terminal;
  finalizedMark : option Terminal }.

Definition initialLedgerState : LedgerState := {|
  subjectKey := VNull; eventCount := 0; lastEventAt := VNull; currentRevision := VNull;
  revisions := []; stages := []; dispatched := []; concluded := []; operatorOverrides := [];
  terminal := None; finalizedMark := None |}.

Definition emptyRevisionState : RevisionState :=
  {| verdicts := []; checks := None; attestations := []; revisionAdvancedAt := VNull |}.
Definition emptyStageState : LedgerStage :=
  {| stageBudgetExhausted := false; budgetExhaustedAt := VNull; dispatchedRounds := 0; concludedRounds := 0 |}.

(** [ensureRevision] and [ensureStage], returning the entry. *)
Definition ensureRevision (m : jsmap RevisionState) (rev : string) : RevisionState :=
  default emptyRevisionState (map_get m rev).
Definition ensureStage (m : jsmap LedgerStage) (stageId : string) : LedgerStage :=
  default emptyStageState (map_get m stageId).

(** ** [cloneState]: a JSON round trip of every leaf *)

Definition clone_verdict (v : VerdictEntry) : VerdictEntry := {|
  vStageId := json_norm (vStageId v); vRole := json_norm (vRole v);
  verdictKind := json_norm (verdictKind v); vSourceRef := json_norm (vSourceRef v);
  vAt := json_norm (vAt v) |}.
Definition clone_checks (c : ChecksState) : ChecksState := {|
  conclusion := json_norm (conclusion c); requiredChecksPresent := requiredChecksPresent c;
  cSourceRef := json_norm (cSourceRef c); cAt := json_norm (cAt c) |}.
Definition clone_attestation (a : Attestation) : Attestation := {|
  aKind := json_norm (aKind a); aPrincipal := json_norm (aPrincipal a);
  aSourceRef := json_norm (aSourceRef a); aAt := json_norm (aAt a) |}.
Definition clone_revision (r : RevisionState) : RevisionState := {|
  verdicts := map clone_verdict (verdicts r); checks := clone_checks <$> checks r;
  attestations := map clone_attestation (attestations r);
  revisionAdvancedAt := json_norm (revisionAdvancedAt r) |}.
Definition clone_stage (s : LedgerStage) : LedgerStage := {|
  stageBudgetExhausted := stageBudgetExhausted s; budgetExhaustedAt := json_norm (budgetExhaustedAt s);
  dispatchedRounds := dispatchedRounds s; concludedRounds := concludedRounds s |}.
Definition clone_dispatch (d : Dispatch) : Dispatch := {|
  dRevisionRef := json_norm (dRevisionRef d); dRound := json_norm (dRound d);
  dIdempotencyKey := json_norm (dIdempotencyKey d); dStageId := json_norm (dStageId d);
  dFinal := dFinal d; dAt := json_norm (dAt d) |}.
Definition clone_conclusion (c : Conclusion) : Conclusion := {|
  cnRevisionRef := json_norm (cnRevisionRef c); cnRound := json_norm (cnRound c);
  outcome := json_norm (outcome c); cnStageId := json_norm (cnStageId c); cnAt := json_norm (cnAt c) |}.
Definition clone_override (o : Override) : Override := {|
  overrideKind := json_norm (overrideKind o); oPrincipal := json_norm (oPrincipal o);
  oReason := json_norm (oReason o); roundCap := json_norm (roundCap o);
  oRevisionRef := json_norm (oRevisionRef o); oAt := json_norm (oAt o) |}.
Definition clone_terminal (t : Terminal) : Terminal :=
  match t with
  | TFinalized r m a => TFinalized (json_norm r) (json_norm m) (json_norm a)
  | TClosed r a => TClosed (json_norm r) (json_norm a)
  | TEscalated r a => TEscalated (json_norm r) (json_norm a)
  | THalted r a => THalted (json_norm r) (json_norm a)
  end.
Definition clone_map {A} (f : A -> A) (m : jsmap A) : jsmap A := map (fun kv => (fst kv, f (snd kv))) m.

Definition cloneState (s : LedgerState) : LedgerState := {|
  subjectKey := json_norm (subjectKey s); eventCount := eventCount s;
  lastEventAt := json_norm (lastEventAt s); currentRevision := json_norm (currentRevision s);
  revisions := clone_map clone_revision (revisions s); stages := clone_map clone_stage (stages s);
  dispatched := map clone_dispatch (dispatched s); concluded := map clone_conclusion (concluded s);
  operatorOverrides := map clone_override (operatorOverrides s);
  terminal := clone_terminal <$> terminal s; finalizedMark := clone_terminal <$> finalizedMark s |}.

(** ** [applyEvent] *)

(** [{ ...key }] of a subject key; validated events carry an object there. *)
Definition spread_key (v : val) : val := match v with VObj o => VObj o | _ => VObj [] end.

Definition count_event (s : LedgerState) (event : obj) : LedgerState := {|
  subjectKey := if negb (truthy (subjectKey s)) && truthy (get event "subjectKey")
                then spread_key (get event "subjectKey") else subjectKey s;
  eventCount := S (eventCount s); lastEventAt := get event "at";
  currentRevision := currentRevision s; revisions := revisions s; stages := stages s;
  dispatched := dispatched s; concluded := concluded s; operatorOverrides := operatorOverrides s;
  terminal := terminal s; finalizedMark := finalizedMark s |}.

Definition set_revisions (s : LedgerState) (cur : val) (m : jsmap RevisionState) : LedgerState := {|
  subjectKey := subjectKey s; eventCount := eventCount s; lastEventAt := lastEventAt s;
  currentRevision := cur; revisions := m; stages := stages s;
  dispatched := dispatched s; concluded := concluded s; operatorOverrides := operatorOverrides s;
  terminal := terminal s; finalizedMark := finalizedMark s |}.
Definition set_stages (s : LedgerState) (m : jsmap LedgerStage) (ds : list Dispatch) (cs : list Conclusion)
  : LedgerState := {|
  subjectKey := subjectKey s; eventCount := eventCount s; lastEventAt := lastEventAt s;
  currentRevision := currentRevision s; revisions := revisions s; stages := m;
  dispatched := ds; concluded := cs; operatorOverrides := operatorOverrides s;
  terminal := terminal s; finalizedMark := finalizedMark s |}.
Definition set_marks (s : LedgerState) (ovs : list Override) (t f : option Terminal) : LedgerState := {|
  subjectKey := subjectKey s; eventCount := eventCount s; lastEventAt := lastEventAt s;
  currentRevision := currentRevision s; revisions := revisions s; stages := stages s;
  dispatched := dispatched s; concluded := concluded s; operatorOverrides := ovs;
  terminal := t; finalizedMark := f |}.

Definition event_is (t : string) (event : obj) : bool := is_str (get event "type") t.
Definition rev_key (event : obj) : string := to_str (get event "revisionRef").
Definition stage_key (event : obj) : string := to_str (get event "stageId").

Definition verdict_of (event : obj) : VerdictEntry := {|
  vStageId := get event "stageId"; vRole := get event "role"; verdictKind := get event "verdictKind";
  vSourceRef := get event "sourceRef"; vAt := get event "at" |}.
Definition checks_of (event : obj) : ChecksState := {|
  conclusion := get event "conclusion"; requiredChecksPresent := is_true (get event "requiredChecksPresent");
  cSourceRef := get event "sourceRef"; cAt := get event "at" |}.
Definition attestation_of (event : obj) : Attestation := {|
  aKind := get event "kind"; aPrincipal := get event "principal";
  aSourceRef := get event "sourceRef"; aAt := get event "at" |}.
Definition dispatch_of (event : obj) : Dispatch := {|
  dRevisionRef := get event "revisionRef"; dRound := get event "round";
  dIdempotencyKey := get event "idempotencyKey"; dStageId := coalesce (get event "stageId") VNull;
  dFinal := is_true (get event "final"); dAt := get event "at" |}.
Definition conclusion_of (event : obj) : Conclusion := {|
  cnRevisionRef := get event "revisionRef"; cnRound := get event "round";
  outcome := get event "outcome"; cnStageId := coalesce (get event "stageId") VNull;
  cnAt := get event "at" |}.
Definition override_of (event : obj) : Override := {|
  overrideKind := get event "overrideKind"; oPrincipal := get event "principal";
  oReason := get event "reason"; roundCap := coalesce (get event "roundCap") VNull;
  oRevisionRef := coalesce (get event "revisionRef") VNull; oAt := get event "at" |}.

Definition with_advance (r : RevisionState) (at_ : val) : RevisionState := {|
  verdicts := verdicts r; checks := checks r; attestations := attestations r;
  revisionAdvancedAt := if truthy (revisionAdvancedAt r) then revisionAdvancedAt r else at_ |}.
Definition push_verdict (r : RevisionState) (v : VerdictEntry) : RevisionState := {|
  verdicts := verdicts r ++ [v]; checks := checks r; attestations := attestations r;
  revisionAdvancedAt := revisionAdvancedAt r |}.
Definition set_checks (r : RevisionState) (c : ChecksState) : RevisionState := {|
  verdicts := verdicts r; checks := Some c; attestations := attestations r;
  revisionAdvancedAt := revisionAdvancedAt r |}.
Definition push_attestation (r : RevisionState) (a : Attestation) : RevisionState := {|
  verdicts := verdicts r; checks := checks r; attestations := attestations r ++ [a];
  revisionAdvancedAt := revisionAdvancedAt r |}.

Definition add_dispatched (s : LedgerStage) : LedgerStage := {|
  stageBudgetExhausted := stageBudgetExhausted s; budgetExhaustedAt := budgetExhaustedAt s;
  dispatchedRounds := S (dispatchedRounds s); concludedRounds := concludedRounds s |}.
Definition add_concluded (s : LedgerStage) : LedgerStage := {|
  stageBudgetExhausted := stageBudgetExhausted s; budgetExhaustedAt := budgetExhaustedAt s;
  dispatchedRounds := dispatchedRounds s; concludedRounds := S (concludedRounds s) |}.
Definition exhaust (at_ : val) (s : LedgerStage) : LedgerStage := {|
  stageBudgetExhausted := true; budgetExhaustedAt := at_;
  dispatchedRounds := dispatchedRounds s; concludedRounds := concludedRounds s |}.

Definition update_revision (s : LedgerState) (event : obj) (f : RevisionState -> RevisionState)
  : jsmap RevisionState :=
  map_set (revisions s) (rev_key event) (f (ensureRevision (revisions s) (rev_key event))).
Definition update_stage (s : LedgerState) (event : obj) (f : LedgerStage -> LedgerStage)
  : jsmap LedgerStage :=
  map_set (stages s) (stage_key event) (f (ensureStage (stages s) (stage_key event))).

Definition is_resumable (t : option Terminal) : bool :=
  match t with Some (TEscalated _ _) | Some (THalted _ _) => true | _ => false end.

Definition applyEvent (state : LedgerState) (event : obj) : LedgerState :=
  let s := count_event state event in
  if event_is "revision_advanced" event then
    set_revisions s (get event "revisionRef")
      (update_revision s event (fun r => with_advance r (get event "at")))
  else if event_is "verdict_recorded" event then
    set_revisions s (currentRevision s) (update_revision s event (fun r => push_verdict r (verdict_of event)))
  else if event_is "checks_settled" event then
    set_revisions s (currentRevision s) (update_revision s event (fun r => set_checks r (checks_of event)))
  else if event_is "attestation_recorded" event then
    set_revisions s (currentRevision s)
      (update_revision s event (fun r => push_attestation r (attestation_of event)))
  else if event_is "remediation_dispatched" event then
    set_stages s (if truthy (get event "stageId") then update_stage s event add_dispatched else stages s)
      (dispatched s ++ [dispatch_of event]) (concluded s)
  else if event_is "remediation_concluded" event then
    set_stages s (if truthy (get event "stageId") then update_stage s event add_concluded else stages s)
      (dispatched s) (concluded s ++ [conclusion_of event])
  else if event_is "budget_exhausted" event then
    set_stages s (update_stage s event (exhaust (get event "at"))) (dispatched s) (concluded s)
  else if event_is "operator_override" event then
    set_marks s (operatorOverrides s ++ [override_of event])
      (if is_resumable (terminal s) && val_in (get event "overrideKind") RESUMING_OVERRIDE_KINDS
       then None else terminal s) (finalizedMark s)
  else if event_is "finalized" event then
    let mark := TFinalized (get event "revisionRef") (get event "method") (get event "at") in
    set_marks s (operatorOverrides s) (Some mark) (Some mark)
  else if event_is "closed" event then
    set_marks s (operatorOverrides s) (Some (TClosed (get event "reason") (get event "at"))) (finalizedMark s)
  else if event_is "escalated" event then
    set_marks s (operatorOverrides s) (Some (TEscalated (get event "reason") (get event "at"))) (finalizedMark s)
  else if event_is "halted" event then
    set_marks s (operatorOverrides s) (Some (THalted (get event "reason") (get event "at"))) (finalizedMark s)
  else s.

Definition foldFrom (snapshot : LedgerState) (events : list obj) : LedgerState :=
  fold_left applyEvent events (cloneState snapshot).
Definition fold (events : list obj) : LedgerState := foldFrom initialLedgerState events.

(** ** Reading the state after one event *)

Lemma event_is_other t t' e :
  event_is t e = true -> String.eqb t t' = false -> event_is t' e = false.
Proof. intros H%is_str_eq E. unfold event_is, is_str. rewrite H. simpl. exact E. Qed.

(** Case analysis on the type of the event being applied: each branch knows
    which [event_is] tests answer false. *)
Ltac ev_known H :=
  repeat match goal with
  | |- context [event_is ?t' ?e] =>
      rewrite (event_is_other _ t' e H) by reflexivity
  end.
Ltac ev_cases e :=
  repeat match goal with
  | |- context [if event_is ?t e then _ else _] =>
      let H := fresh "Hty" in destruct (event_is t e) eqn:H; [ev_known H|]
  end.
Ltac ev_split e := unfold applyEvent; cbv zeta; ev_cases e.

Lemma ensureRevision_set m k r r' :
  ensureRevision (map_set m k r) r' = if String.eqb k r' then r else ensureRevision m r'.
Proof.
  unfold ensureRevision. destruct (String.eqb_spec k r') as [->|Hne].
  - by rewrite map_get_set.
  - by rewrite map_get_set_ne.
Qed.

Lemma ensureStage_set m k s s' :
  ensureStage (map_set m k s) s' = if String.eqb k s' then s else ensureStage m s'.
Proof.
  unfold ensureStage. destruct (String.eqb_spec k s') as [->|Hne].
  - by rewrite map_get_set.
  - by rewrite map_get_set_ne.
Qed.

(** An event of type [t] about revision [r]. *)
Definition at_rev (t r : string) (e : obj) : bool := event_is t e && String.eqb (rev_key e) r.
Definition at_stage (t k : string) (e : obj) : bool := event_is t e && String.eqb (stage_key e) k.

Definition step_revision (r : string) (x : RevisionState) (e : obj) : RevisionState :=
  if at_rev "revision_advanced" r e then with_advance x (get e "at")
  else if at_rev "verdict_recorded" r e then push_verdict x (verdict_of e)
  else if at_rev "checks_settled" r e then set_checks x (checks_of e)
  else if at_rev "attestation_recorded" r e then push_attestation x (attestation_of e)
  else x.

Lemma apply_revision st e r :
  ensureRevision (revisions (applyEvent st e)) r = step_revision r (ensureRevision (revisions st) r) e.
Proof.
  unfold step_revision, at_rev. ev_split e; cbn [revisions set_revisions set_stages set_marks andb];
    try reflexivity; unfold update_revision; rewrite ensureRevision_set; cbn [revisions count_event];
    destruct (String.eqb_spec (rev_key e) r) as [<-|]; reflexivity.
Qed.

Lemma step_revision_fields r x e :
  verdicts (step_revision r x e)
    = verdicts x ++ (if at_rev "verdict_recorded" r e then [verdict_of e] else [])
  /\ checks (step_revision r x e) = (if at_rev "checks_settled" r e then Some (checks_of e) else checks x)
  /\ attestations (step_revision r x e)
    = attestations x ++ (if at_rev "attestation_recorded" r e then [attestation_of e] else []).
Proof.
  unfold step_revision, at_rev. destruct (String.eqb (rev_key e) r); rewrite ?andb_false_r, ?andb_true_r.
  - ev_cases e; cbn [verdicts checks attestations with_advance push_verdict set_checks push_attestation];
      rewrite ?app_nil_r; auto.
  - by rewrite !app_nil_r.
Qed.

Definition step_stage (k : string) (x : LedgerStage) (e : obj) : LedgerStage :=
  if at_stage "remediation_dispatched" k e && truthy (get e "stageId") then add_dispatched x
  else if at_stage "remediation_concluded" k e && truthy (get e "stageId") then add_concluded x
  else if at_stage "budget_exhausted" k e then exhaust (get e "at") x
  else x.

Lemma apply_stage st e k :
  ensureStage (stages (applyEvent st e)) k = step_stage k (ensureStage (stages st) k) e.
Proof.
  unfold step_stage, at_stage. ev_split e; cbn [stages set_revisions set_stages set_marks andb];
    try reflexivity; try destruct (truthy (get e "stageId")); rewrite ?andb_false_r, ?andb_true_r;
    try reflexivity; unfold update_stage; rewrite ensureStage_set; cbn [stages count_event];
    destruct (String.eqb_spec (stage_key e) k) as [<-|]; reflexivity.
Qed.

Lemma apply_currentRevision st e :
  currentRevision (applyEvent st e)
  = if event_is "revision_advanced" e then get e "revisionRef" else currentRevision st.
Proof. ev_split e; reflexivity. Qed.

Lemma apply_lists st e :
  dispatched (applyEvent st e)
    = dispatched st ++ (if event_is "remediation_dispatched" e then [dispatch_of e] else [])
  /\ concluded (applyEvent st e)
    = concluded st ++ (if event_is "remediation_concluded" e then [conclusion_of e] else [])
  /\ operatorOverrides (applyEvent st e)
    = operatorOverrides st ++ (if event_is "operator_override" e then [override_of e] else [])
  /\ eventCount (applyEvent st e) = S (eventCount st) /\ lastEventAt (applyEvent st e) = get e "at".
Proof.
  ev_split e; cbn [dispatched concluded operatorOverrides eventCount lastEventAt
    set_revisions set_stages set_marks count_event]; rewrite ?app_nil_r; auto 10.
Qed.

(** The terminal mark as a state machine over event types. *)
Definition step_terminal (t : option Terminal) (e : obj) : option Terminal :=
  if event_is "operator_override" e then
    if is_resumable t && val_in (get e "overrideKind") RESUMING_OVERRIDE_KINDS then None else t
  else if event_is "finalized" e then Some (TFinalized (get e "revisionRef") (get e "method") (get e "at"))
  else if event_is "closed" e then Some (TClosed (get e "reason") (get e "at"))
  else if event_is "escalated" e then Some (TEscalated (get e "reason") (get e "at"))
  else if event_is "halted" e then Some (THalted (get e "reason") (get e "at"))
  else t.

Lemma apply_terminal st e : terminal (applyEvent st e) = step_terminal (terminal st) e.
Proof. unfold step_terminal. ev_split e; reflexivity. Qed.

Lemma apply_finalizedMark st e :
  finalizedMark (applyEvent st e) =
  if event_is "finalized" e then Some (TFinalized (get e "revisionRef") (get e "method") (get e "at"))
  else finalizedMark st.
Proof. ev_split e; reflexivity. Qed.

Lemma step_stage_fields k x e :
  stageBudgetExhausted (step_stage k x e) = stageBudgetExhausted x || at_stage "budget_exhausted" k e
  /\ dispatchedRounds (step_stage k x e) = (dispatchedRounds x
       + if at_stage "remediation_dispatched" k e && truthy (get e "stageId") then 1 else 0)%nat
  /\ concludedRounds (step_stage k x e) = (concludedRounds x
       + if at_stage "remediation_concluded" k e && truthy (get e "stageId") then 1 else 0)%nat.
Proof.
  unfold step_stage, at_stage. destruct (String.eqb (stage_key e) k), (truthy (get e "stageId"));
    rewrite ?andb_false_r, ?andb_true_r;
    ev_cases e; cbn [stageBudgetExhausted dispatchedRounds concludedRounds add_dispatched add_concluded exhaust];
    rewrite ?orb_true_r, ?orb_false_r, ?Nat.add_0_r, ?Nat.add_1_r; auto.
Qed.

Lemma fold_nil : fold [] = initialLedgerState.
Proof. reflexivity. Qed.

Lemma fold_snoc es e : fold (es ++ [e]) = applyEvent (fold es) e.
Proof. unfold fold, foldFrom. by rewrite fold_left_app. Qed.

Lemma fold_revision es r :
  let rs := ensureRevision (revisions (fold es)) r in
  verdicts rs = map verdict_of (filter_b (at_rev "verdict_recorded" r) es)
  /\ checks rs = checks_of <$> last (filter_b (at_rev "checks_settled" r) es)
  /\ attestations rs = map attestation_of (filter_b (at_rev "attestation_recorded" r) es).
Proof.
  cbv zeta. induction es as [|e es IH] using rev_ind; [by vm_compute|].
  destruct IH as (Hv & Hc & Ha).
  rewrite fold_snoc, apply_revision, !last_snoc_if, !filter_b_snoc, !map_app.
  destruct (step_revision_fields r (ensureRevision (revisions (fold es)) r) e) as (-> & -> & ->).
  rewrite Hv, Hc, Ha. split; [by case_match|]. split; by case_match.
Qed.

Lemma fold_currentRevision es :
  currentRevision (fold es)
  = from_option (fun e => get e "revisionRef") VNull (last (filter_b (event_is "revision_advanced") es)).
Proof.
  induction es as [|e es IH] using rev_ind; [done|].
  rewrite fold_snoc, apply_currentRevision, last_snoc_if, IH. by case_match.
Qed.

Lemma fold_lists es :
  dispatched (fold es) = map dispatch_of (filter_b (event_is "remediation_dispatched") es)
  /\ concluded (fold es) = map conclusion_of (filter_b (event_is "remediation_concluded") es)
  /\ operatorOverrides (fold es) = map override_of (filter_b (event_is "operator_override") es)
  /\ eventCount (fold es) = length es.
Proof.
  induction es as [|e es IH] using rev_ind; [done|].
  destruct IH as (Hd & Hc & Ho & Hn). rewrite fold_snoc, !filter_b_snoc, !map_app, length_app.
  destruct (apply_lists (fold es) e) as (-> & -> & -> & -> & _). rewrite Hd, Hc, Ho, Hn.
  split; [by case_match|]. split; [by case_match|]. split; [by case_match | simpl; lia].
Qed.

(** The fold is a faithful projection of the ledger: the verdicts and the
    attestations held for a revision are exactly those of the events about that
    revision, in append order; its checks are the last settlement observed; the
    current revision is the one of the last advance; and remediation rounds and
    overrides are listed exactly as recorded. *)
Theorem fold_projects_ledger (es : list obj) (r : string) :
  let rs := ensureRevision (revisions (fold es)) r in
  verdicts rs = map verdict_of (filter_b (at_rev "verdict_recorded" r) es)
  /\ checks rs = checks_of <$> last (filter_b (at_rev "checks_settled" r) es)
  /\ attestations rs = map attestation_of (filter_b (at_rev "attestation_recorded" r) es)
  /\ currentRevision (fold es)
     = from_option (fun e => get e "revisionRef") VNull (last (filter_b (event_is "revision_advanced") es))
  /\ dispatched (fold es) = map dispatch_of (filter_b (event_is "remediation_dispatched") es)
  /\ concluded (fold es) = map conclusion_of (filter_b (event_is "remediation_concluded") es)
  /\ operatorOverrides (fold es) = map override_of (filter_b (event_is "operator_override") es)
  /\ eventCount (fold es) = length es.
Proof.
  intros rs. destruct (fold_revision es r) as (Hv & Hc & Ha). destruct (fold_lists es) as (Hd & Hn & Ho & Hl).
  repeat split; try assumption. apply fold_currentRevision.
Qed.

(** Per-stage budget accounting: a stage is exhausted exactly when a
    [budget_exhausted] event names it, and its counters are the numbers of
    dispatches and conclusions recorded for it. *)
Theorem fold_stage_accounting (es : list obj) (k : string) :
  let s := ensureStage (stages (fold es)) k in
  (stageBudgetExhausted s = true <-> exists e, In e es /\ at_stage "budget_exhausted" k e = true)
  /\ dispatchedRounds s
     = count_b (fun e => at_stage "remediation_dispatched" k e && truthy (get e "stageId")) es
  /\ concludedRounds s
     = count_b (fun e => at_stage "remediation_concluded" k e && truthy (get e "stageId")) es.
Proof.
  cbv zeta. induction es as [|e es IH] using rev_ind.
  { rewrite fold_nil. split; [|split; reflexivity]. split; [discriminate | intros (? & [] & _)]. }
  destruct IH as (Hx & Hd & Hc). rewrite fold_snoc, apply_stage.
  destruct (step_stage_fields k (ensureStage (stages (fold es)) k) e) as (-> & -> & ->).
  rewrite !count_b_snoc, Hd, Hc, orb_true_iff, Hx. split; [|done]. split.
  - intros [(e0 & H & E)|E]; [exists e0 | exists e]; (split; [apply in_or_app; simpl; auto | done]).
  - intros (e0 & [H|[<-|[]]]%in_app_or & E); [left; eauto | by right].
Qed.

(** ** Cloning

    A state whose leaves are JSON values is its own clone, and folding JSON
    events keeps it so. *)

Definition state_stable (s : LedgerState) : Prop := cloneState s = s.

Lemma map_get_clone {A} (f : A -> A) m k : map_get (clone_map f m) k = f <$> map_get m k.
Proof. induction m as [|[k' v] m IH]; simpl; [done|]. by case_match. Qed.

Lemma clone_map_set {A} (f : A -> A) m k v : clone_map f (map_set m k v) = map_set (clone_map f m) k (f v).
Proof. induction m as [|[k' v'] m IH]; simpl; [done|]. case_match; simpl; [done|]. by rewrite IH. Qed.

Lemma clone_ensureRevision m r :
  clone_map clone_revision m = m -> clone_revision (ensureRevision m r) = ensureRevision m r.
Proof.
  intros H. unfold ensureRevision. rewrite <- H at 2. rewrite map_get_clone. by destruct (map_get m r).
Qed.

Lemma clone_ensureStage m k :
  clone_map clone_stage m = m -> clone_stage (ensureStage m k) = ensureStage m k.
Proof.
  intros H. unfold ensureStage. rewrite <- H at 2. rewrite map_get_clone. by destruct (map_get m k).
Qed.

Section CloneEvent.
Context (e : obj) (Hs : json_stable (VObj e)).

Lemma field_stable k : json_norm (get e k) = get e k.
Proof. by apply json_stable_get. Qed.
Lemma field_null_stable k : json_norm (coalesce (get e k) VNull) = coalesce (get e k) VNull.
Proof. unfold coalesce. case_match; [done | apply field_stable]. Qed.

Lemma clone_verdict_of : clone_verdict (verdict_of e) = verdict_of e.
Proof. unfold clone_verdict, verdict_of. simpl. by rewrite !field_stable. Qed.
Lemma clone_checks_of : clone_checks (checks_of e) = checks_of e.
Proof. unfold clone_checks, checks_of. simpl. by rewrite !field_stable. Qed.
Lemma clone_attestation_of : clone_attestation (attestation_of e) = attestation_of e.
Proof. unfold clone_attestation, attestation_of. simpl. by rewrite !field_stable. Qed.
Lemma clone_dispatch_of : clone_dispatch (dispatch_of e) = dispatch_of e.
Proof. unfold clone_dispatch, dispatch_of. simpl. by rewrite !field_stable, field_null_stable. Qed.
Lemma clone_conclusion_of : clone_conclusion (conclusion_of e) = conclusion_of e.
Proof. unfold clone_conclusion, conclusion_of. simpl. by rewrite !field_stable, field_null_stable. Qed.
Lemma clone_override_of : clone_override (override_of e) = override_of e.
Proof. unfold clone_override, override_of. simpl. by rewrite !field_stable, !field_null_stable. Qed.

Lemma clone_with_advance r :
  clone_revision r = r -> clone_revision (with_advance r (get e "at")) = with_advance r (get e "at").
Proof.
  destruct r as [vs cs ats adv]. unfold clone_revision, with_advance. simpl. intros [= -> -> -> Ha].
  f_equal. case_match; [done | apply field_stable].
Qed.
Lemma clone_push_verdict r :
  clone_revision r = r -> clone_revision (push_verdict r (verdict_of e)) = push_verdict r (verdict_of e).
Proof.
  destruct r as [vs cs ats adv]. unfold clone_revision, push_verdict. simpl. intros [= Hv -> -> ->].
  f_equal. by rewrite map_app, Hv; simpl; rewrite clone_verdict_of.
Qed.
Lemma clone_set_checks r :
  clone_revision r = r -> clone_revision (set_checks r (checks_of e)) = set_checks r (checks_of e).
Proof.
  destruct r as [vs cs ats adv]. unfold clone_revision, set_checks. simpl. intros [= -> _ -> ->].
  by rewrite clone_checks_of.
Qed.
Lemma clone_push_attestation r :
  clone_revision r = r ->
  clone_revision (push_attestation r (attestation_of e)) = push_attestation r (attestation_of e).
Proof.
  destruct r as [vs cs ats adv]. unfold clone_revision, push_attestation. simpl. intros [= -> -> Ha ->].
  f_equal. by rewrite map_app, Ha; simpl; rewrite clone_attestation_of.
Qed.

Lemma clone_update_revision st f :
  clone_map clone_revision (revisions st) = revisions st ->
  (forall r, clone_revision r = r -> clone_revision (f r) = f r) ->
  clone_map clone_revision (update_revision st e f) = update_revision st e f.
Proof.
  intros Hm Hf. unfold update_revision. rewrite clone_map_set, Hm, Hf; [done|].
  by apply clone_ensureRevision.
Qed.
Lemma clone_update_stage st f :
  clone_map clone_stage (stages st) = stages st ->
  (forall s, clone_stage s = s -> clone_stage (f s) = f s) ->
  clone_map clone_stage (update_stage st e f) = update_stage st e f.
Proof.
  intros Hm Hf. unfold update_stage. rewrite clone_map_set, Hm, Hf; [done|].
  by apply clone_ensureStage.
Qed.

Lemma clone_count_event st : state_stable st -> state_stable (count_event st e).
Proof.
  unfold state_stable, cloneState, count_event. destruct st; simpl. intros [= H1 H2 H3 H4 H5 H6 H7 H8 H9 H10].
  f_equal; try done; [|apply field_stable].
  case_match; [|done]. pose proof (field_stable "subjectKey") as H'. destruct (get e "subjectKey"); done.
Qed.

Lemma clone_set_revisions st cur m :
  state_stable st -> json_norm cur = cur -> clone_map clone_revision m = m ->
  state_stable (set_revisions st cur m).
Proof.
  unfold state_stable, cloneState, set_revisions. destruct st; simpl.
  intros [= H1 H2 H3 H4 H5 H6 H7 H8 H9 H10] Hc Hm. f_equal; done.
Qed.
Lemma clone_set_stages st m ds cs :
  state_stable st -> clone_map clone_stage m = m -> map clone_dispatch ds = ds ->
  map clone_conclusion cs = cs -> state_stable (set_stages st m ds cs).
Proof.
  unfold state_stable, cloneState, set_stages. destruct st; simpl.
  intros [= H1 H2 H3 H4 H5 H6 H7 H8 H9 H10] Hm Hd Hcs. f_equal; done.
Qed.
Lemma clone_set_marks st ovs t f :
  state_stable st -> map clone_override ovs = ovs -> clone_terminal <$> t = t ->
  clone_terminal <$> f = f -> state_stable (set_marks st ovs t f).
Proof.
  unfold state_stable, cloneState, set_marks. destruct st; simpl.
  intros [= H1 H2 H3 H4 H5 H6 H7 H8 H9 H10] Ho Ht Hf. f_equal; done.
Qed.

Lemma stable_fields st : state_stable st ->
  json_norm (currentRevision st) = currentRevision st
  /\ clone_map clone_revision (revisions st) = revisions st
  /\ clone_map clone_stage (stages st) = stages st
  /\ map clone_dispatch (dispatched st) = dispatched st
  /\ map clone_conclusion (concluded st) = concluded st
  /\ map clone_override (operatorOverrides st) = operatorOverrides st
  /\ clone_terminal <$> terminal st = terminal st
  /\ clone_terminal <$> finalizedMark st = finalizedMark st.
Proof.
  unfold state_stable, cloneState. destruct st; simpl.
  intros [= H1 H2 H3 H4 H5 H6 H7 H8 H9 H10]. auto 10.
Qed.

Lemma clone_applyEvent st : state_stable st -> state_stable (applyEvent st e).
Proof.
  intros Hst. pose proof (clone_count_event st Hst) as Hc.
  destruct (stable_fields _ Hc) as (Fcur & Frev & Fst & Fd & Fcn & Fo & Ft & Ff).
  ev_split e; try exact Hc.
  - apply clone_set_revisions; [done | apply field_stable |].
    by apply clone_update_revision; [|apply clone_with_advance].
  - apply clone_set_revisions; [done.. |]. by apply clone_update_revision; [|apply clone_push_verdict].
  - apply clone_set_revisions; [done.. |]. by apply clone_update_revision; [|apply clone_set_checks].
  - apply clone_set_revisions; [done.. |]. by apply clone_update_revision; [|apply clone_push_attestation].
  - apply clone_set_stages; [done | | by rewrite map_app, Fd; simpl; rewrite clone_dispatch_of | done].
    case_match; [|done]. apply clone_update_stage; [done|].
    intros []; unfold clone_stage, add_dispatched; simpl. by intros [= ->].
  - apply clone_set_stages; [done | | done | by rewrite map_app, Fcn; simpl; rewrite clone_conclusion_of].
    case_match; [|done]. apply clone_update_stage; [done|].
    intros []; unfold clone_stage, add_concluded; simpl. by intros [= ->].
  - apply clone_set_stages; [done | | done..]. apply clone_update_stage; [done|].
    intros []; unfold clone_stage, exhaust; simpl. intros _. by rewrite field_stable.
  - apply clone_set_marks; [done | by rewrite map_app, Fo; simpl; rewrite clone_override_of | | done].
    by case_match.
  - apply clone_set_marks; [done | done | simpl; by rewrite !field_stable..].
  - apply clone_set_marks; [done | done | simpl; by rewrite !field_stable | done].
  - apply clone_set_marks; [done | done | simpl; by rewrite !field_stable | done].
  - apply clone_set_marks; [done | done | simpl; by rewrite !field_stable | done].
Qed.
End CloneEvent.

Lemma fold_stable es :
  Forall (fun e => json_stable (VObj e)) es -> state_stable (fold es).
Proof.
  induction es as [|e es IH] using rev_ind; [by intros; vm_compute|].
  intros [H1 H2]%Forall_snoc_inv. rewrite fold_snoc.
  apply clone_applyEvent; [exact H2 | by apply IH].
Qed.

(** C34. Replay resume: folding a tail onto the snapshot of a prefix gives the
    state of the whole ledger, for every split, on events that are JSON values
    (the ledger store holds JSON text). *)
Theorem replay_resume (prefix tail : list obj) :
  Forall (fun e => json_stable (VObj e)) prefix ->
  foldFrom (fold prefix) tail = fold (prefix ++ tail).
Proof.
  intros H. unfold foldFrom. rewrite (fold_stable _ H). unfold fold, foldFrom.
  by rewrite fold_left_app.
Qed.

(** ** Terminal marks *)

Lemma fold_tail_snoc es tail e : fold (es ++ tail ++ [e]) = applyEvent (fold (es ++ tail)) e.
Proof. by rewrite app_assoc, fold_snoc. Qed.

Lemma finalizedMark_kept es tail :
  finalizedMark (fold es) <> None -> finalizedMark (fold (es ++ tail)) <> None.
Proof.
  intros H. induction tail as [|e tail IH] using rev_ind; [by rewrite app_nil_r|].
  rewrite fold_tail_snoc, apply_finalizedMark. by case_match.
Qed.

(** Terminal marks are sticky: once a subject is finalized or closed, no
    override and no observation clears the mark; only another terminal event
    replaces it. The finalized record itself is never lost. *)
Theorem terminal_sticky (es tail : list obj) (t : Terminal) :
  terminal (fold es) = Some t -> is_resumable (Some t) = false ->
  Forall (fun e : obj => val_in (get e "type") TERMINAL_EVENT_TYPES = false) tail ->
  terminal (fold (es ++ tail)) = Some t
  /\ (finalizedMark (fold es) <> None -> finalizedMark (fold (es ++ tail)) <> None).
Proof.
  intros Ht Hres Htail. split; [|apply finalizedMark_kept].
  induction tail as [|e tail IH] using rev_ind; [by rewrite app_nil_r|].
  apply Forall_snoc_inv in Htail as [Htail He].
  rewrite fold_tail_snoc, apply_terminal, (IH Htail). unfold step_terminal. rewrite Hres. simpl.
  assert (Hn : forall k, In k TERMINAL_EVENT_TYPES -> event_is k e = false).
  { intros k Hk. unfold event_is. destruct (is_str (get e "type") k) eqn:E; [|done].
    apply is_str_eq in E. rewrite E in He. change (str_in k TERMINAL_EVENT_TYPES = false) in He.
    apply str_in_In in Hk. congruence. }
  rewrite (Hn "finalized"), (Hn "closed"), (Hn "escalated"), (Hn "halted") by (simpl; auto).
  by case_match.
Qed.

(** ** Where marks, exhaustion and anchors come from *)

Lemma stages_exhausted_event es k s :
  In (k, s) (stages (fold es)) -> stageBudgetExhausted s = true ->
  exists e, In e es /\ event_is "budget_exhausted" e = true.
Proof.
  revert k s. induction es as [|e es IH] using rev_ind; [done|]. intros k s.
  assert (Hens : forall m x, stageBudgetExhausted (ensureStage m x) = true ->
    exists k', In (k', ensureStage m x) m).
  { intros m x. unfold ensureStage. destruct (map_get m x) as [s'|] eqn:E; [|done]. intros _. exists x.
    revert E. induction m as [|[a b] m IHm]; simpl; [done|].
    destruct (String.eqb_spec x a) as [->|]; [intros [= ->]; by left | auto]. }
  assert (Hold : forall k s, In (k, s) (stages (fold es)) -> stageBudgetExhausted s = true ->
    exists e0, In e0 (es ++ [e]) /\ event_is "budget_exhausted" e0 = true).
  { intros k' s' H1 H2. destruct (IH k' s' H1 H2) as (e0 & H3 & H4). exists e0. split; [|done].
    apply in_or_app; auto. }
  rewrite fold_snoc. ev_split e; cbn [stages set_revisions set_stages set_marks count_event]; try apply Hold;
    try (case_match; [|apply Hold]); unfold update_stage; cbn [stages count_event];
    intros [->|Hin]%map_set_In; try (by apply Hold with k);
    try (simpl; intros Hx; destruct (Hens _ _ Hx) as (k' & Hk'); by eapply Hold).
  intros _. exists e. split; [apply in_or_app; right; by left | done].
Qed.

Lemma terminal_closed_event es r a :
  terminal (fold es) = Some (TClosed r a) -> exists e, In e es /\ event_is "closed" e = true.
Proof.
  induction es as [|e es IH] using rev_ind; [done|].
  rewrite fold_snoc, apply_terminal. unfold step_terminal.
  assert (Hold : terminal (fold es) = Some (TClosed r a) ->
    exists e0, In e0 (es ++ [e]) /\ event_is "closed" e0 = true).
  { intros (e0 & H1 & H2)%IH. exists e0. split; [apply in_or_app; auto | done]. }
  destruct (event_is "operator_override" e); [by case_match|].
  destruct (event_is "finalized" e); [done|].
  destruct (event_is "closed" e) eqn:E; [|destruct (event_is "escalated" e); [done|];
    destruct (event_is "halted" e); [done | exact Hold]].
  intros _. exists e. split; [apply in_or_app; right; by left | done].
Qed.

Lemma valid_at e : isFinalizationEvent (VObj e) = true -> truthy (get e "at") = true.
Proof.
  unfold isFinalizationEvent. destruct (get e "type"); try done. intros H. bool_simpl.
  by destruct (get e "at").
Qed.

(** On valid events the current revision always has its advance time. *)
Lemma current_revision_anchored es :
  Forall (fun e : obj => isFinalizationEvent (VObj e) = true) es ->
  truthy (currentRevision (fold es)) = true ->
  truthy (revisionAdvancedAt (ensureRevision (revisions (fold es)) (to_str (currentRevision (fold es))))) = true.
Proof.
  induction es as [|e es IH] using rev_ind; [done|].
  intros [Hes He]%Forall_snoc_inv. rewrite fold_snoc, apply_currentRevision.
  assert (Hadv : forall r x, truthy (revisionAdvancedAt x) = true \/ at_rev "revision_advanced" r e = true ->
    truthy (revisionAdvancedAt (step_revision r x e)) = true).
  { intros r x Hx. unfold step_revision.
    destruct (at_rev "revision_advanced" r e) eqn:Ea.
    - simpl. destruct (truthy (revisionAdvancedAt x)) eqn:E; [done | by apply valid_at].
    - destruct Hx as [Hx|[=]]. repeat case_match; exact Hx. }
  rewrite apply_revision. destruct (event_is "revision_advanced" e) eqn:Ee.
  - intros _. apply Hadv. right. unfold at_rev. rewrite Ee. apply String.eqb_refl.
  - intros Ht. apply Hadv. left. by apply IH.
Qed.

(** ** Concrete inputs *)

Definition ex_at (n : string) : val := VStr ("2026-01-01T00:0" +:+ n +:+ ":00.000Z").
Definition ex_ev (type : string) (fields : obj) : obj :=
  match makeFinalizationEvent type (VObj ex_key) fields with Ok e => e | Throw _ => [] end.
Definition ex_advance (rev n : string) : obj :=
  ex_ev "revision_advanced" [("at", ex_at n); ("revisionRef", VStr rev)].
Definition ex_verdict (rev kind n : string) : obj :=
  ex_ev "verdict_recorded" [("at", ex_at n); ("revisionRef", VStr rev); ("stageId", VStr "review");
    ("role", VStr "codex"); ("verdictKind", VStr kind); ("sourceRef", VStr "gh:1")].
Definition ex_checks (rev conclusion n : string) : obj :=
  ex_ev "checks_settled" [("at", ex_at n); ("revisionRef", VStr rev); ("conclusion", VStr conclusion);
    ("requiredChecksPresent", VBool true); ("sourceRef", VStr "gh:2")].
Definition ex_mark (type n : string) : obj :=
  ex_ev type [("at", ex_at n); ("reason", VStr "r"); ("revisionRef", VStr "abc"); ("method", VStr "merge")].
Definition ex_override (kind n : string) : obj :=
  ex_ev "operator_override" [("at", ex_at n); ("overrideKind", VStr kind); ("principal", VStr "op");
    ("reason", VStr "why")].
Definition ex_clean : list obj :=
  [ex_advance "abc" "1"; ex_verdict "abc" "approved" "2"; ex_checks "abc" "success" "3"].

Lemma replay_resume_witness :
  foldFrom (fold (firstn 2 ex_clean)) (skipn 2 ex_clean) = fold ex_clean.
Proof.
  apply (replay_resume (firstn 2 ex_clean) (skipn 2 ex_clean)).
  repeat constructor; vm_compute; reflexivity.
Defined.

Lemma terminal_sticky_witness :
  terminal (fold ((ex_clean ++ [ex_mark "closed" "4"]) ++ [ex_override "resume" "5"]))
  = Some (TClosed (VStr "r") (ex_at "4")).
Proof.
  eapply (terminal_sticky (ex_clean ++ [ex_mark "closed" "4"]) [ex_override "resume" "5"]);
    [vm_compute; reflexivity | vm_compute; reflexivity |].
  repeat constructor.
Defined.

(** An [escalated] event after [finalized] replaces the mark, and a resuming
    override then clears it: the subject is open again although the finalized
    record is still there. *)
Example finalized_revived_through_escalation :
  let s := fold (ex_clean ++ [ex_mark "finalized" "4"; ex_mark "escalated" "5"; ex_override "resume" "6"]) in
  terminal s = None /\ finalizedMark s <> None.
Proof. split; [vm_compute; reflexivity | vm_compute; discriminate]. Qed.
