(* ===== verification/Eligibility.v ===== *)
(** The eligibility fold (src/src/finalization/eligibility.mjs): the pure
    decision function over the projected ledger. [eligible] is the source's
    single function, split at its numbered sections; a thrown error is a
    [Throw] (invalid policy, a deadline beyond the range of dates). *)

From Stdlib Require Import ZArith Lia Ascii SpecFloat.
From stdpp Require Import base list strings.
From S2P Require Import Prelude JsNum JsValue JsDate LedgerEvents LedgerFold.

Inductive DecisionKind := finalize_now | remediate | close | wait | halt | escalate.

#[export] Instance DecisionKind_eq_dec : EqDecision DecisionKind.
Proof. solve_decision. Defined.

Definition kind_name (k : DecisionKind) : string :=
  match k with
  | finalize_now => "finalize-now" | remediate => "remediate" | close => "close"
  | wait => "wait" | halt => "halt" | escalate => "escalate"
  end.

Definition is_mutating (k : DecisionKind) : bool :=
  match k with finalize_now | remediate | close => true | _ => false end.

Definition NON_BLOCKING_CONCLUSIONS : list string := ["success"; "neutral"; "skipped"].
Definition SETTLED_CONCLUSIONS : list string :=
  ["success"; "neutral"; "skipped"; "failure"; "timed_out"; "cancelled"; "action_required"; "stale"].

Definition DEFAULT_PATIENCE_MS : Z := 30 * 60 * 1000.

Definition DEFAULT_ELIGIBILITY_POLICY : obj :=
  [("policyVersion", VInt 1); ("strictMode", VBool true); ("exhaustionAlwaysCloses", VBool true);
   ("allCommentsBeforeMerge", VBool true); ("consumeAttestations", VBool false);
   ("attestationProducers", VArr []); ("checksPatienceMs", VInt DEFAULT_PATIENCE_MS);
   ("verdictPatienceMs", VInt DEFAULT_PATIENCE_MS); ("attestationPatienceMs", VInt DEFAULT_PATIENCE_MS);
   ("autonomousExecutionDisabled", VBool false)].

(** ** Policy *)

Record Producer := { principal : string; producerKind : val }.

Record EligibilityPolicy := {
  policyVersion : num;
  strictMode : bool;
  exhaustionAlwaysCloses : bool;
  allCommentsBeforeMerge : bool;
  consumeAttestations : bool;
  attestationProducers : list Producer;
  checksPatienceMs : num;
  verdictPatienceMs : num;
  attestationPatienceMs : num;
  autonomousExecutionDisabled : bool
}.

Definition normalizeProducer (entry : val) : result Producer :=
  match entry with
  | VStr p => Ok {| principal := p; producerKind := VStr "produced" |}
  | _ =>
      match oget entry "principal" with
      | VStr p => Ok {| principal := p; producerKind := or_else (oget entry "kind") (VStr "produced") |}
      | _ => Throw (TypeError "attestation producer must be a principal string or { principal, kind }")
      end
  end.

Definition positiveMs (value : val) : num :=
  let n := to_num value in
  if is_finite n && num_ltb (S754_zero false) n then n else num_of_Z DEFAULT_PATIENCE_MS.

(** [Number(v) || 1]. *)
Definition version_number (v : val) : num :=
  if truthy (VNum (to_num v)) then to_num v else num_of_Z 1.

Definition normalizePolicy (policy : val) : result EligibilityPolicy :=
  if truthy policy && negb (is_object policy)
  then Throw (TypeError "eligibility policy must be an object")
  else
    let merged := spread DEFAULT_ELIGIBILITY_POLICY (match policy with VObj o => o | _ => [] end) in
    let* producers :=
      match get merged "attestationProducers" with
      | VArr l => rmapM normalizeProducer l
      | _ => Ok []
      end in
    if is_true (get merged "consumeAttestations") && Nat.eqb (length producers) 0
    then Throw (PlainError "invalid eligibility policy: consume_attestations is enabled but no attestation producer is configured")
    else Ok {|
      policyVersion := version_number (get merged "policyVersion");
      strictMode := negb (is_false (get merged "strictMode"));
      exhaustionAlwaysCloses := negb (is_false (get merged "exhaustionAlwaysCloses"));
      allCommentsBeforeMerge := negb (is_false (get merged "allCommentsBeforeMerge"));
      consumeAttestations := is_true (get merged "consumeAttestations");
      attestationProducers := producers;
      checksPatienceMs := positiveMs (get merged "checksPatienceMs");
      verdictPatienceMs := positiveMs (get merged "verdictPatienceMs");
      attestationPatienceMs := positiveMs (get merged "attestationPatienceMs");
      autonomousExecutionDisabled := is_true (get merged "autonomousExecutionDisabled") |}.

Definition validateEligibilityPolicy (policy : val) : result bool :=
  let* _ := normalizePolicy policy in Ok true.

(** ** Decisions *)

Record EligibilityDecision := {
  kind : DecisionKind;
  decSubjectKey : val;
  revisionRef : val;
  observedAt : val;
  reason : val;
  stageId : val;
  round : option nat;
  deadline : option string;
  final : option bool
}.

(** [makeEligibilityDecision] with the provenance fields and a reason; the
    optional fields are set by the functions below. *)
Definition makeEligibilityDecision (k : DecisionKind) (subject rev at_ why : val) : EligibilityDecision :=
  {| kind := k; decSubjectKey := coalesce subject VNull; revisionRef := coalesce rev (VStr "");
     observedAt := coalesce at_ VNull; reason := why;
     stageId := VUndef; round := None; deadline := None; final := None |}.

Definition with_deadline (dl : option string) (d : EligibilityDecision) : EligibilityDecision :=
  {| kind := kind d; decSubjectKey := decSubjectKey d; revisionRef := revisionRef d;
     observedAt := observedAt d; reason := reason d; stageId := stageId d; round := round d;
     deadline := dl; final := final d |}.
Definition with_stage (s : val) (d : EligibilityDecision) : EligibilityDecision :=
  {| kind := kind d; decSubjectKey := decSubjectKey d; revisionRef := revisionRef d;
     observedAt := observedAt d; reason := reason d; stageId := coalesce s VUndef; round := round d;
     deadline := deadline d; final := final d |}.
Definition with_round (r : nat) (d : EligibilityDecision) : EligibilityDecision :=
  {| kind := kind d; decSubjectKey := decSubjectKey d; revisionRef := revisionRef d;
     observedAt := observedAt d; reason := reason d; stageId := stageId d; round := Some r;
     deadline := deadline d; final := final d |}.
Definition with_final (d : EligibilityDecision) : EligibilityDecision :=
  {| kind := kind d; decSubjectKey := decSubjectKey d; revisionRef := revisionRef d;
     observedAt := observedAt d; reason := reason d; stageId := stageId d; round := round d;
     deadline := deadline d; final := Some true |}.

Section Eligible.
Context `{HostDate}.

(** ** Deadlines *)

(** [Date.parse(v ?? '')]. *)
Definition parse_instant (v : val) : option Z := date_parse (to_str (coalesce v (VStr ""))).

Definition deadlineFrom (anchorAt : val) (patienceMs : num) : result (option string) :=
  match parse_instant anchorAt with
  | None => Ok None
  | Some anchorMs => let* iso := date_to_iso (num_add (num_of_Z anchorMs) patienceMs) in Ok (Some iso)
  end.

Definition deadlineExpired (at_ : val) (dl : option string) : bool :=
  match dl with
  | None => false
  | Some text =>
      if String.eqb text "" then false
      else match parse_instant at_, date_parse text with
           | Some now, Some due => (due <=? now)%Z
           | _, _ => false
           end
  end.

(** ** Verdicts *)

Definition nul : string := String (ascii_of_N 0) "".
Definition pair_key (a b : val) : string := to_str a +:+ nul +:+ to_str b.

Definition latestVerdicts (rs : RevisionState) : list VerdictEntry :=
  map snd (fold_left (fun byRole v => map_set byRole (pair_key (vStageId v) (vRole v)) v) (verdicts rs) []).

Inductive VDisposition := vclean | vnonblocking | vblocking | vindeterminate.
Inductive Aggregate := anone | aclean | anonblocking | ablocking | aindeterminate.

Definition verdictDisposition (v : val) : VDisposition :=
  if is_str v "approved" then vclean
  else if is_str v "comment-only" then vnonblocking
  else if is_str v "request-changes" then vblocking
  else vindeterminate.

Fixpoint aggregate_loop (vs : list VerdictEntry) (sawIndeterminate sawNonBlocking : bool) : Aggregate :=
  match vs with
  | [] => if sawIndeterminate then aindeterminate else if sawNonBlocking then anonblocking else aclean
  | v :: vs' =>
      match verdictDisposition (verdictKind v) with
      | vblocking => ablocking
      | vindeterminate => aggregate_loop vs' true sawNonBlocking
      | vnonblocking => aggregate_loop vs' sawIndeterminate true
      | vclean => aggregate_loop vs' sawIndeterminate sawNonBlocking
      end
  end.

Definition aggregateDisposition (vs : list VerdictEntry) : Aggregate :=
  match vs with [] => anone | _ => aggregate_loop vs false false end.

Definition is_blocking (v : VerdictEntry) : bool :=
  match verdictDisposition (verdictKind v) with vblocking => true | _ => false end.

Definition activeStageId (vs : list VerdictEntry) : val :=
  match find_b is_blocking vs with
  | Some v => vStageId v
  | None => match vs with v :: _ => vStageId v | [] => VUndef end
  end.

(** ** Reading the state *)

Definition latestActiveOverride (st : LedgerState) : option Override := last (operatorOverrides st).
Definition override_is (o : option Override) (k : string) : bool :=
  match o with Some x => is_str (overrideKind x) k | None => false end.
Definition override_reason (o : option Override) (fallback : string) : val :=
  match o with Some x => coalesce (oReason x) (VStr fallback) | None => VStr fallback end.

Definition missingProducers (producers : list Producer) (ats : list Attestation) : list Producer :=
  let seen := map (fun a => pair_key (aPrincipal a) (aKind a)) ats in
  filter_b (fun p => negb (str_in (pair_key (VStr (principal p)) (producerKind p)) seen)) producers.

Definition anyStageExhausted (st : LedgerState) (sid : val) : bool :=
  (truthy sid && stageBudgetExhausted (ensureStage (stages st) (to_str sid)))
  || some_b (fun kv => stageBudgetExhausted (snd kv)) (stages st).

Definition dispatchedRoundsForRev (st : LedgerState) (rev : val) : nat :=
  count_b (fun d => strict_eq (dRevisionRef d) rev) (dispatched st).
Definition finalDispatchForRev (st : LedgerState) (rev : val) : option Dispatch :=
  find_b (fun d => strict_eq (dRevisionRef d) rev && dFinal d) (dispatched st).
Definition conclusionForDispatch (st : LedgerState) (rev rnd : val) : option Conclusion :=
  find_b (fun c => strict_eq (cnRevisionRef c) rev && strict_eq (cnRound c) rnd) (concluded st).

(** ** The decision *)

Record DecisionBase := { bSubject : val; bRev : val; bAt : val }.
Definition D (b : DecisionBase) (k : DecisionKind) (why : val) : EligibilityDecision :=
  makeEligibilityDecision k (bSubject b) (bRev b) (bAt b) why.

Definition gate (pol : EligibilityPolicy) (b : DecisionBase) (d : EligibilityDecision) : EligibilityDecision :=
  if autonomousExecutionDisabled pol && is_mutating (kind d)
  then D b escalate (VStr ("kill switch: " +:+ kind_name (kind d)
                           +:+ " intercepted (autonomous execution disabled)"))
  else d.

(** A bounded wait: the deadline expired escalates, else waits. *)
Definition patience (b : DecisionBase) (anchor : val) (ms : num) (expired waiting : string)
  : result EligibilityDecision :=
  let* dl := deadlineFrom anchor ms in
  Ok (if deadlineExpired (bAt b) dl
      then with_deadline dl (D b escalate (VStr expired))
      else with_deadline dl (D b wait (VStr waiting))).

(** Section 1: terminal short-circuits. *)
Definition terminalDecision (b : DecisionBase) (t : Terminal) : EligibilityDecision :=
  match t with
  | TFinalized rev _ _ =>
      makeEligibilityDecision finalize_now (bSubject b) (coalesce rev (bRev b)) (bAt b) (VStr "already finalized")
  | TClosed why _ => D b close (coalesce why (VStr "closed"))
  | TEscalated why _ => with_final (D b escalate (coalesce why (VStr "escalated")))
  | THalted why _ => with_final (D b halt (coalesce why (VStr "halted")))
  end.

(** Section 4: required checks present and settled. *)
Definition checksConclusive (rs : RevisionState) : option ChecksState :=
  match checks rs with
  | Some c => if requiredChecksPresent c && val_in (conclusion c) SETTLED_CONCLUSIONS then Some c else None
  | None => None
  end.
Definition checksWaitReason (rs : RevisionState) : string :=
  match checks rs with
  | None => "checks not yet settled at current revision"
  | Some c => if negb (requiredChecksPresent c) then "required checks not yet present at current revision"
              else "required checks still running at current revision"
  end.

(** Sections 8 and 9: the remediation path. *)
Definition remediationDecision (pol : EligibilityPolicy) (b : DecisionBase) (st : LedgerState)
    (rev : val) (c : ChecksState) (vs : list VerdictEntry) (disposition : Aggregate) (checksGreen : bool)
  : result EligibilityDecision :=
  let sid := activeStageId vs in
  let remediationReason :=
    match disposition with
    | aclean => if checksGreen then "non-blocking comments must be addressed before merge (strict_mode)"
                else "checks not green at current revision (" +:+ to_str (conclusion c) +:+ ")"
    | ablocking => "blocking review finding at current revision"
    | _ => "non-blocking comments must be addressed before merge (strict_mode)"
    end in
  let nextRound := S (dispatchedRoundsForRev st rev) in
  if negb (anyStageExhausted st sid) then
    Ok (gate pol b (with_stage sid (with_round nextRound (D b remediate (VStr remediationReason)))))
  else if negb (exhaustionAlwaysCloses pol) then
    Ok (with_stage sid (D b halt (VStr "remediation budget exhausted; exhaustion-always-closes disabled")))
  else
    match finalDispatchForRev st rev with
    | None =>
        Ok (gate pol b (with_final (with_stage sid (with_round nextRound
          (D b remediate (VStr "final coverage-gated remediation (budget exhausted; addresses all comments before merge)"))))))
    | Some fd =>
        match conclusionForDispatch st rev (dRound fd) with
        | None =>
            patience b (dAt fd) (checksPatienceMs pol)
              "final remediation did not conclude within patience" "final remediation in progress"
        | Some cn =>
            if is_str (outcome cn) "completed"
            then Ok (gate pol b (D b finalize_now
                   (VStr "exhaustion final remediation reached validated full coverage")))
            else Ok (with_stage sid (D b halt (VStr ("final remediation could not achieve full coverage (outcome: "
                   +:+ to_str (outcome cn) +:+ ")"))))
        end
    end.

Definition needsRemediation (pol : EligibilityPolicy) (disposition : Aggregate) (operatorApproved checksGreen : bool)
  : bool :=
  match disposition with
  | ablocking => true
  | anonblocking => (strictMode pol && negb operatorApproved) || negb checksGreen
  | _ => negb checksGreen
  end.

(** Sections 5 to 9, once the checks are conclusive. *)
Definition reviewedDecision (pol : EligibilityPolicy) (b : DecisionBase) (st : LedgerState)
    (override : option Override) (rev : val) (rs : RevisionState) (anchor : val) (c : ChecksState)
  : result EligibilityDecision :=
  let checksGreen := val_in (conclusion c) NON_BLOCKING_CONCLUSIONS in
  let vs := latestVerdicts rs in
  let disposition := aggregateDisposition vs in
  match disposition with
  | anone =>
      patience b anchor (verdictPatienceMs pol)
        "verdict patience expired at current revision" "no verdict at current revision"
  | aindeterminate =>
      patience b anchor (verdictPatienceMs pol)
        "verdict indeterminate past patience" "verdict indeterminate at current revision"
  | _ =>
      let missing := missingProducers (attestationProducers pol) (attestations rs) in
      if consumeAttestations pol && negb (Nat.eqb (length missing) 0) then
        patience b anchor (attestationPatienceMs pol) "attestation patience expired"
          ("awaiting attestations from: " +:+ join ", " (map principal missing))
      else if negb (needsRemediation pol disposition (override_is override "approve") checksGreen) then
        Ok (gate pol b (D b finalize_now (VStr "clean verdict, green checks at current revision")))
      else remediationDecision pol b st rev c vs disposition checksGreen
  end.

Definition eligible_with (pol : EligibilityPolicy) (st : LedgerState) (at_option : val)
  : result EligibilityDecision :=
  let at_ := coalesce at_option (coalesce (lastEventAt st) VNull) in
  let rev := coalesce (currentRevision st) VNull in
  let b := {| bSubject := coalesce (subjectKey st) VNull; bRev := coalesce rev (VStr ""); bAt := at_ |} in
  match terminal st with
  | Some t => Ok (terminalDecision b t)
  | None =>
      let override := latestActiveOverride st in
      if override_is override "close" then
        Ok (gate pol b (D b close (override_reason override "operator close")))
      else if override_is override "halt" then
        Ok (D b halt (override_reason override "operator halt"))
      else if negb (truthy rev) then Ok (D b wait (VStr "no revision advanced yet"))
      else
        let rs := ensureRevision (revisions st) (to_str rev) in
        let anchor := coalesce (revisionAdvancedAt rs) at_ in
        match checksConclusive rs with
        | None =>
            patience b anchor (checksPatienceMs pol) "checks patience expired" (checksWaitReason rs)
        | Some c => reviewedDecision pol b st override rev rs anchor c
        end
  end.

Definition eligible (st : LedgerState) (policy at_option : val) : result EligibilityDecision :=
  let* pol := normalizePolicy policy in eligible_with pol st at_option.

(** ** Facts: policies *)

Lemma positiveMs_pos v : is_finite (positiveMs v) && num_ltb (S754_zero false) (positiveMs v) = true.
Proof. unfold positiveMs. case_match eqn:E; [exact E | by vm_compute]. Qed.

Lemma normalizePolicy_inv policy pol :
  normalizePolicy policy = Ok pol ->
  (consumeAttestations pol = true -> attestationProducers pol <> [])
  /\ Forall (fun ms => is_finite ms = true /\ num_ltb (S754_zero false) ms = true)
       [checksPatienceMs pol; verdictPatienceMs pol; attestationPatienceMs pol].
Proof.
  unfold normalizePolicy. destruct (truthy policy && negb (is_object policy)); [done|].
  set (merged := spread _ _). clearbody merged.
  intros (ps & _ & Hk)%rbind_Ok. revert Hk.
  destruct (is_true (get merged "consumeAttestations") && Nat.eqb (length ps) 0) eqn:E; [done|].
  intros [= <-].
  cbn [consumeAttestations attestationProducers checksPatienceMs verdictPatienceMs attestationPatienceMs].
  split.
  - intros Hc Hps. by rewrite Hc, Hps in E.
  - do 3 (apply Forall_cons_2; [apply andb_true_iff, positiveMs_pos|]). constructor.
Qed.

(** Policy validation at load: an accepted policy consumes attestations
    only with a configured producer, and every patience is finite and positive
    whatever was configured. *)
Theorem policy_accepted_is_sound (policy : val) (pol : EligibilityPolicy) :
  normalizePolicy policy = Ok pol ->
  (consumeAttestations pol = true -> attestationProducers pol <> [])
  /\ Forall (fun ms => is_finite ms = true /\ num_ltb (S754_zero false) ms = true)
       [checksPatienceMs pol; verdictPatienceMs pol; attestationPatienceMs pol].
Proof. apply normalizePolicy_inv. Qed.

(** ** Facts: verdicts *)

Lemma latest_get vs k :
  map_get (fold_left (fun byRole v => map_set byRole (pair_key (vStageId v) (vRole v)) v) vs []) k
  = last (filter_b (fun v => String.eqb (pair_key (vStageId v) (vRole v)) k) vs).
Proof.
  induction vs as [|v vs IH] using rev_ind; [done|].
  rewrite fold_left_app, last_snoc_if. simpl.
  destruct (String.eqb_spec (pair_key (vStageId v) (vRole v)) k) as [->|Hne].
  - by rewrite map_get_set.
  - by rewrite map_get_set_ne.
Qed.

Lemma map_get_In_snd {A} (m : jsmap A) k v : map_get m k = Some v -> In v (map snd m).
Proof.
  induction m as [|[k' v'] m IH]; simpl; [done|]. case_match; [|auto]. intros [= ->]. by left.
Qed.

Lemma latestVerdicts_last rs k v :
  last (filter_b (fun v => String.eqb (pair_key (vStageId v) (vRole v)) k) (verdicts rs)) = Some v ->
  In v (latestVerdicts rs).
Proof. rewrite <- latest_get. apply map_get_In_snd. Qed.

Lemma latestVerdicts_In rs v : In v (latestVerdicts rs) -> In v (verdicts rs).
Proof.
  unfold latestVerdicts. intros ([k w] & <- & Hin)%in_map_iff. simpl. revert Hin.
  induction (verdicts rs) as [|x vs IH] using rev_ind; [done|].
  rewrite fold_left_app. simpl. intros [->|Hin]%map_set_In; apply in_or_app; [right; by left | auto].
Qed.

(** What the aggregate disposition says of the verdicts. *)
Lemma aggregate_loop_spec vs i n :
  match aggregate_loop vs i n with
  | aclean => i = false /\ n = false /\ forall v, In v vs -> verdictDisposition (verdictKind v) = vclean
  | anonblocking => i = false /\ forall v, In v vs ->
      verdictDisposition (verdictKind v) = vclean \/ verdictDisposition (verdictKind v) = vnonblocking
  | aindeterminate => forall v, In v vs -> verdictDisposition (verdictKind v) <> vblocking
  | ablocking => exists v, In v vs /\ verdictDisposition (verdictKind v) = vblocking
  | anone => False
  end.
Proof.
  revert i n. induction vs as [|v vs IH]; intros i n; simpl.
  - destruct i, n; simpl; naive_solver.
  - destruct (verdictDisposition (verdictKind v)) eqn:Ev.
    + specialize (IH i n). destruct (aggregate_loop vs i n); try done.
      * destruct IH as (-> & -> & H'). split; [done|]. split; [done|]. intros w [<-|Hw]; auto.
      * destruct IH as (-> & H'). split; [done|]. intros w [<-|Hw]; auto.
      * destruct IH as (w & Hw & Ew). eauto.
      * intros w [<-|Hw]; [congruence | auto].
    + specialize (IH i true). destruct (aggregate_loop vs i true); try done.
      * destruct IH as (_ & [=] & _).
      * destruct IH as (-> & H'). split; [done|]. intros w [<-|Hw]; auto.
      * destruct IH as (w & Hw & Ew). eauto.
      * intros w [<-|Hw]; [congruence | auto].
    + exists v. auto.
    + specialize (IH true n). destruct (aggregate_loop vs true n); try done.
      * destruct IH as ([=] & _).
      * destruct IH as ([=] & _).
      * destruct IH as (w & Hw & Ew). eauto.
      * intros w [<-|Hw]; [congruence | auto].
Qed.

Lemma aggregate_none vs : aggregateDisposition vs = anone <-> vs = [].
Proof.
  unfold aggregateDisposition. destruct vs as [|v vs]; [done|]. split; [|done].
  intros E. pose proof (aggregate_loop_spec (v :: vs) false false) as H'. by rewrite E in H'.
Qed.

(** ** Facts: the sections *)

Lemma gate_kind pol b d :
  kind (gate pol b d) = if autonomousExecutionDisabled pol && is_mutating (kind d) then escalate else kind d.
Proof. unfold gate. by case_match. Qed.

Lemma patience_kind b anchor ms x w d :
  patience b anchor ms x w = Ok d -> kind d = escalate \/ kind d = wait.
Proof. unfold patience. intros (dl & _ & [= <-])%rbind_Ok. case_match; auto. Qed.

Lemma patience_not_mutating b anchor ms x w d :
  patience b anchor ms x w = Ok d -> is_mutating (kind d) = false.
Proof. by intros [-> | ->]%patience_kind. Qed.

Lemma gate_disabled pol b d :
  autonomousExecutionDisabled pol = true -> is_mutating (kind (gate pol b d)) = false.
Proof. intros E. rewrite gate_kind, E. simpl. by destruct (is_mutating (kind d)) eqn:?. Qed.

(** The kinds the remediation path can return, and why. *)
Lemma remediation_cases pol b st rev c vs disp green d :
  remediationDecision pol b st rev c vs disp green = Ok d ->
  match kind d with
  | finalize_now =>
      autonomousExecutionDisabled pol = false
      /\ anyStageExhausted st (activeStageId vs) = true /\ exhaustionAlwaysCloses pol = true
      /\ exists fd cn, finalDispatchForRev st rev = Some fd
         /\ conclusionForDispatch st rev (dRound fd) = Some cn /\ outcome cn = VStr "completed"
  | remediate =>
      autonomousExecutionDisabled pol = false
      /\ round d = Some (S (dispatchedRoundsForRev st rev))
      /\ final d = (if anyStageExhausted st (activeStageId vs) then Some true else None)
  | close => False
  | halt => anyStageExhausted st (activeStageId vs) = true
  | _ => True
  end.
Proof.
  unfold remediationDecision. destruct (anyStageExhausted st (activeStageId vs)); simpl.
  - destruct (exhaustionAlwaysCloses pol); simpl; [|by intros [= <-]].
    destruct (finalDispatchForRev st rev) as [fd|].
    + destruct (conclusionForDispatch st rev (dRound fd)) as [cn|] eqn:Ec.
      * destruct (is_str (outcome cn) "completed") eqn:Eo; intros [= <-]; [|done].
        rewrite gate_kind. simpl. destruct (autonomousExecutionDisabled pol); simpl; [done|].
        apply is_str_eq in Eo. eauto 10.
      * by intros [-> | ->]%patience_kind.
    + intros [= <-]. unfold gate. simpl. by destruct (autonomousExecutionDisabled pol).
  - intros [= <-]. unfold gate. simpl. by destruct (autonomousExecutionDisabled pol).
Qed.

(** ** What a finalize decision rests on *)

(** The two grounds on which the checks and verdicts of a revision finalize. *)
Definition clean_ground (pol : EligibilityPolicy) (st : LedgerState) (rs : RevisionState) (c : ChecksState) : Prop :=
  val_in (conclusion c) NON_BLOCKING_CONCLUSIONS = true
  /\ forall v, In v (latestVerdicts rs) ->
       verdictDisposition (verdictKind v) = vclean
       \/ (verdictDisposition (verdictKind v) = vnonblocking
           /\ (strictMode pol = false \/ override_is (latestActiveOverride st) "approve" = true)).

Definition exhaustion_ground (st : LedgerState) (rev : val) (rs : RevisionState) : Prop :=
  anyStageExhausted st (activeStageId (latestVerdicts rs)) = true
  /\ exists fd cn, finalDispatchForRev st rev = Some fd
       /\ conclusionForDispatch st rev (dRound fd) = Some cn /\ outcome cn = VStr "completed".

Definition finalize_ground (pol : EligibilityPolicy) (st : LedgerState) : Prop :=
  let rev := currentRevision st in
  let rs := ensureRevision (revisions st) (to_str rev) in
  autonomousExecutionDisabled pol = false
  /\ truthy rev = true
  /\ (consumeAttestations pol = true -> missingProducers (attestationProducers pol) (attestations rs) = [])
  /\ latestVerdicts rs <> []
  /\ exists c, checksConclusive rs = Some c
       /\ (clean_ground pol st rs c \/ exhaustion_ground st rev rs).

Lemma needsRemediation_false pol vs op green :
  aggregateDisposition vs <> anone -> aggregateDisposition vs <> aindeterminate ->
  needsRemediation pol (aggregateDisposition vs) op green = false ->
  green = true /\ forall v, In v vs ->
    verdictDisposition (verdictKind v) = vclean
    \/ (verdictDisposition (verdictKind v) = vnonblocking /\ (strictMode pol = false \/ op = true)).
Proof.
  unfold aggregateDisposition. destruct vs as [|v0 vs]; [done|]. intros _.
  pose proof (aggregate_loop_spec (v0 :: vs) false false) as Hs.
  destruct (aggregate_loop (v0 :: vs) false false); try done; intros _; simpl needsRemediation; intros Hn.
  - destruct Hs as (_ & _ & Hs). apply negb_false_iff in Hn. auto.
  - destruct Hs as (_ & Hs). apply orb_false_iff in Hn as [Hn Hg]. apply negb_false_iff in Hg.
    split; [done|]. intros v Hv. destruct (Hs v Hv) as [?|?]; [by left|]. right. split; [done|].
    destruct (strictMode pol); [right | by left]. by destruct op.
Qed.

Lemma reviewed_cases pol b st ov rev rs anchor c d :
  reviewedDecision pol b st ov rev rs anchor c = Ok d ->
  is_mutating (kind d) = true ->
  (consumeAttestations pol = true -> missingProducers (attestationProducers pol) (attestations rs) = [])
  /\ latestVerdicts rs <> []
  /\ autonomousExecutionDisabled pol = false
  /\ ((kind d = finalize_now
       /\ val_in (conclusion c) NON_BLOCKING_CONCLUSIONS = true
       /\ forall v, In v (latestVerdicts rs) ->
            verdictDisposition (verdictKind v) = vclean
            \/ (verdictDisposition (verdictKind v) = vnonblocking
                /\ (strictMode pol = false \/ override_is ov "approve" = true)))
      \/ exists disp green, remediationDecision pol b st rev c (latestVerdicts rs) disp green = Ok d).
Proof.
  unfold reviewedDecision. intros Hd Hm.
  destruct (aggregateDisposition (latestVerdicts rs)) eqn:Ea;
    try (apply patience_not_mutating in Hd; congruence).
  all: assert (Hne : latestVerdicts rs <> []) by (intros E; apply aggregate_none in E; congruence).
  all: destruct (consumeAttestations pol && _) eqn:Ec in Hd;
    [apply patience_not_mutating in Hd; congruence|].
  all: assert (Hmiss : consumeAttestations pol = true ->
      missingProducers (attestationProducers pol) (attestations rs) = [])
    by (intros E; rewrite E in Ec; by destruct (missingProducers _ _)).
  all: split; [exact Hmiss|]; split; [exact Hne|].
  all: rewrite <- Ea in Hd; destruct (needsRemediation _ _ _ _) eqn:En in Hd; simpl in Hd.
  2,4,6: injection Hd as <-; rewrite gate_kind in *; simpl in *;
    destruct (autonomousExecutionDisabled pol); [done|]; split; [done|]; left; split; [done|];
    apply needsRemediation_false in En; [exact En | congruence..].
  all: pose proof (remediation_cases _ _ _ _ _ _ _ _ _ Hd) as Hr.
  all: split; [destruct (kind d); simpl in Hm; try done; tauto|]; right; eauto.
Qed.

Lemma eligible_mutating pol st at_ d :
  eligible_with pol st at_ = Ok d -> terminal st = None -> is_mutating (kind d) = true ->
  autonomousExecutionDisabled pol = false
  /\ ((kind d = close /\ override_is (latestActiveOverride st) "close" = true)
      \/ (override_is (latestActiveOverride st) "close" = false
          /\ override_is (latestActiveOverride st) "halt" = false
          /\ truthy (currentRevision st) = true /\ exists b c anchor,
            let rs := ensureRevision (revisions st) (to_str (currentRevision st)) in
            bRev b = currentRevision st /\ checksConclusive rs = Some c /\
            reviewedDecision pol b st (latestActiveOverride st) (currentRevision st) rs anchor c = Ok d)).
Proof.
  unfold eligible_with. intros Hd Ht0 Hm. rewrite Ht0 in Hd.
  destruct (override_is (latestActiveOverride st) "close").
  { injection Hd as <-. rewrite gate_kind in *. simpl in *.
    destruct (autonomousExecutionDisabled pol); [done | auto]. }
  destruct (override_is (latestActiveOverride st) "halt"); [by injection Hd as <-|].
  assert (Hc : truthy (coalesce (currentRevision st) VNull) = truthy (currentRevision st)
    /\ (truthy (currentRevision st) = true -> coalesce (currentRevision st) VNull = currentRevision st
        /\ coalesce (currentRevision st) (VStr "") = currentRevision st))
    by (by destruct (currentRevision st)).
  destruct Hc as [Ht Hc]. rewrite Ht in Hd. destruct (truthy (currentRevision st)) eqn:Et; [|by injection Hd as <-].
  destruct (Hc eq_refl) as [Hc1 Hc2]. rewrite Hc1 in Hd. simpl in Hd.
  destruct (checksConclusive _) as [c|] eqn:Ec; [|apply patience_not_mutating in Hd; congruence].
  split; [eapply reviewed_cases; eassumption|]. right. split; [done|]. split; [done|]. split; [done|].
  do 3 eexists. cbv zeta. split; [|split; [done | exact Hd]]. exact Hc2.
Qed.

Lemma remediation_finalize_ground pol b st rev c rs disp green d :
  remediationDecision pol b st rev c (latestVerdicts rs) disp green = Ok d -> kind d = finalize_now ->
  exhaustion_ground st rev rs.
Proof.
  intros Hd Hk. pose proof (remediation_cases _ _ _ _ _ _ _ _ _ Hd) as Hr. rewrite Hk in Hr.
  destruct Hr as (_ & Hx & _ & Hr). split; done.
Qed.

Lemma eligible_finalize_ground pol st at_ d :
  eligible_with pol st at_ = Ok d -> terminal st = None -> kind d = finalize_now ->
  finalize_ground pol st.
Proof.
  intros Hd Ht Hk. pose proof (eligible_mutating _ _ _ _ Hd Ht) as Hm. rewrite Hk in Hm.
  destruct (Hm eq_refl) as (Hkill & [[[=] _]|(_ & _ & Hrev & b & c & anchor & _ & Hc & Hr)]).
  pose proof (reviewed_cases _ _ _ _ _ _ _ _ _ Hr) as Hcases. rewrite Hk in Hcases.
  destruct (Hcases eq_refl) as (Hmiss & Hne & _ & Hg).
  split; [done|]. split; [done|]. split; [done|]. split; [done|]. exists c. split; [done|].
  destruct Hg as [(_ & Hg1 & Hg2)|(disp & green & Hr2)]; [left; split; done | right].
  by eapply remediation_finalize_ground.
Qed.

(** ** Bounded waits *)

Lemma fixed_nonempty n z rest : rest <> "" -> fixed n z rest <> "".
Proof. revert z rest. induction n as [|n IH]; intros z rest H'; simpl; [done|]. by apply IH. Qed.

Lemma to_iso_nonempty t : to_iso t <> "".
Proof.
  unfold to_iso. destruct (civil_from_days _) as [[y m] d]. unfold print_year.
  do 2 (case_match; [first [by apply fixed_nonempty | done]|]). done.
Qed.

Lemma deadlineFrom_parse anchor ms dl :
  deadlineFrom anchor ms = Ok (Some dl) -> dl <> "" /\ exists due, date_parse dl = Some due.
Proof.
  unfold deadlineFrom. destruct (parse_instant anchor); [|done].
  intros (iso & Ei & [= <-])%rbind_Ok. unfold date_to_iso in Ei.
  destruct (time_clip _) as [t|] eqn:Et; [|done]. injection Ei as <-. split; [apply to_iso_nonempty|].
  exists t. apply date_parse_to_iso. unfold time_clip in Et. destruct (num_trunc _) as [t'|]; [|done].
  destruct (Z.leb_spec (Z.abs t') max_time); [|done]. congruence.
Qed.

(** From a wait that carries a deadline, every evaluation at or after it escalates. *)
Definition escalates_after (dl : string) (decide_at : DecisionBase -> result EligibilityDecision) : Prop :=
  exists due, date_parse dl = Some due /\
    forall b now, parse_instant (bAt b) = Some now -> (due <= now)%Z ->
      exists d, decide_at b = Ok d /\ kind d = escalate /\ deadline d = Some dl.

Lemma patience_later b anchor ms x w d dl :
  patience b anchor ms x w = Ok d -> kind d = wait -> deadline d = Some dl ->
  escalates_after dl (fun b' => patience b' anchor ms x w).
Proof.
  unfold patience. intros (o & Eo & Hd)%rbind_Ok Hk Hdl.
  destruct (deadlineExpired (bAt b) o); injection Hd as <-; [done|]. simpl in Hdl. subst o.
  destruct (deadlineFrom_parse _ _ _ Eo) as [Hne (due & Hdue)]. exists due. split; [done|].
  intros b' now Hnow Hle. rewrite Eo. simpl. rewrite Hnow, Hdue.
  apply String.eqb_neq in Hne as ->. apply Z.leb_le in Hle as ->. eauto.
Qed.

Lemma gate_wait pol b d dl : kind (gate pol b d) = wait -> is_mutating (kind d) = true -> deadline d = dl -> False.
Proof. rewrite gate_kind. intros Hk Hm _. rewrite Hm in Hk. destruct (kind d), (autonomousExecutionDisabled pol); done. Qed.

Lemma remediation_later pol b st rev c vs disp green d dl :
  remediationDecision pol b st rev c vs disp green = Ok d -> kind d = wait -> deadline d = Some dl ->
  escalates_after dl (fun b' => remediationDecision pol b' st rev c vs disp green).
Proof.
  unfold remediationDecision. cbv zeta. intros Hd Hk Hdl.
  destruct (negb (anyStageExhausted _ _)); [injection Hd as <-; by eapply gate_wait in Hk|].
  destruct (negb (exhaustionAlwaysCloses pol)); [by injection Hd as <-|].
  destruct (finalDispatchForRev st rev) as [fd|]; [|injection Hd as <-; by eapply gate_wait in Hk].
  destruct (conclusionForDispatch st rev (dRound fd)) as [cn|]; [|by eapply patience_later].
  destruct (is_str (outcome cn) "completed"); [injection Hd as <-; by eapply gate_wait in Hk | by injection Hd as <-].
Qed.

Lemma reviewed_later pol b st ov rev rs anchor c d dl :
  reviewedDecision pol b st ov rev rs anchor c = Ok d -> kind d = wait -> deadline d = Some dl ->
  escalates_after dl (fun b' => reviewedDecision pol b' st ov rev rs anchor c).
Proof.
  unfold reviewedDecision. cbv zeta. intros Hd Hk Hdl.
  destruct (aggregateDisposition (latestVerdicts rs)); try by eapply patience_later.
  all: destruct (consumeAttestations pol && _); [by eapply patience_later|].
  all: destruct (negb (needsRemediation _ _ _ _)); [injection Hd as <-; by eapply gate_wait in Hk|].
  all: by eapply remediation_later.
Qed.

Lemma eligible_later pol st at1 d1 dl :
  is_nullish (revisionAdvancedAt (ensureRevision (revisions st) (to_str (currentRevision st)))) = false ->
  eligible_with pol st at1 = Ok d1 -> kind d1 = wait -> deadline d1 = Some dl ->
  exists due, date_parse dl = Some due /\ forall at2 now,
    is_nullish at2 = false -> parse_instant at2 = Some now -> (due <= now)%Z ->
    exists d2, eligible_with pol st at2 = Ok d2 /\ kind d2 = escalate /\ deadline d2 = Some dl.
Proof.
  intros Hanchor. unfold eligible_with. cbv zeta. intros Hd Hk Hdl.
  destruct (terminal st) as [[]|]; [by injection Hd as <-..|].
  destruct (override_is _ "close"); [injection Hd as <-; by eapply gate_wait in Hk|].
  destruct (override_is _ "halt"); [by injection Hd as <-|].
  destruct (truthy (coalesce (currentRevision st) VNull)) eqn:Et; simpl in Hd; [|by injection Hd as <-].
  assert (Hr : coalesce (currentRevision st) VNull = currentRevision st)
    by (destruct (currentRevision st); done).
  rewrite Hr in *. set (rs := ensureRevision _ _) in *. simpl.
  rewrite (coalesce_some (revisionAdvancedAt rs)) in Hd by done.
  assert (G : escalates_after dl (fun b =>
    match checksConclusive rs with
    | Some c => reviewedDecision pol b st (latestActiveOverride st) (currentRevision st) rs (revisionAdvancedAt rs) c
    | None => patience b (revisionAdvancedAt rs) (checksPatienceMs pol) "checks patience expired" (checksWaitReason rs)
    end)).
  { destruct (checksConclusive rs); [by eapply reviewed_later | by eapply patience_later]. }
  destruct G as (due & Hdue & G). exists due. split; [done|]. intros at2 now Hn Hp Hle.
  rewrite (coalesce_some (revisionAdvancedAt rs)) by done.
  apply (G _ now); [|done]. simpl. by rewrite coalesce_some.
Qed.

(** ** The properties of the decision over the ledger *)

Lemma eligible_inv st policy at_ d :
  eligible st policy at_ = Ok d ->
  exists pol, normalizePolicy policy = Ok pol /\ eligible_with pol st at_ = Ok d.
Proof. unfold eligible. by intros (pol & Ep & Hd)%rbind_Ok; eauto. Qed.

(** The verdict event in force for a (stage, role) pair at a revision: the last one. *)
Definition verdict_in_force (es : list obj) (rk : string) (e : obj) : Prop :=
  exists k, last (filter_b (fun x => at_rev "verdict_recorded" rk x
                     && String.eqb (pair_key (get x "stageId") (get x "role")) k) es) = Some e.

Lemma verdict_in_force_latest es rk e :
  verdict_in_force es rk e -> In (verdict_of e) (latestVerdicts (ensureRevision (revisions (fold es)) rk)).
Proof.
  intros (k & Hk). apply (latestVerdicts_last _ k).
  destruct (fold_revision es rk) as (-> & _ & _).
  rewrite filter_b_map, last_map, filter_b_filter. simpl. by rewrite Hk.
Qed.

(** The operator override in force: the last one recorded. *)
Definition last_override (es : list obj) (k : string) : Prop :=
  exists e, last (filter_b (event_is "operator_override") es) = Some e /\ get e "overrideKind" = VStr k.

Lemma latestActiveOverride_event es k :
  override_is (latestActiveOverride (fold es)) k = true -> last_override es k.
Proof.
  unfold latestActiveOverride. destruct (fold_lists es) as (_ & _ & -> & _). rewrite last_map.
  destruct (last (filter_b (event_is "operator_override") es)) as [e|] eqn:E; simpl; [|done].
  intros Hk%is_str_eq. by exists e.
Qed.

Lemma anyStageExhausted_event es sid :
  anyStageExhausted (fold es) sid = true -> exists e, In e es /\ event_is "budget_exhausted" e = true.
Proof.
  unfold anyStageExhausted. intros [Hx|Hx]%orb_true_iff.
  - apply andb_true_iff in Hx as [_ Hx]. revert Hx. unfold ensureStage.
    destruct (map_get (stages (fold es)) (to_str sid)) as [s|] eqn:E; [|done]. intros Hx.
    eapply (stages_exhausted_event es (to_str sid) s); [|done]. revert E. clear.
    induction (stages (fold es)) as [|[a b] m IHm]; simpl; [done|].
    destruct (String.eqb_spec (to_str sid) a) as [->|]; [intros [= ->]; by left | auto].
  - unfold some_b in Hx. apply existsb_exists in Hx as ([k s] & Hin & Hx).
    by eapply stages_exhausted_event.
Qed.

(** A dispatch event that asked for the final remediation of a revision, and a
    conclusion event reporting its full coverage. *)
Definition final_remediation_completed (es : list obj) (rev : val) : Prop :=
  exists dp cn,
    In dp es /\ event_is "remediation_dispatched" dp = true
    /\ strict_eq (get dp "revisionRef") rev = true /\ get dp "final" = VBool true
    /\ In cn es /\ event_is "remediation_concluded" cn = true
    /\ strict_eq (get cn "revisionRef") rev = true
    /\ strict_eq (get cn "round") (get dp "round") = true /\ get cn "outcome" = VStr "completed".

Lemma exhaustion_ground_events es rev rs :
  exhaustion_ground (fold es) rev rs ->
  (exists e, In e es /\ event_is "budget_exhausted" e = true) /\ final_remediation_completed es rev.
Proof.
  intros [Hx (fd & cn & Hfd & Hcn & Ho)]. split; [by eapply anyStageExhausted_event|].
  unfold finalDispatchForRev in Hfd. unfold conclusionForDispatch in Hcn.
  destruct (fold_lists es) as (Ed & Ec & _ & _). rewrite Ed in Hfd. rewrite Ec in Hcn.
  apply find_b_In in Hfd as [Hfd Pfd], Hcn as [Hcn Pcn].
  apply in_map_iff in Hfd as (dp & <- & [Hdp Tdp]%List.filter_In).
  apply in_map_iff in Hcn as (c & <- & [Hc Tc]%List.filter_In).
  apply andb_true_iff in Pfd as [P1 P2], Pcn as [P3 P4]. simpl in *. apply is_true_eq in P2.
  exists dp, c. done.
Qed.

(** C2. Every merge decision is backed by the ledger. A finalize decision on a
    subject with no terminal mark is made only with the kill switch off, on the
    last advanced revision, whose last settlement has the required checks
    present and settled, which has a recorded verdict, and either (a) the checks
    are green and every verdict in force at that revision is clean, or a comment
    allowed by a relaxed policy or an approving override; or (b) the budget is
    exhausted and a final remediation of that very revision completed. *)
Theorem finalize_backed_by_ledger (es : list obj) (policy at_ : val) (d : EligibilityDecision) :
  eligible (fold es) policy at_ = Ok d -> kind d = finalize_now -> terminal (fold es) = None ->
  exists pol adv chk,
    normalizePolicy policy = Ok pol /\ autonomousExecutionDisabled pol = false
    /\ last (filter_b (event_is "revision_advanced") es) = Some adv
    /\ last (filter_b (at_rev "checks_settled" (rev_key adv)) es) = Some chk
    /\ get chk "requiredChecksPresent" = VBool true
    /\ val_in (get chk "conclusion") SETTLED_CONCLUSIONS = true
    /\ (exists v, In v es /\ at_rev "verdict_recorded" (rev_key adv) v = true)
    /\ ((val_in (get chk "conclusion") NON_BLOCKING_CONCLUSIONS = true
         /\ forall e, verdict_in_force es (rev_key adv) e ->
              get e "verdictKind" = VStr "approved"
              \/ (get e "verdictKind" = VStr "comment-only"
                  /\ (strictMode pol = false \/ last_override es "approve")))
        \/ ((exists e, In e es /\ event_is "budget_exhausted" e = true)
            /\ final_remediation_completed es (get adv "revisionRef"))).
Proof.
  intros (pol & Ep & Hd)%eligible_inv Hk Ht.
  destruct (eligible_finalize_ground _ _ _ _ Hd Ht Hk) as (Hkill & Hrev & _ & Hne & c & Hc & Hg).
  rewrite fold_currentRevision in *.
  destruct (last (filter_b (event_is "revision_advanced") es)) as [adv|] eqn:Eadv; [|done]. simpl in *.
  fold (rev_key adv) in *. set (rs := ensureRevision (revisions (fold es)) (rev_key adv)) in *.
  destruct (fold_revision es (rev_key adv)) as (Hv & Hcs & _). fold rs in Hv, Hcs.
  unfold checksConclusive in Hc. rewrite Hcs in Hc.
  destruct (last (filter_b (at_rev "checks_settled" (rev_key adv)) es)) as [chk|] eqn:Echk; [|done].
  simpl in Hc. destruct (is_true (get chk "requiredChecksPresent") && _) eqn:Eset; [|done].
  injection Hc as <-. apply andb_true_iff in Eset as [Hpres Hset]. apply is_true_eq in Hpres.
  exists pol, adv, chk. do 6 (split; [done|]). split.
  - destruct (latestVerdicts rs) as [|v vs] eqn:Elv; [done|].
    assert (Hin : In v (verdicts rs)) by (apply latestVerdicts_In; rewrite Elv; by left).
    rewrite Hv in Hin. apply in_map_iff in Hin as (e & _ & He). exists e. by apply List.filter_In in He.
  - destruct Hg as [[Hgreen Hall]|Hx]; [left | right; by eapply exhaustion_ground_events].
    split; [done|]. intros e He%verdict_in_force_latest. destruct (Hall _ He) as [Hcl|[Hnb Hs]].
    + left. unfold verdictDisposition in Hcl. simpl in Hcl. apply is_str_eq.
      destruct (is_str (get e "verdictKind") "approved"); [done|]. by repeat case_match.
    + right. split.
      * unfold verdictDisposition in Hnb. simpl in Hnb. apply is_str_eq.
        destruct (is_str (get e "verdictKind") "approved"); [done|].
        destruct (is_str (get e "verdictKind") "comment-only"); [done|]. by case_match.
      * destruct Hs as [?|Ho]; [by left | right; by apply latestActiveOverride_event].
Qed.

(** The kill switch: with autonomous execution disabled, no ledger without
    a terminal mark yields a merge, a remediation or a close. *)
Theorem kill_switch_blocks_mutation (st : LedgerState) (policy at_ : val) (d : EligibilityDecision) :
  eligible st policy at_ = Ok d -> terminal st = None ->
  (exists pol, normalizePolicy policy = Ok pol /\ autonomousExecutionDisabled pol = true) ->
  is_mutating (kind d) = false.
Proof.
  intros (pol & Ep & Hd)%eligible_inv Ht (pol' & Ep' & Hoff). assert (pol' = pol) as -> by congruence.
  destruct (is_mutating (kind d)) eqn:E; [|done].
  destruct (eligible_mutating _ _ _ _ Hd Ht E) as [? _]. congruence.
Qed.

(** Autonomous folding never rejects: a close decision means that the
    ledger holds a close event, or that the last operator override asks for it. *)
Theorem close_only_by_operator (es : list obj) (policy at_ : val) (d : EligibilityDecision) :
  eligible (fold es) policy at_ = Ok d -> kind d = close ->
  (exists e, In e es /\ event_is "closed" e = true) \/ last_override es "close".
Proof.
  intros (pol & _ & Hd)%eligible_inv Hk. destruct (terminal (fold es)) as [t|] eqn:Et.
  - left. unfold eligible_with in Hd. rewrite Et in Hd. injection Hd as <-.
    destruct t; simpl in Hk; try done. by eapply terminal_closed_event.
  - right. pose proof (eligible_mutating _ _ _ _ Hd Et) as Hm. rewrite Hk in Hm.
    destruct (Hm eq_refl) as (_ & [[_ Ho]|(_ & _ & _ & b & c & anchor & _ & _ & Hr)]);
      [by apply latestActiveOverride_event|].
    pose proof (reviewed_cases _ _ _ _ _ _ _ _ _ Hr) as Hc. rewrite Hk in Hc.
    destruct (Hc eq_refl) as (_ & _ & _ & [([=] & _)|(disp & green & Hr2)]).
    pose proof (remediation_cases _ _ _ _ _ _ _ _ _ Hr2) as Hr3. by rewrite Hk in Hr3.
Qed.

(** C37. No wait is unbounded: on a ledger of valid events, a wait that carries a
    deadline turns into an escalation with the same deadline at every evaluation
    time at or after it, and the deadline is a readable date. *)
Theorem wait_is_bounded (es : list obj) (policy at1 : val) (d1 : EligibilityDecision) (dl : string) :
  Forall (fun e : obj => isFinalizationEvent (VObj e) = true) es ->
  eligible (fold es) policy at1 = Ok d1 -> kind d1 = wait -> deadline d1 = Some dl ->
  exists due, date_parse dl = Some due /\ forall at2 now,
    is_nullish at2 = false -> parse_instant at2 = Some now -> (due <= now)%Z ->
    exists d2, eligible (fold es) policy at2 = Ok d2 /\ kind d2 = escalate /\ deadline d2 = Some dl.
Proof.
  intros Hval (pol & Ep & Hd)%eligible_inv Hk Hdl. unfold eligible. rewrite Ep. simpl.
  destruct (truthy (currentRevision (fold es))) eqn:Et.
  - eapply eligible_later; [|exact Hd | exact Hk | exact Hdl].
    pose proof (current_revision_anchored es Hval Et) as Ha. by destruct (revisionAdvancedAt _).
  - exfalso. unfold eligible_with in Hd. destruct (terminal (fold es)) as [[]|]; [by injection Hd as <-..|].
    cbv zeta in Hd. destruct (override_is _ "close"); [injection Hd as <-; by eapply gate_wait in Hk|].
    destruct (override_is _ "halt"); [by injection Hd as <-|].
    assert (Hn : truthy (coalesce (currentRevision (fold es)) VNull) = false)
      by (by destruct (currentRevision (fold es))).
    rewrite Hn in Hd. simpl in Hd. by injection Hd as <-.
Qed.

(** Evidence of other revisions is never read: the decision depends on the
    revision table only through the entry of the current revision. *)
Theorem eligible_reads_current_revision_only (st : LedgerState) (m : jsmap RevisionState) (policy at_ : val) :
  map_get m (to_str (currentRevision st)) = map_get (revisions st) (to_str (currentRevision st)) ->
  eligible (set_revisions st (currentRevision st) m) policy at_ = eligible st policy at_.
Proof.
  intros Hm. unfold eligible. destruct (normalizePolicy policy) as [pol|]; [|done]. simpl.
  unfold eligible_with. simpl. destruct (terminal st) as [t|]; [done|].
  unfold latestActiveOverride at 1 2 3 4 5 6. simpl.
  destruct (truthy (coalesce (currentRevision st) VNull)) eqn:Et; [|done].
  assert (Hr : coalesce (currentRevision st) VNull = currentRevision st)
    by (destruct (currentRevision st); done).
  rewrite Hr. unfold ensureRevision. rewrite Hm. done.
Qed.

(** A head move invalidates every earlier observation: right after an
    advance to a revision with no settled checks in the ledger, a live subject
    without a directing override only waits or escalates. *)
Theorem head_move_needs_fresh_evidence (es : list obj) (adv : obj) (policy at_ : val) (d : EligibilityDecision) :
  event_is "revision_advanced" adv = true ->
  filter_b (at_rev "checks_settled" (rev_key adv)) es = [] ->
  terminal (fold es) = None -> ~ last_override es "close" -> ~ last_override es "halt" ->
  eligible (fold (es ++ [adv])) policy at_ = Ok d ->
  kind d = wait \/ kind d = escalate.
Proof.
  intros Hadv Hfresh Ht Hnc Hnh (pol & _ & Hd)%eligible_inv.
  assert (Hty : forall t, String.eqb "revision_advanced" t = false -> event_is t adv = false)
    by (intros t; by apply event_is_other).
  assert (Ht' : terminal (fold (es ++ [adv])) = None).
  { rewrite fold_snoc, apply_terminal. unfold step_terminal. by rewrite !Hty by done. }
  assert (Hov : forall k, override_is (latestActiveOverride (fold (es ++ [adv]))) k = true -> last_override es k).
  { intros k Hk. apply latestActiveOverride_event. rewrite <- Hk. unfold latestActiveOverride.
    rewrite fold_snoc. destruct (apply_lists (fold es) adv) as (_ & _ & -> & _).
    by rewrite (Hty "operator_override"), app_nil_r by done. }
  unfold eligible_with in Hd. rewrite Ht' in Hd. cbv zeta in Hd.
  destruct (override_is _ "close") eqn:E1 in Hd; [by apply Hov in E1|].
  destruct (override_is _ "halt") eqn:E2 in Hd; [by apply Hov in E2|].
  assert (Hcur : currentRevision (fold (es ++ [adv])) = get adv "revisionRef")
    by (by rewrite fold_currentRevision, last_snoc_if, Hadv).
  rewrite Hcur in Hd. destruct (truthy (coalesce (get adv "revisionRef") VNull)) eqn:Et;
    [|injection Hd as <-; by left].
  assert (Hr : coalesce (get adv "revisionRef") VNull = get adv "revisionRef")
    by (destruct (get adv "revisionRef"); done).
  rewrite Hr in Hd. fold (rev_key adv) in Hd. unfold checksConclusive in Hd.
  destruct (fold_revision (es ++ [adv]) (rev_key adv)) as (_ & Hc & _). rewrite Hc in Hd.
  rewrite last_snoc_if, Hfresh in Hd. unfold at_rev in Hd.
  rewrite (Hty "checks_settled") in Hd by done. simpl in Hd.
  apply patience_kind in Hd. tauto.
Qed.

(** Remediation rounds: a remediate decision asks for the round after those
    already dispatched at the current revision, and it is the final round
    exactly when a stage budget is exhausted. *)
Theorem remediate_round_and_final (st : LedgerState) (policy at_ : val) (d : EligibilityDecision) :
  eligible st policy at_ = Ok d -> kind d = remediate ->
  round d = Some (S (count_b (fun x => strict_eq (dRevisionRef x) (currentRevision st)) (dispatched st)))
  /\ (final d = Some true <->
      anyStageExhausted st (activeStageId (latestVerdicts
        (ensureRevision (revisions st) (to_str (currentRevision st))))) = true).
Proof.
  intros (pol & _ & Hd)%eligible_inv Hk.
  assert (Ht : terminal st = None).
  { destruct (terminal st) as [t|] eqn:Et; [|done]. unfold eligible_with in Hd. rewrite Et in Hd.
    injection Hd as <-. by destruct t. }
  pose proof (eligible_mutating _ _ _ _ Hd Ht) as Hm. rewrite Hk in Hm.
  destruct (Hm eq_refl) as (_ & [[[=] _]|(_ & _ & _ & b & c & anchor & _ & _ & Hr)]).
  pose proof (reviewed_cases _ _ _ _ _ _ _ _ _ Hr) as Hc. rewrite Hk in Hc.
  destruct (Hc eq_refl) as (_ & _ & _ & [([=] & _)|(disp & green & Hr2)]).
  pose proof (remediation_cases _ _ _ _ _ _ _ _ _ Hr2) as Hr3. rewrite Hk in Hr3.
  destruct Hr3 as (_ & -> & ->). split; [done|]. by case_match.
Qed.

End Eligible.

(** ** Concrete inputs *)

(** A host that reads no text outside the date format of the language. *)
Definition ex_host : HostDate := {| host_date_parse := fun _ => None |}.

Definition ex_decide (es : list obj) (policy : val) : option DecisionKind :=
  match @eligible ex_host (fold es) policy VUndef with Ok d => Some (kind d) | Throw _ => None end.

Example decide_clean : ex_decide ex_clean VUndef = Some finalize_now.
Proof. vm_compute. reflexivity. Qed.
Example decide_moved : ex_decide (ex_clean ++ [ex_advance "def" "4"]) VUndef = Some wait.
Proof. vm_compute. reflexivity. Qed.
Example decide_strict_comment :
  ex_decide [ex_advance "abc" "1"; ex_verdict "abc" "comment-only" "2"; ex_checks "abc" "success" "3"] VUndef
  = Some remediate.
Proof. vm_compute. reflexivity. Qed.

(** Exhaustion lands through a completed final remediation even when the settled
    checks of that revision are a failure. *)
Definition ex_dispatch (n : string) : obj :=
  ex_ev "remediation_dispatched" [("at", ex_at n); ("revisionRef", VStr "abc"); ("round", VInt 1);
    ("idempotencyKey", VStr "k"); ("final", VBool true)].
Definition ex_conclusion (n : string) : obj :=
  ex_ev "remediation_concluded" [("at", ex_at n); ("revisionRef", VStr "abc"); ("round", VInt 1);
    ("outcome", VStr "completed")].
Definition ex_exhausted (n : string) : obj :=
  ex_ev "budget_exhausted" [("at", ex_at n); ("stageId", VStr "review")].
Example exhaustion_lands_on_red_checks :
  ex_decide [ex_advance "abc" "1"; ex_verdict "abc" "request-changes" "2"; ex_checks "abc" "failure" "3";
             ex_exhausted "4"; ex_dispatch "5"; ex_conclusion "6"] VUndef
  = Some finalize_now.
Proof. vm_compute. reflexivity. Qed.

(** A patience beyond the range of dates makes the decision throw. *)
Example huge_patience_throws :
  @eligible ex_host (fold [ex_advance "abc" "1"])
    (VObj [("checksPatienceMs", VNum (string_to_number "1e300"))]) VUndef
  = Throw (RangeError "Invalid time value").
Proof. vm_compute. reflexivity. Qed.

Lemma policy_accepted_is_sound_witness :
  exists pol, normalizePolicy (VObj [("consumeAttestations", VBool true);
      ("attestationProducers", VArr [VStr "hammer"]); ("checksPatienceMs", VInt (-5))]) = Ok pol
    /\ attestationProducers pol <> [].
Proof.
  eexists. split; [vm_compute; reflexivity|].
  eapply (policy_accepted_is_sound (VObj [("consumeAttestations", VBool true);
      ("attestationProducers", VArr [VStr "hammer"]); ("checksPatienceMs", VInt (-5))])); vm_compute; reflexivity.
Defined.

Lemma finalize_backed_by_ledger_witness :
  exists v, In v ex_clean /\ at_rev "verdict_recorded" "abc" v = true.
Proof.
  destruct (@finalize_backed_by_ledger ex_host ex_clean VUndef VUndef
    (match @eligible ex_host (fold ex_clean) VUndef VUndef with
     | Ok d => d | Throw _ => makeEligibilityDecision halt VNull VNull VNull VNull end)
    ltac:(vm_compute; reflexivity) ltac:(vm_compute; reflexivity) ltac:(vm_compute; reflexivity))
    as (pol & adv & chk & _ & _ & Hadv & _ & _ & _ & Hv & _).
  assert (E : rev_key adv = "abc") by (vm_compute in Hadv; injection Hadv as <-; vm_compute; reflexivity).
  rewrite E in Hv. exact Hv.
Defined.

Definition ex_off : val := VObj [("autonomousExecutionDisabled", VBool true)].
Definition ex_result (es : list obj) (policy at_ : val) : EligibilityDecision :=
  match @eligible ex_host (fold es) policy at_ with
  | Ok d => d | Throw _ => makeEligibilityDecision halt VNull VNull VNull VNull end.

Lemma kill_switch_blocks_mutation_witness :
  is_mutating (kind (ex_result ex_clean ex_off VUndef)) = false.
Proof.
  apply (@kill_switch_blocks_mutation ex_host (fold ex_clean) ex_off VUndef);
    [vm_compute; reflexivity | vm_compute; reflexivity |].
  eexists. split; vm_compute; reflexivity.
Defined.

Lemma close_only_by_operator_witness :
  (exists e, In e (ex_clean ++ [ex_override "close" "4"]) /\ event_is "closed" e = true)
  \/ last_override (ex_clean ++ [ex_override "close" "4"]) "close".
Proof.
  apply (@close_only_by_operator ex_host (ex_clean ++ [ex_override "close" "4"]) VUndef VUndef
    (ex_result (ex_clean ++ [ex_override "close" "4"]) VUndef VUndef)); vm_compute; reflexivity.
Defined.

Lemma wait_is_bounded_witness :
  exists due, @date_parse ex_host "2026-01-01T00:31:00.000Z" = Some due.
Proof.
  destruct (@wait_is_bounded ex_host [ex_advance "abc" "1"] VUndef VUndef
    (ex_result [ex_advance "abc" "1"] VUndef VUndef) "2026-01-01T00:31:00.000Z"
    ltac:(constructor; [vm_compute; reflexivity | constructor])
    ltac:(vm_compute; reflexivity) ltac:(vm_compute; reflexivity) ltac:(vm_compute; reflexivity))
    as (due & Hdue & _).
  exists due. exact Hdue.
Defined.

Lemma eligible_reads_current_revision_only_witness :
  @eligible ex_host (set_revisions (fold ex_clean) (currentRevision (fold ex_clean))
      (("def", emptyRevisionState) :: revisions (fold ex_clean))) VUndef VUndef
  = @eligible ex_host (fold ex_clean) VUndef VUndef.
Proof.
  apply (@eligible_reads_current_revision_only ex_host (fold ex_clean)). vm_compute. reflexivity.
Defined.

Lemma head_move_needs_fresh_evidence_witness :
  kind (ex_result (ex_clean ++ [ex_advance "def" "4"]) VUndef VUndef) = wait
  \/ kind (ex_result (ex_clean ++ [ex_advance "def" "4"]) VUndef VUndef) = escalate.
Proof.
  apply (@head_move_needs_fresh_evidence ex_host ex_clean (ex_advance "def" "4") VUndef VUndef);
    try (vm_compute; reflexivity); intros (e & E & _); vm_compute in E; discriminate.
Defined.

Definition ex_comment : list obj :=
  [ex_advance "abc" "1"; ex_verdict "abc" "comment-only" "2"; ex_checks "abc" "success" "3"].
Lemma remediate_round_and_final_witness :
  round (ex_result ex_comment VUndef VUndef) = Some 1%nat.
Proof.
  apply (@remediate_round_and_final ex_host (fold ex_comment) VUndef VUndef (ex_result ex_comment VUndef VUndef));
    vm_compute; reflexivity.
Defined.
