(* ===== verification/LedgerStore.v ===== *)
(** The append-only ledger store (src/src/finalization/ledger-store.mjs). The
    table is the list of its rows in [seq] order with the AUTOINCREMENT counter;
    the prepared statements are functions on it. A payload column holds the JSON
    value its text denotes, or [None] for text that is not JSON. What SQLite
    writes in a TEXT column for a bound number is the class [SqliteText]. *)

From Stdlib Require Import ZArith Lia Ascii SpecFloat.
From stdpp Require Import base list strings.
From S2P Require Import Prelude JsNum JsValue LedgerEvents.

Class SqliteText := { real_text : num -> string }.

Record Row := {
  seq : Z;
  domain_id : string;
  subject_external_id : string;
  event_type : string;
  revision_ref : option string;
  at_text : string;
  source_ref : option string;
  idempotency_key : option string;
  payload_json : option val
}.

Record Table := { rows : list Row; last_seq : Z }.
Definition empty_table : Table := {| rows := []; last_seq := 0 |}.

Definition COLUMN_FIELDS : list string :=
  ["type"; "subjectKey"; "revisionRef"; "at"; "sourceRef"; "idempotencyKey"].

(** The columns of a row before [seq] is assigned. *)
Record Columns := {
  c_domain : string; c_subject : string; c_type : string;
  c_revision : option string; c_at : string; c_source : option string; c_key : option string;
  c_payload : val
}.

Definition payload_of (event : obj) : obj :=
  filter_b (fun kv => negb (str_in (fst kv) COLUMN_FIELDS) && negb (is_undef (snd kv))) event.

Definition text_or (v : val) : string := match v with VStr s => s | _ => "" end.

Section Store.
Context `{SqliteText}.

Definition bind_error : jserror :=
  TypeError "SQLite3 can only bind numbers, strings, bigints, buffers, and null".

(** Binding a value to a nullable TEXT column. *)
Definition bind_text (v : val) : result (option string) :=
  match v with
  | VUndef | VNull => Ok None
  | VStr s => Ok (Some s)
  | VNum n => Ok (Some (real_text n))
  | _ => Throw bind_error
  end.

(** [eventToColumns], then the binding of its values. *)
Definition eventToColumns (event : obj) : result Columns :=
  let* rev := bind_text (get event "revisionRef") in
  let* source := bind_text (get event "sourceRef") in
  let* key := bind_text (get event "idempotencyKey") in
  Ok {| c_domain := text_or (oget (get event "subjectKey") "domainId");
        c_subject := text_or (oget (get event "subjectKey") "subjectExternalId");
        c_type := text_or (get event "type"); c_revision := rev; c_at := text_or (get event "at");
        c_source := source; c_key := key; c_payload := json_norm (VObj (payload_of event)) |}.

Definition row_of (c : Columns) (n : Z) : Row := {|
  seq := n; domain_id := c_domain c; subject_external_id := c_subject c; event_type := c_type c;
  revision_ref := c_revision c; at_text := c_at c; source_ref := c_source c;
  idempotency_key := c_key c; payload_json := Some (c_payload c) |}.

(** The partial unique index. *)
Definition same_key (c : Columns) (r : Row) : bool :=
  match c_key c, idempotency_key r with
  | Some a, Some b =>
      String.eqb (c_domain c) (domain_id r) && String.eqb (c_subject c) (subject_external_id r)
      && String.eqb (c_type c) (event_type r) && String.eqb a b
  | _, _ => false
  end.

(** [INSERT ... ON CONFLICT ... DO NOTHING]: the new table and the row written. *)
Definition insert_row (t : Table) (c : Columns) : Table * option Row :=
  if some_b (same_key c) (rows t) then (t, None)
  else
    let r := row_of c (last_seq t + 1) in
    ({| rows := rows t ++ [r]; last_seq := last_seq t + 1 |}, Some r).

Definition set_opt (o : obj) (k : string) (v : option string) : obj :=
  match v with Some s => map_set o k (VStr s) | None => o end.

Definition row_fields (row : Row) : obj :=
  let payload := match payload_json row with Some (VObj o) => o | _ => [] end in
  set_opt (set_opt (set_opt (map_set payload "at" (VStr (at_text row)))
    "revisionRef" (revision_ref row)) "sourceRef" (source_ref row))
    "idempotencyKey" (idempotency_key row).

Definition row_subject (row : Row) : val :=
  VObj (key_obj {| domainId := domain_id row; subjectExternalId := subject_external_id row |}).

Definition rowToEvent (row : Row) : result obj :=
  let fields := row_fields row in
  let* event :=
    (if str_in (event_type row) FINALIZATION_EVENT_TYPES
     then makeFinalizationEvent (event_type row) (row_subject row) fields
     else Ok (spread [("type", VStr (event_type row)); ("subjectKey", row_subject row)] fields)) in
  Ok (map_set event "seq" (VInt (seq row))).

Definition append (t : Table) (event : obj) : result (obj * Table) :=
  let* validated := makeFinalizationEvent (text_or (get event "type")) (get event "subjectKey") event in
  let* columns := eventToColumns validated in
  match insert_row t columns with
  | (t', Some r) => Ok (map_set validated "seq" (VInt (seq r)), t')
  | (t', None) =>
      match find_b (same_key columns) (rows t') with
      | Some existing => let* e := rowToEvent existing in Ok (e, t')
      | None => Ok (validated, t')
      end
  end.

Definition of_subject (k : SubjectKey) (r : Row) : bool :=
  String.eqb (domain_id r) (domainId k) && String.eqb (subject_external_id r) (subjectExternalId k).

Definition read (t : Table) (subject : val) : result (list obj) :=
  let* key := resolveSubjectKey subject in
  rmapM rowToEvent (filter_b (of_subject key) (rows t)).

(** ** Well-formed tables *)

Definition key_unique (t : Table) : Prop :=
  forall i j r1 r2 k, rows t !! i = Some r1 -> rows t !! j = Some r2 ->
    idempotency_key r1 = Some k -> idempotency_key r2 = Some k ->
    domain_id r1 = domain_id r2 -> subject_external_id r1 = subject_external_id r2 ->
    event_type r1 = event_type r2 -> i = j.

Definition seq_ascending (t : Table) : Prop :=
  (forall i j r1 r2, rows t !! i = Some r1 -> rows t !! j = Some r2 -> (i < j)%nat -> (seq r1 < seq r2)%Z)
  /\ (forall i r, rows t !! i = Some r -> (seq r <= last_seq t)%Z).

Definition well_formed (t : Table) : Prop := key_unique t /\ seq_ascending t.

Lemma well_formed_empty : well_formed empty_table.
Proof. split; [|split]; intros i; intros; simpl in *; rewrite lookup_nil in *; done. Qed.

Lemma same_key_row_of c n r :
  same_key c r = true <-> exists k, c_key c = Some k /\ idempotency_key r = Some k
    /\ domain_id r = domain_id (row_of c n) /\ subject_external_id r = subject_external_id (row_of c n)
    /\ event_type r = event_type (row_of c n).
Proof.
  unfold same_key. simpl. destruct (c_key c) as [a|], (idempotency_key r) as [b|]; try
    (split; [done | intros (k & ? & ? & _); congruence]).
  rewrite !andb_true_iff, !String.eqb_eq. split.
  - intros [[[-> ->] ->] ->]. eauto 10.
  - intros (k & [= ->] & [= ->] & -> & -> & ->). done.
Qed.

Lemma insert_row_cases t c :
  (exists r, some_b (same_key c) (rows t) = true /\ In r (rows t) /\ same_key c r = true
             /\ insert_row t c = (t, None))
  \/ ((forall r, In r (rows t) -> same_key c r = false)
      /\ insert_row t c = ({| rows := rows t ++ [row_of c (last_seq t + 1)]; last_seq := last_seq t + 1 |},
                           Some (row_of c (last_seq t + 1)))).
Proof.
  unfold insert_row. destruct (some_b (same_key c) (rows t)) eqn:E.
  - left. pose proof E as E'. unfold some_b in E'. apply existsb_exists in E' as (r & Hr & Ek). eauto.
  - right. split; [|done]. intros r Hr. destruct (same_key c r) eqn:Ek; [|done].
    unfold some_b in E. assert (existsb (same_key c) (rows t) = true) by (apply existsb_exists; eauto).
    congruence.
Qed.

Lemma insert_row_well_formed t c t' o :
  well_formed t -> insert_row t c = (t', o) -> well_formed t'.
Proof.
  intros Hwf. destruct (insert_row_cases t c) as [(r & _ & _ & _ & ->)|[Hno ->]]; intros [= <- <-]; [done|].
  destruct Hwf as [Hu [Ha Hl]]. set (r := row_of c (last_seq t + 1)).
  assert (Hlk : forall i x, (rows t ++ [r]) !! i = Some x ->
    rows t !! i = Some x \/ (i = length (rows t) /\ x = r)).
  { intros i x Hx. apply lookup_app_Some in Hx as [?|[Hge Hx]]; [by left|]. right.
    destruct (i - length (rows t))%nat eqn:Ei; [|done]. simpl in Hx. injection Hx as <-. split; [lia | done]. }
  assert (Hlt : forall i x, rows t !! i = Some x -> (i < length (rows t))%nat) by apply lookup_lt_Some.
  assert (Hnew : forall i x k, rows t !! i = Some x -> idempotency_key x = Some k ->
    idempotency_key r = Some k -> domain_id x = domain_id r -> subject_external_id x = subject_external_id r ->
    event_type x = event_type r -> False).
  { intros i x k Hx Kx Kr E1 E2 E3. pose proof (Hno x) as Hn.
    rewrite (proj2 (same_key_row_of c (last_seq t + 1) x)) in Hn.
    - discriminate Hn. apply list_elem_of_In. by eapply list_elem_of_lookup_2.
    - exists k. done. }
  split; [|split].
  - intros i j r1 r2 k H1%Hlk H2%Hlk K1 K2 E1 E2 E3.
    destruct H1 as [H1|[-> ->]], H2 as [H2|[-> ->]]; try done.
    + by eapply (Hu i j r1 r2 k).
    + by destruct (Hnew i r1 k).
    + by destruct (Hnew j r2 k).
  - intros i j r1 r2 H1%Hlk H2%Hlk Hij.
    destruct H1 as [H1|[-> ->]], H2 as [H2|[-> ->]].
    + by eapply Ha.
    + specialize (Hl _ _ H1). simpl. lia.
    + specialize (Hlt _ _ H2). lia.
    + lia.
  - intros i x H1%Hlk. simpl. destruct H1 as [H1|[-> ->]]; [specialize (Hl _ _ H1); lia | simpl; lia].
Qed.

Lemma append_inv t event e t' :
  append t event = Ok (e, t') ->
  exists validated c, makeFinalizationEvent (text_or (get event "type")) (get event "subjectKey") event = Ok validated
    /\ eventToColumns validated = Ok c
    /\ ((exists r, In r (rows t) /\ find_b (same_key c) (rows t) = Some r /\ rowToEvent r = Ok e /\ t' = t)
        \/ ((forall r, In r (rows t) -> same_key c r = false)
            /\ e = map_set validated "seq" (VInt (last_seq t + 1))
            /\ t' = {| rows := rows t ++ [row_of c (last_seq t + 1)]; last_seq := last_seq t + 1 |})).
Proof.
  unfold append. intros (v & Ev & (c & Ec & Hk)%rbind_Ok)%rbind_Ok. exists v, c. split; [done|]. split; [done|].
  destruct (insert_row_cases t c) as [(r & Hs & Hr & Ek & Ei)|[Hno Ei]]; rewrite Ei in Hk.
  - left. destruct (find_b (same_key c) (rows t)) as [x|] eqn:Ef.
    + apply rbind_Ok in Hk as (y & Ey & [= <- <-]). exists x.
      destruct (find_b_In _ _ _ Ef) as [Hx _]. done.
    + pose proof (find_b_None _ _ _ Ef Hr). congruence.
  - right. injection Hk as <- <-. done.
Qed.

(** The ledger is append-only and stays well formed: an append never
    changes or removes a row, keeps [seq] strictly ascending, and keeps at most
    one row per subject, event type and idempotency key. *)
Theorem append_preserves_ledger (t t' : Table) (event e : obj) :
  well_formed t -> append t event = Ok (e, t') ->
  well_formed t' /\ (exists tail, rows t' = rows t ++ tail /\ (length tail <= 1)%nat).
Proof.
  intros Hwf (v & c & _ & _ & [(r & _ & _ & _ & ->)|(Hno & _ & ->)])%append_inv.
  - split; [done|]. exists []. rewrite app_nil_r. split; [done | simpl; lia].
  - split; [|exists [row_of c (last_seq t + 1)]; split; [done | simpl; lia]].
    eapply (insert_row_well_formed t c); [done|].
    destruct (insert_row_cases t c) as [(r & _ & Hr & Ek & _)|[_ ->]]; [|done].
    rewrite (Hno r Hr) in Ek. done.
Qed.

(** ** Reading back what was written *)

Definition text_field (v : val) : Prop := (exists s, v = VStr s) \/ v = VUndef.

(** An event whose columns are texts and whose values are JSON values: what the
    producers of the repository append. *)
Definition storable (event : obj) : Prop :=
  json_stable (VObj event) /\ text_field (get event "revisionRef")
  /\ text_field (get event "sourceRef") /\ text_field (get event "idempotencyKey").

Lemma stable_no_undef o k v : json_stable (VObj o) -> In (k, v) o -> v <> VUndef /\ json_norm v = v.
Proof.
  unfold json_stable. rewrite json_norm_obj. intros [= E]. revert E.
  induction o as [|[k' w] o IH]; [done|]. simpl. intros E.
  assert (Hc : (k', json_norm w) :: norm_fields o = (k', w) :: o /\ w <> VUndef).
  { destruct w; try (by split). pose proof (norm_fields_length o) as Hl. rewrite E in Hl. simpl in Hl. lia. }
  destruct Hc as [Hc Hw]. injection Hc as Hw1 Ho. intros [[= <- <-]|Hin]; [done | by apply IH].
Qed.

Lemma payload_norm event : json_stable (VObj event) -> norm_fields (payload_of event) = payload_of event.
Proof.
  intros Hs. assert (Hall : forall k v, In (k, v) (payload_of event) -> v <> VUndef /\ json_norm v = v).
  { intros k v [Hin _]%List.filter_In. by eapply stable_no_undef. }
  revert Hall. generalize (payload_of event) as o. induction o as [|[k v] o IH]; intros Hall; [done|].
  simpl. destruct (Hall k v (or_introl eq_refl)) as [Hu Hn]. rewrite IH by (intros; eapply Hall; right; eassumption).
  destruct v; try done; by rewrite Hn.
Qed.

Lemma get_payload_defined o k :
  (forall k v, In (k, v) o -> v <> VUndef) ->
  get (payload_of o) k = if str_in k COLUMN_FIELDS then VUndef else get o k.
Proof.
  induction o as [|[k' v] o IH]; intros Hall; [unfold get; simpl; by case_match|].
  assert (Hv : is_undef v = false) by (pose proof (Hall k' v (or_introl eq_refl)); by destruct v).
  specialize (IH ltac:(intros a b Hab; apply (Hall a b); by right)).
  unfold payload_of, filter_b in *. cbn [List.filter fst snd]. rewrite Hv, andb_true_r.
  destruct (str_in k' COLUMN_FIELDS) eqn:E; cbn [negb].
  - rewrite IH. unfold get. cbn [map_get]. destruct (String.eqb_spec k k') as [->|]; [by rewrite E | done].
  - unfold get in *. cbn [map_get]. destruct (String.eqb_spec k k') as [->|]; [by rewrite E | exact IH].
Qed.

Lemma get_payload event k :
  json_stable (VObj event) ->
  get (payload_of event) k = if str_in k COLUMN_FIELDS then VUndef else get event k.
Proof. intros Hs. apply get_payload_defined. intros k' v Hin. by apply (stable_no_undef event k' v). Qed.

Lemma get_set_opt o k v k' :
  get (set_opt o k v) k' = match v with
                           | Some s => if String.eqb k k' then VStr s else get o k'
                           | None => get o k'
                           end.
Proof.
  destruct v as [s|]; simpl; [|done]. destruct (String.eqb_spec k k') as [->|];
    [apply get_set | by apply get_set_ne].
Qed.

Lemma bind_text_field v o : text_field v -> bind_text v = Ok o ->
  match o with Some s => v = VStr s | None => v = VUndef end.
Proof. intros [[s ->]| ->] [= <-]; done. Qed.

Lemma columns_inv event c :
  eventToColumns event = Ok c ->
  bind_text (get event "revisionRef") = Ok (c_revision c)
  /\ bind_text (get event "sourceRef") = Ok (c_source c)
  /\ bind_text (get event "idempotencyKey") = Ok (c_key c)
  /\ c_domain c = text_or (oget (get event "subjectKey") "domainId")
  /\ c_subject c = text_or (oget (get event "subjectKey") "subjectExternalId")
  /\ c_type c = text_or (get event "type") /\ c_at c = text_or (get event "at")
  /\ c_payload c = VObj (norm_fields (payload_of event)).
Proof.
  unfold eventToColumns. rewrite json_norm_obj. generalize (norm_fields (payload_of event)) as p. intros p.
  intros (rev & Er & (src & Es & (key & Ek & [= <-])%rbind_Ok)%rbind_Ok)%rbind_Ok. auto 10.
Qed.

Lemma row_fields_get event c n k :
  storable event -> eventToColumns event = Ok c ->
  isNonEmptyString (get event "at") = true -> k <> "type" -> k <> "subjectKey" ->
  get (row_fields (row_of c n)) k = get event k.
Proof.
  intros (Hs & Hrev & Hsrc & Hkey) Hc Hat Hk1 Hk2.
  destruct (columns_inv _ _ Hc) as (Er & Es & Ek & _ & _ & _ & Ea & Ep).
  apply (bind_text_field _ _ Hrev) in Er. apply (bind_text_field _ _ Hsrc) in Es.
  apply (bind_text_field _ _ Hkey) in Ek. unfold row_fields. simpl payload_json. rewrite Ep.
  rewrite payload_norm by done. cbn [row_of at_text revision_ref source_ref idempotency_key]. rewrite Ea.
  revert Er Es Ek. generalize (c_revision c) as rev, (c_source c) as src, (c_key c) as key. intros rev src key Er Es Ek.
  rewrite !get_set_opt.
  assert (Hat' : VStr (text_or (get event "at")) = get event "at") by (by destruct (get event "at")).
  destruct (String.eqb_spec "at" k) as [<-|Ha].
  { rewrite get_set. destruct key, src, rev; done. }
  rewrite get_set_ne, get_payload by done. unfold str_in. cbn [existsb COLUMN_FIELDS].
  rewrite (proj2 (String.eqb_neq k "type")), (proj2 (String.eqb_neq k "subjectKey")),
    (proj2 (String.eqb_neq k "at")) by congruence.
  destruct (String.eqb_spec "idempotencyKey" k) as [<-|H1]; [destruct key, src, rev; by rewrite Ek|].
  destruct (String.eqb_spec "sourceRef" k) as [<-|H2]; [destruct key, src, rev; by rewrite Es|].
  destruct (String.eqb_spec "revisionRef" k) as [<-|H3]; [destruct key, src, rev; by rewrite Er|].
  rewrite (proj2 (String.eqb_neq k "revisionRef")), (proj2 (String.eqb_neq k "sourceRef")),
    (proj2 (String.eqb_neq k "idempotencyKey")) by congruence.
  by destruct key, src, rev.
Qed.

(** Writing a validated event and reading its row gives the event back. *)
Lemma row_roundtrip type subject fields event c n :
  makeFinalizationEvent type subject fields = Ok event -> storable event ->
  eventToColumns event = Ok c ->
  rowToEvent (row_of c n) = Ok (map_set event "seq" (VInt n)).
Proof.
  intros Hm Hst Hc. destruct (make_get _ _ _ _ Hm) as (Gt & Ga & _).
  destruct (make_get_subjectKey _ _ _ _ Hm) as (key & _ & Gs).
  destruct (make_inv _ _ _ _ Hm) as (Ht & Hat & _). rewrite <- Ga in Hat.
  assert (Hcols : event_type (row_of c n) = type /\ row_subject (row_of c n) = VObj (key_obj key)).
  { destruct (columns_inv _ _ Hc) as (_ & _ & _ & Ed & Es & Et & _). unfold row_subject. simpl.
    rewrite Ed, Es, Et, Gt, Gs. by destruct key. }
  destruct Hcols as [Ety Esub]. unfold rowToEvent. rewrite Ety, Ht, Esub.
  rewrite (make_ext type _ _ event).
  - rewrite <- Gs, (make_event_roundtrip _ _ _ _ Hm). done.
  - by apply row_fields_get.
  - intros k Hk. apply row_fields_get; try done; intros ->;
      by apply (event_keys_base type _ Ht) in Hk; simpl; auto.
Qed.

Lemma rmapM_app {A B} (f : A -> result B) l l' :
  rmapM f (l ++ l') = (let* ys := rmapM f l in let* zs := rmapM f l' in Ok (ys ++ zs)).
Proof.
  induction l as [|x l IH]; simpl; [by destruct (rmapM f l')|].
  destruct (f x); simpl; [|done]. rewrite IH. destruct (rmapM f l); simpl; [|done].
  by destruct (rmapM f l').
Qed.

Lemma append_columns_key event v c :
  makeFinalizationEvent (text_or (get event "type")) (get event "subjectKey") event = Ok v ->
  eventToColumns v = Ok c ->
  exists key, resolveSubjectKey (get event "subjectKey") = Ok key
    /\ c_domain c = domainId key /\ c_subject c = subjectExternalId key.
Proof.
  intros Hm Hc. destruct (make_get_subjectKey _ _ _ _ Hm) as (key & Ek & Gs).
  exists key. split; [done|]. destruct (columns_inv _ _ Hc) as (_ & _ & _ & -> & -> & _).
  rewrite Gs. by destruct key.
Qed.

(** The store refines a list of events per subject: after an append that
    wrote a row, reading the event's subject yields the events read before
    followed by the very event returned, and reading any other subject yields
    what it did. *)
Theorem append_read_refinement (t t' : Table) (event e v : obj) (subject : val) (es : list obj) :
  append t event = Ok (e, t') -> t' <> t ->
  makeFinalizationEvent (text_or (get event "type")) (get event "subjectKey") event = Ok v -> storable v ->
  read t subject = Ok es ->
  read t' subject = Ok (if bool_decide (resolveSubjectKey subject = resolveSubjectKey (get event "subjectKey"))
                        then es ++ [e] else es).
Proof.
  intros Ha Hne Hm Hst Hr.
  destruct (append_inv _ _ _ _ Ha) as (v' & c & Em & Ec & [(r & _ & _ & _ & ->)|(_ & -> & ->)]); [done|].
  assert (v' = v) as -> by congruence.
  destruct (append_columns_key _ _ _ Em Ec) as (key & Ek & Hd & Hx).
  unfold read in *. destruct (resolveSubjectKey subject) as [k0|] eqn:E0; [|done]. simpl in *.
  rewrite filter_b_snoc, rmapM_app, Hr. simpl.
  assert (Hsub : of_subject k0 (row_of c (last_seq t + 1))
    = bool_decide (Ok k0 = resolveSubjectKey (get event "subjectKey"))).
  { rewrite Ek. unfold of_subject. simpl. rewrite Hd, Hx.
    destruct (bool_decide_reflect (Ok k0 = Ok key)) as [[= ->]|Hno]; [by rewrite !String.eqb_refl|].
    apply andb_false_iff. destruct (String.eqb_spec (domainId key) (domainId k0)) as [E1|]; [|by left]. right.
    apply String.eqb_neq. intros E2. apply Hno. f_equal. destruct k0, key; simpl in *; congruence. }
  rewrite Hsub. destruct (bool_decide _); simpl; [|by rewrite app_nil_r].
  rewrite (row_roundtrip _ _ _ _ _ _ Em Hst Ec). done.
Qed.

(** Appends are idempotent on the idempotency key: repeating an append that
    carries a key leaves the table as it is and answers the stored event. *)
Theorem append_idempotent (t t' t'' : Table) (event e e' v : obj) :
  append t event = Ok (e, t') -> append t' event = Ok (e', t'') ->
  makeFinalizationEvent (text_or (get event "type")) (get event "subjectKey") event = Ok v -> storable v ->
  get v "idempotencyKey" <> VUndef ->
  t'' = t' /\ e' = e.
Proof.
  intros H1 H2 Hm Hst Hk.
  destruct (append_inv _ _ _ _ H1) as (v1 & c & E1 & Ec & H1').
  destruct (append_inv _ _ _ _ H2) as (v2 & c2 & E2 & Ec2 & H2').
  assert (v1 = v) as -> by congruence. assert (v2 = v) as -> by congruence.
  assert (c2 = c) as -> by congruence.
  assert (Hck : exists k, c_key c = Some k).
  { destruct (columns_inv _ _ Ec) as (_ & _ & Ek & _). destruct Hst as (_ & _ & _ & Hkey).
    apply (bind_text_field _ _ Hkey) in Ek. destruct (c_key c); [eauto | done]. }
  destruct Hck as [k Hck].
  assert (Hself : forall n, same_key c (row_of c n) = true).
  { intros n. apply (same_key_row_of c n). exists k. done. }
  destruct H1' as [(r & Hr & Hf & Er & ->)|(Hno & -> & ->)].
  - destruct H2' as [(r2 & _ & Hf2 & Er2 & ->)|(Hno & _ & _)].
    + split; [done|]. assert (r2 = r) as -> by congruence. congruence.
    + destruct (find_b_In _ _ _ Hf) as [Hin Hsk]. rewrite (Hno r Hin) in Hsk. done.
  - assert (Hin : In (row_of c (last_seq t + 1)) (rows t ++ [row_of c (last_seq t + 1)]))
      by (apply in_or_app; right; by left).
    destruct H2' as [(r2 & Hr2 & Hf2 & Er2 & ->)|(Hno2 & _ & _)].
    + split; [done|]. simpl in *. destruct (find_b_In _ _ _ Hf2) as [Hin2 Hsk2].
      apply in_app_or in Hin2 as [Hin2|[<-|[]]]; [by rewrite (Hno r2 Hin2) in Hsk2|].
      rewrite (row_roundtrip _ _ _ _ _ _ E1 Hst Ec) in Er2. congruence.
    + specialize (Hno2 _ Hin). by rewrite Hself in Hno2.
Qed.
End Store.

(** ** Concrete inputs *)

Definition ex_text : SqliteText := {| real_text := num_to_string |}.

Definition ex_dispatch_event : obj :=
  match makeFinalizationEvent "remediation_dispatched" (VObj ex_key)
    [("at", VStr "2026-01-01T00:05:00.000Z"); ("revisionRef", VStr "abc"); ("round", VInt 1);
     ("idempotencyKey", VStr "remediate:abc:1")] with Ok e => e | Throw _ => [] end.
Definition ex_table : Table :=
  match @append ex_text empty_table ex_dispatch_event with Ok (_, t) => t | Throw _ => empty_table end.
Definition ex_stored : obj := map_set ex_dispatch_event "seq" (VInt 1).

Lemma ex_dispatch_storable : storable ex_dispatch_event.
Proof.
  split; [vm_compute; reflexivity|]. split; [|split];
    first [left; eexists; vm_compute; reflexivity | right; vm_compute; reflexivity].
Qed.

Lemma append_preserves_ledger_witness :
  well_formed ex_table /\ exists tail, rows ex_table = rows empty_table ++ tail /\ (length tail <= 1)%nat.
Proof.
  apply (@append_preserves_ledger ex_text empty_table ex_table ex_dispatch_event ex_stored);
    [apply well_formed_empty | vm_compute; reflexivity].
Defined.

Lemma append_read_refinement_witness : read ex_table (VObj ex_key) = Ok [ex_stored].
Proof.
  apply (@append_read_refinement ex_text empty_table ex_table ex_dispatch_event ex_stored ex_dispatch_event
    (VObj ex_key) []); [vm_compute; reflexivity | vm_compute; discriminate | vm_compute; reflexivity
    | apply ex_dispatch_storable | vm_compute; reflexivity].
Defined.

Lemma append_idempotent_witness : ex_table = ex_table /\ ex_stored = ex_stored.
Proof.
  apply (@append_idempotent ex_text empty_table ex_table ex_table ex_dispatch_event ex_stored ex_stored
    ex_dispatch_event); [vm_compute; reflexivity | vm_compute; reflexivity | vm_compute; reflexivity
    | apply ex_dispatch_storable | vm_compute; discriminate].
Defined.
