(* ===== verification/LeaseStore.v ===== *)
(** The executor lease store (src/src/finalization/executor-lease-store.mjs):
    one fenced lease per subject. The table is a finite map on its primary key;
    each prepared statement is a function on it, and [acquireTxn] composes them
    in one transaction. [julianday] is SQLite's date function. *)

From Stdlib Require Import ZArith Lia Ascii SpecFloat.
From stdpp Require Import base list strings gmap.
From S2P Require Import Prelude JsNum JsValue JsDate LedgerEvents LedgerStore.

(** SQLite's [julianday(text)]: [None] is NULL. *)
Class SqliteDate := { julianday : string -> option num }.

Record LeaseRow := {
  lease_id : string;
  holder : string;
  lease_revision : option string;
  acquired_at : string;
  lease_deadline : string;
  updated_at : string
}.

#[export] Instance LeaseRow_eq_dec : EqDecision LeaseRow.
Proof. solve_decision. Defined.

Abbreviation Leases := (gmap (string * string) LeaseRow).

Definition pk (k : SubjectKey) : string * string := (domainId k, subjectExternalId k).

Section Leases.
Context `{HostDate} `{SqliteDate} `{SqliteText}.

Definition isExpired (deadline now : string) : bool :=
  match date_parse deadline, date_parse now with
  | Some due, Some at_ => (due <=? at_)%Z
  | _, _ => false
  end.

(** [julianday(a) <= julianday(b)] in a WHERE clause: NULL is not true. *)
Definition sql_date_le (a b : string) : bool :=
  match julianday a, julianday b with Some x, Some y => num_leb x y | _, _ => false end.

(** The statements: the new table and the number of changed rows, as a flag. *)
Definition insert_lease (db : Leases) (k : SubjectKey) (r : LeaseRow) : Leases * bool :=
  match db !! pk k with Some _ => (db, false) | None => (<[pk k := r]> db, true) end.

Definition steal_lease (db : Leases) (k : SubjectKey) (r : LeaseRow) (prev now : string) : Leases * bool :=
  match db !! pk k with
  | Some old =>
      if String.eqb (lease_id old) prev && sql_date_le (lease_deadline old) now
      then (<[pk k := r]> db, true) else (db, false)
  | None => (db, false)
  end.

Definition renew_lease (db : Leases) (k : SubjectKey) (lid dl upd : string) (rev : option string) : Leases * bool :=
  match db !! pk k with
  | Some old =>
      if String.eqb (lease_id old) lid
      then (<[pk k := {| lease_id := lease_id old; holder := holder old;
                         lease_revision := match rev with Some _ => rev | None => lease_revision old end;
                         acquired_at := acquired_at old; lease_deadline := dl; updated_at := upd |}]> db, true)
      else (db, false)
  | None => (db, false)
  end.

Definition release_lease (db : Leases) (k : SubjectKey) (lid : string) : Leases * bool :=
  match db !! pk k with
  | Some old => if String.eqb (lease_id old) lid then (delete (pk k) db, true) else (db, false)
  | None => (db, false)
  end.

Inductive AcquireResult := inserted | stolen | contended.

Definition acquireTxn (db : Leases) (k : SubjectKey) (r : LeaseRow) (now : string) : Leases * AcquireResult :=
  match insert_lease db k r with
  | (db', true) => (db', inserted)
  | (_, false) =>
      match db !! pk k with
      | Some existing =>
          if isExpired (lease_deadline existing) now then
            match steal_lease db k r (lease_id existing) now with
            | (db', true) => (db', stolen)
            | (_, false) => (db, contended)
            end
          else (db, contended)
      | None => (db, contended)
      end
  end.

Record Acquisition := {
  acquired : bool;
  lease : option LeaseRow;
  acquire_reason : string;
  existing : option LeaseRow
}.

Definition acquire (db : Leases) (subject : val) (holder leaseId : string) (revisionRef : val)
    (now deadline : string) : result (Acquisition * Leases) :=
  let* key := resolveSubjectKey subject in
  if String.eqb holder "" then Throw (TypeError "lease acquire requires a holder identity")
  else if String.eqb leaseId "" then Throw (TypeError "lease acquire requires a leaseId fence token")
  else if String.eqb now "" || String.eqb deadline ""
  then Throw (TypeError "lease acquire requires now + deadline timestamps")
  else
    let* rev := bind_text revisionRef in
    let cols := {| lease_id := leaseId; holder := holder; lease_revision := rev;
                   acquired_at := now; lease_deadline := deadline; updated_at := now |} in
    match acquireTxn db key cols now with
    | (db', contended) =>
        Ok ({| acquired := false; lease := None; acquire_reason := "held"; existing := db' !! pk key |}, db')
    | (db', inserted) =>
        Ok ({| acquired := true; lease := db' !! pk key; acquire_reason := "inserted"; existing := None |}, db')
    | (db', stolen) =>
        Ok ({| acquired := true; lease := db' !! pk key; acquire_reason := "stolen"; existing := None |}, db')
    end.

Definition renew (db : Leases) (subject : val) (leaseId : string) (revisionRef : val)
    (deadline : string) (now : option string) : result (bool * Leases) :=
  let* key := resolveSubjectKey subject in
  let* rev := bind_text revisionRef in
  let '(db', ok) := renew_lease db key leaseId deadline (default deadline now) rev in
  Ok (ok, db').

Definition release (db : Leases) (subject : val) (leaseId : string) : result (bool * Leases) :=
  let* key := resolveSubjectKey subject in
  let '(db', ok) := release_lease db key leaseId in
  Ok (ok, db').

Definition read_lease (db : Leases) (subject : val) : result (option LeaseRow) :=
  let* key := resolveSubjectKey subject in Ok (db !! pk key).

(** ** One acquisition *)

Lemma acquireTxn_spec db k r now db' res :
  acquireTxn db k r now = (db', res) ->
  match res with
  | inserted => db !! pk k = None /\ db' = <[pk k := r]> db
  | stolen => exists old, db !! pk k = Some old /\ isExpired (lease_deadline old) now = true
                /\ sql_date_le (lease_deadline old) now = true /\ db' = <[pk k := r]> db
  | contended => exists old, db !! pk k = Some old /\ db' = db
                /\ (isExpired (lease_deadline old) now = false \/ sql_date_le (lease_deadline old) now = false)
  end.
Proof.
  unfold acquireTxn, insert_lease, steal_lease. destruct (db !! pk k) as [old|] eqn:E; [|by intros [= <- <-]].
  destruct (isExpired (lease_deadline old) now) eqn:Ex; [|intros [= <- <-]; eauto].
  rewrite String.eqb_refl. simpl.
  destruct (sql_date_le (lease_deadline old) now) eqn:Es; intros [= <- <-]; eauto 10.
Qed.

Lemma acquire_inv db subject h lid rev now dl acq db' :
  acquire db subject h lid rev now dl = Ok (acq, db') ->
  exists key r, resolveSubjectKey subject = Ok key /\ lease_id r = lid /\ holder r = h /\ lease_deadline r = dl
    /\ ((acquired acq = true /\ lease acq = Some r /\ db' = <[pk key := r]> db
         /\ (db !! pk key = None \/ exists old, db !! pk key = Some old
              /\ isExpired (lease_deadline old) now = true))
        \/ (acquired acq = false /\ lease acq = None /\ db' = db /\ existing acq = db !! pk key
            /\ exists old, db !! pk key = Some old)).
Proof.
  unfold acquire. intros (key & Ek & Ha)%rbind_Ok. rewrite Ek.
  destruct (String.eqb h ""); [done|]. destruct (String.eqb lid ""); [done|].
  destruct (String.eqb now "" || String.eqb dl ""); [done|].
  apply rbind_Ok in Ha as (rv & _ & Ha). set (r := {| lease_id := lid; holder := h; lease_revision := rv;
    acquired_at := now; lease_deadline := dl; updated_at := now |}) in *.
  destruct (acquireTxn db key r now) as [d res] eqn:Et. apply acquireTxn_spec in Et.
  exists key, r. repeat (split; [done|]).
  destruct res; injection Ha as <- <-; cbn [acquired lease acquire_reason existing].
  - destruct Et as [Hn ->]. left. rewrite lookup_insert_eq. auto.
  - destruct Et as (old & Ho & Hx & _ & ->). left. rewrite lookup_insert_eq. eauto 10.
  - destruct Et as (old & Ho & -> & _). right. eauto 10.
Qed.

(** Mutual exclusion: an acquisition succeeds only on a free subject or on
    a lease whose deadline has passed; it installs exactly the caller's lease;
    when it fails the table is unchanged and the live holder is reported. In
    every case the leases of other subjects are untouched. *)
Theorem acquire_mutual_exclusion (db db' : Leases) (subject : val) (h lid : string) (rev : val)
    (now dl : string) (acq : Acquisition) (key : SubjectKey) :
  acquire db subject h lid rev now dl = Ok (acq, db') -> resolveSubjectKey subject = Ok key ->
  (acquired acq = true ->
     (db !! pk key = None \/ exists old, db !! pk key = Some old /\ isExpired (lease_deadline old) now = true)
     /\ exists r, db' !! pk key = Some r /\ lease_id r = lid /\ holder r = h /\ lease_deadline r = dl)
  /\ (acquired acq = false -> db' = db /\ existing acq = db !! pk key /\ db !! pk key <> None)
  /\ (forall k', k' <> pk key -> db' !! k' = db !! k').
Proof.
  intros (key' & r & Ek & Hl & Hh & Hd & Hc)%acquire_inv Ek'. assert (key' = key) as -> by congruence.
  destruct Hc as [(Ea & _ & -> & Hfree)|(Ea & _ & -> & Hex & old & Ho)]; rewrite Ea.
  - split; [|split; [done|]].
    + intros _. split; [done|]. exists r. by rewrite lookup_insert_eq.
    + intros k' Hne. by rewrite lookup_insert_ne.
  - split; [done|]. split; [|done]. intros _. rewrite Ho in *. done.
Qed.

(** ** Sequences of operations *)

Inductive LeaseOp :=
| OpAcquire (subject : val) (h lid : string) (rev : val) (now dl : string)
| OpRenew (subject : val) (lid : string) (rev : val) (dl : string) (now : option string)
| OpRelease (subject : val) (lid : string).

Definition step_lease (db : Leases) (op : LeaseOp) : Leases :=
  match op with
  | OpAcquire s h lid rev now dl =>
      match acquire db s h lid rev now dl with Ok (_, db') => db' | Throw _ => db end
  | OpRenew s lid rev dl now =>
      match renew db s lid rev dl now with Ok (_, db') => db' | Throw _ => db end
  | OpRelease s lid => match release db s lid with Ok (_, db') => db' | Throw _ => db end
  end.

Definition op_lease_id (op : LeaseOp) : string :=
  match op with OpAcquire _ _ lid _ _ _ | OpRenew _ lid _ _ _ | OpRelease _ lid => lid end.

Lemma step_foreign db op k r :
  db !! k = Some r -> op_lease_id op <> lease_id r ->
  step_lease db op !! k = Some r
  \/ exists s h lid rev now dl, op = OpAcquire s h lid rev now dl /\ isExpired (lease_deadline r) now = true.
Proof.
  intros Hk Hne. destruct op as [s h lid rev now dl|s lid rev dl now|s lid]; simpl in *.
  - destruct (acquire db s h lid rev now dl) as [[acq db']|] eqn:Ea; [|by left].
    apply acquire_inv in Ea as (key & x & _ & _ & _ & _ & [(_ & _ & -> & Hf)|(_ & _ & -> & _)]); [|by left].
    destruct (decide (k = pk key)) as [->|Hk']; [|left; by rewrite lookup_insert_ne].
    right. destruct Hf as [?|(old & Ho & Hx)]; [congruence|]. assert (old = r) as -> by congruence. eauto 10.
  - left. unfold renew, renew_lease. destruct (resolveSubjectKey s) as [key|]; [|done]. simpl.
    destruct (bind_text rev); [|done]. simpl.
    destruct (db !! pk key) as [old|] eqn:Eo; [|done].
    destruct (String.eqb_spec (lease_id old) lid); [|done].
    destruct (decide (k = pk key)) as [->|?]; [congruence | by rewrite lookup_insert_ne].
  - left. unfold release, release_lease. destruct (resolveSubjectKey s) as [key|]; [|done]. simpl.
    destruct (db !! pk key) as [old|] eqn:Eo; [|done].
    destruct (String.eqb_spec (lease_id old) lid); [|done].
    destruct (decide (k = pk key)) as [->|?]; [congruence | by rewrite lookup_delete_ne].
Qed.

(** Leases are fenced and serialized: however many operations other
    executors perform, a lease stays exactly as its holder left it until one of
    them acquires at a time when its deadline has passed; no foreign renewal or
    release ever touches it. *)
Theorem lease_fenced (db : Leases) (k : string * string) (r : LeaseRow) (ops : list LeaseOp) :
  db !! k = Some r -> Forall (fun op => op_lease_id op <> lease_id r) ops ->
  fold_left step_lease ops db !! k = Some r
  \/ exists s h lid rev now dl, In (OpAcquire s h lid rev now dl) ops /\ isExpired (lease_deadline r) now = true.
Proof.
  intros Hk Hops. revert db Hk. induction Hops as [|op ops Hop _ IH]; intros db Hk; [by left|]. simpl.
  destruct (step_foreign db op k r Hk Hop) as [Hk'|(s & h & lid & rev & now & dl & -> & Hx)].
  - destruct (IH _ Hk') as [?|(s & h & lid & rev & now & dl & Hin & Hx)]; [by left | right; eauto 10].
  - right. eauto 10.
Qed.

(** Releasing what one acquired frees the subject. *)
Lemma release_own db key r :
  db !! pk key = Some r -> release_lease db key (lease_id r) = (delete (pk key) db, true).
Proof. intros Hr. unfold release_lease. by rewrite Hr, String.eqb_refl. Qed.
End Leases.

(** ** Concrete inputs *)

Definition ex_date_host : HostDate := {| host_date_parse := fun _ => None |}.
(** Julian days in milliseconds, for the date format of the language. *)
Definition ex_julian : SqliteDate :=
  {| julianday := fun s => match es_date_parse s with Some t => Some (num_of_Z t) | None => None end |}.

Definition ex_acquire (db : Leases) (h lid now dl : string) : result (Acquisition * Leases) :=
  @acquire ex_date_host ex_julian ex_text db (VObj ex_key) h lid (VStr "abc") now dl.
Definition ex_held : Leases :=
  match ex_acquire ∅ "a" "l1" "2026-01-01T00:00:00.000Z" "2026-01-01T00:05:00.000Z" with
  | Ok (_, db) => db | Throw _ => ∅ end.

Example acquire_contended :
  match ex_acquire ex_held "b" "l2" "2026-01-01T00:04:59.000Z" "2026-01-01T00:09:00.000Z" with
  | Ok (a, _) => acquired a | Throw _ => true end = false.
Proof. vm_compute. reflexivity. Qed.

Definition ex_second : Acquisition * Leases :=
  match ex_acquire ex_held "b" "l2" "2026-01-01T00:05:00.000Z" "2026-01-01T00:10:00.000Z" with
  | Ok p => p
  | Throw _ => ({| acquired := false; lease := None; acquire_reason := ""; existing := None |}, ∅)
  end.

Lemma acquire_mutual_exclusion_witness :
  exists r, snd ex_second !! ("code-pr", "org/repo#7") = Some r /\ lease_id r = "l2".
Proof.
  destruct (@acquire_mutual_exclusion ex_date_host ex_julian ex_text ex_held (snd ex_second) (VObj ex_key)
    "b" "l2" (VStr "abc") "2026-01-01T00:05:00.000Z" "2026-01-01T00:10:00.000Z" (fst ex_second)
    {| domainId := "code-pr"; subjectExternalId := "org/repo#7" |}
    ltac:(vm_compute; reflexivity) ltac:(vm_compute; reflexivity)) as [Hs _].
  destruct (Hs ltac:(vm_compute; reflexivity)) as [_ (r & Hr & Hl & _)].
  exists r. split; [exact Hr | exact Hl].
Defined.

Definition ex_row : LeaseRow :=
  {| lease_id := "l1"; holder := "a"; lease_revision := Some "abc"; acquired_at := "2026-01-01T00:00:00.000Z";
     lease_deadline := "2026-01-01T00:05:00.000Z"; updated_at := "2026-01-01T00:00:00.000Z" |}.

Lemma lease_fenced_witness :
  fold_left (@step_lease ex_date_host ex_julian ex_text) [OpRelease (VObj ex_key) "l2"] ex_held
    !! ("code-pr", "org/repo#7") = Some ex_row
  \/ exists s h lid rev now dl, In (OpAcquire s h lid rev now dl) [OpRelease (VObj ex_key) "l2"]
       /\ @isExpired ex_date_host (lease_deadline ex_row) now = true.
Proof.
  apply (@lease_fenced ex_date_host ex_julian ex_text ex_held ("code-pr", "org/repo#7")); [vm_compute; reflexivity|].
  constructor; [vm_compute; discriminate | constructor].
Defined.
