(* ===== verification/Surfaces.v ===== *)
(** The executor's surfaces (src/src/finalization/execution-surfaces.mjs): the
    resolution of the merge seam, the local github-adapter merge, and the
    fail-closed identity check. The adapter call itself and the surfaces the
    caller injects are arguments; a JSON payload found on a failed command's
    output is part of the adapter's reply. *)

From Stdlib Require Import ZArith Lia Ascii SpecFloat.
From stdpp Require Import base list strings.
From S2P Require Import Prelude JsNum JsValue.

(** ** [parseCodePrSubject]: [/^([^#\s]+\/[^#\s]+)#(\d+)$/] *)

(** No white space and no ['#'] anywhere. *)
Fixpoint no_ws_hash (s : string) : bool :=
  match s with
  | EmptyString => true
  | String a s' => negb (is_ws_at s) && negb (Ascii.eqb a "#") && no_ws_hash s'
  end.

Fixpoint all_digits (s : string) : bool :=
  match s with EmptyString => true | String a s' => in_range 48 57 a && all_digits s' end.

(** A ['/'] with at least one character on each side. *)
Definition has_inner_slash (s : string) : bool :=
  match s with
  | EmptyString => false
  | String _ s' =>
      (fix go (s : string) : bool :=
         match s with
         | String "/" (String _ _) => true
         | String _ s'' => go s''
         | EmptyString => false
         end) s'
  end.

Record CodePr := { repo : string; prNumber : num }.

Definition parseCodePrSubject (subjectExternalId : val) : option CodePr :=
  match split_on "#" (trim (to_str (coalesce subjectExternalId (VStr "")))) with
  | [r; n] =>
      if no_ws_hash r && has_inner_slash r && negb (String.eqb n "") && all_digits n
      then Some {| repo := r; prNumber := string_to_number n |} else None
  | _ => None
  end.

(** ** The local merge surface *)

(** What [writeAdapterPullRequestMerge] does: resolves with a value, or rejects
    with a message and the JSON object of its output, if there is one. *)
Inductive AdapterReply :=
| Replied (v : val)
| Rejected (payload : val) (message : string).

Record MergeReply := {
  ok : bool;
  mergeReason : val;
  mergeDetail : val;
  mergePayload : val
}.

Definition refused (why detail : string) : MergeReply :=
  {| ok := false; mergeReason := VStr why; mergeDetail := VStr detail; mergePayload := VUndef |}.

(** [/already merged/i] on the joined message fields, and the same head. *)
Definition isAlreadyMergedAtRevision (payload : val) (revisionRef : val) : bool :=
  if negb (is_object payload) then false
  else
    let texts := omap (fun k => match oget payload k with VStr s => Some s | _ => None end)
                   ["message"; "error"; "reason"; "detail"] in
    let message := join " " texts in
    let observedHead :=
      coalesce (oget payload "matchHeadCommit") (coalesce (oget payload "headRefOid")
        (coalesce (oget payload "headSha") (oget payload "head_sha"))) in
    includes "already merged" (to_lower message) && strict_eq observedHead revisionRef.

Section Merge.
(** The adapter call: repository, number, head the merge must match, method. *)
Context (writeAdapterPullRequestMerge : string -> num -> val -> val -> AdapterReply).
(** [JSON.stringify(payload).slice(0, 500)]. *)
Context (stringify500 : val -> string).

Definition github_merge (defaultMergeMethod : string) (subjectExternalId revisionRef mergeMethod : val)
  : MergeReply :=
  match parseCodePrSubject subjectExternalId with
  | None => refused "unsupported-subject" ("not a code-pr subject: " +:+ to_str subjectExternalId)
  | Some parsed =>
      if negb (truthy revisionRef)
      then refused "no-revision" "refusing merge without a decided revision"
      else
        match writeAdapterPullRequestMerge (repo parsed) (prNumber parsed) revisionRef
                (or_else mergeMethod (VStr defaultMergeMethod)) with
        | Rejected payload message =>
            if isAlreadyMergedAtRevision payload revisionRef
            then {| ok := true; mergeReason := VUndef; mergeDetail := VUndef;
                    mergePayload := match payload with
                                    | VObj o => VObj (map_set (map_set o "merged" (VBool true)) "idempotent" (VBool true))
                                    | _ => payload
                                    end |}
            else refused "adapter-error" message
        | Replied result =>
            if negb (is_true (oget result "ran"))
            then refused "adapter-unavailable" "github adapter binary not resolvable"
            else
              let payload := coalesce (oget result "payload") (VObj []) in
              if is_true (oget payload "merged") || is_str (oget payload "state") "MERGED"
                 || is_true (oget payload "ok")
              then {| ok := true; mergeReason := VUndef; mergeDetail := VUndef; mergePayload := payload |}
              else {| ok := false; mergeReason := VStr "merge-refused";
                      mergeDetail := VStr (stringify500 payload); mergePayload := payload |}
        end
  end.

(** The local merge surface never reports a merge it cannot account for:
    success means a code-pr subject, a decided revision, and either an adapter
    reply that ran and says it merged, or a rejection naming that very head as
    already merged. *)
Theorem github_merge_success_is_accounted (m : string) (sid rev method : val) :
  ok (github_merge m sid rev method) = true ->
  truthy rev = true /\ exists p, parseCodePrSubject sid = Some p
  /\ match writeAdapterPullRequestMerge (repo p) (prNumber p) rev (or_else method (VStr m)) with
     | Replied r => oget r "ran" = VBool true
         /\ (oget (oget r "payload") "merged" = VBool true \/ oget (oget r "payload") "state" = VStr "MERGED"
             \/ oget (oget r "payload") "ok" = VBool true)
     | Rejected payload _ => isAlreadyMergedAtRevision payload rev = true
     end.
Proof.
  unfold github_merge. destruct (parseCodePrSubject sid) as [p|]; [|done].
  destruct (truthy rev); [|done]. simpl. intros Hok. split; [done|]. exists p. split; [done|].
  destruct (writeAdapterPullRequestMerge _ _ _ _) as [r|payload message].
  - destruct (is_true (oget r "ran")) eqn:Er; [|done]. simpl in Hok. apply is_true_eq in Er. split; [done|].
    destruct (is_true (oget (coalesce (oget r "payload") (VObj [])) "merged")
      || is_str (oget (coalesce (oget r "payload") (VObj [])) "state") "MERGED"
      || is_true (oget (coalesce (oget r "payload") (VObj [])) "ok")) eqn:E; [|done].
    assert (Hp : forall k v, oget (coalesce (oget r "payload") (VObj [])) k = v -> v <> VUndef ->
      oget (oget r "payload") k = v).
    { intros k v <-. unfold coalesce. destruct (is_nullish (oget r "payload")) eqn:En; [|done].
      simpl. intros Hne. by unfold get in Hne. }
    apply orb_true_iff in E as [E|E]; [apply orb_true_iff in E as [E|E]|].
    + left. apply Hp; [by apply is_true_eq | done].
    + right; left. apply Hp; [by apply is_str_eq | done].
    + right; right. apply Hp; [by apply is_true_eq | done].
  - destruct (isAlreadyMergedAtRevision payload rev); done.
Qed.
End Merge.

(** ** Resolution and identity *)

Record MergeSurface := { surface_name : val; has_merge : bool }.

Definition usable (s : option MergeSurface) : option MergeSurface :=
  match s with Some m => if has_merge m then Some m else None | None => None end.

Definition resolveMergeSurface (adjudicateSurface localFallback githubAdapter : option MergeSurface)
  : option MergeSurface :=
  match usable adjudicateSurface with
  | Some s => Some s
  | None => match usable localFallback with Some s => Some s | None => usable githubAdapter end
  end.

Record IdentityVerdict := { idOk : bool; idReason : val; surfaceError : bool }.

(** The verdict for an absent surface, or for the surface's reply. *)
Definition identity_local : IdentityVerdict := {| idOk := true; idReason := VUndef; surfaceError := false |}.
Definition identity_reply (verdict : result val) : IdentityVerdict :=
  match verdict with
  | Ok v =>
      if is_true (oget v "ok") then {| idOk := true; idReason := oget v "reason"; surfaceError := false |}
      else {| idOk := false; idReason := or_else (oget v "reason") (VStr "identity/attestation check denied");
              surfaceError := false |}
  | Throw e =>
      {| idOk := false;
         idReason := VStr ("identity/attestation surface error (fail-closed): "
           +:+ error_message e);
         surfaceError := true |}
  end.

Example parse_subjects :
  map parseCodePrSubject [VStr " org/repo#12 "; VStr "org#12"; VStr "org/re po#1"; VStr "org/repo#1#2"; VNull]
  = [Some {| repo := "org/repo"; prNumber := num_of_Z 12 |}; None; None; None; None].
Proof. vm_compute. reflexivity. Qed.

Lemma github_merge_success_is_accounted_witness : truthy (VStr "abc") = true.
Proof.
  apply (github_merge_success_is_accounted
    (fun _ _ _ _ => Replied (VObj [("ran", VBool true); ("payload", VObj [("merged", VBool true)])]))
    (fun _ => "") "squash" (VStr "org/repo#12") (VStr "abc") VUndef).
  vm_compute. reflexivity.
Defined.
