(* ===== verification/Executor.v ===== *)
(** The leased executor (src/src/finalization/executor.mjs): decide under the
    subject's lease and act through injected surfaces. The world is the shared
    store (ledger and leases) and the trace of the calls made; an injected
    surface is a function that answers and may change the store in the meantime,
    as other actors do while it is awaited. *)

From Stdlib Require Import ZArith Lia Ascii SpecFloat.
From stdpp Require Import base list strings gmap.
From S2P Require Import Prelude JsNum JsValue JsDate LedgerEvents LedgerFold Eligibility.
From S2P Require Import LedgerStore LeaseStore Surfaces.

Inductive Call :=
| CIdentity (rev : val)
| CMerge (rev : val)
| CDispatch (rev : val) (round : Z) (final : bool) (idempotencyKey : string)
| CClose (rev reason : val)
| CAppend (event : obj)
| CAcquire (leaseId : string)
| CRelease (leaseId : string).

Record Store := { ledger : Table; leases : Leases }.
Record World := { store : Store; trace : list Call }.

(** An awaited external call: its reply, and the store when it settles. *)
Definition External : Type := Store -> result val * Store.

(** Computations of the executor: they may throw, and the world persists. *)
Definition M (A : Type) : Type := World -> result A * World.
Definition ret {A} (a : A) : M A := fun w => (Ok a, w).
Definition throw {A} (e : jserror) : M A := fun w => (Throw e, w).
Definition mbind_ {A B} (m : M A) (f : A -> M B) : M B :=
  fun w => match m w with (Ok a, w') => f a w' | (Throw e, w') => (Throw e, w') end.
Definition lift {A} (r : result A) : M A := fun w => (r, w).
(** [try { m } finally { f }]. *)
Definition finally {A B} (m : M A) (f : M B) : M A :=
  fun w => let '(r, w1) := m w in
           match f w1 with (Ok _, w2) => (r, w2) | (Throw e, w2) => (Throw e, w2) end.
Notation "'let!' x ':=' m 'in' k" := (mbind_ m (fun x => k))
  (at level 10, x name, m at level 100, k at level 200) : js_scope.

Inductive Status := executed | skipped | deferred | failed.
Inductive Action :=
| merge_action | escalate_action | none_action | wait_action | dispatch_action | close_action | halt_action
| redecide_action | gated_off_action | lease_contended_action.

#[export] Instance Status_eq_dec : EqDecision Status.
Proof. solve_decision. Defined.
#[export] Instance Action_eq_dec : EqDecision Action.
Proof. solve_decision. Defined.

Record Outcome := {
  outSubject : SubjectKey;
  outDecision : DecisionKind;
  status : Status;
  action : Action;
  outObservedAt : string;
  outReason : val;
  outDetail : val;
  killSwitch : bool
}.

Definition DEFAULT_LEASE_TTL_MS : Z := 5 * 60 * 1000.

Record Config := {
  policy : val;
  enabled : bool;
  mergeSurface : option MergeSurface;
  identitySurface : option (val -> External);
  laneRouting : option (val -> External);
  remediationSurface : option (val -> Z -> bool -> string -> External);
  closeSurface : option (val -> val -> External);
  mergeMethod : string;
  holderId : string;
  leaseTtlMs : num;
  generateLeaseId : string
}.

Section Executor.
Context `{HostDate} `{SqliteDate} `{SqliteText}.
Context (cfg : Config).

Definition isoAdd (iso : string) (ms : num) : result string :=
  match date_parse iso with
  | Some base => date_to_iso (num_add (num_of_Z base) ms)
  | None => Throw (TypeError "executor requires a valid observedAt ISO timestamp")
  end.

Definition mk_outcome (key : SubjectKey) (d : DecisionKind) (st : Status) (a : Action) (at_ : string)
    (why detail : val) (kill : bool) : Outcome :=
  {| outSubject := key; outDecision := d; status := st; action := a; outObservedAt := at_;
     outReason := coalesce why VUndef; outDetail := coalesce detail VUndef; killSwitch := kill |}.

Definition killSwitchOn : bool := is_true (oget (policy cfg) "autonomousExecutionDisabled").

Definition log (c : Call) : M unit := fun w => (Ok tt, {| store := store w; trace := trace w ++ [c] |}).

(** [ledgerStore.read] and [ledgerStore.append]. *)
Definition read_ledger (subject : val) : M (list obj) := fun w => (read (ledger (store w)) subject, w).

Definition append_event (made : result obj) : M unit :=
  let! event := lift made in
  fun w => match append (ledger (store w)) event with
           | Ok (_, t') => (Ok tt, {| store := {| ledger := t'; leases := leases (store w) |};
                                      trace := trace w ++ [CAppend event] |})
           | Throw e => (Throw e, w)
           end.

(** [await surface(...)]: the call is recorded, the store is what others left. *)
Definition call (c : Call) (x : External) : M (result val) :=
  fun w => let '(r, s') := x (store w) in (Ok r, {| store := s'; trace := trace w ++ [c] |}).

Definition mark (make : val -> obj -> result obj) (subject : val) (at_ : string) (why : val) : M unit :=
  append_event (make subject [("at", VStr at_); ("reason", why)]).

Definition is_escalated (t : option Terminal) : bool := match t with Some (TEscalated _ _) => true | _ => false end.
Definition is_halted (t : option Terminal) : bool := match t with Some (THalted _ _) => true | _ => false end.
Definition is_closed (t : option Terminal) : bool := match t with Some (TClosed _ _) => true | _ => false end.

Definition recordKillSwitchEscalation (subject : val) (key : SubjectKey) (d : EligibilityDecision)
    (state : LedgerState) (at_ : string) : M Outcome :=
  let why := VStr ("kill switch: " +:+ kind_name (kind d) +:+ " intercepted (autonomous execution disabled)") in
  let! _ := (if is_escalated (terminal state) then ret tt else mark escalated subject at_ why) in
  ret (mk_outcome key (kind d) skipped escalate_action at_ why VUndef true).

(** [checkIdentityAttestation]. *)
Definition check_identity (rev : val) : M IdentityVerdict :=
  match identitySurface cfg with
  | None => ret identity_local
  | Some check => let! r := call (CIdentity rev) (check rev) in ret (identity_reply r)
  end.

Definition mergeSurfaceName (result : val) (surface : MergeSurface) : val :=
  or_else (oget result "via") (or_else (surface_name surface) (VStr "merge-surface")).

Definition no_surface_reason : val := VStr "no merge surface available (fail-closed)".

Definition error_detail (e : jserror) : val :=
  VStr (error_message e).

(** The merge reply: what follows [laneRouting.run] settling with a value. *)
Definition after_merge (subject : val) (key : SubjectKey) (d : EligibilityDecision) (rev : val)
    (surface : MergeSurface) (at_ : string) (result : val) : M Outcome :=
  let out := mk_outcome key (kind d) in
  if is_true (oget result "queued") then
    ret (out deferred wait_action at_ (or_else (oget result "reason") (VStr "queue-handoff-acknowledged")) VUndef false)
  else if negb (truthy (oget result "ok")) then
    if is_str (oget result "reason") "adapter-unavailable" then
      let! _ := mark escalated subject at_ no_surface_reason in
      ret (out skipped escalate_action at_ no_surface_reason (oget result "detail") false)
    else ret (out failed merge_action at_ (or_else (oget result "reason") (VStr "merge failed"))
                (oget result "detail") false)
  else
    let! _ := append_event (finalized subject
      [("at", VStr at_); ("revisionRef", rev); ("method", VStr (mergeMethod cfg));
       ("sourceRef", mergeSurfaceName result surface)]) in
    ret (out executed merge_action at_ VUndef VUndef false).

Definition run_finalize (subject : val) (key : SubjectKey) (d : EligibilityDecision) (state : LedgerState)
    (rev : val) (at_ : string) : M Outcome :=
  let out := mk_outcome key (kind d) in
  if killSwitchOn then recordKillSwitchEscalation subject key d state at_
  else
    let! idv := check_identity rev in
    if negb (idOk idv) then
      if surfaceError idv then ret (out failed merge_action at_ (idReason idv) VUndef false)
      else
        let! _ := mark escalated subject at_ (idReason idv) in
        ret (out skipped escalate_action at_ (idReason idv) VUndef false)
    else
      match mergeSurface cfg with
      | None =>
          let! _ := mark escalated subject at_ no_surface_reason in
          ret (out failed merge_action at_ no_surface_reason VUndef false)
      | Some surface =>
          match laneRouting cfg with
          | None => after_merge subject key d rev surface at_
                      (VObj [("ok", VBool false); ("reason", VStr "lane-routing-adapter-unavailable")])
          | Some run =>
              let! r := call (CMerge rev) (run rev) in
              match r with
              | Ok result => after_merge subject key d rev surface at_ result
              | Throw e => ret (out failed merge_action at_ (VStr "merge surface threw") (error_detail e) false)
              end
          end
      end.

Definition decision_round (d : EligibilityDecision) : Z :=
  match round d with Some r => Z.of_nat r | None => 1 end.
Definition decision_final (d : EligibilityDecision) : bool :=
  match final d with Some b => b | None => false end.

Definition remediate_key (rev : val) (round : Z) (final : bool) : string :=
  "remediate:" +:+ to_str rev +:+ ":" +:+ num_to_string (num_of_Z round) +:+ (if final then ":final" else "").

Definition already_dispatched (state : LedgerState) (rev : val) (round : Z) : bool :=
  some_b (fun x => strict_eq (dRevisionRef x) rev && strict_eq (dRound x) (VInt round)) (dispatched state).

Definition run_remediate (subject : val) (key : SubjectKey) (d : EligibilityDecision) (state : LedgerState)
    (rev : val) (at_ : string) : M Outcome :=
  let out := mk_outcome key (kind d) in
  let round := decision_round d in
  let ikey := remediate_key rev round (decision_final d) in
  if already_dispatched state rev round then
    ret (out skipped dispatch_action at_ (VStr "round already dispatched") VUndef false)
  else if killSwitchOn then recordKillSwitchEscalation subject key d state at_
  else
    let! sent :=
      match remediationSurface cfg with
      | None => ret (Ok VUndef)
      | Some dispatch => call (CDispatch rev round (decision_final d) ikey)
                           (dispatch rev round (decision_final d) ikey)
      end in
    match sent with
    | Throw e => ret (out failed dispatch_action at_ (VStr "remediation surface threw") (error_detail e) false)
    | Ok _ =>
        let! _ := append_event (remediationDispatched subject
          [("at", VStr at_); ("revisionRef", rev); ("round", VInt round); ("idempotencyKey", VStr ikey);
           ("stageId", stageId d); ("final", VBool (decision_final d))]) in
        ret (out executed dispatch_action at_ VUndef VUndef false)
    end.

Definition run_close (subject : val) (key : SubjectKey) (d : EligibilityDecision) (state : LedgerState)
    (rev : val) (at_ : string) : M Outcome :=
  let out := mk_outcome key (kind d) in
  if killSwitchOn then recordKillSwitchEscalation subject key d state at_
  else
    let! sent :=
      match closeSurface cfg with
      | None => ret (Ok VUndef)
      | Some close_ => call (CClose rev (reason d)) (close_ rev (reason d))
      end in
    match sent with
    | Throw e => ret (out failed close_action at_ (VStr "close surface threw") (error_detail e) false)
    | Ok _ =>
        let! _ := mark closed subject at_ (or_else (reason d) (VStr "operator close")) in
        ret (out executed close_action at_ VUndef VUndef false)
    end.

Definition applyDecision (subject : val) (d : EligibilityDecision) (state : LedgerState) (at_ : string)
  : M Outcome :=
  let! key := lift (resolveSubjectKey subject) in
  let out := mk_outcome key (kind d) in
  let rev := or_else (revisionRef d) (or_else (currentRevision state) (VStr "")) in
  let is_finalized := match finalizedMark state with Some _ => true | None => false end in
  if is_finalized || is_closed (terminal state) then
    ret (out skipped none_action at_ (VStr (if is_finalized then "already finalized" else "already closed")) VUndef false)
  else
    match kind d with
    | finalize_now => run_finalize subject key d state rev at_
    | remediate => run_remediate subject key d state rev at_
    | close => run_close subject key d state rev at_
    | wait =>
        ret (out deferred none_action at_ (reason d)
          (match deadline d with Some s => VStr s | None => VUndef end) false)
    | halt =>
        let! _ := (if is_halted (terminal state) then ret tt
                   else mark halted subject at_ (or_else (reason d) (VStr "halt"))) in
        ret (out skipped halt_action at_ (reason d) VUndef false)
    | escalate =>
        let! _ := (if is_escalated (terminal state) then ret tt
                   else mark escalated subject at_ (or_else (reason d) (VStr "escalate"))) in
        ret (out skipped escalate_action at_ (reason d) VUndef
          (includes "kill switch" (to_lower (to_str (or_else (reason d) (VStr ""))))))
    end.

(** The re-fold guard, then the decision. *)
Definition execute (d : EligibilityDecision) (subject : val) (at_ : string) (basis : option nat)
    (foldedState : option LedgerState) : M Outcome :=
  let! key := lift (resolveSubjectKey subject) in
  let! state := match foldedState with
                | Some s => ret s
                | None => let! es := read_ledger subject in ret (fold es)
                end in
  let ledgerGrew := match basis with Some n => negb (Nat.eqb (eventCount state) n) | None => false end in
  let revMoved := truthy (revisionRef d) && truthy (currentRevision state)
                  && negb (strict_eq (revisionRef d) (currentRevision state)) in
  if ledgerGrew || revMoved then
    ret (mk_outcome key (kind d) deferred redecide_action at_
      (VStr (if revMoved
             then "world moved: subject advanced " +:+ to_str (revisionRef d) +:+ " "
                  +:+ String (ascii_of_N 226) (String (ascii_of_N 134) (String (ascii_of_N 146) " "))
                  +:+ to_str (currentRevision state) +:+ "; decision discarded"
             else "world moved: ledger advanced since decision; decision discarded")) VUndef false)
  else applyDecision subject d state at_.

Definition acquire_lease (subject : val) (lid : string) (rev : val) (now dl : string) : M Acquisition :=
  fun w => match acquire (leases (store w)) subject (holderId cfg) lid rev now dl with
           | Ok (a, db) => (Ok a, {| store := {| ledger := ledger (store w); leases := db |};
                                     trace := trace w ++ [CAcquire lid] |})
           | Throw e => (Throw e, w)
           end.

Definition release_lease_ (subject : val) (lid : string) : M bool :=
  fun w => match release (leases (store w)) subject lid with
           | Ok (b, db) => (Ok b, {| store := {| ledger := ledger (store w); leases := db |};
                                     trace := trace w ++ [CRelease lid] |})
           | Throw e => (Throw e, w)
           end.

(** What runs under the lease. *)
Definition leased_body (subject : val) (at_ : string) : M Outcome :=
  let! leasedEvents := read_ledger subject in
  let leasedState := fold leasedEvents in
  let! d := lift (eligible leasedState (policy cfg) (VStr at_)) in
  execute d subject at_ (Some (eventCount leasedState)) (Some leasedState).

Definition tick (subject : val) (at_ leaseId : string) : M Outcome :=
  let! key := lift (resolveSubjectKey subject) in
  if String.eqb at_ "" then throw (TypeError "executor tick requires an observedAt timestamp")
  else if negb (enabled cfg) then
    ret (mk_outcome key wait skipped gated_off_action at_
      (VStr "finalization executor gated off (promotion pending)") VUndef false)
  else
    let myLeaseId := if String.eqb leaseId "" then generateLeaseId cfg else leaseId in
    let! dl := lift (isoAdd at_ (leaseTtlMs cfg)) in
    let! events := read_ledger subject in
    let currentRev := currentRevision (fold events) in
    let! acq := acquire_lease subject myLeaseId currentRev at_ dl in
    if negb (acquired acq) then
      ret (mk_outcome key wait deferred lease_contended_action at_
        (VStr ("subject leased by " +:+ match existing acq with Some r => holder r | None => "another executor" end))
        VUndef false)
    else finally (leased_body subject at_) (release_lease_ subject myLeaseId).

(** ** Reasoning about traces

    [emits P m]: every run of [m] extends the trace, by calls in [P] only. *)

Definition emits (P : Call -> Prop) {A} (m : M A) : Prop :=
  forall w r w', m w = (r, w') -> exists new, trace w' = trace w ++ new /\ Forall P new.

Lemma emits_ret P {A} (a : A) : emits P (ret a).
Proof. intros w r w' [= _ <-]. exists []. by rewrite app_nil_r. Qed.

Lemma emits_lift P {A} (x : result A) : emits P (lift x).
Proof. intros w r w' [= _ <-]. exists []. by rewrite app_nil_r. Qed.

Lemma emits_throw P {A} e : emits P (@throw A e).
Proof. intros w r w' [= _ <-]. exists []. by rewrite app_nil_r. Qed.

Lemma emits_bind P {A B} (m : M A) (f : A -> M B) :
  emits P m -> (forall a, emits P (f a)) -> emits P (mbind_ m f).
Proof.
  intros Hm Hf w r w'. unfold mbind_. destruct (m w) as [[a|e] w1] eqn:E.
  - intros Hk. destruct (Hm _ _ _ E) as (n1 & E1 & F1). destruct (Hf a _ _ _ Hk) as (n2 & E2 & F2).
    exists (n1 ++ n2). rewrite E2, E1, app_assoc. split; [done | by apply Forall_app].
  - intros [= _ <-]. by apply (Hm _ _ _ E).
Qed.

Lemma emits_read P subject : emits P (read_ledger subject).
Proof. intros w r w' [= _ <-]. exists []. by rewrite app_nil_r. Qed.

Lemma emits_call (P : Call -> Prop) c x : P c -> emits P (call c x).
Proof.
  intros Hc w r w'. unfold call. destruct (x (store w)). intros [= _ <-]. exists [c]. simpl. auto.
Qed.

Lemma emits_append (P : Call -> Prop) made :
  (forall e, made = Ok e -> P (CAppend e)) -> emits P (append_event made).
Proof.
  intros Hp. unfold append_event. intros w r w'. unfold mbind_, lift. destruct made as [e|err].
  - destruct (append (ledger (store w)) e) as [[x t]|err]; intros [= _ <-].
    + exists [CAppend e]. simpl. split; [done|]. constructor; [by apply Hp | constructor].
    + exists []. by rewrite app_nil_r.
  - intros [= _ <-]. exists []. by rewrite app_nil_r.
Qed.

Lemma emits_weaken (P Q : Call -> Prop) {A} (m : M A) : (forall c, P c -> Q c) -> emits P m -> emits Q m.
Proof.
  intros HPQ Hm w r w' E. destruct (Hm _ _ _ E) as (n & En & F). exists n. split; [done|].
  eapply Forall_impl; eauto.
Qed.

Lemma made_type type subject fields e :
  makeFinalizationEvent type subject fields = Ok e -> event_is type e = true.
Proof. intros (Ht & _)%make_get. unfold event_is. by apply is_str_eq. Qed.

Create HintDb emits.
Hint Resolve emits_ret emits_lift emits_throw emits_read emits_bind emits_call : emits.

(** Decompose a computation along its binds and branches. *)
Ltac emit_step :=
  first [ solve [auto 2 with nocore] | apply emits_ret | apply emits_lift | apply emits_throw | apply emits_read
        | apply emits_append; intros ? ?
        | apply emits_call
        | apply emits_bind; [|intros ?]
        | match goal with
          | |- emits _ (match ?x with _ => _ end) => destruct x eqn:?
          | |- emits _ (if ?x then _ else _) => destruct x eqn:?
          end ].
Ltac emit_all := repeat (emit_step; cbv zeta).

(** ** The kill switch *)

Definition quiet (c : Call) : Prop :=
  match c with
  | CIdentity _ | CMerge _ | CDispatch _ _ _ _ | CClose _ _ => False
  | CAppend e => event_is "escalated" e = true \/ event_is "halted" e = true
  | CAcquire _ | CRelease _ => True
  end.

Lemma quiet_escalated subject fields e : escalated subject fields = Ok e -> quiet (CAppend e).
Proof. intros H'%made_type. by left. Qed.
Lemma quiet_halted subject fields e : halted subject fields = Ok e -> quiet (CAppend e).
Proof. intros H'%made_type. by right. Qed.

Lemma kill_escalation_quiet subject key d state at_ :
  emits quiet (recordKillSwitchEscalation subject key d state at_).
Proof. unfold recordKillSwitchEscalation, mark. emit_all. by eapply quiet_escalated. Qed.

Lemma apply_quiet subject d state at_ :
  killSwitchOn = true -> emits quiet (applyDecision subject d state at_).
Proof.
  intros Hk. unfold applyDecision, run_finalize, run_remediate, run_close, mark. rewrite Hk.
  emit_all; first [apply kill_escalation_quiet | by eapply quiet_escalated | by eapply quiet_halted].
Qed.

Lemma execute_emits P d subject at_ basis folded :
  (forall state, emits P (applyDecision subject d state at_)) -> emits P (execute d subject at_ basis folded).
Proof. intros Ha. unfold execute. emit_all. Qed.

Lemma leased_emits P subject at_ :
  (forall d state, emits P (applyDecision subject d state at_)) -> emits P (leased_body subject at_).
Proof. intros Ha. unfold leased_body. emit_all; by apply execute_emits. Qed.

(** ** The shape of a tick *)

Definition inner (c : Call) : Prop := match c with CAcquire _ | CRelease _ => False | _ => True end.

Lemma apply_inner subject d state at_ : emits inner (applyDecision subject d state at_).
Proof.
  unfold applyDecision, run_finalize, run_remediate, run_close, recordKillSwitchEscalation,
    check_identity, after_merge, mark.
  emit_all; exact I.
Qed.

(** What a tick does to the world: nothing; one refused acquisition; or the
    leased body between the acquisition of a lease and its release. *)
Lemma tick_cases subject at_ lid w r w' :
  tick subject at_ lid w = (r, w') ->
  (w' = w /\ forall o, r = Ok o -> status o = skipped)
  \/ (exists id, trace w' = trace w ++ [CAcquire id] /\ store w' = store w
      /\ exists o, r = Ok o /\ status o = deferred /\ action o = lease_contended_action)
  \/ (exists id key acq w1 r2 w2, enabled cfg = true /\ resolveSubjectKey subject = Ok key
      /\ acquired acq = true
      /\ acquire_lease subject id (currentRevision (fold (match read (ledger (store w)) subject with
                                                          | Ok es => es | Throw _ => [] end)))
           at_ (match isoAdd at_ (leaseTtlMs cfg) with Ok dl => dl | Throw _ => "" end) w = (Ok acq, w1)
      /\ trace w1 = trace w ++ [CAcquire id] /\ ledger (store w1) = ledger (store w)
      /\ leased_body subject at_ w1 = (r2, w2) /\ r = r2
      /\ release_lease_ subject id w2 = (Ok (match release (leases (store w2)) subject id with
                                             | Ok (b, _) => b | Throw _ => false end), w')).
Proof.
  unfold tick. unfold mbind_ at 1, lift at 1.
  destruct (resolveSubjectKey subject) as [key|e] eqn:Ekey; [|intros [= <- <-]; by left].
  destruct (String.eqb at_ ""); [intros [= <- <-]; by left|].
  destruct (enabled cfg) eqn:Een; simpl; [|intros [= <- <-]; left; split; [done | by intros o [= <-]]].
  set (id := if String.eqb lid "" then generateLeaseId cfg else lid).
  unfold mbind_ at 1, lift at 1. destruct (isoAdd at_ (leaseTtlMs cfg)) as [dl|e] eqn:Edl;
    [|intros [= <- <-]; by left].
  unfold mbind_ at 1, read_ledger at 1. destruct (read (ledger (store w)) subject) as [es|e] eqn:Er;
    [|intros [= <- <-]; by left].
  unfold mbind_ at 1. destruct (acquire_lease subject id (currentRevision (fold es)) at_ dl w) as [[acq|e] w1] eqn:Ea.
  2: { intros [= <- <-]. unfold acquire_lease in Ea.
       destruct (acquire _ _ _ _ _ _ _) as [[a db]|]; [done|]. injection Ea as _ <-. by left. }
  pose proof Ea as Ea'. unfold acquire_lease in Ea.
  destruct (acquire (leases (store w)) subject (holderId cfg) id _ at_ dl) as [[a db]|] eqn:Eacq; [|done].
  injection Ea as -> <-. destruct (acquired acq) eqn:Eok; simpl.
  - unfold finally. destruct (leased_body subject at_ _) as [r2 w2] eqn:Eb.
    unfold release_lease_ at 1. destruct (release (leases (store w2)) subject id) as [[b db2]|e] eqn:Erel.
    + intros [= <- <-]. right; right. exists id, key, acq. do 3 eexists.
      split; [done|]. split; [done|]. split; [done|]. split; [exact Ea'|]. split; [done|]. split; [done|].
      split; [exact Eb|]. split; [done|]. unfold release_lease_. by rewrite Erel.
    + exfalso. unfold release in Erel. rewrite Ekey in Erel. simpl in Erel.
      destruct (release_lease _ _ _); done.
  - intros [= <- <-]. right; left. exists id. simpl. split; [done|]. split; [|eauto].
    apply acquire_inv in Eacq as (k2 & x & _ & _ & _ & _ & [(E1 & _)|(_ & _ & -> & _)]); [congruence|].
    destruct w as [[]]. done.
Qed.

Lemma release_not_held db subject id b db' key :
  release db subject id = Ok (b, db') -> resolveSubjectKey subject = Ok key ->
  forall row, db' !! pk key = Some row -> lease_id row <> id.
Proof.
  unfold release. intros Hr Hk. rewrite Hk in Hr. simpl in Hr. unfold release_lease in Hr.
  destruct (db !! pk key) as [old|] eqn:Eo.
  - destruct (String.eqb_spec (lease_id old) id); injection Hr as <- <-; intros row.
    + by rewrite lookup_delete_eq.
    + rewrite Eo. by intros [= <-].
  - injection Hr as <- <-. intros row. by rewrite Eo.
Qed.

(** Lease discipline: a disabled executor changes nothing; otherwise every
    append and every call of a surface happens between the acquisition of the
    subject's lease and its release, which runs on every path, errors included,
    and after which the lease is no longer held; a contended subject is left
    alone. *)
Theorem tick_lease_discipline (subject : val) (at_ lid : string) (w w' : World) (r : result Outcome) :
  tick subject at_ lid w = (r, w') ->
  (enabled cfg = false -> w' = w)
  /\ (w' = w
      \/ (exists id, trace w' = trace w ++ [CAcquire id] /\ store w' = store w)
      \/ (exists id mid key, trace w' = trace w ++ [CAcquire id] ++ mid ++ [CRelease id] /\ Forall inner mid
          /\ resolveSubjectKey subject = Ok key
          /\ forall row, leases (store w') !! pk key = Some row -> lease_id row <> id)).
Proof.
  intros Ht. destruct (tick_cases _ _ _ _ _ _ Ht) as [[-> _]|[(id & E1 & E2 & o & -> & Hs & Ha)|Hc]]; [by auto| |].
  - split; [|right; left; eauto]. intros Hd. unfold tick, mbind_, lift in Ht.
    destruct (resolveSubjectKey subject); [|by injection Ht as _ <-].
    destruct (String.eqb at_ ""); [by injection Ht as _ <-|]. rewrite Hd in Ht. by injection Ht as _ <-.
  - destruct Hc as (id & key & acq & w1 & r2 & w2 & Hen & Hk & _ & _ & Et1 & _ & Hb & _ & Hrel).
    split; [congruence|]. right; right.
    destruct (leased_emits inner subject at_ (apply_inner subject) _ _ _ Hb) as (mid & Et2 & Hmid)
      || destruct (leased_emits inner subject at_ (fun d s => apply_inner subject d s at_) _ _ _ Hb)
           as (mid & Et2 & Hmid).
    exists id, mid, key. unfold release_lease_ in Hrel.
    destruct (release (leases (store w2)) subject id) as [[b db]|] eqn:Er; [|done]. injection Hrel as <-. simpl.
    split; [by rewrite Et2, Et1, <- !app_assoc|]. split; [done|]. split; [done|].
    by eapply release_not_held.
Qed.

(** C31. The kill switch at the mutation boundary: with autonomous execution
    disabled, no tick calls the identity, merge, remediation or close surface,
    and the only events it can append are escalations and halts. *)
Theorem tick_kill_switch (subject : val) (at_ lid : string) (w w' : World) (r : result Outcome) :
  killSwitchOn = true -> tick subject at_ lid w = (r, w') ->
  exists new, trace w' = trace w ++ new /\ Forall quiet new.
Proof.
  intros Hk Ht. destruct (tick_cases _ _ _ _ _ _ Ht) as [[-> _]|[(id & E1 & _)|Hc]].
  - exists []. by rewrite app_nil_r.
  - exists [CAcquire id]. split; [done|]. repeat constructor.
  - destruct Hc as (id & key & acq & w1 & r2 & w2 & _ & _ & _ & _ & Et1 & _ & Hb & _ & Hrel).
    destruct (leased_emits quiet subject at_ (fun d s => apply_quiet subject d s at_ Hk) _ _ _ Hb) as (mid & Et2 & Hmid).
    exists (CAcquire id :: mid ++ [CRelease id]). unfold release_lease_ in Hrel.
    destruct (release (leases (store w2)) subject id) as [[b db]|]; [|done]. injection Hrel as <-. simpl.
    split; [by rewrite Et2, Et1, <- !app_assoc|].
    constructor; [exact I|]. apply Forall_app. split; [done | repeat constructor].
Qed.

(** ** Merges rest on the ledger *)

Lemma terminal_finalized_mark es a b c :
  terminal (fold es) = Some (TFinalized a b c) -> finalizedMark (fold es) <> None.
Proof.
  induction es as [|e es IH] using rev_ind; [done|].
  rewrite fold_snoc, apply_terminal, apply_finalizedMark. unfold step_terminal.
  destruct (event_is "finalized" e); [done|].
  destruct (event_is "operator_override" e); [destruct (is_resumable _ && _); [done | exact IH]|].
  destruct (event_is "closed" e); [done|]. destruct (event_is "escalated" e); [done|].
  destruct (event_is "halted" e); [done | exact IH].
Qed.

Lemma patience_rev b anchor ms x y d :
  patience b anchor ms x y = Ok d -> revisionRef d = coalesce (bRev b) (VStr "").
Proof. unfold patience. intros (dl & _ & [= <-])%rbind_Ok. by case_match. Qed.

Lemma gate_rev pol b d :
  revisionRef d = coalesce (bRev b) (VStr "") -> revisionRef (gate pol b d) = coalesce (bRev b) (VStr "").
Proof. unfold gate. by case_match. Qed.

Lemma remediation_rev pol b st rv c vs disp green d :
  remediationDecision pol b st rv c vs disp green = Ok d -> revisionRef d = coalesce (bRev b) (VStr "").
Proof.
  unfold remediationDecision. cbv zeta.
  destruct (negb (anyStageExhausted _ _)); [intros [= <-]; by apply gate_rev|].
  destruct (negb _); [by intros [= <-]|].
  destruct (finalDispatchForRev st rv); [|intros [= <-]; by apply gate_rev].
  destruct (conclusionForDispatch _ _ _); [|apply patience_rev].
  destruct (is_str _ _); intros [= <-]; [by apply gate_rev | done].
Qed.

Lemma reviewed_rev pol b st ov rv rs anchor c d :
  reviewedDecision pol b st ov rv rs anchor c = Ok d -> revisionRef d = coalesce (bRev b) (VStr "").
Proof.
  unfold reviewedDecision. cbv zeta.
  destruct (aggregateDisposition _); try apply patience_rev;
    (destruct (consumeAttestations pol && _); [apply patience_rev|];
     destruct (negb (needsRemediation _ _ _ _)); [intros [= <-]; by apply gate_rev | apply remediation_rev]).
Qed.

(** A live finalize decision names the current revision of the ledger. *)
Lemma finalize_names_revision pol st at_ d :
  eligible_with pol st at_ = Ok d -> terminal st = None -> kind d = finalize_now ->
  revisionRef d = currentRevision st /\ truthy (currentRevision st) = true.
Proof.
  intros Hd Ht Hk. pose proof (eligible_mutating _ _ _ _ Hd Ht) as Hm. rewrite Hk in Hm.
  destruct (Hm eq_refl) as (_ & [[[=] _]|(_ & _ & Hrev & b & c & anchor & Hb & _ & Hr)]).
  split; [|done]. rewrite (reviewed_rev _ _ _ _ _ _ _ _ _ Hr), Hb. by destruct (currentRevision st).
Qed.

Lemma live_finalize_terminal es pol at_ d :
  eligible_with pol (fold es) at_ = Ok d -> kind d = finalize_now -> finalizedMark (fold es) = None ->
  terminal (fold es) = None.
Proof.
  intros Hd Hk Hf. destruct (terminal (fold es)) as [t|] eqn:Et; [|done]. exfalso.
  unfold eligible_with in Hd. rewrite Et in Hd. injection Hd as <-. destruct t; simpl in Hk; try done.
  by apply terminal_finalized_mark in Et.
Qed.

Definition merge_from (d : EligibilityDecision) (state : LedgerState) (c : Call) : Prop :=
  match c with
  | CMerge rev => kind d = finalize_now /\ finalizedMark state = None /\ killSwitchOn = false
                  /\ rev = or_else (revisionRef d) (or_else (currentRevision state) (VStr ""))
  | _ => True
  end.

Lemma apply_merge_from subject d state at_ : emits (merge_from d state) (applyDecision subject d state at_).
Proof.
  unfold applyDecision, run_finalize, run_remediate, run_close, recordKillSwitchEscalation,
    check_identity, after_merge, mark.
  emit_all; try exact I. simpl. destruct (finalizedMark state); [done | auto].
Qed.

Lemma app_self_nil {A} (l n : list A) : l = l ++ n -> n = [].
Proof. intros H'. rewrite <- (app_nil_r l) in H' at 1. by apply app_inv_head in H'. Qed.

(** The ground of every merge call made under the lease. *)
Lemma leased_merge_ground subject at_ w r w' new rev :
  leased_body subject at_ w = (r, w') -> trace w' = trace w ++ new -> In (CMerge rev) new ->
  exists es pol, read (ledger (store w)) subject = Ok es /\ normalizePolicy (policy cfg) = Ok pol
    /\ killSwitchOn = false /\ finalizedMark (fold es) = None
    /\ rev = currentRevision (fold es) /\ finalize_ground pol (fold es).
Proof.
  intros Hb Hnew Hin. unfold leased_body, mbind_ at 1, read_ledger in Hb.
  destruct (read (ledger (store w)) subject) as [es|e] eqn:Er;
    [|injection Hb as _ <-; by apply app_self_nil in Hnew as ->].
  unfold mbind_ at 1, lift at 1 in Hb.
  destruct (eligible (fold es) (policy cfg) (VStr at_)) as [d|e] eqn:Eel;
    [|injection Hb as _ <-; by apply app_self_nil in Hnew as ->].
  unfold execute, mbind_ at 1, lift at 1 in Hb.
  destruct (resolveSubjectKey subject); [|injection Hb as _ <-; by apply app_self_nil in Hnew as ->].
  unfold mbind_ at 1, ret at 1 in Hb.
  destruct (negb _ || _) in Hb; [injection Hb as _ <-; by apply app_self_nil in Hnew as ->|].
  destruct (apply_merge_from subject d (fold es) at_ _ _ _ Hb) as (mid & Emid & Hall).
  rewrite Hnew in Emid. apply app_inv_head in Emid as <-.
  rewrite List.Forall_forall in Hall. specialize (Hall _ Hin) as (Hk & Hf & Hks & Hrev).
  destruct (eligible_inv _ _ _ _ Eel) as (pol & Epol & Hel).
  pose proof (live_finalize_terminal _ _ _ _ Hel Hk Hf) as Hterm.
  destruct (finalize_names_revision _ _ _ _ Hel Hterm Hk) as [Hr1 Hr2].
  exists es, pol. do 4 (split; [done|]). split; [|by eapply eligible_finalize_ground].
  rewrite Hrev, Hr1. unfold or_else. by rewrite Hr2.
Qed.

(** C1. A tick asks for a merge only on grounds: with the kill switch off, on a
    ledger with no finalized mark, at the current revision of the ledger it read
    under the lease, and when that ledger gives the evidence a finalize decision
    rests on. *)
Theorem tick_merge_grounded (subject : val) (at_ lid : string) (w w' : World) (r : result Outcome)
    (new : list Call) (rev : val) :
  tick subject at_ lid w = (r, w') -> trace w' = trace w ++ new -> In (CMerge rev) new ->
  exists es pol, read (ledger (store w)) subject = Ok es /\ normalizePolicy (policy cfg) = Ok pol
    /\ killSwitchOn = false /\ finalizedMark (fold es) = None
    /\ rev = currentRevision (fold es) /\ finalize_ground pol (fold es).
Proof.
  intros Ht Hnew Hin. destruct (tick_cases _ _ _ _ _ _ Ht) as [[-> _]|[(id & E1 & _)|Hc]].
  - by apply app_self_nil in Hnew as ->.
  - rewrite E1 in Hnew. apply app_inv_head in Hnew as <-. by destruct Hin as [[=]|[]].
  - destruct Hc as (id & key & acq & w1 & r2 & w2 & _ & _ & _ & _ & Et1 & El & Hb & _ & Hrel).
    rewrite <- El.
    destruct (leased_emits (fun _ => True) subject at_ (fun d st => emits_weaken _ _ _ (fun _ _ => I)
      (apply_merge_from subject d st at_)) _ _ _ Hb) as (mid & Emid & _).
    eapply leased_merge_ground; [exact Hb | exact Emid |].
    unfold release_lease_ in Hrel. destruct (release (leases (store w2)) subject id) as [[b db]|]; [|done].
    injection Hrel as <-. simpl in Hnew. rewrite Emid, Et1, <- !app_assoc in Hnew.
    apply app_inv_head in Hnew as <-.
    simpl in Hin. destruct Hin as [[=]|Hin]. by apply in_app_or in Hin as [Hin|[[=]|[]]].
Qed.

(** ** What an executed merge leaves behind *)

Lemma bind_Ok {A B} (m : M A) (f : A -> M B) w b w' :
  mbind_ m f w = (Ok b, w') -> exists a w1, m w = (Ok a, w1) /\ f a w1 = (Ok b, w').
Proof. unfold mbind_. destruct (m w) as [[a|e] w1]; [eauto | done]. Qed.

Lemma append_event_Ok made w w' u :
  append_event made w = (Ok u, w') ->
  exists e x t', made = Ok e /\ append (ledger (store w)) e = Ok (x, t')
    /\ ledger (store w') = t' /\ trace w' = trace w ++ [CAppend e].
Proof.
  unfold append_event. intros (e & w1 & E1 & E2)%bind_Ok. unfold lift in E1. injection E1 as -> ->.
  destruct (append (ledger (store w1)) e) as [[x t']|] eqn:Ea; [|done]. injection E2 as _ <-.
  exists e, x, t'. done.
Qed.

(** What an executed merge leaves: the merge call, then the finalized event of
    the same revision, appended to the ledger. *)
Definition merged_and_recorded (w w' : World) (rev : val) : Prop :=
  exists pre e x t, trace w' = trace w ++ pre ++ [CMerge rev; CAppend e]
    /\ event_is "finalized" e = true /\ get e "revisionRef" = rev
    /\ append t e = Ok (x, ledger (store w')).

Lemma after_merge_executed subject key d rv surface at_ result w o w' :
  after_merge subject key d rv surface at_ result w = (Ok o, w') -> status o = executed ->
  truthy rv = true ->
  exists e x, trace w' = trace w ++ [CAppend e] /\ event_is "finalized" e = true
    /\ get e "revisionRef" = rv /\ append (ledger (store w)) e = Ok (x, ledger (store w')).
Proof.
  intros Hr Hs Hrv. unfold after_merge in Hr. cbv zeta in Hr.
  destruct (is_true (oget result "queued")); [by injection Hr as <- _|].
  destruct (negb (truthy (oget result "ok"))).
  { destruct (is_str _ _); [apply bind_Ok in Hr as (u & w1 & _ & Hr)|]; by injection Hr as <- _. }
  apply bind_Ok in Hr as (u & w1 & Ha & Hr). injection Hr as _ <-.
  apply append_event_Ok in Ha as (e & x & t' & Em & Ea & <- & Et). exists e, x.
  split; [done|]. split; [by eapply made_type|]. split; [|done].
  destruct (make_get _ _ _ _ Em) as (_ & _ & Hk). rewrite Hk by (vm_compute; tauto).
  change (get _ "revisionRef") with rv. by destruct rv.
Qed.

Lemma call_Ok c x w r w' : call c x w = (Ok r, w') -> trace w' = trace w ++ [c].
Proof. unfold call. destruct (x (store w)). by intros [= _ <-]. Qed.

Lemma run_finalize_executed subject key d state rv at_ w o w' :
  run_finalize subject key d state rv at_ w = (Ok o, w') -> status o = executed -> truthy rv = true ->
  merged_and_recorded w w' rv.
Proof.
  intros Hr Hs Hrv. unfold run_finalize in Hr. cbv zeta in Hr. destruct killSwitchOn.
  { unfold recordKillSwitchEscalation in Hr. apply bind_Ok in Hr as (u & w1 & _ & Hr). by injection Hr as <- _. }
  apply bind_Ok in Hr as (idv & w1 & Hid & Hr). destruct (negb (idOk idv)).
  { destruct (surfaceError idv); [|apply bind_Ok in Hr as (u & w2 & _ & Hr)]; by injection Hr as <- _. }
  destruct (mergeSurface cfg) as [surface|];
    [|apply bind_Ok in Hr as (u & w2 & _ & Hr); by injection Hr as <- _].
  destruct (laneRouting cfg) as [run|]; [|by injection Hr as <- _].
  apply bind_Ok in Hr as (res & w2 & Hcall & Hr). destruct res as [result|err]; [|by injection Hr as <- _].
  destruct (after_merge_executed _ _ _ _ _ _ _ _ _ _ Hr Hs Hrv) as (e & x & Et & He & Hrev & Ha).
  assert (Hpre : exists pre, trace w1 = trace w ++ pre).
  { unfold check_identity in Hid. destruct (identitySurface cfg); [|injection Hid as _ <-; exists []; by rewrite app_nil_r].
    apply bind_Ok in Hid as (y & w3 & Hc & [= _ <-]). apply call_Ok in Hc as ->. eauto. }
  destruct Hpre as (pre & Epre). apply call_Ok in Hcall.
  exists pre, e, x, (ledger (store w2)). split; [|done].
  by rewrite Et, Hcall, Epre, <- !app_assoc.
Qed.

(** Stale decisions are discarded: when the ledger grew since the decision
    was folded, or the subject moved past the decided revision, executing the
    decision changes nothing and asks for a new one. *)
Theorem execute_discards_stale (d : EligibilityDecision) (subject : val) (at_ : string) (n : nat)
    (es : list obj) (w : World) (key : SubjectKey) :
  resolveSubjectKey subject = Ok key -> read (ledger (store w)) subject = Ok es ->
  length es <> n
  \/ (truthy (revisionRef d) = true /\ truthy (currentRevision (fold es)) = true
      /\ strict_eq (revisionRef d) (currentRevision (fold es)) = false) ->
  exists o, execute d subject at_ (Some n) None w = (Ok o, w)
    /\ status o = deferred /\ action o = redecide_action.
Proof.
  intros Hk Hr Hst. unfold execute, mbind_, lift, read_ledger, ret. rewrite Hk, Hr.
  destruct (fold_lists es) as (_ & _ & _ & ->).
  assert (E : negb (Nat.eqb (length es) n) || (truthy (revisionRef d) && truthy (currentRevision (fold es))
      && negb (strict_eq (revisionRef d) (currentRevision (fold es)))) = true).
  { destruct Hst as [Hne|(-> & -> & ->)]; [|by rewrite orb_true_r].
    apply Nat.eqb_neq in Hne as ->. done. }
  rewrite E. eauto.
Qed.

Ltac no_merge Hb :=
  first [ by injection Hb as <- _
        | apply bind_Ok in Hb as (? & ? & _ & Hb); by injection Hb as <- _ ].

(** Only the finalize branch reports an executed merge. *)
Lemma apply_executed_merge subject d state at_ w o w' :
  applyDecision subject d state at_ w = (Ok o, w') -> status o = executed -> action o = merge_action ->
  kind d = finalize_now /\ finalizedMark state = None /\ exists key,
    run_finalize subject key d state (or_else (revisionRef d) (or_else (currentRevision state) (VStr ""))) at_ w
    = (Ok o, w').
Proof.
  intros Hb Hs Ha. unfold applyDecision in Hb. apply bind_Ok in Hb as (key & w1 & Ek & Hb).
  injection Ek as _ <-. cbv zeta in Hb.
  destruct (_ || is_closed _) eqn:Efin in Hb; [by injection Hb as <- _|].
  destruct (kind d) eqn:Ekind; try (exfalso; no_merge Hb).
  - split; [done|]. split; [by destruct (finalizedMark state) | eauto].
  - exfalso. unfold run_remediate, recordKillSwitchEscalation in Hb. cbv zeta in Hb.
    destruct (already_dispatched _ _ _); [no_merge Hb|]. destruct killSwitchOn; [no_merge Hb|].
    apply bind_Ok in Hb as (sent & ? & _ & Hb). destruct sent; no_merge Hb.
  - exfalso. unfold run_close, recordKillSwitchEscalation in Hb. cbv zeta in Hb.
    destruct killSwitchOn; [no_merge Hb|].
    apply bind_Ok in Hb as (sent & ? & _ & Hb). destruct sent; no_merge Hb.
Qed.

Lemma leased_executed_merge subject at_ w o w' :
  leased_body subject at_ w = (Ok o, w') -> status o = executed -> action o = merge_action ->
  exists es, read (ledger (store w)) subject = Ok es /\ merged_and_recorded w w' (currentRevision (fold es)).
Proof.
  intros Hb Hs Ha. unfold leased_body in Hb. apply bind_Ok in Hb as (es & w3 & Er & Hb). unfold read_ledger in Er.
  injection Er as Er <-. apply bind_Ok in Hb as (d & w4 & Ed & Hb). injection Ed as Ed <-.
  unfold execute in Hb. apply bind_Ok in Hb as (k & w5 & Ek & Hb). injection Ek as _ <-.
  apply bind_Ok in Hb as (st & w6 & Est & Hb). injection Est as <- <-. cbv zeta in Hb.
  destruct (negb _ || _) in Hb; [by injection Hb as <- _|].
  destruct (apply_executed_merge _ _ _ _ _ _ _ Hb Hs Ha) as (Ekind & Hfin & key & Hrun).
  destruct (eligible_inv _ _ _ _ Ed) as (pol & _ & Hel).
  pose proof (live_finalize_terminal _ _ _ _ Hel Ekind Hfin) as Hterm.
  destruct (finalize_names_revision _ _ _ _ Hel Hterm Ekind) as [Hr1 Hr2].
  assert (Hrev : or_else (revisionRef d) (or_else (currentRevision (fold es)) (VStr "")) = currentRevision (fold es))
    by (rewrite Hr1; unfold or_else; by rewrite Hr2).
  rewrite Hrev in Hrun. exists es. split; [done|]. by eapply run_finalize_executed.
Qed.

(** An executed merge is on record: when a tick reports one, the trace holds
    the merge call of the current revision directly followed by the append of a
    finalized event naming that revision, and that append is the last change of
    the ledger. *)
Theorem tick_executed_merge_recorded (subject : val) (at_ lid : string) (w w' : World) (o : Outcome) :
  tick subject at_ lid w = (Ok o, w') -> status o = executed -> action o = merge_action ->
  exists es pre e x t id, read (ledger (store w)) subject = Ok es
    /\ trace w' = trace w ++ [CAcquire id] ++ pre
                  ++ [CMerge (currentRevision (fold es)); CAppend e; CRelease id]
    /\ event_is "finalized" e = true /\ get e "revisionRef" = currentRevision (fold es)
    /\ append t e = Ok (x, ledger (store w')).
Proof.
  intros Ht Hs Ha. destruct (tick_cases _ _ _ _ _ _ Ht) as [[_ Hsk]|[(id & _ & _ & o' & [= <-] & E & _)|Hc]].
  { specialize (Hsk o eq_refl). congruence. }
  { congruence. }
  destruct Hc as (id & key & acq & w1 & r2 & w2 & _ & _ & _ & _ & Et1 & El & Hb & <- & Hrel).
  destruct (leased_executed_merge _ _ _ _ _ Hb Hs Ha) as (es & Er & pre & e & x & t & Etr & He & Hge & Happ).
  rewrite El in Er. unfold release_lease_ in Hrel.
  destruct (release (leases (store w2)) subject id) as [[b db]|]; [|done].
  injection Hrel as <-. exists es, pre, e, x, t, id. split; [done|]. split; [|done].
  simpl. by rewrite Etr, Et1, <- !app_assoc.
Qed.
End Executor.

(** ** Concrete inputs *)

Definition ex_append (t : Table) (e : obj) : Table :=
  match @append ex_text t e with Ok (_, t') => t' | Throw _ => t end.
Definition ex_ledger (es : list obj) : Table := fold_left ex_append es empty_table.
Definition ex_world (es : list obj) : World :=
  {| store := {| ledger := ex_ledger es; leases := ∅ |}; trace := [] |}.

(** A lane that answers a merge, and one more writer that appends nothing. *)
Definition ex_merge : val -> External := fun _ s => (Ok (VObj [("ok", VBool true); ("via", VStr "lane")]), s).
Definition ex_config (on kill : bool) : Config := {|
  policy := VObj [("autonomousExecutionDisabled", VBool kill)]; enabled := on;
  mergeSurface := Some {| surface_name := VStr "github-adapter (local fallback)"; has_merge := true |};
  identitySurface := None; laneRouting := Some ex_merge; remediationSurface := None; closeSurface := None;
  mergeMethod := "squash"; holderId := "exec"; leaseTtlMs := num_of_Z DEFAULT_LEASE_TTL_MS;
  generateLeaseId := "lease-1" |}.
Definition ex_now : string := "2026-01-01T00:05:00.000Z".
Definition ex_tick (on kill : bool) (es : list obj) : result Outcome * World :=
  @tick ex_host ex_julian ex_text (ex_config on kill) (VObj ex_key) ex_now "" (ex_world es).

Definition call_name (c : Call) : string :=
  match c with
  | CIdentity _ => "identity" | CMerge r => "merge " +:+ to_str r | CDispatch _ _ _ k => "dispatch " +:+ k
  | CClose _ _ => "close" | CAppend e => "append " +:+ to_str (get e "type")
  | CAcquire l => "acquire " +:+ l | CRelease l => "release " +:+ l
  end.

Example tick_merges :
  map call_name (trace (snd (ex_tick true false ex_clean)))
  = ["acquire lease-1"; "merge abc"; "append finalized"; "release lease-1"].
Proof. vm_compute. reflexivity. Qed.
Example tick_killed :
  map call_name (trace (snd (ex_tick true true ex_clean)))
  = ["acquire lease-1"; "append escalated"; "release lease-1"].
Proof. vm_compute. reflexivity. Qed.
Example tick_remediates :
  map call_name (trace (snd (ex_tick true false ex_comment)))
  = ["acquire lease-1"; "append remediation_dispatched"; "release lease-1"].
Proof. vm_compute. reflexivity. Qed.
Example tick_finalized_skips :
  map call_name (trace (snd (ex_tick true false (ex_clean ++ [ex_mark "finalized" "4"]))))
  = ["acquire lease-1"; "release lease-1"].
Proof. vm_compute. reflexivity. Qed.

Lemma tick_lease_discipline_witness :
  exists id mid, trace (snd (ex_tick true false ex_clean)) = [CAcquire id] ++ mid ++ [CRelease id]
    /\ Forall inner mid.
Proof.
  destruct (@tick_lease_discipline ex_host ex_julian ex_text (ex_config true false) (VObj ex_key) ex_now ""
    (ex_world ex_clean) (snd (ex_tick true false ex_clean)) (fst (ex_tick true false ex_clean))
    (surjective_pairing _)) as [_ [Hw|[(id & Ht & _)|(id & mid & key & Ht & Hm & _)]]].
  - exfalso. apply (f_equal (fun w => length (trace w))) in Hw. vm_compute in Hw. discriminate.
  - exfalso. apply (f_equal length) in Ht. vm_compute in Ht. discriminate.
  - exists id, mid. split; [exact Ht | exact Hm].
Defined.

Lemma tick_kill_switch_witness :
  exists new, trace (snd (ex_tick true true ex_clean)) = [] ++ new /\ Forall quiet new.
Proof.
  apply (@tick_kill_switch ex_host ex_julian ex_text (ex_config true true) (VObj ex_key) ex_now ""
    (ex_world ex_clean) (snd (ex_tick true true ex_clean)) (fst (ex_tick true true ex_clean))).
  - vm_compute. reflexivity.
  - unfold ex_tick. apply surjective_pairing.
Defined.

Lemma tick_merge_grounded_witness :
  exists es, read (ex_ledger ex_clean) (VObj ex_key) = Ok es /\ currentRevision (fold es) = VStr "abc".
Proof.
  destruct (@tick_merge_grounded ex_host ex_julian ex_text (ex_config true false) (VObj ex_key) ex_now ""
    (ex_world ex_clean) (snd (ex_tick true false ex_clean)) (fst (ex_tick true false ex_clean))
    (trace (snd (ex_tick true false ex_clean))) (VStr "abc")
    (surjective_pairing _) eq_refl ltac:(vm_compute; tauto)) as (es & pol & Hr & _ & _ & _ & Hrev & _).
  exists es. split; [exact Hr | symmetry; exact Hrev].
Defined.

Definition ex_outcome (p : result Outcome * World) : Outcome :=
  match fst p with
  | Ok o => o
  | Throw _ => mk_outcome {| domainId := ""; subjectExternalId := "" |} wait failed none_action "" VUndef VUndef false
  end.

Lemma tick_executed_merge_recorded_witness :
  exists es e, read (ex_ledger ex_clean) (VObj ex_key) = Ok es
    /\ get e "revisionRef" = currentRevision (fold es) /\ event_is "finalized" e = true.
Proof.
  destruct (@tick_executed_merge_recorded ex_host ex_julian ex_text (ex_config true false) (VObj ex_key) ex_now ""
    (ex_world ex_clean) (snd (ex_tick true false ex_clean)) (ex_outcome (ex_tick true false ex_clean))
    ltac:(vm_compute; reflexivity) ltac:(vm_compute; reflexivity) ltac:(vm_compute; reflexivity))
    as (es & pre & e & x & t & id & Hr & _ & He & Hrev & _).
  exists es, e. split; [exact Hr|]. split; [exact Hrev | exact He].
Defined.

Lemma execute_discards_stale_witness :
  exists o, @execute ex_text (ex_config true false)
      (makeEligibilityDecision finalize_now VNull (VStr "old") VNull VNull) (VObj ex_key) ex_now (Some 3%nat) None
      (ex_world ex_clean) = (Ok o, ex_world ex_clean)
    /\ status o = deferred /\ action o = redecide_action.
Proof.
  apply (@execute_discards_stale ex_text (ex_config true false)
    (makeEligibilityDecision finalize_now VNull (VStr "old") VNull VNull) (VObj ex_key) ex_now 3
    (match read (ex_ledger ex_clean) (VObj ex_key) with Ok es => es | Throw _ => [] end) (ex_world ex_clean)
    {| domainId := "code-pr"; subjectExternalId := "org/repo#7" |});
    [vm_compute; reflexivity | vm_compute; reflexivity |].
  right. split; [vm_compute; reflexivity|]. split; vm_compute; reflexivity.
Defined.
