(* ===== verification/TrivialFinalizer.v ===== *)
(** The finalization port (src/src/finalization/finalization-port.mjs) and the
    finalizer of the non-code domains (trivial-finalizer.mjs): the decision and
    outcome constructors, the validator of ingested decisions, and the pure
    [evaluate] with the [execute] that may call [markTerminal]. *)

From Stdlib Require Import ZArith Lia Ascii SpecFloat.
From stdpp Require Import base list strings.
From S2P Require Import Prelude JsNum JsValue Pipeline.

(** ** finalization-port.mjs *)

Definition FINALIZATION_DECISION_KINDS : list string :=
  ["finalize-now"; "remediate"; "wait"; "halt"; "escalate"].
Definition FINALIZATION_ACTION_STATUSES : list string := ["executed"; "deferred"; "skipped"; "failed"].

Record Provenance := { subjectRef : val; decisionRevision : string }.

(** ['ref' in subject] is only asked of objects. *)
Definition resolveProvenance (subject : val) : result Provenance :=
  let* ref :=
    (if truthy subject then
       match subject with
       | VObj o => Ok (if truthy (get o "ref") then get o "ref" else subject)
       | VArr _ => Ok subject
       | _ => Throw (TypeError ("Cannot use 'in' operator to search for 'ref' in " +:+ to_str subject))
       end
     else Ok subject) in
  if truthy ref && is_object ref && is_string (oget ref "domainId") then
    Ok {| subjectRef := ref; decisionRevision := to_str (coalesce (oget ref "revisionRef") (VStr "")) |}
  else Throw (TypeError "finalization decision requires a SubjectRef with a domainId").

Definition set_some (o : obj) (k : string) (v : val) : obj := if is_nullish v then o else map_set o k v.

Definition makeDecision (kind : string) (subject : val) (fields : obj) : result obj :=
  if negb (str_in kind FINALIZATION_DECISION_KINDS)
  then Throw (TypeError ("unknown finalization decision kind: " +:+ json_quote kind))
  else if negb (truthy (get fields "observedAt"))
  then Throw (TypeError "finalization decision requires an observedAt timestamp")
  else
    let* p := resolveProvenance subject in
    let decision := [("kind", VStr kind); ("subjectRef", subjectRef p);
                     ("revisionRef", VStr (decisionRevision p)); ("observedAt", get fields "observedAt")] in
    Ok (set_some (set_some (set_some (set_some decision "reason" (get fields "reason"))
          "stageId" (get fields "stageId")) "round" (get fields "round")) "deadline" (get fields "deadline")).

Definition finalizeNow : val -> obj -> result obj := makeDecision "finalize-now".
Definition remediate : val -> obj -> result obj := makeDecision "remediate".
Definition wait : val -> obj -> result obj := makeDecision "wait".
Definition halt : val -> obj -> result obj := makeDecision "halt".
Definition escalate : val -> obj -> result obj := makeDecision "escalate".

Definition makeOutcome (decision : val) (status action : string) (observedAt detail : val) : result obj :=
  if negb (str_in status FINALIZATION_ACTION_STATUSES)
  then Throw (TypeError ("unknown finalization action status: " +:+ json_quote status))
  else if String.eqb action "" then Throw (TypeError "finalization outcome requires a non-empty action")
  else if negb (truthy observedAt)
  then Throw (TypeError "finalization outcome requires an observedAt timestamp")
  else Ok (set_some [("decision", decision); ("status", VStr status); ("action", VStr action);
                     ("observedAt", observedAt)] "detail" detail).

Definition isFinalizationDecision (value : val) : bool :=
  is_object value
  && val_in (oget value "kind") FINALIZATION_DECISION_KINDS
  && (truthy (oget value "subjectRef") && is_string (oget (oget value "subjectRef") "domainId"))
  && is_string (oget value "revisionRef")
  && (is_string (oget value "observedAt") && negb (is_str (oget value "observedAt") "")).

(** ** trivial-finalizer.mjs *)

Definition TRIVIAL_FINALIZER_MODES : list string := ["mark-terminal"; "archive"].

(** The fields of a subject state the finalizer reads: those of the pipeline as
    the contract types them, the others untyped. *)
Record FinalizerSubject := {
  ref_obj : obj;
  isTerminal : val;
  lifecycle : val;
  haltReason : val;
  subjectObservedAt : val;
  completedRemediationRounds : val;
  maxRemediationRounds : val;
  stageStates : list StageState;
  latestSubjectVerdict : option Verdict
}.

Definition pipeline_view (s : FinalizerSubject) : SubjectState := {|
  pipeline := stageStates s;
  currentRef := match get (ref_obj s) "revisionRef" with VStr r => Some r | _ => None end;
  latestVerdict := latestSubjectVerdict s |}.

(** The subject as [makeDecision] sees it. *)
Definition subject_val (s : FinalizerSubject) : val := VObj [("ref", VObj (ref_obj s))].

Definition isTerminalState (s : FinalizerSubject) : bool :=
  is_true (isTerminal s) || is_str (lifecycle s) "finalized" || is_str (lifecycle s) "terminal".

Definition zero : num := num_of_Z 0.
Definition completed_rounds (s : FinalizerSubject) : num :=
  to_num (coalesce (completedRemediationRounds s) (VInt 0)).

Definition remediationBudgetRemaining (s : FinalizerSubject) : num :=
  let completed := completed_rounds s in
  let max := to_num (coalesce (maxRemediationRounds s) (VInt 0)) in
  if negb (is_finite completed && is_finite max) then zero
  else let left := num_sub max completed in if num_ltb zero left then left else zero.

Record Finalizer := { finalizerDomain : string; finalizerMode : string }.

Definition createTrivialFinalizer (domainId : val) (mode : option string) (markTerminalIsFunction : bool)
  : result Finalizer :=
  match domainId with
  | VStr d =>
      if String.eqb d "" then Throw (TypeError "createTrivialFinalizer requires a domainId")
      else
        let m := default "mark-terminal" mode in
        if negb (str_in m TRIVIAL_FINALIZER_MODES)
        then Throw (TypeError ("unknown trivial finalizer mode: " +:+ json_quote m))
        else if negb markTerminalIsFunction
        then Throw (TypeError "createTrivialFinalizer requires a markTerminal(ref) callback")
        else Ok {| finalizerDomain := d; finalizerMode := m |}
  | _ => Throw (TypeError "createTrivialFinalizer requires a domainId")
  end.

Definition opt_str (s : option string) : val := match s with Some t => VStr t | None => VUndef end.

Definition evaluate (subject : option FinalizerSubject) : result obj :=
  match subject with
  | Some s =>
      if negb (truthy (subjectObservedAt s))
      then Throw (TypeError "trivial finalizer evaluate requires subjectState.observedAt")
      else
        let fields := [("observedAt", subjectObservedAt s)] in
        let because why := fields ++ [("reason", why)] in
        if isTerminalState s then finalizeNow (subject_val s) (because (VStr "already terminal"))
        else if is_str (lifecycle s) "halted" || truthy (haltReason s)
        then halt (subject_val s) (because (or_else (haltReason s) (VStr "operator halt")))
        else
          match resolveLatestVerdict (pipeline_view s) with
          | None => wait (subject_val s) (because (VStr "no current-revision verdict yet"))
          | Some verdict =>
              match classifyVerdictDisposition (Some verdict) with
              | clean => finalizeNow (subject_val s) fields
              | blocking =>
                  if num_ltb zero (remediationBudgetRemaining s) then
                    remediate (subject_val s) (fields ++
                      [("stageId", opt_str (verdictStageId verdict));
                       ("round", VNum (num_add (completed_rounds s) (num_of_Z 1)))])
                  else halt (subject_val s) (because (VStr "remediation budget exhausted"))
              | indeterminate => wait (subject_val s) (because (VStr "verdict indeterminate"))
              end
          end
  | None => Throw (TypeError "trivial finalizer evaluate requires subjectState.observedAt")
  end.

(** [execute] with the calls of [markTerminal(ref, decision)] it made; the
    callback may reject, with nothing recorded after it. *)
Definition execute (f : Finalizer) (markTerminal : val -> val -> result unit) (decision : val)
  : list (val * val) * result obj :=
  let observedAt := oget decision "observedAt" in
  if negb (is_str (oget decision "kind") "finalize-now")
  then ([], makeOutcome decision "skipped" "none" observedAt VUndef)
  else if is_str (oget decision "reason") "already terminal"
  then ([], makeOutcome decision "skipped" (finalizerMode f) observedAt (VStr "subject already terminal"))
  else ([(oget decision "subjectRef", decision)],
        let* _ := markTerminal (oget decision "subjectRef") decision in
        makeOutcome decision "executed" (finalizerMode f) observedAt VUndef).

(** ** Facts *)

Lemma resolveProvenance_Ok v p :
  resolveProvenance v = Ok p ->
  is_object (subjectRef p) = true /\ is_string (oget (subjectRef p) "domainId") = true.
Proof.
  unfold resolveProvenance. intros (r & _ & H)%rbind_Ok.
  destruct (truthy r && is_object r && is_string (oget r "domainId")) eqn:E; [|done].
  injection H as <-. cbn [subjectRef]. by bool_simpl.
Qed.

Lemma get_set_some o k v k' :
  get (set_some o k v) k' = (if String.eqb k k' && negb (is_nullish v) then v else get o k').
Proof.
  unfold set_some. destruct (is_nullish v); simpl; [by rewrite andb_false_r|].
  rewrite andb_true_r. destruct (String.eqb k k') eqn:E.
  - apply String.eqb_eq in E as ->. apply get_set.
  - apply String.eqb_neq in E. by apply get_set_ne.
Qed.

(** The optional fields of a decision are nullish when absent. *)
Definition field_eq (v w : val) : Prop := v = w \/ (is_nullish v = true /\ is_nullish w = true).

Lemma makeDecision_inv kind v fields d :
  makeDecision kind v fields = Ok d ->
  exists p, resolveProvenance v = Ok p /\ In kind FINALIZATION_DECISION_KINDS
    /\ truthy (get fields "observedAt") = true
    /\ get d "kind" = VStr kind /\ get d "subjectRef" = subjectRef p
    /\ get d "revisionRef" = VStr (decisionRevision p) /\ get d "observedAt" = get fields "observedAt"
    /\ Forall (fun k => field_eq (get d k) (get fields k)) ["reason"; "stageId"; "round"; "deadline"].
Proof.
  unfold makeDecision. intros H.
  destruct (str_in kind _) eqn:Ek; cbn [negb] in H; [|done]. apply str_in_In in Ek.
  destruct (truthy (get fields "observedAt")) eqn:Et; cbn [negb] in H; [|done].
  apply rbind_Ok in H as (p & Hp & [= <-]). exists p.
  repeat (split; [first [done | by rewrite !get_set_some]|]).
  repeat (apply Forall_cons; split); [..|constructor]; unfold field_eq; rewrite !get_set_some;
    cbn [String.eqb Ascii.eqb Bool.eqb andb]; case_goal; try (by left); right; bool_simpl; done.
Qed.

(** A decision the port builds is accepted by the validator of ingested
    decisions exactly when its fold timestamp is a string, keeps the fields it
    was given, and names the subject it was built for. *)
Theorem makeDecision_validated (kind : string) (v : val) (fields d : obj) :
  makeDecision kind v fields = Ok d ->
  isFinalizationDecision (VObj d) = is_string (get fields "observedAt")
  /\ get d "kind" = VStr kind
  /\ Forall (fun k => field_eq (get d k) (get fields k)) ["reason"; "stageId"; "round"; "deadline"]
  /\ exists p, resolveProvenance v = Ok p /\ get d "subjectRef" = subjectRef p.
Proof.
  intros (p & Hp & Hin & Ht & Ek & Es & Er & Eo & Hf)%makeDecision_inv.
  split; [|split; [done|]; split; [done|]; eauto].
  destruct (resolveProvenance_Ok _ _ Hp) as [Hobj Hd].
  unfold isFinalizationDecision. cbn [is_object oget andb]. rewrite Ek, Es, Er, Eo, Hd.
  assert (Hv : val_in (VStr kind) FINALIZATION_DECISION_KINDS = true) by (apply val_in_spec; eauto).
  assert (Htr : truthy (subjectRef p) = true) by (by destruct (subjectRef p)).
  rewrite Hv, Htr. cbn [andb is_string]. destruct (get fields "observedAt"); done.
Qed.

Definition live (s : FinalizerSubject) : Prop :=
  isTerminalState s = false /\ is_str (lifecycle s) "halted" = false /\ truthy (haltReason s) = false.

(** Every branch of [evaluate]. *)
Lemma evaluate_inv s d :
  evaluate (Some s) = Ok d ->
  (get d "kind" = VStr "finalize-now" /\
     ((isTerminalState s = true /\ get d "reason" = VStr "already terminal")
      \/ (live s /\ is_str (get d "reason") "already terminal" = false
          /\ exists v, resolveLatestVerdict (pipeline_view s) = Some v
               /\ classifyVerdictDisposition (Some v) = clean)))
  \/ (get d "kind" = VStr "remediate" /\ live s
      /\ num_ltb zero (remediationBudgetRemaining s) = true
      /\ get d "round" = VNum (num_add (completed_rounds s) (num_of_Z 1))
      /\ exists v, resolveLatestVerdict (pipeline_view s) = Some v
           /\ classifyVerdictDisposition (Some v) = blocking)
  \/ (get d "kind" = VStr "halt" /\ isTerminalState s = false
      /\ ((is_str (lifecycle s) "halted" = true \/ truthy (haltReason s) = true)
          \/ (live s /\ num_ltb zero (remediationBudgetRemaining s) = false
              /\ exists v, resolveLatestVerdict (pipeline_view s) = Some v
                   /\ classifyVerdictDisposition (Some v) = blocking)))
  \/ (get d "kind" = VStr "wait" /\ live s
      /\ forall v, resolveLatestVerdict (pipeline_view s) = Some v ->
           classifyVerdictDisposition (Some v) = indeterminate).
Proof.
  unfold evaluate. destruct (truthy (subjectObservedAt s)); cbn [negb]; [|done].
  destruct (isTerminalState s) eqn:Et.
  { intros (p & _ & _ & _ & Ek & _ & _ & _ & Hf)%makeDecision_inv. left. split; [done|]. left. split; [done|].
    apply Forall_cons in Hf as [[Hr|[_ Hr]] _]; [exact Hr | done]. }
  destruct (is_str (lifecycle s) "halted" || truthy (haltReason s)) eqn:Eh.
  { intros (p & _ & _ & _ & Ek & _)%makeDecision_inv. apply orb_true_iff in Eh. right; right; left. auto. }
  assert (Hl : live s) by (apply orb_false_iff in Eh as [? ?]; done).
  destruct (resolveLatestVerdict _) as [v|] eqn:Ev.
  2:{ intros (p & _ & _ & _ & Ek & _)%makeDecision_inv. right; right; right. split; [done|]. by split. }
  destruct (classifyVerdictDisposition (Some v)) eqn:Ed.
  - intros (p & _ & _ & _ & Ek & _ & _ & _ & Hf)%makeDecision_inv. left. split; [done|]. right.
    split; [done|]. split; [|eauto].
    apply Forall_cons in Hf as [[->|[Hr _]] _]; [done | by destruct (get d "reason")].
  - destruct (num_ltb zero _) eqn:Eb.
    + intros (p & _ & _ & _ & Ek & _ & _ & _ & Hf)%makeDecision_inv. right; left.
      repeat (split; [done|]). split; [|eauto].
      apply Forall_cons in Hf as [_ Hf]. apply Forall_cons in Hf as [_ Hf].
      apply Forall_cons in Hf as [[Hr|[_ Hr]] _]; [exact Hr | done].
    + intros (p & _ & _ & _ & Ek & _)%makeDecision_inv. right; right; left. split; [done|]. split; [done|].
      right. eauto.
  - intros (p & _ & _ & _ & Ek & _)%makeDecision_inv. right; right; right. split; [done|]. split; [done|].
    by intros w [= <-].
Qed.

(** Executing the decision [evaluate] took calls [markTerminal] once, with
    the subject and the decision, exactly when the subject is live and its
    current verdict is clean; otherwise it calls nothing. The decision never
    escalates, and a subject that is already terminal is skipped. *)
Theorem marks_terminal_exactly_clean (f : Finalizer) (mark : val -> val -> result unit)
    (s : FinalizerSubject) (d : obj) :
  evaluate (Some s) = Ok d ->
  (fst (execute f mark (VObj d)) = [(get d "subjectRef", VObj d)]
   <-> live s /\ exists v, resolveLatestVerdict (pipeline_view s) = Some v
                   /\ classifyVerdictDisposition (Some v) = clean)
  /\ (fst (execute f mark (VObj d)) = [(get d "subjectRef", VObj d)] \/ fst (execute f mark (VObj d)) = [])
  /\ get d "kind" <> VStr "escalate".
Proof.
  intros He. assert (Hl : forall v w : Verdict, Some v = Some w -> v = w) by congruence.
  unfold execute. cbn [oget].
  destruct (evaluate_inv _ _ He) as
    [[-> [[Ht ->]|(Hlv & Hr & v & Ev & Ed)]]|[(-> & Hlv & Hb & _ & v & Ev & Ed)|[(-> & Ht & Hh)|(-> & Hlv & Hv)]]].
  - split; [|split; [by right | done]]. split; [done|]. intros [(Hf & _) _]. congruence.
  - rewrite Hr. split; [|split; [by left | done]]. split; [|done]. eauto.
  - split; [|split; [by right | done]]. split; [done|]. intros (_ & w & Ew & Edw). congruence.
  - split; [|split; [by right | done]]. split; [done|]. intros ((_ & H1 & H2) & w & Ew & Edw).
    destruct Hh as [[Hh|Hh]|(_ & _ & v & Ev & Ed)]; congruence.
  - split; [|split; [by right | done]]. split; [done|]. intros (_ & w & Ew & Edw).
    specialize (Hv _ Ew). congruence.
Qed.

(** ** Concrete inputs *)

Definition ex_finalizer_subject (rounds : Z) (verdictKind : string) : FinalizerSubject := {|
  ref_obj := [("domainId", VStr "research-finding"); ("revisionRef", VStr "r1")];
  isTerminal := VUndef; lifecycle := VStr "reviewing"; haltReason := VNull;
  subjectObservedAt := VStr "2026-01-01T00:00:00.000Z";
  completedRemediationRounds := VInt rounds; maxRemediationRounds := VInt 2; stageStates := [];
  latestSubjectVerdict := Some {| kind := verdictKind; blockingFindings := None; observedAt := None;
    revisionRef := Some "r1"; verdictStageId := Some "review"; reviewerRoleId := None |} |}.
Definition ex_finalizer : Finalizer := {| finalizerDomain := "research-finding"; finalizerMode := "archive" |}.
Definition ex_decision (rounds : Z) (verdictKind : string) : obj :=
  match evaluate (Some (ex_finalizer_subject rounds verdictKind)) with Ok d => d | Throw _ => [] end.

Example blocking_remediates_then_halts :
  get (ex_decision 1 "request-changes") "kind" = VStr "remediate"
  /\ get (ex_decision 1 "request-changes") "round" = VInt 2
  /\ get (ex_decision 2 "request-changes") "kind" = VStr "halt".
Proof. vm_compute. auto. Qed.

Lemma makeDecision_validated_witness : isFinalizationDecision (VObj (ex_decision 0 "approved")) = true.
Proof.
  exact (proj1 (makeDecision_validated "finalize-now" (subject_val (ex_finalizer_subject 0 "approved"))
    [("observedAt", VStr "2026-01-01T00:00:00.000Z")] (ex_decision 0 "approved")
    ltac:(vm_compute; reflexivity))).
Defined.

Lemma marks_terminal_exactly_clean_witness :
  fst (execute ex_finalizer (fun _ _ => Ok tt) (VObj (ex_decision 0 "approved")))
  = [(VObj (ref_obj (ex_finalizer_subject 0 "approved")), VObj (ex_decision 0 "approved"))].
Proof.
  destruct (marks_terminal_exactly_clean ex_finalizer (fun _ _ => Ok tt) (ex_finalizer_subject 0 "approved")
    (ex_decision 0 "approved") ltac:(vm_compute; reflexivity)) as [[_ H] _].
  apply H. split; [repeat split; vm_compute; reflexivity|].
  eexists. split; vm_compute; reflexivity.
Defined.
