(* ===== verification/Divergence.v ===== *)
(** The shadow comparison (src/src/finalization/shadow-actions.mjs and
    divergence-classifier.mjs): the vocabulary of what the v1 lane did, the
    buckets the two lanes are compared in, and the classification of a pair
    (v1 action, v2 decision). The expressions the classifier searches a reason
    for are alternations of literal words without regard to case. *)

From Stdlib Require Import ZArith Lia Ascii SpecFloat.
From stdpp Require Import base list strings.
From S2P Require Import Prelude JsNum JsValue LedgerEvents LedgerFold.

(** ** shadow-actions.mjs *)

Definition V1_ACTION_KINDS : list string :=
  ["merged"; "hammer-dispatch"; "remediate"; "wait"; "close"; "escalate"; "halt"; "none"].

Definition V1_BUCKET : list (string * string) :=
  [("merged", "land"); ("hammer-dispatch", "remediate"); ("remediate", "remediate");
   ("wait", "wait"); ("none", "wait"); ("close", "close"); ("escalate", "stop"); ("halt", "stop")].

Definition V2_BUCKET : list (string * string) :=
  [("finalize-now", "land"); ("remediate", "remediate"); ("close", "close"); ("wait", "wait");
   ("escalate", "stop"); ("halt", "stop")].

(** What a computed key finds on a plain object: one of its own entries, or a
    member every object inherits. *)
Inductive Found := Own (s : string) | Inherited (k : string).

#[export] Instance Found_eq_dec : EqDecision Found.
Proof. solve_decision. Defined.

Definition table_lookup (table : list (string * string)) (key : val) : option Found :=
  let k := to_str key in
  match map_get table k with
  | Some s => Some (Own s)
  | None => if str_in k OBJECT_MEMBERS then Some (Inherited k) else None
  end.

Definition v1ActionBucket (kind : val) : option Found := table_lookup V1_BUCKET kind.
Definition v2DecisionBucket (kind : val) : option Found := table_lookup V2_BUCKET kind.

Definition normalizeV1Action (raw : val) : result obj :=
  match raw with
  | VStr s =>
      if str_in s V1_ACTION_KINDS then Ok [("kind", raw)]
      else Throw (TypeError ("unknown v1 action kind: " +:+ json_quote s))
  | _ =>
      if is_object raw && val_in (oget raw "kind") V1_ACTION_KINDS then
        let action := [("kind", oget raw "kind")] in
        let action := if is_nullish (oget raw "detail") then action
                      else map_set action "detail" (VStr (to_str (oget raw "detail"))) in
        Ok (if is_nullish (oget raw "sourceRef") then action
            else map_set action "sourceRef" (VStr (to_str (oget raw "sourceRef"))))
      else Throw (TypeError ("v1 action requires a kind in " +:+ join "|" V1_ACTION_KINDS))
  end.

Definition v1ActionFromDaemonDisposition (disposition : string) : result obj :=
  if String.eqb disposition "merged" then Ok [("kind", VStr "merged")]
  else if String.eqb disposition "failed-closed"
  then Ok [("kind", VStr "escalate"); ("detail", VStr "v1 daemon-merge failed closed")]
  else if String.eqb disposition "deferred" then Ok [("kind", VStr "wait")]
  else if String.eqb disposition "not-taken" then Ok [("kind", VStr "none")]
  else Throw (TypeError ("unknown daemon-merge disposition: " +:+ json_quote disposition)).

(** ** divergence-classifier.mjs *)

Definition V1_DEFECT_CLASSES : list (string * string) :=
  [("ci-impatience", "AR#550"); ("verdict-at-wrong-head", "verdict-at-wrong-head");
   ("ceiling-head-move-deadlock", "LAC-1559"); ("phantom-die-before-merge", "HCM-01");
   ("lha-premature-cutover", "LHA"); ("identity-head-pin", "#603")].

Inductive Relation := agree | diverge.
Inductive Direction := v1_defect | v2_suspect | open_ | benign.
Inductive TriageDisposition := open_triage | resolved.

#[export] Instance Relation_eq_dec : EqDecision Relation.
Proof. solve_decision. Defined.
#[export] Instance Direction_eq_dec : EqDecision Direction.
Proof. solve_decision. Defined.
#[export] Instance TriageDisposition_eq_dec : EqDecision TriageDisposition.
Proof. solve_decision. Defined.

Record Classification := {
  relation : Relation;
  direction : Direction;
  class_ : string;
  ref_ : option string;
  disposition_ : TriageDisposition;
  reason_ : string
}.

Definition classification (r : Relation) (d : Direction) (cls : string) (rf : option string) (why : string)
  : Classification :=
  {| relation := r; direction := d; class_ := cls; ref_ := rf;
     disposition_ := if decide (d = open_) then open_triage else resolved; reason_ := why |}.

(** [/w1|w2|.../i.test(String(v?.k ?? ''))] for literal words in lower case. *)
Definition mentions (v : val) (k : string) (words : list string) : bool :=
  some_b (fun p => includes p (to_lower (to_str (coalesce (oget v k) (VStr ""))))) words.
Definition reasonMentions (decision : val) (words : list string) : bool := mentions decision "reason" words.
Definition detailMentions (action : val) (words : list string) : bool := mentions action "detail" words.

Definition v2SaysLandable (decision : val) : bool :=
  is_str (oget decision "kind") "finalize-now"
  && reasonMentions decision ["clean verdict, green checks"; "validated full coverage"].

Definition headMoved (state : option LedgerState) : bool :=
  match state with Some s => Nat.ltb 1 (length (revisions s)) | None => false end.

Definition bucket_is (b : option Found) (s : string) : bool := bool_decide (b = Some (Own s)).

(** [v1ActionBucket(v1.kind) === bucket && ...]. *)
Definition when_v1 (bucket : string) (v1 : val) (rest : result bool) : result bool :=
  let* k := member v1 "kind" in
  if bucket_is (v1ActionBucket k) bucket then rest else Ok false.
(** [(v2.kind === 'wait' || v2.kind === 'escalate') && ...]. *)
Definition when_v2 (kinds : list string) (v2 : val) (rest : bool) : result bool :=
  let* k := member v2 "kind" in Ok (some_b (is_str k) kinds && rest).

Record Signature := {
  sigClass : string;
  sigMatch : val -> val -> option LedgerState -> result bool;
  sigReason : string
}.

Definition V1_DEFECT_SIGNATURES : list Signature :=
  [{| sigClass := "ci-impatience";
      sigMatch := fun v1 v2 _ =>
        when_v1 "land" v1 (when_v2 ["wait"; "escalate"] v2 (reasonMentions v2 ["check"]));
      sigReason := "v1 merged before required checks were present and settled at head; v2 withholds (AR#550 CI-impatience class)" |};
   {| sigClass := "verdict-at-wrong-head";
      sigMatch := fun v1 v2 _ =>
        when_v1 "land" v1 (when_v2 ["wait"; "escalate"] v2 (reasonMentions v2 ["verdict"]));
      sigReason := "v1 merged on a verdict not pinned to the current revision; v2 requires a verdict at head (verdict-at-wrong-head class)" |};
   {| sigClass := "identity-head-pin";
      sigMatch := fun v1 v2 state =>
        when_v1 "land" v1 (when_v2 ["wait"; "escalate"] v2
          (detailMentions v1 ["identity"; "headpin"; "head-pin"; "head pin"; "bound"] && headMoved state));
      sigReason := "v1 acted against a head-pinned identity across a head move; v2 folds the head move as an ordinary event (#603 identity head-pin class)" |};
   {| sigClass := "lha-premature-cutover";
      sigMatch := fun v1 v2 _ =>
        when_v1 "wait" v1 (when_v2 ["escalate"] v2 (reasonMentions v2 ["attestation"]));
      sigReason := "v1 stalled awaiting an attestation with no configured producer; v2 escalates on bounded patience rather than stalling (LHA class)" |};
   {| sigClass := "phantom-die-before-merge";
      sigMatch := fun v1 v2 _ =>
        when_v1 "wait" v1 (Ok (v2SaysLandable v2
          && detailMentions v1 ["strand"; "crash"; "phantom"; "die-before"]));
      sigReason := "v1 stranded a converged PR when process-state progress was lost; v2 re-folds the durable ledger and finalizes (HCM-01 phantom-die class)" |};
   {| sigClass := "ceiling-head-move-deadlock";
      sigMatch := fun v1 v2 state => when_v1 "wait" v1 (Ok (v2SaysLandable v2 && headMoved state));
      sigReason := "v1 deadlocked a clean, green PR across a head move (ceiling vs head pointer in separate actors); v2 finalizes the landable head (LAC-1559 class)" |}].

Fixpoint first_signature (sigs : list Signature) (v1 v2 : val) (state : option LedgerState)
  : result (option Signature) :=
  match sigs with
  | [] => Ok None
  | s :: sigs' =>
      let* hit := sigMatch s v1 v2 state in
      if hit then Ok (Some s) else first_signature sigs' v1 v2 state
  end.

Definition same_bucket (b1 b2 : option Found) : bool :=
  match b1 with Some _ => bool_decide (b1 = b2) | None => false end.

Definition found_text (b : option Found) : string :=
  match b with
  | Some (Own s) => s
  | Some (Inherited k) =>
      if String.eqb k "__proto__" then "[object Object]"
      else "function " +:+ (if String.eqb k "constructor" then "Object" else k) +:+ "() { [native code] }"
  | None => "null"
  end.

Definition classifyDivergence (v1Action v2Decision : val) (state : option LedgerState)
    (foldError queue : bool) : result Classification :=
  let k1 := oget v1Action "kind" in
  let k2 := oget v2Decision "kind" in
  let v1Bucket := v1ActionBucket k1 in
  let v2Bucket := v2DecisionBucket k2 in
  let concur := same_bucket v1Bucket v2Bucket in
  if queue && foldError then
    Ok (classification diverge open_ "queue-observation-unavailable" None
          "queue observation failed; neither decision is approved")
  else if queue then
    Ok (classification (if concur then agree else diverge) (if concur then benign else open_)
          (if concur then "queue-concur" else "queue-decision-difference") None
          ("observed queue proposal " +:+ to_str k2 +:+ " versus v1 " +:+ to_str k1
           +:+ "; inspect lane order and decision evidence"))
  else if foldError then
    if bucket_is v1Bucket "stop" then
      Ok (classification agree benign "fold-error" None
            "shadow fold errored; v2 failed closed to escalate and v1 also paged — concurrence on no mutation")
    else
      Ok (classification diverge open_ "fold-error" None
            ("shadow fold errored; v2 failed closed to escalate while v1 took a " +:+ to_str k1
             +:+ " action — triage the ledger and v1 both"))
  else if concur then
    Ok (classification agree benign "concur" None
          ("v1 (" +:+ to_str k1 +:+ ") and v2 (" +:+ to_str k2 +:+ ") concur on " +:+ found_text v1Bucket))
  else
    let* sig := first_signature V1_DEFECT_SIGNATURES v1Action v2Decision state in
    match sig with
    | Some s =>
        Ok (classification diverge v1_defect (sigClass s) (map_get V1_DEFECT_CLASSES (sigClass s)) (sigReason s))
    | None =>
        Ok (classification diverge open_ "unclassified" None
              ("v1 (" +:+ to_str k1 +:+ ") diverges from v2 (" +:+ to_str k2
               +:+ "); no known v1 failure-family fingerprint — open for bidirectional triage"))
    end.

(** ** Facts *)

Lemma first_signature_In sigs v1 v2 st s :
  first_signature sigs v1 v2 st = Ok (Some s) -> In s sigs /\ sigMatch s v1 v2 st = Ok true.
Proof.
  induction sigs as [|x sigs IH]; simpl; [done|].
  intros ([] & Hm & Hr)%rbind_Ok; [injection Hr as <-; auto | destruct (IH Hr); auto].
Qed.

Lemma when_v1_true b v1 rest :
  when_v1 b v1 rest = Ok true -> v1ActionBucket (oget v1 "kind") = Some (Own b) /\ rest = Ok true.
Proof.
  unfold when_v1, member, bucket_is. destruct (is_nullish v1); simpl; [done|].
  destruct (bool_decide _) eqn:E; [|done]. by apply bool_decide_eq_true in E.
Qed.

Lemma when_v2_true kinds v2 rest :
  when_v2 kinds v2 rest = Ok true -> some_b (is_str (oget v2 "kind")) kinds = true /\ rest = true.
Proof.
  unfold when_v2, member. destruct (is_nullish v2); simpl; [done|].
  intros [= H]. by apply andb_true_iff in H.
Qed.

Definition v2_withholds (v2 : val) : bool := some_b (is_str (oget v2 "kind")) ["wait"; "escalate"].

(** What each documented fingerprint has in common. *)
Definition fingerprint (v1 v2 : val) : Prop :=
  (v1ActionBucket (oget v1 "kind") = Some (Own "land") /\ v2_withholds v2 = true)
  \/ (v1ActionBucket (oget v1 "kind") = Some (Own "wait")
      /\ (oget v2 "kind" = VStr "escalate" \/ oget v2 "kind" = VStr "finalize-now")).

Lemma signature_fingerprint s v1 v2 st :
  In s V1_DEFECT_SIGNATURES -> sigMatch s v1 v2 st = Ok true -> fingerprint v1 v2.
Proof.
  unfold fingerprint, v2_withholds.
  intros [<-|[<-|[<-|[<-|[<-|[<-|[]]]]]]]; simpl sigMatch;
    intros [H1 H2]%when_v1_true; try (apply when_v2_true in H2 as [H2 _]; by left).
  - apply when_v2_true in H2 as [H2 _]. right. split; [done|]. left.
    apply is_str_eq. destruct (is_str _ _) eqn:E; [done|]. simpl in H2. by rewrite E in H2.
  - right. split; [done|]. right. injection H2 as H2.
    apply andb_true_iff in H2 as [H2 _]. apply andb_true_iff in H2 as [H2 _]. by apply is_str_eq.
  - right. split; [done|]. right. injection H2 as H2.
    apply andb_true_iff in H2 as [H2 _]. apply andb_true_iff in H2 as [H2 _]. by apply is_str_eq.
Qed.

Lemma classification_disposition r d cls rf why :
  disposition_ (classification r d cls rf why) = resolved <-> d <> open_.
Proof. simpl. by destruct (decide (d = open_)). Qed.

(** The result of the classifier, branch by branch. *)
Lemma classify_inv v1 v2 st fe q c :
  classifyDivergence v1 v2 st fe q = Ok c ->
  let concur := same_bucket (v1ActionBucket (oget v1 "kind")) (v2DecisionBucket (oget v2 "kind")) in
  (disposition_ c = resolved <-> direction c <> open_)
  /\ ((relation c = agree /\ direction c = benign
       /\ (if fe then q = false /\ v1ActionBucket (oget v1 "kind") = Some (Own "stop") else concur = true))
      \/ (relation c = diverge /\ direction c = open_
          /\ (if fe then q = true \/ v1ActionBucket (oget v1 "kind") <> Some (Own "stop") else concur = false))
      \/ (relation c = diverge /\ direction c = v1_defect /\ q = false /\ fe = false /\ concur = false
          /\ fingerprint v1 v2)).
Proof.
  unfold classifyDivergence. cbv zeta. intros Hc.
  assert (Hb : forall b s, bucket_is b s = true <-> b = Some (Own s)) by (intros; apply bool_decide_eq_true).
  destruct q, fe; cbn [andb] in Hc.
  - injection Hc as <-. split; [apply classification_disposition|]. right; left. simpl. auto.
  - injection Hc as <-. split; [apply classification_disposition|]. destruct (same_bucket _ _); simpl; auto.
  - destruct (bucket_is _ "stop") eqn:E; injection Hc as <-; (split; [apply classification_disposition|]).
    + left. split; [done|]. split; [done|]. split; [done|]. by apply Hb.
    + right; left. simpl. split; [done|]. split; [done|]. right. intros H%Hb. congruence.
  - destruct (same_bucket _ _) eqn:Es; [injection Hc as <-; split; [apply classification_disposition|]; auto|].
    apply rbind_Ok in Hc as ([s|] & Hs & Hc); injection Hc as <-; (split; [apply classification_disposition|]).
    + right; right. apply first_signature_In in Hs as [Hin Hm].
      split; [done|]. split; [done|]. repeat (split; [done|]). by eapply signature_fingerprint.
    + right; left. auto.
Qed.

(** A divergence is attributed to v1 only outside queue observations and
    fold errors, for two different buckets, and only where v1 landed while v2
    withheld or v1 stalled while v2 escalated or finalized; every other
    divergence stays open, and only open ones block promotion. *)
Theorem divergence_never_auto_absolved (v1 v2 : val) (st : option LedgerState) (fe q : bool) c :
  classifyDivergence v1 v2 st fe q = Ok c ->
  (direction c = v1_defect ->
     q = false /\ fe = false /\ fingerprint v1 v2
     /\ same_bucket (v1ActionBucket (oget v1 "kind")) (v2DecisionBucket (oget v2 "kind")) = false)
  /\ direction c <> v2_suspect
  /\ (disposition_ c = open_triage <-> relation c = diverge /\ direction c <> v1_defect)
  /\ (q = true -> fe = true -> disposition_ c = open_triage).
Proof.
  intros [Hd Hc]%classify_inv. cbv zeta in Hc.
  assert (Ho : disposition_ c = open_triage <-> direction c = open_).
  { split; intros H.
    - destruct (decide (direction c = open_)) as [|Hn]; [done|]. apply Hd in Hn. congruence.
    - destruct (disposition_ c); [done|]. by destruct (proj1 Hd eq_refl). }
  rewrite Ho.
  destruct Hc as [(Hr & Ed & Hf)|[(Hr & Ed & Hf)|(Hr & Ed & -> & -> & Hs & Hf)]]; rewrite Hr, Ed.
  - split; [done|]. split; [done|]. split; [split; [done | by intros []]|].
    intros -> ->. by destruct Hf.
  - split; [done|]. split; [done|]. split; [done|]. done.
  - split; [done|]. split; [done|]. split; [split; [done | by intros []]|]. done.
Qed.

Lemma normalizeV1Action_inv raw o :
  normalizeV1Action raw = Ok o ->
  val_in (get o "kind") V1_ACTION_KINDS = true
  /\ (is_nullish (get o "detail") = false -> exists s, get o "detail" = VStr s)
  /\ (is_nullish (get o "sourceRef") = false -> exists s, get o "sourceRef" = VStr s)
  /\ exists k, get o "kind" = VStr k
       /\ o = [("kind", VStr k)] ++ filter_b (fun kv => negb (is_nullish (snd kv)))
                [("detail", get o "detail"); ("sourceRef", get o "sourceRef")].
Proof.
  assert (Hobj : is_object raw && val_in (oget raw "kind") V1_ACTION_KINDS = true ->
    forall o', (let action := [("kind", oget raw "kind")] in
        let action := if is_nullish (oget raw "detail") then action
                      else map_set action "detail" (VStr (to_str (oget raw "detail"))) in
        if is_nullish (oget raw "sourceRef") then action
            else map_set action "sourceRef" (VStr (to_str (oget raw "sourceRef")))) = o' ->
    val_in (get o' "kind") V1_ACTION_KINDS = true
    /\ (is_nullish (get o' "detail") = false -> exists s, get o' "detail" = VStr s)
    /\ (is_nullish (get o' "sourceRef") = false -> exists s, get o' "sourceRef" = VStr s)
    /\ exists k, get o' "kind" = VStr k
         /\ o' = [("kind", VStr k)] ++ filter_b (fun kv => negb (is_nullish (snd kv)))
                  [("detail", get o' "detail"); ("sourceRef", get o' "sourceRef")]).
  { intros [_ Hk]%andb_true_iff o' <-. apply val_in_spec in Hk as (k & Ek & Hin). cbv zeta. rewrite Ek.
    assert (Hv : val_in (VStr k) V1_ACTION_KINDS = true) by (apply val_in_spec; eauto).
    destruct (is_nullish (oget raw "detail")), (is_nullish (oget raw "sourceRef"));
      (split; [exact Hv|]); (split; [intros H; cbn in H |- *; first [discriminate | eauto]|]);
      (split; [intros H; cbn in H |- *; first [discriminate | eauto]|]); exists k; split; reflexivity. }
  intros Hn. destruct (is_string raw) eqn:Er.
  2:{ destruct (is_object raw && val_in (oget raw "kind") V1_ACTION_KINDS) eqn:E.
      - apply (Hobj eq_refl). destruct raw; try discriminate; unfold normalizeV1Action in Hn; rewrite E in Hn;
          injection Hn as Hn; exact Hn.
      - destruct raw; try discriminate; unfold normalizeV1Action in Hn; rewrite E in Hn; discriminate. }
  clear Hobj. destruct raw as [| | | |s| |]; try discriminate. unfold normalizeV1Action in Hn.
  destruct (str_in s V1_ACTION_KINDS) eqn:E; [|done]. injection Hn as <-.
  split; [exact E|]. split; [done|]. split; [done|]. exists s. split; reflexivity.
Qed.

(** A normalized v1 action has a kind of the vocabulary, is a fixed point
    of normalization, has a comparison bucket, and classifying it against any
    decision object returns a classification. *)
Theorem normalized_action_classifies (raw : val) (o : obj) :
  normalizeV1Action raw = Ok o ->
  val_in (get o "kind") V1_ACTION_KINDS = true
  /\ normalizeV1Action (VObj o) = Ok o
  /\ (exists b, v1ActionBucket (get o "kind") = Some (Own b))
  /\ forall d st fe q, exists c, classifyDivergence (VObj o) (VObj d) st fe q = Ok c.
Proof.
  intros (Hv & Hd & Hs & k & Ek & Eo)%normalizeV1Action_inv.
  split; [done|]. split; [|split].
  - rewrite Ek in Hv. revert Eo Hd Hs. generalize (get o "detail") as d, (get o "sourceRef") as s.
    intros s d Eo Hd Hs. unfold normalizeV1Action.
    destruct (is_nullish d) eqn:Ed, (is_nullish s) eqn:Es; simpl in Eo; rewrite Ed, Es in Eo; simpl in Eo;
      try (destruct (Hd eq_refl) as [? ->]); try (destruct (Hs eq_refl) as [? ->]); subst o;
      cbn [is_object oget andb]; change (get (("kind", VStr k) :: ?l) "kind") with (VStr k); rewrite Hv; reflexivity.
  - rewrite Ek in *. apply str_in_In in Hv.
    destruct Hv as [<-|[<-|[<-|[<-|[<-|[<-|[<-|[<-|[]]]]]]]]]; eexists; reflexivity.
  - intros d st fe q. unfold classifyDivergence. cbv zeta.
    assert (Hsig : forall sigs, (forall s, In s sigs -> exists b, sigMatch s (VObj o) (VObj d) st = Ok b) ->
      exists r, first_signature sigs (VObj o) (VObj d) st = Ok r).
    { induction sigs as [|s sigs IH]; intros Hall; [by eexists|]. simpl.
      destruct (Hall s (or_introl eq_refl)) as [[] ->]; simpl; [by eexists|].
      apply IH. intros. apply Hall. by right. }
    destruct (Hsig V1_DEFECT_SIGNATURES) as [r Hr].
    { intros s [<-|[<-|[<-|[<-|[<-|[<-|[]]]]]]]; cbn [sigMatch]; unfold when_v1, when_v2, member;
        cbn [is_nullish rbind]; destruct (bucket_is _ _); eexists; reflexivity. }
    rewrite Hr. cbn [rbind].
    destruct q, fe; cbn [andb]; repeat case_goal; eexists; reflexivity.
Qed.

(** The mapping of the daemon's dispositions stays inside the vocabulary. *)
Lemma daemon_action_normalized disposition o :
  v1ActionFromDaemonDisposition disposition = Ok o -> normalizeV1Action (VObj o) = Ok o.
Proof.
  unfold v1ActionFromDaemonDisposition.
  repeat (destruct (String.eqb _ _); [intros [= <-]; reflexivity|]). done.
Qed.

(** ** Concrete inputs *)

Definition ex_merged : val := VObj [("kind", VStr "merged")].
Definition ex_waits : val := VObj [("kind", VStr "wait"); ("reason", VStr "awaiting required checks")].

Example impatience_is_attributed :
  exists c, classifyDivergence ex_merged ex_waits None false false = Ok c /\ class_ c = "ci-impatience"
    /\ ref_ c = Some "AR#550".
Proof. eexists. split; [reflexivity|]. split; reflexivity. Qed.

Example merged_against_remediate_is_open :
  exists c, classifyDivergence ex_merged (VObj [("kind", VStr "remediate")]) None false false = Ok c
    /\ disposition_ c = open_triage.
Proof. eexists. split; reflexivity. Qed.

Lemma divergence_never_auto_absolved_witness : fingerprint ex_merged ex_waits.
Proof.
  destruct (divergence_never_auto_absolved ex_merged ex_waits None false false
    (classification diverge v1_defect "ci-impatience" (Some "AR#550")
       "v1 merged before required checks were present and settled at head; v2 withholds (AR#550 CI-impatience class)")
    eq_refl) as [H _].
  exact (proj1 (proj2 (proj2 (H eq_refl)))).
Defined.

Lemma normalized_action_classifies_witness :
  exists c, classifyDivergence (VObj [("kind", VStr "hammer-dispatch")]) (VObj []) None false false = Ok c.
Proof.
  exact (proj2 (proj2 (proj2 (normalized_action_classifies (VStr "hammer-dispatch")
    [("kind", VStr "hammer-dispatch")] eq_refl))) [] None false false).
Defined.
