(* ===== verification/QueueLane.v ===== *)
(** The vocabulary of the finalization queue (src/src/finalization: the lane
    part of ledger-events.mjs and ledger-fold.mjs, queue-wait.mjs, and the
    identity helpers of queue-store.mjs): lane keys, queue events, the replay of
    lane events, the restart classification of a publication, and waits. Entry
    and operation identities are those [queueId] admits; the load-scaled wait,
    an integer number of milliseconds that depends on the host, is an argument. *)

From Stdlib Require Import ZArith Lia Ascii SpecFloat.
From stdpp Require Import base list strings.
From S2P Require Import Prelude JsNum JsValue JsDate.

(** ** ledger-events.mjs: lanes *)

Definition QUEUE_PHASES : list string :=
  ["acknowledged"; "ready"; "rebasing"; "publishing"; "waiting-checks"; "finalizing"; "merged";
   "parked-hold"; "parked-permission"; "parked-infrastructure"; "returned-to-closer"; "closed-observed"].
Definition QUEUE_ACTIONABLE_PHASES : list string := take 6 QUEUE_PHASES.
Definition QUEUE_EVENT_TYPES : list string :=
  ["acknowledged"; "progress"; "operation-intent"; "operation-result"; "owner-claimed"; "owner-renewed";
   "owner-released"; "owner-parked"].

Record Lane := { repository : string; base : string }.

#[export] Instance Lane_eq_dec : EqDecision Lane.
Proof. solve_decision. Defined.

Definition lane_fields (l : Lane) : obj := [("repository", VStr (repository l)); ("base", VStr (base l))].
Definition lane_val (l : Lane) : val := VObj (lane_fields l).
Definition lane_pk (l : Lane) : string * string := (repository l, base l).

Definition alnum (a : ascii) : bool := in_range 48 57 a || in_range 65 90 a || in_range 97 122 a.
(** [[\w.-]]. *)
Definition name_char (a : ascii) : bool := alnum a || str_in (String a "") ["_"; "."; "-"].

(** [/^[\w.-]+\/[\w.-]+$/]. *)
Definition is_full_name (s : string) : bool :=
  match split_on "/" s with
  | [owner; name] =>
      negb (String.eqb owner "") && all_chars name_char owner
      && (negb (String.eqb name "") && all_chars name_char name)
  | _ => false
  end.

(** [/[\s~^:?*\[\\\x00-\x1f\x7f]/]. *)
Fixpoint has_forbidden (s : string) : bool :=
  match s with
  | EmptyString => false
  | String a s' =>
      is_ws_at s || str_in (String a "") ["~"; "^"; ":"; "?"; "*"; "["; backslash]
      || in_range 0 31 a || (code a =? 127)%N || has_forbidden s'
  end.

Definition is_branch (s : string) : bool :=
  negb (String.eqb s "" || starts_with "refs/" s || starts_with "/" s || ends_with "/" s || ends_with "." s
        || includes ".." s || includes "@{" s || String.eqb s "@" || has_forbidden s
        || some_b (fun p => String.eqb p "" || starts_with "." p || ends_with ".lock" p) (split_on "/" s)).

Definition resolveLaneKey (lane : val) : result Lane :=
  match lane with
  | VNull => Throw (TypeError "Cannot destructure property 'repository' of 'object null' as it is null.")
  | _ =>
      match oget lane "repository" with
      | VStr r =>
          if is_full_name r then
            match oget lane "base" with
            | VStr b =>
                if is_branch b then Ok {| repository := to_lower r; base := b |}
                else Throw (TypeError "lane requires a short, valid base branch ref")
            | _ => Throw (TypeError "lane requires a short, valid base branch ref")
            end
          else Throw (TypeError "lane requires repository full name")
      | _ => Throw (TypeError "lane requires repository full name")
      end
  end.

Section Queue.
Context {hostDate : HostDate}.

Definition makeQueueEvent (type : string) (lane : val) (fields : obj) : result obj :=
  if negb (str_in type QUEUE_EVENT_TYPES) then Throw (TypeError "unknown queue event")
  else match date_parse (to_str (get fields "at")) with
       | None => Throw (TypeError "queue event requires at")
       | Some _ =>
           let* l := resolveLaneKey lane in
           Ok (map_set (map_set fields "type" (VStr type)) "lane" (lane_val l))
       end.

(** ** queue-store.mjs: identities and times *)

Definition id_char (a : ascii) : bool := alnum a || str_in (String a "") [":"; "_"; "-"].

Definition queueId (value : val) : result string :=
  match value with
  | VStr (String a s as id) =>
      if alnum a && all_chars id_char s && Nat.leb (String.length s) 159
         && negb (str_in id ["constructor"; "prototype"; "__proto__"])
      then Ok id else Throw (TypeError "invalid queue identity")
  | _ => Throw (TypeError "invalid queue identity")
  end.

Definition queueTime (value : val) : result string :=
  match value with
  | VStr s => match date_parse s with
              | Some t => Ok (to_iso t)
              | None => Throw (TypeError "invalid queue timestamp")
              end
  | _ => Throw (TypeError "invalid queue timestamp")
  end.

(** ** queue-wait.mjs *)

Definition MAX_TIMER_DELAY_MS : Z := (2 ^ 31 - 1)%Z.

Definition queueWaitMs (scaled ceilingMs : Z) (deadline : option string) (now : string) : result Z :=
  if (ceilingMs <=? 0)%Z then Throw (TypeError "finite wait ceiling required")
  else
    let bounded r := Z.max 0 (Z.min r (Z.min ceilingMs (Z.min MAX_TIMER_DELAY_MS scaled))) in
    match deadline with
    | None => Ok (bounded MAX_TIMER_DELAY_MS)
    | Some d =>
        match date_parse d, date_parse now with
        | Some due, Some t => Ok (bounded (due - t)%Z)
        | _, _ => Throw (TypeError "invalid wait deadline")
        end
    end.

Record Patience := { startedAt : string; nominalMs : Z; effectiveMs : Z; ceilingMs : Z; deadline : string }.

Definition PATIENCE_NOMINAL_MS : Z := 1800000.
Definition PATIENCE_CEILING_MS : Z := 3600000.

Definition queuePatience (at_ : string) (scaled : Z) : result Patience :=
  let* effective := queueWaitMs scaled PATIENCE_CEILING_MS None at_ in
  match date_parse at_ with
  | Some t =>
      let* due := date_to_iso (num_of_Z (t + effective)) in
      Ok {| startedAt := at_; nominalMs := PATIENCE_NOMINAL_MS; effectiveMs := effective;
            ceilingMs := PATIENCE_CEILING_MS; deadline := due |}
  | None => Throw (RangeError "Invalid time value")
  end.

Definition patience_val (p : Patience) : val :=
  VObj [("startedAt", VStr (startedAt p)); ("nominalMs", VInt (nominalMs p));
        ("effectiveMs", VInt (effectiveMs p)); ("ceilingMs", VInt (ceilingMs p));
        ("deadline", VStr (deadline p))].

End Queue.

(** ** ledger-fold.mjs: the replay of lane events *)

Record QueueState := { qEntries : obj; qOwner : val; qOperations : obj }.
Definition emptyQueueState : QueueState := {| qEntries := []; qOwner := VNull; qOperations := [] |}.

(** [cloneState(v)]: a JSON round trip; undefined has no JSON text. *)
Definition clone (v : val) : result val :=
  match v with
  | VUndef => Throw (PlainError "SyntaxError")
  | _ => Ok (json_norm v)
  end.

Definition clone_queue (s : QueueState) : QueueState :=
  {| qEntries := norm_fields (qEntries s); qOwner := json_norm (qOwner s);
     qOperations := norm_fields (qOperations s) |}.

(** [Object.assign(target, source)] on the stored value. *)
Definition assign (target source : val) : val :=
  match target, source with VObj o, VObj p => VObj (spread o p) | _, _ => target end.
Definition set_member (target : val) (k : string) (v : val) : val :=
  match target with VObj o => VObj (map_set o k v) | _ => target end.

(** A lookup with the name of an inherited member finds a function, not an
    entry, and what is assigned to that function is not in the state. *)
Definition update_at (m : obj) (k : string) (f : val -> val) (missing : jserror) : result obj :=
  match map_get m k with
  | Some v => Ok (map_set m k (f v))
  | None => if str_in k OBJECT_MEMBERS then Ok m else Throw missing
  end.

Definition set_entries (s : QueueState) (m : obj) : QueueState :=
  {| qEntries := m; qOwner := qOwner s; qOperations := qOperations s |}.
Definition set_operations (s : QueueState) (m : obj) : QueueState :=
  {| qEntries := qEntries s; qOwner := qOwner s; qOperations := m |}.

Definition apply_queue_event (s : QueueState) (event : obj) : result QueueState :=
  match get event "type" with
  | VStr t =>
      if String.eqb t "acknowledged" then
        let* id := member (get event "entry") "entryId" in
        let* entry := clone (get event "entry") in
        Ok (set_entries s (map_set (qEntries s) (to_str id) entry))
      else if String.eqb t "progress" then
        let k := to_str (get event "entryId") in
        let missing := PlainError "queue progress without acknowledgement" in
        if negb (match map_get (qEntries s) k with Some _ => true | None => str_in k OBJECT_MEMBERS end)
        then Throw missing
        else
          let* patch := clone (get event "patch") in
          let* m := update_at (qEntries s) k (fun e => assign e patch) missing in
          Ok (set_entries s m)
      else if starts_with "owner-" t then
        let* owner := clone (get event "owner") in
        Ok {| qEntries := qEntries s; qOwner := owner; qOperations := qOperations s |}
      else if String.eqb t "operation-intent" then
        let* id := member (get event "operation") "operationId" in
        let* op := clone (get event "operation") in
        Ok (set_operations s (map_set (qOperations s) (to_str id) op))
      else if String.eqb t "operation-result" then
        let* res := clone (get event "result") in
        let* m := update_at (qOperations s) (to_str (get event "operationId"))
                    (fun o => set_member o "result" res)
                    (TypeError "Cannot set properties of undefined (setting 'result')") in
        Ok (set_operations s m)
      else Ok s
  | _ => Throw (TypeError "event.type.startsWith is not a function")
  end.

Fixpoint fold_events (s : QueueState) (events : list obj) : result QueueState :=
  match events with
  | [] => Ok s
  | e :: events' => let* s' := apply_queue_event s e in fold_events s' events'
  end.

Definition foldQueue (events : list obj) (snapshot : QueueState) : result QueueState :=
  fold_events (clone_queue snapshot) events.

Record Reconciliation := { nextPhase : string; nextReason : string; clearsChecks : bool }.

Definition reconcileQueuePublication (entry observation : val) : result Reconciliation :=
  let to p why := Ok {| nextPhase := p; nextReason := why; clearsChecks := false |} in
  if negb (truthy (oget observation "sourceRef") && truthy (oget observation "head")
           && truthy (oget observation "base"))
  then to "parked-infrastructure" "publication-observation-unavailable"
  else if is_str (oget observation "state") "closed" then to "closed-observed" "live-closed"
  else if negb (is_str (oget observation "state") "open")
  then to "parked-infrastructure" "terminal-state-requires-reconciliation"
  else
    let* candidate := member entry "candidate" in
    let* old := member entry "expectedOldHead" in
    let head := oget observation "head" in
    if negb (strict_eq head candidate || strict_eq head old)
    then to "returned-to-closer" "external-head-change"
    else if negb (strict_eq (oget observation "base") (oget entry "exactBase"))
    then Ok {| nextPhase := "rebasing"; nextReason := "external-base-change"; clearsChecks := true |}
    else if strict_eq head candidate then to "waiting-checks" "candidate-already-published"
    else to "publishing" "expected-old-head-observed".

(** The object the source returns. *)
Definition recovery_patch (r : Reconciliation) : obj :=
  ("reason", VStr (nextReason r)) :: (if clearsChecks r then [("checks", VNull)] else []).

(** ** Facts: lane keys *)

Lemma lower_name_char a : name_char a = true -> name_char (lower_ascii a) = true.
Proof. destruct a as [[] [] [] [] [] [] [] []]; vm_compute; auto. Qed.

Lemma lower_slash a : Ascii.eqb (lower_ascii a) "/" = Ascii.eqb a "/".
Proof. destruct a as [[] [] [] [] [] [] [] []]; reflexivity. Qed.

Lemma all_chars_lower s : all_chars name_char s = true -> all_chars name_char (to_lower s) = true.
Proof.
  induction s as [|a s IH]; [done|]. cbn [all_chars to_lower]. intros [Ha Hs]%andb_true_iff.
  rewrite lower_name_char, IH; done.
Qed.

Lemma split_lower s : split_on "/" (to_lower s) = map to_lower (split_on "/" s).
Proof.
  induction s as [|a s IH]; [done|]. cbn [split_on to_lower]. rewrite lower_slash, IH.
  destruct (Ascii.eqb a "/"); [done|]. by destruct (split_on "/" s).
Qed.

Lemma lower_empty s : String.eqb (to_lower s) "" = String.eqb s "".
Proof. by destruct s. Qed.

Lemma is_full_name_lower r : is_full_name r = true -> is_full_name (to_lower r) = true.
Proof.
  unfold is_full_name. rewrite split_lower.
  destruct (split_on "/" r) as [|o [|n [|]]]; try done. cbn [map].
  rewrite !lower_empty. intros [[Ho Hoc]%andb_true_iff [Hn Hnc]%andb_true_iff]%andb_true_iff.
  by rewrite Ho, Hn, !all_chars_lower.
Qed.

Lemma resolveLaneKey_inv v l :
  resolveLaneKey v = Ok l ->
  exists r b, oget v "repository" = VStr r /\ oget v "base" = VStr b
    /\ is_full_name r = true /\ is_branch b = true /\ l = {| repository := to_lower r; base := b |}.
Proof.
  unfold resolveLaneKey. intros H. destruct v; try done.
  all: destruct (oget _ "repository") as [| | | |r| |] eqn:Er; try done.
  all: destruct (is_full_name r) eqn:Ef; [|done].
  all: destruct (oget _ "base") as [| | | |b| |] eqn:Eb; try done.
  all: destruct (is_branch b) eqn:Ebr; [|done].
  all: injection H as <-; eauto 10.
Qed.

Lemma resolveLaneKey_fields r b :
  is_full_name r = true -> is_branch b = true ->
  resolveLaneKey (lane_val {| repository := r; base := b |}) = Ok {| repository := to_lower r; base := b |}.
Proof.
  intros Hr Hb. transitivity (if is_full_name r then
    if is_branch b then Ok {| repository := to_lower r; base := b |}
    else Throw (TypeError "lane requires a short, valid base branch ref")
    else Throw (TypeError "lane requires repository full name")); [reflexivity | by rewrite Hr, Hb].
Qed.

Lemma resolveLaneKey_lane v l : resolveLaneKey v = Ok l -> resolveLaneKey (lane_val l) = Ok l.
Proof.
  intros (r & b & _ & _ & Hf & Hb & ->)%resolveLaneKey_inv.
  rewrite resolveLaneKey_fields by auto using is_full_name_lower. by rewrite to_lower_idem.
Qed.

(** Two accepted lane inputs are the same lane exactly when their bases
    are equal and their repositories are equal up to the case of letters, and
    an accepted key is its own canonical form. *)
Theorem lane_identity (v w : val) (l m : Lane) :
  resolveLaneKey v = Ok l -> resolveLaneKey w = Ok m ->
  resolveLaneKey (lane_val l) = Ok l
  /\ (l = m <-> oget v "base" = oget w "base"
               /\ exists r r', oget v "repository" = VStr r /\ oget w "repository" = VStr r'
                    /\ to_lower r = to_lower r').
Proof.
  intros Hv Hw. split; [by eapply resolveLaneKey_lane|].
  apply resolveLaneKey_inv in Hv as (r & b & Er & Eb & _ & _ & ->).
  apply resolveLaneKey_inv in Hw as (r' & b' & Er' & Eb' & _ & _ & ->).
  rewrite Er, Eb, Er', Eb'. split.
  - intros [= E ->]. split; [done|]. eauto.
  - intros [Hb (x & y & Hx & Hy & E)]. congruence.
Qed.

(** ** Facts: replay *)

Definition stable_fields (o : obj) : Prop := norm_fields o = o.

Lemma norm_fields_cons k v o :
  v <> VUndef -> norm_fields ((k, v) :: o) = (k, json_norm v) :: norm_fields o.
Proof. by destruct v. Qed.

Lemma stable_fields_cons k v o : stable_fields ((k, v) :: o) <-> v <> VUndef /\ json_stable v /\ stable_fields o.
Proof.
  unfold stable_fields, json_stable. split.
  - intros H. assert (Hn : v <> VUndef).
    { intros ->. pose proof (norm_fields_length o) as Hl. simpl in H. rewrite H in Hl. simpl in Hl. lia. }
    rewrite norm_fields_cons in H by done. injection H as H1 H2. done.
  - intros (Hn & Hv & Ho). by rewrite norm_fields_cons, Hv, Ho.
Qed.

Lemma stable_map_set o k v : stable_fields o -> v <> VUndef -> json_stable v -> stable_fields (map_set o k v).
Proof.
  intros Ho Hn Hv. induction o as [|[k' w] o IH]; simpl; [by apply stable_fields_cons|].
  apply stable_fields_cons in Ho as (Hw & Hs & Ho).
  destruct (String.eqb k k'); apply stable_fields_cons; auto.
Qed.

Lemma norm_defined v : v <> VUndef -> json_norm v <> VUndef.
Proof. destruct v as [| | |[]| | |]; simpl; congruence. Qed.

Lemma stable_norm_fields o : stable_fields (norm_fields o).
Proof. pose proof (json_norm_stable (VObj o)) as H. unfold json_stable in H. rewrite !json_norm_obj in H. by injection H. Qed.

Lemma stable_obj o : json_stable (VObj o) <-> stable_fields o.
Proof. unfold json_stable, stable_fields. rewrite json_norm_obj. split; congruence. Qed.

Lemma stable_spread o p : stable_fields o -> stable_fields p -> stable_fields (spread o p).
Proof.
  unfold spread. revert o. induction p as [|[k v] p IH]; intros o Ho Hp; [done|].
  apply stable_fields_cons in Hp as (Hn & Hv & Hp). simpl. apply IH; [by apply stable_map_set | done].
Qed.

Lemma stable_lookup o k v : stable_fields o -> map_get o k = Some v -> v <> VUndef /\ json_stable v.
Proof.
  induction o as [|[k' w] o IH]; simpl; [done|]. intros (Hn & Hw & Ho)%stable_fields_cons.
  destruct (String.eqb k k'); [intros [= <-]; done | by apply IH].
Qed.

Lemma clone_Ok v w : clone v = Ok w -> w = json_norm v /\ w <> VUndef /\ json_stable w.
Proof.
  intros H. assert (Hv : v <> VUndef /\ w = json_norm v) by (destruct v; cbn [clone] in H; split; congruence).
  destruct Hv as [Hn ->]. split; [done|]. split; [by apply norm_defined | apply json_norm_stable].
Qed.

Definition stable_queue (s : QueueState) : Prop :=
  stable_fields (qEntries s) /\ json_stable (qOwner s) /\ stable_fields (qOperations s).

Lemma stable_update_at m k f e m' :
  update_at m k f e = Ok m' -> stable_fields m ->
  (forall v, v <> VUndef -> json_stable v -> f v <> VUndef /\ json_stable (f v)) -> stable_fields m'.
Proof.
  unfold update_at. intros H Hm Hf. destruct (map_get m k) as [v|] eqn:E.
  - injection H as <-. destruct (stable_lookup _ _ _ Hm E) as [Hn Hv]. destruct (Hf v Hn Hv).
    by apply stable_map_set.
  - destruct (str_in k OBJECT_MEMBERS); [|done]. by injection H as <-.
Qed.

Lemma apply_queue_stable s e s' : apply_queue_event s e = Ok s' -> stable_queue s -> stable_queue s'.
Proof.
  unfold apply_queue_event. intros H (He & Ho & Hp). destruct (get e "type") as [| | | |t| |]; try done.
  destruct (String.eqb t "acknowledged").
  { apply rbind_Ok in H as (id & _ & H). apply rbind_Ok in H as (w & (_ & Hn & Hs)%clone_Ok & [= <-]).
    split; [by apply stable_map_set | done]. }
  destruct (String.eqb t "progress").
  { destruct (negb _); [done|]. apply rbind_Ok in H as (w & (_ & Hn & Hs)%clone_Ok & H).
    apply rbind_Ok in H as (m & Hm & [= <-]). split; [|done].
    eapply stable_update_at; [exact Hm | done|]. intros v Hvn Hvs.
    destruct v; try done. destruct w; try done. split; [done|]. apply stable_obj.
    apply stable_spread; by apply stable_obj. }
  destruct (starts_with "owner-" t).
  { apply rbind_Ok in H as (w & (_ & Hn & Hs)%clone_Ok & [= <-]). done. }
  destruct (String.eqb t "operation-intent").
  { apply rbind_Ok in H as (id & _ & H). apply rbind_Ok in H as (w & (_ & Hn & Hs)%clone_Ok & [= <-]).
    split; [done|]. split; [done|]. by apply stable_map_set. }
  destruct (String.eqb t "operation-result"); [|by injection H as <-].
  apply rbind_Ok in H as (w & (_ & Hn & Hs)%clone_Ok & H). apply rbind_Ok in H as (m & Hm & [= <-]).
  split; [done|]. split; [done|]. eapply stable_update_at; [exact Hm | done|]. intros v Hvn Hvs.
  destruct v; try done. split; [done|]. apply stable_obj. apply stable_map_set; [by apply stable_obj | done..].
Qed.

Lemma fold_events_app s es1 es2 :
  fold_events s (es1 ++ es2) = (let* s' := fold_events s es1 in fold_events s' es2).
Proof.
  revert s. induction es1 as [|e es1 IH]; intros s; [done|]. cbn [fold_events app].
  destruct (apply_queue_event s e); cbn [rbind]; [apply IH | done].
Qed.

Lemma fold_events_stable s es s' : fold_events s es = Ok s' -> stable_queue s -> stable_queue s'.
Proof.
  revert s. induction es as [|e es IH]; cbn [fold_events]; intros s; [by intros [= <-]|].
  intros (t & Ht & H)%rbind_Ok Hs. eapply IH; [exact H|]. by eapply apply_queue_stable.
Qed.

Lemma clone_queue_stable s : stable_queue s -> clone_queue s = s.
Proof. destruct s. intros (He & Ho & Hp). unfold clone_queue. simpl in *. by rewrite He, Ho, Hp. Qed.

Lemma stable_clone_queue s : stable_queue (clone_queue s).
Proof. split; [apply stable_norm_fields|]. split; [apply json_norm_stable | apply stable_norm_fields]. Qed.

(** Replaying a tail of lane events onto the state a prefix folded to
    equals replaying the whole list, for any snapshot and any events, and an
    error of the prefix is the error of the whole. *)
Theorem foldQueue_resume (es1 es2 : list obj) (snapshot : QueueState) :
  foldQueue (es1 ++ es2) snapshot = (let* s := foldQueue es1 snapshot in foldQueue es2 s).
Proof.
  unfold foldQueue. rewrite fold_events_app.
  destruct (fold_events (clone_queue snapshot) es1) as [s|] eqn:E; [|done]. cbn [rbind].
  rewrite (clone_queue_stable s); [done|]. eapply fold_events_stable; [exact E|]. apply stable_clone_queue.
Qed.

(** The phases a restart may put a publication in. *)
Lemma reconcile_phases entry observation r :
  reconcileQueuePublication entry observation = Ok r ->
  In (nextPhase r) ["parked-infrastructure"; "closed-observed"; "returned-to-closer"; "rebasing";
                    "waiting-checks"; "publishing"].
Proof.
  unfold reconcileQueuePublication. cbv zeta. intros H.
  destruct (negb _) in H; [injection H as <-; simpl; tauto|].
  destruct (is_str _ "closed") in H; [injection H as <-; simpl; tauto|].
  destruct (negb _) in H; [injection H as <-; simpl; tauto|].
  apply rbind_Ok in H as (c & _ & H). apply rbind_Ok in H as (o & _ & H).
  repeat (destruct (negb _) in H; [injection H as <-; simpl; tauto|]).
  destruct (strict_eq _ c) in H; injection H as <-; simpl; tauto.
Qed.

(** A restart resumes a publication only on evidence: it goes on
    publishing only when an open subject shows the expected old head on the
    exact base, waits for checks only when it shows the candidate on that base,
    and never ends in the merged phase or in one before the rebase. *)
Theorem reconcile_grounded (entry observation : val) (r : Reconciliation) :
  reconcileQueuePublication entry observation = Ok r ->
  In (nextPhase r) ["parked-infrastructure"; "closed-observed"; "returned-to-closer"; "rebasing";
                    "waiting-checks"; "publishing"]
  /\ (nextPhase r = "publishing" \/ nextPhase r = "waiting-checks" ->
        truthy (oget observation "sourceRef") = true
        /\ oget observation "state" = VStr "open"
        /\ strict_eq (oget observation "base") (oget entry "exactBase") = true
        /\ strict_eq (oget observation "head")
             (oget entry (if String.eqb (nextPhase r) "publishing" then "expectedOldHead" else "candidate")) = true)
  /\ (nextPhase r = "closed-observed" -> oget observation "state" = VStr "closed")
  /\ (nextPhase r = "returned-to-closer" ->
        strict_eq (oget observation "head") (oget entry "candidate") = false
        /\ strict_eq (oget observation "head") (oget entry "expectedOldHead") = false).
Proof.
  unfold reconcileQueuePublication. cbv zeta. intros H.
  destruct (truthy (oget observation "sourceRef")) eqn:Es; cbn [andb negb] in H;
    [|injection H as <-; cbn; intuition discriminate].
  destruct (negb _) eqn:Eo; [injection H as <-; cbn; intuition discriminate|].
  destruct (is_str (oget observation "state") "closed") eqn:Ec.
  { apply is_str_eq in Ec. injection H as <-; cbn; intuition discriminate. }
  destruct (is_str (oget observation "state") "open") eqn:Eop; cbn [negb] in H;
    [|injection H as <-; cbn; intuition discriminate].
  apply is_str_eq in Eop. unfold member in H. destruct (is_nullish entry); [done|]. cbn [rbind] in H.
  destruct (strict_eq (oget observation "head") (oget entry "candidate")) eqn:E1,
    (strict_eq (oget observation "head") (oget entry "expectedOldHead")) eqn:E2; cbn [orb negb] in H;
    destruct (strict_eq (oget observation "base") (oget entry "exactBase")) eqn:Eb; cbn [negb] in H;
    try rewrite E1 in H; injection H as <-; cbn; intuition first [discriminate | auto].
Qed.

(** ** Concrete inputs *)

Definition ex_lane : Lane := {| repository := "acme/app"; base := "main" |}.
Definition ex_observation (head base_ : string) : val :=
  VObj [("sourceRef", VStr "live:1"); ("state", VStr "open"); ("head", VStr head); ("base", VStr base_)].
Definition ex_publication : val :=
  VObj [("candidate", VStr "c1"); ("expectedOldHead", VStr "h1"); ("exactBase", VStr "b1")].

Example lane_examples :
  (resolveLaneKey (VObj [("repository", VStr "Acme/App"); ("base", VStr "main")]),
   is_ok (resolveLaneKey (VObj [("repository", VStr "acme/app"); ("base", VStr "refs/heads/main")])),
   is_ok (resolveLaneKey (VObj [("repository", VStr "acme/app"); ("base", VStr "a..b")])))
  = (Ok ex_lane, false, false).
Proof. vm_compute. reflexivity. Qed.

Lemma lane_identity_witness :
  resolveLaneKey (lane_val ex_lane) = Ok ex_lane.
Proof.
  exact (proj1 (lane_identity (VObj [("repository", VStr "Acme/App"); ("base", VStr "main")])
    (lane_val ex_lane) ex_lane ex_lane ltac:(vm_compute; reflexivity) ltac:(vm_compute; reflexivity))).
Defined.

Lemma reconcile_grounded_witness :
  oget (ex_observation "h1" "b1") "state" = VStr "open".
Proof.
  refine (proj1 (proj2 (proj1 (proj2 (reconcile_grounded ex_publication (ex_observation "h1" "b1")
    {| nextPhase := "publishing"; nextReason := "expected-old-head-observed"; clearsChecks := false |}
    _)) _))).
  - vm_compute. reflexivity.
  - left. reflexivity.
Defined.
