(* ===== verification/QueueStore.v ===== *)
(** The finalization queue store (src/src/finalization/queue-store.mjs): the
    tables of the queue as finite maps and row lists, its admission
    ([acknowledge]) and its fenced progress transaction. A transaction is a
    function of the database that answers a new database or throws, leaving the
    old one. A payload column holds the fields its JSON text denotes. *)

From Stdlib Require Import ZArith Lia Ascii SpecFloat.
From stdpp Require Import base list strings gmap sorting.
From S2P Require Import Prelude JsNum JsValue JsDate QueueLane.

Record LaneRow := {
  generation : Z;
  route_generation : Z;
  owner_id : option string;
  owner_state : string;
  owner_acquired : option string;
  heartbeat_at : option string;
  expires_at : option string;
  owner_reason : option string;
  readiness_seq : Z
}.

Definition new_lane_row : LaneRow := {|
  generation := 0; route_generation := 0; owner_id := None; owner_state := "idle"; owner_acquired := None;
  heartbeat_at := None; expires_at := None; owner_reason := None; readiness_seq := 0 |}.

Record EntryRow := {
  entry_id : string;
  entry_lane : string * string;
  pr_number : Z;
  admission_head : string;
  admission_generation : Z;
  handoff_id : string;
  ack_id : string;
  entry_seq : Z;
  entry_phase : string;
  entry_payload : obj
}.

Record EventRow := {
  event_seq : Z;
  event_lane : string * string;
  queue_event_type : string;
  event_at : string;
  event_payload : obj
}.

Record OpRow := {
  operation_id : string;
  op_lane : string * string;
  op_entry : string;
  op_generation : Z;
  op_route_generation : Z;
  op_kind : string;
  op_intent : obj;
  op_result : option val
}.

Record RouteRow := { route_executor : string; in_transition : bool }.

Record Db := {
  lanes : gmap (string * string) LaneRow;
  entry_rows : list EntryRow;
  event_rows : list EventRow;
  last_event : Z;
  op_rows : list OpRow;
  routes : gmap (string * string) RouteRow
}.

(** The tables of a new store, with the routes its operator has set. *)
Definition initial (rts : gmap (string * string) RouteRow) : Db := {|
  lanes := ∅; entry_rows := []; event_rows := []; last_event := 0; op_rows := []; routes := rts |}.

Definition set_lanes (db : Db) (l : gmap (string * string) LaneRow) : Db := {|
  lanes := l; entry_rows := entry_rows db; event_rows := event_rows db; last_event := last_event db;
  op_rows := op_rows db; routes := routes db |}.
Definition set_entry_rows (db : Db) (l : list EntryRow) : Db := {|
  lanes := lanes db; entry_rows := l; event_rows := event_rows db; last_event := last_event db;
  op_rows := op_rows db; routes := routes db |}.
Definition set_op_rows (db : Db) (l : list OpRow) : Db := {|
  lanes := lanes db; entry_rows := entry_rows db; event_rows := event_rows db; last_event := last_event db;
  op_rows := l; routes := routes db |}.

Record Fence := { f_lane : Lane; f_owner : string; f_generation : Z; f_route : Z }.

Definition same_lane (l : Lane) (pk : string * string) : bool := bool_decide (lane_pk l = pk).

(** The order of a lane: [ORDER BY readiness_seq, entry_id]. *)
Definition row_before (a b : EntryRow) : Prop :=
  (entry_seq a < entry_seq b)%Z \/ (entry_seq a = entry_seq b /\ String.leb (entry_id a) (entry_id b) = true).
#[export] Instance row_before_dec a b : Decision (row_before a b).
Proof. unfold row_before. solve_decision. Defined.

Section QueueStore.
Context {hostDate : HostDate}.

(** ** Statements and their helpers *)

Definition ensureLane (db : Db) (l : Lane) : Db :=
  match lanes db !! lane_pk l with
  | Some _ => db
  | None => set_lanes db (<[lane_pk l := new_lane_row]> (lanes db))
  end.

Definition with_readiness (r : LaneRow) (n : Z) : LaneRow := {|
  generation := generation r; route_generation := route_generation r; owner_id := owner_id r;
  owner_state := owner_state r; owner_acquired := owner_acquired r; heartbeat_at := heartbeat_at r;
  expires_at := expires_at r; owner_reason := owner_reason r; readiness_seq := n |}.

(** [UPDATE ... SET readiness_seq=readiness_seq+1 ... RETURNING readiness_seq]. *)
Definition bump_readiness (db : Db) (l : Lane) : result (Z * Db) :=
  match lanes db !! lane_pk l with
  | Some r => Ok ((readiness_seq r + 1)%Z,
                  set_lanes db (<[lane_pk l := with_readiness r (readiness_seq r + 1)]> (lanes db)))
  | None => Throw (TypeError "Cannot read properties of undefined (reading 'readiness_seq')")
  end.

Definition append (db : Db) (type : string) (lane : val) (fields : obj) : result (obj * Db) :=
  let* event := makeQueueEvent type lane fields in
  let* l := resolveLaneKey lane in
  let n := (last_event db + 1)%Z in
  let row := {| event_seq := n; event_lane := lane_pk l; queue_event_type := type;
                event_at := to_str (get fields "at"); event_payload := norm_fields event |} in
  Ok (map_set event "seq" (VInt n),
      {| lanes := lanes db; entry_rows := entry_rows db; event_rows := event_rows db ++ [row];
         last_event := n; op_rows := op_rows db; routes := routes db |}).

Definition row_of_id (db : Db) (id : string) : option EntryRow :=
  find_b (fun r => String.eqb (entry_id r) id) (entry_rows db).

Definition readEntry (db : Db) (id : val) : result (option obj) :=
  let* i := queueId id in Ok (entry_payload <$> row_of_id db i).

Definition lane_rows (db : Db) (l : Lane) : list EntryRow :=
  merge_sort row_before (filter_b (fun r => same_lane l (entry_lane r)) (entry_rows db)).
Definition entries (db : Db) (lane : val) : result (list obj) :=
  let* l := resolveLaneKey lane in Ok (map entry_payload (lane_rows db l)).

Definition readEvents (db : Db) (l : Lane) : list obj :=
  map (fun r => map_set (event_payload r) "seq" (VInt (event_seq r)))
      (filter_b (fun r => same_lane l (event_lane r)) (event_rows db)).

Definition readOwner (db : Db) (l : Lane) : option LaneRow := lanes db !! lane_pk l.

Definition operations (db : Db) (l : Lane) : list OpRow :=
  filter_b (fun o => same_lane l (op_lane o) && match op_result o with None => true | Some _ => false end)
           (op_rows db).

Definition stale_fence : jserror := PlainError "stale queue owner fence".

Definition assertFence (db : Db) (f : Fence) (now : val) : result LaneRow :=
  let* l := resolveLaneKey (lane_val (f_lane f)) in
  match routes db !! lane_pk l with
  | Some rt =>
      if negb (String.eqb (route_executor rt) "queue-v2" && negb (in_transition rt))
      then Throw (PlainError "queue route is not owned")
      else
        match readOwner db l with
        | None => Throw stale_fence
        | Some row =>
            if negb (String.eqb (owner_state row) "active" && bool_decide (owner_id row = Some (f_owner f))
                     && (generation row =? f_generation f)%Z && (route_generation row =? f_route f)%Z)
            then Throw stale_fence
            else
              match date_parse (default "null" (expires_at row)) with
              | None => Throw stale_fence
              | Some due =>
                  let* t := queueTime now in
                  match date_parse t with
                  | Some at_ => if (due <=? at_)%Z then Throw stale_fence else Ok row
                  | None => Ok row
                  end
              end
        end
  | None => Throw (PlainError "queue route is not owned")
  end.

(** ** [acknowledge] *)

Record Admission := {
  a_lane : val;
  a_entryId : val;
  a_prNumber : val;
  a_head : val;
  a_generation : val;
  a_handoffId : val;
  a_ackId : val;
  a_at : val;
  a_digest : option string
}.

(** [Number.isSafeInteger(v) && v > 0]. *)
Definition positive_int (v : val) : option Z :=
  match v with
  | VNum n => if is_safe_integer n then
                match num_to_Z n with Some z => if (0 <? z)%Z then Some z else None | None => None end
              else None
  | _ => None
  end.

Definition non_empty (v : val) : option string :=
  match v with VStr s => if String.eqb s "" then None else Some s | _ => None end.

Definition opt_text (s : option string) : val := match s with Some t => VStr t | None => VNull end.

(** The entry as it is first written. *)
Definition new_entry (l : Lane) (id : string) (pr : Z) (head : string) (gen : Z) (handoff ack : string)
    (digest : option string) (n : Z) (at_ : string) (p : Patience) : obj :=
  [("lane", lane_val l); ("entryId", VStr id); ("prNumber", VInt pr); ("head", VStr head);
   ("admissionGeneration", VInt gen); ("handoffId", VStr handoff); ("ackId", VStr ack);
   ("handoffDigest", opt_text digest); ("readinessSeq", VInt n); ("phase", VStr "acknowledged");
   ("acknowledgedAt", VStr at_); ("updatedAt", VStr at_); ("candidate", VNull);
   ("expectedOldHead", VStr head); ("exactBase", VNull); ("reason", VNull); ("patience", patience_val p);
   ("proof", VNull); ("checks", VNull); ("decision", VNull); ("delivery", VNull)].

Definition unique_error : jserror := PlainError "UNIQUE constraint failed".

(** The primary key and the uniqueness constraints of an entry row. *)
Definition entry_clash (r o : EntryRow) : bool :=
  String.eqb (entry_id o) (entry_id r)
  || bool_decide (entry_lane o = entry_lane r)
     && ((pr_number o =? pr_number r)%Z && String.eqb (admission_head o) (admission_head r)
           && (admission_generation o =? admission_generation r)%Z
         || String.eqb (handoff_id o) (handoff_id r) || String.eqb (ack_id o) (ack_id r)
         || (entry_seq o =? entry_seq r)%Z).

Definition insert_entry (db : Db) (r : EntryRow) : result Db :=
  if some_b (entry_clash r) (entry_rows db)
  then Throw unique_error
  else Ok (set_entry_rows db (entry_rows db ++ [r])).

(** The rows of the lane an admission collides with. *)
Definition admission_rows (db : Db) (l : Lane) (pr : Z) (head : string) (gen : Z) (handoff ack : string)
  : list EntryRow :=
  filter_b (fun r => same_lane l (entry_lane r)
      && ((pr_number r =? pr)%Z && String.eqb (admission_head r) head && (admission_generation r =? gen)%Z
          || String.eqb (handoff_id r) handoff || String.eqb (ack_id r) ack)) (entry_rows db).

(** The stored acknowledgement is the one asked for. *)
Definition same_admission (e : obj) (pr : Z) (head : string) (gen : Z) (handoff ack : string)
    (digest : option string) : bool :=
  strict_eq (get e "prNumber") (VInt pr) && strict_eq (get e "head") (VStr head)
  && strict_eq (get e "admissionGeneration") (VInt gen) && strict_eq (get e "handoffId") (VStr handoff)
  && strict_eq (get e "ackId") (VStr ack)
  && strict_eq (coalesce (get e "handoffDigest") VNull) (opt_text digest).

Definition acknowledge (db : Db) (a : Admission) (scaled : Z) : result (obj * Db) :=
  let* l := resolveLaneKey (a_lane a) in
  let* at_ := queueTime (a_at a) in
  let* id := queueId (a_entryId a) in
  let* handoff := queueId (a_handoffId a) in
  let* ack := queueId (a_ackId a) in
  match positive_int (a_prNumber a), non_empty (a_head a), positive_int (a_generation a) with
  | Some pr, Some head, Some gen =>
      let db := ensureLane db l in
      match admission_rows db l pr head gen handoff ack with
      | [] =>
          let* bumped := bump_readiness db l in
          let '(n, db) := bumped in
          let* p := queuePatience at_ scaled in
          let entry := new_entry l id pr head gen handoff ack (a_digest a) n at_ p in
          let row := {| entry_id := id; entry_lane := lane_pk l; pr_number := pr; admission_head := head;
                        admission_generation := gen; handoff_id := handoff; ack_id := ack; entry_seq := n;
                        entry_phase := "acknowledged"; entry_payload := norm_fields entry |} in
          let* db := insert_entry db row in
          let* appended := append db "acknowledged" (lane_val l) [("at", VStr at_); ("entry", VObj entry)] in
          Ok (entry, snd appended)
      | [r] =>
          if same_admission (entry_payload r) pr head gen handoff ack (a_digest a)
          then Ok (entry_payload r, db) else Throw (PlainError "conflicting queue acknowledgement")
      | _ => Throw (PlainError "conflicting queue acknowledgement")
      end
  | _, _, _ => Throw (TypeError "invalid queue admission")
  end.

(** ** [progress] *)

Definition PATCH_FIELDS : list string :=
  ["candidate"; "expectedOldHead"; "exactBase"; "reason"; "proof"; "checks"; "decision"; "delivery";
   "admission"; "rebase"; "infrastructure"; "merge"].

Definition TERMINAL_PHASES : list string := ["merged"; "closed-observed"; "returned-to-closer"].

(** [JSON.stringify(entry.lane) === JSON.stringify(lane)]. *)
Definition lane_json_is (v : val) (l : Lane) : bool :=
  match v with
  | VObj [(k1, VStr r); (k2, VStr b)] =>
      String.eqb k1 "repository" && String.eqb k2 "base" && String.eqb r (repository l) && String.eqb b (base l)
  | _ => false
  end.

Definition actionable (v : val) : bool := val_in v QUEUE_ACTIONABLE_PHASES.
Definition phase_index (v : val) : option nat :=
  match v with VStr s => find_index (String.eqb s) QUEUE_ACTIONABLE_PHASES | _ => None end.

(** The first actionable entry of the lane is the one with this id. *)
Definition is_lane_head (db : Db) (l : Lane) (id : string) : bool :=
  match find_b (fun e => actionable (get e "phase")) (map entry_payload (lane_rows db l)) with
  | Some e => is_str (get e "entryId") id
  | None => false
  end.

(** [(entry.progressVersion ?? 0) + 1], when it is a safe integer. *)
Definition next_version (v : val) : option num :=
  let next n := let m := num_add n (num_of_Z 1) in if is_safe_integer m then Some m else None in
  match coalesce v (VInt 0) with
  | VNum n => next n
  | VBool b => next (to_num (VBool b))
  | _ => None
  end.

(** The columns an UPDATE binds from the entry. *)
Definition seq_of (e : obj) : Z :=
  match get e "readinessSeq" with VNum n => default 0%Z (num_to_Z n) | _ => 0%Z end.

Definition written_row (r : EntryRow) (e : obj) : EntryRow := {|
  entry_id := entry_id r; entry_lane := entry_lane r; pr_number := pr_number r;
  admission_head := admission_head r; admission_generation := admission_generation r;
  handoff_id := handoff_id r; ack_id := ack_id r; entry_seq := seq_of e;
  entry_phase := to_str (get e "phase"); entry_payload := norm_fields e |}.

Definition seq_taken (db : Db) (e : obj) : bool :=
  some_b (fun r => is_str (get e "entryId") (entry_id r)
    && some_b (fun o => negb (String.eqb (entry_id o) (entry_id r)) && bool_decide (entry_lane o = entry_lane r)
                        && (entry_seq o =? seq_of e)%Z) (entry_rows db)) (entry_rows db).

Definition writeEntry (db : Db) (e : obj) : result Db :=
  if seq_taken db e then Throw unique_error
  else Ok (set_entry_rows db
    (map (fun r => if is_str (get e "entryId") (entry_id r) then written_row r e else r) (entry_rows db))).

Record Progress := {
  p_entryId : val;
  p_phase : string;
  p_patch : obj;
  p_at : val;
  p_readmit : bool;
  p_observation : val;
  p_expected : option obj
}.

(** The transition rule, for the phase and patch finally taken. *)
Definition transition_error (db : Db) (l : Lane) (id : string) (entry : obj) (phase : string)
    (readmit recovering : bool) : option jserror :=
  let was := actionable (get entry "phase") in
  let becomes := actionable (VStr phase) in
  if negb was && becomes && negb (readmit && String.eqb phase "ready")
  then Some (PlainError "recovery requires readmission")
  else if becomes && was && negb (is_lane_head db l id) then Some (PlainError "queue predecessor active")
  else if readmit && (was || negb (String.eqb phase "ready")) then Some (PlainError "invalid readmission")
  else if was && becomes
          && negb (bool_decide (phase_index (VStr phase) = S <$> phase_index (get entry "phase")))
          && negb (is_str (get entry "phase") phase) && negb (String.eqb phase "rebasing") && negb recovering
          && negb (is_str (get entry "phase") "finalizing" && String.eqb phase "waiting-checks")
  then Some (PlainError "invalid queue transition")
  else if String.eqb phase "merged" && negb (is_str (get entry "phase") "finalizing")
  then Some (PlainError "invalid merged transition")
  else None.

(** [Object.assign(entry, update)], the row and the event, in the transaction. *)
Definition commit_progress (db : Db) (f : Fence) (id : string) (entry : obj) (phase : string) (patch : obj)
    (at_ : string) (readmit : bool) (observation : val) (version : num) : result (obj * Db) :=
  let update := map_set (map_set (map_set patch "phase" (VStr phase)) "updatedAt" (VStr at_))
                  "progressVersion" (VNum version) in
  let* bumped := (if readmit then
                    let* l := resolveLaneKey (lane_val (f_lane f)) in
                    let* b := bump_readiness db l in
                    Ok (map_set update "readinessSeq" (VInt (fst b)), snd b)
                  else Ok (update, db)) in
  let '(update, db) := bumped in
  let entry' := spread entry update in
  let* db := writeEntry db entry' in
  let* appended := append db "progress" (lane_val (f_lane f))
    ([("at", VStr at_); ("entryId", VStr id); ("patch", VObj update);
      ("generation", VInt (f_generation f)); ("routeGeneration", VInt (f_route f));
      ("priorPhase", get entry "phase")]
     ++ (if truthy observation then [("observation", observation)] else [])) in
  Ok (entry', snd appended).

Definition progress (db : Db) (f : Fence) (p : Progress) : result (obj * Db) :=
  let* at_ := queueTime (p_at p) in
  guard str_in (p_phase p) QUEUE_PHASES else TypeError "invalid queue phase" in
  guard every_b (fun kv => str_in (fst kv) PATCH_FIELDS) (p_patch p)
  else TypeError "immutable queue entry field" in
  let* _ := assertFence db f (VStr at_) in
  let* found := readEntry db (p_entryId p) in
  let* l := resolveLaneKey (lane_val (f_lane f)) in
  match found, p_entryId p with
  | Some entry, VStr id =>
      guard lane_json_is (get entry "lane") l else PlainError "foreign queue entry" in
      guard match p_expected p with Some e => deep_eq (VObj entry) (VObj e) | None => true end
      else PlainError "queue admission observation superseded" in
      guard Nat.eqb (length (operations db l)) 0 else PlainError "unreconciled queue operation" in
      guard negb (val_in (get entry "phase") TERMINAL_PHASES) else PlainError "terminal queue entry" in
      let recovering := truthy (p_observation p) in
      let* taken :=
        (if recovering then
           if val_in (get entry "phase") ["publishing"; "waiting-checks"; "finalizing"] then
             let* r := reconcileQueuePublication (VObj entry) (p_observation p) in
             Ok (nextPhase r, recovery_patch r)
           else Throw (PlainError "invalid publication recovery phase")
         else Ok (p_phase p, p_patch p)) in
      let '(phase, patch) := taken in
      match transition_error db l id entry phase (p_readmit p) recovering with
      | Some e => Throw e
      | None =>
          match next_version (get entry "progressVersion") with
          | Some v => commit_progress db f id entry phase patch at_ (p_readmit p) (p_observation p) v
          | None => Throw (PlainError "queue progress version exhausted")
          end
      end
  | _, _ => Throw (PlainError "foreign queue entry")
  end.

(** ** Facts: objects *)

Lemma get_absent o k : ~ In k (map fst o) -> get o k = VUndef.
Proof.
  unfold get. induction o as [|[k' v] o IH]; simpl; [done|]. intros Hn.
  destruct (String.eqb k k') eqn:E; [|apply IH; tauto].
  apply String.eqb_eq in E as ->. tauto.
Qed.

Lemma norm_keys o k : In k (map fst (norm_fields o)) -> In k (map fst o).
Proof.
  induction o as [|[k' v] o IH]; [done|].
  assert (Hc : norm_fields ((k', v) :: o) = norm_fields o
               \/ norm_fields ((k', v) :: o) = (k', json_norm v) :: norm_fields o) by (destruct v; auto).
  destruct Hc as [-> | ->]; simpl; tauto.
Qed.

Lemma get_norm_fields o k : NoDup (map fst o) -> get (norm_fields o) k = json_norm (get o k).
Proof.
  induction o as [|[k' v] o IH]; [done|]. simpl map. intros [Hk Ho]%NoDup_cons.
  assert (Hv : v = VUndef \/ v <> VUndef) by (destruct v; auto).
  destruct Hv as [->|Hv].
  - cbn [norm_fields]. unfold get at 2. cbn [map_get]. destruct (String.eqb k k') eqn:E; [|by apply IH].
    apply String.eqb_eq in E as ->. apply get_absent. intros Hin%norm_keys. apply Hk. by apply list_elem_of_In.
  - rewrite norm_fields_cons by done. unfold get. cbn [map_get].
    destruct (String.eqb k k'); [done | by apply IH].
Qed.

Definition no_undef (o : obj) : Prop := Forall (fun kv => snd kv <> VUndef) o.

Lemma no_undef_map_set o k v : no_undef o -> v <> VUndef -> no_undef (map_set o k v).
Proof.
  unfold no_undef. intros Ho Hv. induction Ho as [|[k' w] o Hw Ho IH]; simpl; [by repeat constructor|].
  destruct (String.eqb k k'); constructor; auto.
Qed.

Lemma norm_map_set o k v :
  no_undef o -> v <> VUndef -> norm_fields (map_set o k v) = map_set (norm_fields o) k (json_norm v).
Proof.
  unfold no_undef. intros Ho Hv. induction Ho as [|[k' w] o Hw Ho IH].
  - cbn [map_set]. by rewrite norm_fields_cons.
  - simpl in Hw. rewrite (norm_fields_cons k' w) by done. cbn [map_set].
    destruct (String.eqb k k'); rewrite norm_fields_cons by done; [done | by rewrite IH].
Qed.

Lemma norm_spread o u :
  no_undef o -> no_undef u -> norm_fields (spread o u) = spread (norm_fields o) (norm_fields u).
Proof.
  unfold spread. intros Ho Hu. revert o Ho. induction Hu as [|[k v] u Hv Hu IH]; intros o Ho; [done|].
  simpl in Hv. cbn [fold_left fst snd]. rewrite IH by (by apply no_undef_map_set).
  rewrite norm_map_set, (norm_fields_cons k v) by done. done.
Qed.

Lemma no_undef_stable o : stable_fields o -> no_undef o.
Proof.
  induction o as [|[k v] o IH]; [by constructor|]. intros (Hv & _ & Ho)%stable_fields_cons.
  constructor; [exact Hv | by apply IH].
Qed.

Lemma map_set_absent {A} (m : jsmap A) k v : ~ In k (map fst m) -> map_set m k v = m ++ [(k, v)].
Proof.
  induction m as [|[k' w] m IH]; simpl; [done|]. intros Hk.
  destruct (String.eqb k k') eqn:E; [apply String.eqb_eq in E; subst; tauto|]. by rewrite IH by tauto.
Qed.

Lemma spread_app o u w : spread o (u ++ w) = spread (spread o u) w.
Proof. unfold spread. apply fold_left_app. Qed.

(** ** Facts: statements *)

Definition queue_event (type : string) (l : Lane) (fields : obj) : obj :=
  norm_fields (map_set (map_set fields "type" (VStr type)) "lane" (lane_val l)).

Lemma queue_append_inv db type lane fields ev db' :
  append db type lane fields = Ok (ev, db') ->
  exists l row, resolveLaneKey lane = Ok l /\ event_lane row = lane_pk l
    /\ event_payload row = queue_event type l fields
    /\ db' = {| lanes := lanes db; entry_rows := entry_rows db; event_rows := event_rows db ++ [row];
                last_event := (last_event db + 1)%Z; op_rows := op_rows db; routes := routes db |}.
Proof.
  unfold append, makeQueueEvent. intros H.
  apply rbind_Ok in H as (event & He & H). destruct (negb _) in He; [done|].
  destruct (date_parse _) in He; [|done].
  apply rbind_Ok in He as (l & Hl & [= <-]). rewrite Hl in H. cbn [rbind] in H. injection H as _ <-.
  do 2 eexists. split; [exact Hl|]. split; [|split; [|reflexivity]]; reflexivity.
Qed.

Lemma readEvents_snoc db db' row l :
  event_rows db' = event_rows db ++ [row] ->
  readEvents db' l = readEvents db l
    ++ (if same_lane l (event_lane row) then [map_set (event_payload row) "seq" (VInt (event_seq row))] else []).
Proof.
  intros E. unfold readEvents. rewrite E, filter_b_snoc, map_app. by destruct (same_lane _ _).
Qed.

Lemma same_lane_true l pk : same_lane l pk = true <-> lane_pk l = pk.
Proof. apply bool_decide_eq_true. Qed.

Lemma lane_pk_inj l m : lane_pk l = lane_pk m -> l = m.
Proof. destruct l, m. by intros [= -> ->]. Qed.

Lemma ensureLane_rows db l :
  entry_rows (ensureLane db l) = entry_rows db /\ event_rows (ensureLane db l) = event_rows db
  /\ op_rows (ensureLane db l) = op_rows db /\ last_event (ensureLane db l) = last_event db
  /\ routes (ensureLane db l) = routes db.
Proof. unfold ensureLane. by destruct (lanes db !! lane_pk l). Qed.

Lemma ensureLane_lookup db l pk r :
  lanes db !! pk = Some r -> lanes (ensureLane db l) !! pk = Some r.
Proof.
  unfold ensureLane. destruct (lanes db !! lane_pk l) eqn:E; [done|]. intros H. simpl.
  rewrite lookup_insert_ne; [done | congruence].
Qed.

Lemma ensureLane_own db l : exists r, lanes (ensureLane db l) !! lane_pk l = Some r
  /\ (lanes db !! lane_pk l = Some r \/ (lanes db !! lane_pk l = None /\ r = new_lane_row)).
Proof.
  unfold ensureLane. destruct (lanes db !! lane_pk l) as [r|] eqn:E; [eauto|].
  eexists. simpl. rewrite lookup_insert_eq. eauto.
Qed.

Lemma bump_inv db l n db' :
  bump_readiness db l = Ok (n, db') ->
  exists r, lanes db !! lane_pk l = Some r /\ n = (readiness_seq r + 1)%Z
    /\ db' = set_lanes db (<[lane_pk l := with_readiness r n]> (lanes db)).
Proof.
  unfold bump_readiness. destruct (lanes db !! lane_pk l) as [r|]; [|done]. intros [= <- <-]. eauto.
Qed.

Lemma assertFence_Ok db f now row :
  assertFence db f now = Ok row ->
  exists l, resolveLaneKey (lane_val (f_lane f)) = Ok l /\ readOwner db l = Some row
    /\ owner_state row = "active" /\ owner_id row = Some (f_owner f)
    /\ generation row = f_generation f /\ route_generation row = f_route f
    /\ (exists rt, routes db !! lane_pk l = Some rt /\ route_executor rt = "queue-v2"
          /\ in_transition rt = false)
    /\ exists t due, queueTime now = Ok t /\ date_parse (default "null" (expires_at row)) = Some due
         /\ forall at_, date_parse t = Some at_ -> (at_ < due)%Z.
Proof.
  unfold assertFence. intros (l & Hl & H)%rbind_Ok. exists l. split; [done|].
  destruct (routes db !! lane_pk l) as [rt|]; [|done].
  destruct (String.eqb (route_executor rt) "queue-v2" && negb (in_transition rt)) eqn:Er; cbn [negb] in H; [|done].
  destruct (readOwner db l) as [row'|]; [|done].
  destruct (String.eqb (owner_state row') "active" && bool_decide (owner_id row' = Some (f_owner f))
            && (generation row' =? f_generation f)%Z && (route_generation row' =? f_route f)%Z) eqn:Eo;
    cbn [negb] in H; [|done].
  destruct (date_parse (default "null" (expires_at row'))) as [due|] eqn:Ed; [|done].
  apply rbind_Ok in H as (t & Ht & H). bool_simpl.
  assert (row' = row /\ forall at_, date_parse t = Some at_ -> (at_ < due)%Z) as [-> Hlt].
  { destruct (date_parse t) as [at_|]; [|injection H as ->; split; [done | by intros ? [=]]].
    destruct (due <=? at_)%Z eqn:El; [done|]. injection H as ->. split; [done|].
    intros ? [= <-]. apply Z.leb_gt in El. lia. }
  repeat match goal with
  | H : bool_decide _ = true |- _ => apply bool_decide_eq_true in H
  | H : (_ =? _)%Z = true |- _ => apply Z.eqb_eq in H
  end.
  repeat (split; [done|]). split; [eauto|]. exists t, due. auto.
Qed.

(** A fence the store accepts is the one the lane row holds. *)
Lemma fence_unique db f g now now' r r' :
  assertFence db f now = Ok r -> assertFence db g now' = Ok r' -> f_lane f = f_lane g ->
  f_owner f = f_owner g /\ f_generation f = f_generation g /\ f_route f = f_route g.
Proof.
  intros (l & Hl & Ho & _ & Hi & Hg & Hr & _)%assertFence_Ok (m & Hm & Ho' & _ & Hi' & Hg' & Hr' & _)%assertFence_Ok E.
  rewrite E in Hl. assert (l = m) as -> by congruence. assert (r = r') as -> by congruence.
  split; [congruence|]. split; congruence.
Qed.

(** ** The invariant of the tables *)

Definition pair_val (pk : string * string) : val :=
  VObj [("repository", VStr (fst pk)); ("base", VStr (snd pk))].

(** The columns of a row repeat its payload. *)
Record coherent (r : EntryRow) : Prop := {
  co_keys : NoDup (map fst (entry_payload r));
  co_stable : stable_fields (entry_payload r);
  co_lane : get (entry_payload r) "lane" = pair_val (entry_lane r);
  co_id : get (entry_payload r) "entryId" = VStr (entry_id r);
  co_phase : get (entry_payload r) "phase" = VStr (entry_phase r);
  co_seq : seq_of (entry_payload r) = entry_seq r
}.

Record well_formed (db : Db) : Prop := {
  wf_rows : Forall coherent (entry_rows db);
  wf_ids : NoDup (map entry_id (entry_rows db));
  wf_seqs : forall r, In r (entry_rows db) ->
    exists lr, lanes db !! entry_lane r = Some lr /\ (entry_seq r <= readiness_seq lr)%Z
}.

(** Sequence numbers small enough to be exact as numbers. *)
Definition seqs_safe (db : Db) : Prop :=
  forall pk r, lanes db !! pk = Some r -> (0 <= readiness_seq r < max_safe_integer)%Z.

Lemma json_VInt n : (Z.abs n <= max_safe_integer)%Z -> json_norm (VInt n) = VInt n.
Proof.
  intros Hn. pose proof (num_to_Z_of_Z n Hn) as E. unfold VInt. simpl json_norm.
  destruct (num_of_Z n) eqn:En; cbn [num_to_Z] in E; try done.
  injection E as <-. by rewrite <- En.
Qed.

Lemma strict_eq_VInt n : (Z.abs n <= max_safe_integer)%Z -> strict_eq (VInt n) (VInt n) = true.
Proof. intros Hn. apply num_eqb_refl. by apply num_of_Z_not_nan. Qed.

Lemma queueWaitMs_bounds scaled ceiling dl now ms :
  queueWaitMs scaled ceiling dl now = Ok ms -> (0 <= ms <= Z.max 0 ceiling)%Z.
Proof.
  unfold queueWaitMs. destruct (ceiling <=? 0)%Z; [done|].
  destruct dl as [d|]; [destruct (date_parse d), (date_parse now); try done|]; intros [= <-]; lia.
Qed.

Lemma queuePatience_inv at_ scaled p :
  queuePatience at_ scaled = Ok p ->
  startedAt p = at_ /\ nominalMs p = PATIENCE_NOMINAL_MS /\ ceilingMs p = PATIENCE_CEILING_MS
  /\ (0 <= effectiveMs p <= PATIENCE_CEILING_MS)%Z.
Proof.
  unfold queuePatience. intros (ms & Hms%queueWaitMs_bounds & H)%rbind_Ok.
  destruct (date_parse at_); [|done]. apply rbind_Ok in H as (due & _ & [= <-]). simpl.
  repeat (split; [done|]). unfold PATIENCE_CEILING_MS in *. lia.
Qed.

Lemma new_entry_stable l id pr head gen handoff ack digest n at_ p at0 scaled :
  (Z.abs pr <= max_safe_integer)%Z -> (Z.abs gen <= max_safe_integer)%Z -> (Z.abs n <= max_safe_integer)%Z ->
  queuePatience at0 scaled = Ok p ->
  stable_fields (new_entry l id pr head gen handoff ack digest n at_ p).
Proof.
  intros Hpr Hgen Hn (_ & Hnm & Hc & He)%queuePatience_inv. unfold new_entry, PATIENCE_CEILING_MS in *.
  repeat (apply stable_fields_cons; split; [first [done | by destruct digest]|];
    split; [first [reflexivity | by apply json_VInt | by destruct digest | idtac]|]); [|done].
  apply stable_obj. rewrite Hnm, Hc. unfold patience_val, PATIENCE_NOMINAL_MS.
  repeat (apply stable_fields_cons; split; [done|]; split; [first [reflexivity | by apply json_VInt | idtac]|]);
    [|done].
  apply json_VInt. unfold max_safe_integer. lia.
Qed.

Lemma positive_int_Some v z :
  positive_int v = Some z -> (0 < z <= max_safe_integer)%Z /\ exists n, v = VNum n /\ num_to_Z n = Some z.
Proof.
  unfold positive_int, is_safe_integer. destruct v; try done. destruct (num_to_Z n) as [y|] eqn:E; [|done].
  destruct (Z.abs y <=? max_safe_integer)%Z eqn:Ea; [|done]. destruct (0 <? y)%Z eqn:Ep; [|done].
  intros [= <-]. split; [lia|]. eauto.
Qed.

Lemma new_entry_keys l id pr head gen handoff ack digest n at_ p :
  NoDup (map fst (new_entry l id pr head gen handoff ack digest n at_ p)).
Proof.
  simpl map. keys.
Qed.

(** Everything an acknowledgement may do. *)
Lemma entry_clash_fresh r o :
  entry_clash r o = false ->
  entry_id o <> entry_id r /\ ~ (entry_lane o = entry_lane r /\ entry_seq o = entry_seq r).
Proof.
  unfold entry_clash. intros [H1 H2]%orb_false_iff. split; [by apply String.eqb_neq|]. intros [E1 E2].
  by rewrite bool_decide_eq_true_2, E2, Z.eqb_refl, orb_true_r in H2 by done.
Qed.

Lemma acknowledge_inv db a scaled e db' :
  acknowledge db a scaled = Ok (e, db') ->
  exists l at_ id handoff ack pr head gen,
    resolveLaneKey (a_lane a) = Ok l /\ queueTime (a_at a) = Ok at_ /\ queueId (a_entryId a) = Ok id
    /\ queueId (a_handoffId a) = Ok handoff /\ queueId (a_ackId a) = Ok ack
    /\ positive_int (a_prNumber a) = Some pr /\ non_empty (a_head a) = Some head
    /\ positive_int (a_generation a) = Some gen
    /\ ((exists r, admission_rows db l pr head gen handoff ack = [r]
           /\ same_admission (entry_payload r) pr head gen handoff ack (a_digest a) = true
           /\ e = entry_payload r /\ db' = ensureLane db l)
        \/ (admission_rows db l pr head gen handoff ack = []
           /\ exists lr n p row ev, lanes (ensureLane db l) !! lane_pk l = Some lr
                /\ n = (readiness_seq lr + 1)%Z /\ queuePatience at_ scaled = Ok p
                /\ e = new_entry l id pr head gen handoff ack (a_digest a) n at_ p
                /\ row = {| entry_id := id; entry_lane := lane_pk l; pr_number := pr; admission_head := head;
                            admission_generation := gen; handoff_id := handoff; ack_id := ack; entry_seq := n;
                            entry_phase := "acknowledged"; entry_payload := norm_fields e |}
                /\ (forall o, In o (entry_rows db) -> entry_id o <> id
                      /\ ~ (entry_lane o = lane_pk l /\ entry_seq o = n))
                /\ event_lane ev = lane_pk l
                /\ event_payload ev = queue_event "acknowledged" l [("at", VStr at_); ("entry", VObj e)]
                /\ db' = {| lanes := <[lane_pk l := with_readiness lr n]> (lanes (ensureLane db l));
                            entry_rows := entry_rows db ++ [row]; event_rows := event_rows db ++ [ev];
                            last_event := (last_event db + 1)%Z; op_rows := op_rows db; routes := routes db |})).
Proof.
  unfold acknowledge. intros (l & Hl & H)%rbind_Ok. apply rbind_Ok in H as (at_ & Hat & H).
  apply rbind_Ok in H as (id & Hid & H). apply rbind_Ok in H as (handoff & Hh & H).
  apply rbind_Ok in H as (ack & Hack & H).
  destruct (positive_int (a_prNumber a)) as [pr|] eqn:Epr; [|done].
  destruct (non_empty (a_head a)) as [head|] eqn:Eh; [|done].
  destruct (positive_int (a_generation a)) as [gen|] eqn:Eg; [|done].
  exists l, at_, id, handoff, ack, pr, head, gen. repeat (split; [done|]).
  destruct (ensureLane_rows db l) as (Er & Ee & Eo & Es & Ert).
  unfold admission_rows in H |- *. rewrite Er in H.
  destruct (filter_b _ (entry_rows db)) as [|r [|]]; [right; split; [done|] | left | done].
  - apply rbind_Ok in H as ([n db1] & (lr & Hlr & -> & ->)%bump_inv & H).
    apply rbind_Ok in H as (p & Hp & H). apply rbind_Ok in H as (db2 & Hi & H).
    apply rbind_Ok in H as ([ev0 db3] & (l' & ev & Hl' & Hev & Hpay & E3)%queue_append_inv & [= <- <-]).
    rewrite (resolveLaneKey_lane _ _ Hl) in Hl'. injection Hl' as <-.
    unfold insert_entry in Hi. simpl in Hi. rewrite Er in Hi. destruct (some_b _ _) eqn:Ex; [done|]. injection Hi as <-.
    exists lr, (readiness_seq lr + 1)%Z, p. do 2 eexists.
    repeat (split; [first [done | reflexivity]|]). split; [|split; [exact Hev|]; split; [exact Hpay|]].
    + intros o Ho. by apply (entry_clash_fresh _ o (some_b_false _ _ _ Ex Ho)).
    + rewrite E3. simpl. by rewrite ?Er, ?Ee, ?Eo, ?Es, ?Ert.
  - destruct (same_admission _ _ _ _ _ _ _) eqn:Esm; [|done]. injection H as <- <-. eauto.
Qed.

(** ** Admission *)

#[local] Instance row_before_total : Total row_before.
Proof.
  intros a b. unfold row_before. destruct (Z.lt_trichotomy (entry_seq a) (entry_seq b)) as [|[|]]; [auto| |auto].
  destruct (String.leb_total (entry_id a) (entry_id b)); auto.
Qed.

#[local] Instance row_before_trans : Transitive row_before.
Proof.
  intros a b c. unfold row_before. intros [?|[? ?]] [?|[? ?]]; [left; lia..|].
  right. split; [lia|]. by eapply str_leb_trans.
Qed.

Lemma rows_eq_of_id db a b :
  NoDup (map entry_id (entry_rows db)) -> In a (entry_rows db) -> In b (entry_rows db) ->
  entry_id a = entry_id b -> a = b.
Proof. apply NoDup_map_inj. Qed.

Lemma lane_rows_In db l r : In r (lane_rows db l) <-> In r (entry_rows db) /\ entry_lane r = lane_pk l.
Proof.
  unfold lane_rows. rewrite <- list_elem_of_In, merge_sort_Permutation, list_elem_of_In.
  unfold filter_b. rewrite List.filter_In, same_lane_true. split; intros [? ?]; auto.
Qed.

(** An added row that comes after every row of its lane is the last one. *)
Lemma lane_rows_snoc db db' row l :
  entry_rows db' = entry_rows db ++ [row] -> entry_lane row = lane_pk l ->
  NoDup (map entry_id (entry_rows db')) ->
  (forall o, In o (entry_rows db) -> entry_lane o = lane_pk l -> (entry_seq o < entry_seq row)%Z) ->
  lane_rows db' l = lane_rows db l ++ [row].
Proof.
  intros E Hl Hd Hseq. apply (StronglySorted_unique_strong row_before).
  - intros x y Hx%list_elem_of_In Hy Hxy Hyx. apply lane_rows_In in Hx as [Hx _].
    apply (rows_eq_of_id db'); [done|done| |].
    + rewrite E. apply elem_of_app in Hy as [Hy|Hy]; apply in_or_app.
      * left. apply list_elem_of_In, lane_rows_In in Hy as [Hy _]. exact Hy.
      * right. by apply list_elem_of_In.
    + destruct Hxy as [?|[? ?]], Hyx as [?|[? ?]]; try lia; by apply String.leb_antisym.
  - apply StronglySorted_merge_sort; apply _.
  - assert (Hs : StronglySorted row_before (lane_rows db l)) by (apply StronglySorted_merge_sort; apply _).
    assert (Hall : forall o, In o (lane_rows db l) -> row_before o row).
    { intros o [Ho Hol]%lane_rows_In. left. by apply Hseq. }
    induction (lane_rows db l) as [|o rs IH]; [by repeat constructor|].
    apply StronglySorted_inv in Hs as [Hs Ho]. simpl. constructor.
    + apply IH; [done|]. intros o' Ho'. apply Hall. by right.
    + apply Forall_app. split; [done|]. constructor; [|done]. apply Hall. by left.
  - unfold lane_rows. rewrite !merge_sort_Permutation, E, filter_b_snoc.
    assert (Hr : same_lane l (entry_lane row) = true) by (by apply same_lane_true). by rewrite Hr.
Qed.

(** The effect of an acknowledgement on the tables. *)
Lemma acknowledge_effect (db : Db) (a : Admission) (scaled : Z) (e : obj) (db' : Db) :
  well_formed db -> seqs_safe db -> acknowledge db a scaled = Ok (e, db') ->
  well_formed db'
  /\ exists l, resolveLaneKey (a_lane a) = Ok l
     /\ ((entry_rows db' = entry_rows db /\ event_rows db' = event_rows db
          /\ exists r, In r (lane_rows db l) /\ entry_payload r = e)
         \/ exists row, entry_rows db' = entry_rows db ++ [row] /\ entry_payload row = e
              /\ entry_phase row = "acknowledged" /\ lane_rows db' l = lane_rows db l ++ [row]).
Proof.
  intros Hwf Hsafe (l & at_ & id & handoff & ack & pr & head & gen & Hl & _ & _ & _ & _ & Hpr & _ & Hgen & Hc)%acknowledge_inv.
  apply positive_int_Some in Hpr as [Hpr _]. apply positive_int_Some in Hgen as [Hgen _].
  destruct (ensureLane_rows db l) as (Er & Ee & _). destruct Hwf as [Hco Hid Hseq].
  destruct Hc as [(r & Hr & _ & -> & ->)|(_ & lr & n & p & row & ev & Hlr & -> & Hp & -> & Erow & Hfresh & _ & _ & ->)].
  - split; [split; rewrite ?Er; [done|done|]|].
    + intros o Ho. destruct (Hseq o Ho) as (x & Hx & Hle). exists x. split; [by apply ensureLane_lookup | done].
    + exists l. split; [done|]. left. split; [done|]. split; [done|]. exists r. split; [|done].
      assert (Hin : In r [r]) by (by left). rewrite <- Hr in Hin. apply List.filter_In in Hin as [Hin Hb].
      apply andb_true_iff in Hb as [Hb _]. apply lane_rows_In. split; [done|]. symmetry. by apply same_lane_true.
  - assert (Hn : (0 <= readiness_seq lr < max_safe_integer)%Z).
    { destruct (ensureLane_own db l) as (lr' & H1 & H2). rewrite Hlr in H1. injection H1 as <-.
      destruct H2 as [H2|[_ ->]]; [by eapply Hsafe | unfold max_safe_integer; simpl; lia]. }
    assert (Hst := new_entry_stable l id pr head gen handoff ack (a_digest a) (readiness_seq lr + 1) at_ p at_ scaled
      ltac:(lia) ltac:(lia) ltac:(lia) Hp).
    rewrite Hst in Erow.
    set (e := new_entry _ _ _ _ _ _ _ _ _ _ _) in *.
    assert (Hids : NoDup (map entry_id (entry_rows db ++ [row]))).
    { rewrite map_app. apply NoDup_app. split; [done|]. split; [|apply NoDup_singleton].
      intros x Hx%list_elem_of_In Hx'%list_elem_of_singleton. apply in_map_iff in Hx as (o & <- & Ho).
      destruct (Hfresh o Ho) as [Hne _]. subst row. by apply Hne. }
    assert (Hlt : forall o, In o (entry_rows db) -> entry_lane o = lane_pk l -> (entry_seq o < entry_seq row)%Z).
    { intros o Ho Hol. destruct (Hseq o Ho) as (x & Hx & Hle). rewrite Hol in Hx.
      apply (ensureLane_lookup _ l) in Hx. rewrite Hlr in Hx. injection Hx as <-. subst row. simpl. lia. }
    split; [split; simpl|].
    + apply Forall_app. split; [done|]. constructor; [|done]. subst row. split; simpl.
      * change (NoDup (map fst e)). unfold e. apply new_entry_keys. * exact Hst. * done. * done. * done.
      * unfold seq_of. change (get e "readinessSeq") with (VInt (readiness_seq lr + 1)). unfold VInt.
        rewrite num_to_Z_of_Z by lia. done.
    + exact Hids.
    + intros o [Ho|[<-|[]]]%in_app_or.
      * destruct (Hseq o Ho) as (x & Hx & Hle). destruct (decide (entry_lane o = lane_pk l)) as [Eo|Eo].
        -- rewrite Eo, lookup_insert_eq. eexists. split; [done|]. rewrite Eo in Hx.
           apply (ensureLane_lookup _ l) in Hx. rewrite Hlr in Hx. injection Hx as <-. simpl. lia.
        -- rewrite lookup_insert_ne by done. exists x. split; [by apply ensureLane_lookup | done].
      * subst row. simpl. rewrite lookup_insert_eq. eexists. split; [done|]. simpl. lia.
    + exists l. split; [done|]. right. exists row. split; [done|]. split; [by subst row|]. split; [by subst row|].
      apply lane_rows_snoc; [done | by subst row | exact Hids | exact Hlt].
Qed.

Lemma acknowledge_wf db a scaled e db' :
  well_formed db -> seqs_safe db -> acknowledge db a scaled = Ok (e, db') ->
  well_formed db' /\ op_rows db' = op_rows db
  /\ forall pk x, lanes db !! pk = Some x ->
       exists y, lanes db' !! pk = Some y /\ generation y = generation x.
Proof.
  intros Hwf Hsafe H. split; [by apply (acknowledge_effect db a scaled e)|].
  apply acknowledge_inv in H as (l & at_ & id & handoff & ack & pr & head & gen & Hl & _ & _ & _ & _ & _ & _ & _ & Hc).
  destruct (ensureLane_rows db l) as (_ & _ & Eo & _).
  destruct Hc as [(r & _ & _ & _ & ->)|(_ & lr & n & p & row & ev & Hlr & _ & _ & _ & _ & _ & _ & _ & ->)].
  - split; [done|]. intros pk x Hx. exists x. split; [by apply ensureLane_lookup | done].
  - split; [done|]. simpl. intros pk x Hx. apply (ensureLane_lookup _ l) in Hx.
    destruct (decide (pk = lane_pk l)) as [->|Hne].
    + rewrite lookup_insert_eq. eexists. split; [done|]. simpl. congruence.
    + rewrite lookup_insert_ne by done. eauto.
Qed.

(** An acknowledgement keeps the invariant of the tables and either answers
    the entry already stored, touching no entry, or admits one new entry in the
    acknowledged phase at the tail of its lane's order. Neither touches an
    operation or the generation of a lane. *)
Theorem acknowledge_at_tail (db : Db) (a : Admission) (scaled : Z) (e : obj) (db' : Db) :
  well_formed db -> seqs_safe db -> acknowledge db a scaled = Ok (e, db') ->
  well_formed db'
  /\ exists l, resolveLaneKey (a_lane a) = Ok l
     /\ ((entry_rows db' = entry_rows db /\ event_rows db' = event_rows db
          /\ exists r, In r (lane_rows db l) /\ entry_payload r = e)
         \/ exists row, entry_rows db' = entry_rows db ++ [row] /\ entry_payload row = e
              /\ entry_phase row = "acknowledged" /\ lane_rows db' l = lane_rows db l ++ [row])
     /\ op_rows db' = op_rows db
     /\ forall pk x, lanes db !! pk = Some x ->
          exists y, lanes db' !! pk = Some y /\ generation y = generation x.
Proof.
  intros Hwf Hsafe H. destruct (acknowledge_wf _ _ _ _ _ Hwf Hsafe H) as (Hwf' & Hops & Hgen).
  split; [done|]. destruct (acknowledge_effect _ _ _ _ _ Hwf Hsafe H) as (_ & l & Hl & Hcase).
  exists l. auto.
Qed.

Lemma ensureLane_id db l r : lanes db !! lane_pk l = Some r -> ensureLane db l = db.
Proof. unfold ensureLane. by intros ->. Qed.

Definition at_time (a : Admission) (t : val) : Admission := {|
  a_lane := a_lane a; a_entryId := a_entryId a; a_prNumber := a_prNumber a; a_head := a_head a;
  a_generation := a_generation a; a_handoffId := a_handoffId a; a_ackId := a_ackId a; a_at := t;
  a_digest := a_digest a |}.

(** An acknowledgement whose one colliding row carries the same admission
    answers that row and writes nothing. *)
Lemma acknowledge_replay db a t at' scaled l id handoff ack pr head gen lr r :
  queueTime t = Ok at' -> resolveLaneKey (a_lane a) = Ok l -> queueId (a_entryId a) = Ok id ->
  queueId (a_handoffId a) = Ok handoff -> queueId (a_ackId a) = Ok ack ->
  positive_int (a_prNumber a) = Some pr -> non_empty (a_head a) = Some head ->
  positive_int (a_generation a) = Some gen ->
  lanes db !! lane_pk l = Some lr -> admission_rows db l pr head gen handoff ack = [r] ->
  same_admission (entry_payload r) pr head gen handoff ack (a_digest a) = true ->
  acknowledge db (at_time a t) scaled = Ok (entry_payload r, db).
Proof.
  intros Ht Hl Hid Hh Hack Hpr Hhd Hgen Hlr Hrows Hsame. unfold acknowledge, at_time. simpl.
  rewrite Hl. cbn [rbind]. rewrite Ht. cbn [rbind]. rewrite Hid. cbn [rbind]. rewrite Hh. cbn [rbind].
  rewrite Hack. cbn [rbind]. rewrite Hpr, Hhd, Hgen. cbv zeta. by rewrite (ensureLane_id _ _ _ Hlr), Hrows, Hsame.
Qed.

(** Repeating an acknowledgement whose reply was lost, at any later time
    and under any load, answers the same entry and changes no table. *)
Theorem acknowledge_retry (db : Db) (a : Admission) (scaled : Z) (e : obj) (db1 : Db) (t : val) (at' : string)
    (scaled' : Z) :
  seqs_safe db -> acknowledge db a scaled = Ok (e, db1) -> queueTime t = Ok at' ->
  acknowledge db1 (at_time a t) scaled' = Ok (e, db1).
Proof.
  intros Hsafe (l & at_ & id & handoff & ack & pr & head & gen & Hl & _ & Hid & Hh & Hack & Hpr & Hhd & Hgen & Hc)%acknowledge_inv Ht.
  destruct (ensureLane_rows db l) as (Er & _).
  destruct (ensureLane_own db l) as (lr0 & Hown & Hcase).
  destruct Hc as [(r & Hr & Hsm & -> & ->)|(Hr & lr & n & p & row & ev & Hlr & -> & Hp & -> & Erow & _ & _ & _ & ->)].
  - eapply acknowledge_replay; try done. unfold admission_rows. by rewrite Er.
  - destruct (positive_int_Some _ _ Hpr) as [Hpr' _]. destruct (positive_int_Some _ _ Hgen) as [Hgen' _].
    assert (Hn : (0 <= readiness_seq lr < max_safe_integer)%Z).
    { rewrite Hlr in Hown. injection Hown as <-.
      destruct Hcase as [H2|[_ ->]]; [by eapply Hsafe | unfold max_safe_integer; simpl; lia]. }
    assert (Hst := new_entry_stable l id pr head gen handoff ack (a_digest a) (readiness_seq lr + 1) at_ p at_ scaled
      ltac:(lia) ltac:(lia) ltac:(lia) Hp).
    rewrite Hst in Erow.
    replace (new_entry l id pr head gen handoff ack (a_digest a) (readiness_seq lr + 1) at_ p)
      with (entry_payload row) by (by subst row).
    eapply acknowledge_replay; try done.
    + simpl. apply lookup_insert_eq.
    + unfold admission_rows in *. simpl. rewrite filter_b_snoc, Hr. subst row. simpl.
      rewrite (proj2 (same_lane_true l (lane_pk l)) eq_refl), !Z.eqb_refl, !String.eqb_refl. done.
    + subst row. unfold same_admission. simpl entry_payload.
      change (strict_eq (VInt pr) (VInt pr) && String.eqb head head && strict_eq (VInt gen) (VInt gen)
              && String.eqb handoff handoff && String.eqb ack ack
              && strict_eq (coalesce (opt_text (a_digest a)) VNull) (opt_text (a_digest a)) = true).
      rewrite !strict_eq_VInt, !String.eqb_refl by lia. simpl.
      destruct (a_digest a); simpl; [apply String.eqb_refl | done].
Qed.

(** ** Progress *)

Lemma map_set_NoDup (o : obj) k v : NoDup (map fst o) -> NoDup (map fst (map_set o k v)).
Proof.
  induction o as [|[k' w] o IH]; cbn [map map_set fst]; [by repeat constructor; inversion 1|].
  intros [Hk Ho]%NoDup_cons. destruct (String.eqb k k') eqn:E; cbn [map fst]; apply NoDup_cons; [done|].
  split; [|by apply IH]. intros Hin%list_elem_of_In. apply map_set_keys in Hin as [->|Hin].
  - by rewrite String.eqb_refl in E.
  - apply Hk. by apply list_elem_of_In.
Qed.

Lemma spread_NoDup (o u : obj) : NoDup (map fst o) -> NoDup (map fst (spread o u)).
Proof.
  unfold spread. revert o. induction u as [|[k v] u IH]; intros o Ho; [done|]. simpl. apply IH.
  by apply map_set_NoDup.
Qed.

Lemma norm_NoDup (o : obj) : NoDup (map fst o) -> NoDup (map fst (norm_fields o)).
Proof.
  induction o as [|[k v] o IH]; [done|]. cbn [map fst]. intros [Hk Ho]%NoDup_cons.
  assert (Hv : v = VUndef \/ v <> VUndef) by (destruct v; auto).
  destruct Hv as [->|Hv]; [by apply IH|]. rewrite norm_fields_cons by done. cbn [map fst].
  apply NoDup_cons. split; [|by apply IH]. intros Hin%list_elem_of_In%norm_keys.
  apply Hk. by apply list_elem_of_In.
Qed.

(** What [Object.assign] writes over the entry, in order. *)
Definition update_of (patch : obj) (phase at_ : string) (version : num) (seq : option Z) : obj :=
  patch ++ [("phase", VStr phase); ("updatedAt", VStr at_); ("progressVersion", VNum version)]
  ++ match seq with Some n => [("readinessSeq", VInt n)] | None => [] end.

Definition patch_ok (patch : obj) : Prop := Forall (fun kv => In (fst kv) PATCH_FIELDS) patch.

Lemma patch_ok_absent patch k : patch_ok patch -> ~ In k PATCH_FIELDS -> ~ In k (map fst patch).
Proof.
  unfold patch_ok. intros Hp Hk (kv & <- & Hin)%in_map_iff. apply Hk.
  rewrite List.Forall_forall in Hp. by apply Hp.
Qed.

Ltac not_patch := simpl; intros Hbad; repeat (destruct Hbad as [Hbad|Hbad]; [discriminate Hbad|]); exact Hbad.

Lemma patch_absent patch k (Hp : patch_ok patch) :
  str_in k PATCH_FIELDS = false -> ~ In k (map fst patch).
Proof. intros Hk. apply patch_ok_absent; [done|]. intros Hin%str_in_In. congruence. Qed.

Lemma commit_inv db f id entry phase patch at_ readmit obs v e' db' :
  patch_ok patch -> commit_progress db f id entry phase patch at_ readmit obs v = Ok (e', db') ->
  exists l seq ev, resolveLaneKey (lane_val (f_lane f)) = Ok l
    /\ e' = spread entry (update_of patch phase at_ v seq)
    /\ (if readmit then exists lr, lanes db !! lane_pk l = Some lr /\ seq = Some (readiness_seq lr + 1)%Z
                        /\ lanes db' = <[lane_pk l := with_readiness lr (readiness_seq lr + 1)]> (lanes db)
        else seq = None /\ lanes db' = lanes db)
    /\ entry_rows db' = map (fun r => if is_str (get e' "entryId") (entry_id r) then written_row r e' else r)
                            (entry_rows db)
    /\ event_lane ev = lane_pk l
    /\ event_payload ev = queue_event "progress" l
         ([("at", VStr at_); ("entryId", VStr id); ("patch", VObj (update_of patch phase at_ v seq));
           ("generation", VInt (f_generation f)); ("routeGeneration", VInt (f_route f));
           ("priorPhase", get entry "phase")] ++ (if truthy obs then [("observation", obs)] else []))
    /\ event_rows db' = event_rows db ++ [ev] /\ op_rows db' = op_rows db /\ routes db' = routes db.
Proof.
  intros Hp. unfold commit_progress. cbv zeta.
  rewrite (map_set_absent patch) by (by apply patch_absent).
  rewrite (map_set_absent _ "updatedAt") by (rewrite map_app, in_app_iff; intros [Hin|[?|[]]];
    [by eapply (patch_absent patch "updatedAt") | done]).
  rewrite (map_set_absent _ "progressVersion") by (rewrite !map_app, !in_app_iff;
    intros [[Hin|[?|[]]]|[?|[]]]; [by eapply (patch_absent patch "progressVersion") | done | done]).
  rewrite <- !app_assoc. cbn [app]. intros H.
  apply rbind_Ok in H as ([u db1] & Hb & H). apply rbind_Ok in H as (db2 & Hw & H).
  apply rbind_Ok in H as ([ev0 db3] & (l & ev & Hl & Hel & Hep & ->)%queue_append_inv & H).
  unfold writeEntry in Hw. destruct (seq_taken _ _); [done|]. injection Hw as <-. simpl snd in H.
  exists l, (if readmit then match lanes db !! lane_pk l with Some lr => Some (readiness_seq lr + 1)%Z | None => None end
             else None), ev.
  destruct readmit.
  - rewrite Hl in Hb. cbn [rbind] in Hb. apply rbind_Ok in Hb as ([n db2] & (lr & Hlr & -> & ->)%bump_inv & [= <- <-]).
    rewrite Hlr. injection H as <- <-.
    rewrite map_set_absent in Hep |- * by (rewrite map_app, in_app_iff; intros [Hin|Hin];
      [by eapply (patch_absent patch "readinessSeq") | revert Hin; not_patch]).
    rewrite <- app_assoc in Hep |- *. split; [done|]. split; [done|]. split; [eauto|]. done.
  - injection Hb as <- <-. injection H as <- <-. unfold update_of. rewrite app_nil_r. done.
Qed.

Lemma readEntry_Some db v e :
  readEntry db v = Ok (Some e) -> exists id r, v = VStr id /\ queueId v = Ok id
    /\ row_of_id db id = Some r /\ entry_payload r = e.
Proof.
  unfold readEntry. intros (id & Hid & H)%rbind_Ok. destruct (row_of_id db id) as [r|] eqn:E; [|done].
  injection H as <-. exists id, r. split; [|done]. unfold queueId in Hid. destruct v as [| | | |[|a s]| |]; try done.
  destruct (_ && _); [|done]. by injection Hid as <-.
Qed.

Lemma row_of_id_In db id r : row_of_id db id = Some r -> In r (entry_rows db) /\ entry_id r = id.
Proof. unfold row_of_id. intros [Hin Hid]%find_b_In. split; [done|]. by apply String.eqb_eq. Qed.

Lemma recovery_patch_ok r : patch_ok (recovery_patch r).
Proof. unfold recovery_patch, patch_ok. destruct (clearsChecks r); repeat constructor; simpl; tauto. Qed.

(** Everything a progress transaction checked before it wrote. *)
Lemma progress_inv db f p e' db' :
  progress db f p = Ok (e', db') ->
  exists at_ owner l id r phase patch v,
    queueTime (p_at p) = Ok at_ /\ assertFence db f (VStr at_) = Ok owner
    /\ resolveLaneKey (lane_val (f_lane f)) = Ok l /\ p_entryId p = VStr id
    /\ row_of_id db id = Some r /\ lane_json_is (get (entry_payload r) "lane") l = true
    /\ operations db l = [] /\ val_in (get (entry_payload r) "phase") TERMINAL_PHASES = false
    /\ patch_ok patch /\ In phase QUEUE_PHASES
    /\ (truthy (p_observation p) = false -> phase = p_phase p /\ patch = p_patch p)
    /\ (truthy (p_observation p) = true ->
          (exists rc, reconcileQueuePublication (VObj (entry_payload r)) (p_observation p) = Ok rc
             /\ phase = nextPhase rc /\ patch = recovery_patch rc)
          /\ val_in (get (entry_payload r) "phase") ["publishing"; "waiting-checks"; "finalizing"] = true)
    /\ transition_error db l id (entry_payload r) phase (p_readmit p) (truthy (p_observation p)) = None
    /\ next_version (get (entry_payload r) "progressVersion") = Some v
    /\ commit_progress db f id (entry_payload r) phase patch at_ (p_readmit p) (p_observation p) v = Ok (e', db').
Proof.
  unfold progress. intros (at_ & Hat & H)%rbind_Ok.
  destruct (str_in (p_phase p) QUEUE_PHASES) eqn:Eph; [|done].
  destruct (every_b _ (p_patch p)) eqn:Epa; [|done].
  apply rbind_Ok in H as (owner & Hf & H). apply rbind_Ok in H as (found & Hr & H).
  apply rbind_Ok in H as (l & Hl & H). destruct found as [entry|]; [|done].
  apply readEntry_Some in Hr as (id & r & Eid & _ & Hrow & <-). rewrite Eid in H.
  destruct (lane_json_is _ l) eqn:Elane; [|done]. 
  match type of H with (if ?b then _ else _) = _ => destruct b; [|done] end.
  destruct (Nat.eqb _ 0) eqn:Eops; [|done]. destruct (val_in _ TERMINAL_PHASES) eqn:Eterm; cbn [negb] in H; [done|].
  apply rbind_Ok in H as ([phase patch] & Ht & H).
  destruct (transition_error _ _ _ _ _ _ _) eqn:Etr; [done|].
  destruct (next_version _) as [v|] eqn:Ev; [|done].
  exists at_, owner, l, id, r, phase, patch, v. repeat (split; [done|]).
  split; [by apply nil_length_inv, Nat.eqb_eq|]. split; [done|].
  assert (Hpatch : patch_ok (p_patch p)).
  { unfold patch_ok, every_b in *. apply List.Forall_forall. intros kv Hkv. rewrite forallb_forall in Epa.
    apply str_in_In. by apply Epa. }
  destruct (truthy (p_observation p)) eqn:Et.
  - destruct (val_in (get (entry_payload r) "phase") ["publishing"; "waiting-checks"; "finalizing"]) eqn:Er; [|done].
    apply rbind_Ok in Ht as (rc & Hrc & [= <- <-]). split; [apply recovery_patch_ok|]. split.
    { assert (Hq : In (nextPhase rc) ["parked-infrastructure"; "closed-observed"; "returned-to-closer"; "rebasing";
        "waiting-checks"; "publishing"]) by (by eapply reconcile_phases).
      simpl in Hq |- *. tauto. }
    split; [done|]. split; [|done]. intros _. split; [|done]. eauto.
  - injection Ht as <- <-. split; [done|]. split; [by apply str_in_In|]. split; [done|]. split; done.
Qed.

(** The legal moves of an actionable entry that is not being recovered. *)
Inductive phase_move : string -> string -> Prop :=
| move_same p : phase_move p p
| move_next i p q :
    nth_error QUEUE_ACTIONABLE_PHASES i = Some p -> nth_error QUEUE_ACTIONABLE_PHASES (S i) = Some q ->
    phase_move p q
| move_rebase p : phase_move p "rebasing"
| move_recheck : phase_move "finalizing" "waiting-checks".

Lemma phase_index_nth s i :
  phase_index (VStr s) = Some i -> nth_error QUEUE_ACTIONABLE_PHASES i = Some s.
Proof.
  simpl. intros H. repeat (destruct (String.eqb s _) eqn:E in H; [injection H as <-; apply String.eqb_eq in E as ->; done|
    clear E; cbn in H]). done.
Qed.

Lemma transition_legal db l id e s phase readmit recovering :
  get e "phase" = VStr s ->
  transition_error db l id e phase readmit recovering = None ->
  (str_in s QUEUE_ACTIONABLE_PHASES = true -> str_in phase QUEUE_ACTIONABLE_PHASES = true ->
     is_lane_head db l id = true /\ readmit = false /\ (recovering = false -> phase_move s phase))
  /\ (str_in s QUEUE_ACTIONABLE_PHASES = false -> str_in phase QUEUE_ACTIONABLE_PHASES = true ->
     readmit = true /\ phase = "ready")
  /\ (readmit = true -> str_in s QUEUE_ACTIONABLE_PHASES = false /\ phase = "ready")
  /\ (phase = "merged" -> s = "finalizing").
Proof.
  intros Es. unfold transition_error, actionable. rewrite Es. cbn [val_in]. cbv zeta.
  intros H.
  destruct (negb (str_in s _) && str_in phase _ && negb (readmit && String.eqb phase "ready")) eqn:E1; [done|].
  destruct (str_in phase _ && str_in s _ && negb (is_lane_head db l id)) eqn:E2; [done|].
  destruct (readmit && (str_in s _ || negb (String.eqb phase "ready"))) eqn:E3; [done|].
  destruct (str_in s _ && str_in phase _ && _ && _ && _ && _ && _) eqn:E4; [done|].
  destruct (String.eqb phase "merged" && negb (is_str (VStr s) "finalizing")) eqn:E5; [done|]. clear H.
  split; [|split; [|split]].
  - intros Hs Hp. rewrite Hs, Hp in *. cbn [andb negb orb] in *. apply negb_false_iff in E2. split; [done|].
    split; [by destruct readmit|]. intros ->. cbn [negb] in E4. rewrite andb_true_r in E4.
    apply andb_false_iff in E4 as [E4|E4].
    2:{ apply negb_false_iff, andb_true_iff in E4 as [Ea Eb]. apply is_str_eq in Ea. injection Ea as ->.
        apply String.eqb_eq in Eb as ->. apply move_recheck. }
    apply andb_false_iff in E4 as [E4|E4].
    2:{ apply negb_false_iff, String.eqb_eq in E4 as ->. apply move_rebase. }
    apply andb_false_iff in E4 as [E4|E4].
    2:{ apply negb_false_iff, is_str_eq in E4. injection E4 as ->. apply move_same. }
    apply negb_false_iff, bool_decide_eq_true in E4.
    destruct (phase_index (VStr s)) as [i|] eqn:Ei; simpl in E4.
    + apply move_next with i; by apply phase_index_nth.
    + exfalso. apply str_in_In in Hs. simpl in Ei. unfold find_index in Ei.
      repeat (destruct Hs as [<-|Hs]; [discriminate Ei|]). done.
  - intros Hs Hp. rewrite Hs, Hp in E1. cbn [andb negb] in E1. apply negb_false_iff, andb_true_iff in E1 as [? E].
    by apply String.eqb_eq in E.
  - intros ->. cbn [andb] in E3. apply orb_false_iff in E3 as [? E]. by apply negb_false_iff, String.eqb_eq in E.
  - intros ->. cbn in E5. apply negb_false_iff in E5. by apply String.eqb_eq in E5.
Qed.

Lemma update_keys patch phase at_ v seq k :
  In k (map fst (update_of patch phase at_ v seq)) <->
  In k (map fst patch) \/ In k ["phase"; "updatedAt"; "progressVersion"] \/ (k = "readinessSeq" /\ seq <> None).
Proof.
  unfold update_of. rewrite !map_app, !in_app_iff. simpl. destruct seq; simpl; intuition congruence.
Qed.

(** The value of a key after the update. *)
Definition updated (e : obj) (phase at_ : string) (v : num) (seq : option Z) (k : string) : val :=
  if String.eqb k "phase" then VStr phase else if String.eqb k "updatedAt" then VStr at_
  else if String.eqb k "progressVersion" then VNum v
  else match seq with Some n => if String.eqb k "readinessSeq" then VInt n else get e k | None => get e k end.

Lemma get_updated e patch phase at_ v seq k :
  patch_ok patch -> ~ In k PATCH_FIELDS ->
  get (spread e (update_of patch phase at_ v seq)) k = updated e phase at_ v seq k.
Proof.
  unfold updated.
  intros Hp Hk. unfold update_of. rewrite spread_app.
  rewrite <- (get_spread_other e patch k) by (by apply patch_ok_absent).
  generalize (spread e patch) as o. intros o.
  assert (Hs : forall a x b, String.eqb k a = true -> get (map_set x a b) k = b)
    by (intros a x b ->%String.eqb_eq; apply get_set).
  assert (Hn : forall a x b, String.eqb k a = false -> get (map_set x a b) k = get x k)
    by (intros a x b Ha%String.eqb_neq; apply get_set_ne; congruence).
  assert (Hne : forall a b, String.eqb k a = true -> String.eqb a b = false -> String.eqb k b = false)
    by (intros a b ->%String.eqb_eq; done).
  unfold spread. destruct seq as [n|]; simpl fold_left;
    destruct (String.eqb k "phase") eqn:E1, (String.eqb k "updatedAt") eqn:E2,
      (String.eqb k "progressVersion") eqn:E3, (String.eqb k "readinessSeq") eqn:E4;
    repeat first [rewrite Hs by done; done | rewrite Hn by done]; try done.
  all: repeat match goal with H : String.eqb _ _ = true |- _ => apply String.eqb_eq in H end; congruence.
Qed.

Lemma lane_json_pair v l : lane_json_is v l = true -> v = pair_val (lane_pk l).
Proof.
  unfold lane_json_is. destruct v as [| | | | | |o]; try done.
  destruct o as [|[k1 [| | | |r| |]] [|[k2 [| | | |b| |]] [|]]]; try done. intros H. bool_simpl.
  subst. unfold pair_val, lane_pk. simpl.
  repeat match goal with H : String.eqb _ _ = true |- _ => apply String.eqb_eq in H end. by subst.
Qed.

Lemma pair_val_inj p q : pair_val p = pair_val q -> p = q.
Proof. destruct p, q. by intros [= -> ->]. Qed.

Lemma coherent_In db r : well_formed db -> In r (entry_rows db) -> coherent r.
Proof. intros [Hc _ _] Hin. rewrite List.Forall_forall in Hc. by apply Hc. Qed.

(** The row a progress transaction writes. *)
Lemma written_coherent r patch phase at_ v seq :
  coherent r -> patch_ok patch -> (forall n, seq = Some n -> (Z.abs n <= max_safe_integer)%Z) ->
  coherent (written_row r (spread (entry_payload r) (update_of patch phase at_ v seq))).
Proof.
  intros [Hk Hs Hl Hi Hp Hq] Hpatch Hn.
  set (e := spread _ _).
  assert (Hke : NoDup (map fst e)) by (by apply spread_NoDup).
  assert (Hget : forall k, ~ In k PATCH_FIELDS -> get e k = updated (entry_payload r) phase at_ v seq k)
    by (intros k; by apply get_updated).
  assert (Hst : forall k, json_norm (get (entry_payload r) k) = get (entry_payload r) k).
  { intros k. apply json_stable_get. by apply stable_obj. }
  split; simpl.
  - by apply norm_NoDup.
  - apply stable_norm_fields.
  - rewrite get_norm_fields, Hget by first [done | not_patch]. unfold updated. simpl. destruct seq; by rewrite Hst.
  - rewrite get_norm_fields, Hget by first [done | not_patch]. unfold updated. simpl. destruct seq; by rewrite Hst.
  - rewrite get_norm_fields, Hget by first [done | not_patch]. unfold updated. simpl. done.
  - unfold seq_of. rewrite get_norm_fields, Hget by first [done | not_patch]. unfold updated. simpl.
    destruct seq as [n|].
    + rewrite json_VInt by (by apply Hn). done.
    + rewrite Hst. done.
Qed.

(** What [progress] leaves of a lane's row: its generation, and a readiness count that never falls. *)
Definition bumped_lanes (db db' : Db) (l : Lane) (readmit : bool) (seq : option Z) : Prop :=
  if readmit then exists lr, lanes db !! lane_pk l = Some lr /\ seq = Some (readiness_seq lr + 1)%Z
                  /\ lanes db' = <[lane_pk l := with_readiness lr (readiness_seq lr + 1)]> (lanes db)
  else seq = None /\ lanes db' = lanes db.

Lemma bumped_lanes_mono db db' l readmit seq pk x :
  bumped_lanes db db' l readmit seq -> lanes db !! pk = Some x ->
  exists y, lanes db' !! pk = Some y /\ (readiness_seq x <= readiness_seq y)%Z /\ generation y = generation x.
Proof.
  intros Hb Hx. destruct readmit; [|destruct Hb as [_ ->]; exists x; split; [done | split; [lia | done]]].
  destruct Hb as (lr & Hlr & _ & ->). destruct (decide (pk = lane_pk l)) as [->|Hne].
  - rewrite lookup_insert_eq. eexists. split; [done|]. assert (x = lr) as -> by congruence. simpl. split; [lia | done].
  - rewrite lookup_insert_ne by done. exists x. split; [done | split; [lia | done]].
Qed.

Lemma bumped_lanes_seq db db' l readmit seq n :
  seqs_safe db -> bumped_lanes db db' l readmit seq -> seq = Some n ->
  (0 < n <= max_safe_integer)%Z /\ exists y, lanes db' !! lane_pk l = Some y /\ readiness_seq y = n.
Proof.
  intros Hsafe Hb ->. destruct readmit; [|by destruct Hb]. destruct Hb as (lr & Hlr & [= ->] & ->).
  specialize (Hsafe _ _ Hlr). split; [lia|]. rewrite lookup_insert_eq. by eexists.
Qed.

Lemma seq_of_updated r patch phase at_ v seq :
  coherent r -> patch_ok patch -> (forall n, seq = Some n -> (0 < n <= max_safe_integer)%Z) ->
  seq_of (spread (entry_payload r) (update_of patch phase at_ v seq)) = match seq with Some n => n | None => entry_seq r end.
Proof.
  intros [_ _ _ _ _ Hcq] Hp Hn. unfold seq_of. rewrite get_updated by first [done | not_patch].
  unfold updated. simpl. destruct seq as [n|]; [|exact Hcq]. specialize (Hn n eq_refl).
  unfold VInt. rewrite num_to_Z_of_Z; [done | lia].
Qed.

(** The row a write replaces is the one with the entry's id. *)
Lemma written_rows db r e' :
  well_formed db -> In r (entry_rows db) -> get e' "entryId" = VStr (entry_id r) ->
  map (fun o => if is_str (get e' "entryId") (entry_id o) then written_row o e' else o) (entry_rows db)
  = map (fun o => if String.eqb (entry_id o) (entry_id r) then written_row r e' else o) (entry_rows db).
Proof.
  intros Hwf Hin Hid. apply map_ext_in. intros o Ho. rewrite Hid. unfold is_str. simpl.
  rewrite String.eqb_sym. destruct (String.eqb (entry_id o) (entry_id r)) eqn:Eo; [|done].
  apply String.eqb_eq in Eo. f_equal. by apply (rows_eq_of_id db); [apply Hwf|..].
Qed.

Lemma written_wf db db' r e' :
  well_formed db -> In r (entry_rows db) ->
  entry_rows db' = map (fun o => if String.eqb (entry_id o) (entry_id r) then written_row r e' else o) (entry_rows db) ->
  coherent (written_row r e') ->
  (forall pk x, lanes db !! pk = Some x ->
     exists y, lanes db' !! pk = Some y /\ (readiness_seq x <= readiness_seq y)%Z /\ generation y = generation x) ->
  (exists y, lanes db' !! entry_lane r = Some y /\ (seq_of e' <= readiness_seq y)%Z) ->
  well_formed db'.
Proof.
  intros Hwf Hin Erows Hwr Hmono Hnew. split; rewrite ?Erows.
  - apply List.Forall_forall. intros o (o' & <- & Ho')%in_map_iff.
    destruct (String.eqb _ _); [done | by apply (coherent_In db)].
  - rewrite map_map. replace (map _ (entry_rows db)) with (map entry_id (entry_rows db)); [apply Hwf|].
    apply map_ext_in. intros o Ho. destruct (String.eqb (entry_id o) (entry_id r)) eqn:Eo; [|done].
    apply String.eqb_eq in Eo. simpl. congruence.
  - intros o (o' & <- & Ho')%in_map_iff. destruct (String.eqb _ _); [done|].
    destruct (wf_seqs _ Hwf o' Ho') as (y & Hy & Hle). destruct (Hmono _ _ Hy) as (z & Hz & Hle' & _).
    exists z. split; [done | lia].
Qed.

Lemma updated_other db db' l readmit e phase at_ v seq k :
  bumped_lanes db db' l readmit seq -> ~ In k ["phase"; "updatedAt"; "progressVersion"] ->
  (k = "readinessSeq" -> readmit = false) -> updated e phase at_ v seq k = get e k.
Proof.
  intros Hb Hk Hr. unfold updated.
  destruct (String.eqb_spec k "phase") as [->|_]; [simpl in Hk; tauto|].
  destruct (String.eqb_spec k "updatedAt") as [->|_]; [simpl in Hk; tauto|].
  destruct (String.eqb_spec k "progressVersion") as [->|_]; [simpl in Hk; tauto|].
  destruct seq as [n|]; [|done]. destruct (String.eqb_spec k "readinessSeq") as [E|_]; [|done].
  destruct readmit; [by discriminate (Hr E) | by destruct Hb].
Qed.

(** One accepted call, read off [progress]: the row it writes, the entry it writes there, and the event. *)
Lemma progress_split db f p e' db' :
  well_formed db -> seqs_safe db -> progress db f p = Ok (e', db') ->
  exists at_ owner l r phase patch v seq ev,
    assertFence db f (VStr at_) = Ok owner /\ operations db l = []
    /\ p_entryId p = VStr (entry_id r) /\ In r (entry_rows db) /\ coherent r /\ entry_lane r = lane_pk l
    /\ patch_ok patch /\ str_in (entry_phase r) TERMINAL_PHASES = false
    /\ (no_undef (p_patch p) -> no_undef patch)
    /\ transition_error db l (entry_id r) (entry_payload r) phase (p_readmit p) (truthy (p_observation p)) = None
    /\ e' = spread (entry_payload r) (update_of patch phase at_ v seq)
    /\ get e' "entryId" = VStr (entry_id r)
    /\ bumped_lanes db db' l (p_readmit p) seq
    /\ entry_rows db' = map (fun o => if String.eqb (entry_id o) (entry_id r) then written_row r e' else o) (entry_rows db)
    /\ event_lane ev = lane_pk l
    /\ event_payload ev = queue_event "progress" l
         ([("at", VStr at_); ("entryId", VStr (entry_id r)); ("patch", VObj (update_of patch phase at_ v seq));
           ("generation", VInt (f_generation f)); ("routeGeneration", VInt (f_route f));
           ("priorPhase", get (entry_payload r) "phase")]
          ++ (if truthy (p_observation p) then [("observation", p_observation p)] else []))
    /\ event_rows db' = event_rows db ++ [ev] /\ op_rows db' = op_rows db.
Proof.
  intros Hwf Hsafe (at_ & owner & l & id & r & phase & patch & v & _ & Hf & Hl & Hpid & Hrow & Hlane & Hops & Hterm
    & Hpatch & _ & Hplain & Hrec & Htr & _ & Hcommit)%progress_inv.
  destruct (row_of_id_In _ _ _ Hrow) as [Hin Hid]. subst id.
  assert (Hco : coherent r) by (by apply (coherent_In db)). destruct Hco as [Hck Hcs Hcl Hci Hcp Hcq].
  apply commit_inv in Hcommit as (l' & seq & ev & Hl' & He' & Hseq & Hrows & Hel & Hep & Hev & Hop & _); [|done].
  assert (l' = l) as -> by congruence.
  assert (Hide : get e' "entryId" = VStr (entry_id r)).
  { rewrite He', get_updated by first [done | not_patch]. unfold updated. simpl. rewrite <- Hci. by destruct seq. }
  exists at_, owner, l, r, phase, patch, v, seq, ev. repeat (split; [done|]).
  split; [apply pair_val_inj; by rewrite <- Hcl, (lane_json_pair _ _ Hlane)|]. split; [done|].
  split; [by rewrite Hcp in Hterm|].
  split; [|repeat (split; [done|]); split; [by rewrite Hrows; apply written_rows | done]].
  intros Hnu. destruct (truthy (p_observation p)) eqn:Et; [|by destruct (Hplain eq_refl) as [_ ->]].
  destruct (Hrec eq_refl) as [(rc & _ & _ & ->) _]. unfold recovery_patch, no_undef.
  destruct (clearsChecks rc); repeat constructor; done.
Qed.

(** The effect of a progress transaction on the tables. *)
Lemma progress_effect (db : Db) (f : Fence) (p : Progress) (e' : obj) (db' : Db) :
  well_formed db -> seqs_safe db -> progress db f p = Ok (e', db') ->
  well_formed db'
  /\ exists at_ owner l id r s s',
    assertFence db f (VStr at_) = Ok owner /\ operations db l = []
    /\ In r (entry_rows db) /\ entry_id r = id /\ entry_lane r = lane_pk l
    /\ entry_rows db' = map (fun o => if String.eqb (entry_id o) id then written_row r e' else o) (entry_rows db)
    /\ get (entry_payload r) "phase" = VStr s /\ get e' "phase" = VStr s'
    /\ ~ In s TERMINAL_PHASES
    /\ (forall k, ~ In k PATCH_FIELDS -> ~ In k ["phase"; "updatedAt"; "progressVersion"] ->
          (k = "readinessSeq" -> p_readmit p = false) -> get e' k = get (entry_payload r) k)
    /\ (str_in s QUEUE_ACTIONABLE_PHASES = true -> str_in s' QUEUE_ACTIONABLE_PHASES = true ->
          is_lane_head db l id = true
          /\ (truthy (p_observation p) = false -> phase_move s s'))
    /\ (str_in s QUEUE_ACTIONABLE_PHASES = false -> str_in s' QUEUE_ACTIONABLE_PHASES = true ->
          p_readmit p = true /\ s' = "ready")
    /\ (s' = "merged" -> s = "finalizing").
Proof.
  intros Hwf Hsafe (at_ & owner & l & r & phase & patch & v & seq & ev & Hf & Hops & _ & Hin & Hco & Hlane & Hpatch
    & Hterm & _ & Htr & He' & Hide & Hb & Erows & _)%(progress_split _ _ _ _ _ Hwf Hsafe).
  assert (Hget : forall k, ~ In k PATCH_FIELDS -> get e' k = updated (entry_payload r) phase at_ v seq k)
    by (intros k; rewrite He'; by apply get_updated).
  pose proof (co_phase _ Hco) as Hcp. destruct (transition_legal _ _ _ _ _ _ _ _ Hcp Htr) as (Ht1 & Ht2 & _ & Ht4).
  split.
  - apply (written_wf db db' r e'); [done|done|done| |intros pk x; by apply (bumped_lanes_mono _ _ l (p_readmit p) seq)|].
    + rewrite He'. apply written_coherent; [done|done|]. intros n Hs.
      destruct (bumped_lanes_seq _ _ _ _ _ _ Hsafe Hb Hs) as [? _]. lia.
    + rewrite He', seq_of_updated; [|done|done|intros n Hs; by apply (bumped_lanes_seq _ _ _ _ _ _ Hsafe Hb Hs)].
      destruct seq as [n|].
      * destruct (bumped_lanes_seq _ _ _ _ _ n Hsafe Hb eq_refl) as (_ & y & Hy & Hle).
        exists y. rewrite Hlane. split; [done | lia].
      * destruct (wf_seqs _ Hwf r Hin) as (y & Hy & Hle). destruct (bumped_lanes_mono _ _ _ _ _ _ _ Hb Hy) as (z & Hz & ? & _).
        exists z. split; [done | lia].
  - exists at_, owner, l, (entry_id r), r, (entry_phase r), phase. repeat (split; [done|]).
    split; [rewrite Hget by not_patch; done|].
    split; [intros Ht%str_in_In; congruence|].
    split; [intros k Hk1 Hk2 Hk3; rewrite Hget by done; by eapply updated_other|].
    split; [intros Ha Hb'; by destruct (Ht1 Ha Hb') as (? & _ & ?)|].
    split; [|done]. intros Ha Hb'. by apply Ht2.
Qed.

Lemma progress_wf db f p e' db' :
  well_formed db -> seqs_safe db -> progress db f p = Ok (e', db') ->
  well_formed db' /\ op_rows db' = op_rows db
  /\ forall pk x, lanes db !! pk = Some x ->
       exists y, lanes db' !! pk = Some y /\ generation y = generation x.
Proof.
  intros Hwf Hsafe H. split; [by apply (progress_effect db f p e')|].
  apply progress_split in H as (at_ & owner & l & r & phase & patch & v & seq & ev & _ & _ & _ & _ & _ & _ & _
    & _ & _ & _ & _ & _ & Hb & _ & _ & _ & _ & Hop); [|done|done].
  split; [done|]. intros pk x Hx. destruct (bumped_lanes_mono _ _ _ _ _ _ _ Hb Hx) as (y & Hy & _ & Hg). eauto.
Qed.


(** ** The tables project the events *)

Definition as_read (row_payload : obj) (n : Z) : obj := map_set row_payload "seq" (VInt n).

Lemma get_event type l fields n k :
  NoDup (map fst fields) -> k <> "seq" ->
  get (as_read (queue_event type l fields) n) k =
  json_norm (if String.eqb k "lane" then lane_val l else if String.eqb k "type" then VStr type else get fields k).
Proof.
  intros Hd Hk. unfold as_read, queue_event. rewrite get_set_ne by congruence.
  rewrite get_norm_fields by (by do 2 apply map_set_NoDup). f_equal.
  destruct (String.eqb k "lane") eqn:E1; [apply String.eqb_eq in E1 as ->; apply get_set|].
  apply String.eqb_neq in E1. rewrite get_set_ne by congruence.
  destruct (String.eqb k "type") eqn:E2; [apply String.eqb_eq in E2 as ->; apply get_set|].
  apply String.eqb_neq in E2. by rewrite get_set_ne by congruence.
Qed.

Lemma apply_acknowledged s l a e id n :
  stable_fields e -> get e "entryId" = VStr id ->
  apply_queue_event s (as_read (queue_event "acknowledged" l [("at", a); ("entry", VObj e)]) n)
  = Ok (set_entries s (map_set (qEntries s) id (VObj e))).
Proof.
  intros Hs%stable_obj Hid. unfold apply_queue_event. rewrite !get_event by first [done | simpl map; keys].
  cbn [String.eqb Ascii.eqb Bool.eqb json_norm].
  change (get [("at", a); ("entry", VObj e)] "entry") with (VObj e). rewrite Hs.
  cbn [member is_nullish oget rbind]. rewrite Hid. cbn [clone rbind to_str]. by rewrite Hs.
Qed.

Lemma apply_progress s l a id u g rg pp obs n m e :
  map_get (qEntries s) id = Some (VObj e) -> no_undef u ->
  m = [("at", a); ("entryId", VStr id); ("patch", VObj u); ("generation", g); ("routeGeneration", rg);
       ("priorPhase", pp)] ++ obs -> (obs = [] \/ exists w, obs = [("observation", w)]) ->
  apply_queue_event s (as_read (queue_event "progress" l m) n)
  = Ok (set_entries s (map_set (qEntries s) id (VObj (spread e (norm_fields u))))).
Proof.
  intros He Hu -> Hobs. unfold apply_queue_event.
  assert (Hd : NoDup (map fst ([("at", a); ("entryId", VStr id); ("patch", VObj u); ("generation", g);
    ("routeGeneration", rg); ("priorPhase", pp)] ++ obs))).
  { destruct Hobs as [->|[w ->]]; simpl map; keys. }
  rewrite !get_event by done.
  cbn [String.eqb Ascii.eqb Bool.eqb].
  change (get (_ ++ obs) "entryId") with (VStr id).
  change (get (_ ++ obs) "patch") with (VObj u). rewrite json_norm_obj.
  cbn [json_norm to_str]. rewrite He. cbn [negb]. unfold clone. cbn [rbind].
  rewrite (json_norm_obj (norm_fields u)), (stable_norm_fields u). unfold update_at. by rewrite He.
Qed.

Lemma apply_owner s l t a v n :
  In t ["owner-claimed"; "owner-renewed"; "owner-released"; "owner-parked"] -> v <> VUndef ->
  apply_queue_event s (as_read (queue_event t l [("at", a); ("owner", v)]) n)
  = Ok {| qEntries := qEntries s; qOwner := json_norm v; qOperations := qOperations s |}.
Proof.
  intros Ht Hv. unfold apply_queue_event. rewrite !get_event by first [done | simpl map; keys].
  cbn [String.eqb Ascii.eqb Bool.eqb].
  change (get [("at", a); ("owner", v)] "owner") with v. cbn [json_norm].
  assert (Hc : clone (json_norm v) = Ok (json_norm v)).
  { pose proof (norm_defined v Hv). pose proof (json_norm_stable v) as Hst. unfold json_stable in Hst.
    destruct (json_norm v) eqn:E; try done; unfold clone; by rewrite Hst. }
  rewrite Hc.
  destruct Ht as [<-|[<-|[<-|[<-|[]]]]]; reflexivity.
Qed.

Lemma apply_intent s l a o id n :
  get (norm_fields o) "operationId" = VStr id ->
  apply_queue_event s (as_read (queue_event "operation-intent" l [("at", a); ("operation", VObj o)]) n)
  = Ok (set_operations s (map_set (qOperations s) id (VObj (norm_fields o)))).
Proof.
  intros Hid. unfold apply_queue_event. rewrite !get_event by first [done | simpl map; keys].
  cbn [String.eqb Ascii.eqb Bool.eqb].
  change (get [("at", a); ("operation", VObj o)] "operation") with (VObj o). rewrite json_norm_obj.
  cbn [member is_nullish oget rbind starts_with json_norm]. rewrite Hid.
  change (String.prefix "owner-" "operation-intent") with false. cbv iota. cbn [rbind to_str].
  unfold clone. rewrite (json_norm_obj (norm_fields o)), (stable_norm_fields o). reflexivity.
Qed.

Lemma apply_result s l a id v n o :
  map_get (qOperations s) id = Some (VObj o) -> v <> VUndef ->
  apply_queue_event s (as_read (queue_event "operation-result" l
    [("at", a); ("operationId", VStr id); ("result", v)]) n)
  = Ok (set_operations s (map_set (qOperations s) id (VObj (map_set o "result" (json_norm v))))).
Proof.
  intros Ho Hv. unfold apply_queue_event. rewrite !get_event by first [done | simpl map; keys].
  cbn [String.eqb Ascii.eqb Bool.eqb].
  change (get [("at", a); ("operationId", VStr id); ("result", v)] "operationId") with (VStr id).
  change (get [("at", a); ("operationId", VStr id); ("result", v)] "result") with v.
  cbn [json_norm]. unfold starts_with. change (String.prefix "owner-" "operation-result") with false. cbv iota.
  assert (Hc : clone (json_norm v) = Ok (json_norm v)).
  { pose proof (norm_defined v Hv). pose proof (json_norm_stable v) as Hst. unfold json_stable in Hst.
    destruct (json_norm v) eqn:E; try done; unfold clone; by rewrite Hst. }
  rewrite Hc. cbn [rbind]. unfold update_at. cbn [to_str]. by rewrite Ho.
Qed.

Definition lane_row_of (db : Db) (l : Lane) (id : string) : option EntryRow :=
  find_b (fun r => same_lane l (entry_lane r) && String.eqb (entry_id r) id) (entry_rows db).
Definition lane_op_of (db : Db) (l : Lane) (id : string) : option OpRow :=
  find_b (fun o => same_lane l (op_lane o) && String.eqb (operation_id o) id) (op_rows db).

(** An operation as the replay holds it: the intent, then its result. *)
Definition op_view (o : OpRow) : val :=
  VObj (op_intent o ++ match op_result o with Some v => [("result", v)] | None => [] end).

(** The columns of a lane row, as [readOwner] answers them. *)
Definition owner_fields (pk : string * string) (r : LaneRow) : obj :=
  [("repository", VStr (fst pk)); ("base", VStr (snd pk)); ("generation", VInt (generation r));
   ("route_generation", VInt (route_generation r)); ("owner_id", opt_text (owner_id r));
   ("owner_state", VStr (owner_state r)); ("acquired_at", opt_text (owner_acquired r));
   ("heartbeat_at", opt_text (heartbeat_at r)); ("expires_at", opt_text (expires_at r));
   ("reason", opt_text (owner_reason r)); ("readiness_seq", VInt (readiness_seq r))].

(** The replayed owner is the lane row, but for the readiness counter, which
    admissions move without an owner event. *)
Definition owner_projected (v : val) (pk : string * string) (row : option LaneRow) : Prop :=
  match v with
  | VNull => match row with Some r => with_readiness r 0 = new_lane_row | None => True end
  | _ => exists r, row = Some r
           /\ forall k, k <> "readiness_seq" -> oget v k = json_norm (get (owner_fields pk r) k)
  end.

Record projected (db : Db) (l : Lane) (s : QueueState) : Prop := {
  pr_entries : forall id, map_get (qEntries s) id = (fun r => VObj (entry_payload r)) <$> lane_row_of db l id;
  pr_operations : forall id, map_get (qOperations s) id = op_view <$> lane_op_of db l id;
  pr_owner : owner_projected (qOwner s) (lane_pk l) (lanes db !! lane_pk l)
}.

(** Replaying the events of a lane rebuilds its tables. *)
Definition projects (db : Db) : Prop :=
  forall l, exists s, foldQueue (readEvents db l) emptyQueueState = Ok s /\ projected db l s.

Lemma foldQueue_snoc es e s s' :
  foldQueue es emptyQueueState = Ok s -> apply_queue_event s e = Ok s' ->
  foldQueue (es ++ [e]) emptyQueueState = Ok s'.
Proof.
  unfold foldQueue. intros Hs He. rewrite fold_events_app, Hs. cbn [rbind fold_events]. by rewrite He.
Qed.

Lemma projects_initial rts : projects (initial rts).
Proof. intros l. exists emptyQueueState. split; [reflexivity|]. split; simpl; try done; intros id; reflexivity. Qed.

Lemma owner_fields_readiness pk r n k :
  k <> "readiness_seq" -> get (owner_fields pk (with_readiness r n)) k = get (owner_fields pk r) k.
Proof.
  intros Hk. unfold owner_fields, get. cbn [map_get generation route_generation owner_id owner_state
    owner_acquired heartbeat_at expires_at owner_reason readiness_seq with_readiness].
  destruct (String.eqb k "readiness_seq") eqn:E; [by apply String.eqb_eq in E|]. reflexivity.
Qed.

Lemma owner_projected_readiness v pk r n :
  owner_projected v pk (Some r) -> owner_projected v pk (Some (with_readiness r n)).
Proof.
  destruct v; simpl; try done; intros (x & [= <-] & H);
    (eexists; split; [reflexivity|]; intros k Hk; rewrite owner_fields_readiness by done; by apply H).
Qed.

Lemma ensureLane_projects db l : projects db -> projects (ensureLane db l).
Proof.
  intros Hp m. destruct (Hp m) as (s & Hs & [He Ho Hw]). destruct (ensureLane_rows db l) as (Er & Ee & Eo & _).
  exists s. unfold readEvents. rewrite Ee. split; [exact Hs|].
  split; [intros id; unfold lane_row_of; rewrite Er; apply He | intros id; unfold lane_op_of; rewrite Eo; apply Ho|].
  destruct (lanes db !! lane_pk m) as [r|] eqn:E; [by rewrite (ensureLane_lookup _ _ _ _ E)|].
  unfold ensureLane. destruct (lanes db !! lane_pk l) as [r|] eqn:El; [by rewrite E|]. simpl.
  destruct (decide (lane_pk l = lane_pk m)) as [Elm|Elm]; [|by rewrite lookup_insert_ne, E].
  rewrite Elm, lookup_insert_eq. destruct (qOwner s); simpl in *; try (by destruct Hw as (? & ? & _)). done.
Qed.

(** A transaction that appends one event of one lane and leaves what the other
    lanes show unchanged. *)
Lemma projects_step db db' l row :
  projects db -> event_rows db' = event_rows db ++ [row] -> event_lane row = lane_pk l ->
  (forall m, m <> l ->
     (forall id, lane_row_of db' m id = lane_row_of db m id)
     /\ (forall id, lane_op_of db' m id = lane_op_of db m id)
     /\ lanes db' !! lane_pk m = lanes db !! lane_pk m) ->
  (forall s, projected db l s -> exists s',
     apply_queue_event s (as_read (event_payload row) (event_seq row)) = Ok s' /\ projected db' l s') ->
  projects db'.
Proof.
  intros Hp Hev Hl Hother Hown m. destruct (Hp m) as (s & Hs & Hpr).
  rewrite (readEvents_snoc _ _ _ _ Hev), Hl.
  destruct (decide (m = l)) as [->|Hne].
  - rewrite (proj2 (same_lane_true l (lane_pk l)) eq_refl).
    destruct (Hown s Hpr) as (s' & Hap & Hpr'). exists s'. split; [|done]. by eapply foldQueue_snoc.
  - destruct (same_lane m (lane_pk l)) eqn:E; [by apply same_lane_true, lane_pk_inj in E|].
    rewrite app_nil_r. exists s. split; [done|]. destruct (Hother m Hne) as (H1 & H2 & H3). destruct Hpr as [He Ho Hw].
    split; [intros id; by rewrite H1 | intros id; by rewrite H2 | by rewrite H3].
Qed.

Lemma acknowledge_projects db a scaled e db' :
  seqs_safe db -> projects db -> acknowledge db a scaled = Ok (e, db') -> projects db'.
Proof.
  intros Hsafe Hp (l & at_ & id & handoff & ack & pr & head & gen & Hl & _ & _ & _ & _ & Hpr & _ & Hgen & Hc)%acknowledge_inv.
  apply positive_int_Some in Hpr as [Hpr _]. apply positive_int_Some in Hgen as [Hgen _].
  destruct Hc as [(r & _ & _ & _ & ->)|(_ & lr & n & p & row & ev & Hlr & -> & Hpa & -> & Erow & Hfresh & Hel & Hep & ->)];
    [by apply ensureLane_projects|].
  apply (ensureLane_projects _ l) in Hp.
  assert (Hn : (0 <= readiness_seq lr < max_safe_integer)%Z).
  { destruct (ensureLane_own db l) as (lr' & H1 & H2). rewrite Hlr in H1. injection H1 as <-.
    destruct H2 as [H2|[_ ->]]; [by eapply Hsafe | unfold max_safe_integer; simpl; lia]. }
  assert (Hst := new_entry_stable l id pr head gen handoff ack (a_digest a) (readiness_seq lr + 1) at_ p at_ scaled
    ltac:(lia) ltac:(lia) ltac:(lia) Hpa).
  rewrite Hst in Erow.
  destruct (ensureLane_rows db l) as (Er & Ee & Eo & _).
  eapply (projects_step (ensureLane db l) _ l ev Hp); [by rewrite Ee | done | |].
  - intros m Hm. split; [|split].
    + intros i. unfold lane_row_of. simpl. rewrite Er, find_b_snoc. subst row. simpl.
      assert (Hml : same_lane m (lane_pk l) = false).
      { destruct (same_lane m (lane_pk l)) eqn:E; [by apply same_lane_true, lane_pk_inj in E | done]. }
      rewrite Hml. simpl. by destruct (find_b _ (entry_rows db)).
    + intros i. unfold lane_op_of. simpl. by rewrite Eo.
    + simpl. rewrite lookup_insert_ne; [done|]. intros E%lane_pk_inj. congruence.
  - intros s [He Ho Hw]. eexists. split.
    + rewrite Hep. by apply apply_acknowledged.
    + split; simpl.
      * intros i. unfold lane_row_of. simpl. rewrite find_b_snoc. subst row. simpl.
        rewrite (proj2 (same_lane_true l (lane_pk l)) eq_refl). simpl.
        specialize (He i). unfold lane_row_of in He. rewrite Er in He.
        destruct (String.eqb id i) eqn:Ei.
        -- apply String.eqb_eq in Ei as <-. rewrite map_get_set.
           destruct (find_b _ (entry_rows db)) as [o|] eqn:Ef; [|done]. exfalso.
           apply find_b_In in Ef as [Hin Hb]. apply andb_true_iff in Hb as [_ Hb]. apply String.eqb_eq in Hb.
           by destruct (Hfresh o Hin).
        -- apply String.eqb_neq in Ei. rewrite map_get_set_ne by done. rewrite He.
           by destruct (find_b _ (entry_rows db)).
      * intros i. rewrite Ho. unfold lane_op_of. simpl. by rewrite Eo.
      * rewrite lookup_insert_eq. apply owner_projected_readiness. by rewrite <- Hlr.
Qed.

(** A lane's lookup of a row by id, before and after a write. *)
Lemma lane_row_of_unique db l r :
  well_formed db -> In r (entry_rows db) -> entry_lane r = lane_pk l -> lane_row_of db l (entry_id r) = Some r.
Proof.
  intros Hwf Hin Hrl. unfold lane_row_of. destruct (find_b _ _) as [o|] eqn:Ef.
  - apply find_b_In in Ef as [Ho Hb]. apply andb_true_iff in Hb as [_ Hb%String.eqb_eq].
    f_equal. by apply (rows_eq_of_id db); [apply Hwf|..].
  - exfalso. pose proof (find_b_None _ _ _ Ef Hin) as Hf. simpl in Hf.
    rewrite (proj2 (same_lane_true l _) (eq_sym Hrl)), String.eqb_refl in Hf. done.
Qed.

Lemma lane_row_of_written db db' r e' m i :
  entry_rows db' = map (fun o => if String.eqb (entry_id o) (entry_id r) then written_row r e' else o) (entry_rows db) ->
  well_formed db -> In r (entry_rows db) ->
  lane_row_of db' m i = (fun o => if String.eqb (entry_id o) (entry_id r) then written_row r e' else o) <$> lane_row_of db m i.
Proof.
  intros Hrows Hwf Hin. unfold lane_row_of. rewrite Hrows. apply find_b_map_same. intros o Ho.
  destruct (String.eqb (entry_id o) (entry_id r)) eqn:Eo; [|done]. apply String.eqb_eq in Eo.
  assert (o = r) as -> by (by apply (rows_eq_of_id db); [apply Hwf|..]). done.
Qed.

Lemma lane_row_of_elsewhere db db' r e' l m i :
  entry_rows db' = map (fun o => if String.eqb (entry_id o) (entry_id r) then written_row r e' else o) (entry_rows db) ->
  well_formed db -> In r (entry_rows db) -> entry_lane r = lane_pk l -> m <> l ->
  lane_row_of db' m i = lane_row_of db m i.
Proof.
  intros Hrows Hwf Hin Hrl Hm. rewrite (lane_row_of_written _ _ _ _ _ _ Hrows Hwf Hin).
  destruct (lane_row_of db m i) as [o|] eqn:Eo; [|done]. simpl.
  destruct (String.eqb (entry_id o) (entry_id r)) eqn:Es; [|done]. exfalso. apply String.eqb_eq in Es.
  apply find_b_In in Eo as [Ho Hb]. apply andb_true_iff in Hb as [Hb%same_lane_true _].
  assert (o = r) as -> by (by apply (rows_eq_of_id db); [apply Hwf|..]). rewrite Hrl in Hb. by apply lane_pk_inj in Hb.
Qed.

Lemma progress_projects db f p e' db' :
  well_formed db -> seqs_safe db -> no_undef (p_patch p) -> projects db ->
  progress db f p = Ok (e', db') -> projects db'.
Proof.
  intros Hwf Hsafe Hnu Hproj (at_ & owner & l & r & phase & patch & v & seq & ev & _ & _ & _ & Hin & Hco & Hrl & Hpatch
    & _ & Hnp & _ & He' & Hide & Hb & Hrows & Hel & Hep & Hev & Hop)%(progress_split _ _ _ _ _ Hwf Hsafe).
  specialize (Hnp Hnu). eapply (projects_step db _ l ev Hproj Hev Hel).
  - intros m Hm. split; [|split].
    + intros i. by eapply lane_row_of_elsewhere.
    + intros i. unfold lane_op_of. by rewrite Hop.
    + unfold bumped_lanes in Hb. destruct (p_readmit p); [|by destruct Hb as [_ ->]]. destruct Hb as (lr & _ & _ & ->).
      rewrite lookup_insert_ne; [done|]. intros E%lane_pk_inj. congruence.
  - intros s [He Ho Hw]. assert (Hrid := lane_row_of_unique db l r Hwf Hin Hrl).
    assert (Hu : no_undef (update_of patch phase at_ v seq)).
    { unfold update_of, no_undef. apply Forall_app. split; [done|]. destruct seq; repeat constructor; done. }
    eexists. split.
    + rewrite Hep. eapply apply_progress; [by rewrite He, Hrid | exact Hu | reflexivity|].
      destruct (truthy (p_observation p)); eauto.
    + split; simpl.
      * intros i. rewrite (lane_row_of_written _ _ _ _ _ _ Hrows Hwf Hin).
        destruct (String.eqb (entry_id r) i) eqn:Ei.
        -- apply String.eqb_eq in Ei as <-. rewrite map_get_set, Hrid. simpl. rewrite String.eqb_refl. simpl. do 2 f_equal.
           destruct Hco as [_ Hcs _ _ _ _]. by rewrite He', norm_spread, Hcs by first [done | by apply no_undef_stable].
        -- pose proof Ei as Ei'. apply String.eqb_neq in Ei. rewrite map_get_set_ne, He by done.
           destruct (lane_row_of db l i) as [o|] eqn:Eo; [|done]. simpl.
           apply find_b_In in Eo as [_ Hbo]. apply andb_true_iff in Hbo as [_ Hbo%String.eqb_eq].
           by rewrite Hbo, String.eqb_sym, Ei'.
      * intros i. rewrite Ho. unfold lane_op_of. by rewrite Hop.
      * unfold bumped_lanes in Hb. destruct (p_readmit p); [|by destruct Hb as [_ ->]]. destruct Hb as (lr & Hlr & _ & ->).
        rewrite lookup_insert_eq. apply owner_projected_readiness. by rewrite <- Hlr.
Qed.

End QueueStore.

(** ** Concrete inputs *)

Definition ex_host : HostDate := {| host_date_parse := fun _ => None |}.
#[local] Existing Instance ex_host.

Definition ex_owner_row : LaneRow := {|
  generation := 1; route_generation := 0; owner_id := Some "o1"; owner_state := "active";
  owner_acquired := Some "2024-01-01T00:00:00.000Z"; heartbeat_at := Some "2024-01-01T00:00:00.000Z";
  expires_at := Some "2024-01-01T01:00:00.000Z"; owner_reason := None; readiness_seq := 0 |}.
Definition ex_routes : gmap (string * string) RouteRow :=
  {[ ("acme/app", "main") := {| route_executor := "queue-v2"; in_transition := false |} ]}.
Definition ex_store : Db := set_lanes (initial ex_routes) {[ lane_pk ex_lane := ex_owner_row ]}.
Definition ex_fence : Fence := {| f_lane := ex_lane; f_owner := "o1"; f_generation := 1; f_route := 0 |}.
Definition ex_admission (id : string) (pr : Z) : Admission := {|
  a_lane := lane_val ex_lane; a_entryId := VStr id; a_prNumber := VInt pr; a_head := VStr "h1";
  a_generation := VInt 1; a_handoffId := VStr (id +:+ "-handoff"); a_ackId := VStr (id +:+ "-ack");
  a_at := VStr "2024-01-01T00:01:00Z"; a_digest := None |}.
Definition ex_ready : Progress := {|
  p_entryId := VStr "e1"; p_phase := "ready"; p_patch := []; p_at := VStr "2024-01-01T00:02:00Z";
  p_readmit := false; p_observation := VUndef; p_expected := None |}.

(** The entry and the database of a transaction that goes through. *)
Definition entry_after (r : result (obj * Db)) : obj := match r with Ok (e, _) => e | Throw _ => [] end.
Definition db_after (r : result (obj * Db)) : Db := match r with Ok (_, d) => d | Throw _ => ex_store end.
Definition ex_acked : result (obj * Db) := acknowledge ex_store (ex_admission "e1" 7) 1800000.
Definition ex_ready_done : result (obj * Db) := progress (db_after ex_acked) ex_fence ex_ready.

Example queue_store_examples :
  (get (entry_after ex_acked) "phase", get (entry_after ex_ready_done) "phase",
   match progress (db_after ex_acked) {| f_lane := ex_lane; f_owner := "o1"; f_generation := 2; f_route := 0 |} ex_ready
   with Throw e => Some e | Ok _ => None end,
   match acknowledge (db_after ex_acked) (ex_admission "e1" 8) 1800000 with Throw e => Some e | Ok _ => None end)
  = (VStr "acknowledged", VStr "ready", Some stale_fence, Some (PlainError "conflicting queue acknowledgement")).
Proof. vm_compute. reflexivity. Qed.

Lemma ex_safe n : (0 <= n < max_safe_integer)%Z ->
  seqs_safe (set_lanes (initial ex_routes) {[ lane_pk ex_lane := with_readiness ex_owner_row n ]}).
Proof. intros Hn pk r Hr. simpl in Hr. apply lookup_singleton_Some in Hr as [_ <-]. exact Hn. Qed.

Lemma ex_store_ok : well_formed ex_store /\ seqs_safe ex_store.
Proof.
  split; [split; simpl; [by constructor | by constructor | done]|].
  apply (ex_safe 0). unfold max_safe_integer. lia.
Qed.

Lemma ex_acked_lanes :
  lanes (db_after ex_acked) = {[ lane_pk ex_lane := with_readiness ex_owner_row 1 ]}.
Proof. by_vm. Qed.

Lemma acknowledge_at_tail_witness :
  well_formed (db_after ex_acked).
Proof.
  refine (proj1 (acknowledge_at_tail ex_store (ex_admission "e1" 7) 1800000 (entry_after ex_acked)
    (db_after ex_acked) (proj1 ex_store_ok) (proj2 ex_store_ok) _)).
  vm_compute. reflexivity.
Defined.

Lemma acknowledge_retry_witness :
  acknowledge (db_after ex_acked) (at_time (ex_admission "e1" 7) (VStr "2024-01-02T00:00:00Z")) 5
  = Ok (entry_after ex_acked, db_after ex_acked).
Proof.
  apply (acknowledge_retry ex_store (ex_admission "e1" 7) 1800000 (entry_after ex_acked) (db_after ex_acked)
    (VStr "2024-01-02T00:00:00Z") "2024-01-02T00:00:00.000Z" 5 (proj2 ex_store_ok)); vm_compute; reflexivity.
Defined.

