(* ===== verification/QueueOwner.v ===== *)
(** The queue owner (createQueueOwner in src/src/finalization/queue-owner.mjs):
    claiming, renewing and releasing a lane, and issuing a remote mutation under
    its fence. Whether the lane's issuance lock is free is an argument, as are
    the clock readings. An awaited adapter is a function that answers and may
    change the database in the meantime; the world keeps the calls made to it. *)

From Stdlib Require Import ZArith Lia Ascii SpecFloat.
From stdpp Require Import base list strings gmap.
From S2P Require Import Prelude JsNum JsValue JsDate QueueLane QueueStore.

Inductive QCall :=
| CInvoke (intent : obj)
| CRecover (pending : list OpRow).

Record QWorld := { db : Db; calls : list QCall }.

(** An awaited adapter call: its reply, and the database when it settles. *)
Definition QExternal : Type := Db -> result val * Db.

Definition QM (A : Type) : Type := QWorld -> result A * QWorld.
Definition qret {A} (a : A) : QM A := fun w => (Ok a, w).
Definition qthrow {A} (e : jserror) : QM A := fun w => (Throw e, w).
Definition qlift {A} (r : result A) : QM A := fun w => (r, w).
Definition qbind {A B} (m : QM A) (f : A -> QM B) : QM B :=
  fun w => match m w with (Ok a, w') => f a w' | (Throw e, w') => (Throw e, w') end.
Declare Scope queue_scope.
Notation "'let!' x ':=' m 'in' k" := (qbind m (fun x => k))
  (at level 10, x name, m at level 100, k at level 200) : queue_scope.
Open Scope queue_scope.

(** [store.tx(fn)]: the transaction commits, or throws and rolls back. *)
Definition tx {A} (f : Db -> result (A * Db)) : QM A :=
  fun w => match f (db w) with
           | Ok (a, d) => (Ok a, {| db := d; calls := calls w |})
           | Throw e => (Throw e, w)
           end.
Definition query {A} (f : Db -> A) : QM A := fun w => (Ok (f (db w)), w).

(** [await adapter(...)], recorded. *)
Definition await_call (c : QCall) (x : QExternal) : QM (result val) :=
  fun w => let '(r, d) := x (db w) in (Ok r, {| db := d; calls := calls w ++ [c] |}).

Inductive Reply :=
| Refused (reason : val)
| Claimed (fence : Fence) (owner : LaneRow)
| Done
| Settled (replay : bool) (res : val).

Section Owner.
Context {hostDate : HostDate}.

(** [Date.parse(a) <= Date.parse(b)]. *)
Definition date_le (a b : string) : bool :=
  match date_parse a, date_parse b with Some x, Some y => (x <=? y)%Z | _, _ => false end.

Definition validResult (v : val) : bool :=
  truthy v && val_in (oget v "outcome") ["succeeded"; "not-applied"]
  && match non_empty (oget v "sourceRef") with Some _ => true | None => false end.

(** [locked]: the lane is resolved, the lock tried, the action run under it. *)
Definition locked (lock_free : bool) (lane : val) (action : Lane -> QM Reply) : QM Reply :=
  let! l := qlift (resolveLaneKey lane) in
  if lock_free then action l else qret (Refused (VStr "owner-operation-in-flight")).

Definition update_lane (d : Db) (l : Lane) (g : LaneRow -> LaneRow) : Db :=
  match lanes d !! lane_pk l with
  | Some r => set_lanes d (<[lane_pk l := g r]> (lanes d))
  | None => d
  end.

Definition with_owner (r : LaneRow) (gen : Z) (owner : option string) (state : string)
    (acquired heartbeat expires reason : option string) : LaneRow := {|
  generation := gen; route_generation := route_generation r; owner_id := owner; owner_state := state;
  owner_acquired := acquired; heartbeat_at := heartbeat; expires_at := expires; owner_reason := reason;
  readiness_seq := readiness_seq r |}.

Definition owner_val (d : Db) (l : Lane) : val :=
  match readOwner d l with Some r => VObj (owner_fields (lane_pk l) r) | None => VNull end.

Definition append_owner (d : Db) (type : string) (l : Lane) (at_ : string) : result Db :=
  let* a := append d type (lane_val l) [("at", VStr at_); ("owner", owner_val d l)] in Ok (snd a).

Definition no_row : jserror := TypeError "Cannot read properties of null".

Definition park (l : Lane) (at_ reason : string) : QM Reply :=
  tx (fun d =>
    match readOwner d l with
    | None => Throw no_row
    | Some prior =>
        if String.eqb (owner_state prior) "parked" && bool_decide (owner_reason prior = Some reason)
        then Ok (Refused (VStr reason), d)
        else
          let d := update_lane d l (fun r => with_owner r (generation r) (owner_id r) "parked"
                     (owner_acquired r) (heartbeat_at r) (expires_at r) (Some reason)) in
          let* d := append_owner d "owner-parked" l at_ in
          Ok (Refused (VStr reason), d)
    end).

Definition with_result (o : OpRow) (v : val) : OpRow := {|
  operation_id := operation_id o; op_lane := op_lane o; op_entry := op_entry o;
  op_generation := op_generation o; op_route_generation := op_route_generation o; op_kind := op_kind o;
  op_intent := op_intent o; op_result := Some (json_norm v) |}.

Definition settle (d : Db) (l : Lane) (id : string) (res : val) (at_ : string) : result Db :=
  guard validResult res else PlainError "unproven queue operation outcome" in
  let d := set_op_rows d (map (fun o =>
    if String.eqb (operation_id o) id && match op_result o with None => true | Some _ => false end
    then with_result o res else o) (op_rows d)) in
  let* a := append d "operation-result" (lane_val l)
    [("at", VStr at_); ("operationId", VStr id); ("result", res)] in
  Ok (snd a).

Fixpoint settle_all (d : Db) (l : Lane) (pending : list OpRow) (results : OpRow -> val) (at_ : string)
  : result Db :=
  match pending with
  | [] => Ok d
  | o :: pending' =>
      let* d := settle d l (operation_id o) (results o) at_ in settle_all d l pending' results at_
  end.

Definition nonneg_int (v : val) : option Z :=
  match v with
  | VNum n => if is_safe_integer n then
                match num_to_Z n with Some z => if (0 <=? z)%Z then Some z else None | None => None end
              else None
  | _ => None
  end.

(** [{ ...result, drainSourceRef }]. *)
Definition with_drain (res : val) (source : val) : val :=
  match res with
  | VObj o => VObj (map_set o "drainSourceRef" source)
  | _ => VObj [("drainSourceRef", source)]
  end.

Definition evidence_result (evidence : val) (o : OpRow) : val :=
  oget (oget evidence "results") (operation_id o).

(** The committing transaction of a claim. *)
Definition take_lane (l : Lane) (ownerId expires : string) (rg prior_gen : Z) (pending : list OpRow)
    (evidence : val) (at_ : string) (d : Db) : result (Reply * Db) :=
  match readOwner d l with
  | None => Throw no_row
  | Some row =>
      if negb ((generation row =? prior_gen)%Z && (route_generation row =? rg)%Z)
      then Throw (PlainError "queue ownership moved")
      else if negb (Z.abs (generation row + 1) <=? max_safe_integer)%Z
      then Throw (PlainError "queue generation exhausted")
      else
        let* d := settle_all d l pending
                    (fun o => with_drain (evidence_result evidence o) (oget evidence "sourceRef")) at_ in
        let d := update_lane d l (fun r => with_owner r (generation r + 1) (Some ownerId) "active"
                   (Some at_) (Some at_) (Some expires) None) in
        match readOwner d l with
        | None => Throw no_row
        | Some owner =>
            let* d := append_owner d "owner-claimed" l at_ in
            Ok (Claimed {| f_lane := l; f_owner := ownerId; f_generation := generation owner; f_route := rg |}
                  owner, d)
        end
  end.

Definition reason_val (r : LaneRow) : val := opt_text (owner_reason r).

Definition finish_claim (l : Lane) (owner expires : string) (rg prior_gen : Z) (pending : list OpRow)
    (evidence : val) (at_ : string) : QM Reply :=
  if date_le expires at_ then qret (Refused (VStr "claim-deadline-expired"))
  else tx (take_lane l owner expires rg prior_gen pending evidence at_).

(** A lane with unreconciled operations is claimed only on recovery evidence. *)
Definition recover_claim (recovery : option (list OpRow -> QExternal)) (l : Lane) (owner expires : string)
    (rg prior_gen : Z) (pending : list OpRow) (now1 : val) : QM Reply :=
  let! reply := match recovery with
                | Some r => await_call (CRecover pending) (r pending)
                | None => qret (Ok VUndef)
                end in
  let evidence := match reply with Ok v => v | Throw _ => VUndef end in
  let! at1 := qlift (queueTime now1) in
  if negb (is_true (oget evidence "quiescent") && truthy (oget evidence "sourceRef"))
     || some_b (fun o => negb (validResult (evidence_result evidence o))) pending
  then park l at1 "prior-operation-quiescence-unproven"
  else finish_claim l owner expires rg prior_gen pending evidence at1.

(** [prior.owner_state === 'active' && prior.expires_at > at]. *)
Definition still_held (prior : LaneRow) (at_ : string) : bool :=
  String.eqb (owner_state prior) "active"
  && match date_parse (default "null" (expires_at prior)), date_parse at_ with
     | Some due, Some t => (t <? due)%Z
     | _, _ => false
     end.

Definition claim_lane (recovery : option (list OpRow -> QExternal)) (l : Lane) (owner expires : string)
    (rg : Z) (at0 : string) (now1 : val) : QM Reply :=
  let! route := query (fun d => routes d !! lane_pk l) in
  let! found := query (fun d => readOwner d l) in
  let! pending := query (fun d => operations d l) in
  match route, found with
  | Some rt, Some prior =>
      if negb (String.eqb (route_executor rt) "queue-v2" && negb (in_transition rt))
      then qret (Refused (VStr "queue-route-not-owned"))
      else if negb (route_generation prior =? rg)%Z
      then qret (Refused (VStr "route-generation-mismatch"))
      else if still_held prior at0 then qret (Refused (VStr "held"))
      else
        match pending with
        | [] =>
            if String.eqb (owner_state prior) "parked" then qret (Refused (reason_val prior))
            else finish_claim l owner expires rg (generation prior) [] VUndef at0
        | _ :: _ => recover_claim recovery l owner expires rg (generation prior) pending now1
        end
  | None, _ => qret (Refused (VStr "queue-route-not-owned"))
  | _, None => qthrow no_row
  end.

Definition claim (lock_free : bool) (recovery : option (list OpRow -> QExternal))
    (lane ownerId expiresAt routeGeneration now0 now1 : val) : QM Reply :=
  let! owner := qlift (queueId ownerId) in
  let! expires := qlift (queueTime expiresAt) in
  match nonneg_int routeGeneration with
  | None => qthrow (TypeError "invalid route generation")
  | Some rg =>
      locked lock_free lane (fun l =>
        let! at0 := qlift (queueTime now0) in
        if date_le expires at0 then qthrow (TypeError "owner expiry must be in the future")
        else
          let! _ := tx (fun d => Ok (tt, ensureLane d l)) in
          claim_lane recovery l owner expires rg at0 now1)
  end.

Definition renew (lock_free : bool) (f : Fence) (expiresAt now : val) : QM Reply :=
  let! expires := qlift (queueTime expiresAt) in
  locked lock_free (lane_val (f_lane f)) (fun l =>
    tx (fun d =>
      let* at_ := queueTime now in
      let* _ := assertFence d f (VStr at_) in
      if date_le expires at_ then Throw (TypeError "invalid owner expiry")
      else
        let d := update_lane d l (fun r => with_owner r (generation r) (owner_id r) (owner_state r)
                   (owner_acquired r) (Some at_) (Some expires) (owner_reason r)) in
        let* d := append_owner d "owner-renewed" l at_ in
        Ok (Done, d))).

Definition release (lock_free : bool) (f : Fence) (now : val) : QM Reply :=
  locked lock_free (lane_val (f_lane f)) (fun l =>
    tx (fun d =>
      let* at_ := queueTime now in
      let* _ := assertFence d f (VStr at_) in
      guard Nat.eqb (length (operations d l)) 0 else PlainError "unreconciled queue operation" in
      let d := update_lane d l (fun r => with_owner r (generation r) None "idle"
                 (owner_acquired r) (heartbeat_at r) (expires_at r) (owner_reason r)) in
      let* d := append_owner d "owner-released" l at_ in
      Ok (Done, d))).

(** ** [issue] *)

Definition fence_val (f : Fence) : val :=
  VObj [("lane", lane_val (f_lane f)); ("ownerId", VStr (f_owner f)); ("generation", VInt (f_generation f));
        ("routeGeneration", VInt (f_route f))].

Definition intent_of (id kind entryId : string) (f : Fence) (at_ : string) (entry : obj) (timeoutMs : Z) : obj :=
  [("operationId", VStr id); ("kind", VStr kind); ("entryId", VStr entryId); ("fence", fence_val f);
   ("at", VStr at_); ("candidate", get entry "candidate"); ("expectedOldHead", get entry "expectedOldHead");
   ("exactBase", get entry "exactBase"); ("deadline", oget (get entry "patience") "deadline");
   ("timeoutMs", VInt timeoutMs)].

Definition op_of_id (d : Db) (id : string) : option OpRow :=
  find_b (fun o => String.eqb (operation_id o) id) (op_rows d).

Definition insert_op (d : Db) (o : OpRow) : result Db :=
  match op_of_id d (operation_id o) with
  | Some _ => Throw unique_error
  | None => Ok (set_op_rows d (op_rows d ++ [o]))
  end.

Definition phase_for (kind : string) : string := if String.eqb kind "push" then "publishing" else "finalizing".

(** The transaction that journals the intent, or finds it journalled. *)
Definition prepare (f : Fence) (l : Lane) (entryId : val) (id kind at_ : string) (scaled : Z) (d : Db)
  : result ((OpRow * bool) * Db) :=
  let* _ := assertFence d f (VStr at_) in
  match op_of_id d id with
  | Some o =>
      if negb (is_str entryId (op_entry o) && String.eqb (op_kind o) kind && same_lane l (op_lane o))
      then Throw (PlainError "conflicting operation identity")
      else
        let* found := readEntry d entryId in
        match found with
        | Some entry =>
            let i := op_intent o in
            if strict_eq (get i "candidate") (get entry "candidate")
               && strict_eq (get i "exactBase") (get entry "exactBase")
               && strict_eq (get i "expectedOldHead") (get entry "expectedOldHead")
               && strict_eq (oget (get i "fence") "routeGeneration") (VInt (f_route f))
            then Ok ((o, false), d) else Throw (PlainError "operation intent currency changed")
        | None => Throw (PlainError "operation intent currency changed")
        end
  | None =>
      guard Nat.eqb (length (operations d l)) 0 else PlainError "unreconciled queue operation" in
      let* found := readEntry d entryId in
      match found, entryId with
      | Some entry, VStr eid =>
          guard is_lane_head d l eid && is_str (get entry "phase") (phase_for kind)
                && truthy (get entry "candidate") && truthy (get entry "exactBase")
                && truthy (get entry "expectedOldHead")
          else PlainError "invalid mutation phase/candidate" in
          let* dl := member (get entry "patience") "deadline" in
          let* timeoutMs := queueWaitMs scaled 60000 (if is_nullish dl then None else Some (to_str dl)) at_ in
          guard negb (timeoutMs =? 0)%Z else PlainError "queue infrastructure deadline expired" in
          let intent := norm_fields (intent_of id kind eid f at_ entry timeoutMs) in
          let o := {| operation_id := id; op_lane := lane_pk l; op_entry := eid;
                      op_generation := f_generation f; op_route_generation := f_route f; op_kind := kind;
                      op_intent := intent; op_result := None |} in
          let* d := insert_op d o in
          let* a := append d "operation-intent" (lane_val l)
            [("at", VStr at_); ("operation", VObj (intent_of id kind eid f at_ entry timeoutMs))] in
          Ok ((o, true), snd a)
      | _, _ => Throw (PlainError "invalid mutation phase/candidate")
      end
  end.

Definition issue (lock_free : bool) (f : Fence) (entryId operationId : val) (kind : string)
    (invoke : obj -> QExternal) (scaled : Z) (now0 now1 now2 : val) : QM Reply :=
  let! id := qlift (queueId operationId) in
  if negb (str_in kind ["push"; "merge"]) then qthrow (TypeError "invalid mutation adapter")
  else
    locked lock_free (lane_val (f_lane f)) (fun l =>
      let! at_ := qlift (queueTime now0) in
      let! prepared := tx (prepare f l entryId id kind at_ scaled) in
      let '(o, fresh) := prepared in
      match op_result o with
      | Some res => qret (Settled true res)
      | None =>
          if negb fresh then qthrow (PlainError "operation requires reconciliation")
          else
            let! reply := await_call (CInvoke (op_intent o)) (invoke (op_intent o)) in
            let! res := qlift reply in
            let! _ := tx (fun d =>
              let* at1 := queueTime now1 in
              let* _ := assertFence d f (VStr at1) in
              let* at2 := queueTime now2 in
              let* d := settle d l id res at2 in
              Ok (tt, d)) in
            qret (Settled false res)
      end).

(** ** The invariant with operations *)

Record op_coherent (o : OpRow) : Prop := {
  oc_stable : stable_fields (op_intent o);
  oc_id : get (op_intent o) "operationId" = VStr (operation_id o);
  oc_fresh : ~ In "result" (map fst (op_intent o))
}.

Record sound (d : Db) : Prop := {
  so_tables : well_formed d;
  so_projects : projects d;
  so_ops : Forall op_coherent (op_rows d);
  so_op_ids : NoDup (map operation_id (op_rows d))
}.

(** Generations only grow. *)
Definition gens_le (d d' : Db) : Prop :=
  forall pk r, lanes d !! pk = Some r -> exists r', lanes d' !! pk = Some r' /\ (generation r <= generation r')%Z.

Lemma gens_le_refl d : gens_le d d.
Proof. intros pk r Hr. exists r. split; [done | lia]. Qed.

Lemma gens_le_trans d1 d2 d3 : gens_le d1 d2 -> gens_le d2 d3 -> gens_le d1 d3.
Proof.
  intros H12 H23 pk r Hr. destruct (H12 _ _ Hr) as (r2 & H2 & L2). destruct (H23 _ _ H2) as (r3 & H3 & L3).
  exists r3. split; [done | lia].
Qed.

Lemma gens_le_lanes d d' : lanes d' = lanes d -> gens_le d d'.
Proof. intros E pk r Hr. rewrite E. exists r. split; [done | lia]. Qed.

Lemma gens_le_insert d d' l r r' :
  lanes d !! lane_pk l = Some r -> lanes d' = <[lane_pk l := r']> (lanes d) ->
  (generation r <= generation r')%Z -> gens_le d d'.
Proof.
  intros Hr E Hle pk x Hx. rewrite E. destruct (decide (pk = lane_pk l)) as [->|Hne].
  - rewrite lookup_insert_eq. exists r'. split; [done|]. congruence.
  - rewrite lookup_insert_ne by done. exists x. split; [done | lia].
Qed.

Lemma ensureLane_gens d l : gens_le d (ensureLane d l).
Proof. intros pk r Hr. exists r. split; [by apply ensureLane_lookup | lia]. Qed.

Lemma ensureLane_sound d l : sound d -> sound (ensureLane d l).
Proof.
  intros [[Hc Hi Hs] Hp Ho Hid]. destruct (ensureLane_rows d l) as (Er & _ & Eo & _).
  split; rewrite ?Eo; try done; [|by apply ensureLane_projects].
  split; rewrite ?Er; [done|done|]. intros r Hr. destruct (Hs r Hr) as (x & Hx & Hle).
  exists x. split; [by apply ensureLane_lookup | done].
Qed.

Lemma same_lane_refl l : same_lane l (lane_pk l) = true.
Proof. by apply same_lane_true. Qed.
Lemma same_lane_other l m : m <> l -> same_lane m (lane_pk l) = false.
Proof. intros Hm. destruct (same_lane m (lane_pk l)) eqn:E; [|done]. by apply same_lane_true, lane_pk_inj in E. Qed.

Lemma owner_fields_keys pk r : NoDup (map fst (owner_fields pk r)).
Proof. simpl map. keys. Qed.

(** An owner event written with the lane row it shows. *)
Lemma owner_step d d' l v r g type at_ :
  resolveLaneKey v = Ok l -> lanes d !! lane_pk l = Some r -> readiness_seq (g r) = readiness_seq r ->
  In type ["owner-claimed"; "owner-renewed"; "owner-released"; "owner-parked"] ->
  append_owner (update_lane d l g) type l at_ = Ok d' ->
  lanes d' = <[lane_pk l := g r]> (lanes d) /\ op_rows d' = op_rows d /\ routes d' = routes d
  /\ (sound d -> sound d').
Proof.
  intros Hl Hr Hg Ht H. unfold append_owner, update_lane in H. rewrite Hr in H.
  apply rbind_Ok in H as ([ev0 d1] & (l' & ev & Hl' & Hel & Hep & E)%queue_append_inv & H).
  injection H as Hd'. simpl in Hd'. rewrite E in Hd'.
  rewrite (resolveLaneKey_lane _ _ Hl) in Hl'. injection Hl' as <-.
  rewrite <- Hd'. simpl. repeat (split; [done|]).
  intros [[Hc Hi Hs] Hp Ho Hid]. split; simpl; try done.
  - split; simpl; [done|done|]. intros x Hx. destruct (Hs x Hx) as (y & Hy & Hle).
    destruct (decide (entry_lane x = lane_pk l)) as [Ex|Ex].
    + rewrite Ex in *. rewrite lookup_insert_eq. eexists. split; [done|]. rewrite Hg. congruence.
    + rewrite lookup_insert_ne by done. eauto.
  - eapply (projects_step d _ l ev Hp); simpl; [done|done| |].
    + intros m Hm. split; [done|]. split; [done|].
      rewrite lookup_insert_ne; [done|]. intros E'%lane_pk_inj. congruence.
    + intros s [He Hop Hw]. eexists. split.
      * rewrite Hep. apply apply_owner; [done|]. unfold owner_val, readOwner. simpl. by rewrite lookup_insert_eq.
      * split; simpl; [done|done|]. rewrite lookup_insert_eq. unfold owner_val, readOwner. simpl.
        rewrite lookup_insert_eq. exists (g r). split; [done|]. intros k _.
        apply (get_norm_fields (owner_fields (lane_pk l) (g r))). apply owner_fields_keys.
Qed.

(** One settled operation. *)
Definition settled_row (id : string) (res : val) (o : OpRow) : OpRow :=
  if String.eqb (operation_id o) id && match op_result o with None => true | Some _ => false end
  then with_result o res else o.

Lemma settled_row_keys id res o :
  operation_id (settled_row id res o) = operation_id o /\ op_lane (settled_row id res o) = op_lane o
  /\ op_intent (settled_row id res o) = op_intent o.
Proof. unfold settled_row. by destruct (_ && _). Qed.

Lemma lane_op_settled d d' m id res i :
  op_rows d' = map (settled_row id res) (op_rows d) -> lane_op_of d' m i = settled_row id res <$> lane_op_of d m i.
Proof.
  intros E. unfold lane_op_of. rewrite E. apply find_b_map_same. intros o _.
  destruct (settled_row_keys id res o) as (-> & -> & _). done.
Qed.

Lemma lane_op_In d l id o :
  lane_op_of d l id = Some o -> In o (op_rows d) /\ op_lane o = lane_pk l /\ operation_id o = id.
Proof.
  intros [Hin Hb]%find_b_In. apply andb_true_iff in Hb as [Hb1 Hb2].
  apply same_lane_true in Hb1. apply String.eqb_eq in Hb2. auto.
Qed.

Lemma settle_step d d' l v id res at_ o :
  resolveLaneKey v = Ok l -> settle d l id res at_ = Ok d' ->
  lane_op_of d l id = Some o -> op_result o = None ->
  lanes d' = lanes d /\ entry_rows d' = entry_rows d /\ routes d' = routes d
  /\ op_rows d' = map (settled_row id res) (op_rows d) /\ (sound d -> sound d').
Proof.
  intros Hl H Ho Hnone. unfold settle in H. destruct (validResult res) eqn:Ev; [|done].
  assert (Hres : res <> VUndef) by (intros ->; done).
  apply rbind_Ok in H as ([ev0 d1] & (l' & ev & Hl' & Hel & Hep & E)%queue_append_inv & H).
  injection H as Hd'. simpl in Hd'. rewrite E in Hd'.
  rewrite (resolveLaneKey_lane _ _ Hl) in Hl'. injection Hl' as <-.
  rewrite <- Hd'. simpl. repeat (split; [done|]).
  intros [[Hc Hi Hs] Hp Hop Hid]. split; simpl.
  - by split.
  - eapply (projects_step d _ l ev Hp); simpl; [done|done| |].
    + intros m Hm. split; [done|]. split; [|done]. intros i.
      rewrite (lane_op_settled d _ m id res i) by done.
      destruct (lane_op_of d m i) as [x|] eqn:Ex; [|done]. simpl. f_equal.
      unfold settled_row. destruct (String.eqb (operation_id x) id) eqn:Ei; [|done]. exfalso.
      apply String.eqb_eq in Ei. apply lane_op_In in Ex as (Hx & Hxl & _). apply lane_op_In in Ho as (Hoin & Hol & Hoid).
      assert (x = o) as -> by (apply (NoDup_map_inj operation_id (op_rows d)); [done..|congruence]).
      rewrite Hol in Hxl. by apply lane_pk_inj in Hxl.
    + intros s [He Hopr Hw]. eexists. split.
      * rewrite Hep. apply apply_result; [rewrite Hopr, Ho; simpl; unfold op_view; by rewrite Hnone | done].
      * split; simpl; [done| |done]. intros i. rewrite (lane_op_settled d _ l id res i) by done.
        destruct (String.eqb id i) eqn:Ei.
        -- apply String.eqb_eq in Ei as <-. rewrite map_get_set, Ho. simpl.
           apply lane_op_In in Ho as (Hoin & _ & Hoid). rewrite List.Forall_forall in Hop.
           destruct (Hop o Hoin) as [_ _ Hf].
           unfold settled_row. rewrite Hoid, String.eqb_refl, Hnone. simpl. unfold op_view. simpl.
           rewrite app_nil_r. by rewrite map_set_absent.
        -- pose proof Ei as Ei'. apply String.eqb_neq in Ei. rewrite map_get_set_ne, Hopr by done.
           destruct (lane_op_of d l i) as [x|] eqn:Ex; [|done]. simpl. f_equal.
           apply lane_op_In in Ex as (_ & _ & Hxid). unfold settled_row.
           rewrite Hxid, String.eqb_sym, Ei'. done.
  - apply List.Forall_forall. intros x (y & <- & Hy)%in_map_iff. rewrite List.Forall_forall in Hop.
    destruct (Hop y Hy) as [H1 H2 H3]. destruct (settled_row_keys id res y) as (E1 & E2 & E3).
    change (op_coherent (settled_row id res y)). split; rewrite ?E1, ?E3; done.
  - rewrite map_map. erewrite map_ext; [exact Hid|]. intros y. apply settled_row_keys.
Qed.

(** Unresolved operations of the lane, each once. *)
Definition pending_in (d : Db) (l : Lane) (pending : list OpRow) : Prop :=
  NoDup (map operation_id pending)
  /\ forall o, In o pending -> lane_op_of d l (operation_id o) = Some o /\ op_result o = None.

Lemma lane_op_unsettled d l pending :
  sound d -> pending = operations d l -> pending_in d l pending.
Proof.
  intros Hs ->. unfold operations. split.
  - pose proof (so_op_ids _ Hs) as Hd. induction (op_rows d) as [|o os IH]; [done|]. cbn [map] in Hd.
    apply NoDup_cons in Hd as [Hn Hd]. simpl. destruct (_ && _); [|by apply IH]. cbn [map].
    apply NoDup_cons. split; [|by apply IH]. intros Hin. apply Hn. apply list_elem_of_In in Hin.
    apply in_map_iff in Hin as (x & <- & Hx). apply List.filter_In in Hx as [Hx _].
    apply list_elem_of_In. by apply in_map.
  - intros o [Hin Hb]%List.filter_In. apply andb_true_iff in Hb as [Hl Hr].
    destruct (op_result o) eqn:Er; [done|]. split; [|done]. unfold lane_op_of.
    destruct (find_b _ _) as [x|] eqn:Ef.
    + apply find_b_In in Ef as [Hx Hb]. apply andb_true_iff in Hb as [_ Hb]. apply String.eqb_eq in Hb.
      f_equal. apply (NoDup_map_inj operation_id (op_rows d)); [apply Hs | done | done | congruence].
    + exfalso. pose proof (find_b_None _ _ _ Ef Hin) as Hf. simpl in Hf. by rewrite Hl, String.eqb_refl in Hf.
Qed.

Lemma settle_all_step d d' l v pending results at_ :
  resolveLaneKey v = Ok l -> settle_all d l pending results at_ = Ok d' ->
  NoDup (map operation_id pending) ->
  (forall o, In o pending -> exists x, lane_op_of d l (operation_id o) = Some x /\ op_result x = None) ->
  lanes d' = lanes d /\ routes d' = routes d /\ (sound d -> sound d')
  /\ (forall i, op_of_id d i <> None -> op_of_id d' i <> None).
Proof.
  intros Hl. revert d. induction pending as [|o pending IH]; intros d H Hd Hall; [injection H as <-; auto|].
  cbn [settle_all map] in *. apply NoDup_cons in Hd as [Hn Hd].
  apply rbind_Ok in H as (d1 & H1 & H).
  destruct (Hall o (or_introl eq_refl)) as (x & Hx & Hxr).
  destruct (settle_step d d1 l v _ _ _ _ Hl H1 Hx Hxr) as (El & Ee & Ert & Eo & Hso).
  destruct (IH d1 H Hd) as (El' & Ert' & Hso' & Hops).
  - intros y Hy. destruct (Hall y (or_intror Hy)) as (z & Hz & Hzr).
    rewrite (lane_op_settled d _ l _ _ _ Eo), Hz. simpl. eexists. split; [reflexivity|].
    unfold settled_row. destruct (String.eqb (operation_id z) (operation_id o)) eqn:E; [|done]. exfalso.
    apply String.eqb_eq in E. apply lane_op_In in Hz as (_ & _ & Hz). apply Hn. rewrite <- E, Hz.
    apply list_elem_of_In. by apply in_map.
  - split; [congruence|]. split; [congruence|]. split; [tauto|]. intros i Hi. apply Hops.
    unfold op_of_id in *. rewrite Eo. rewrite (find_b_map_same _ (settled_row (operation_id o) (results o))).
    + by destruct (find_b _ (op_rows d)).
    + intros y _. by destruct (settled_row_keys (operation_id o) (results o) y) as (-> & _).
Qed.

(** ** Awaited adapters *)

(** What an adapter awaited under the lock of lane [l] leaves behind: the
    database is still sound, the operations of the lane are untouched (only the
    holder of the lock writes them), and generations have not gone back. *)
Definition frames (l : Lane) (x : QExternal) : Prop :=
  forall d, sound d -> let d' := snd (x d) in
    sound d' /\ (forall i, lane_op_of d' l i = lane_op_of d l i) /\ gens_le d d'
    /\ (forall i, op_of_id d i <> None -> op_of_id d' i <> None).

Definition ops_kept (d d' : Db) : Prop := forall i, op_of_id d i <> None -> op_of_id d' i <> None.

(** What every run keeps. *)
Record kept (d d' : Db) : Prop := {
  k_sound : sound d -> sound d';
  k_gens : gens_le d d';
  k_ops : ops_kept d d'
}.

Lemma kept_refl d : kept d d.
Proof. split; [done | apply gens_le_refl | by intros i Hi]. Qed.

Lemma kept_trans d1 d2 d3 : kept d1 d2 -> kept d2 d3 -> kept d1 d3.
Proof. intros [S1 G1 O1] [S2 G2 O2]. split; [tauto | by eapply gens_le_trans | intros i Hi; by apply O2, O1]. Qed.

Lemma ensureLane_kept d l : kept d (ensureLane d l).
Proof.
  split; [apply ensureLane_sound | apply ensureLane_gens|]. intros i.
  unfold op_of_id. by destruct (ensureLane_rows d l) as (_ & _ & -> & _).
Qed.

Lemma owner_step_kept d d' l v r g type at_ :
  resolveLaneKey v = Ok l -> lanes d !! lane_pk l = Some r -> readiness_seq (g r) = readiness_seq r ->
  (generation r <= generation (g r))%Z ->
  In type ["owner-claimed"; "owner-renewed"; "owner-released"; "owner-parked"] ->
  append_owner (update_lane d l g) type l at_ = Ok d' -> kept d d'.
Proof.
  intros Hl Hr Hq Hg Ht H. destruct (owner_step _ _ _ _ _ _ _ _ Hl Hr Hq Ht H) as (El & Eo & _ & Hs).
  split; [done | by eapply gens_le_insert |]. intros i. unfold op_of_id. by rewrite Eo.
Qed.

Lemma tx_db {A} (f : Db -> result (A * Db)) w r w' (P : Db -> Db -> Prop) :
  tx f w = (r, w') -> (forall d, P d d) -> (forall a d', f (db w) = Ok (a, d') -> P (db w) d') ->
  P (db w) (db w') /\ calls w' = calls w.
Proof.
  unfold tx. intros H Hr Hf. destruct (f (db w)) as [[a d']|e] eqn:E; injection H as <- <-; simpl; split; eauto.
Qed.

Lemma take_lane_step l v ownerId expires rg gen pending evidence at_ d reply d' :
  resolveLaneKey v = Ok l -> (sound d -> pending_in d l pending) ->
  take_lane l ownerId expires rg gen pending evidence at_ d = Ok (reply, d') ->
  exists row f owner, readOwner d l = Some row /\ generation row = gen /\ route_generation row = rg
    /\ reply = Claimed f owner /\ f_lane f = l /\ f_owner f = ownerId /\ f_generation f = (gen + 1)%Z /\ f_route f = rg
    /\ (sound d -> kept d d' /\ lanes d' !! lane_pk l = Some owner)
    /\ owner = with_owner row (gen + 1) (Some ownerId) "active" (Some at_) (Some at_) (Some expires) None.
Proof.
  intros Hl Hpend. unfold take_lane. destruct (readOwner d l) as [row|] eqn:Er; [|done]. unfold readOwner in *.
  destruct ((generation row =? gen)%Z && (route_generation row =? rg)%Z) eqn:Eg; cbn [negb]; [|done].
  destruct (_ <=? max_safe_integer)%Z; cbn [negb]; [|done]. intros H.
  apply rbind_Ok in H as (d1 & Hs & H).
  apply andb_true_iff in Eg as [Eg1 Eg2]. apply Z.eqb_eq in Eg1, Eg2.
  assert (Hd1 : lanes d1 = lanes d /\ (sound d -> sound d1 /\ ops_kept d d1)).
  { assert (Hlanes : forall p d d1 rs, settle_all d l p rs at_ = Ok d1 -> lanes d1 = lanes d).
    { induction p as [|o p IH]; intros x y rs Hx; [by injection Hx as <-|]. cbn [settle_all] in Hx.
      apply rbind_Ok in Hx as (z & Hz & Hx). rewrite (IH _ _ _ Hx). unfold settle in Hz.
      destruct (validResult _); [|done]. apply rbind_Ok in Hz as ([? ?] & (? & ? & _ & _ & _ & ->)%queue_append_inv & Hz).
      injection Hz as <-. done. }
    split; [by eapply Hlanes|]. intros Hso.
    destruct (Hpend Hso) as [Hnd Hall].
    destruct (settle_all_step d d1 l v pending _ at_ Hl Hs Hnd) as (_ & _ & Hso' & Hops).
    { intros o Ho. destruct (Hall o Ho). eauto. }
    split; [by apply Hso' | exact Hops]. }
  destruct Hd1 as [El1 Hso1].
  assert (Hr1 : lanes d1 !! lane_pk l = Some row) by (by rewrite El1).
  set (g := fun r => with_owner r (generation r + 1) (Some ownerId) "active" (Some at_) (Some at_) (Some expires) None) in *.
  assert (Eo : readOwner (update_lane d1 l g) l = Some (g row)).
  { unfold readOwner, update_lane. rewrite Hr1. simpl. apply lookup_insert_eq. }
  unfold readOwner in Eo. rewrite Eo in H. apply rbind_Ok in H as (d2 & Ha & H). injection H as <- <-.
  exists row. do 2 eexists. split; [done|]. split; [done|]. split; [done|]. split; [reflexivity|].
  simpl. rewrite Eg1. repeat (split; [done|]).
  split; [|subst g; simpl; by rewrite Eg1].
  intros Hso. destruct (Hso1 Hso) as [Hso2 Hops].
  destruct (owner_step d1 d2 l v row g "owner-claimed" at_ Hl Hr1 eq_refl ltac:(simpl; auto) Ha) as (El2 & _ & _ & _).
  split; [|rewrite El2; apply lookup_insert_eq].
  apply kept_trans with d1.
  - split; [done | by apply gens_le_lanes | done].
  - eapply (owner_step_kept d1 d2 l v row g "owner-claimed" at_); try done; [simpl; lia | simpl; auto].
Qed.

Lemma park_kept l v at_ reason w r w' :
  resolveLaneKey v = Ok l -> park l at_ reason w = (r, w') ->
  kept (db w) (db w') /\ (forall f o, r <> Ok (Claimed f o)).
Proof.
  intros Hl H. unfold park in H. split.
  - eapply tx_db; [exact H | apply kept_refl|]. intros a d'. cbv beta.
    destruct (readOwner (db w) l) as [prior|] eqn:Er; [|done].
    destruct (_ && _); [intros [= _ <-]; apply kept_refl|].
    intros (d1 & Ha & [= _ <-])%rbind_Ok.
    eapply owner_step_kept; [exact Hl | exact Er | | | | exact Ha]; simpl; [done | lia | tauto].
  - intros f o ->. unfold tx in H. destruct (readOwner (db w) l) as [prior|]; [|done].
    destruct (_ && _); [done|]. cbn zeta in H. destruct (append_owner _ _ _ _); done.
Qed.

(** ** Runs *)

Lemma qbind_lift {A B} (r : result A) (f : A -> QM B) w :
  qbind (qlift r) f w = match r with Ok a => f a w | Throw e => (Throw e, w) end.
Proof. reflexivity. Qed.

(** What a run that may grant the lane does. *)
Definition granted (l : Lane) (owner : string) (d : Db) (w' : QWorld) (r : result Reply) : Prop :=
  forall f o, r = Ok (Claimed f o) ->
    f_lane f = l /\ f_owner f = owner /\ lanes (db w') !! lane_pk l = Some o /\ owner_state o = "active"
    /\ owner_id o = Some (f_owner f) /\ generation o = f_generation f
    /\ (forall row, lanes d !! lane_pk l = Some row -> (generation row < f_generation f)%Z).

Lemma finish_claim_step l v owner expires rg gen pending evidence at_ w r w' :
  resolveLaneKey v = Ok l -> sound (db w) -> pending_in (db w) l pending ->
  finish_claim l owner expires rg gen pending evidence at_ w = (r, w') ->
  kept (db w) (db w') /\ granted l owner (db w) w' r.
Proof.
  intros Hl Hs Hp. unfold finish_claim. destruct (date_le expires at_).
  { intros [= <- <-]. split; [apply kept_refl | by intros f o [=]]. }
  unfold tx. destruct (take_lane _ _ _ _ _ _ _ _ (db w)) as [[reply d']|e] eqn:E; intros [= <- <-]; simpl.
  2:{ split; [apply kept_refl | by intros f o [=]]. }
  destruct (take_lane_step _ v _ _ _ _ _ _ _ _ _ _ Hl (fun _ => Hp) E)
    as (row & f & o & Hr & Hg & _ & -> & Hfl & Hfo & Hfg & _ & Hk & Ho).
  destruct (Hk Hs) as [Hkept Hlane]. split; [done|]. intros f' o' [= <- <-].
  split; [done|]. rewrite Ho at 2 3 4. simpl. split; [done|]. split; [done|]. split; [done|]. split; [by rewrite Hfo|].
  split; [done|]. intros x Hx. unfold readOwner in Hr. assert (x = row) as -> by congruence. lia.
Qed.


Lemma recover_claim_step recovery l v owner expires rg gen pending now1 w r w' :
  resolveLaneKey v = Ok l -> sound (db w) -> pending_in (db w) l pending ->
  (forall rc, recovery = Some rc -> frames l (rc pending)) ->
  recover_claim recovery l owner expires rg gen pending now1 w = (r, w') ->
  kept (db w) (db w') /\ granted l owner (db w) w' r.
Proof.
  intros Hl Hs Hp Hfr H. unfold recover_claim in H.
  assert (Hw : exists reply w1, match recovery with Some rc => await_call (CRecover pending) (rc pending)
      | None => qret (Ok VUndef) end w = (Ok reply, w1) /\ kept (db w) (db w1) /\ sound (db w1)
      /\ pending_in (db w1) l pending).
  { destruct recovery as [rc|].
    - unfold await_call. destruct (rc pending (db w)) as [reply d1] eqn:E. do 2 eexists. split; [reflexivity|].
      destruct (Hfr rc eq_refl (db w) Hs) as (Hs1 & Hl1 & Hg1 & Ho1). rewrite E in Hs1, Hl1, Hg1, Ho1. simpl in *.
      split; [by split|]. split; [done|]. destruct Hp as [Hnd Hall]. split; [done|]. intros o Ho.
      rewrite Hl1. by apply Hall.
    - do 2 eexists. split; [reflexivity|]. split; [apply kept_refl|]. done. }
  destruct Hw as (reply & w1 & Ew & Hk1 & Hs1 & Hp1). unfold qbind at 1 in H. rewrite Ew in H.
  rewrite qbind_lift in H. destruct (queueTime now1) as [at1|e].
  2:{ injection H as <- <-. split; [done | by intros f o [=]]. }
  assert (Hpre : forall row, lanes (db w1) !! lane_pk l = Some row -> forall x, lanes (db w) !! lane_pk l = Some x ->
    (generation x <= generation row)%Z).
  { intros row Hrow x Hx. destruct (k_gens _ _ Hk1 _ _ Hx) as (y & Hy & Hle). congruence. }
  destruct (_ || _).
  - destruct (park_kept _ _ _ _ _ _ _ Hl H) as [Hk2 Hn]. split; [by eapply kept_trans|].
    intros f o E. by destruct (Hn f o).
  - destruct (finish_claim_step _ _ _ _ _ _ _ _ _ _ _ _ Hl Hs1 Hp1 H) as [Hk2 Hg].
    split; [by eapply kept_trans|]. intros f o E. destruct (Hg f o E) as (H1 & H2 & H3 & H4 & H5 & H6 & Hlt).
    repeat (split; [done|]). intros x Hx. destruct (k_gens _ _ Hk1 _ _ Hx) as (y & Hy & Hle).
    specialize (Hlt _ Hy). lia.
Qed.

Lemma claim_lane_step recovery l v owner expires rg at0 now1 w r w' :
  resolveLaneKey v = Ok l -> sound (db w) ->
  (forall rc pending, recovery = Some rc -> frames l (rc pending)) ->
  claim_lane recovery l owner expires rg at0 now1 w = (r, w') ->
  kept (db w) (db w') /\ granted l owner (db w) w' r
  /\ (forall f o, r = Ok (Claimed f o) -> exists row, lanes (db w) !! lane_pk l = Some row
        /\ still_held row at0 = false /\ (owner_state row = "parked" -> operations (db w) l <> [])).
Proof.
  intros Hl Hs Hfr H.
  unfold claim_lane, query, qbind in H. cbv beta in H. unfold readOwner in H.
  assert (Hexit : forall (x : result Reply), (forall f o, x <> Ok (Claimed f o)) -> (x, w) = (r, w') ->
    kept (db w) (db w') /\ granted l owner (db w) w' r
    /\ (forall f o, r = Ok (Claimed f o) -> exists row, lanes (db w) !! lane_pk l = Some row
        /\ still_held row at0 = false /\ (owner_state row = "parked" -> operations (db w) l <> []))).
  { intros x Hx [= <- <-]. split; [apply kept_refl|]. split; intros f o E; by destruct (Hx f o). }
  destruct (routes (db w) !! lane_pk l) as [rt|]; [|by eapply Hexit; [|exact H]].
  destruct (lanes (db w) !! lane_pk l) as [prior|] eqn:Epr; [|by eapply Hexit; [|exact H]].
  destruct (negb _) in H; [by eapply Hexit; [|exact H]|].
  destruct (negb _) in H; [by eapply Hexit; [|exact H]|].
  destruct (still_held prior at0) eqn:Eh; [by eapply Hexit; [|exact H]|].
  pose proof (lane_op_unsettled _ l _ Hs eq_refl) as Hp.
  destruct (operations (db w) l) as [|o os] eqn:Eops.
  - destruct (String.eqb (owner_state prior) "parked") eqn:Epk; [by eapply Hexit; [|exact H]|].
    destruct (finish_claim_step _ _ _ _ _ _ _ _ _ _ _ _ Hl Hs Hp H) as [Hk Hg].
    split; [done|]. split; [done|]. intros f x E. exists prior. split; [done|]. split; [done|].
    intros Hpk. by rewrite Hpk in Epk.
  - destruct (recover_claim_step _ _ _ _ _ _ _ _ _ _ _ _ Hl Hs Hp (fun rc => Hfr rc (o :: os)) H) as [Hk Hg].
    split; [done|]. split; [done|]. intros f x E. exists prior. auto.
Qed.

(** The whole of [claim]. *)
Lemma claim_step lock_free recovery lane ownerId expiresAt rg now0 now1 w r w' :
  sound (db w) ->
  (forall l rc pending, resolveLaneKey lane = Ok l -> recovery = Some rc -> frames l (rc pending)) ->
  claim lock_free recovery lane ownerId expiresAt rg now0 now1 w = (r, w') ->
  kept (db w) (db w')
  /\ forall f o, r = Ok (Claimed f o) -> lock_free = true /\ exists l at0,
       resolveLaneKey lane = Ok l /\ queueId ownerId = Ok (f_owner f) /\ queueTime now0 = Ok at0
       /\ granted l (f_owner f) (ensureLane (db w) l) w' r
       /\ exists row, lanes (ensureLane (db w) l) !! lane_pk l = Some row /\ still_held row at0 = false.
Proof.
  intros Hs Hfr H. unfold claim in H. rewrite !qbind_lift in H.
  assert (Hexit : forall (x : result Reply) (d : Fence -> LaneRow -> Prop), (forall f o, x <> Ok (Claimed f o)) ->
    (x, w) = (r, w') -> kept (db w) (db w') /\ forall f o, r = Ok (Claimed f o) -> d f o).
  { intros x d Hx [= <- <-]. split; [apply kept_refl|]. intros f o E. by destruct (Hx f o). }
  destruct (queueId ownerId) as [ow|] eqn:Eow; [|by eapply Hexit; [|exact H]].
  rewrite qbind_lift in H.
  destruct (queueTime expiresAt) as [expires|]; [|by eapply Hexit; [|exact H]].
  destruct (nonneg_int rg) as [g|]; [|by eapply Hexit; [|exact H]].
  unfold locked in H. rewrite qbind_lift in H.
  destruct (resolveLaneKey lane) as [l|] eqn:El; [|by eapply Hexit; [|exact H]].
  destruct lock_free; [|by eapply Hexit; [|exact H]].
  rewrite qbind_lift in H. destruct (queueTime now0) as [at0|] eqn:Eat; [|by eapply Hexit; [|exact H]].
  destruct (date_le expires at0); [by eapply Hexit; [|exact H]|].
  unfold qbind, tx in H.
  assert (Hs1 : sound (db {| db := ensureLane (db w) l; calls := calls w |})) by (by apply ensureLane_sound).
  destruct (claim_lane_step _ _ _ _ _ _ _ _ _ _ _ El Hs1 (fun rc p => Hfr l rc p eq_refl) H) as (Hk & Hg & Hrow).
  split; [eapply kept_trans; [apply ensureLane_kept | exact Hk]|].
  intros f o E. split; [done|]. exists l, at0. split; [done|].
  destruct (Hg f o E) as (_ & Ho & _). rewrite Ho. split; [done|].
  split; [done|]. split; [done|]. destruct (Hrow f o E) as (row & Hr & Hh & _). eauto.
Qed.

(** C32. A claim keeps the database sound. It is granted only over a lane that
    no live owner holds; the granted fence is the one the lane row then
    carries, active, and its generation is above that of every fence the lane
    accepted before. *)
Theorem claim_grants_exclusively (lock_free : bool) (recovery : option (list OpRow -> QExternal))
    (lane ownerId expiresAt rg now0 now1 : val) (w w' : QWorld) (r : result Reply) :
  sound (db w) ->
  (forall l rc pending, resolveLaneKey lane = Ok l -> recovery = Some rc -> frames l (rc pending)) ->
  claim lock_free recovery lane ownerId expiresAt rg now0 now1 w = (r, w') ->
  sound (db w')
  /\ forall f o, r = Ok (Claimed f o) ->
       lock_free = true
       /\ resolveLaneKey lane = Ok (f_lane f) /\ queueId ownerId = Ok (f_owner f)
       /\ lanes (db w') !! lane_pk (f_lane f) = Some o
       /\ owner_state o = "active" /\ owner_id o = Some (f_owner f) /\ generation o = f_generation f
       /\ (forall row at0, lanes (db w) !! lane_pk (f_lane f) = Some row -> queueTime now0 = Ok at0 ->
             still_held row at0 = false)
       /\ (forall g now row, f_lane g = f_lane f -> assertFence (db w) g now = Ok row ->
             (f_generation g < f_generation f)%Z).
Proof.
  intros Hs Hfr H. destruct (claim_step _ _ _ _ _ _ _ _ _ _ _ Hs Hfr H) as (Hk & Hg).
  split; [by apply Hk|]. intros f o E.
  destruct (Hg f o E) as (Hlf & l & at0 & Hl & Ho & Hat & Hgr & row & Hrow & Hheld).
  destruct (Hgr f o E) as (-> & _ & H2 & H3 & H4 & H5 & Hlt).
  repeat (split; [done|]). split.
  - intros x t Hx Ht. apply (ensureLane_lookup _ l) in Hx. congruence.
  - intros g now x Egl (m & Hm & Hx & _ & _ & Hgen & _)%assertFence_Ok.
    rewrite Egl, (resolveLaneKey_lane _ _ Hl) in Hm. injection Hm as <-. rewrite <- Hgen.
    apply Hlt. by apply (ensureLane_lookup _ l).
Qed.

Lemma renew_step lock_free f expiresAt now w r w' :
  renew lock_free f expiresAt now w = (r, w') ->
  kept (db w) (db w') /\ (r = Ok Done -> exists at_ row, queueTime now = Ok at_
     /\ assertFence (db w) f (VStr at_) = Ok row).
Proof.
  unfold renew. rewrite qbind_lift. destruct (queueTime expiresAt) as [expires|].
  2:{ intros [= <- <-]. split; [apply kept_refl | done]. }
  unfold locked. rewrite qbind_lift. destruct (resolveLaneKey _) as [l|] eqn:El.
  2:{ intros [= <- <-]. split; [apply kept_refl | done]. }
  destruct lock_free; [|intros [= <- <-]; split; [apply kept_refl | done]].
  unfold tx. destruct (queueTime now) as [at_|] eqn:Et; cbn [rbind];
    [|intros [= <- <-]; split; [apply kept_refl | done]].
  destruct (assertFence (db w) f (VStr at_)) as [row|] eqn:Ef; cbn [rbind];
    [|intros [= <- <-]; split; [apply kept_refl | done]].
  destruct (date_le expires at_); [intros [= <- <-]; split; [apply kept_refl | done]|].
  destruct (append_owner _ _ _ _) as [d'|] eqn:Ea; intros [= <- <-]; simpl; [|split; [apply kept_refl | done]].
  split; [|eauto]. destruct (assertFence_Ok _ _ _ _ Ef) as (m & Hm & Hr & _).
  assert (m = l) as -> by congruence.
  eapply owner_step_kept; [exact El | exact Hr | | | | exact Ea]; simpl; [done | lia | tauto].
Qed.

Lemma release_step lock_free f now w r w' :
  release lock_free f now w = (r, w') ->
  kept (db w) (db w') /\ (r = Ok Done -> exists at_ row l, queueTime now = Ok at_
     /\ assertFence (db w) f (VStr at_) = Ok row /\ resolveLaneKey (lane_val (f_lane f)) = Ok l
     /\ operations (db w) l = [] /\ exists row', lanes (db w') !! lane_pk l = Some row' /\ owner_state row' = "idle").
Proof.
  unfold release, locked. rewrite qbind_lift. destruct (resolveLaneKey _) as [l|] eqn:El.
  2:{ intros [= <- <-]. split; [apply kept_refl | done]. }
  destruct lock_free; [|intros [= <- <-]; split; [apply kept_refl | done]].
  unfold tx. destruct (queueTime now) as [at_|] eqn:Et; cbn [rbind];
    [|intros [= <- <-]; split; [apply kept_refl | done]].
  destruct (assertFence (db w) f (VStr at_)) as [row|] eqn:Ef; cbn [rbind];
    [|intros [= <- <-]; split; [apply kept_refl | done]].
  destruct (Nat.eqb _ 0) eqn:Eops; [|intros [= <- <-]; split; [apply kept_refl | done]].
  destruct (append_owner _ _ _ _) as [d'|] eqn:Ea; intros [= <- <-]; simpl; [|split; [apply kept_refl | done]].
  destruct (assertFence_Ok _ _ _ _ Ef) as (m & Hm & Hr & _). assert (m = l) as -> by congruence.
  split.
  - eapply owner_step_kept; [exact El | exact Hr | | | | exact Ea]; simpl; [done | lia | tauto].
  - intros _. exists at_, row, l. repeat (split; [done|]).
    split; [by apply nil_length_inv, Nat.eqb_eq|].
    edestruct owner_step as (E & _); [exact El | exact Hr | | | exact Ea |]; [done | simpl; tauto |]. rewrite E.
    rewrite lookup_insert_eq. eexists. split; reflexivity.
Qed.

(** ** Issuing *)

Lemma intent_keys id kind eid f at_ entry ms : NoDup (map fst (intent_of id kind eid f at_ entry ms)).
Proof. simpl map. keys. Qed.

Lemma intent_coherent id kind eid f at_ entry ms pk gen rg res :
  op_coherent {| operation_id := id; op_lane := pk; op_entry := eid; op_generation := gen;
    op_route_generation := rg; op_kind := kind;
    op_intent := norm_fields (intent_of id kind eid f at_ entry ms); op_result := res |}.
Proof.
  split; cbn [op_intent operation_id].
  - apply stable_norm_fields.
  - rewrite get_norm_fields by apply intent_keys. reflexivity.
  - intros Hin%norm_keys. simpl in Hin. repeat (destruct Hin as [Hin|Hin]; [discriminate Hin|]). done.
Qed.

(** The row a fresh preparation journals. *)
Record fresh_intent (d : Db) (f : Fence) (l : Lane) (entryId : val) (id kind at_ : string) (o : OpRow) : Prop := {
  fi_id : operation_id o = id;
  fi_new : op_of_id d id = None;
  fi_lane : op_lane o = lane_pk l;
  fi_open : op_result o = None;
  fi_idle : operations d l = [];
  fi_fence : exists row, assertFence d f (VStr at_) = Ok row;
  fi_head : exists eid e, entryId = VStr eid /\ readEntry d entryId = Ok (Some e) /\ is_lane_head d l eid = true
    /\ get e "phase" = VStr (phase_for kind) /\ truthy (get e "candidate") = true;
  fi_intent : get (op_intent o) "operationId" = VStr id
}.

(** Lookups once a row with a new id is appended. *)
Lemma op_of_id_fresh d id x : op_of_id d id = None -> In x (op_rows d) -> operation_id x <> id.
Proof.
  intros E Hx Hxe. pose proof (find_b_None _ _ _ E Hx) as Hn. simpl in Hn. by rewrite Hxe, String.eqb_refl in Hn.
Qed.

Lemma lane_op_of_fresh d l id : op_of_id d id = None -> lane_op_of d l id = None.
Proof.
  intros E. destruct (lane_op_of d l id) as [o|] eqn:Eo; [|done]. exfalso.
  apply lane_op_In in Eo as (Ho & _ & Hid). by apply (op_of_id_fresh d id o).
Qed.

Lemma lane_op_of_snoc d d' o m i :
  op_rows d' = op_rows d ++ [o] -> op_of_id d (operation_id o) = None ->
  lane_op_of d' m i =
    if same_lane m (op_lane o) && String.eqb (operation_id o) i then Some o else lane_op_of d m i.
Proof.
  intros E Hnew. unfold lane_op_of at 1. rewrite E, find_b_snoc. fold (lane_op_of d m i). simpl.
  destruct (same_lane m (op_lane o)); simpl; [|by destruct (lane_op_of d m i)].
  destruct (String.eqb_spec (operation_id o) i) as [<-|_]; [|by destruct (lane_op_of d m i)].
  by rewrite lane_op_of_fresh.
Qed.

(** Journalling an intent and inserting its row keeps the tables sound. *)
Lemma fresh_op_kept d d' l ev at_ o raw :
  lanes d' = lanes d -> entry_rows d' = entry_rows d -> op_rows d' = op_rows d ++ [o] ->
  event_rows d' = event_rows d ++ [ev] -> event_lane ev = lane_pk l ->
  event_payload ev = queue_event "operation-intent" l [("at", VStr at_); ("operation", VObj raw)] ->
  op_intent o = norm_fields raw -> op_coherent o -> op_lane o = lane_pk l -> op_result o = None ->
  op_of_id d (operation_id o) = None -> kept d d'.
Proof.
  intros El Ee Eo Ev Hel Hep Hraw Hco Hol Hr Hnew. split; [|intros pk; rewrite El; apply gens_le_refl|].
  2:{ intros i. unfold op_of_id. rewrite Eo, find_b_snoc. by destruct (find_b _ (op_rows d)). }
  intros [[Hc Hi Hs] Hp Hop Hid]. split.
  - split; rewrite ?El, ?Ee; done.
  - eapply (projects_step d _ l ev Hp); [done|done| |].
    + intros m Hm. split; [intros i; unfold lane_row_of; by rewrite Ee|]. split; [|by rewrite El].
      intros i. rewrite (lane_op_of_snoc d d' o) by done. rewrite Hol, same_lane_other by done. done.
    + intros s [He Hopr Hw]. eexists. split; [rewrite Hep; apply apply_intent; rewrite <- Hraw; apply Hco|].
      split; simpl; [intros i; unfold lane_row_of; by rewrite Ee| |by rewrite El].
      intros i. rewrite (lane_op_of_snoc d d' o), Hol, same_lane_refl by done. simpl.
      destruct (String.eqb_spec (operation_id o) i) as [<-|Hne].
      * rewrite map_get_set. simpl. unfold op_view. by rewrite Hr, Hraw, app_nil_r.
      * by rewrite map_get_set_ne, Hopr by done.
  - rewrite Eo. apply Forall_app. split; [done|]. by constructor.
  - rewrite Eo, map_app. apply NoDup_app. split; [done|]. split; [|apply NoDup_singleton].
    intros x Hx%list_elem_of_In Hx'%list_elem_of_singleton. apply in_map_iff in Hx as (y & <- & Hy).
    by apply (op_of_id_fresh d (operation_id o) y).
Qed.

Lemma prepare_step f l v entryId id kind at_ scaled d o fresh d' :
  resolveLaneKey v = Ok l -> prepare f l entryId id kind at_ scaled d = Ok ((o, fresh), d') ->
  if fresh then fresh_intent d f l entryId id kind at_ o /\ op_rows d' = op_rows d ++ [o] /\ kept d d'
  else op_of_id d id = Some o /\ d' = d.
Proof.
  intros Hl. unfold prepare. intros (row & Hf & H)%rbind_Ok. destruct (op_of_id d id) as [x|] eqn:Ex.
  - destruct (negb _); [done|]. apply rbind_Ok in H as ([entry|] & _ & H); [|done].
    destruct (_ && _); [|done]. by injection H as <- <- <-.
  - destruct (Nat.eqb _ 0) eqn:Eops; [|done]. apply rbind_Ok in H as ([entry|] & Hr & H); [|done].
    destruct entryId as [| | | |eid| |]; try done.
    destruct (is_lane_head d l eid && _ && _ && _ && _) eqn:Eh; [|done].
    apply rbind_Ok in H as (dl & _ & H). apply rbind_Ok in H as (ms & _ & H).
    destruct (negb _) in H; [|done]. apply rbind_Ok in H as (d1 & Hi & H).
    apply rbind_Ok in H as ([ev0 d2] & (l' & ev & Hl' & Hel & Hep & E2)%queue_append_inv & H). simpl snd in H.
    rewrite (resolveLaneKey_lane _ _ Hl) in Hl'. injection Hl' as <-.
    unfold insert_op in Hi. cbn [operation_id] in Hi. rewrite Ex in Hi. injection Hi as <-.
    injection H as <- <- Hd'. rewrite E2 in Hd'. clear E2.
    set (o := {| operation_id := id; op_lane := lane_pk l |}) in *.
    assert (Hco : op_coherent o) by apply intent_coherent.
    repeat (apply andb_true_iff in Eh as [Eh ?]).
    split; [|split; [by rewrite <- Hd'|]].
    + split; [done|done|done|done|by apply nil_length_inv, Nat.eqb_eq | by eexists | | apply Hco].
      exists eid, entry. repeat split; try done. by apply is_str_eq.
    + rewrite <- Hd'. by eapply (fresh_op_kept _ _ l ev at_ o).
Qed.

(** The last transaction of [issue] and of reconciliation: it settles an open operation of the lane. *)
Lemma settle_kept d d' l v id res at_ o :
  resolveLaneKey v = Ok l -> settle d l id res at_ = Ok d' ->
  lane_op_of d l id = Some o -> op_result o = None -> kept d d'.
Proof.
  intros Hl Hs Ho Hr. destruct (settle_step d d' l v id res at_ o Hl Hs Ho Hr) as (Hl3 & _ & _ & Ho3 & Hs3).
  split; [done | by apply gens_le_lanes|]. intros i. unfold op_of_id. rewrite Ho3.
  rewrite (find_b_map_same _ (settled_row id res)); [by destruct (find_b _ (op_rows d))|].
  intros y _. by destruct (settled_row_keys id res y) as (-> & _).
Qed.

(** What follows the call: an error leaves the tables alone, and a reply settles the operation or reports an error. *)
Lemma issue_tail f l id o reply now1 now2 w r w' :
  resolveLaneKey (lane_val (f_lane f)) = Ok l -> lane_op_of (db w) l id = Some o -> op_result o = None ->
  (let! res := qlift reply in
   let! _ := tx (fun d =>
     let* at1 := queueTime now1 in
     let* _ := assertFence d f (VStr at1) in
     let* at2 := queueTime now2 in
     let* d := settle d l id res at2 in
     Ok (tt, d)) in
   qret (Settled false res)) w = (r, w') ->
  kept (db w) (db w') /\ calls w' = calls w
  /\ match reply with
     | Ok res => r = Ok (Settled false res) \/ exists e, r = Throw e
     | Throw e => r = Throw e
     end.
Proof.
  intros El Ho Hr H. rewrite qbind_lift in H.
  destruct reply as [res|e]; [|injection H as <- <-; by split; [apply kept_refl|]].
  unfold qbind, tx in H. destruct (rbind _ _) as [[x d3]|e] eqn:E; injection H as <- <-;
    [|split; [apply kept_refl|]; split; [done | right; by eexists]].
  apply rbind_Ok in E as (at1 & _ & E). apply rbind_Ok in E as (row & _ & E). apply rbind_Ok in E as (at2 & _ & E).
  apply rbind_Ok in E as (d' & Es & E). injection E as _ <-.
  split; [by eapply settle_kept | split; [done | by left]].
Qed.

Lemma issue_step lock_free f entryId operationId kind invoke scaled now0 now1 now2 w r w' :
  sound (db w) ->
  (forall l i, resolveLaneKey (lane_val (f_lane f)) = Ok l -> frames l (invoke i)) ->
  issue lock_free f entryId operationId kind invoke scaled now0 now1 now2 w = (r, w') ->
  kept (db w) (db w')
  /\ (calls w' = calls w
      \/ exists l at_ id o d1, resolveLaneKey (lane_val (f_lane f)) = Ok l /\ queueTime now0 = Ok at_
           /\ queueId operationId = Ok id /\ calls w' = calls w ++ [CInvoke (op_intent o)]
           /\ fresh_intent (db w) f l entryId id kind at_ o /\ op_rows d1 = op_rows (db w) ++ [o] /\ sound d1
           /\ kept d1 (db w')
           /\ match fst (invoke (op_intent o) d1) with
              | Ok res => r = Ok (Settled false res) \/ exists e, r = Throw e
              | Throw e => r = Throw e
              end).
Proof.
  intros Hs Hfr H. unfold issue in H. rewrite qbind_lift in H.
  assert (Hexit : forall (x : result Reply) P, (x, w) = (r, w') -> kept (db w) (db w') /\ (calls w' = calls w \/ P)).
  { intros x P [= <- <-]. split; [apply kept_refl | by left]. }
  destruct (queueId operationId) as [id|]; [|by eapply Hexit].
  destruct (negb _) in H; [by eapply Hexit|].
  unfold locked in H. rewrite qbind_lift in H.
  destruct (resolveLaneKey _) as [l|] eqn:El; [|by eapply Hexit].
  destruct lock_free; [|by eapply Hexit].
  rewrite qbind_lift in H. destruct (queueTime now0) as [at_|]; [|by eapply Hexit].
  unfold qbind at 1, tx at 1 in H.
  destruct (prepare f l entryId id kind at_ scaled (db w)) as [[[o fresh] d1]|] eqn:Ep; [|by eapply Hexit].
  pose proof (prepare_step _ _ _ _ _ _ _ _ _ _ _ _ El Ep) as Hp. destruct fresh.
  2:{ destruct Hp as [_ ->]. replace {| db := db w; calls := calls w |} with w in H by (by destruct w).
      cbv beta iota in H. destruct (op_result o); cbn [negb] in H; eapply Hexit; exact H. }
  destruct Hp as (Hfi & Hrows & Hk1). rewrite (fi_open _ _ _ _ _ _ _ _ Hfi) in H. cbn [negb] in H.
  unfold qbind at 1, await_call in H. cbn [db calls] in H.
  destruct (invoke (op_intent o) d1) as [reply d2] eqn:Ei.
  assert (Hs1 : sound d1) by (by apply Hk1).
  destruct (Hfr l (op_intent o) eq_refl d1 Hs1) as (Hs2 & Hl2 & Hg2 & Ho2). rewrite Ei in Hs2, Hl2, Hg2, Ho2.
  cbn [snd] in Hs2, Hl2, Hg2, Ho2.
  assert (Hk2 : kept d1 d2) by (by split).
  assert (Ho1 : lane_op_of d1 l id = Some o).
  { rewrite (lane_op_of_snoc (db w) d1 o), (fi_lane _ _ _ _ _ _ _ _ Hfi), (fi_id _ _ _ _ _ _ _ _ Hfi), same_lane_refl,
      String.eqb_refl; [done | done|]. rewrite (fi_id _ _ _ _ _ _ _ _ Hfi). apply Hfi. }
  apply (issue_tail f l id o reply) in H as (Hk3 & Hc & Hx);
    [|done | by rewrite Hl2 | apply (fi_open _ _ _ _ _ _ _ _ Hfi)]. cbn [db calls] in Hk3, Hc.
  split; [by do 2 (eapply kept_trans; [eassumption|])|]. right. exists l, at_, id, o, d1.
  repeat (split; [done|]). split; [by eapply kept_trans|]. by rewrite Ei.
Qed.

Lemma initial_sound rts : sound (initial rts).
Proof.
  split; simpl; [|apply projects_initial|by constructor|by constructor].
  split; simpl; [by constructor | by constructor | done].
Qed.

End Owner.

(** ** Concrete inputs *)

#[local] Existing Instance ex_host.

Definition ex_claimed : result Reply * QWorld :=
  claim true None (lane_val ex_lane) (VStr "o1") (VStr "2024-01-01T01:00:00Z") (VInt 0)
    (VStr "2024-01-01T00:00:00Z") VUndef {| db := initial ex_routes; calls := [] |}.

Lemma claim_grants_exclusively_witness :
  sound (db (snd ex_claimed)).
Proof.
  refine (proj1 (claim_grants_exclusively true None (lane_val ex_lane) (VStr "o1") (VStr "2024-01-01T01:00:00Z")
    (VInt 0) (VStr "2024-01-01T00:00:00Z") VUndef {| db := initial ex_routes; calls := [] |} (snd ex_claimed)
    (Ok (Claimed ex_fence ex_owner_row)) (initial_sound ex_routes) _ _)).
  - intros ? ? ? ? [=].
  - vm_compute. reflexivity.
Defined.
