(* ===== verification/QueueRun.v ===== *)
(** Runs of the finalization queue (queue-store.mjs and queue-owner.mjs under
    src/src/finalization): admissions, progress, claims, renewals, releases and
    issued mutations in any order, by any number of owners, as a step relation
    on the database, with what holds of every database it reaches. *)

From Stdlib Require Import ZArith Lia Ascii SpecFloat.
From stdpp Require Import base list strings gmap relations.
From S2P Require Import Prelude JsNum JsValue JsDate QueueLane QueueStore QueueOwner.

Section Runs.
Context {hostDate : HostDate}.

(** ** Any interleaving of the operations *)

Inductive queue_step : Db -> Db -> Prop :=
| q_acknowledge d a scaled e d' :
    seqs_safe d -> acknowledge d a scaled = Ok (e, d') -> queue_step d d'
| q_progress d f p e d' :
    seqs_safe d -> no_undef (p_patch p) -> progress d f p = Ok (e, d') -> queue_step d d'
| q_claim lock_free recovery lane owner expires rg now0 now1 w r w' :
    (forall l rc pending, resolveLaneKey lane = Ok l -> recovery = Some rc -> frames l (rc pending)) ->
    claim lock_free recovery lane owner expires rg now0 now1 w = (r, w') -> queue_step (db w) (db w')
| q_renew lock_free f expires now w r w' :
    renew lock_free f expires now w = (r, w') -> queue_step (db w) (db w')
| q_release lock_free f now w r w' :
    release lock_free f now w = (r, w') -> queue_step (db w) (db w')
| q_issue lock_free f entryId operationId kind invoke scaled now0 now1 now2 w r w' :
    (forall l i, resolveLaneKey (lane_val (f_lane f)) = Ok l -> frames l (invoke i)) ->
    issue lock_free f entryId operationId kind invoke scaled now0 now1 now2 w = (r, w') ->
    queue_step (db w) (db w').

Definition queue_steps : Db -> Db -> Prop := rtc queue_step.

Lemma same_ops_kept d d' : op_rows d' = op_rows d -> ops_kept d d'.
Proof. intros E i. unfold op_of_id. by rewrite E. Qed.

Lemma step_kept d d' : sound d -> queue_step d d' -> kept d d'.
Proof.
  intros Hs Hstep. destruct Hstep as [d a sc e d' Hsafe H|d f p e d' Hsafe Hnu H|lf rec lane ow ex rg n0 n1 w r w' Hfr H
    |lf f ex n w r w' H|lf f n w r w' H|lf f en op k inv sc n0 n1 n2 w r w' Hfr H].
  - destruct (acknowledge_wf _ _ _ _ _ (so_tables _ Hs) Hsafe H) as (Hwf & Hops & Hg). split.
    + intros _. split; [done | apply (acknowledge_projects d a sc e); [done | apply Hs | done] | rewrite Hops; apply Hs | rewrite Hops; apply Hs].
    + intros pk x Hx. destruct (Hg pk x Hx) as (y & Hy & E). exists y. split; [done | lia].
    + by apply same_ops_kept.
  - destruct (progress_wf _ _ _ _ _ (so_tables _ Hs) Hsafe H) as (Hwf & Hops & Hg). split.
    + intros _. split; [done | | rewrite Hops; apply Hs | rewrite Hops; apply Hs].
      apply (progress_projects d f p e); [apply Hs | done | done | apply Hs | done].
    + intros pk x Hx. destruct (Hg pk x Hx) as (y & Hy & E). exists y. split; [done | lia].
    + by apply same_ops_kept.
  - by destruct (claim_step _ _ _ _ _ _ _ _ _ _ _ Hs Hfr H).
  - by destruct (renew_step _ _ _ _ _ _ _ H).
  - by destruct (release_step _ _ _ _ _ _ H).
  - by destruct (issue_step _ _ _ _ _ _ _ _ _ _ _ _ _ Hs Hfr H).
Qed.

Lemma steps_kept d d' : sound d -> queue_steps d d' -> kept d d'.
Proof.
  intros Hs Hst. induction Hst as [d|d d1 d2 H1 H2 IH]; [apply kept_refl|].
  pose proof (step_kept _ _ Hs H1) as Hk. eapply kept_trans; [exact Hk|]. apply IH. by apply Hk.
Qed.

(** C4. Whatever the queue's operations do, from an empty store and in any
    order, the tables are a projection of the event journal: they keep their
    invariant, and replaying the journal of a lane rebuilds the lane's entries,
    its operations with their results, and its owner. *)
Theorem tables_project_journal (rts : gmap (string * string) RouteRow) (d : Db) :
  queue_steps (initial rts) d ->
  well_formed d
  /\ forall l, exists s, foldQueue (readEvents d l) emptyQueueState = Ok s
       /\ (forall id, map_get (qEntries s) id = (fun r => VObj (entry_payload r)) <$> lane_row_of d l id)
       /\ (forall id, map_get (qOperations s) id = op_view <$> lane_op_of d l id)
       /\ owner_projected (qOwner s) (lane_pk l) (lanes d !! lane_pk l).
Proof.
  intros Hst. assert (Hs : sound d) by (apply (steps_kept _ _ (initial_sound rts) Hst), initial_sound).
  split; [apply Hs|]. intros l. destruct (so_projects _ Hs l) as (s & Hf & [H1 H2 H3]). eauto.
Qed.

(** A fence below the lane's generation is refused. *)
Lemma stale_refused d f g l r now :
  resolveLaneKey (lane_val (f_lane f)) = Ok l -> lanes d !! lane_pk l = Some r ->
  (f_generation f < g)%Z -> (g <= generation r)%Z -> exists e, assertFence d f now = Throw e.
Proof.
  intros Hl Hr Hlt Hle. destruct (assertFence d f now) as [row|e] eqn:E; [|eauto]. exfalso.
  apply assertFence_Ok in E as (m & Hm & Ho & _ & _ & Hg & _). unfold readOwner in Ho.
  assert (m = l) as -> by congruence. assert (row = r) as -> by congruence. lia.
Qed.

(** C7. Once another claim of the lane is granted, the fence that was live
    before it is refused for ever: no later run of the queue revives it. *)
Theorem superseded_fence_stale (lock_free : bool) (recovery : option (list OpRow -> QExternal))
    (lane ownerId expiresAt rg now0 now1 t now : val) (w w' : QWorld) (f g : Fence) (row o : LaneRow) (d : Db) :
  sound (db w) ->
  (forall l rc pending, resolveLaneKey lane = Ok l -> recovery = Some rc -> frames l (rc pending)) ->
  assertFence (db w) f t = Ok row ->
  claim lock_free recovery lane ownerId expiresAt rg now0 now1 w = (Ok (Claimed g o), w') ->
  f_lane g = f_lane f -> queue_steps (db w') d ->
  exists e, assertFence d f now = Throw e.
Proof.
  intros Hs Hfr Hf H El Hst. destruct (claim_step _ _ _ _ _ _ _ _ _ _ _ Hs Hfr H) as (Hk & Hg).
  destruct (Hg g o eq_refl) as (_ & l & at0 & Hl & _ & _ & Hgr & _).
  destruct (Hgr g o eq_refl) as (Egl & _ & Ho & _ & _ & Hgen & Hlt).
  apply assertFence_Ok in Hf as (m & Hm & Hr & _ & _ & Hfg & _).
  assert (m = l) as ->. { rewrite <- El, Egl, (resolveLaneKey_lane _ _ Hl) in Hm. congruence. }
  specialize (Hlt row (ensureLane_lookup _ l _ _ Hr)).
  destruct (k_gens _ _ (steps_kept _ _ (k_sound _ _ Hk Hs) Hst) _ _ Ho) as (r' & Hr' & Hle).
  apply (stale_refused d f (f_generation g) l r'); [exact Hm | exact Hr' | lia | lia].
Qed.

(** An operation already journalled is not issued again. *)
Lemma issue_known lock_free f entryId operationId kind invoke scaled now0 now1 now2 w r w' id :
  queueId operationId = Ok id -> op_of_id (db w) id <> None ->
  issue lock_free f entryId operationId kind invoke scaled now0 now1 now2 w = (r, w') -> w' = w.
Proof.
  intros Hid Hop H. unfold issue in H. rewrite qbind_lift, Hid in H.
  destruct (negb _) in H; [by injection H|]. unfold locked in H. rewrite qbind_lift in H.
  destruct (resolveLaneKey _) as [l|] eqn:El; [|by injection H]. destruct lock_free; [|by injection H].
  rewrite qbind_lift in H. destruct (queueTime now0) as [at_|]; [|by injection H].
  unfold qbind at 1, tx at 1 in H.
  destruct (prepare f l entryId id kind at_ scaled (db w)) as [[[o fresh] d1]|] eqn:Ep; [|by injection H].
  pose proof (prepare_step _ _ _ _ _ _ _ _ _ _ _ _ El Ep) as Hp. destruct fresh.
  { destruct Hp as (Hfi & _). by destruct Hop; apply (fi_new _ _ _ _ _ _ _ _ Hfi). }
  destruct Hp as [_ ->]. destruct w as [d c]. cbn [db calls] in H.
  destruct (op_result o); cbn [negb] in H; by injection H.
Qed.

(** C6. The adapter of a mutation is called only after its intent is in the
    database: fresh, under a fence live at that moment, for the head of the
    fence's lane in the phase of the mutation, with no other operation open on
    the lane. It is called at most once, and a reply that proves nothing leaves
    an error. *)
Theorem issue_journals_first (lock_free : bool) (f : Fence) (entryId operationId : val) (kind : string)
    (invoke : obj -> QExternal) (scaled : Z) (now0 now1 now2 : val) (w w' : QWorld) (r : result Reply) :
  sound (db w) ->
  (forall l i, resolveLaneKey (lane_val (f_lane f)) = Ok l -> frames l (invoke i)) ->
  issue lock_free f entryId operationId kind invoke scaled now0 now1 now2 w = (r, w') ->
  sound (db w')
  /\ (calls w' = calls w
      \/ exists l at_ id eid e o d1,
           resolveLaneKey (lane_val (f_lane f)) = Ok l /\ queueTime now0 = Ok at_ /\ queueId operationId = Ok id
           /\ calls w' = calls w ++ [CInvoke (op_intent o)]
           /\ op_rows d1 = op_rows (db w) ++ [o] /\ operation_id o = id /\ op_result o = None
           /\ op_of_id (db w) id = None /\ operations (db w) l = [] /\ sound d1
           /\ is_ok (assertFence (db w) f (VStr at_)) = true
           /\ entryId = VStr eid /\ readEntry (db w) entryId = Ok (Some e) /\ is_lane_head (db w) l eid = true
           /\ get e "phase" = VStr (phase_for kind) /\ truthy (get e "candidate") = true
           /\ match fst (invoke (op_intent o) d1) with
              | Ok res => r = Ok (Settled false res) \/ exists err, r = Throw err
              | Throw err => r = Throw err
              end).
Proof.
  intros Hs Hfr H. destruct (issue_step _ _ _ _ _ _ _ _ _ _ _ _ _ Hs Hfr H) as (Hk & Hc).
  split; [by apply Hk|]. destruct Hc as [Hc|(l & at_ & id & o & d1 & Hl & Hat & Hid & Hcalls & Hfi & Hrows & Hs1 & _ & Hr)];
    [by left|right].
  destruct Hfi as [H1 H2 H3 H4 H5 (row & H6) (eid & e & He & Hre & Hh & Hp & Hcand) H8].
  exists l, at_, id, eid, e, o, d1. rewrite H6. repeat (split; [done|]). exact Hr.
Qed.

(** C5. A mutation is issued at most once: after a call that reached its
    adapter, whatever the queue then does, a call with the same operation
    identity, by any owner and for any entry, reaches no adapter and leaves the
    database as it is, even when the reply of the first was lost. *)
Theorem issue_at_most_once (lock_free lock_free2 : bool) (f f2 : Fence) (entryId entryId2 operationId : val)
    (kind kind2 : string) (invoke invoke2 : obj -> QExternal) (scaled scaled2 : Z)
    (now0 now1 now2 now3 now4 now5 : val) (w w' w2 w3 : QWorld) (r r2 : result Reply) :
  sound (db w) ->
  (forall l i, resolveLaneKey (lane_val (f_lane f)) = Ok l -> frames l (invoke i)) ->
  issue lock_free f entryId operationId kind invoke scaled now0 now1 now2 w = (r, w') ->
  calls w' <> calls w -> queue_steps (db w') (db w2) ->
  issue lock_free2 f2 entryId2 operationId kind2 invoke2 scaled2 now3 now4 now5 w2 = (r2, w3) ->
  w3 = w2.
Proof.
  intros Hs Hfr H Hc Hst H2. destruct (issue_step _ _ _ _ _ _ _ _ _ _ _ _ _ Hs Hfr H) as (Hk & Hcase).
  destruct Hcase as [|(l & at_ & id & o & d1 & _ & _ & Hid & _ & Hfi & Hrows & Hs1 & Hk1 & _)]; [done|].
  assert (Hd1 : op_of_id d1 id <> None).
  { unfold op_of_id. rewrite Hrows, find_b_snoc. destruct (find_b _ (op_rows (db w))); [done|].
    by rewrite (fi_id _ _ _ _ _ _ _ _ Hfi), String.eqb_refl. }
  apply (issue_known _ _ _ _ _ _ _ _ _ _ _ _ _ id Hid) in H2; [done|].
  apply (k_ops _ _ (steps_kept _ _ (k_sound _ _ Hk Hs) Hst)), (k_ops _ _ Hk1), Hd1.
Qed.

End Runs.

(** ** Concrete inputs *)

#[local] Existing Instance ex_host.

Definition tick_at (t : string) : val := VStr ("2024-01-01T00:" +:+ t +:+ "Z").

(** From a new store: a claim, an admission, and the progress of its entry to publishing. *)
Definition ex_claimed_db : Db := Eval vm_compute in db (snd ex_claimed).
Definition ex_admitted_db : Db := Eval vm_compute in
  db_after (acknowledge ex_claimed_db (ex_admission "e1" 7) 1800000).
Definition ex_move (phase : string) (patch : obj) : Progress := {|
  p_entryId := VStr "e1"; p_phase := phase; p_patch := patch; p_at := tick_at "02:00";
  p_readmit := false; p_observation := VUndef; p_expected := None |}.
Definition ex_moved (d : Db) (phase : string) (patch : obj) : Db := db_after (progress d ex_fence (ex_move phase patch)).
Definition ex_ready_db : Db := Eval vm_compute in ex_moved ex_admitted_db "ready" [].
Definition ex_rebasing_db : Db := Eval vm_compute in ex_moved ex_ready_db "rebasing" [].
Definition ex_candidate : obj := [("candidate", VStr "c1"); ("exactBase", VStr "b1")].
Definition ex_publishing_db : Db := Eval vm_compute in ex_moved ex_rebasing_db "publishing" ex_candidate.
Definition ex_world (d : Db) : QWorld := {| db := d; calls := [] |}.

(** An adapter that answers and leaves the database alone; one whose reply is lost. *)
Definition pushed : obj -> QExternal :=
  fun _ d => (Ok (VObj [("outcome", VStr "succeeded"); ("sourceRef", VStr "push:1")]), d).
Definition lost : obj -> QExternal := fun _ d => (Throw (PlainError "timeout"), d).

Definition ex_issue (invoke : obj -> QExternal) (w : QWorld) : result Reply * QWorld :=
  issue true ex_fence (VStr "e1") (VStr "op1") "push" invoke 60000 (tick_at "03:00") (tick_at "03:01") (tick_at "03:02") w.

Lemma still_frames l (r : result val) : frames l (fun d => (r, d)).
Proof. intros d Hd. split; [done|]. split; [done|]. split; [apply gens_le_refl | done]. Qed.

Lemma ex_lanes_after :
  lanes ex_claimed_db = {[ lane_pk ex_lane := ex_owner_row ]}
  /\ lanes ex_admitted_db = {[ lane_pk ex_lane := with_readiness ex_owner_row 1 ]}
  /\ lanes ex_ready_db = lanes ex_admitted_db /\ lanes ex_rebasing_db = lanes ex_admitted_db.
Proof. split_and!; by_vm. Qed.

Lemma ex_safe_at d n : lanes d = {[ lane_pk ex_lane := with_readiness ex_owner_row n ]} ->
  (0 <= n < max_safe_integer)%Z -> seqs_safe d.
Proof. unfold seqs_safe. intros -> Hn. by apply (ex_safe n). Qed.

Lemma ex_move_step d phase patch e :
  seqs_safe d -> no_undef patch -> progress d ex_fence (ex_move phase patch) = Ok (e, ex_moved d phase patch) ->
  queue_step d (ex_moved d phase patch).
Proof. intros Hs Hp H. by apply (q_progress _ ex_fence (ex_move phase patch) e). Qed.

Lemma ex_safe_admitted d : lanes d = lanes ex_admitted_db -> seqs_safe d.
Proof.
  intros E. apply (ex_safe_at d 1); [|unfold max_safe_integer; lia].
  rewrite E. apply ex_lanes_after.
Qed.

Lemma ex_steps : queue_steps (initial ex_routes) ex_publishing_db.
Proof.
  destruct ex_lanes_after as (E0 & E1 & E2 & E3).
  eapply rtc_l; [eapply (q_claim true None (lane_val ex_lane) (VStr "o1") (VStr "2024-01-01T01:00:00Z") (VInt 0)
    (VStr "2024-01-01T00:00:00Z") VUndef (ex_world (initial ex_routes))); [by intros ? ? ? ? [=] | apply surjective_pairing]|].
  eapply rtc_l.
  { eapply (q_acknowledge _ (ex_admission "e1" 7) 1800000 _ ex_admitted_db);
      [apply (ex_safe_at _ 0 E0); unfold max_safe_integer; lia | vm_compute; reflexivity]. }
  eapply rtc_l; [eapply (ex_move_step ex_admitted_db "ready" []);
    [by apply ex_safe_admitted | by constructor | vm_compute; reflexivity]|].
  eapply rtc_l; [eapply (ex_move_step ex_ready_db "rebasing" []);
    [by apply ex_safe_admitted | by constructor | vm_compute; reflexivity]|].
  eapply rtc_l; [eapply (ex_move_step ex_rebasing_db "publishing" ex_candidate); [by apply ex_safe_admitted | by repeat constructor
    | vm_compute; reflexivity]|].
  apply rtc_refl.
Qed.

Lemma ex_publishing_sound : sound ex_publishing_db.
Proof. apply (steps_kept _ _ (initial_sound ex_routes) ex_steps), initial_sound. Qed.

Example issue_examples :
  (fst (ex_issue pushed (ex_world ex_publishing_db)), fst (ex_issue lost (ex_world ex_publishing_db)),
   fst (ex_issue pushed (snd (ex_issue lost (ex_world ex_publishing_db)))),
   fst (ex_issue pushed (snd (ex_issue pushed (ex_world ex_publishing_db)))))
  = (Ok (Settled false (VObj [("outcome", VStr "succeeded"); ("sourceRef", VStr "push:1")])),
     Throw (PlainError "timeout"), Throw (PlainError "operation requires reconciliation"),
     Ok (Settled true (VObj [("outcome", VStr "succeeded"); ("sourceRef", VStr "push:1")]))).
Proof. vm_compute. reflexivity. Qed.

Lemma tables_project_journal_witness :
  well_formed ex_publishing_db.
Proof. exact (proj1 (tables_project_journal ex_routes ex_publishing_db ex_steps)). Defined.

(** Two hours later a second owner claims the lane. *)
Definition ex_reclaimed : result Reply * QWorld :=
  claim true None (lane_val ex_lane) (VStr "o2") (VStr "2024-01-01T04:00:00Z") (VInt 0)
    (VStr "2024-01-01T02:00:00Z") VUndef (ex_world ex_claimed_db).

Lemma ex_claimed_sound : sound ex_claimed_db.
Proof.
  apply (claim_step true None (lane_val ex_lane) (VStr "o1") (VStr "2024-01-01T01:00:00Z") (VInt 0)
    (VStr "2024-01-01T00:00:00Z") VUndef (ex_world (initial ex_routes)) (fst ex_claimed) (snd ex_claimed));
    [apply initial_sound | intros ? ? ? ? [=] | apply surjective_pairing | apply initial_sound].
Qed.

Lemma superseded_fence_stale_witness :
  exists e, assertFence (db (snd ex_reclaimed)) ex_fence (VStr "2024-01-01T03:00:00Z") = Throw e.
Proof.
  refine (superseded_fence_stale true None (lane_val ex_lane) (VStr "o2") (VStr "2024-01-01T04:00:00Z") (VInt 0)
    (VStr "2024-01-01T02:00:00Z") VUndef (VStr "2024-01-01T00:30:00Z") (VStr "2024-01-01T03:00:00Z")
    (ex_world ex_claimed_db) (snd ex_reclaimed) ex_fence
    {| f_lane := ex_lane; f_owner := "o2"; f_generation := 2; f_route := 0 |} ex_owner_row
    (match fst ex_reclaimed with Ok (Claimed _ o) => o | _ => ex_owner_row end) (db (snd ex_reclaimed))
    _ _ _ _ _ _).
  - exact ex_claimed_sound.
  - intros ? ? ? ? [=].
  - vm_compute. reflexivity.
  - vm_compute. reflexivity.
  - reflexivity.
  - apply rtc_refl.
Defined.

Lemma issue_journals_first_witness :
  sound (db (snd (ex_issue lost (ex_world ex_publishing_db)))).
Proof.
  refine (proj1 (issue_journals_first true ex_fence (VStr "e1") (VStr "op1") "push" lost 60000
    (tick_at "03:00") (tick_at "03:01") (tick_at "03:02") (ex_world ex_publishing_db)
    (snd (ex_issue lost (ex_world ex_publishing_db))) (fst (ex_issue lost (ex_world ex_publishing_db)))
    ex_publishing_sound _ (surjective_pairing _))).
  intros l i _. apply still_frames.
Defined.

Lemma issue_at_most_once_witness :
  snd (ex_issue pushed (snd (ex_issue lost (ex_world ex_publishing_db))))
  = snd (ex_issue lost (ex_world ex_publishing_db)).
Proof.
  refine (issue_at_most_once true true ex_fence ex_fence (VStr "e1") (VStr "e1") (VStr "op1") "push" "push" lost pushed
    60000 60000 (tick_at "03:00") (tick_at "03:01") (tick_at "03:02") (tick_at "03:00") (tick_at "03:01")
    (tick_at "03:02") (ex_world ex_publishing_db) (snd (ex_issue lost (ex_world ex_publishing_db))) _ _ _ _
    ex_publishing_sound _ (surjective_pairing _) _ _ (surjective_pairing _)).
  - intros l i _. apply still_frames.
  - vm_compute. discriminate.
  - apply rtc_refl.
Defined.
