(* ===== verification/CheckRollup.v ===== *)
(** The CI classifier (src/src/checks-summary.mjs): the latest run of each
    check, the state of an item and the conclusion of a status rollup. A rollup
    item is any value, as GitHub sent it. *)

From Stdlib Require Import ZArith Lia Ascii SpecFloat.
From stdpp Require Import base list strings.
From S2P Require Import Prelude JsNum JsValue JsDate.

Definition SUCCESSFUL_CHECK_STATES : list string := ["SUCCESS"; "NEUTRAL"; "SKIPPED"].
Definition PENDING_CHECK_STATES : list string :=
  ["PENDING"; "IN_PROGRESS"; "QUEUED"; "EXPECTED"; "WAITING"; "REQUESTED"].

(** [String(v || '').trim()]. *)
Definition trimmed (v : val) : string := trim (to_str (or_else v (VStr ""))).

Definition checkIdentity (item : val) : string :=
  to_lower (trimmed (or_else (or_else (oget item "context") (oget item "name")) (oget item "workflowName"))).

(** Structural equality. *)
#[export] Instance spec_float_eq_dec : EqDecision spec_float.
Proof. solve_decision. Defined.

Fixpoint val_eqb (a b : val) {struct a} : bool :=
  match a, b with
  | VUndef, VUndef | VNull, VNull => true
  | VBool x, VBool y => Bool.eqb x y
  | VNum x, VNum y => bool_decide (x = y)
  | VStr x, VStr y => String.eqb x y
  | VArr l, VArr m =>
      (fix go (l m : list val) : bool :=
         match l, m with
         | [], [] => true
         | x :: l', y :: m' => val_eqb x y && go l' m'
         | _, _ => false
         end) l m
  | VObj o, VObj p =>
      (fix go (o p : list (string * val)) : bool :=
         match o, p with
         | [], [] => true
         | (k, v) :: o', (k', w) :: p' => String.eqb k k' && val_eqb v w && go o' p'
         | _, _ => false
         end) o p
  | _, _ => false
  end.

Lemma val_eqb_eq a b : val_eqb a b = true <-> a = b.
Proof.
  revert b. induction a as [| |x|x|x|l IH|o IH] using val_nested_ind; intros b; destruct b as [| |y|y|y|m|p];
    try (simpl; split; congruence).
  - simpl. rewrite Bool.eqb_true_iff. split; congruence.
  - simpl. rewrite bool_decide_eq_true. split; congruence.
  - simpl. rewrite String.eqb_eq. split; congruence.
  - simpl. enough (E : forall m, (fix go (l m : list val) : bool := match l, m with
        | [], [] => true | x :: l', y :: m' => val_eqb x y && go l' m' | _, _ => false end) l m = true <-> l = m)
      by (rewrite E; split; congruence).
    induction IH as [|x l Hx _ IHl]; intros [|y m']; try (split; congruence).
    rewrite andb_true_iff, Hx, IHl. split; [by intros [-> ->] | by intros [= -> ->]].
  - simpl. enough (E : forall p, (fix go (o p : list (string * val)) : bool := match o, p with
        | [], [] => true | (k, v) :: o', (k', w) :: p' => String.eqb k k' && val_eqb v w && go o' p'
        | _, _ => false end) o p = true <-> o = p) by (rewrite E; split; congruence).
    induction IH as [|[k x] o Hx _ IHo]; intros [|[k' y] p']; try (split; congruence). simpl in Hx.
    rewrite !andb_true_iff, Hx, IHo, String.eqb_eq. split; [by intros [[-> ->] ->] | by intros [= -> -> ->]].
Qed.

Section Rollup.
Context {hostDate : HostDate}.

(** The first of the run's times that is a date. *)
Fixpoint first_time (values : list val) : option Z :=
  match values with
  | [] => None
  | v :: rest =>
      match date_parse (to_str (or_else v (VStr ""))) with Some t => Some t | None => first_time rest end
  end.
Definition checkTimestampMs (item : val) : option Z :=
  first_time [oget item "createdAt"; oget item "startedAt"; oget item "updatedAt"; oget item "completedAt"].

(** [/^\d+$/]. *)
Definition is_digit (a : ascii) : bool := in_range 48 57 a.
Definition is_digits (s : string) : bool := negb (String.eqb s "") && all_chars is_digit s.

Definition numericCheckId (item : val) : val :=
  match find_b (fun id => is_digits (to_str id)) [oget item "id"; oget item "databaseId"] with
  | Some id => coalesce id VNull
  | None => VNull
  end.

(** [BigInt(id)]: a number by its exact value, any other value by its text. *)
Fixpoint digits_value (s : string) (acc : Z) : Z :=
  match s with
  | EmptyString => acc
  | String a s' => digits_value s' (10 * acc + Z.of_N (code a) - 48)
  end.
Definition big_int (id : val) : Z :=
  match id with
  | VNum n => default 0%Z (num_to_Z n)
  | _ => digits_value (to_str id) 0
  end.

(** The key of a run, [JSON.stringify([kind, producer, name])]: two such texts are
    equal when the normal forms of the values are. *)
Definition check_kind (item : val) : val :=
  coalesce (oget item "__typename")
    (if truthy (oget item "context") then VStr "StatusContext" else VStr "CheckRun").
Definition check_producer (item : val) : val :=
  if is_str (check_kind item) "CheckRun" then
    let app := oget item "app" in
    coalesce (oget app "databaseId") (coalesce (oget app "id") (coalesce (oget app "slug") VNull))
  else VNull.
Definition run_key (item : val) : option val :=
  if String.eqb (checkIdentity item) "" then None
  else Some (json_norm (VArr [check_kind item; check_producer item; VStr (checkIdentity item)])).

(** An entry of [latestByIdentity]: the key, the index in [result], the time. *)
Record Latest := { l_key : val; l_index : nat; l_time : Z }.

Definition find_latest (latest : list Latest) (key : val) : option Latest :=
  find_b (fun p => val_eqb (l_key p) key) latest.
Definition set_time (latest : list Latest) (key : val) (t : Z) : list Latest :=
  map (fun p => if val_eqb (l_key p) key then {| l_key := l_key p; l_index := l_index p; l_time := t |} else p)
      latest.

(** Whether [item], read at [t], replaces the run held for its identity. *)
Definition replaces (prior : val) (prior_time : Z) (item : val) (t : Z) : bool :=
  let priorId := numericCheckId prior in
  let nextId := numericCheckId item in
  let orderedIds := is_digits (to_str priorId) && is_digits (to_str nextId) in
  (prior_time <? t)%Z
  || (t =? prior_time)%Z && (negb orderedIds || (big_int priorId <=? big_int nextId)%Z).

(** The body of the loop, on [(latestByIdentity, result)]. *)
Definition latest_step (acc : list Latest * list val) (item : val) : list Latest * list val :=
  let '(latest, result) := acc in
  match run_key item, checkTimestampMs item with
  | Some key, Some t =>
      match find_latest latest key with
      | None => (latest ++ [{| l_key := key; l_index := length result; l_time := t |}], result ++ [item])
      | Some prior =>
          if replaces (nth (l_index prior) result VUndef) (l_time prior) item t
          then (set_time latest key t, <[l_index prior := item]> result)
          else (latest, result)
      end
  | _, _ => (latest, result ++ [item])
  end.

Definition latestCheckRollupItems (items : val) : list val :=
  match items with
  | VArr l => snd (fold_left latest_step l ([], []))
  | _ => []
  end.

Definition isAdversarialOwnStatusContext (item : val) (excludeContexts : list string) : bool :=
  if truthy (oget item "__typename") && negb (is_str (oget item "__typename") "StatusContext") then false
  else
    let ctx := to_lower (trimmed (oget item "context")) in
    negb (String.eqb ctx "") && str_in ctx excludeContexts.

Definition checkItemState (item : val) : string :=
  let status := to_upper (trimmed (oget item "status")) in
  if negb (String.eqb status "") && negb (String.eqb status "COMPLETED")
     && negb (str_in status SUCCESSFUL_CHECK_STATES)
  then if str_in status PENDING_CHECK_STATES then "PENDING" else status
  else
    let raw :=
      if is_str (oget item "__typename") "StatusContext"
      then or_else (or_else (oget item "state") (oget item "status")) (oget item "conclusion")
      else or_else (or_else (or_else (oget item "conclusion") (oget item "status")) (oget item "state"))
             (oget (oget item "statusCheckRollup") "state") in
    to_upper (trimmed raw).

(** The loop over the relevant items: the state that ends it, or whether one is pending. *)
Fixpoint scan_states (items : list val) (sawPending : bool) : string :=
  match items with
  | [] => if sawPending then "PENDING" else "SUCCESS"
  | item :: rest =>
      let state := checkItemState item in
      if String.eqb state "" || str_in state PENDING_CHECK_STATES then scan_states rest true
      else if str_in state SUCCESSFUL_CHECK_STATES then scan_states rest sawPending
      else state
  end.

(** [String(c).trim().toLowerCase()] of each context, the empty ones dropped. *)
Definition required_names (requiredContexts : val) : list string :=
  match requiredContexts with
  | VArr l => filter_b (fun s => negb (String.eqb s "")) (map (fun c => to_lower (trim (to_str c))) l)
  | _ => []
  end.

Definition relevant_items (rollup : list val) (excludeContexts : option (list string)) : list val :=
  latestCheckRollupItems (VArr
    (match excludeContexts with
     | Some ex => filter_b (fun item => negb (isAdversarialOwnStatusContext item ex)) rollup
     | None => rollup
     end)).

Definition reported_names (relevant : list val) : list string :=
  filter_b (fun s => negb (String.eqb s "")) (map checkIdentity relevant).

(** [null] is [None]. *)
Definition classifyCheckRollup (statusCheckRollup requiredContexts : val) (excludeContexts : option (list string))
  : option string :=
  match statusCheckRollup with
  | VArr rollup =>
      let required := required_names requiredContexts in
      let relevant := relevant_items rollup excludeContexts in
      match relevant with
      | [] => match required with [] => None | _ => Some "PENDING" end
      | _ => Some (scan_states relevant
               (some_b (fun ctx => negb (str_in ctx (reported_names relevant))) required))
      end
  | _ => None
  end.

(** ** Facts *)

Definition green (item : val) : bool := str_in (checkItemState item) SUCCESSFUL_CHECK_STATES.

Lemma scan_success items sawPending :
  scan_states items sawPending = "SUCCESS" <-> sawPending = false /\ Forall (fun x => green x = true) items.
Proof.
  revert sawPending. induction items as [|x items IH]; intros b; cbn [scan_states].
  - destruct b; split; [done | by intros [[=] _] | by split | done].
  - rewrite List.Forall_cons_iff. unfold green at 1.
    destruct (String.eqb (checkItemState x) "" || str_in (checkItemState x) PENDING_CHECK_STATES) eqn:E.
    + rewrite IH. split; [by intros [[=] _]|]. intros (_ & Hg & _). exfalso.
      apply orb_true_iff in E as [E|E].
      * apply String.eqb_eq in E. by rewrite E in Hg.
      * apply str_in_In in E, Hg. simpl in E, Hg. intuition congruence.
    + destruct (str_in (checkItemState x) SUCCESSFUL_CHECK_STATES) eqn:Eg; [rewrite IH; tauto|].
      split; [|by intros (_ & [=] & _)]. intros Hx. by rewrite Hx in Eg.
Qed.

(** What the map and the list of a scan hold, after the items [seen]. *)
Record scanned (seen : list val) (latest : list Latest) (result : list val) : Prop := {
  sc_from : forall x, In x result -> In x seen;
  sc_kept : forall x, In x seen -> run_key x = None \/ checkTimestampMs x = None -> In x result;
  sc_best : forall x key t, In x seen -> run_key x = Some key -> checkTimestampMs x = Some t ->
    exists p, find_latest latest key = Some p /\ (t <= l_time p)%Z;
  sc_slot : forall key p, find_latest latest key = Some p ->
    exists y, result !! l_index p = Some y /\ run_key y = Some key /\ checkTimestampMs y = Some (l_time p)
}.

Lemma find_latest_key latest key p : find_latest latest key = Some p -> l_key p = key.
Proof. unfold find_latest. intros H. apply find_b_In in H as [_ H]. by apply val_eqb_eq in H. Qed.

Lemma find_latest_snoc latest p key :
  find_latest (latest ++ [p]) key
  = match find_latest latest key with Some q => Some q | None => if val_eqb (l_key p) key then Some p else None end.
Proof. exact (find_b_snoc (fun q => val_eqb (l_key q) key) latest p). Qed.

Lemma find_set_time latest key t key' :
  find_latest (set_time latest key t) key'
  = (fun p => if val_eqb (l_key p) key then {| l_key := l_key p; l_index := l_index p; l_time := t |} else p)
    <$> find_latest latest key'.
Proof.
  apply (find_b_map_same (fun p => val_eqb (l_key p) key')). intros p _. by destruct (val_eqb (l_key p) key).
Qed.

Lemma scanned_nil : scanned [] [] [].
Proof. split; try done. Qed.

(** An item that is kept beside the others. *)
Lemma scanned_keep seen latest result item :
  scanned seen latest result -> run_key item = None \/ checkTimestampMs item = None ->
  scanned (seen ++ [item]) latest (result ++ [item]).
Proof.
  intros [Hf Hk Hb Hs] Hn. split.
  - intros x [Hx|Hx]%in_app_or; apply in_or_app; auto.
  - intros x [Hx|Hx]%in_app_or Hx'; apply in_or_app; auto.
  - intros x key t [Hx|[<-|[]]]%in_app_or Hkey Ht; [eauto|]. destruct Hn; congruence.
  - intros key p (y & Hy & Hrest)%Hs. exists y. split; [|done]. by apply lookup_app_l_Some.
Qed.

(** The first run of its identity. *)
Lemma scanned_new seen latest result item key t :
  scanned seen latest result -> run_key item = Some key -> checkTimestampMs item = Some t ->
  find_latest latest key = None ->
  scanned (seen ++ [item]) (latest ++ [{| l_key := key; l_index := length result; l_time := t |}]) (result ++ [item]).
Proof.
  intros [Hf Hk Hb Hs] Hkey Ht Hnone.
  split.
  - intros x [Hx|Hx]%in_app_or; apply in_or_app; auto.
  - intros x [Hx|Hx]%in_app_or Hx'; apply in_or_app; auto.
  - intros x key' t' [Hx|[<-|[]]]%in_app_or Hkey' Ht'; rewrite find_latest_snoc; simpl.
    + destruct (Hb x key' t' Hx Hkey' Ht') as (p & -> & Hle). eauto.
    + assert (key' = key) as -> by congruence. assert (t' = t) as -> by congruence.
      rewrite Hnone, (proj2 (val_eqb_eq key key) eq_refl). eexists. split; [done|]. simpl. lia.
  - intros key' p Hp. rewrite find_latest_snoc in Hp. simpl in Hp.
    destruct (find_latest latest key') as [q|] eqn:Eq.
    + injection Hp as <-. destruct (Hs key' q Eq) as (y & Hy & Hrest). exists y. split; [|done].
      by apply lookup_app_l_Some.
    + destruct (val_eqb key key') eqn:Ek; [|done]. apply val_eqb_eq in Ek as <-. injection Hp as <-. simpl.
      exists item. split; [|done]. by apply list_lookup_middle.
Qed.

(** A run of an identity already held: the newer of the two stays. *)
Lemma scanned_more seen latest result item key t prior :
  scanned seen latest result -> run_key item = Some key -> checkTimestampMs item = Some t ->
  find_latest latest key = Some prior ->
  let '(latest', result') :=
    if replaces (nth (l_index prior) result VUndef) (l_time prior) item t
    then (set_time latest key t, <[l_index prior := item]> result) else (latest, result) in
  scanned (seen ++ [item]) latest' result'.
Proof.
  intros [Hf Hk Hb Hs] Hkey Ht Hp.
  destruct (replaces _ _ _ _) eqn:Er.
  - assert (Hle : (l_time prior <= t)%Z).
    { unfold replaces in Er. apply orb_true_iff in Er as [Er|[Er _]%andb_true_iff]; [apply Z.ltb_lt in Er | apply Z.eqb_eq in Er]; lia. }
    destruct (Hs key prior Hp) as (y0 & Hy0 & Hky0 & Hty0).
    assert (Hlen : (l_index prior < length result)%nat) by (by apply lookup_lt_Some in Hy0).
    split.
    + intros x Hx%list_elem_of_In%list_elem_of_lookup. destruct Hx as (i & Hi). apply in_or_app.
      destruct (decide (i = l_index prior)) as [->|Hne].
      * rewrite list_lookup_insert_eq in Hi by done. injection Hi as <-. right. by left.
      * rewrite list_lookup_insert_ne in Hi by done. left. apply Hf, list_elem_of_In. by apply list_elem_of_lookup_2 in Hi.
    + intros x [Hx|[<-|[]]]%in_app_or Hx'; [|destruct Hx'; congruence].
      pose proof (Hk x Hx Hx') as Hin. apply list_elem_of_In, list_elem_of_lookup in Hin as (i & Hi).
      apply list_elem_of_In, list_elem_of_lookup. exists i. rewrite list_lookup_insert_ne; [done|].
      intros <-. assert (x = y0) as -> by congruence. destruct Hx'; congruence.
    + intros x key' t' [Hx|[<-|[]]]%in_app_or Hkey' Ht'; rewrite find_set_time.
      * destruct (Hb x key' t' Hx Hkey' Ht') as (p & Ep & Hle'). rewrite Ep. simpl. eexists. split; [done|].
        destruct (val_eqb (l_key p) key) eqn:Ek; [|exact Hle']. simpl. apply val_eqb_eq in Ek.
        rewrite (find_latest_key _ _ _ Ep) in Ek. subst key'. assert (p = prior) as -> by congruence. lia.
      * assert (key' = key) as -> by congruence. rewrite Hp. simpl. eexists. split; [done|].
        rewrite (find_latest_key _ _ _ Hp), (proj2 (val_eqb_eq key key) eq_refl). simpl.
        assert (t' = t) as -> by congruence. lia.
    + intros key' p. rewrite find_set_time. destruct (find_latest latest key') as [q|] eqn:Eq; [|done].
      simpl. intros [= <-]. pose proof (find_latest_key _ _ _ Eq) as Ekq.
      destruct (val_eqb (l_key q) key) eqn:Ek; simpl.
      * apply val_eqb_eq in Ek. rewrite Ekq in Ek. subst key'. assert (q = prior) as -> by congruence.
        exists item. split; [by apply list_lookup_insert_eq|]. split; [congruence | exact Ht].
      * destruct (Hs key' q Eq) as (y & Hy & Hkyy & Hty). exists y. split; [|done].
        rewrite list_lookup_insert_ne; [done|]. intros E. rewrite E in *.
        assert (y = y0) as -> by congruence. rewrite Ekq in Ek.
        by rewrite (proj2 (val_eqb_eq key' key) ltac:(congruence)) in Ek.
  - assert (Hle : (t <= l_time prior)%Z).
    { unfold replaces in Er. apply orb_false_iff in Er as [Er _]. apply Z.ltb_ge in Er. lia. }
    split.
    + intros x Hx. apply in_or_app. auto.
    + intros x [Hx|[<-|[]]]%in_app_or Hx'; [auto|]. destruct Hx'; congruence.
    + intros x key' t' [Hx|[<-|[]]]%in_app_or Hkey' Ht'; [eauto|].
      assert (key' = key) as -> by congruence. assert (t' = t) as -> by congruence. eauto.
    + done.
Qed.

Lemma latest_scanned l : let '(latest, result) := fold_left latest_step l ([], []) in scanned l latest result.
Proof.
  induction l as [|item l IH] using rev_ind; [apply scanned_nil|].
  rewrite fold_left_app. destruct (fold_left latest_step l ([], [])) as [latest result]. cbn [fold_left].
  unfold latest_step. destruct (run_key item) as [key|] eqn:Ek; [|apply scanned_keep; auto].
  destruct (checkTimestampMs item) as [t|] eqn:Et; [|apply scanned_keep; auto].
  destruct (find_latest latest key) as [prior|] eqn:Ep; [|by apply scanned_new].
  pose proof (scanned_more _ _ _ _ _ _ _ IH Ek Et Ep) as H. by destruct (replaces _ _ _ _).
Qed.

(** Of the runs of one check the rollup keeps a single latest one: every
    item it keeps was reported, an item with no identity or no time is kept as
    it is, and a run that has both is kept or covered by a kept run of the same
    check that started no earlier. *)
Theorem latest_runs_cover (l : list val) :
  (forall x, In x (latestCheckRollupItems (VArr l)) -> In x l)
  /\ (forall x, In x l -> run_key x = None \/ checkTimestampMs x = None -> In x (latestCheckRollupItems (VArr l)))
  /\ (forall x key t, In x l -> run_key x = Some key -> checkTimestampMs x = Some t ->
        exists y t', In y (latestCheckRollupItems (VArr l)) /\ run_key y = Some key
                     /\ checkTimestampMs y = Some t' /\ (t <= t')%Z).
Proof.
  pose proof (latest_scanned l) as H. unfold latestCheckRollupItems.
  destruct (fold_left latest_step l ([], [])) as [latest result]. cbn [snd]. destruct H as [Hf Hk Hb Hs].
  split; [done|]. split; [done|]. intros x key t Hx Hkey Ht. destruct (Hb x key t Hx Hkey Ht) as (p & Hp & Hle).
  destruct (Hs key p Hp) as (y & Hy & Hky & Hty). exists y, (l_time p).
  split; [|done]. apply list_elem_of_In. by apply list_elem_of_lookup_2 in Hy.
Qed.

(** A rollup is green exactly when some relevant check was reported, the
    latest run of every one of them succeeded, and every required context is
    among them: an empty or missing rollup is never green. *)
Theorem rollup_green_iff (rollup requiredContexts : val) (excludeContexts : option (list string)) :
  classifyCheckRollup rollup requiredContexts excludeContexts = Some "SUCCESS"
  <-> exists l, rollup = VArr l
       /\ relevant_items l excludeContexts <> []
       /\ Forall (fun x => green x = true) (relevant_items l excludeContexts)
       /\ forall c, In c (required_names requiredContexts) ->
            In c (reported_names (relevant_items l excludeContexts)).
Proof.
  unfold classifyCheckRollup. destruct rollup as [| | | | |l|]; try (split; [done | by intros (? & [=] & _)]).
  destruct (relevant_items l excludeContexts) as [|x rest] eqn:Er.
  { split; [by destruct (required_names _) | intros (l' & [= <-] & Hn & _); by rewrite Er in Hn]. }
  split.
  - intros H%(inj Some). apply scan_success in H as [Hp Hg]. exists l. rewrite Er. split; [done|]. split; [done|].
    split; [done|]. intros c Hc. apply str_in_In.
    pose proof (some_b_false _ _ _ Hp Hc) as Hn. by apply negb_false_iff in Hn.
  - intros (l' & [= <-] & _ & Hg & Hreq). rewrite Er in Hg, Hreq. f_equal. apply scan_success. split; [|done].
    apply not_true_is_false. intros (c & Hc & Hn)%existsb_exists. apply Hreq, str_in_In in Hc. by rewrite Hc in Hn.
Qed.

(** A green rollup has no failed or pending check behind it: each reported
    item succeeded, or a successful run of the same check started no earlier. *)
Theorem green_rollup_has_no_live_failure (l : list val) (requiredContexts x : val) :
  classifyCheckRollup (VArr l) requiredContexts None = Some "SUCCESS" -> In x l ->
  green x = true
  \/ exists y key t t', In y l /\ green y = true /\ run_key x = Some key /\ run_key y = Some key
       /\ checkTimestampMs x = Some t /\ checkTimestampMs y = Some t' /\ (t <= t')%Z.
Proof.
  intros H Hx. unfold classifyCheckRollup in H.
  assert (Hg : Forall (fun y => green y = true) (relevant_items l None)).
  { destruct (relevant_items l None); [by constructor|]. apply (inj Some), scan_success in H. apply H. }
  unfold relevant_items in Hg. rewrite List.Forall_forall in Hg.
  pose proof (latest_scanned l) as Hs. unfold latestCheckRollupItems in Hg.
  destruct (fold_left latest_step l ([], [])) as [latest result]. cbn [snd] in Hg. destruct Hs as [Hf Hk Hb Hs].
  destruct (run_key x) as [key|] eqn:Ek; [|left; apply Hg, Hk; auto].
  destruct (checkTimestampMs x) as [t|] eqn:Et; [|left; apply Hg, Hk; auto]. right.
  destruct (Hb x key t Hx Ek Et) as (p & Hp & Hle). destruct (Hs key p Hp) as (y & Hy & Hky & Hty).
  apply list_elem_of_lookup_2, list_elem_of_In in Hy. exists y, key, t, (l_time p). auto 8.
Qed.

End Rollup.

(** ** Concrete inputs *)

Definition ci_host : HostDate := {| host_date_parse := fun _ => None |}.
#[local] Existing Instance ci_host.

Definition check_run (name conclusion started : string) : val :=
  VObj [("__typename", VStr "CheckRun"); ("name", VStr name); ("status", VStr "COMPLETED");
        ("conclusion", VStr conclusion); ("startedAt", VStr started)].
Definition rerun : list val :=
  [check_run "build" "CANCELLED" "2024-01-01T00:00:00Z"; check_run "build" "SUCCESS" "2024-01-01T00:05:00Z"].

Example rollup_examples :
  (classifyCheckRollup (VArr rerun) VUndef None, classifyCheckRollup (VArr (rev rerun)) VUndef None,
   classifyCheckRollup (VArr []) VUndef None, classifyCheckRollup (VArr []) (VArr [VStr "build"]) None,
   classifyCheckRollup (VArr rerun) (VArr [VStr " Lint "]) None,
   classifyCheckRollup (VArr [check_run "build" "FAILURE" "2024-01-01T00:09:00Z"]) VUndef None)
  = (Some "SUCCESS", Some "SUCCESS", None, Some "PENDING", Some "PENDING", Some "FAILURE").
Proof. vm_compute. reflexivity. Qed.

Lemma green_rollup_has_no_live_failure_witness :
  green (check_run "build" "CANCELLED" "2024-01-01T00:00:00Z") = true
  \/ exists y key t t', In y rerun /\ green y = true
       /\ run_key (check_run "build" "CANCELLED" "2024-01-01T00:00:00Z") = Some key /\ run_key y = Some key
       /\ checkTimestampMs (check_run "build" "CANCELLED" "2024-01-01T00:00:00Z") = Some t
       /\ checkTimestampMs y = Some t' /\ (t <= t')%Z.
Proof.
  apply (green_rollup_has_no_live_failure rerun VUndef).
  - vm_compute. reflexivity.
  - left. reflexivity.
Defined.
