(* ===== verification/OperatorEvidence.v ===== *)
(** Labels and operator evidence, as the merge authorities read them: the
    operator-approved override (src/src/ama/eligibility.mjs), the operator holds
    (src/src/operator-hold-labels.mjs), the duplicate-family hold
    (src/src/duplicate-family-gate.mjs) and the review requests that close the
    docs path (src/src/docs-only.mjs, src/src/retrigger-review-reason.mjs). *)

From Stdlib Require Import ZArith Lia Ascii SpecFloat.
From stdpp Require Import base list strings.
From S2P Require Import Prelude JsNum JsValue CheckRollup.

Definition OPERATOR_APPROVED_LABEL : string := "operator-approved".
Definition ADVERSARIAL_MERGE_REQUESTED_LABEL : string := "adversarial-merge-requested".

(** [Array.isArray(v) ? v : []]. *)
Definition array_or_empty (v : val) : list val := match v with VArr l => l | _ => [] end.
Definition non_blank (l : list string) : list string := filter_b (fun s => negb (String.eqb s "")) l.

Definition normalizeLogin (value : val) : string := to_lower (trimmed value).

Definition normalizeLabelName (label : val) : string :=
  match label with
  | VStr s => to_lower (trim s)
  | _ => match oget label "name" with VStr s => to_lower (trim s) | _ => "" end
  end.

Definition currentLabelSet (prMetadata : val) : list string :=
  non_blank (map normalizeLabelName (array_or_empty (oget prMetadata "labels"))).

Definition hasCurrentLabel (prMetadata : val) (labelName : string) : bool :=
  str_in (to_lower labelName) (currentLabelSet prMetadata).

Definition hasValidOverrideActor (actor : val) : bool :=
  negb (str_in (normalizeLogin actor) [""; "unknown"]).

Definition hasOverrideProvenance (evidence : val) : bool :=
  let eventId := or_else (or_else (or_else (oget evidence "eventId") (oget evidence "eventNodeId"))
                            (oget evidence "labelEventId")) (oget evidence "labelEventNodeId") in
  let observedAt := or_else (oget evidence "observedAt") (oget evidence "createdAt") in
  truthy evidence && truthy eventId && truthy observedAt.

(** The head the evidence names is the head of the pull request. *)
Definition scoped_to_head (evidence prMetadata : val) : bool :=
  String.eqb
    (to_str (or_else (or_else (oget evidence "observedRevisionRef") (oget evidence "headSha")) (VStr "")))
    (to_str (or_else (oget prMetadata "headSha") (VStr ""))).

Definition hasValidScopedOverrideEvidence (evidence prMetadata : val) : bool :=
  truthy evidence && is_true (oget evidence "applied") && hasValidOverrideActor (oget evidence "actor")
  && hasOverrideProvenance evidence && scoped_to_head evidence prMetadata.

Definition hasValidScopedOperatorApprovalEvidence (evidence prMetadata : val) : bool :=
  truthy evidence && is_true (oget evidence "applied") && hasOverrideProvenance evidence
  && scoped_to_head evidence prMetadata.

Definition hasAuditableOperatorApprovalEvidence (evidence : val) : bool :=
  truthy evidence && is_true (oget evidence "applied") && hasOverrideProvenance evidence.

Inductive Enforcement := enforce | observe.

Definition normalizeOperatorLabelActorEnforcement (value : val) : Enforcement :=
  if String.eqb (to_lower (trim (to_str (coalesce value (VStr "observe"))))) "enforce" then enforce else observe.

Definition operatorLoginSet (logins : val) : list string := non_blank (map normalizeLogin (array_or_empty logins)).

Record ActorPolicy := {
  ap_actor : option string;
  ap_allowed : bool;
  ap_enforcement : Enforcement;
  ap_honored : bool;
  ap_reason : string
}.

Definition classifyOperatorLabelActor (evidence operatorLogins enforcement : val) : ActorPolicy :=
  let actor := normalizeLogin (oget evidence "actor") in
  let knownActor := negb (str_in actor [""; "unknown"]) in
  let allowed := knownActor && str_in actor (operatorLoginSet operatorLogins) in
  let normalizedEnforcement := normalizeOperatorLabelActorEnforcement enforcement in
  {| ap_actor := if String.eqb actor "" then None else Some actor;
     ap_allowed := allowed;
     ap_enforcement := normalizedEnforcement;
     ap_honored := knownActor && (allowed || match normalizedEnforcement with observe => true | enforce => false end);
     ap_reason := if allowed then "allowlisted-operator"
                  else if knownActor then "operator-login-not-allowlisted" else "operator-provenance-missing" |}.

Definition hasOperatorApprovedOverride (reviewState prMetadata : val) : bool :=
  let evidence := oget reviewState "operatorApprovedEvidence" in
  hasValidScopedOperatorApprovalEvidence evidence prMetadata
  && hasCurrentLabel prMetadata OPERATOR_APPROVED_LABEL
  && ap_honored (classifyOperatorLabelActor evidence
       (coalesce (oget reviewState "operatorLogins") (oget prMetadata "operatorLogins"))
       (coalesce (oget reviewState "operatorLabelActorEnforcement")
          (oget prMetadata "operatorLabelActorEnforcement"))).

Definition hasAdversarialMergeRequestedOverride (prMetadata evidence : val) : bool :=
  let author := normalizeLogin (or_else (oget prMetadata "author") (oget prMetadata "prAuthor")) in
  hasValidScopedOverrideEvidence evidence prMetadata
  && hasCurrentLabel prMetadata ADVERSARIAL_MERGE_REQUESTED_LABEL
  && negb (negb (String.eqb author "") && String.eqb (normalizeLogin (oget evidence "actor")) author)
  && String.eqb (to_str (or_else (oget evidence "observedRevisionRef") (VStr "")))
       (to_str (or_else (oget prMetadata "headSha") (VStr ""))).

(** ** operator-hold-labels.mjs, duplicate-family-gate.mjs *)

Definition OPERATOR_HOLD_LABELS : list string := ["no-merge-hold"; "do-not-merge"; "merge-agent-skip"].

(** [typeof label === 'string' ? label : label?.name]. *)
Definition label_name (label : val) : val := match label with VStr _ => label | _ => oget label "name" end.

(** [isOperatorHeld] of labels that are not JSON text. *)
Definition isOperatorHeld (labels : val) : bool :=
  some_b (fun label => val_in (label_name label) OPERATOR_HOLD_LABELS) (array_or_empty labels).

Definition DUPLICATE_FAMILY_HOLD_LABEL : string := "duplicate-family-hold".
Definition DUPLICATE_FAMILY_UNRESOLVED_REASON : string := "duplicate-family-unresolved".

Definition labelsContainDuplicateFamilyHold (labels : val) : bool :=
  some_b (fun label =>
    let text := match label with VStr _ => label | _ => or_else (oget label "name") (VStr "") end in
    String.eqb (to_lower (trim (to_str text))) DUPLICATE_FAMILY_HOLD_LABEL) (array_or_empty labels).

(** ** retrigger-review-reason.mjs, docs-only.mjs *)

Definition isExplicitOperatorRetriggerReason (reason : val) : bool :=
  starts_with "retrigger-review:" (to_lower (trimmed reason)).

(** [v.length > 0] of a property that defaults to the empty array, or not an array. *)
Definition requested (v : val) : bool :=
  match v with VUndef | VArr [] => false | _ => true end.

Definition docsReviewRequested (state : val) : bool :=
  let labels := oget state "labels" in
  negb (is_array labels)
  || some_b (fun label => val_in (label_name label) ["request-review"; "retrigger-review"; "fast-merge-veto"])
       (array_or_empty labels)
  || requested (oget state "requested_reviewers") || requested (oget state "requested_teams")
  || isExplicitOperatorRetriggerReason (oget state "rereview_reason") || isOperatorHeld labels.

(** ** Facts *)

Lemma actor_known actor : negb (str_in actor [""; "unknown"]) = true <-> actor <> "" /\ actor <> "unknown".
Proof.
  rewrite negb_true_iff, <- not_true_iff_false, str_in_In. simpl. split.
  - intros H. split; intros ->; apply H; auto.
  - intros [H1 H2] [H|[H|[]]]; congruence.
Qed.

(** The operator override counts only for evidence that was applied to this
    very head and can be audited, while the label is on the pull request, and
    from a named actor; under enforcement the actor is in the operator list. *)
Theorem operator_override_attributable (reviewState prMetadata : val) :
  hasOperatorApprovedOverride reviewState prMetadata = true ->
  let evidence := oget reviewState "operatorApprovedEvidence" in
  let actor := normalizeLogin (oget evidence "actor") in
  oget evidence "applied" = VBool true
  /\ scoped_to_head evidence prMetadata = true
  /\ (truthy (oget evidence "eventId") || truthy (oget evidence "eventNodeId")
      || truthy (oget evidence "labelEventId") || truthy (oget evidence "labelEventNodeId")) = true
  /\ In OPERATOR_APPROVED_LABEL (currentLabelSet prMetadata)
  /\ actor <> "" /\ actor <> "unknown"
  /\ (normalizeOperatorLabelActorEnforcement
        (coalesce (oget reviewState "operatorLabelActorEnforcement")
           (oget prMetadata "operatorLabelActorEnforcement")) = enforce ->
      In actor (operatorLoginSet (coalesce (oget reviewState "operatorLogins") (oget prMetadata "operatorLogins")))).
Proof.
  unfold hasOperatorApprovedOverride. cbv zeta.
  set (ev := oget reviewState "operatorApprovedEvidence"). intros [[Hs Hl]%andb_true_iff Ha]%andb_true_iff.
  unfold hasValidScopedOperatorApprovalEvidence in Hs. apply andb_true_iff in Hs as [[[Hev Happ]%andb_true_iff Hpr]%andb_true_iff Hh].
  split; [by apply is_true_eq|]. split; [done|]. split.
  { unfold hasOverrideProvenance in Hpr. apply andb_true_iff in Hpr as [[_ Hid]%andb_true_iff _].
    unfold or_else in Hid. destruct (truthy (oget ev "eventId")) eqn:E1; [done|].
    destruct (truthy (oget ev "eventNodeId")) eqn:E2; [done|].
    destruct (truthy (oget ev "labelEventId")) eqn:E3; [done | exact Hid]. }
  split; [by apply str_in_In|].
  unfold classifyOperatorLabelActor in Ha. cbn [ap_honored] in Ha. apply andb_true_iff in Ha as [Hk Ha].
  pose proof Hk as Hk'. apply actor_known in Hk' as [H1 H2]. split; [done|]. split; [done|].
  intros Hen. rewrite Hk, Hen, orb_false_r in Ha. by apply str_in_In.
Qed.

Definition ex_evidence (actor : string) : val :=
  VObj [("operatorApprovedEvidence", VObj [("applied", VBool true); ("actor", VStr actor); ("eventId", VStr "E1");
          ("observedAt", VStr "2024-01-01T00:00:00Z"); ("observedRevisionRef", VStr "h1")]);
        ("operatorLogins", VArr [VStr "Ada"]); ("operatorLabelActorEnforcement", VStr "enforce")].
Definition ex_pr (head : string) : val := VObj [("headSha", VStr head); ("labels", VArr [VStr "Operator-Approved"])].

Example override_examples :
  (hasOperatorApprovedOverride (ex_evidence "ada") (ex_pr "h1"),
   hasOperatorApprovedOverride (ex_evidence "eve") (ex_pr "h1"),
   hasOperatorApprovedOverride (ex_evidence "ada") (ex_pr "h2"),
   isOperatorHeld (VArr [VObj [("name", VStr "do-not-merge")]]),
   docsReviewRequested (VObj [("labels", VArr []); ("rereview_reason", VStr " Retrigger-Review: x")]))
  = (true, false, false, true, true).
Proof. vm_compute. reflexivity. Qed.

Lemma operator_override_attributable_witness :
  In "ada" (operatorLoginSet (VArr [VStr "Ada"])).
Proof.
  refine (proj2 (proj2 (proj2 (proj2 (proj2 (proj2
    (operator_override_attributable (ex_evidence "ada") (ex_pr "h1") _)))))) _); vm_compute; reflexivity.
Defined.
