(* ===== verification/MergeEligibility.v ===== *)
(** The shared merge predicate (evaluateMergeEligibility in
    src/src/ama/merge-eligibility.mjs) over a snapshot of fetched state. What
    the primary-change check answers is an argument. *)

From Stdlib Require Import ZArith Lia Ascii SpecFloat.
From stdpp Require Import base list strings.
From S2P Require Import Prelude JsNum JsValue JsDate CheckRollup OperatorEvidence.

Definition ELIGIBLE_MERGE_VERDICTS : list string := ["settled-success"; "ham_terminal_remediation_validated"].

Definition MERGE_ELIGIBILITY_REASONS : list string :=
  ["ci-cost-read-failed"; "ci-cost-check-failed"; "ci-cost-unauthorized"; "primary-change-reverted";
   "primary-change-unknown"; "primary-change-read-failed"; "history-read-failed"; "verdict-not-eligible";
   "ci-not-green"; "pr-mergeability-unknown"; "pr-not-mergeable"; "branch-protection-missing-gate";
   "stale-head"; "lease-not-held"; "labels-unavailable"; DUPLICATE_FAMILY_UNRESOLVED_REASON].

(** [String(v ?? '')]. *)
Definition text_of (v : val) : string := to_str (coalesce v (VStr "")).

Definition verdictEligible (verdict : val) : bool :=
  str_in (to_lower (trim (text_of verdict))) ELIGIBLE_MERGE_VERDICTS.

Section Merge.
Context {hostDate : HostDate}.

Definition requiredChecksGreen (requiredChecks requiredCheckContexts : val) : bool :=
  match requiredChecks with
  | VBool b => b
  | _ => bool_decide
           (classifyCheckRollup requiredChecks (or_else requiredCheckContexts (VArr [])) None = Some "SUCCESS")
  end.

Definition pr_open (prState : val) : bool := is_nullish prState || String.eqb (to_upper (to_str prState)) "OPEN".

Definition prMergeable (state : obj) : bool :=
  let mergeable := get state "mergeable" in
  let mergeableOk := match mergeable with
                     | VBool b => b
                     | _ => String.eqb (to_upper (text_of mergeable)) "MERGEABLE"
                     end in
  let requiresUpToDate := negb (is_false (get state "requiresUpToDateBranch")) in
  pr_open (get state "prState") && mergeableOk
  && negb (requiresUpToDate && String.eqb (to_upper (text_of (get state "mergeStateStatus"))) "BEHIND").

Definition branchProtectionRequiresGate (state : obj) : bool :=
  if is_false (get state "branchProtectionRequired") then true
  else
    let norm v := to_lower (trim (text_of v)) in
    let requiredContext := norm (get state "requiredGateContext") in
    negb (String.eqb requiredContext "")
    && str_in requiredContext
         (non_blank (map norm (array_or_empty (get state "branchProtectionRequiredContexts")))).

Definition headMatches (state : obj) : bool :=
  let candidate := trim (text_of (get state "candidateHead")) in
  let validated := trim (text_of (get state "validatedHead")) in
  negb (String.eqb candidate "") && negb (String.eqb validated "") && String.eqb candidate validated.

(** The operator override, read from the snapshot. *)
Definition operatorOverride (state : obj) : bool :=
  hasOperatorApprovedOverride
    (VObj [("operatorApprovedEvidence", get state "operatorApprovedEvidence");
           ("operatorLogins", get state "operatorLogins");
           ("operatorLabelActorEnforcement", get state "operatorLabelActorEnforcement")])
    (VObj [("headSha", get state "candidateHead"); ("labels", get state "labels")]).

Definition docsAuthority (state : obj) : bool :=
  let docs := get state "docsFastPath" in
  is_str (get state "verdict") "docs-fast-path" && strict_eq (oget docs "headSha") (get state "candidateHead")
  && truthy (oget docs "baseSha") && negb (is_true (oget docs "reviewRequested"))
  && negb (docsReviewRequested (VObj state)).

Definition mergeabilityUnknown (state : obj) : bool :=
  pr_open (get state "prState") && String.eqb (to_upper (text_of (get state "mergeable"))) "UNKNOWN".

(** [if (cond) reasons.push(reason)]. *)
Definition push_if (cond : bool) (reason : string) : list val := if cond then [VStr reason] else [].

(** The reasons of the gates after the primary change, in the order they are pushed. *)
Definition gate_reasons (state : obj) : list val :=
  push_if (negb (verdictEligible (get state "verdict")) && negb (operatorOverride state) && negb (docsAuthority state))
    "verdict-not-eligible"
  ++ push_if (negb (requiredChecksGreen (get state "requiredChecks") (get state "requiredCheckContexts")))
       "ci-not-green"
  ++ (if mergeabilityUnknown state then [VStr "pr-mergeability-unknown"]
      else push_if (negb (prMergeable state)) "pr-not-mergeable")
  ++ push_if (negb (branchProtectionRequiresGate state)) "branch-protection-missing-gate"
  ++ push_if (negb (headMatches state)) "stale-head"
  ++ push_if (negb (is_true (get state "leaseHeld"))) "lease-not-held"
  ++ (if negb (is_array (get state "labels")) then [VStr "labels-unavailable"]
      else push_if (labelsContainDuplicateFamilyHold (get state "labels")) DUPLICATE_FAMILY_UNRESOLVED_REASON).

(** Whether [v.length] is truthy. *)
Definition has_length (v : val) : bool :=
  match v with
  | VArr l => negb (Nat.eqb (length l) 0)
  | VStr s => negb (String.eqb s "")
  | _ => truthy (oget v "length")
  end.

Record MergeEligibility := {
  m_eligible : bool;
  m_reasons : list val;
  m_guardReversals : option val;
  m_derivedChanges : option val
}.

(** [checkPrimaryChange evidence headSha strictNonBlockingRemediation]. *)
Variable checkPrimaryChange : val -> val -> val -> result val.

Definition needsPrimaryChange (state : obj) : bool :=
  truthy (get state "primaryChange") || is_true (get state "requirePrimaryChange").

Definition evaluateMergeEligibility (state : obj) : result MergeEligibility :=
  let* intent :=
    (if needsPrimaryChange state
     then let* i := checkPrimaryChange (get state "primaryChange") (get state "candidateHead")
                      (get state "strictNonBlockingRemediation") in
          let* ok := member i "ok" in
          Ok (Some (i, truthy ok))
     else Ok None) in
  let refusal := match intent with Some (i, false) => [oget i "reason"] | _ => [] end in
  let list_of k := match intent with Some (i, true) => or_else (oget i k) (VArr []) | _ => VArr [] end in
  let reasons := refusal ++ gate_reasons state in
  let kept v := if has_length v then Some v else None in
  Ok {| m_eligible := Nat.eqb (length reasons) 0; m_reasons := reasons;
        m_guardReversals := kept (list_of "guardReversals"); m_derivedChanges := kept (list_of "derivedChanges") |}.

(** ** Facts *)

(** The primary-change check of the snapshot passes, when it is asked for. *)
Definition primary_ok (state : obj) : Prop :=
  needsPrimaryChange state = true ->
  exists i, checkPrimaryChange (get state "primaryChange") (get state "candidateHead")
              (get state "strictNonBlockingRemediation") = Ok i /\ truthy (oget i "ok") = true.

Lemma push_if_nil c r : push_if c r = [] <-> c = false.
Proof. by destruct c. Qed.

Lemma gate_reasons_nil state :
  gate_reasons state = [] <->
  (verdictEligible (get state "verdict") || operatorOverride state || docsAuthority state) = true
  /\ requiredChecksGreen (get state "requiredChecks") (get state "requiredCheckContexts") = true
  /\ mergeabilityUnknown state = false /\ prMergeable state = true
  /\ branchProtectionRequiresGate state = true /\ headMatches state = true
  /\ get state "leaseHeld" = VBool true
  /\ is_array (get state "labels") = true /\ labelsContainDuplicateFamilyHold (get state "labels") = false.
Proof.
  unfold gate_reasons. rewrite !app_nil, !push_if_nil, !negb_false_iff, is_true_eq.
  destruct (verdictEligible _), (operatorOverride state), (docsAuthority state), (mergeabilityUnknown state),
    (is_array (get state "labels")); simpl negb; cbv iota; rewrite ?push_if_nil, ?negb_false_iff;
    simpl; intuition congruence.
Qed.


(** The gates' part of the vocabulary, in its order. *)
Definition GATE_REASONS : list string := drop 7 MERGE_ELIGIBILITY_REASONS.

Lemma push_if_sublist c r : push_if c r `sublist_of` [VStr r].
Proof. destruct c; [done | apply sublist_nil_l]. Qed.

Lemma gate_reasons_sublist state : gate_reasons state `sublist_of` map VStr GATE_REASONS.
Proof.
  change (map VStr GATE_REASONS) with
    ([VStr "verdict-not-eligible"] ++ [VStr "ci-not-green"]
     ++ [VStr "pr-mergeability-unknown"; VStr "pr-not-mergeable"] ++ [VStr "branch-protection-missing-gate"]
     ++ [VStr "stale-head"] ++ [VStr "lease-not-held"]
     ++ [VStr "labels-unavailable"; VStr DUPLICATE_FAMILY_UNRESOLVED_REASON]).
  unfold gate_reasons. repeat (apply sublist_app; [try apply push_if_sublist|]).
  - destruct (mergeabilityUnknown state).
    + apply sublist_skip, sublist_nil_l.
    + apply sublist_cons, push_if_sublist.
  - destruct (negb _).
    + apply sublist_skip, sublist_nil_l.
    + apply sublist_cons, push_if_sublist.
Qed.

(** The reasons come in the order of the published vocabulary, each at most
    once, for a primary-change check that refuses with one of its first seven;
    so the first reason names the first gate that failed. *)
Theorem merge_reasons_ordered (state : obj) (r : MergeEligibility) :
  (forall evidence head strict i, checkPrimaryChange evidence head strict = Ok i -> truthy (oget i "ok") = false ->
     exists s, oget i "reason" = VStr s /\ In s (take 7 MERGE_ELIGIBILITY_REASONS)) ->
  evaluateMergeEligibility state = Ok r ->
  m_reasons r `sublist_of` map VStr MERGE_ELIGIBILITY_REASONS
  /\ (m_eligible r = true <-> m_reasons r = []).
Proof.
  intros Hvoc. unfold evaluateMergeEligibility. intros (intent & Hi & [= <-])%rbind_Ok. cbn [m_reasons m_eligible].
  split; [|rewrite Nat.eqb_eq; by rewrite length_zero_iff_nil].
  rewrite <- (take_drop 7 MERGE_ELIGIBILITY_REASONS), map_app.
  apply sublist_app; [|apply gate_reasons_sublist].
  destruct intent as [[i []]|]; try apply sublist_nil_l.
  destruct (needsPrimaryChange state); [|done].
  apply rbind_Ok in Hi as (j & Hc & Hi). apply rbind_Ok in Hi as (ok & Hok & [= -> Hf]).
  unfold member in Hok. destruct (is_nullish i); [done|]. injection Hok as <-.
  destruct (Hvoc _ _ _ _ Hc Hf) as (s & -> & Hs).
  apply (in_map VStr) in Hs. apply in_split in Hs as (l1 & l2 & ->).
  apply sublist_inserts_l, sublist_skip, sublist_nil_l.
Qed.

End Merge.

(** ** Concrete inputs *)

Definition merge_host : HostDate := {| host_date_parse := fun _ => None |}.
#[local] Existing Instance merge_host.

(** A primary-change check that accepts a head it has evidence for. *)
Definition preserved (evidence head strict : val) : result val :=
  if strict_eq (oget evidence "headSha") head then Ok (VObj [("ok", VBool true)])
  else Ok (VObj [("ok", VBool false); ("reason", VStr "primary-change-read-failed")]).

Definition snapshot (validated : string) (checks : list val) : obj :=
  [("verdict", VStr "settled-success"); ("requiredChecks", VArr checks); ("mergeable", VStr "MERGEABLE");
   ("mergeStateStatus", VStr "CLEAN"); ("requiredGateContext", VStr "gate");
   ("branchProtectionRequiredContexts", VArr [VStr "Gate"]); ("candidateHead", VStr "h1");
   ("validatedHead", VStr validated); ("leaseHeld", VBool true); ("labels", VArr []);
   ("primaryChange", VObj [("headSha", VStr "h1")])].

Definition reasons_of (state : obj) : list val :=
  match evaluateMergeEligibility preserved state with Ok r => m_reasons r | Throw _ => [VNull] end.

Example merge_examples :
  (reasons_of (snapshot "h1" rerun), reasons_of (snapshot "h2" []),
   reasons_of (map_set (snapshot "h1" rerun) "candidateHead" (VStr "h3")))
  = ([], [VStr "ci-not-green"; VStr "stale-head"], [VStr "primary-change-read-failed"; VStr "stale-head"]).
Proof. vm_compute. reflexivity. Qed.

Definition merge_answer (state : obj) : MergeEligibility :=
  match evaluateMergeEligibility preserved state with
  | Ok r => r
  | Throw _ => {| m_eligible := false; m_reasons := []; m_guardReversals := None; m_derivedChanges := None |}
  end.


Lemma merge_reasons_ordered_witness :
  m_reasons (merge_answer (snapshot "h2" [])) `sublist_of` map VStr MERGE_ELIGIBILITY_REASONS.
Proof.
  refine (proj1 (merge_reasons_ordered preserved (snapshot "h2" []) (merge_answer (snapshot "h2" [])) _ _)).
  - intros evidence head strict i. unfold preserved. destruct (strict_eq _ _); intros [= <-]; [done|].
    intros _. exists "primary-change-read-failed". split; [reflexivity|]. simpl. tauto.
  - vm_compute. reflexivity.
Defined.
