(* ===== verification/QueueAdmission.v ===== *)
(** Queue decisions on live evidence: the admission of an entry
    (classifyQueueAdmission in src/src/finalization/queue-admission.mjs), the
    conclusion of its checks (classifyQueueChecks in queue-check-reader.mjs) and
    the live subject during the wait (subjectDecision in queue-checks.mjs). *)

From Stdlib Require Import ZArith Lia Ascii SpecFloat.
From stdpp Require Import base list strings.
From S2P Require Import Prelude JsNum JsValue JsDate CheckRollup OperatorEvidence MergeEligibility.

(** [text], [sha], [sameSha]. *)
Definition text (v : val) : bool := match v with VStr s => negb (String.eqb (trim s) "") | _ => false end.
Definition hex_char (a : ascii) : bool := in_range 48 57 a || in_range 65 70 a || in_range 97 102 a.
Definition sha (v : val) : bool :=
  match v with VStr s => Nat.eqb (String.length s) 40 && all_chars hex_char s | _ => false end.
Definition sameSha (a b : val) : bool :=
  sha a && sha b && String.eqb (to_lower (to_str a)) (to_lower (to_str b)).

Record Disposition := { d_phase : string; d_reason : val; d_eligibility : option MergeEligibility }.
Definition disposition (phase reason : string) : Disposition :=
  {| d_phase := phase; d_reason := VStr reason; d_eligibility := None |}.

Section Admission.
Context {hostDate : HostDate}.
Variable checkPrimaryChange : val -> val -> val -> result val.

(** A [derivation] from the admission head, or null. *)
Definition subject_disposition (entry s derivation : val) : option Disposition :=
  if negb (text (oget s "sourceRef") && deep_eq (oget s "lane") (oget entry "lane")
           && strict_eq (oget s "prNumber") (oget entry "prNumber"))
  then Some (disposition "parked-infrastructure" "subject-unavailable")
  else if val_in (oget s "state") ["closed"; "merged"]
  then Some (disposition "closed-observed" ("live-" +:+ to_str (oget s "state")))
  else if negb (is_str (oget s "state") "open" && sha (oget s "head") && sha (oget s "baseSha"))
  then Some (disposition "parked-infrastructure" "subject-unavailable")
  else if negb (sameSha (oget s "head") (coalesce (oget derivation "head") (oget entry "head")))
  then Some (disposition "returned-to-closer" "external-head-change")
  else if negb (is_array (oget s "labels"))
          || some_b (fun l => negb (text (label_name l))) (array_or_empty (oget s "labels"))
  then Some (disposition "parked-hold" "labels-unavailable")
  else if isOperatorHeld (VArr (map label_name (array_or_empty (oget s "labels"))))
  then Some (disposition "parked-hold" "operator-hold")
  else None.

(** [!derivation && (receipt.kind === 'clean' || receipt.handoff.dispositions.length === 0)]. *)
Definition needs_review (receipt derivation : val) : result bool :=
  if truthy derivation then Ok false
  else if is_str (oget receipt "kind") "clean" then Ok true
  else
    let* dispositions := member (oget receipt "handoff") "dispositions" in
    let* n := match dispositions with VArr l => Ok (VInt (Z.of_nat (length l))) | _ => member dispositions "length" end in
    Ok (strict_eq n (VInt 0)).

Definition review_disposition (receipt live s derivation : val) : result (option Disposition) :=
  let* needed := needs_review receipt derivation in
  if needed then
    let review := oget live "currentReview" in
    if negb (is_true (oget review "complete") && text (oget review "sourceRef"))
    then Ok (Some (disposition "parked-infrastructure" "current-head-review-unavailable"))
    else
      let* source := member (coalesce (oget receipt "input") (oget receipt "handoff")) "sourceReview" in
      let* id := member source "id" in
      if negb (String.eqb (to_str (oget review "id")) (to_str id) && sameSha (oget review "commitId") (oget s "head")
               && is_str (oget review "verdict") "settled-success"
               && match oget review "findings" with VArr [] => true | _ => false end)
      then Ok (Some (disposition "returned-to-closer" "current-head-review-not-clean"))
      else Ok None
  else Ok None.

Definition access_disposition (live : val) : option Disposition :=
  let identity := oget live "identity" in
  let permission := oget live "permission" in
  if negb (is_true (oget identity "ok") && text (oget identity "sourceRef"))
  then Some (disposition "parked-infrastructure" "identity-unavailable")
  else if negb (text (oget permission "sourceRef") && is_bool (oget permission "canPush"))
  then Some (disposition "parked-permission" "write-permission-unavailable")
  else if negb (is_true (oget permission "canPush"))
  then Some (disposition "parked-permission" "write-permission-denied")
  else if negb (text (oget live "structuralSourceRef") && truthy (oget live "eligibility"))
  then Some (disposition "parked-infrastructure" "structural-eligibility-unavailable")
  else None.

(** The snapshot the shared predicate is asked about. *)
Definition admission_state (receipt live s : val) : obj :=
  let structural := oget live "eligibility" in
  let primaryHead := oget (oget structural "primaryChange") "headSha" in
  let candidateHead := if sameSha primaryHead (oget s "head") then primaryHead else oget s "head" in
  spread (match structural with VObj o => o | _ => [] end)
    [("leaseHeld", VBool true); ("labels", VArr (map label_name (array_or_empty (oget s "labels"))));
     ("prState", VStr "OPEN"); ("candidateHead", candidateHead); ("validatedHead", candidateHead);
     ("requirePrimaryChange", VBool true);
     ("verdict", VStr (if is_str (oget receipt "kind") "clean" then "settled-success"
                       else "ham_terminal_remediation_validated"))].

(** A reason left for the execution stage: the checks, or a branch behind its base. *)
Definition deferred_reason (structural reason : val) : bool :=
  is_str reason "ci-not-green"
  || (is_str reason "pr-not-mergeable" && is_str (oget structural "mergeable") "MERGEABLE"
      && is_str (oget structural "mergeStateStatus") "BEHIND").
Definition closer_reason (structural reason : val) : bool :=
  is_str reason "primary-change-reverted"
  || (is_str reason "pr-not-mergeable" && is_str (oget structural "mergeable") "CONFLICTING").

Definition structural_disposition (receipt live s : val) : result Disposition :=
  let structural := oget live "eligibility" in
  let* eligibility := evaluateMergeEligibility checkPrimaryChange (admission_state receipt live s) in
  let reasons := filter_b (fun r => negb (deferred_reason structural r)) (m_reasons eligibility) in
  Ok (match find_b (closer_reason structural) reasons, reasons with
      | Some r, _ => {| d_phase := "returned-to-closer"; d_reason := r; d_eligibility := None |}
      | None, r :: _ => {| d_phase := "parked-infrastructure"; d_reason := r; d_eligibility := None |}
      | None, [] => {| d_phase := "ready"; d_reason := VStr "admission-validated"; d_eligibility := Some eligibility |}
      end).

Definition classifyQueueAdmission (entry receipt live derivation : val) : result Disposition :=
  let s := oget live "subject" in
  match subject_disposition entry s derivation with
  | Some d => Ok d
  | None =>
      if negb (truthy receipt) then Ok (disposition "parked-infrastructure" "admission-receipt-unavailable")
      else
        let* reviewed := review_disposition receipt live s derivation in
        match reviewed with
        | Some d => Ok d
        | None => match access_disposition live with
                  | Some d => Ok d
                  | None => structural_disposition receipt live s
                  end
        end
  end.

(** ** Facts *)

(** The live subject an admission needs. *)
Record live_subject (entry s derivation : val) : Prop := {
  ls_lane : deep_eq (oget s "lane") (oget entry "lane") = true;
  ls_pr : strict_eq (oget s "prNumber") (oget entry "prNumber") = true;
  ls_open : oget s "state" = VStr "open";
  ls_head : sameSha (oget s "head") (coalesce (oget derivation "head") (oget entry "head")) = true;
  ls_labels : exists l, oget s "labels" = VArr l;
  ls_free : isOperatorHeld (VArr (map label_name (array_or_empty (oget s "labels")))) = false
}.

Lemma subject_disposition_None entry s derivation :
  subject_disposition entry s derivation = None -> live_subject entry s derivation.
Proof.
  unfold subject_disposition. destruct (_ && _ && _) eqn:E1; cbn [negb]; [|done].
  destruct (val_in _ _); [done|]. destruct (is_str _ _ && _ && _) eqn:E2; cbn [negb]; [|done].
  destruct (sameSha _ _) eqn:E3; cbn [negb]; [|done].
  destruct (negb (is_array _) || _) eqn:E4; [done|]. destruct (isOperatorHeld _) eqn:E5; [done|]. intros _.
  apply andb_true_iff in E1 as [[_ H1]%andb_true_iff H2]. apply andb_true_iff in E2 as [[H3 _]%andb_true_iff _].
  apply orb_false_iff in E4 as [H4 _]. apply negb_false_iff in H4.
  split; [done | done | by apply is_str_eq | done | destruct (oget s "labels"); try done; eauto | done].
Qed.

Lemma subject_disposition_phase entry s derivation d :
  subject_disposition entry s derivation = Some d ->
  In (d_phase d) ["parked-infrastructure"; "closed-observed"; "returned-to-closer"; "parked-hold"].
Proof. unfold subject_disposition. repeat case_goal; intros [= <-]; simpl; tauto. Qed.

Lemma review_disposition_phase receipt live s derivation d :
  review_disposition receipt live s derivation = Ok (Some d) ->
  In (d_phase d) ["parked-infrastructure"; "returned-to-closer"].
Proof.
  unfold review_disposition. intros ([] & _ & H)%rbind_Ok; [|done].
  destruct (negb _) in H; [injection H as <-; simpl; tauto|].
  apply rbind_Ok in H as (source & _ & H). apply rbind_Ok in H as (id & _ & H).
  destruct (negb _) in H; [injection H as <-; simpl; tauto | done].
Qed.

Lemma access_disposition_phase live d :
  access_disposition live = Some d -> In (d_phase d) ["parked-infrastructure"; "parked-permission"].
Proof. unfold access_disposition. repeat case_goal; intros [= <-]; simpl; tauto. Qed.

Lemma access_disposition_None live :
  access_disposition live = None ->
  oget (oget live "identity") "ok" = VBool true /\ oget (oget live "permission") "canPush" = VBool true
  /\ truthy (oget live "eligibility") = true.
Proof.
  unfold access_disposition. destruct (is_true _ && _) eqn:E1; cbn [negb]; [|done].
  destruct (text _ && is_bool _); cbn [negb]; [|done].
  destruct (is_true (oget (oget live "permission") "canPush")) eqn:E2; cbn [negb]; [|done].
  destruct (text _ && truthy _) eqn:E3; cbn [negb]; [|done]. intros _.
  apply andb_true_iff in E1 as [E1 _], E3 as [_ E3]. apply is_true_eq in E1, E2. done.
Qed.

(** An entry is ready only through the structural predicate. *)
Lemma ready_inv entry receipt live derivation d :
  classifyQueueAdmission entry receipt live derivation = Ok d -> d_phase d = "ready" ->
  live_subject entry (oget live "subject") derivation /\ truthy receipt = true
  /\ review_disposition receipt live (oget live "subject") derivation = Ok None
  /\ access_disposition live = None
  /\ structural_disposition receipt live (oget live "subject") = Ok d.
Proof.
  unfold classifyQueueAdmission. intros H Hd. destruct (subject_disposition _ _ _) as [x|] eqn:E1.
  { injection H as <-. apply subject_disposition_phase in E1. rewrite Hd in E1. simpl in E1. intuition discriminate. }
  destruct (truthy receipt) eqn:Er; cbn [negb] in H; [|by injection H as <-].
  apply rbind_Ok in H as ([x|] & E2 & H).
  { injection H as <-. apply review_disposition_phase in E2. rewrite Hd in E2. simpl in E2. intuition discriminate. }
  destruct (access_disposition live) as [x|] eqn:E3.
  { injection H as <-. apply access_disposition_phase in E3. rewrite Hd in E3. simpl in E3. intuition discriminate. }
  split; [by apply subject_disposition_None|]. auto.
Qed.

(** An entry is admitted as ready only on live evidence: the subject is this
    pull request, open, at the admitted (or derived) head, with readable labels
    and no operator hold; a receipt is on file, whose review is complete, clean
    and of this head unless the head is derived or findings were adjudicated;
    the identity is attested and may push; and every gate of the shared merge
    predicate passes but those left for execution. *)
Theorem admission_ready_grounded (entry receipt live derivation : val) (d : Disposition) :
  classifyQueueAdmission entry receipt live derivation = Ok d -> d_phase d = "ready" ->
  let s := oget live "subject" in
  live_subject entry s derivation /\ truthy receipt = true
  /\ (needs_review receipt derivation = Ok true ->
      oget (oget live "currentReview") "complete" = VBool true
      /\ oget (oget live "currentReview") "verdict" = VStr "settled-success"
      /\ sameSha (oget (oget live "currentReview") "commitId") (oget s "head") = true
      /\ oget (oget live "currentReview") "findings" = VArr [])
  /\ oget (oget live "identity") "ok" = VBool true /\ oget (oget live "permission") "canPush" = VBool true
  /\ exists r, evaluateMergeEligibility checkPrimaryChange (admission_state receipt live s) = Ok r
       /\ forall reason, In reason (m_reasons r) -> deferred_reason (oget live "eligibility") reason = true.
Proof.
  intros H Hd. cbv zeta. destruct (ready_inv _ _ _ _ _ H Hd) as (Hs & Hr & Hrev & Hacc & Hst).
  split; [done|]. split; [done|]. split.
  { intros Hn. unfold review_disposition in Hrev. rewrite Hn in Hrev. cbn [rbind] in Hrev.
    destruct (is_true (oget (oget live "currentReview") "complete") && _) eqn:E1; cbn [negb] in Hrev; [|done].
    apply rbind_Ok in Hrev as (source & _ & Hrev). apply rbind_Ok in Hrev as (id & _ & Hrev).
    destruct (_ && _ && _ && _) eqn:E2; cbn [negb] in Hrev; [|done].
    apply andb_true_iff in E1 as [E1 _]. apply andb_true_iff in E2 as [[[_ H2]%andb_true_iff H3]%andb_true_iff H4].
    split; [by apply is_true_eq|]. split; [by apply is_str_eq|]. split; [done|].
    by destruct (oget (oget live "currentReview") "findings") as [| | | | |[]|]. }
  destruct (access_disposition_None _ Hacc) as (H1 & H2 & _). split; [done|]. split; [done|].
  unfold structural_disposition in Hst. apply rbind_Ok in Hst as (r & Hev & Hst). exists r. split; [done|].
  injection Hst as <-. destruct (find_b _ _); [done|].
  destruct (filter_b _ _) as [|x l] eqn:Ef; [|done]. intros reason Hin.
  apply not_false_is_true. intros Hf.
  assert (Hx : In reason []) by (rewrite <- Ef; apply List.filter_In; by rewrite Hf).
  destruct Hx.
Qed.

End Admission.

Section Checks.
Context {hostDate : HostDate}.

(** ** The checks of a candidate: each reported result is an object *)

Definition RED : list string := ["FAILURE"; "ERROR"; "TIMED_OUT"; "CANCELLED"; "ACTION_REQUIRED"; "STALE"].

(** [same(a, b)]. *)
Definition same_text (a b : val) : bool := text a && text b && String.eqb (to_lower (to_str a)) (to_lower (to_str b)).

Record ChecksDecision := { cd_kind : string; cd_reason : string; cd_conclusion : option string }.

Definition readable_checks (snapshot : val) : bool :=
  let required := oget snapshot "requiredSet" in
  is_true (oget snapshot "complete") && truthy (oget required "version") && is_array (oget required "contexts")
  && is_array (oget snapshot "results")
  && negb (some_b (fun r => negb (same_text (oget r "head") (oget snapshot "head")))
             (array_or_empty (oget snapshot "results"))).

Definition no_ci_proof (snapshot : val) : bool :=
  let noCi := oget snapshot "noCi" in
  Nat.eqb (length (array_or_empty (oget snapshot "results"))) 0
  && Nat.eqb (length (array_or_empty (oget (oget snapshot "requiredSet") "contexts"))) 0
  && is_true (oget noCi "ok") && is_true (oget noCi "configured")
  && same_text (oget noCi "head") (oget snapshot "head") && text (oget noCi "sourceRef").

(** The required names no result reports, as they are written. *)
Definition missing_checks (snapshot : val) : list val :=
  let reported := map (fun r => to_lower (trim (to_str (coalesce (coalesce (oget r "context") (oget r "name"))
                         (VStr ""))))) (array_or_empty (oget snapshot "results")) in
  filter_b (fun name => negb (val_in name reported)) (array_or_empty (oget (oget snapshot "requiredSet") "contexts")).

Definition classifyQueueChecks (snapshot : val) : ChecksDecision :=
  if negb (readable_checks snapshot)
  then {| cd_kind := "wait"; cd_reason := "checks-unreadable"; cd_conclusion := None |}
  else
    let conclusion := classifyCheckRollup (oget snapshot "results") (oget (oget snapshot "requiredSet") "contexts") None in
    let answer kind reason c := {| cd_kind := kind; cd_reason := reason; cd_conclusion := c |} in
    if match conclusion with Some c => str_in c RED | None => false end
    then answer "red" "checks-completed-red" conclusion
    else if bool_decide (conclusion = Some "SUCCESS") then answer "green" "exact-candidate-checks-green" conclusion
    else if no_ci_proof snapshot then answer "green" "configured-no-ci-proof" (Some "SUCCESS")
    else
      let missing := missing_checks snapshot in
      answer "wait"
        (match missing with
         | _ :: _ => "missing-required-check:" +:+ to_str (VArr missing)
         | [] => if bool_decide (conclusion = Some "PENDING") then "checks-pending" else "checks-inconclusive"
         end) conclusion.

(** [subjectDecision(entry, live)]: the phase with its reason, or null. *)
Definition subjectDecision (entry live : val) : option (string * option string) :=
  let s := oget live "subject" in
  if negb (truthy (oget s "sourceRef") && deep_eq (oget s "lane") (oget entry "lane")
           && strict_eq (oget s "prNumber") (oget entry "prNumber")) then None
  else if val_in (oget s "state") ["closed"; "merged"]
  then Some ("closed-observed", Some ("live-" +:+ to_str (oget s "state")))
  else if negb (is_str (oget s "state") "open") then None
  else if negb (strict_eq (oget s "head") (oget entry "candidate"))
  then Some ("returned-to-closer", Some "external-head-change")
  else if negb (strict_eq (oget s "baseSha") (oget entry "exactBase"))
  then Some ("rebasing", Some "external-base-change")
  else Some ("waiting-checks", None).

(** The checks of a candidate are called green only when they were read
    completely, for this very head, with the required set resolved, and either
    the rollup over all required names succeeds or a proof for this head says
    that no CI is configured where none is required and none reported. *)
Theorem checks_green_grounded (snapshot : val) :
  cd_kind (classifyQueueChecks snapshot) = "green" ->
  oget snapshot "complete" = VBool true
  /\ (exists results contexts, oget snapshot "results" = VArr results
        /\ oget (oget snapshot "requiredSet") "contexts" = VArr contexts
        /\ (forall r, In r results -> same_text (oget r "head") (oget snapshot "head") = true)
        /\ (classifyCheckRollup (VArr results) (VArr contexts) None = Some "SUCCESS"
            \/ results = [] /\ contexts = [] /\ oget (oget snapshot "noCi") "ok" = VBool true
               /\ oget (oget snapshot "noCi") "configured" = VBool true
               /\ same_text (oget (oget snapshot "noCi") "head") (oget snapshot "head") = true)).
Proof.
  unfold classifyQueueChecks. destruct (readable_checks snapshot) eqn:Er; cbn [negb]; [|done].
  unfold readable_checks in Er. apply andb_true_iff in Er as [[[[Hc _]%andb_true_iff Hctx]%andb_true_iff Hres]%andb_true_iff Hh].
  apply is_true_eq in Hc. apply negb_true_iff in Hh.
  destruct (oget snapshot "results") as [| | | | |results|] eqn:Eres; try done.
  destruct (oget (oget snapshot "requiredSet") "contexts") as [| | | | |contexts|] eqn:Ectx; try done.
  intros Hk. split; [done|]. exists results, contexts. split; [done|]. split; [done|]. split.
  { intros r Hr. pose proof (some_b_false _ _ _ Hh Hr) as Hn. by apply negb_false_iff in Hn. }
  destruct (match classifyCheckRollup _ _ _ with Some _ => _ | None => _ end); [done|].
  destruct (bool_decide _) eqn:Eb; [left; by apply bool_decide_eq_true in Eb|].
  destruct (no_ci_proof snapshot) eqn:En; [right | done].
  unfold no_ci_proof in En. rewrite Eres, Ectx in En. cbn [array_or_empty] in En.
  apply andb_true_iff in En as [[[[[H1 H2]%andb_true_iff H3]%andb_true_iff H4]%andb_true_iff H5]%andb_true_iff _].
  apply Nat.eqb_eq, nil_length_inv in H1. apply Nat.eqb_eq, nil_length_inv in H2. apply is_true_eq in H3, H4. done.
Qed.

(** While a candidate waits for its checks, the live subject decides: it
    stays only when the live head is the candidate and the live base the exact
    base; a moved head returns the entry and a moved base sends it to a rebase;
    nothing is decided on an unreadable or foreign subject. *)
Theorem subject_decision_exact (entry live : val) (phase : string) (reason : option string) :
  subjectDecision entry live = Some (phase, reason) ->
  let s := oget live "subject" in
  truthy (oget s "sourceRef") = true /\ strict_eq (oget s "prNumber") (oget entry "prNumber") = true
  /\ In phase ["closed-observed"; "returned-to-closer"; "rebasing"; "waiting-checks"]
  /\ (phase = "waiting-checks" <->
        oget s "state" = VStr "open" /\ strict_eq (oget s "head") (oget entry "candidate") = true
        /\ strict_eq (oget s "baseSha") (oget entry "exactBase") = true)
  /\ (phase = "closed-observed" <-> In (oget s "state") [VStr "closed"; VStr "merged"]).
Proof.
  unfold subjectDecision. cbv zeta. destruct (_ && _ && _) eqn:E1; cbn [negb]; [|done].
  apply andb_true_iff in E1 as [[H1 _]%andb_true_iff H2]. intros H. split; [done|]. split; [done|].
  destruct (val_in _ _) eqn:E2.
  { injection H as <- <-. apply val_in_spec in E2 as (x & Ex & Hx). rewrite Ex. simpl in Hx.
    split; [simpl; tauto|]. split; split; [done| |intros _|done].
    - intros [[= ->] _]. intuition discriminate.
    - simpl. destruct Hx as [<-|[<-|[]]]; auto. }
  assert (Hn : ~ In (oget (oget live "subject") "state") [VStr "closed"; VStr "merged"]).
  { intros [Hi|[Hi|[]]]; rewrite <- Hi in E2; done. }
  destruct (is_str _ _) eqn:E3; cbn [negb] in H; [|done]. apply is_str_eq in E3.
  destruct (strict_eq (oget _ "head") _) eqn:E4; cbn [negb] in H; [|injection H as <- <-; simpl; intuition congruence].
  destruct (strict_eq (oget _ "baseSha") _) eqn:E5; cbn [negb] in H; injection H as <- <-; simpl; intuition congruence.
Qed.

End Checks.

(** ** Concrete inputs *)

#[local] Existing Instance merge_host.

Definition ex_sha : string := "0123456789abcdef0123456789abcdef01234567".
Definition ex_lane_val : val := VObj [("repository", VStr "acme/app"); ("base", VStr "main")].
Definition ex_queue_entry : val :=
  VObj [("lane", ex_lane_val); ("prNumber", VInt 7); ("head", VStr ex_sha); ("candidate", VStr ex_sha);
        ("exactBase", VStr ex_sha)].
Definition ex_receipt : val :=
  VObj [("kind", VStr "clean"); ("input", VObj [("sourceReview", VObj [("id", VInt 11)])])].
Definition ex_subject (state head : string) : val :=
  VObj [("sourceRef", VStr "live:1"); ("lane", ex_lane_val); ("prNumber", VInt 7); ("state", VStr state);
        ("head", VStr head); ("baseSha", VStr ex_sha); ("labels", VArr [])].
Definition ex_live (verdict : string) : val :=
  VObj [("subject", ex_subject "open" ex_sha);
        ("currentReview", VObj [("complete", VBool true); ("sourceRef", VStr "review:11"); ("id", VStr "11");
           ("commitId", VStr ex_sha); ("verdict", VStr verdict); ("findings", VArr [])]);
        ("identity", VObj [("ok", VBool true); ("sourceRef", VStr "id:1")]);
        ("permission", VObj [("sourceRef", VStr "perm:1"); ("canPush", VBool true)]);
        ("structuralSourceRef", VStr "rules:1");
        ("eligibility", VObj [("mergeable", VStr "MERGEABLE"); ("mergeStateStatus", VStr "BEHIND");
           ("requiredGateContext", VStr "gate"); ("branchProtectionRequiredContexts", VArr [VStr "gate"]);
           ("primaryChange", VObj [("headSha", VStr ex_sha)])])].

Definition admitted (live : val) : Disposition :=
  match classifyQueueAdmission preserved ex_queue_entry ex_receipt live VNull with
  | Ok d => d
  | Throw _ => disposition "" ""
  end.

Definition ex_snapshot (conclusion : string) : val :=
  VObj [("complete", VBool true); ("head", VStr ex_sha);
        ("requiredSet", VObj [("version", VStr "v1"); ("contexts", VArr [VStr "build"])]);
        ("results", VArr [VObj [("name", VStr "build"); ("status", VStr "COMPLETED"); ("conclusion", VStr conclusion);
                                ("head", VStr ex_sha); ("startedAt", VStr "2024-01-01T00:00:00Z")]])].

Example admission_examples :
  (d_phase (admitted (ex_live "settled-success")), d_reason (admitted (ex_live "request-changes")),
   map (fun c => cd_kind (classifyQueueChecks (ex_snapshot c))) ["SUCCESS"; "FAILURE"; ""],
   subjectDecision ex_queue_entry (VObj [("subject", ex_subject "merged" ex_sha)]),
   subjectDecision ex_queue_entry (VObj [("subject", ex_subject "open" "other")]))
  = ("ready", VStr "current-head-review-not-clean", ["green"; "red"; "wait"],
     Some ("closed-observed", Some "live-merged"), Some ("returned-to-closer", Some "external-head-change")).
Proof. vm_compute. reflexivity. Qed.

Lemma admission_ready_grounded_witness :
  truthy ex_receipt = true.
Proof.
  refine (proj1 (proj2 (admission_ready_grounded preserved ex_queue_entry ex_receipt (ex_live "settled-success") VNull
    (admitted (ex_live "settled-success")) _ _))); vm_compute; reflexivity.
Defined.

Lemma checks_green_grounded_witness :
  oget (ex_snapshot "SUCCESS") "complete" = VBool true.
Proof. refine (proj1 (checks_green_grounded (ex_snapshot "SUCCESS") _)). vm_compute. reflexivity. Defined.

Lemma subject_decision_exact_witness :
  In "waiting-checks" ["closed-observed"; "returned-to-closer"; "rebasing"; "waiting-checks"].
Proof.
  refine (proj1 (proj2 (proj2 (subject_decision_exact ex_queue_entry
    (VObj [("subject", ex_subject "open" ex_sha)]) "waiting-checks" None _)))).
  vm_compute. reflexivity.
Defined.
