(* ===== verification/JsText.v ===== *)
(** * Texts as UTF-16 code units

    The parsers of review markdown work on offsets, code unit counts and
    character classes, so they use the representation of the language itself: a
    text is the list of its UTF-16 code units. This file has the string methods
    those parsers call and the facts about them; [JsRegExp] has the regular
    expressions. As in [Prelude], case mapping is that of the ASCII letters. *)

From Stdlib Require Import ZArith Lia ZifyBool ZifyN Ascii.
From stdpp Require Import base list strings.
From S2P Require Import Prelude.

Abbreviation text := (list N).

(** An ASCII literal, and the ASCII reading of a text. *)
Definition T (s : string) : text := map N_of_ascii (String.list_ascii_of_string s).
Definition to_string (t : text) : string := String.string_of_list_ascii (map ascii_of_N t).

(** The UTF-16 code units of a string held as UTF-8 bytes; a malformed sequence
    reads as the replacement character. *)
Definition surrogates (c : N) : text :=
  if (c <? 65536)%N then [c] else [(55296 + (c - 65536) / 1024)%N; (56320 + (c - 65536) mod 1024)%N].
Definition continuation (c : N) : bool := (128 <=? c)%N && (c <? 192)%N.
(** What a byte at the start of a sequence emits, how many continuation bytes
    it announces, and the bits it carries. *)
Definition lead (b : N) : text * nat * N :=
  if (b <? 128)%N then ([b], 0, 0%N)
  else if (b <? 192)%N then ([65533%N], 0, 0%N)
  else if (b <? 224)%N then ([], 1, (b - 192)%N)
  else if (b <? 240)%N then ([], 2, (b - 224)%N)
  else if (b <? 248)%N then ([], 3, (b - 240)%N)
  else ([65533%N], 0, 0%N).
Fixpoint utf16_bytes (need : nat) (acc : N) (bs : list N) : text :=
  match bs with
  | [] => match need with O => [] | _ => [65533%N] end
  | b :: r =>
      let start bad := let '(out, n, a) := lead b in bad ++ out ++ utf16_bytes n a r in
      match need with
      | O => start []
      | S n =>
          if continuation b then
            let a := (acc * 64 + (b - 128))%N in
            match n with O => surrogates a ++ utf16_bytes 0 0 r | _ => utf16_bytes n a r end
          else start [65533%N]
      end
  end.
Definition utf16 (s : string) : text := utf16_bytes 0 0 (T s).

(** The UTF-8 bytes of a text; a lone surrogate is written as the replacement character. *)
Definition utf8_code (c : N) : list N :=
  if (c <? 128)%N then [c]
  else if (c <? 2048)%N then [(192 + c / 64)%N; (128 + c mod 64)%N]
  else if (c <? 65536)%N then [(224 + c / 4096)%N; (128 + c / 64 mod 64)%N; (128 + c mod 64)%N]
  else [(240 + c / 262144)%N; (128 + c / 4096 mod 64)%N; (128 + c / 64 mod 64)%N; (128 + c mod 64)%N].
Definition is_high (c : N) : bool := (55296 <=? c)%N && (c <=? 56319)%N.
Definition is_low (c : N) : bool := (56320 <=? c)%N && (c <=? 57343)%N.
Fixpoint utf8_units (t : text) : list N :=
  match t with
  | [] => []
  | c :: t' =>
      match t' with
      | d :: t'' =>
          if is_high c && is_low d
          then utf8_code (65536 + (c - 55296) * 1024 + (d - 56320))%N ++ utf8_units t''
          else utf8_code (if is_high c || is_low c then 65533%N else c) ++ utf8_units t'
      | [] => utf8_code (if is_high c || is_low c then 65533%N else c)
      end
  end.
Definition utf8 (t : text) : string := to_string (utf8_units t).
(** [s] is a string as it is held: reading and writing it changes nothing. *)
Example utf8_utf16 :
  map (fun bs => utf8 (utf16_bytes 0 0 bs))
    [[72%N; 105%N]; [195%N; 169%N]; [226%N; 128%N; 147%N]; [240%N; 159%N; 146%N; 169%N]]
  = map (fun bs => to_string bs) [[72%N; 105%N]; [195%N; 169%N]; [226%N; 128%N; 147%N]; [240%N; 159%N; 146%N; 169%N]].
Proof. vm_compute. reflexivity. Qed.

Definition between (lo hi c : N) : bool := (lo <=? c)%N && (c <=? hi)%N.

Definition NL : N := 10.
Definition CR : N := 13.
Definition SP : N := 32.

(** [\d], [\w], WhiteSpace with LineTerminator ([\s], [trim]), LineTerminator. *)
Definition is_digit (c : N) : bool := between 48 57 c.
Definition is_word (c : N) : bool := is_digit c || between 65 90 c || between 97 122 c || (c =? 95)%N.
Definition is_space (c : N) : bool :=
  between 9 13 c || (c =? 32)%N || (c =? 160)%N || (c =? 5760)%N || between 8192 8202 c
  || between 8232 8233 c || (c =? 8239)%N || (c =? 8287)%N || (c =? 12288)%N || (c =? 65279)%N.
Definition is_line_end (c : N) : bool := (c =? 10)%N || (c =? 13)%N || between 8232 8233 c.

(** [c.toLowerCase()], [c.toUpperCase()] on the ASCII letters. *)
Definition lower_unit (c : N) : N := if between 65 90 c then (c + 32)%N else c.
Definition upper_unit (c : N) : N := if between 97 122 c then (c - 32)%N else c.
Definition tlower (t : text) : text := map lower_unit t.

(** [t === u], [t.startsWith(p)], [t.slice(a, b)] for offsets within [t]. *)
Definition teqb (t u : text) : bool := bool_decide (t = u).
Fixpoint tstarts (p t : text) : bool :=
  match p, t with
  | [], _ => true
  | c :: p', d :: t' => (c =? d)%N && tstarts p' t'
  | _ :: _, [] => false
  end.
Definition slice (a b : nat) (t : text) : text := take (b - a) (drop a t).
Definition t_in (t : text) (l : list text) : bool := existsb (teqb t) l.

(** [t.trim()]. *)
Fixpoint drop_space (t : text) : text :=
  match t with c :: t' => if is_space c then drop_space t' else t | [] => [] end.
Definition ttrim (t : text) : text := rev (drop_space (rev (drop_space t))).

(** [t.split(sep)] for a one-unit separator, [lines.join(sep)]. *)
Fixpoint tsplit (sep : N) (t : text) : list text :=
  match t with
  | [] => [[]]
  | c :: t' =>
      if (c =? sep)%N then [] :: tsplit sep t'
      else match tsplit sep t' with [] => [[c]] | w :: ws => (c :: w) :: ws end
  end.
Definition lines (t : text) : list text := tsplit NL t.
Fixpoint tjoin (sep : text) (l : list text) : text :=
  match l with [] => [] | [w] => w | w :: l' => w ++ sep ++ tjoin sep l' end.
Definition unlines (l : list text) : text := tjoin [NL] l.

(** [array.filter(Boolean)] on texts, [text || null]. *)
Definition nonblank (t : text) : bool := match t with [] => false | _ => true end.

(** ** Facts *)

Lemma teqb_eq t u : teqb t u = true <-> t = u.
Proof. apply bool_decide_eq_true. Qed.

Lemma t_in_In t l : t_in t l = true <-> In t l.
Proof.
  unfold t_in. rewrite existsb_exists. split.
  - intros (x & Hx & ->%teqb_eq). done.
  - intros H. exists t. split; [done | by apply teqb_eq].
Qed.

Lemma tstarts_app p t : tstarts p (p ++ t) = true.
Proof. induction p as [|c p IH]; simpl; [done|]. by rewrite N.eqb_refl. Qed.

Lemma tstarts_split p t : tstarts p t = true -> exists u, t = p ++ u.
Proof.
  revert t. induction p as [|c p IH]; intros t; simpl; [by exists t|].
  destruct t as [|d t]; [done|]. intros [->%N.eqb_eq H]%andb_true_iff.
  destruct (IH _ H) as [u ->]. by exists u.
Qed.

Lemma tsplit_nil sep t : tsplit sep t <> [].
Proof. destruct t as [|c t]; simpl; [done|]. destruct (c =? sep)%N; [done|]. by destruct (tsplit sep t). Qed.

(** Joining undoes splitting. *)
Lemma tjoin_tsplit sep t : tjoin [sep] (tsplit sep t) = t.
Proof.
  induction t as [|c t IH]; [done|]. simpl. destruct (c =? sep)%N eqn:E.
  - apply N.eqb_eq in E as ->. pose proof (tsplit_nil sep t).
    destruct (tsplit sep t) as [|w ws]; [done|]. simpl. f_equal. exact IH.
  - pose proof (tsplit_nil sep t). destruct (tsplit sep t) as [|w ws]; [done|].
    destruct ws; simpl in *; by rewrite IH.
Qed.

Lemma tsplit_sep_free sep t w : In w (tsplit sep t) -> ~ In sep w.
Proof.
  revert w. induction t as [|c t IH]; simpl; intros w; [intros [<-|[]]; simpl; tauto|].
  destruct (c =? sep)%N eqn:E.
  - intros [<-|H]; [simpl; tauto | by apply IH].
  - apply N.eqb_neq in E. destruct (tsplit sep t) as [|v vs]; simpl.
    + intros [<-|[]]. simpl. intuition.
    + intros [<-|H]; [|apply IH; by right]. simpl. intros [->|Hin]; [done|]. apply (IH v); [by left | done].
Qed.

(** Splitting undoes joining when no piece holds the separator. *)
Lemma tsplit_cons sep w t : ~ In sep w -> tsplit sep (w ++ sep :: t) = w :: tsplit sep t.
Proof.
  induction w as [|c w IH]; intros H; simpl; [by rewrite N.eqb_refl|].
  destruct (c =? sep)%N eqn:E; [apply N.eqb_eq in E; subst; simpl in H; tauto|].
  rewrite IH; [done|]. simpl in H. tauto.
Qed.

Lemma tsplit_one sep w : ~ In sep w -> tsplit sep w = [w].
Proof.
  induction w as [|c w IH]; intros H; simpl; [done|].
  destruct (c =? sep)%N eqn:E; [apply N.eqb_eq in E; subst; simpl in H; tauto|].
  rewrite IH; [done|]. simpl in H. tauto.
Qed.

Lemma tsplit_tjoin sep l :
  l <> [] -> (forall w, In w l -> ~ In sep w) -> tsplit sep (tjoin [sep] l) = l.
Proof.
  induction l as [|w l IH]; [done|]. intros _ H. destruct l as [|v l].
  - simpl. apply tsplit_one, H. by left.
  - change (tjoin [sep] (w :: v :: l)) with (w ++ sep :: tjoin [sep] (v :: l)).
    rewrite tsplit_cons by (apply H; by left). f_equal. apply IH; [done|]. intros x Hx. apply H. by right.
Qed.

Lemma length_tjoin sep l l' :
  map length l = map length l' -> length (tjoin sep l) = length (tjoin sep l').
Proof.
  revert l'. induction l as [|w l IH]; intros [|w' l']; try done. intros [= Hw Hl].
  destruct l as [|v l], l' as [|v' l']; try done.
  change (length (w ++ sep ++ tjoin sep (v :: l)) = length (w' ++ sep ++ tjoin sep (v' :: l'))).
  rewrite !length_app, Hw. f_equal. f_equal. by apply IH.
Qed.

(** Trimming. *)
Lemma drop_space_idem t : drop_space (drop_space t) = drop_space t.
Proof. induction t as [|c t IH]; simpl; [done|]. destruct (is_space c) eqn:E; [done|]. simpl. by rewrite E. Qed.

Lemma drop_space_head t c u : drop_space t = c :: u -> is_space c = false.
Proof. induction t as [|d t IH]; simpl; [done|]. destruct (is_space d) eqn:E; [done|]. by intros [= -> ->]. Qed.

Lemma drop_space_app_ns t c : is_space c = false -> drop_space (t ++ [c]) = drop_space t ++ [c].
Proof. intros E. induction t as [|d t IH]; simpl; [by rewrite E|]. by destruct (is_space d). Qed.

Lemma drop_space_suffix t : exists w, t = w ++ drop_space t /\ forall c, In c w -> is_space c = true.
Proof.
  induction t as [|c t IH]; [by exists []|]. simpl. destruct (is_space c) eqn:E.
  - destruct IH as (w & Hw & Hs). exists (c :: w). split; [simpl; by f_equal|]. intros d [<-|Hd]; auto.
  - exists []. split; [done|]. by intros ? [].
Qed.

Lemma ttrim_head t c u : ttrim t = c :: u -> is_space c = false.
Proof.
  unfold ttrim. destruct (drop_space t) as [|d v] eqn:E; [done|]. apply drop_space_head in E.
  simpl. rewrite drop_space_app_ns by done. rewrite rev_app_distr. simpl. by intros [= <- _].
Qed.

Lemma ttrim_last t c u : ttrim t = u ++ [c] -> is_space c = false.
Proof.
  unfold ttrim. intros H. apply (f_equal (@rev N)) in H. rewrite rev_involutive, rev_app_distr in H.
  by apply drop_space_head in H.
Qed.

Definition trimmed (t : text) : Prop :=
  (forall c u, t = c :: u -> is_space c = false) /\ (forall c u, t = u ++ [c] -> is_space c = false).

Lemma ttrim_trimmed t : trimmed (ttrim t).
Proof. split; intros c u H; [by apply ttrim_head in H | by apply ttrim_last in H]. Qed.

Lemma drop_space_id t : (forall c u, t = c :: u -> is_space c = false) -> drop_space t = t.
Proof. destruct t as [|c t]; simpl; [done|]. intros H. by rewrite (H c t eq_refl). Qed.

Lemma ttrim_id t : trimmed t -> ttrim t = t.
Proof.
  intros [Hh Hl]. unfold ttrim. rewrite (drop_space_id t Hh). rewrite drop_space_id; [apply rev_involutive|].
  intros c u E. apply (Hl c (rev u)). apply (f_equal (@rev N)) in E. rewrite rev_involutive in E. by rewrite E.
Qed.

Lemma ttrim_idem t : ttrim (ttrim t) = ttrim t.
Proof. apply ttrim_id, ttrim_trimmed. Qed.

Lemma ttrim_In t c : In c (ttrim t) -> In c t.
Proof.
  unfold ttrim. intros H%in_rev. destruct (drop_space_suffix (rev (drop_space t))) as (w & E & _).
  assert (Hc : In c (rev (drop_space t))) by (rewrite E; apply in_or_app; by right).
  apply in_rev in Hc. destruct (drop_space_suffix t) as (w' & E' & _). rewrite E'. apply in_or_app. by right.
Qed.

(** Case mapping. *)
Lemma lower_unit_idem c : lower_unit (lower_unit c) = lower_unit c.
Proof.
  unfold lower_unit. destruct (between 65 90 c) eqn:E; [|by rewrite E].
  destruct (between 65 90 (c + 32)) eqn:E'; [|done]. unfold between in *. lia.
Qed.

Lemma is_space_lower c : is_space (lower_unit c) = is_space c.
Proof.
  unfold lower_unit. destruct (between 65 90 c) eqn:E; [|done].
  assert (Hns : forall d, (64 < d < 123)%N -> is_space d = false)
    by (intros d Hd; apply not_true_iff_false; unfold is_space, between; lia).
  unfold between in E. rewrite !Hns by lia. done.
Qed.

Lemma tlower_idem t : tlower (tlower t) = tlower t.
Proof. unfold tlower. rewrite map_map. apply map_ext, lower_unit_idem. Qed.

Lemma tlower_trimmed t : trimmed t -> trimmed (tlower t).
Proof.
  intros [Hh Hl]. split; intros c u E; unfold tlower in E.
  - destruct t as [|d t]; [done|]. injection E as <- _. rewrite is_space_lower. by apply (Hh d t).
  - destruct t as [|d t] using rev_ind; [by destruct u|]. rewrite map_app in E. simpl in E.
    apply app_inj_tail in E as [_ <-]. rewrite is_space_lower. by apply (Hl d t).
Qed.

(** Parts of texts. *)
Lemma infix_trim t : exists p s, t = p ++ ttrim t ++ s /\ forallb is_space p = true.
Proof.
  destruct (drop_space_suffix t) as (p & Hp & Hs). destruct (drop_space_suffix (rev (drop_space t))) as (q & Hq & _).
  exists p, (rev q). split; [|by apply forallb_forall].
  unfold ttrim. rewrite Hp at 1. f_equal. rewrite <- rev_app_distr, <- Hq. by rewrite rev_involutive.
Qed.

Lemma drop_space_all t : forallb is_space t = true -> drop_space t = [].
Proof. induction t as [|c t IH]; simpl; [done|]. by destruct (is_space c). Qed.

Lemma ttrim_spaces t : nonblank (ttrim t) = false <-> forallb is_space t = true.
Proof.
  destruct (infix_trim t) as (p & s & E & Hp). split.
  - intros H. destruct (drop_space_suffix t) as (q & Hq & Hs). unfold ttrim in H.
    destruct (rev (drop_space (rev (drop_space t)))) as [|] eqn:Er; [|done].
    apply (f_equal (@rev N)) in Er. rewrite rev_involutive in Er. simpl in Er.
    destruct (drop_space_suffix (rev (drop_space t))) as (w & Hw & Hws). rewrite Er, app_nil_r in Hw.
    rewrite Hq. apply forallb_forall. intros c [Hc|Hc]%in_app_or; [auto|]. apply Hws. rewrite <- Hw. by apply in_rev in Hc.
  - intros H. unfold ttrim. by rewrite (drop_space_all t H).
Qed.
