(* ===== verification/JsRegExp.v ===== *)
(** * Regular expressions of the language

    The patterns the review parsers use, as terms, with the backtracking matcher
    the language specification gives them (ECMA-262, Pattern Semantics): greedy
    and lazy repetition with its bounds and its check against empty iterations,
    groups, assertions and case folding. The matcher is a function; [runs] is the
    relation it decides, and [mtch_rep] is the equation of a repetition, free of
    the fuel the definition recurses on. *)

From Stdlib Require Import ZArith Lia ZifyBool ZifyN Ascii.
From stdpp Require Import base list strings.
From S2P Require Import Prelude JsText.

Create HintDb regexp.

(** ** Patterns *)

Inductive citem :=
| CRange (lo hi : N)
| CSpace
| CDigit
| CWord.

Inductive re :=
| Eps
| Cls (negated : bool) (items : list citem)
| Seq (a b : re)
| Alt (a b : re)
| Rep (min : nat) (max : option nat) (greedy : bool) (a : re)
| Grp (n : nat) (a : re)
| Bol
| Eol
| Wb
| Look (a : re)
| Back (n : nat).

(** A pattern with its flags [i] and [m]. *)
Record regex := { pattern : re; icase : bool; multiline : bool }.

Definition chr (c : N) : re := Cls false [CRange c c].
Definition str (s : string) : re := fold_right (fun c r => Seq (chr c) r) Eps (T s).
Definition oneof (s : string) : list citem := map (fun c => CRange c c) (T s).
Definition star (a : re) : re := Rep 0 None true a.
Definition plus (a : re) : re := Rep 1 None true a.
Definition opt (a : re) : re := Rep 0 (Some 1) true a.
Definition lazy_star (a : re) : re := Rep 0 None false a.
Definition lazy_plus (a : re) : re := Rep 1 None false a.
(** [.], [\s], [\S], [[ \t]] and its repetition. *)
Definition dot : re := Cls true [CRange 10 10; CRange 13 13; CRange 8232 8233].
Definition space : re := Cls false [CSpace].
Definition nonspace : re := Cls true [CSpace].
Definition blank : re := Cls false [CRange 32 32; CRange 9 9].
Definition blanks : re := star blank.

Fixpoint seqs (l : list re) : re := match l with [] => Eps | [a] => a | a :: l' => Seq a (seqs l') end.
Fixpoint alts (l : list re) : re := match l with [] => Cls false [] | [a] => a | a :: l' => Alt a (alts l') end.

(** ** Positions *)

(** The unit before the position, the text after it, its offset, the groups. *)
Record pos := { before : option N; rest : text; at_ : nat; caps : list (nat * text) }.

Definition in_item (i : citem) (c : N) : bool :=
  match i with
  | CRange lo hi => between lo hi c
  | CSpace => is_space c
  | CDigit => is_digit c
  | CWord => is_word c
  end.

(** Membership in a class; under [i], up to the case of ASCII letters. *)
Definition in_items (ic : bool) (items : list citem) (c : N) : bool :=
  existsb (fun i => in_item i c || ic && (in_item i (lower_unit c) || in_item i (upper_unit c))) items.
Definition in_cls (ic neg : bool) (items : list citem) (c : N) : bool := xorb neg (in_items ic items c).

Definition bol (ml : bool) (x : pos) : bool :=
  match before x with None => true | Some c => ml && is_line_end c end.
Definition eol (ml : bool) (x : pos) : bool :=
  match rest x with [] => true | c :: _ => ml && is_line_end c end.
Definition word_boundary (x : pos) : bool :=
  xorb match before x with None => false | Some c => is_word c end
       match rest x with [] => false | c :: _ => is_word c end.

Fixpoint groups (r : re) : list nat :=
  match r with
  | Seq a b | Alt a b => groups a ++ groups b
  | Rep _ _ _ a => groups a
  | Grp n a => n :: groups a
  | _ => []
  end.
Definition clear_caps (gs : list nat) (x : pos) : pos :=
  {| before := before x; rest := rest x; at_ := at_ x;
     caps := filter_b (fun g => negb (existsb (Nat.eqb (fst g)) gs)) (caps x) |}.
Definition capture (n : nat) (x y : pos) : pos :=
  {| before := before y; rest := rest y; at_ := at_ y;
     caps := (n, take (at_ y - at_ x) (rest x)) :: caps y |}.
Definition advance (c : N) (t : text) (x : pos) : pos :=
  {| before := Some c; rest := t; at_ := S (at_ x); caps := caps x |}.
(** A lookahead keeps the position. Its groups are dropped: no pattern has one there. *)

(** The position after reading [w], compared up to ASCII case under [ic]. *)
Fixpoint skip (ic : bool) (w : text) (x : pos) : option pos :=
  match w with
  | [] => Some x
  | c :: w =>
      match rest x with
      | d :: t => if (c =? d)%N || ic && (lower_unit c =? lower_unit d)%N then skip ic w (advance d t x) else None
      | [] => None
      end
  end.
(** What a back reference repeats: nothing, if the group has not matched. *)
Definition captured (n : nat) (x : pos) : text :=
  default [] (option_map snd (find_b (fun g => Nat.eqb (fst g) n) (caps x))).

(** ** The matcher *)

Definition cont := pos -> option pos.

(** RepeatMatcher: one iteration, and what follows it. *)
Definition rep_step (m : cont -> cont) (greedy : bool) (gs : list nat) (min : nat) (max : option nat)
    (next : cont) (k : cont) (x : pos) : option pos :=
  match max with
  | Some O => k x
  | _ =>
      let d y := if Nat.eqb min 0 && Nat.eqb (at_ y) (at_ x) then None else next y in
      let xr := clear_caps gs x in
      if negb (Nat.eqb min 0) then m d xr
      else if greedy then match m d xr with Some z => Some z | None => k x end
      else match k x with Some z => Some z | None => m d xr end
  end.

Fixpoint rep (m : cont -> cont) (greedy : bool) (gs : list nat) (fuel : nat)
    (min : nat) (max : option nat) (k : cont) (x : pos) {struct fuel} : option pos :=
  match fuel with
  | O => None
  | S fuel => rep_step m greedy gs min max (rep m greedy gs fuel (pred min) (option_map pred max) k) k x
  end.

Definition rep_fuel (min : nat) (x : pos) : nat := S (min + length (rest x)).

Section Matcher.
Context (ic ml : bool).

Fixpoint mtch (r : re) (k : cont) (x : pos) {struct r} : option pos :=
  match r with
  | Eps => k x
  | Cls neg items =>
      match rest x with
      | c :: t => if in_cls ic neg items c then k (advance c t x) else None
      | [] => None
      end
  | Seq a b => mtch a (mtch b k) x
  | Alt a b => match mtch a k x with Some z => Some z | None => mtch b k x end
  | Rep min max greedy a => rep (mtch a) greedy (groups a) (rep_fuel min x) min max k x
  | Grp n a => mtch a (fun y => k (capture n x y)) x
  | Bol => if bol ml x then k x else None
  | Eol => if eol ml x then k x else None
  | Wb => if word_boundary x then k x else None
  | Look a => match mtch a Some x with Some _ => k x | None => None end
  | Back n => match skip ic (captured n x) x with Some y => k y | None => None end
  end.
End Matcher.

(** ** [exec], [test], [search], [matchAll], [replace] *)

Record found := { m_index : nat; m_end : nat; m_text : text; m_caps : list (nat * text) }.

(** [match[n]], with [None] for [undefined]. *)
Definition group (m : found) (n : nat) : option text :=
  option_map snd (find_b (fun g => Nat.eqb (fst g) n) (m_caps m)).
Definition group_or_empty (m : found) (n : nat) : text := default [] (group m n).

Definition match_at (r : regex) (b : option N) (t : text) (i : nat) : option pos :=
  mtch (icase r) (multiline r) (pattern r) Some {| before := b; rest := t; at_ := i; caps := [] |}.

(** The first match at or after the position. *)
Fixpoint scan (r : regex) (b : option N) (t : text) (i : nat) : option (found * pos) :=
  match match_at r b t i with
  | Some y => Some ({| m_index := i; m_end := at_ y; m_text := take (at_ y - i) t; m_caps := caps y |}, y)
  | None => match t with [] => None | c :: t' => scan r (Some c) t' (S i) end
  end.

Definition exec (r : regex) (t : text) : option found := option_map fst (scan r None t 0).
Definition test (r : regex) (t : text) : bool := match exec r t with Some _ => true | None => false end.
(** [t.search(r)], with [None] for [-1]. *)
Definition search (r : regex) (t : text) : option nat := option_map m_index (exec r t).

(** [exec] with [lastIndex] at an offset of the text. *)
Definition exec_from (r : regex) (t : text) (i : nat) : option found :=
  option_map fst (scan r (match i with O => None | S j => t !! j end) (drop i t) i).

(** [t.matchAll(r)]: after an empty match the search advances by one unit. *)
Fixpoint all_from (fuel : nat) (r : regex) (b : option N) (t : text) (i : nat) : list found :=
  match fuel with
  | O => []
  | S fuel =>
      match scan r b t i with
      | None => []
      | Some (m, y) =>
          m :: (if Nat.eqb (m_end m) (m_index m) then
                  match rest y with c :: t' => all_from fuel r (Some c) t' (S (at_ y)) | [] => [] end
                else all_from fuel r (before y) (rest y) (at_ y))
      end
  end.
Definition matchAll (r : regex) (t : text) : list found := all_from (S (length t)) r None t 0.

(** The text with the given matches replaced. *)
Fixpoint splice (t : text) (i : nat) (ms : list found) (f : found -> text) : text :=
  match ms with
  | [] => drop i t
  | m :: ms => slice i (m_index m) t ++ f m ++ splice t (m_end m) ms f
  end.
(** [t.replace(r, f)] without and with the flag [g]. *)
Definition replace (r : regex) (f : found -> text) (t : text) : text :=
  match exec r t with Some m => splice t 0 [m] f | None => t end.
Definition replace_all (r : regex) (f : found -> text) (t : text) : text := splice t 0 (matchAll r t) f.

(** ** Positions a match can reach *)

Definition last_before (b : option N) (w : text) : option N :=
  match last w with Some c => Some c | None => b end.

(** [y] is [x] after reading [w]; groups aside. *)
Definition reads (w : text) (x y : pos) : Prop :=
  rest x = w ++ rest y /\ at_ y = at_ x + length w /\ before y = last_before (before x) w.
Definition after (x y : pos) : Prop := exists w, reads w x y.

Lemma last_before_app b w w' : last_before b (w ++ w') = last_before (last_before b w) w'.
Proof. unfold last_before. rewrite last_app. by destruct (last w'). Qed.

Lemma reads_nil x y : reads [] x y <-> rest y = rest x /\ at_ y = at_ x /\ before y = before x.
Proof. unfold reads, last_before. simpl. rewrite Nat.add_0_r. intuition. Qed.

Lemma reads_refl x : reads [] x x.
Proof. by apply reads_nil. Qed.

Lemma reads_trans w w' x y z : reads w x y -> reads w' y z -> reads (w ++ w') x z.
Proof.
  intros (E & A & B) (E' & A' & B'). split; [by rewrite E, E', (assoc_L (++))|].
  split; [rewrite length_app; lia|]. by rewrite B', B, last_before_app.
Qed.

Lemma reads_one c t x : rest x = c :: t -> reads [c] x (advance c t x).
Proof. intros E. unfold reads. simpl. rewrite E. split; [done|]. split; [lia | done]. Qed.

Lemma after_refl x : after x x.
Proof. exists []. apply reads_refl. Qed.
Lemma after_trans x y z : after x y -> after y z -> after x z.
Proof. intros [w H] [w' H']. exists (w ++ w'). by eapply reads_trans. Qed.
Lemma after_one c t x : rest x = c :: t -> after x (advance c t x).
Proof. intros E. exists [c]. by apply reads_one. Qed.
Lemma after_clear gs x : after x (clear_caps gs x).
Proof. exists []. by apply reads_nil. Qed.
Lemma after_capture n x y : after y (capture n x y).
Proof. exists []. by apply reads_nil. Qed.
#[export] Hint Resolve after_refl after_one after_clear after_capture : regexp.

Lemma after_moved x y : after x y -> at_ y <> at_ x -> length (rest y) < length (rest x).
Proof.
  intros [w (E & A & _)] Hne. rewrite E, length_app. destruct w as [|c w]; simpl in *; lia.
Qed.
Lemma after_rest x y : after x y -> length (rest y) <= length (rest x).
Proof. intros [w (E & _)]. rewrite E, length_app. lia. Qed.

Lemma skip_after ic w x y : skip ic w x = Some y -> after x y.
Proof.
  revert x. induction w as [|c w IH]; intros x; simpl; [intros [= <-]; auto with regexp|].
  destruct (rest x) as [|d t] eqn:E; [done|]. destruct (_ || _); [|done]. intros H%IH.
  eapply after_trans; [by apply after_one | done].
Qed.
#[export] Hint Resolve skip_after : regexp.

(** ** The matcher depends on its continuation at reachable positions only *)

Definition local (m : cont -> cont) : Prop :=
  forall k k' x, (forall y, after x y -> k y = k' y) -> m k x = m k' x.

Lemma rep_step_ext m greedy gs min max next next' k k' x :
  local m -> k x = k' x ->
  (forall y, after x y -> (min = 0 -> at_ y <> at_ x) -> next y = next' y) ->
  rep_step m greedy gs min max next k x = rep_step m greedy gs min max next' k' x.
Proof.
  intros Hm Hk Hn. unfold rep_step.
  assert (Hd : m (fun y => if Nat.eqb min 0 && Nat.eqb (at_ y) (at_ x) then None else next y) (clear_caps gs x)
    = m (fun y => if Nat.eqb min 0 && Nat.eqb (at_ y) (at_ x) then None else next' y) (clear_caps gs x)).
  { apply Hm. intros y Hy. destruct (Nat.eqb min 0 && Nat.eqb (at_ y) (at_ x)) eqn:E; [done|].
    apply Hn; [by eapply after_trans; [apply after_clear|]|]. intros ->. simpl in E. by apply Nat.eqb_neq. }
  by rewrite Hd, Hk.
Qed.

Lemma rep_local m greedy gs fuel min max : local m -> local (rep m greedy gs fuel min max).
Proof.
  intros Hm. revert min max. induction fuel as [|fuel IH]; intros min max k k' x Hk; [done|].
  apply rep_step_ext; [done | auto with regexp|]. intros y Hy _. apply IH. intros z Hz. apply Hk.
  by eapply after_trans.
Qed.

Lemma mtch_local ic ml r : local (mtch ic ml r).
Proof.
  induction r as [|neg items|a IHa b IHb|a IHa b IHb|min max greedy a IHa|n a IHa| | | |a IHa|n];
    intros k k' x Hk; cbn [mtch].
  - auto with regexp.
  - destruct (rest x) as [|c t] eqn:E; [done|]. destruct (in_cls _ _ _ _); auto with regexp.
  - apply IHa. intros y Hy. apply IHb. intros z Hz. apply Hk. by eapply after_trans.
  - by rewrite (IHa k k' x Hk), (IHb k k' x Hk).
  - by apply rep_local.
  - apply IHa. intros y Hy. apply Hk. eapply after_trans; [done | auto with regexp].
  - destruct (bol ml x); auto with regexp.
  - destruct (eol ml x); auto with regexp.
  - destruct (word_boundary x); auto with regexp.
  - destruct (mtch ic ml a Some x); auto with regexp.
  - destruct (skip ic (captured n x) x) eqn:E; eauto with regexp.
Qed.

(** Enough fuel: past one step per remaining unit and per mandatory iteration,
    more of it changes nothing. *)
Lemma rep_enough m greedy gs fuel fuel' min max k x :
  local m -> rep_fuel min x <= fuel -> rep_fuel min x <= fuel' ->
  rep m greedy gs fuel min max k x = rep m greedy gs fuel' min max k x.
Proof.
  unfold rep_fuel. intros Hm. revert fuel' min max k x.
  induction fuel as [|fuel IH]; intros [|fuel'] min max k x H1 H2; [lia|lia|lia|].
  apply rep_step_ext; [done|done|]. intros y Hy Hne. pose proof (after_rest _ _ Hy).
  assert (pred min + length (rest y) < min + length (rest x)).
  { destruct min; [|simpl; lia]. simpl. apply after_moved; auto. }
  apply IH; lia.
Qed.

(** The equation of a repetition. *)
Lemma mtch_rep ic ml min max greedy a k x :
  mtch ic ml (Rep min max greedy a) k x =
    rep_step (mtch ic ml a) greedy (groups a) min max
      (mtch ic ml (Rep (pred min) (option_map pred max) greedy a) k) k x.
Proof.
  cbn [mtch]. unfold rep_fuel at 1. apply rep_step_ext; [apply mtch_local | done|].
  intros y Hy Hne. pose proof (after_rest _ _ Hy).
  apply rep_enough; [apply mtch_local| |done]. unfold rep_fuel.
  destruct min; [|simpl; lia]. simpl. apply after_moved; auto.
Qed.

(** ** What a pattern matches, as a relation *)

Section Runs.
Context (ic ml : bool).

Inductive runs : re -> pos -> pos -> Prop :=
| runs_eps x : runs Eps x x
| runs_cls neg items x c t :
    rest x = c :: t -> in_cls ic neg items c = true -> runs (Cls neg items) x (advance c t x)
| runs_seq a b x y z : runs a x y -> runs b y z -> runs (Seq a b) x z
| runs_alt_l a b x y : runs a x y -> runs (Alt a b) x y
| runs_alt_r a b x y : runs b x y -> runs (Alt a b) x y
| runs_rep_stop min max greedy a x : (min = 0 \/ max = Some 0) -> runs (Rep min max greedy a) x x
| runs_rep_more min max greedy a x y z :
    max <> Some 0 -> runs a (clear_caps (groups a) x) y -> (min = 0 -> at_ y <> at_ x) ->
    runs (Rep (pred min) (option_map pred max) greedy a) y z -> runs (Rep min max greedy a) x z
| runs_grp n a x y : runs a x y -> runs (Grp n a) x (capture n x y)
| runs_bol x : bol ml x = true -> runs Bol x x
| runs_eol x : eol ml x = true -> runs Eol x x
| runs_wb x : word_boundary x = true -> runs Wb x x
| runs_look a x y : runs a x y -> runs (Look a) x x
| runs_back n x y : skip ic (captured n x) x = Some y -> runs (Back n) x y.

Lemma runs_after r x y : runs r x y -> after x y.
Proof.
  induction 1; eauto using after_trans with regexp.
Qed.

(** The body of a repetition run within fuel. *)
Lemma rep_sound m a greedy fuel min max k x z :
  (forall k x z, m k x = Some z -> exists y, runs a x y /\ k y = Some z) ->
  rep m greedy (groups a) fuel min max k x = Some z ->
  exists y, runs (Rep min max greedy a) x y /\ k y = Some z.
Proof.
  intros Hm. revert min max k x z. induction fuel as [|fuel IH]; intros min max k x z H; [done|].
  cbn [rep] in H. unfold rep_step in H.
  assert (Hstop : (min = 0 \/ max = Some 0) -> k x = Some z ->
    exists y, runs (Rep min max greedy a) x y /\ k y = Some z).
  { intros Hs Hk. exists x. split; [by apply runs_rep_stop | done]. }
  assert (Hmore : max <> Some 0 ->
    m (fun y => if Nat.eqb min 0 && Nat.eqb (at_ y) (at_ x) then None
       else rep m greedy (groups a) fuel (pred min) (option_map pred max) k y) (clear_caps (groups a) x) = Some z ->
    exists y, runs (Rep min max greedy a) x y /\ k y = Some z).
  { intros Hmax (y & Hy & Hk)%Hm. destruct (Nat.eqb min 0 && Nat.eqb (at_ y) (at_ x)) eqn:E; [done|].
    apply IH in Hk as (z' & Hz & Hk). exists z'. split; [|done]. eapply runs_rep_more; [done|done| |done].
    intros ->. simpl in E. by apply Nat.eqb_neq. }
  destruct max as [[|max]|]; [auto| |];
    (destruct (Nat.eqb min 0) eqn:E0; simpl negb in H; cbv iota in H; [|by apply Hmore]);
    apply Nat.eqb_eq in E0; subst min;
    (destruct greedy; case_match; [injection H as <-; auto | auto | injection H as <-; auto | auto]).
Qed.

Lemma mtch_sound r k x z : mtch ic ml r k x = Some z -> exists y, runs r x y /\ k y = Some z.
Proof.
  revert k x z. induction r as [|neg items|a IHa b IHb|a IHa b IHb|min max greedy a IHa|n a IHa| | | |a IHa|n];
    intros k x z H; cbn [mtch] in H.
  - eauto using runs.
  - destruct (rest x) as [|c t] eqn:E; [done|]. destruct (in_cls _ _ _ _) eqn:Ec; [|done].
    eexists. split; [by apply runs_cls|done].
  - apply IHa in H as (y & Ha & H). apply IHb in H as (y' & Hb & H). eauto using runs.
  - destruct (mtch ic ml a k x) eqn:Ea.
    + injection H as ->. apply IHa in Ea as (y & Ha & H). eauto using runs.
    + apply IHb in H as (y & Hb & H). eauto using runs.
  - by eapply rep_sound.
  - apply IHa in H as (y & Ha & H). eauto using runs.
  - destruct (bol ml x) eqn:E; [|done]. eauto using runs.
  - destruct (eol ml x) eqn:E; [|done]. eauto using runs.
  - destruct (word_boundary x) eqn:E; [|done]. eauto using runs.
  - destruct (mtch ic ml a Some x) eqn:E; [|done]. apply IHa in E as (y & Ha & _). eauto using runs.
  - destruct (skip ic (captured n x) x) eqn:E; [|done]. eauto using runs.
Qed.

Lemma mtch_complete r x y k : runs r x y -> k y <> None -> mtch ic ml r k x <> None.
Proof.
  intros H. revert k. induction H as [x|neg items x c t E Ec|a b x y z _ IHa _ IHb|a b x y _ IH|a b x y _ IH
    |min max greedy a x Hs|min max greedy a x y z Hmax _ IHa Hne _ IHr|n a x y _ IH|x E|x E|x E|a x y _ IH|n x y E];
    intros k Hk; [cbn [mtch]|cbn [mtch]|cbn [mtch]|cbn [mtch]|cbn [mtch]|rewrite mtch_rep|rewrite mtch_rep|cbn [mtch]..].
  - done.
  - by rewrite E, Ec.
  - apply IHa. by apply IHb.
  - specialize (IH k Hk). by destruct (mtch ic ml a k x).
  - specialize (IH k Hk). by destruct (mtch ic ml a k x).
  - unfold rep_step. destruct Hs as [-> | ->]; [|done]. destruct max as [[|max]|], greedy; simpl; repeat case_match; done.
  - unfold rep_step.
    specialize (IHr k Hk). set (next := mtch ic ml (Rep _ _ _ _) k) in *.
    specialize (IHa (fun y => if Nat.eqb min 0 && Nat.eqb (at_ y) (at_ x) then None else next y)).
    cbv beta in IHa.
    destruct (Nat.eqb min 0 && Nat.eqb (at_ y) (at_ x)) eqn:E.
    { apply andb_true_iff in E as [E1%Nat.eqb_eq E2%Nat.eqb_eq]. by destruct (Hne E1). }
    specialize (IHa IHr). clearbody next. clear -IHa Hmax Hk.
    destruct max as [[|max]|]; [done| |]; destruct (Nat.eqb min 0); simpl in *; try done;
      destruct greedy; repeat case_match; congruence.
  - by apply IH.
  - by rewrite E.
  - by rewrite E.
  - by rewrite E.
  - specialize (IH Some ltac:(done)). by destruct (mtch ic ml a Some x).
  - by rewrite E.
Qed.
End Runs.

(** ** What the searches answer *)

Definition start (t : text) (i : nat) : pos :=
  {| before := match i with O => None | S j => t !! j end; rest := drop i t; at_ := i; caps := [] |}.
Definition matches (r : regex) (t : text) (i : nat) (y : pos) : Prop :=
  runs (icase r) (multiline r) (pattern r) (start t i) y.

Lemma scan_spec r t i :
  i <= length t ->
  match scan r (match i with O => None | S j => t !! j end) (drop i t) i with
  | Some (m, y) =>
      i <= m_index m <= length t /\ matches r t (m_index m) y /\ m_end m = at_ y
      /\ m_text m = slice (m_index m) (m_end m) t /\ m_caps m = caps y
      /\ forall j z, i <= j < m_index m -> ~ matches r t j z
  | None => forall j z, i <= j <= length t -> ~ matches r t j z
  end.
Proof.
  intros Hi. remember (drop i t) as u eqn:Hu. revert i Hi Hu.
  induction u as [|c u IH]; intros i Hi Hu; cbn [scan];
    (destruct (match_at r _ _ _) as [y|] eqn:E;
     [unfold match_at in E; rewrite Hu in E; apply mtch_sound in E as (y' & Hy & [= ->]);
      split; [simpl; lia|]; split; [exact Hy|]; simpl; rewrite Hu; repeat split; try done; intros j z Hj; lia|]).
  - intros j z Hj Hz. assert (j = i) as ->.
    { apply (f_equal length) in Hu. rewrite length_drop in Hu. simpl in Hu. lia. }
    rewrite Hu in E. revert E. by eapply mtch_complete.
  - assert (Hc : t !! i = Some c) by (rewrite <- (Nat.add_0_r i), <- lookup_drop, <- Hu; done).
    assert (Hlt : i < length t) by (by eapply lookup_lt_Some).
    assert (Hu' : u = drop (S i) t) by (rewrite <- (Nat.add_1_r i), <- drop_drop, <- Hu; done).
    specialize (IH (S i) Hlt Hu'). simpl in IH. rewrite Hc in IH.
    assert (Hno : forall z, ~ matches r t i z).
    { intros z Hz. rewrite Hu in E. revert E. by eapply mtch_complete. }
    destruct (scan r (Some c) u (S i)) as [[m y]|].
    + destruct IH as (Hr & Hm & He & Ht & Hcap & Hmin). repeat (split; [done || lia|]).
      intros j z Hj. destruct (decide (j = i)) as [->|Hne]; [apply Hno | apply Hmin; lia].
    + intros j z Hj. destruct (decide (j = i)) as [->|Hne]; [apply Hno | apply IH; lia].
Qed.

Lemma exec_spec r t :
  match exec r t with
  | Some m => exists y, m_index m <= length t /\ matches r t (m_index m) y /\ m_end m = at_ y
      /\ m_text m = slice (m_index m) (m_end m) t /\ m_caps m = caps y
      /\ forall j z, j < m_index m -> ~ matches r t j z
  | None => forall j z, j <= length t -> ~ matches r t j z
  end.
Proof.
  pose proof (scan_spec r t 0 ltac:(lia)) as H. unfold exec.
  change (drop 0 t) with t in H. destruct (scan r None t 0) as [[m y]|]; simpl.
  - destruct H as (Hr & Hm & He & Ht & Hc & Hmin). exists y. repeat (split; [done || lia|]).
    intros j z Hj. apply Hmin. lia.
  - intros j z Hj. apply H. lia.
Qed.

Lemma exec_from_spec r t i :
  i <= length t ->
  match exec_from r t i with
  | Some m => exists y, i <= m_index m <= length t /\ matches r t (m_index m) y /\ m_end m = at_ y
      /\ m_text m = slice (m_index m) (m_end m) t /\ m_caps m = caps y
  | None => forall j z, i <= j <= length t -> ~ matches r t j z
  end.
Proof.
  intros Hi. pose proof (scan_spec r t i Hi) as H. unfold exec_from.
  destruct (scan r _ (drop i t) i) as [[m y]|]; simpl; [|exact H].
  destruct H as (Hr & Hm & He & Ht & Hc & _). eauto 10.
Qed.

Lemma test_true r t : test r t = true <-> exists i y, i <= length t /\ matches r t i y.
Proof.
  unfold test. pose proof (exec_spec r t) as H. destruct (exec r t) as [m|]; split; try done.
  - intros _. destruct H as (y & Hi & Hm & _). eauto.
  - intros (i & y & Hi & Hm). by destruct (H i y Hi).
Qed.

Lemma matches_end r t i y : i <= length t -> matches r t i y -> i <= at_ y <= length t.
Proof.
  intros Hi Hm. apply runs_after in Hm as (w & E & A & _). cbn [start rest at_] in E, A.
  apply (f_equal length) in E. rewrite length_drop, length_app in E. lia.
Qed.

(** ** Patterns that read the text ahead alone, and always some of it *)

(** The position after [n] units. *)
Definition eat (n : nat) (x : pos) : pos :=
  {| before := last_before (before x) (take n (rest x)); rest := drop n (rest x); at_ := at_ x + n; caps := caps x |}.

Fixpoint substitute (fuel : nat) (h : text -> option nat) (g : text -> text) (u : text) : text :=
  match fuel with
  | O => []
  | S fuel =>
      match h u with
      | Some n => g (take n u) ++ substitute fuel h g (drop n u)
      | None => match u with [] => [] | c :: u' => c :: substitute fuel h g u' end
      end
  end.

Section Tokens.
Context (r : regex) (h : text -> option nat).
Hypothesis h_match : forall b u i,
  match_at r b u i = option_map (fun n => eat n {| before := b; rest := u; at_ := i; caps := [] |}) (h u).
Hypothesis h_pos : forall u n, h u = Some n -> 0 < n <= length u.

Lemma splice_skip t i c u ms f :
  drop i t = c :: u -> (forall m, head ms = Some m -> S i <= m_index m) ->
  splice t i ms f = c :: splice t (S i) ms f.
Proof.
  intros E Hm. assert (E' : drop (S i) t = u) by (by rewrite <- (Nat.add_1_r i), <- drop_drop, E).
  destruct ms as [|m ms]; simpl; [by rewrite E, E'|].
  specialize (Hm m eq_refl). unfold slice. rewrite E, E'.
  replace (m_index m - i) with (S (m_index m - S i)) by lia. done.
Qed.

Lemma scan_token b u i :
  scan r b u i =
    match h u with
    | Some n => Some ({| m_index := i; m_end := i + n; m_text := take n u; m_caps := [] |},
                      eat n {| before := b; rest := u; at_ := i; caps := [] |})
    | None => match u with [] => None | c :: u' => scan r (Some c) u' (S i) end
    end.
Proof.
  destruct u as [|c u]; cbn [scan]; rewrite h_match; destruct (h _) as [n|]; simpl; try done;
    do 4 f_equal; by replace (i + n - i) with n by lia.
Qed.

Lemma scan_token_index b u i m y : scan r b u i = Some (m, y) -> i <= m_index m.
Proof.
  revert b i. induction u as [|c u IH]; intros b i; rewrite scan_token; (destruct (h _); [by intros [= <- _]|]); [done|].
  intros H%IH. lia.
Qed.

Lemma replace_tokens_from f g t fuel fuel' b i :
  (forall m, f m = g (m_text m)) -> length (drop i t) < fuel -> length (drop i t) < fuel' ->
  splice t i (all_from fuel r b (drop i t) i) f = substitute fuel' h g (drop i t).
Proof.
  intros Hf. remember (drop i t) as u eqn:Hu. revert fuel u b i Hu.
  induction fuel' as [|fuel' IH]; intros [|fuel] u b i Hu Hl Hl'; [lia|lia|lia|].
  cbn [all_from substitute]. rewrite scan_token. destruct (h u) as [n|] eqn:En.
  - pose proof (h_pos _ _ En) as Hn. cbn [m_end m_index].
    destruct (Nat.eqb (i + n) i) eqn:Eq; [apply Nat.eqb_eq in Eq; lia|]. cbn [splice m_index m_end].
    unfold slice. rewrite Nat.sub_diag, take_0, Hf. simpl. f_equal. apply IH.
    + by rewrite Hu, drop_drop.
    + rewrite length_drop. lia.
    + rewrite length_drop. lia.
  - destruct u as [|c u]; [by simpl; rewrite <- Hu|].
    assert (Hu' : u = drop (S i) t) by (rewrite <- (Nat.add_1_r i), <- drop_drop, <- Hu; done).
    rewrite (splice_skip t i c u _ f (eq_sym Hu)).
    + f_equal. apply (IH (S fuel) u (Some c) (S i) Hu'); simpl in *; lia.
    + intros m. destruct (scan r (Some c) u (S i)) as [[m' y]|] eqn:Es; [|done].
      intros [= <-]. by apply scan_token_index in Es.
Qed.

Lemma replace_all_tokens f g t :
  (forall m, f m = g (m_text m)) -> replace_all r f t = substitute (S (length t)) h g t.
Proof.
  intros Hf. pose proof (replace_tokens_from f g t (S (length t)) (S (length t)) None 0 Hf) as H.
  rewrite drop_0 in H. apply H; lia.
Qed.
End Tokens.

(** A class, and a run of units of a class. *)
Definition head_in (p : N -> bool) (u : text) : option nat :=
  match u with c :: _ => if p c then Some 1 else None | [] => None end.
Fixpoint span (p : N -> bool) (u : text) : nat :=
  match u with c :: u => if p c then S (span p u) else 0 | [] => 0 end.
Definition run_of (p : N -> bool) (u : text) : option nat :=
  match span p u with O => None | n => Some n end.

Lemma substitute_class p g fuel u :
  length u < fuel -> substitute fuel (head_in p) g u = flat_map (fun c => if p c then g [c] else [c]) u.
Proof.
  revert u. induction fuel as [|fuel IH]; intros u Hl; [lia|]. cbn [substitute].
  destruct u as [|c u]; [done|]. simpl in *. destruct (p c); simpl; rewrite ?drop_0, ?take_0, IH by lia; done.
Qed.

Lemma match_class ic ml neg items b u i :
  match_at {| pattern := Cls neg items; icase := ic; multiline := ml |} b u i
  = option_map (fun n => eat n {| before := b; rest := u; at_ := i; caps := [] |}) (head_in (in_cls ic neg items) u).
Proof.
  unfold match_at. simpl. destruct u as [|c u]; [done|]. simpl. destruct (in_cls ic neg items c); [|done].
  simpl. unfold advance, eat. simpl. rewrite Nat.add_1_r. unfold last_before. by destruct u.
Qed.

(** [t.replace(/[class]/g, c)]: each unit on its own. *)
Lemma replace_all_class ic ml neg items g t :
  replace_all {| pattern := Cls neg items; icase := ic; multiline := ml |} (fun m => g (m_text m)) t
  = flat_map (fun c => if in_cls ic neg items c then g [c] else [c]) t.
Proof.
  rewrite (replace_all_tokens _ (head_in (in_cls ic neg items)) (match_class ic ml neg items)) with (g := g).
  - apply substitute_class. lia.
  - intros u n. destruct u as [|c u]; simpl; [done|]. destruct (in_cls _ _ _ _); [|done]. intros [= <-]. simpl. lia.
  - done.
Qed.

Lemma replace_all_unit ic ml neg items d t :
  replace_all {| pattern := Cls neg items; icase := ic; multiline := ml |} (fun _ => [d]) t
  = map (fun c => if in_cls ic neg items c then d else c) t.
Proof.
  rewrite (replace_all_class ic ml neg items (fun _ => [d])). induction t as [|c t IH]; [done|].
  simpl. rewrite IH. by destruct (in_cls _ _ _ _).
Qed.

Lemma clear_nothing x : clear_caps [] x = x.
Proof.
  unfold clear_caps. destruct x as [b u i cs]. simpl. f_equal. unfold filter_b. simpl.
  induction cs as [|g cs IH]; simpl; f_equal; done.
Qed.

Lemma span_le p u : span p u <= length u.
Proof. induction u as [|c u IH]; simpl; [lia|]. destruct (p c); simpl; lia. Qed.

Lemma eat_0 x : eat 0 x = x.
Proof. destruct x as [b u i cs]. unfold eat. simpl. by rewrite Nat.add_0_r. Qed.

Lemma eat_S c u x n : rest x = c :: u -> eat n (advance c u x) = eat (S n) x.
Proof.
  intros E. unfold eat. simpl. rewrite E. simpl. f_equal; [|lia].
  change (c :: take n u) with ([c] ++ take n u). by rewrite last_before_app.
Qed.

(** Greedy repetition of a class takes the longest run the continuation allows. *)
Lemma mtch_cls ic ml neg items k x :
  mtch ic ml (Cls neg items) k x =
    match rest x with c :: t => if in_cls ic neg items c then k (advance c t x) else None | [] => None end.
Proof. done. Qed.

Lemma star_class ic ml neg items k x :
  k (eat (span (in_cls ic neg items) (rest x)) x) <> None ->
  mtch ic ml (star (Cls neg items)) k x = k (eat (span (in_cls ic neg items) (rest x)) x).
Proof.
  remember (rest x) as u eqn:Hu. revert x Hu. induction u as [|c u IH]; intros x Hu Hk;
    unfold star; rewrite mtch_rep; unfold rep_step; cbn [Nat.eqb negb groups]; rewrite clear_nothing, mtch_cls, <- Hu.
  - cbn [span] in *. by rewrite eat_0 in *.
  - cbn [span] in Hk |- *. destruct (in_cls ic neg items c); [|by rewrite eat_0 in *].
    assert (En : Nat.eqb (at_ (advance c u x)) (at_ x) = false) by (apply Nat.eqb_neq; simpl; lia).
    rewrite En. cbn [andb pred option_map]. fold (star (Cls neg items)). rewrite <- (eat_S c u x) in * by done.
    rewrite (IH (advance c u x) eq_refl Hk). by destruct (k _).
Qed.

Lemma match_run ic ml neg items b u i :
  match_at {| pattern := plus (Cls neg items); icase := ic; multiline := ml |} b u i
  = option_map (fun n => eat n {| before := b; rest := u; at_ := i; caps := [] |}) (run_of (in_cls ic neg items) u).
Proof.
  unfold match_at, run_of. cbn [pattern icase multiline]. unfold plus. rewrite mtch_rep. unfold rep_step.
  cbn [Nat.eqb negb groups andb pred option_map]. rewrite clear_nothing, mtch_cls. cbn [rest].
  destruct u as [|c u]; [done|]. cbn [span]. destruct (in_cls ic neg items c); [|done].
  fold (star (Cls neg items)). rewrite star_class; [|done]. simpl. f_equal. by apply eat_S.
Qed.

(** [t.replace(/[class]+/g, c)]: a run becomes one unit. *)
Fixpoint collapse (p : N -> bool) (d : N) (u : text) : text :=
  match u with
  | [] => []
  | c :: u' =>
      if p c then match u' with c' :: _ => if p c' then collapse p d u' else d :: collapse p d u' | [] => [d] end
      else c :: collapse p d u'
  end.

Lemma collapse_run p d u : 0 < span p u -> collapse p d u = d :: collapse p d (drop (span p u) u).
Proof.
  induction u as [|c u IH]; [simpl; lia|]. cbn [span]. destruct (p c) eqn:Ec; [|lia]. intros _.
  change (drop (S (span p u)) (c :: u)) with (drop (span p u) u). cbn [collapse]. rewrite Ec.
  destruct u as [|c' u]; [done|]. cbn [span] in *. destruct (p c'); [apply IH; lia | done].
Qed.

Lemma replace_all_runs ic ml neg items d t :
  replace_all {| pattern := plus (Cls neg items); icase := ic; multiline := ml |} (fun _ => [d]) t
  = collapse (in_cls ic neg items) d t.
Proof.
  rewrite (replace_all_tokens _ (run_of (in_cls ic neg items)) (match_run ic ml neg items)) with (g := fun _ => [d]);
    [|intros u n; unfold run_of; pose proof (span_le (in_cls ic neg items) u); destruct (span _ _); [done|];
      intros [= <-]; lia | done].
  set (p := in_cls ic neg items). assert (Hl : length t < S (length t)) by lia. revert Hl.
  generalize (S (length t)) as fuel. intros fuel. revert t. induction fuel as [|fuel IH]; intros u Hl; [lia|].
  cbn [substitute]. unfold run_of. destruct (span p u) as [|n] eqn:En.
  - destruct u as [|c u]; [done|]. simpl in *. destruct (p c); [done|]. rewrite IH; [done | lia].
  - rewrite (collapse_run p d u), En by lia. simpl. f_equal. apply IH. rewrite length_drop. 
    destruct u; simpl in *; lia.
Qed.

(** ** Units every match holds *)

Definition letter (c : N) : bool := between 65 90 c || between 97 122 c.
Definition cls_within (p : N -> bool) (ic neg : bool) (items : list citem) : bool :=
  negb neg && forallb (fun i => match i with
    | CRange lo hi => (lo =? hi)%N && p lo && negb (ic && letter lo)
    | CDigit => forallb p [48; 49; 50; 51; 52; 53; 54; 55; 56; 57]%N
    | _ => false
    end) items.

(** Every match of the pattern reads a unit that satisfies [p]. *)
Fixpoint must (p : N -> bool) (ic : bool) (r : re) : bool :=
  match r with
  | Cls neg items => cls_within p ic neg items
  | Seq a b => must p ic a || must p ic b
  | Alt a b => must p ic a && must p ic b
  | Rep (S _) None _ a => must p ic a
  | Rep (S _) (Some (S _)) _ a => must p ic a
  | Grp _ a => must p ic a
  | _ => false
  end.

Lemma fold_not_letter lo c :
  letter lo = false -> lower_unit c = lo \/ upper_unit c = lo -> c = lo.
Proof.
  unfold letter, lower_unit, upper_unit. intros Hl [H|H]; revert H; destruct (between _ _ c) eqn:E; try done;
    unfold between in *; lia.
Qed.

Lemma cls_within_spec p ic neg items c :
  cls_within p ic neg items = true -> in_cls ic neg items c = true -> p c = true.
Proof.
  unfold cls_within, in_cls, in_items. intros [Hn Hi]%andb_true_iff. destruct neg; [done|]. simpl.
  rewrite existsb_exists. intros (i & Hin & Hc). rewrite forallb_forall in Hi. specialize (Hi i Hin).
  assert (Hd : i = CDigit -> forall d, is_digit d = true -> p d = true).
  { intros ->. rewrite forallb_forall in Hi. intros d Hd. apply Hi. unfold is_digit, between in Hd. simpl. lia. }
  destruct i as [lo hi| | |]; try done.
  - apply andb_true_iff in Hi as [[->%N.eqb_eq Hp]%andb_true_iff Hl%negb_true_iff].
    assert (c = hi) as ->; [|done]. unfold in_item, between in Hc.
    destruct (decide (c = hi)) as [|Hne]; [done|].
    destruct ic; [|simpl in Hc; lia]. apply (fold_not_letter hi); [done|]. simpl in Hc.
    destruct (N.eq_dec (lower_unit c) hi); [by left|]. destruct (N.eq_dec (upper_unit c) hi); [by right|]. lia.
  - apply Hd; [done|]. simpl in Hc. destruct ic; simpl in Hc; [|by rewrite orb_false_r in Hc].
    unfold lower_unit, upper_unit, is_digit, between in *.
    destruct ((65 <=? c)%N && (c <=? 90)%N) eqn:E1, ((97 <=? c)%N && (c <=? 122)%N) eqn:E2; lia.
Qed.

Lemma must_spec p ic ml r x y :
  must p ic r = true -> runs ic ml r x y -> exists w, reads w x y /\ existsb p w = true.
Proof.
  intros Hm H. revert Hm. induction H as [x|neg items x c t E Ec|a b x y z Ha IHa Hb IHb|a b x y H IH|a b x y H IH
    |min max greedy a x Hs|min max greedy a x y z Hmax Ha IHa Hne Hr IHr|n a x y H IH|x E|x E|x E|a x y H IH|n x y E];
    cbn [must]; try done.
  - intros Hm. exists [c]. split; [by apply reads_one|]. simpl. by rewrite (cls_within_spec _ _ _ _ _ Hm Ec).
  - intros [Hm|Hm]%orb_true_iff.
    + destruct (IHa Hm) as (w & Hw & He). destruct (runs_after _ _ _ _ _ Hb) as [w' Hw'].
      exists (w ++ w'). split; [by eapply reads_trans|]. by rewrite existsb_app, He.
    + destruct (IHb Hm) as (w & Hw & He). destruct (runs_after _ _ _ _ _ Ha) as [w' Hw'].
      exists (w' ++ w). split; [by eapply reads_trans|]. by rewrite existsb_app, He, orb_true_r.
  - intros [Hm _]%andb_true_iff. auto.
  - intros [_ Hm]%andb_true_iff. auto.
  - destruct Hs as [->| ->]; [done|]. by destruct min.
  - destruct min as [|min]; [done|]. intros Hm.
    assert (Hm' : must p ic a = true) by (by destruct max as [[|max]|]).
    destruct (IHa Hm') as (w & Hw & He). destruct (runs_after _ _ _ _ _ Hr) as [w' Hw'].
    exists (w ++ w'). split; [|by rewrite existsb_app, He].
    apply (reads_trans w w' x y z); [|done]. by apply (reads_trans [] w x (clear_caps (groups a) x) y); [apply reads_nil|].
Qed.

Lemma matches_must p r t i y :
  must p (icase r) (pattern r) = true -> matches r t i y -> exists c, In c t /\ p c = true.
Proof.
  intros Hm H. destruct (must_spec p _ _ _ _ _ Hm H) as (w & (E & _) & (c & Hc & Hp)%existsb_exists).
  exists c. split; [|done]. cbn [start rest] in E. rewrite <- (take_drop i t), E.
  apply in_or_app. right. apply in_or_app. by left.
Qed.
Lemma exec_must p r t m :
  must p (icase r) (pattern r) = true -> exec r t = Some m -> exists c, In c t /\ p c = true.
Proof.
  intros Hm E. pose proof (exec_spec r t) as H. rewrite E in H. destruct H as (y & _ & H & _).
  by eapply matches_must.
Qed.

(** ** Repetitions of a class as runs *)

Lemma rest_eat n x : rest (eat n x) = drop n (rest x).
Proof. done. Qed.

Lemma eat_eat n k x : k <= length (rest x) -> eat n (eat k x) = eat (k + n) x.
Proof.
  intros Hk. unfold eat. simpl. rewrite drop_drop. f_equal; [|lia].
  rewrite <- last_before_app. f_equal. by rewrite <- take_take_drop.
Qed.

Lemma reads_eat n x : n <= length (rest x) -> reads (take n (rest x)) x (eat n x).
Proof.
  intros Hn. unfold reads. simpl. rewrite take_drop. split; [done|]. split; [|done]. rewrite length_take. lia.
Qed.

Lemma runs_rep_cls_inv ic ml min greedy neg items x y :
  runs ic ml (Rep min None greedy (Cls neg items)) x y ->
  exists n, y = eat n x /\ min <= n <= length (rest x) /\ forallb (in_cls ic neg items) (take n (rest x)) = true.
Proof.
  remember (Rep min None greedy (Cls neg items)) as r eqn:Er. intros H. revert min Er.
  induction H as [| | | | |m0 mx g a x Hs|m0 mx g a x y z Hmax Ha IHa Hne Hr IHr| | | | | |]; intros min Er; try done;
    injection Er as -> -> -> ->.
  - exists 0. rewrite eat_0, take_0. destruct Hs as [->|]; [|done]. split; [done|]. split; [lia | done].
  - cbn [groups] in Ha. rewrite clear_nothing in Ha. inversion Ha as [|? ? ? c t E Ec| | | | | | | | | | |]; subst.
    destruct (IHr (pred min) eq_refl) as (n & -> & Hn & Hf). exists (S n).
    rewrite (eat_S c t) by done. cbn [rest advance] in *. rewrite E. simpl. rewrite Ec, Hf.
    split; [done|]. split; [lia | done].
Qed.

Lemma runs_rep_cls ic ml min greedy neg items x n :
  min <= n <= length (rest x) -> forallb (in_cls ic neg items) (take n (rest x)) = true ->
  runs ic ml (Rep min None greedy (Cls neg items)) x (eat n x).
Proof.
  revert min x. induction n as [|n IH]; intros min x Hn Hf.
  - rewrite eat_0. apply runs_rep_stop. left. lia.
  - destruct (rest x) as [|c t] eqn:E; [simpl in Hn; lia|]. simpl in Hf, Hn. apply andb_true_iff in Hf as [Hc Hf].
    rewrite <- (eat_S c t) by done. apply (runs_rep_more _ _ _ _ _ _ x (advance c t x)); [done| |simpl; lia|].
    + cbn [groups]. rewrite clear_nothing. by apply runs_cls.
    + apply IH; simpl; [lia | done].
Qed.

(** A greedy repetition stops only where no iteration can make progress. *)
Lemma star_maximal ic ml a x y z :
  mtch ic ml (star a) Some x = Some y -> runs ic ml a (clear_caps (groups a) y) z -> at_ z = at_ y.
Proof.
  remember (length (rest x)) as n eqn:Hn. revert x Hn. induction n as [n IH] using lt_wf_ind. intros x Hn H Hz.
  unfold star in H. rewrite mtch_rep in H. unfold rep_step in H. cbn [Nat.eqb negb andb pred option_map] in H.
  set (d := fun y => if Nat.eqb (at_ y) (at_ x) then None else mtch ic ml (star a) Some y) in *.
  change (match mtch ic ml a d (clear_caps (groups a) x) with Some z => Some z | None => Some x end = Some y) in H.
  destruct (mtch ic ml a d (clear_caps (groups a) x)) as [y'|] eqn:Ea.
  - injection H as ->. apply mtch_sound in Ea as (y1 & Hy1 & Hd). unfold d in Hd.
    destruct (Nat.eqb (at_ y1) (at_ x)) eqn:E; [done|]. apply Nat.eqb_neq in E.
    apply runs_after in Hy1. eapply IH; [|reflexivity|exact Hd|done]. subst n.
    change (rest x) with (rest (clear_caps (groups a) x)). by apply after_moved.
  - injection H as <-. destruct (decide (at_ z = at_ x)) as [|Hne]; [done|]. exfalso. revert Ea.
    eapply mtch_complete; [exact Hz|]. unfold d.
    destruct (Nat.eqb (at_ z) (at_ x)) eqn:E; [by apply Nat.eqb_eq in E|].
    eapply mtch_complete; [apply runs_rep_stop; by left | done].
Qed.

Lemma plus_maximal ic ml a x y z :
  mtch ic ml (plus a) Some x = Some y -> runs ic ml a (clear_caps (groups a) y) z -> at_ z = at_ y.
Proof.
  unfold plus. rewrite mtch_rep. unfold rep_step. cbn [Nat.eqb negb andb pred option_map].
  intros (y1 & _ & H)%mtch_sound Hz. by eapply star_maximal.
Qed.

(** A pattern anchored at the start of the text is tried there alone. *)
Lemma exec_anchored r a t :
  pattern r = Seq Bol a -> multiline r = false ->
  exec r t = option_map (fun y => {| m_index := 0; m_end := at_ y; m_text := take (at_ y) t; m_caps := caps y |})
               (mtch (icase r) false a Some (start t 0)).
Proof.
  intros Hp Hml. unfold exec. assert (Hscan : forall b u i, b <> None -> scan r b u i = None).
  { intros b u. revert b. induction u as [|c u IH]; intros b i Hb; cbn [scan]; unfold match_at; rewrite Hp, Hml;
      cbn [mtch]; unfold bol; cbn [before]; destruct b; try done. by apply IH. }
  assert (E : match_at r None t 0 = mtch (icase r) false a Some (start t 0)).
  { unfold match_at. rewrite Hp, Hml. cbn [mtch]. unfold bol, start. cbn [before]. by rewrite drop_0. }
  destruct t as [|c t]; cbn [scan]; rewrite E; destruct (mtch _ _ a _ _) as [y|]; simpl; rewrite ?Nat.sub_0_r; try done.
  by rewrite Hscan.
Qed.

(** A greedy repetition of a class, with a lower bound: the whole run, if long enough. *)
Lemma rep_class ic ml min neg items x :
  mtch ic ml (Rep min None true (Cls neg items)) Some x =
    if Nat.leb min (span (in_cls ic neg items) (rest x))
    then Some (eat (span (in_cls ic neg items) (rest x)) x) else None.
Proof.
  revert x. induction min as [|min IH]; intros x; [by apply (star_class ic ml neg items Some x)|].
  rewrite mtch_rep. unfold rep_step. cbn [Nat.eqb negb andb groups pred option_map].
  rewrite clear_nothing, mtch_cls. destruct (rest x) as [|c u] eqn:E; [done|]. cbn [span].
  destruct (in_cls ic neg items c); [|done]. rewrite IH. cbn [rest advance Nat.leb].
  destruct (Nat.leb min _); [|done]. f_equal. by apply eat_S.
Qed.

Definition long_run (min : nat) (p : N -> bool) (u : text) : option nat :=
  if Nat.leb min (span p u) then Some (span p u) else None.

Lemma replace_long_runs ic ml min neg items f g t :
  0 < min -> (forall m, f m = g (m_text m)) ->
  replace_all {| pattern := Rep min None true (Cls neg items); icase := ic; multiline := ml |} f t
  = substitute (S (length t)) (long_run min (in_cls ic neg items)) g t.
Proof.
  intros Hmin Hf. apply replace_all_tokens; [| |done].
  - intros b u i. unfold match_at, long_run. cbn [pattern icase multiline]. rewrite rep_class. cbn [rest].
    by destruct (Nat.leb min _).
  - intros u n. unfold long_run. pose proof (span_le (in_cls ic neg items) u).
    destruct (Nat.leb_spec min (span (in_cls ic neg items) u)); [|done]. intros [= <-]. lia.
Qed.

(** Two units in a row. *)
Definition two_units (c d : N) (u : text) : option nat :=
  match u with c' :: d' :: _ => if (c' =? c)%N && (d' =? d)%N then Some 2 else None | _ => None end.

Lemma chr_class c d : in_cls false false [CRange c c] d = (d =? c)%N.
Proof. unfold in_cls, in_items, in_item, between. simpl. rewrite !orb_false_r. lia. Qed.

Lemma replace_two_units c d f g t :
  (forall m, f m = g (m_text m)) ->
  replace_all {| pattern := Seq (chr c) (chr d); icase := false; multiline := false |} f t
  = substitute (S (length t)) (two_units c d) g t.
Proof.
  intros Hf. apply replace_all_tokens; [| |done].
  - intros b u i. unfold match_at, chr. cbn [pattern icase multiline mtch rest].
    destruct u as [|c' u]; [done|]. rewrite chr_class.
    destruct u as [|d' u]; cbn [advance rest two_units]; [by destruct (c' =? c)%N|]. rewrite chr_class.
    destruct (c' =? c)%N, (d' =? d)%N; try done. cbn [andb option_map]. f_equal.
    unfold advance, eat. simpl. by rewrite drop_0, Nat.add_comm.
  - intros u n. unfold two_units. destruct u as [|c' [|d' u]]; [done..|]. destruct (_ && _); [|done].
    intros [= <-]. simpl. lia.
Qed.

(** A unit outside every match survives a replacement. *)
Lemma substitute_keeps (p : N -> bool) fuel h g u c :
  (forall u n d, h u = Some n -> In d (take n u) -> p d = false) -> (forall u n, h u = Some n -> 0 < n) ->
  length u < fuel -> In c u -> p c = true -> In c (substitute fuel h g u).
Proof.
  intros Hp Hpos. revert u. induction fuel as [|fuel IH]; intros u Hl Hc Hpc; [lia|]. cbn [substitute].
  destruct (h u) as [n|] eqn:En.
  - rewrite <- (take_drop n u) in Hc. apply in_app_or in Hc as [Hc|Hc].
    + rewrite (Hp _ _ _ En Hc) in Hpc. done.
    + apply in_or_app. right. apply IH; try done. specialize (Hpos _ _ En). rewrite length_drop. 
      destruct u; simpl in *; [by rewrite drop_nil in Hc | lia].
  - destruct u as [|d u]; [done|]. simpl in *. destruct Hc as [->|Hc]; [by left|]. right. apply IH; [lia|done..].
Qed.

(** Every answer of [matchAll] is a match. *)
Lemma matchAll_spec r t m :
  In m (matchAll r t) ->
  exists y, m_index m <= length t /\ matches r t (m_index m) y /\ m_end m = at_ y
    /\ m_text m = slice (m_index m) (m_end m) t /\ m_caps m = caps y.
Proof.
  unfold matchAll. assert (Hgen : forall fuel i, i <= length t ->
    In m (all_from fuel r (before (start t i)) (drop i t) i) ->
    exists y, m_index m <= length t /\ matches r t (m_index m) y /\ m_end m = at_ y
      /\ m_text m = slice (m_index m) (m_end m) t /\ m_caps m = caps y).
  2:{ intros H. apply (Hgen (S (length t)) 0); [lia|]. by rewrite drop_0. }
  induction fuel as [|fuel IH]; intros i Hi; [done|]. cbn [all_from before start].
  pose proof (scan_spec r t i Hi) as Hs. destruct (scan r _ (drop i t) i) as [[m' y]|]; [|done].
  destruct Hs as (Hr & Hm & He & Ht & Hc & _). intros [<-|Hin]; [exists y; repeat (split; [done || lia|]); done|].
  pose proof (matches_end r t (m_index m') y ltac:(lia) Hm) as Hend.
  assert (Hy : rest y = drop (at_ y) t /\ before y = before (start t (at_ y))).
  { apply runs_after in Hm as (w & Hw & Ha & Hb). cbn [start rest at_ before] in Hw, Ha, Hb.
    assert (Et : t = take (m_index m') t ++ w ++ rest y) by (by rewrite <- Hw, take_drop).
    assert (Hlen : at_ y = length (take (m_index m') t ++ w)) by (rewrite length_app, length_take; lia).
    assert (Hpre : length (take (m_index m') t) = m_index m') by (rewrite length_take; lia).
    remember (take (m_index m') t) as pre eqn:Epre. clear Epre. rewrite Hb. cbn [start before]. unfold last_before.
    split; [rewrite Et, (assoc_L (++)), Hlen; by rewrite drop_app_length|].
    destruct w as [|c w] using rev_ind; [rewrite app_nil_r in Hlen; simpl; by rewrite Hlen, Hpre|].
    rewrite last_snoc.
    assert (Et' : t = (pre ++ w) ++ c :: rest y) by (rewrite Et, <- !(assoc_L (++)); done).
    assert (Hat : at_ y = S (length (pre ++ w))) by (rewrite Hlen, !length_app; simpl; lia).
    rewrite Hat. cbv iota. rewrite Et'. by rewrite lookup_app_r, Nat.sub_diag by lia. }
  destruct Hy as [Hy1 Hy2]. destruct (Nat.eqb (m_end m') (m_index m')) eqn:Eq.
  - destruct (rest y) as [|c u] eqn:Er; [done|]. apply (IH (S (at_ y))).
    + apply (f_equal length) in Hy1. rewrite length_drop in Hy1. simpl in Hy1. lia.
    + cbn [start before]. assert (Hc' : t !! at_ y = Some c) by (by rewrite <- (Nat.add_0_r (at_ y)), <- lookup_drop, <- Hy1).
      rewrite Hc'. assert (u = drop (S (at_ y)) t) as <-; [|done].
      by rewrite <- (Nat.add_1_r (at_ y)), <- drop_drop, <- Hy1.
  - rewrite Hy1, Hy2 in Hin. by apply (IH (at_ y)) in Hin; [|lia].
Qed.

(** ** Literals, up to the case of letters *)

Lemma lower_upper c : lower_unit (upper_unit c) = lower_unit c.
Proof.
  unfold upper_unit, lower_unit. destruct (between 97 122 c) eqn:E; [|done].
  destruct (between 65 90 (c - 32)) eqn:E1, (between 65 90 c) eqn:E2; unfold between in *; lia.
Qed.

Lemma chr_fold ic c d : in_cls ic false [CRange c c] d = true -> lower_unit d = lower_unit c.
Proof.
  unfold in_cls, in_items, in_item. simpl. rewrite orb_false_r.
  assert (Hb : forall e, between c c e = true -> e = c) by (intros e; unfold between; lia).
  intros [->%Hb|[_ [H%Hb|H%Hb]%orb_true_iff]%andb_true_iff]%orb_true_iff; [done| |].
  - by rewrite <- H, lower_unit_idem.
  - by rewrite <- H, lower_upper.
Qed.

Lemma runs_str ic ml s x y : runs ic ml (str s) x y -> exists w, reads w x y /\ tlower w = tlower (T s).
Proof.
  unfold str. generalize (T s) as l. intros l. revert x. induction l as [|c l IH]; intros x; cbn [fold_right].
  - inversion 1; subst. exists []. split; [apply reads_refl | done].
  - inversion 1 as [| |? ? ? x1 ? H1 H2| | | | | | | | | |]; subst.
    inversion H1 as [|? ? ? d t E Ec| | | | | | | | | | |]; subst. apply IH in H2 as (w & Hw & Hl).
    exists (d :: w). split; [by apply (reads_trans [d] w x (advance d t x)); [apply reads_one|]|].
    unfold tlower in *. cbn [map]. by rewrite Hl, (chr_fold _ _ _ Ec).
Qed.

(** Matches of an anchored pattern begin the text. *)
Lemma matches_anchored r a t i y :
  pattern r = Seq Bol a -> multiline r = false -> i <= length t -> matches r t i y ->
  i = 0 /\ runs (icase r) false a (start t 0) y.
Proof.
  intros Hp Hml Hi. unfold matches. rewrite Hp, Hml.
  inversion 1 as [| |? ? ? x1 ? H1 H2| | | | | | | | | |]; subst.
  inversion H1 as [| | | | | | | |? Hb| | | |]; subst. unfold bol, start in Hb. cbn [before] in Hb.
  destruct i as [|i]; [done|]. destruct (t !! i) eqn:E; [done|]. apply lookup_ge_None in E. lia.
Qed.

(** An anchored pattern that reads something moves past the start. *)
Lemma exec_anchored_end r a t m :
  pattern r = Seq Bol a -> multiline r = false -> must (fun _ => true) (icase r) a = true ->
  exec r t = Some m -> m_index m = 0 /\ 0 < m_end m <= length t.
Proof.
  intros Hp Hml Hmust E. pose proof E as E0. rewrite (exec_anchored r a t Hp Hml) in E.
  destruct (mtch _ _ _ _ _) as [y|] eqn:Em; [|done]. injection E as <-. cbn [m_index m_end]. split; [done|].
  apply mtch_sound in Em as (y' & Hy & [= ->]).
  destruct (must_spec _ _ _ _ _ _ Hmust Hy) as (w & (Ew & Aw & _) & Hw).
  cbn [start rest at_] in Ew, Aw. rewrite drop_0 in Ew. rewrite Ew, length_app.
  destruct w as [|c w]; [done|]. simpl in *. lia.
Qed.
