(* ===== verification/ReviewMarkdown.v ===== *)
(** * Fenced code in review text (kernel/review-markdown.mjs)

    A line that opens a fence hides it and every line up to the closing one; the
    parsers read headings, verdicts and findings on the masked text, whose
    offsets are those of the text. *)

From Stdlib Require Import ZArith Lia ZifyBool ZifyN Ascii.
From stdpp Require Import base list strings.
From S2P Require Import Prelude JsText JsRegExp.

(** /^[ \t]*(`{3,}|~{3,})/ *)
Definition FENCE : regex :=
  {| pattern := seqs [Bol; blanks; Grp 1 (Alt (Rep 3 None true (chr 96)) (Rep 3 None true (chr 126)))];
     icase := false; multiline := false |}.

(** The fence a line opens, and whether a line closes a fence. *)
Definition fence_marker (line : text) : option found := exec FENCE line.
Definition closes_fence (line fence : text) : bool :=
  match fence_marker line with
  | Some m =>
      let g := group_or_empty m 1 in
      bool_decide (head g = head fence) && Nat.leb (length fence) (length g)
      && negb (nonblank (ttrim (drop (m_end m) line)))
  | None => false
  end.

Fixpoint map_lines (fence : option text) (f g : text -> text) (ls : list text) : list text :=
  match ls with
  | [] => []
  | line :: ls =>
      match fence with
      | Some fc => g line :: map_lines (if closes_fence line fc then None else Some fc) f g ls
      | None =>
          match fence_marker line with
          | Some m => g line :: map_lines (Some (group_or_empty m 1)) f g ls
          | None => f line :: map_lines None f g ls
          end
      end
  end.

Definition mapUnfencedReviewLines (t : text) (transform fencedTransform : text -> text) : text :=
  unlines (map_lines None transform fencedTransform (lines t)).

(** /[^\r]/g *)
Definition NOT_CR : regex := {| pattern := Cls true [CRange 13 13]; icase := false; multiline := false |}.
Definition blank_out (line : text) : text := replace_all NOT_CR (fun _ => [SP]) line.
Definition maskReviewFences (t : text) : text := mapUnfencedReviewLines t (fun line => line) blank_out.

(** ** Masking *)

Definition blank_unit (c : N) : N := if (c =? CR)%N then CR else SP.

Lemma blank_out_map line : blank_out line = map blank_unit line.
Proof.
  unfold blank_out, NOT_CR. rewrite replace_all_unit. apply map_ext. intros c.
  unfold in_cls, in_items, in_item, between, blank_unit, CR, SP. simpl.
  destruct (c =? 13)%N eqn:E; [apply N.eqb_eq in E as ->; done|]. apply N.eqb_neq in E.
  destruct ((13 <=? c)%N && (c <=? 13)%N) eqn:E'; [lia | done].
Qed.

Lemma blank_out_idem line : blank_out (blank_out line) = blank_out line.
Proof.
  rewrite !blank_out_map, map_map. apply map_ext. intros c. unfold blank_unit. by destruct (c =? CR)%N eqn:E; rewrite ?E.
Qed.

Lemma map_lines_length fence f g ls : length (map_lines fence f g ls) = length ls.
Proof. revert fence. induction ls as [|l ls IH]; intros fence; simpl; [done|]. by repeat case_match; simpl; rewrite IH. Qed.

(** Each line of the answer comes from the line at its place. *)
Lemma map_lines_zip fence f g ls :
  Forall2 (fun l l' => l' = f l \/ l' = g l) ls (map_lines fence f g ls).
Proof.
  revert fence. induction ls as [|l ls IH]; intros fence; simpl; [constructor|].
  repeat case_match; constructor; auto.
Qed.

Lemma mask_lines t :
  lines (maskReviewFences t) = map_lines None (fun l => l) blank_out (lines t).
Proof.
  unfold maskReviewFences, mapUnfencedReviewLines, lines, unlines. apply tsplit_tjoin.
  - intros E. apply (f_equal length) in E. rewrite map_lines_length in E.
    pose proof (tsplit_nil NL t). by destruct (tsplit NL t).
  - intros w Hw. pose proof (map_lines_zip None (fun l => l) blank_out (tsplit NL t)) as H.
    apply list_elem_of_In in Hw. apply list_elem_of_lookup in Hw as [i Hi].
    destruct (Forall2_lookup_r _ _ _ _ _ H Hi) as (l & Hl & E).
    assert (Hn : ~ In NL l) by (eapply tsplit_sep_free, list_elem_of_In, list_elem_of_lookup_2, Hl).
    destruct E as [->| ->]; [done|]. rewrite blank_out_map. intros (c & E & _)%in_map_iff.
    unfold blank_unit in E. by destruct (c =? CR)%N.
Qed.

(** A fence marker needs a backtick or a tilde, so a blanked line is none. *)
Lemma blank_no_marker line : fence_marker (blank_out line) = None.
Proof.
  destruct (fence_marker (blank_out line)) as [m|] eqn:E; [|done]. exfalso.
  apply (exec_must (fun c => (c =? 96)%N || (c =? 126)%N)) in E as (c & Hc & Hp); [|done].
  rewrite blank_out_map in Hc. apply in_map_iff in Hc as (d & <- & _). unfold blank_unit in Hp.
  by destruct (d =? CR)%N.
Qed.

Lemma map_lines_unmarked f g ls :
  (forall l, In l ls -> fence_marker l = None) -> map_lines None f g ls = map f ls.
Proof.
  induction ls as [|l ls IH]; intros H; simpl; [done|]. rewrite (H l) by (by left).
  rewrite IH; [done|]. intros x Hx. apply H. by right.
Qed.

Lemma masked_unmarked fence ls l : In l (map_lines fence (fun l => l) blank_out ls) -> fence_marker l = None.
Proof.
  revert fence. induction ls as [|l0 ls IH]; intros fence; simpl; [done|].
  destruct fence as [fc|]; [intros [<-|H]; [apply blank_no_marker | by eapply IH]|].
  destruct (fence_marker l0) eqn:E; intros [<-|H]; try (by eapply IH); [apply blank_no_marker | done].
Qed.

Lemma mask_idem t : maskReviewFences (maskReviewFences t) = maskReviewFences t.
Proof.
  unfold maskReviewFences at 1, mapUnfencedReviewLines. rewrite mask_lines.
  rewrite map_lines_unmarked by (intros l Hl; by eapply masked_unmarked).
  rewrite map_id, <- mask_lines. apply tjoin_tsplit.
Qed.

(** A unit is kept, or blanked when it ends no line. *)
Definition masks (c d : N) : Prop := d = c \/ (d = SP /\ c <> NL /\ c <> CR).

Lemma tjoin_Forall2 (R : N -> N -> Prop) sep ls ls' :
  R sep sep -> Forall2 (Forall2 R) ls ls' -> Forall2 R (tjoin [sep] ls) (tjoin [sep] ls').
Proof.
  intros Hs. induction 1 as [|w w' ls ls' Hw Hl IH]; [constructor|].
  destruct Hl as [|v v' ls ls' Hv Hl]; [exact Hw|].
  apply Forall2_app; [exact Hw|]. constructor; [exact Hs | exact IH].
Qed.

Lemma blank_units line : ~ In NL line -> Forall2 masks line (blank_out line).
Proof.
  rewrite blank_out_map. induction line as [|c line IH]; simpl; intros Hn; constructor; [|apply IH; tauto].
  unfold masks, blank_unit. destruct (c =? CR)%N eqn:E; [apply N.eqb_eq in E as ->; by left|].
  apply N.eqb_neq in E. right. split; [done|]. split; [|done]. intros ->. tauto.
Qed.

Lemma map_lines_units fence ls :
  (forall l, In l ls -> ~ In NL l) -> Forall2 (Forall2 masks) ls (map_lines fence (fun l => l) blank_out ls).
Proof.
  assert (Hrefl : forall l, Forall2 masks l l) by (intros l; induction l; constructor; [by left | done]).
  revert fence. induction ls as [|l ls IH]; intros fence Hl; simpl; [constructor|].
  assert (Hb : Forall2 masks l (blank_out l)) by (apply blank_units, Hl; by left).
  repeat case_match; constructor; auto; apply IH; intros x Hx; apply Hl; by right.
Qed.

Lemma mask_units t : Forall2 masks t (maskReviewFences t).
Proof.
  rewrite <- (tjoin_tsplit NL t) at 1. apply tjoin_Forall2; [by left|].
  apply map_lines_units. intros l. apply tsplit_sep_free.
Qed.

Lemma mask_length t : length (maskReviewFences t) = length t.
Proof. symmetry. apply (Forall2_length _ _ _ (mask_units t)). Qed.

(** Masking keeps every offset: the text has the same length and the same
    line breaks, a unit is kept or becomes a space, and masking a masked text
    changes nothing, so that a match found on the masked text slices the
    original. A text without a marker line is its own mask. *)
Theorem mask_preserves_offsets (t : text) :
  length (maskReviewFences t) = length t
  /\ (forall i c, t !! i = Some c -> exists d, maskReviewFences t !! i = Some d
       /\ (d = c \/ (d = SP /\ c <> NL /\ c <> CR)))
  /\ maskReviewFences (maskReviewFences t) = maskReviewFences t
  /\ (forallb (fun l => match fence_marker l with None => true | Some _ => false end) (lines t) = true ->
      maskReviewFences t = t).
Proof.
  split; [apply mask_length|]. split.
  - intros i c Hc. destruct (Forall2_lookup_l _ _ _ _ _ (mask_units t) Hc) as (d & Hd & Hm). eauto.
  - split; [apply mask_idem|]. intros H. unfold maskReviewFences, mapUnfencedReviewLines.
    rewrite map_lines_unmarked, map_id; [apply tjoin_tsplit|].
    intros l Hl. rewrite forallb_forall in H. specialize (H l Hl). by destruct (fence_marker l).
Qed.

Lemma mask_preserves_offsets_witness :
  exists t, maskReviewFences t <> t /\ length (maskReviewFences t) = length t.
Proof.
  exists (unlines (map T ["```"; "## Verdict"; "```"; "Approved"])).
  split; [vm_compute; discriminate | apply mask_preserves_offsets].
Defined.
