(* ===== verification/FindingLines.v ===== *)
(** * File and line citations of findings (kernel/finding-lines.mjs)

    A reviewer cites lines as a list of numbers and ranges, with optional
    prefixes; everything the patterns do not read is a note. *)

From Stdlib Require Import ZArith Lia ZifyBool ZifyN Ascii.
From stdpp Require Import base list strings.
From S2P Require Import Prelude JsNum JsText JsRegExp.

Record range := { r_start : num; r_end : num }.

(** [Number(match)] on a group of digits with an optional sign. *)
Definition number_of (t : text) : num := string_to_number (to_string t).

Definition DASH : re := Cls false [CRange 45 45; CRange 8211 8211].
Definition digits : re := plus (Cls false [CDigit]).
Definition signed_digits : re := Seq (opt (chr 45)) digits.
Definition case_insensitive (r : re) : regex := {| pattern := r; icase := true; multiline := false |}.
Definition plain (r : re) : regex := {| pattern := r; icase := false; multiline := false |}.
Definition lines_word : re := seqs [str "line"; opt (chr 115); plus space].
Definition hash_L : re := Seq (opt (chr 35)) (chr 76).

(** /^\s*(?:lines?\s+)?~?(?:#?L)?(-?\d+)(?:\s*(?:[-–]|\.\.)\s*(?:L)?(-?\d+))?(?=$|[\s;,():])/i *)
Definition CITATION : regex :=
  case_insensitive
    (seqs [Bol; star space; opt lines_word; opt (chr 126); opt hash_L; Grp 1 signed_digits;
           opt (seqs [star space; Alt DASH (str ".."); star space; opt (chr 76); Grp 2 signed_digits]);
           Look (Alt Eol (Cls false (CSpace :: oneof ";,():")))]).

(** /^\s*[;,]\s*/ *)
Definition SEPARATOR : regex := plain (seqs [Bol; star space; Cls false (oneof ";,"); star space]).

Definition range_of (m : found) : range :=
  {| r_start := number_of (group_or_empty m 1);
     r_end := number_of (match group m 2 with Some (c :: e) => c :: e | _ => group_or_empty m 1 end) |}.

(** The loop of [readList]. Out of fuel it would answer [None]. *)
Fixpoint read_list (fuel : nat) (ranges : list range) (rest : text) : option (list range * text) :=
  match fuel with
  | O => None
  | S fuel =>
      match exec CITATION rest with
      | None => Some (ranges, rest)
      | Some m =>
          let ranges := ranges ++ [range_of m] in
          let rest := drop (m_end m) rest in
          match exec SEPARATOR rest with
          | None => Some (ranges, rest)
          | Some s => read_list fuel ranges (drop (m_end s) rest)
          end
      end
  end.
Definition readList (value : text) : list range * text :=
  default ([], value) (read_list (S (length value)) [] value).

(** A symbol, then a parenthesized list: the global pattern of the legacy citations. *)
Definition QUALIFIED : regex :=
  plain
    (seqs [Alt Bol (Cls false (oneof ";,")); star space; Cls false (CWord :: oneof "."); star (Cls true (oneof "();,"));
           chr 40; opt (Seq (str "post-diff") (plus space)); Grp 1 (star (Cls true (oneof "()"))); chr 41; star space;
           Look (Alt (Cls false (oneof ";,")) Eol)]).

(** /`/g *)
Definition BACKTICK : regex := plain (chr 96).
Definition no_ticks (t : text) : text := replace_all BACKTICK (fun _ => []) t.

Definition findingLineRanges (t file : text) : list range :=
  if Nat.ltb 512 (length t) then []
  else
    let fileLines := ttrim (no_ticks t) in
    let pathPrefix := no_ticks file ++ T ":" in
    let fileLines := if tstarts pathPrefix fileLines then drop (length pathPrefix) fileLines else fileLines in
    match fst (readList fileLines) with
    | [] =>
        flat_map (fun m => let '(ranges, rest) := readList (group_or_empty m 1) in
                           if nonblank (ttrim rest) then [] else ranges)
                 (matchAll QUALIFIED fileLines)
    | ranges => ranges
    end.

(** ** Literal locations *)

Record location := { l_path : text; l_ranges : list range }.

Definition clean (t : text) : text := ttrim (no_ticks t).

(** One brace group in a path. *)
Definition BRACES : regex :=
  plain (seqs [Bol; Grp 1 (star (Cls true (oneof "{}"))); chr 123; Grp 2 (plus (Cls true (oneof "{}"))); chr 125;
               Grp 3 (star (Cls true (oneof "{}"))); Eol]).
(** /[\s:*?{}\\\x00-\x1f]/ *)
Definition UNSAFE : regex := plain (Cls false (CSpace :: CRange 0 31 :: CRange 92 92 :: oneof ":*?{}")).

Definition plain_part (p : text) : bool := nonblank p && negb (t_in p [T "."; T ".."]).
Definition paths (value : text) : list text :=
  let raw := clean value in
  let expanded :=
    match exec BRACES raw with
    | Some m => map (fun part => group_or_empty m 1 ++ part ++ group_or_empty m 3) (tsplit 44 (group_or_empty m 2))
    | None => [raw]
    end in
  if Nat.leb (length expanded) 16
     && every_b (fun p => nonblank p && negb (test UNSAFE p) && every_b plain_part (tsplit 47 p)) expanded
  then expanded else [].

(** One number or range, and a list of them that is the whole text. *)
Definition numeric_item : re :=
  seqs [opt lines_word; opt (chr 126); opt hash_L; signed_digits;
        opt (seqs [star space; Alt DASH (str ".."); star space; opt (chr 76); signed_digits])].
Definition NUMERIC : regex :=
  case_insensitive
    (seqs [Bol; numeric_item; star (seqs [star space; Cls false (oneof ",;"); star space; numeric_item]); Eol]).
(** /^([^:]+):\s*(.+)$/ *)
Definition EXPLICIT : regex :=
  plain (seqs [Bol; Grp 1 (plus (Cls true (oneof ":"))); chr 58; star space; Grp 2 (plus dot); Eol]).

(** The loop over the parts: [secondary] once a clause has named a path. *)
Fixpoint secondary_locations (primary : list text) (index : nat) (secondary : bool) (parts : list text)
    (locations : list location) : list location :=
  match parts with
  | [] => locations
  | part :: parts =>
      let part := ttrim part in
      let explicit := exec EXPLICIT part in
      let numeric2 := match explicit with Some m => test NUMERIC (group_or_empty m 2) | None => false end in
      let path1 := match explicit with Some m => group_or_empty m 1 | None => [] end in
      let named := match explicit with Some _ => t_in path1 primary | None => false end in
      if negb secondary && (test NUMERIC part || Nat.eqb index 0 && named && numeric2)
      then secondary_locations primary (S index) secondary parts locations
      else if Nat.eqb index 0 || negb numeric2 then locations
      else match paths path1 with
           | [] => []
           | targets =>
               let ranges := match explicit with Some m => findingLineRanges (group_or_empty m 2) path1 | None => [] end in
               secondary_locations primary (S index) true parts
                 (locations ++ map (fun p => {| l_path := p; l_ranges := ranges |}) targets)
           end
  end.

(** [lines] is [String(lines || '')]. *)
Definition findingLocations (file ls : text) : list location :=
  if Nat.ltb 512 (length file) || Nat.ltb 512 (length ls) then []
  else
    match paths file with
    | [] => []
    | primary =>
        let rawLines := clean ls in
        let primaryRanges := findingLineRanges rawLines (clean file) in
        let locations := match primaryRanges with
                         | [] => []
                         | _ => map (fun p => {| l_path := p; l_ranges := primaryRanges |}) primary
                         end in
        secondary_locations primary 0 false (tsplit 59 rawLines) locations
    end.

(** ** The loop over a list of citations ends *)

Lemma citation_progress t m : exec CITATION t = Some m -> 0 < m_end m <= length t.
Proof. intros E. by eapply (exec_anchored_end CITATION) in E as [_ H]. Qed.

Lemma separator_progress t m : exec SEPARATOR t = Some m -> 0 < m_end m <= length t.
Proof. intros E. by eapply (exec_anchored_end SEPARATOR) in E as [_ H]. Qed.

Lemma read_list_enough fuel fuel' ranges t :
  length t < fuel -> length t < fuel' ->
  read_list fuel ranges t = read_list fuel' ranges t /\ is_Some (read_list fuel ranges t).
Proof.
  revert fuel' ranges t. induction fuel as [|fuel IH]; intros [|fuel'] ranges t H H'; [lia..|].
  cbn [read_list]. destruct (exec CITATION t) as [m|] eqn:E; [|by eauto].
  apply citation_progress in E. destruct (exec SEPARATOR (drop (m_end m) t)) as [s|] eqn:Es; [|by eauto].
  apply separator_progress in Es. rewrite length_drop in Es. apply IH; rewrite !length_drop; lia.
Qed.
