(* ===== verification/ReviewFindings.v ===== *)
(** * Findings of a review (kernel/review-findings.mjs)

    The section of a heading is cut out of the masked text and read as finding
    cards. Masked lines decide the structure, the original lines give the text. *)

From Stdlib Require Import ZArith Lia ZifyBool ZifyN Ascii.
From stdpp Require Import base list strings.
From S2P Require Import Prelude JsNum JsText JsRegExp ReviewMarkdown FindingLines.

Definition icase_re (r : re) : regex := case_insensitive r.

(** /\r\n/g *)
Definition CRLF : regex := plain (Seq (chr 13) (chr 10)).
Definition unix_lines (t : text) : text := replace_all CRLF (fun _ => [NL]) t.

(** ** The section under a heading *)

(** /^##[ \t]+/ *)
Definition H2 : regex := plain (seqs [Bol; str "##"; plus blank]).

Fixpoint section_lines (heading : regex) (section : option (list text)) (visible original : list text)
    : option (list text) :=
  match visible, original with
  | line :: visible, raw :: original =>
      if test H2 line then
        match section with
        | Some _ => section
        | None => section_lines heading (if test heading line then Some [] else None) visible original
        end
      else section_lines heading (option_map (fun s => s ++ [raw]) section) visible original
  | _, _ => section
  end.

Definition extractReviewSection (body : text) (heading : regex) : option text :=
  let t := unix_lines body in
  option_map unlines (section_lines heading None (lines (maskReviewFences t)) (lines t)).

(** ** The empty section *)

(** /^-\s+None(?:\.(?:\s+.* )?|\s* )$/i *)
Definition SENTINEL : regex :=
  icase_re (seqs [Bol; chr 45; plus space; str "None";
                  Alt (Seq (chr 46) (opt (Seq (plus space) (star dot)))) (star space); Eol]).
Definition LABELS : re :=
  alts [str "Category"; str "File"; str "Lines"; str "Problem"; str "Why it matters"; str "Recommended fix"].
Definition LABEL_CLOSE : re := Alt (str ":**") (seqs [str "**"; blanks; chr 58]).
Definition FIELD_MARKER : regex := icase_re (seqs [str "**"; Grp 1 LABELS; LABEL_CLOSE]).
Definition LIST_ITEM : regex :=
  plain (Seq Bol (Alt (Seq (Cls false (oneof "-*+")) (plus space)) (seqs [digits; chr 46; plus space]))).
Definition LEADING_SPACE : regex := plain (Seq Bol (star space)).
Definition leading (r : regex) (line : text) : text := match exec r line with Some m => m_text m | None => [] end.

Definition isNoneFindingsSentinelOnly (ls : list text) : bool :=
  match filter_b (fun line => nonblank (ttrim line)) ls with
  | [] => true
  | first :: others =>
      test SENTINEL (ttrim first)
      && every_b (fun line =>
           let trimmed := ttrim line in
           test SENTINEL trimmed
           || negb (test FIELD_MARKER trimmed) && negb (test LIST_ITEM trimmed)
              && Nat.ltb (length (leading LEADING_SPACE first)) (length (leading LEADING_SPACE line))) others
  end.

(** ** Finding cards *)

Inductive field := Category | File | Lines | Problem | WhyItMatters | RecommendedFix.
#[export] Instance field_eq_dec : EqDecision field.
Proof. solve_decision. Defined.

Record finding := { title : option text; fields : list (field * text) }.
Definition get_field (f : finding) (k : field) : option text :=
  option_map snd (find_b (fun kv => bool_decide (fst kv = k)) (fields f)).
(** [current[k] = v] for a field that is not set. *)
Definition set_field (f : finding) (k : field) (v : text) : finding :=
  {| title := title f; fields := fields f ++ [(k, v)] |}.

Definition field_names : list (text * field) :=
  [(T "category", Category); (T "file", File); (T "lines", Lines); (T "problem", Problem);
   (T "why it matters", WhyItMatters); (T "recommended fix", RecommendedFix)].
Definition field_of (key : text) : option field :=
  option_map snd (find_b (fun kv => teqb (fst kv) key) field_names).

Definition BOLD_LABEL : regex :=
  icase_re (seqs [Bol; blanks; opt (Seq (chr 45) (plus blank)); str "**"; Grp 1 LABELS; LABEL_CLOSE;
                  blanks; Grp 2 (lazy_star dot); blanks; Eol]).
Definition matchBoldLabel (raw : text) : option (field * text) :=
  match exec BOLD_LABEL raw with
  | Some m =>
      match field_of (tlower (group_or_empty m 1)) with
      | Some k => Some (k, ttrim (group_or_empty m 2))
      | None => None
      end
  | None => None
  end.

Definition INDENT : regex := plain (Seq Bol blanks).
Definition TAB : regex := plain (chr 9).
Definition indentWidth (raw : text) : nat := length (replace_all TAB (fun _ => T "    ") (leading INDENT raw)).

(** /^-[ \t]+\*\*(.+?)\*\*(.* )$/ and /[ \t]*:[ \t]*$/u *)
Definition BULLET_TITLE : regex :=
  plain (seqs [Bol; chr 45; plus blank; str "**"; Grp 1 (lazy_plus dot); str "**"; Grp 2 (star dot); Eol]).
Definition TRAILING_COLON : regex := plain (seqs [blanks; chr 58; blanks; Eol]).
Definition parseBulletBoldTitle (raw : text) : option text :=
  match exec BULLET_TITLE raw with
  | Some m =>
      let title := ttrim (group_or_empty m 1) in
      let normalized := replace TRAILING_COLON (fun _ => []) (tlower title) in
      if t_in normalized (map fst field_names) then None else Some title
  | None => None
  end.
(** A title that is the empty text is falsy. *)
Definition bullet_title (raw : text) : option text :=
  match parseBulletBoldTitle raw with Some (c :: t) => Some (c :: t) | _ => None end.

(** /^[ \t]*###[ \t]+(.+?)[ \t]*$/ *)
Definition H3 : regex := plain (seqs [Bol; blanks; str "###"; plus blank; Grp 1 (lazy_plus dot); blanks; Eol]).
Definition isFindingBoundary (raw : text) : bool :=
  test H3 raw || match bullet_title raw with Some _ => true | None => false end.

(** A section as its rows: the masked line and the original line. *)
Definition row := (text * text)%type.

(** The text nested under a label: the parts, and how many rows they use. *)
Fixpoint nested (indent : nat) (rows : list row) (n : nat) (parts : list text) (used : nat) : list text * nat :=
  match rows with
  | [] => (parts, used)
  | (line, raw) :: rows =>
      if negb (nonblank (ttrim raw)) then nested indent rows (S n) (parts ++ [[]]) used
      else if Nat.leb (indentWidth raw) indent
              || match matchBoldLabel line with Some _ => true | None => false end || isFindingBoundary line
      then (parts, used)
      else nested indent rows (S n) (parts ++ [ttrim raw]) (S n)
  end.

(** At the first row: the field, its value, and the rows used after the first. *)
Definition parseBoldLabel (rows : list row) : option (field * text * nat) :=
  match rows with
  | [] => None
  | (line, _) :: rows =>
      match matchBoldLabel line with
      | None => None
      | Some (k, v) =>
          let '(parts, used) := nested (indentWidth line) rows 0 (if nonblank v then [v] else []) 0 in
          let value := ttrim (unlines parts) in
          if nonblank value then Some (k, value, used) else None
      end
  end.

(** The fields set in the card that begins before these rows. *)
Fixpoint card_fields (rows : list row) : list field :=
  match rows with
  | [] => []
  | (line, _) :: rest =>
      if isFindingBoundary line then []
      else match parseBoldLabel rows with Some (k, _, _) => k :: card_fields rest | None => card_fields rest end
  end.
Definition cardHasRequiredFields (rows : list row) : bool :=
  let seen := card_fields rows in
  existsb (fun k => bool_decide (k = File)) seen && existsb (fun k => bool_decide (k = Problem)) seen.

(** ** The legacy shapes *)

Definition TITLE_LINE : regex :=
  icase_re (seqs [Bol; blanks; chr 45; plus blank; str "Title"; blanks; chr 58; blanks; Grp 1 (star dot); Eol]).
Definition FILE_LINE : regex :=
  icase_re (seqs [Bol; blanks; opt (Grp 1 (Seq (chr 45) (plus blank))); str "File"; blanks; chr 58; blanks;
                  Grp 2 (star dot); Eol]).
Definition field_line (name : string) : regex :=
  icase_re (seqs [Bol; blanks; opt (Seq (chr 45) (plus blank)); str name; blanks; chr 58; blanks;
                  Grp 1 (star dot); Eol]).

Definition push (findings : list finding) (current : option finding) : list finding :=
  match current with Some f => findings ++ [f] | None => findings end.
Definition unset (f : finding) (k : field) : bool := match get_field f k with None => true | Some _ => false end.

(** A line that starts no card and sets no labelled field. *)
Definition legacy_line (findings : list finding) (current : option finding) (raw : text)
    : list finding * option finding :=
  match exec TITLE_LINE raw with
  | Some m => (push findings current, Some {| title := Some (ttrim (group_or_empty m 1)); fields := [] |})
  | None =>
  match exec FILE_LINE raw with
  | Some m =>
      let dash := match group m 1 with Some g => nonblank g | None => false end in
      let value := ttrim (group_or_empty m 2) in
      match current with
      | None =>
          if dash then (findings, Some (set_field {| title := None; fields := [] |} File value))
          else (findings, None)
      | Some f =>
          if unset f File then (findings, Some (set_field f File value))
          else if dash then (findings ++ [f], Some (set_field {| title := None; fields := [] |} File value))
          else (findings, Some f)
      end
  | None =>
  match current with
  | None => (findings, None)
  | Some f =>
      let problem :=
        match exec (field_line "Problem") raw with
        | Some m => if unset f Problem then set_field f Problem (ttrim (group_or_empty m 1)) else f
        | None => f
        end in
      match exec (field_line "Lines") raw with
      | Some m => (findings, Some (if unset f Lines then set_field f Lines (ttrim (group_or_empty m 1)) else problem))
      | None => (findings, Some problem)
      end
  end end end.

(** The loop over the rows. A label that took nested rows skips them, so the
    recursion is on fuel; [None] would be out of fuel. *)
Fixpoint scan_rows (fuel : nat) (incomplete : bool) (findings : list finding) (current : option finding)
    (rows : list row) : option (list finding) :=
  match rows, fuel with
  | [], _ => Some (push findings current)
  | _, O => None
  | (raw, _) :: rest, S fuel =>
      let start t := scan_rows fuel incomplete (push findings current) (Some {| title := Some t; fields := [] |}) rest in
      let legacy := let '(findings, current) := legacy_line findings current raw in
                    scan_rows fuel incomplete findings current rest in
      let labelled :=
        match parseBoldLabel rows, current with
        | Some (k, v, used), Some f =>
            if unset f k then scan_rows fuel incomplete findings (Some (set_field f k v)) (drop used rest) else legacy
        | _, _ => legacy
        end in
      let bulleted :=
        match bullet_title raw with
        | Some t =>
            if incomplete || cardHasRequiredFields rest
               || match current with
                  | None => true
                  | Some f => match get_field f Problem with Some (_ :: _) => false | _ => true end
                  end
            then start t else labelled
        | None => labelled
        end in
      match exec H3 raw with
      | Some m => if incomplete || cardHasRequiredFields rest then start (ttrim (group_or_empty m 1)) else bulleted
      | None => bulleted
      end
  end.
Definition scan_cards (incomplete : bool) (rows : list row) : list finding :=
  default [] (scan_rows (length rows) incomplete [] None rows).

(** /^-\s+/ and /^\*\*(.+?)\*\*[ \t]*:?.*$/ *)
Definition DASH_START : regex := plain (seqs [Bol; chr 45; plus space]).
Definition BOLD_START : regex :=
  plain (seqs [Bol; str "**"; Grp 1 (lazy_plus dot); str "**"; blanks; opt (chr 58); star dot; Eol]).

Definition fallback_title (ls : list text) : text :=
  let ls := filter_b nonblank (map ttrim ls) in
  match ls with
  | [] => []
  | l0 :: _ =>
      let line := default l0 (find_b (fun line => negb (test SENTINEL line)) ls) in
      ttrim (replace BOLD_START (fun m => group_or_empty m 1) (ttrim (replace DASH_START (fun _ => []) line)))
  end.

Definition titled (t : text) : finding := {| title := Some t; fields := [] |}.

Definition parseReviewFindingsSection (body : text) (heading : regex) (incomplete : bool) : option (list finding) :=
  if negb (nonblank (ttrim body)) then None
  else
    match extractReviewSection body heading with
    | None => None
    | Some rawSection =>
        let section := ttrim rawSection in
        if negb (nonblank section) then Some []
        else
          let originalLines := lines section in
          let ls := lines (maskReviewFences section) in
          if isNoneFindingsSentinelOnly ls then Some []
          else
            match scan_cards incomplete (combine ls originalLines) with
            | (_ :: _) as findings => Some findings
            | [] =>
                match omap bullet_title ls with
                | (_ :: _) as titles => Some (map titled titles)
                | [] => match fallback_title ls with [] => Some [] | t => Some [titled t] end
                end
            end
    end.

(** /^##[ \t]+Blocking[ \t]+Issues?[ \t]*$/i, /^##[ \t]+Non[- \t]+blocking[ \t]+Issues?[ \t]*$/i *)
Definition BLOCKING_HEADING : regex :=
  icase_re (seqs [Bol; str "##"; plus blank; str "Blocking"; plus blank; str "Issue"; opt (chr 115); blanks; Eol]).
Definition NON_BLOCKING_HEADING : regex :=
  icase_re (seqs [Bol; str "##"; plus blank; str "Non"; plus (Cls false [CRange 45 45; CRange 32 32; CRange 9 9]);
                  str "blocking"; plus blank; str "Issue"; opt (chr 115); blanks; Eol]).
Definition parseBlockingFindingsSection (body : text) (incomplete : bool) : option (list finding) :=
  parseReviewFindingsSection body BLOCKING_HEADING incomplete.
Definition parseNonBlockingFindingsSection (body : text) : option (list finding) :=
  parseReviewFindingsSection body NON_BLOCKING_HEADING false.

(** ** Templates and counts *)

Definition TEMPLATE_PLACEHOLDER_VALUES : list text :=
  map T ["<title>"; "<path>"; "<range>"; "<one paragraph>"; "<text>"].

(** /^(?:\*\*|__|`)+|(?:\*\*|__|`)+$/g *)
Definition MARKUP : re := plus (alts [str "**"; str "__"; chr 96]).
Definition MARKUP_ENDS : regex := plain (Alt (Seq Bol MARKUP) (Seq MARKUP Eol)).
Definition bareValue (value : text) : text := ttrim (replace_all MARKUP_ENDS (fun _ => []) (ttrim value)).

Definition field_values (f : finding) : list text :=
  map (default []) (title f :: map (get_field f) [File; Lines; Problem; WhyItMatters; RecommendedFix]).
Definition isTemplatePlaceholderFinding (f : finding) (placeholders : list text) : bool :=
  let tokens := map tlower placeholders in
  Nat.leb 2 (count_b (fun v => t_in (tlower (bareValue v)) tokens) (field_values f)).

Inductive section_state := Known | UnknownState.
Record section_findings := { count : nat; state : section_state; malformed : bool; findings : list finding }.

Definition classify (found : option (list finding)) : section_findings :=
  match found with
  | Some fs =>
      if some_b (fun f => isTemplatePlaceholderFinding f TEMPLATE_PLACEHOLDER_VALUES) fs
      then {| count := 0; state := UnknownState; malformed := true; findings := [] |}
      else {| count := length fs; state := Known; malformed := false; findings := fs |}
  | None => {| count := 0; state := UnknownState; malformed := false; findings := [] |}
  end.

Record review_findings := { blocking : section_findings; nonBlocking : section_findings; findingsCount : option nat }.

Definition parseReviewFindings (body : text) : review_findings :=
  let normalized := unix_lines body in
  let b := classify (parseBlockingFindingsSection normalized false) in
  let n := classify (parseNonBlockingFindingsSection normalized) in
  {| blocking := b; nonBlocking := n;
     findingsCount := match state b, state n with Known, Known => Some (count b + count n) | _, _ => None end |}.

(** ** Evidence of a blocking finding *)

Definition anything : re := Cls true [].
Definition BEHAVIOUR : regex :=
  icase_re (seqs [Wb; str "Input or state:"; star space; nonspace; lazy_star anything; chr 59; star space;
                  str "Wrong outcome:"; star space; nonspace]).
Definition BEHAVIOUR_TEMPLATE : regex :=
  icase_re (seqs [chr 60; Alt (str "concrete trigger") (str "observed or directly demonstrated failure"); chr 62]).
Definition hasFailingBehaviour (problem : text) : bool :=
  test BEHAVIOUR problem && negb (test BEHAVIOUR_TEMPLATE problem).

(** A path, then a numeric list after the last colon that allows one. *)
Definition PATH_CITATION : regex :=
  plain (seqs [Bol; Grp 1 (lazy_star dot); chr 58;
               Grp 2 (seqs [digits; opt (seqs [star space; DASH; star space; digits]);
                            star (seqs [star space; Cls false (oneof ",;"); star space; digits;
                                        opt (seqs [star space; DASH; star space; digits])])]); Eol]).

Definition Z_num (z : Z) : num := num_of_Z z.
Definition bad_range (r : range) : bool :=
  negb (is_safe_integer (r_start r)) || negb (is_safe_integer (r_end r))
  || num_ltb (r_start r) (Z_num 1) || num_ltb (r_end r) (r_start r).

Definition findingEvidenceLocation (f : finding) : option location :=
  let raw := clean (default [] (get_field f File)) in
  let citation := exec PATH_CITATION raw in
  let path := match citation with Some m => group_or_empty m 1 | None => raw end in
  if negb (nonblank path) || tstarts (T "/") path
     || some_b (fun p => t_in p [T ".."; T "."; []]) (tsplit 47 path) then None
  else
    let ls := match get_field f Lines with
              | Some (c :: l) => c :: l
              | _ => match citation with Some m => group_or_empty m 2 | None => [] end
              end in
    match findingLineRanges ls path with
    | [] => None
    | ranges => if some_b bad_range ranges then None else Some {| l_path := path; l_ranges := ranges |}
    end.

(** What reading a file at the head answers. *)
Inductive head_content :=
| Content (t : text)
| Unreadable (reason : text).

(** /\n$/ *)
Definition LAST_NEWLINE : regex := plain (Seq (chr 10) Eol).
Definition line_count (content : text) : nat :=
  match content with [] => 0 | _ => length (lines (replace LAST_NEWLINE (fun _ => []) content)) end.

(** [headContent] reads the head of the pull request. *)
Definition blockingEvidenceReason (headContent : text -> head_content) (f : finding) : option text :=
  match findingEvidenceLocation f with
  | None => Some (T "missing-location")
  | Some loc =>
      if negb (hasFailingBehaviour (default [] (get_field f Problem))) then Some (T "missing-behaviour")
      else
        match headContent (l_path loc) with
        | Unreadable reason => if teqb reason (T "missing-at-head") then Some reason else None
        | Content t =>
            if some_b (fun r => num_ltb (Z_num (Z.of_nat (line_count t))) (r_end r)) (l_ranges loc)
            then Some (T "lines-beyond-head") else None
        end
  end.

(** ** The loops of the parsers end *)

Lemma scan_rows_enough fuel fuel' incomplete fs current rows :
  length rows <= fuel -> length rows <= fuel' ->
  scan_rows fuel incomplete fs current rows = scan_rows fuel' incomplete fs current rows
  /\ is_Some (scan_rows fuel incomplete fs current rows).
Proof.
  revert fuel' fs current rows. induction fuel as [|fuel IH]; intros [|fuel'] fs current [|[line raw] rows] H H';
    try (simpl in H, H'; lia); try (by simpl; eauto).
  simpl in H, H'. cbn [scan_rows].
  assert (Hrest : forall fs' current' n,
    scan_rows fuel incomplete fs' current' (drop n rows) = scan_rows fuel' incomplete fs' current' (drop n rows)
    /\ is_Some (scan_rows fuel incomplete fs' current' (drop n rows)))
    by (intros; apply IH; rewrite length_drop; lia).
  assert (Hnext : forall fs' current',
    scan_rows fuel incomplete fs' current' rows = scan_rows fuel' incomplete fs' current' rows
    /\ is_Some (scan_rows fuel incomplete fs' current' rows)) by (intros fs' current'; apply (Hrest _ _ 0)).
  assert (Hlegacy : let a := let '(fs', current') := legacy_line fs current line in scan_rows fuel incomplete fs' current' rows in
    a = (let '(fs', current') := legacy_line fs current line in scan_rows fuel' incomplete fs' current' rows) /\ is_Some a)
    by (destruct (legacy_line fs current line); apply Hnext).
  destruct (exec H3 line) as [m|]; [destruct (_ || cardHasRequiredFields _); [apply Hnext|]|];
    (destruct (bullet_title line) as [t|]; [destruct (_ || _); [apply Hnext|]|]);
    (destruct (parseBoldLabel _) as [[[k v] used]|]; [|apply Hlegacy]);
    (destruct current as [f|]; [|apply Hlegacy]); (destruct (unset f k); [apply Hrest | apply Hlegacy]).
Qed.

(** The parsers' loops end. The list of line citations and the scan for finding
    cards, whose label reading moves the index forward, both give a result, and
    the same one for any fuel from the bound the definitions use: every citation
    reads at least one digit and every step of the scan uses at least one row. *)
Theorem parser_loops_terminate (value : text) (incomplete : bool) (rows : list row) :
  (exists ranges rest, forall fuel, length value < fuel -> read_list fuel [] value = Some (ranges, rest))
  /\ (exists cards, scan_cards incomplete rows = cards
       /\ forall fuel, length rows <= fuel -> scan_rows fuel incomplete [] None rows = Some cards).
Proof.
  split.
  - destruct (read_list_enough (S (length value)) (S (length value)) [] value ltac:(lia) ltac:(lia)) as [_ [[rs r] E]].
    exists rs, r. intros fuel Hf. rewrite <- E. by apply read_list_enough; [|lia].
  - unfold scan_cards.
    destruct (scan_rows_enough (length rows) (length rows) incomplete [] None rows ltac:(lia) ltac:(lia)) as [_ [cs E]].
    exists cs. rewrite E. split; [done|]. intros fuel Hf. rewrite <- E. by apply scan_rows_enough.
Qed.

(** ** Evidence *)

Definition range_within (r : range) (last : num) : Prop :=
  is_safe_integer (r_start r) = true /\ is_safe_integer (r_end r) = true
  /\ num_leb (num_of_Z 1) (r_start r) = true /\ num_leb (r_start r) (r_end r) = true
  /\ num_leb (r_end r) last = true.

Lemma safe_not_nan x : is_safe_integer x = true -> is_nan x = false.
Proof. unfold is_safe_integer. by destruct x. Qed.

(** A path relative to the repository, without a step out of it. *)
Definition safe_path (p : text) : Prop :=
  p <> [] /\ tstarts (T "/") p = false /\ forall part, In part (tsplit 47 p) -> part <> [] /\ part <> T "." /\ part <> T "..".

Lemma evidence_location_safe f loc :
  findingEvidenceLocation f = Some loc ->
  safe_path (l_path loc) /\ l_ranges loc <> [] /\ forall r, In r (l_ranges loc) -> bad_range r = false.
Proof.
  unfold findingEvidenceLocation. set (raw := clean _). set (path := match exec PATH_CITATION raw with Some m => _ | None => _ end).
  destruct (negb (nonblank path) || tstarts (T "/") path || _) eqn:E; [done|].
  apply orb_false_iff in E as [[En Es]%orb_false_iff Ep]. case_match eqn:Er; [done|].
  destruct (some_b bad_range _) eqn:Eb; [done|]. intros [= <-]. cbn [l_path l_ranges].
  split; [|split; [done|]; intros x Hx; by apply (some_b_false _ _ _ Eb)].
  split; [by intros ->|]. split; [done|]. intros part Hp. pose proof (some_b_false _ _ _ Ep Hp) as Hn. cbv beta in Hn.
  assert (Hnot : forall q, In q [T ".."; T "."; []] -> part <> q).
  { intros q Hq ->. by rewrite (proj2 (t_in_In q _) Hq) in Hn. }
  split; [apply Hnot; simpl; auto|]. split; apply Hnot; simpl; auto.
Qed.

(** C24. A blocking finding is only accepted on evidence. When a readable head gives
    no reason against it, the finding names a relative path that stays inside
    the repository, states a failing behaviour that is not the template's, and
    cites at least one range, each of safe integers with 1 <= start <= end, and
    the end is at most the number of lines of that file at the head. *)
Theorem accepted_evidence_is_grounded (headContent : text -> head_content) (f : finding) :
  blockingEvidenceReason headContent f = None ->
  exists loc, findingEvidenceLocation f = Some loc /\ safe_path (l_path loc)
    /\ hasFailingBehaviour (default [] (get_field f Problem)) = true
    /\ l_ranges loc <> []
    /\ forall content, headContent (l_path loc) = Content content ->
         (Z.of_nat (line_count content) <= max_safe_integer)%Z ->
         forall r, In r (l_ranges loc) -> range_within r (num_of_Z (Z.of_nat (line_count content))).
Proof.
  unfold blockingEvidenceReason. destruct (findingEvidenceLocation f) as [loc|] eqn:El; [|done].
  destruct (hasFailingBehaviour _) eqn:Eb; [|done]. cbn [negb]. intros Hn. exists loc.
  destruct (evidence_location_safe f loc El) as (Hp & Hne & Hr). repeat (split; [done|]).
  intros content Hc Hsafe x Hx. rewrite Hc in Hn. destruct (some_b _ (l_ranges loc)) eqn:Er; [done|].
  pose proof (some_b_false _ _ _ Er Hx) as Hend. specialize (Hr x Hx). unfold bad_range, Z_num in *.
  apply orb_false_iff in Hr as [[[H1 H2]%orb_false_iff H3]%orb_false_iff H4].
  apply negb_false_iff in H1, H2. pose proof (safe_not_nan _ H1). pose proof (safe_not_nan _ H2).
  rewrite num_ltb_leb in H3, H4, Hend by first [done | apply num_of_Z_not_nan; unfold max_safe_integer in *; lia].
  apply negb_false_iff in H3, H4, Hend. repeat split; done.
Qed.

Definition ex_finding : finding :=
  {| title := Some (T "Off by one"); fields := [(File, T "src/a.mjs"); (Lines, T "2-3");
     (Problem, T "Input or state: an empty list; Wrong outcome: it throws")] |}.
Definition ex_content : text := unlines (map T ["a"; "b"; "c"]).

Lemma accepted_evidence_is_grounded_witness :
  exists loc, findingEvidenceLocation ex_finding = Some loc
    /\ forall r, In r (l_ranges loc) -> range_within r (num_of_Z 3).
Proof.
  destruct (accepted_evidence_is_grounded (fun _ => Content ex_content) ex_finding) as (loc & Hl & _ & _ & _ & H).
  - vm_compute. reflexivity.
  - exists loc. split; [exact Hl|]. intros r. apply (H ex_content eq_refl). vm_compute. discriminate.
Defined.

(** ** A section that is all fence

    The structure of a section is read on its masked lines, so a section whose
    only content is a code block has no visible line and reads as empty. *)

Theorem fenced_section_reads_empty (body raw : text) (heading : regex) (incomplete : bool) :
  nonblank (ttrim body) = true -> extractReviewSection body heading = Some raw ->
  (forall l, In l (lines (maskReviewFences (ttrim raw))) -> nonblank (ttrim l) = false) ->
  parseReviewFindingsSection body heading incomplete = Some [].
Proof.
  intros Hb Hr Hl. unfold parseReviewFindingsSection. rewrite Hb, Hr. cbn [negb].
  destruct (nonblank (ttrim raw)); [|done]. cbn [negb].
  assert (Hs : isNoneFindingsSentinelOnly (lines (maskReviewFences (ttrim raw))) = true); [|by rewrite Hs].
  unfold isNoneFindingsSentinelOnly. destruct (filter_b _ _) as [|l ls] eqn:E; [done|]. exfalso.
  assert (Hin : In l (l :: ls)) by (by left). rewrite <- E in Hin. apply List.filter_In in Hin as [Hin Hv].
  by rewrite Hl in Hv.
Qed.
