(* ===== verification/Verdict.v ===== *)
(** * Verdicts of review text (kernel/verdict.mjs)

    The verdict line of a review, its normalization, its reconciliation with the
    structured blocking findings, and the trimming of a reply to its canonical
    sections. *)

From Stdlib Require Import ZArith Lia ZifyBool ZifyN Ascii.
From stdpp Require Import base list strings.
From S2P Require Import Prelude JsNum JsText JsRegExp ReviewMarkdown FindingLines ReviewFindings.

Inductive verdict_kind := RequestChanges | CommentOnly | Approved | Unknown.
#[export] Instance verdict_kind_eq_dec : EqDecision verdict_kind.
Proof. solve_decision. Defined.

(** ** Verdict lines *)

(** /[*_`~]/g, /^(?:\s*[-*]\s+)+/, /\s+/g *)
Definition EMPHASIS : regex := plain (Cls false (oneof "*_`~")).
Definition bullet : re := seqs [star space; Cls false (oneof "-*"); plus space].
Definition BULLETS : regex := plain (Seq Bol (plus bullet)).
Definition SPACES : regex := plain (plus space).

Definition normalizeVerdictText (verdict : text) : text :=
  tlower (ttrim (replace_all SPACES (fun _ => [SP])
    (replace BULLETS (fun _ => []) (replace_all EMPHASIS (fun _ => [SP]) verdict)))).

(** /^approved\b/ *)
Definition APPROVED : regex := plain (seqs [Bol; str "approved"; Wb]).

(** [null] reads as the empty text. *)
Definition normalizeReviewVerdict (verdict : text) : option verdict_kind :=
  let t := normalizeVerdictText verdict in
  if negb (nonblank t) then None
  else if tstarts (T "request changes") t then Some RequestChanges
  else if tstarts (T "comment only") t then Some CommentOnly
  else if teqb t (T "approve") || test APPROVED t then Some Approved
  else Some Unknown.

Definition REQUEST_CHANGES : regex := icase_re (seqs [Bol; str "request changes"; Wb]).
Definition STILL_BLOCKING : regex :=
  icase_re (seqs [Wb;
    alts [str "not"; str "never"; str "still"; str "remain"; str "remains"; str "must"; str "need"; str "needs";
          str "required"; str "requires"; str "unresolved"; str "unsafe"; str "broken"; str "failing";
          Seq (str "fail") (opt (chr 115)); str "regression"; str "blocker"; str "blocking"; str "before merge"]; Wb]).
Definition RESOLVED : regex :=
  icase_re (seqs [Bol; str "request changes"; Wb; Rep 0 (Some 160) true dot; Wb;
    seqs [alts [str "are"; str "is"; str "were"; str "was"; str "have been"; str "has been"; str "have now been";
                str "has now been"; str "now"; str "already"]; plus space;
          alts [str "resolved"; str "addressed"; str "fixed"; str "closed"]]; Wb]).

Definition isResolvedRequestChangesProse (normalized : text) : bool :=
  test REQUEST_CHANGES normalized && negb (test STILL_BLOCKING normalized) && test RESOLVED normalized.

Definition normalizeVerdictSectionLine (verdict : text) : option verdict_kind :=
  let normalized := normalizeVerdictText verdict in
  if negb (nonblank normalized) then None
  else if isResolvedRequestChangesProse normalized then Some Unknown
  else normalizeReviewVerdict normalized.

(** ** The verdict section *)

Definition multi (r : re) : regex := {| pattern := r; icase := false; multiline := true |}.
(** /^##\s+Verdict\s*$/im, /^##\s+/m *)
Definition VERDICT_HEADING : regex :=
  {| pattern := seqs [Bol; str "##"; plus space; str "Verdict"; star space; Eol]; icase := true; multiline := true |}.
Definition NEXT_HEADING : regex := multi (seqs [Bol; str "##"; plus space]).

(** The lines of the section, [None] without a heading. *)
Definition verdict_lines (reviewBody : text) : option (list text) :=
  let t := maskReviewFences reviewBody in
  match exec VERDICT_HEADING t with
  | None => None
  | Some heading =>
      let remainder := drop (m_end heading) t in
      let section := match search NEXT_HEADING remainder with Some n => take n remainder | None => remainder end in
      Some (filter_b nonblank (map ttrim (lines section)))
  end.

Definition is_kind (k : verdict_kind) (v : option verdict_kind) : bool := bool_decide (v = Some k).
Definition decided (v : option verdict_kind) : bool :=
  match v with None | Some Unknown => false | Some _ => true end.

(** The line that carries the verdict. *)
Definition pick_verdict (ls : list text) : option text :=
  let requests := filter_b (fun l => is_kind RequestChanges (normalizeVerdictSectionLine l)) ls in
  let permissive := existsb (fun l => is_kind CommentOnly (normalizeVerdictSectionLine l)) ls
                    || existsb (fun l => is_kind Approved (normalizeVerdictSectionLine l)) ls in
  if match requests with [] => false | _ => true end && permissive then last requests
  else match last (filter_b (fun l => decided (normalizeVerdictSectionLine l)) ls) with
       | Some l => Some l
       | None => last ls
       end.

Definition extractReviewVerdict (reviewBody : text) : option text :=
  match verdict_lines reviewBody with None | Some [] => None | Some ls => pick_verdict ls end.

(** The verdict the consumers use. *)
Definition reconcile (st : section_state) (n : nat) (verdict : option verdict_kind) : option verdict_kind :=
  match st with
  | Known =>
      if Nat.eqb n 0 && is_kind RequestChanges verdict then Some CommentOnly
      else if Nat.ltb 0 n && (is_kind CommentOnly verdict || is_kind Approved verdict) then Some RequestChanges
      else verdict
  | UnknownState => verdict
  end.
Definition normalizeEffectiveReviewVerdict (reviewBody : text) : option verdict_kind :=
  let normalizedVerdict := normalizeReviewVerdict (default [] (extractReviewVerdict reviewBody)) in
  let blockingIssues := blocking (parseReviewFindings reviewBody) in
  reconcile (state blockingIssues) (count blockingIssues) normalizedVerdict.

(** ** Canonical sections *)

Definition BLANK_LINES : regex := plain (Rep 3 None true (chr 10)).
Definition normalizeWhitespace (t : text) : text :=
  ttrim (replace_all BLANK_LINES (fun _ => [NL; NL]) (unix_lines t)).

Definition HEADINGS : list (text * text) :=
  [(T "summary", T "Summary"); (T "blocking issues", T "Blocking issues");
   (T "non-blocking issues", T "Non-blocking issues"); (T "suggested fixes", T "Suggested fixes");
   (T "verdict", T "Verdict"); (T "simplicity and cost (advisory)", T "Simplicity and cost (advisory)")].
Definition canonicalReviewSectionHeading (value : text) : option text :=
  let key := tlower (replace_all SPACES (fun _ => [SP]) (ttrim value)) in
  option_map snd (find_b (fun kv => teqb (fst kv) key) HEADINGS).
(** Interpolated in a text, [null] reads as such. *)
Definition heading_text (h : option text) : text := default (T "null") h.

Definition SECTION_NAMES : re :=
  alts [str "summary"; str "blocking issues"; str "non-blocking issues"; str "suggested fixes"; str "verdict";
        str "simplicity and cost (advisory)"].
Definition gim (r : re) : regex := {| pattern := r; icase := true; multiline := true |}.
Definition HEADING_MARK : re := seqs [Rep 1 (Some 4) true (chr 35); plus blank].
Definition INLINE_HEADING : regex :=
  gim (seqs [Bol; HEADING_MARK; Grp 1 SECTION_NAMES; blanks; chr 58; blanks; Grp 2 (Seq nonspace (star dot)); Eol]).
Definition BARE_HEADING : regex :=
  gim (seqs [Bol; HEADING_MARK; Grp 1 SECTION_NAMES; blanks; opt (chr 58); blanks; opt (chr 13); Eol]).

Definition promote_line (line : text) : text :=
  replace_all BARE_HEADING
    (fun m => T "## " ++ heading_text (canonicalReviewSectionHeading (group_or_empty m 1)))
    (replace_all INLINE_HEADING
      (fun m => T "## " ++ heading_text (canonicalReviewSectionHeading (group_or_empty m 1))
                ++ [NL] ++ ttrim (group_or_empty m 2)) line).
Definition promoteCanonicalReviewSectionHeadings (t : text) : text :=
  mapUnfencedReviewLines t promote_line (fun line => line).

(** The two patterns of canonical and of top level sections, global. *)
Definition CANONICAL_SECTION : regex :=
  gim (seqs [Bol; str "##"; plus blank; Grp 1 SECTION_NAMES; blanks; Eol]).
Definition TOP_LEVEL_SECTION : regex := gim (seqs [Bol; str "##"; plus blank; nonspace; star dot; Eol]).

Definition canonicalReviewSectionMatches (t : text) : list found := matchAll CANONICAL_SECTION (maskReviewFences t).
Definition nextTopLevelReviewSectionIndex (t : text) (afterIndex : nat) : nat :=
  match exec_from TOP_LEVEL_SECTION (maskReviewFences t) afterIndex with Some m => m_index m | None => length t end.

(** The sections up to the first repeated heading. *)
Fixpoint kept_sections (seen : list text) (ms : list found) : list (text * found) :=
  match ms with
  | [] => []
  | m :: ms =>
      let heading := heading_text (canonicalReviewSectionHeading (group_or_empty m 1)) in
      if t_in heading seen then [] else (heading, m) :: kept_sections (seen ++ [heading]) ms
  end.

Definition trimCanonicalReviewSections (t : text) (requireSummaryAndVerdict : bool) : result (option text) :=
  match canonicalReviewSectionMatches t with
  | [] => Ok None
  | ms =>
      let kept := kept_sections [] ms in
      guard negb requireSummaryAndVerdict
            || t_in (T "Summary") (map fst kept) && t_in (T "Verdict") (map fst kept)
      else PlainError "Codex payload missing required Summary/Verdict sections" in
      let trimmedSections :=
        map (fun s => normalizeWhitespace
               (slice (m_index (snd s)) (nextTopLevelReviewSectionIndex t (m_end (snd s))) t)) kept in
      let sanitized := ttrim (tjoin [NL; NL] trimmedSections) in
      guard nonblank sanitized else PlainError "Codex payload was empty after sanitation" in
      Ok (Some sanitized)
  end.

Definition JUNK : regex :=
  plain (alts [str "[client]"; str "[agent]"; str "running"; str "initializ"; str "session";
               str "reading additional input"; str "reading prompt from stdin"; str "could not update path";
               str "operation not permitted"; str "error:"; str "timed out"]).
Definition looksLikeRuntimeJunk (t : text) : bool := test JUNK (tlower t).

Definition sanitizeCodexReviewPayload (reviewText : text) : result text :=
  let t := promoteCanonicalReviewSectionHeadings (normalizeWhitespace reviewText) in
  let* sanitized := trimCanonicalReviewSections t true in
  match sanitized with
  | Some s => Ok s
  | None =>
      if looksLikeRuntimeJunk t
      then Throw (PlainError "Codex payload did not contain recognizable review sections and still looked like runtime junk")
      else Throw (PlainError "Codex payload did not contain recognizable review sections")
  end.

Definition sanitizeReviewPayloadBestEffort (reviewText : text) : result text :=
  match sanitizeCodexReviewPayload reviewText with
  | Ok s => Ok s
  | Throw _ =>
      let fallback := promoteCanonicalReviewSectionHeadings (normalizeWhitespace reviewText) in
      let* trimmed := trimCanonicalReviewSections fallback false in
      match trimmed with Some (c :: s) => Ok (c :: s) | _ => Ok fallback end
  end.

(** The body under a heading: [start] is the offset after the heading line. *)
Definition literal (t : text) : re := fold_right (fun c r => Seq (chr c) r) Eps t.
Definition section_heading (heading : text) : regex :=
  icase_re (seqs [Bol; str "##"; plus space; literal heading; star space; Eol]).
Definition ANY_H2 : regex := plain (seqs [Bol; str "##"; plus space]).

Fixpoint find_section (heading : regex) (t : text) (start : option nat) (offset : nat) (visible : list text)
    : option text :=
  match visible with
  | [] => option_map (fun s => drop s t) start
  | line :: visible =>
      match start with
      | Some s => if test ANY_H2 line then Some (slice s offset t)
                  else find_section heading t start (offset + length line + 1) visible
      | None => find_section heading t (if test heading line then Some (offset + length line) else None)
                  (offset + length line + 1) visible
      end
  end.
Definition extractMarkdownSection (markdown heading : text) : option text :=
  let t := unix_lines markdown in
  find_section (section_heading heading) t None 0 (lines (maskReviewFences t)).

(** [section?.trim() || null]. *)
Definition extractSimplicityNote (reviewBody : text) : option text :=
  match extractMarkdownSection (promoteCanonicalReviewSectionHeadings reviewBody) (T "Simplicity and cost (advisory)") with
  | Some s => match ttrim s with [] => None | note => Some note end
  | None => None
  end.

(** ** Normalization is idempotent *)

Definition is_emphasis (c : N) : bool := in_cls false false (oneof "*_`~") c.
Definition is_bullet (c : N) : bool := in_cls false false (oneof "-*") c.

Lemma in_space c : in_cls false false [CSpace] c = is_space c.
Proof. unfold in_cls, in_items. simpl. by rewrite !orb_false_r. Qed.

Lemma in_spaces l : forallb (in_cls false false [CSpace]) l = forallb is_space l.
Proof. induction l as [|c l IH]; cbn [forallb]; [done|]. by rewrite in_space, IH. Qed.

Lemma is_emphasis_eq c : is_emphasis c = existsb (N.eqb c) [42; 95; 96; 126]%N.
Proof.
  unfold is_emphasis, in_cls, in_items, in_item, between. simpl. rewrite !orb_false_r.
  repeat f_equal; destruct (N.eqb_spec c 42), (N.eqb_spec c 95), (N.eqb_spec c 96), (N.eqb_spec c 126); lia.
Qed.

(** A bullet at the head of a text. *)
Definition bullet_head (u : text) : Prop :=
  exists s c s' v, u = s ++ c :: s' ++ v /\ forallb is_space s = true /\ is_bullet c = true
    /\ s' <> [] /\ forallb is_space s' = true.

Lemma bullet_head_runs x : bullet_head (rest x) -> exists y, runs false false bullet x y /\ at_ x < at_ y.
Proof.
  intros (s & c & s' & v & E & Hs & Hc & Hne & Hs').
  set (x1 := eat (length s) x). assert (E1 : rest x1 = c :: s' ++ v) by (unfold x1; rewrite rest_eat, E; by rewrite drop_app_length).
  set (x2 := advance c (s' ++ v) x1). exists (eat (length s') x2). split; [|simpl; lia].
  unfold bullet, seqs. eapply runs_seq; [|eapply runs_seq].
  - apply (runs_rep_cls _ _ _ _ _ _ x (length s)); rewrite E; [rewrite length_app; lia|].
    rewrite take_app_length. by rewrite in_spaces.
  - apply (runs_cls _ _ false (oneof "-*") x1 c (s' ++ v) E1). exact Hc.
  - apply (runs_rep_cls _ _ _ _ _ _ x2 (length s')); cbn [rest x2 advance]; [rewrite length_app; destruct s'; simpl in *; [done | lia]|].
    rewrite take_app_length. by rewrite in_spaces.
Qed.

Lemma runs_bullet_head x y : runs false false bullet x y -> bullet_head (rest x).
Proof.
  unfold bullet, seqs. inversion 1 as [| |? ? ? x1 ? H1 H2| | | | | | | | | |]; subst.
  apply runs_rep_cls_inv in H1 as (n & -> & Hn & Hf).
  inversion H2 as [| |? ? ? x2 ? H3 H4| | | | | | | | | |]; subst.
  inversion H3 as [|? ? ? c t E Ec| | | | | | | | | | |]; subst.
  apply runs_rep_cls_inv in H4 as (k & -> & Hk & Hf'). rewrite rest_eat in E. cbn [rest advance] in Hk, Hf'.
  exists (take n (rest x)), c, (take k t), (drop k t). rewrite take_drop, <- E, take_drop.
  repeat split; try done.
  - by rewrite <- in_spaces.
  - intros E'. apply (f_equal length) in E'. rewrite length_take in E'. simpl in E'. lia.
  - by rewrite <- in_spaces.
Qed.

Definition strip_bullets (t : text) : text := replace BULLETS (fun _ => []) t.

Lemma strip_bullets_head t : ~ bullet_head (strip_bullets t).
Proof.
  unfold strip_bullets, replace. rewrite (exec_anchored BULLETS (plus bullet)) by done. cbn [icase BULLETS plain].
  destruct (mtch false false (plus bullet) Some (start t 0)) as [y|] eqn:E; cbn [option_map].
  - cbn [splice m_index m_end]. unfold slice. rewrite Nat.sub_diag, take_0. cbn [app].
    assert (Hy : rest y = drop (at_ y) t).
    { pose proof E as E'. apply mtch_sound in E' as (y' & (w & Hw & Ha & _)%runs_after & [= ->]).
      cbn [start rest at_] in Hw, Ha. rewrite drop_0 in Hw. rewrite Hw, Ha. cbn [Nat.add]. by rewrite drop_app_length. }
    intros H. rewrite <- Hy in H. destruct (bullet_head_runs (clear_caps (groups bullet) y) H) as (z & Hz & Hlt).
    pose proof (plus_maximal _ _ _ _ _ _ E Hz) as Heq. cbn [at_ clear_caps] in Hlt. lia.
  - intros H. destruct (bullet_head_runs (start t 0)) as (z & Hz & Hlt); [exact H|]. revert E.
    eapply mtch_complete; [|done]. unfold plus.
    apply (runs_rep_more _ _ 1 None true bullet (start t 0) z z); [done|exact Hz|done|].
    apply runs_rep_stop. by left.
Qed.

Lemma strip_bullets_id t : ~ bullet_head t -> strip_bullets t = t.
Proof.
  intros Hn. unfold strip_bullets, replace. rewrite (exec_anchored BULLETS (plus bullet)) by done.
  destruct (mtch _ _ _ _ _) as [y|] eqn:E; [|done]. exfalso. apply Hn.
  cbn [icase BULLETS plain] in E. unfold plus in E. rewrite mtch_rep in E. unfold rep_step in E.
  cbn [Nat.eqb negb] in E. apply mtch_sound in E as (z & Hz & _). by apply runs_bullet_head in Hz.
Qed.

(** White space squeezed: single spaces between other units. *)
Fixpoint squeezed (t : text) : bool :=
  match t with
  | [] => true
  | c :: t' =>
      (if is_space c then (c =? SP)%N && match t' with c' :: _ => negb (is_space c') | [] => true end else true)
      && squeezed t'
  end.
Definition squeeze (t : text) : text := collapse is_space SP t.

Lemma replace_spaces t : replace_all SPACES (fun _ => [SP]) t = squeeze t.
Proof.
  unfold SPACES, plain, space. rewrite replace_all_runs. unfold squeeze.
  induction t as [|c t IH]; [done|]. cbn [collapse]. rewrite in_space, IH. destruct t as [|c' t]; [done|].
  by rewrite in_space.
Qed.

Lemma squeeze_squeezed t : squeezed (squeeze t) = true.
Proof.
  unfold squeeze. induction t as [|c t IH]; [done|]. cbn [collapse]. destruct (is_space c) eqn:Ec.
  - destruct t as [|c' t]; [done|]. destruct (is_space c') eqn:Ec'; [exact IH|].
    cbn [collapse] in *. rewrite Ec' in *. cbn [squeezed] in *. rewrite Ec' in *. exact IH.
  - cbn [squeezed]. by rewrite Ec.
Qed.

Lemma squeeze_id t : squeezed t = true -> squeeze t = t.
Proof.
  unfold squeeze. induction t as [|c t IH]; [done|]. cbn [squeezed collapse]. intros [Hc Ht]%andb_true_iff.
  rewrite IH by done. destruct (is_space c); [|done]. apply andb_true_iff in Hc as [->%N.eqb_eq Hh].
  destruct t as [|c' t]; [done|]. apply negb_true_iff in Hh. by rewrite Hh.
Qed.

Lemma squeezed_infix a b c : squeezed (a ++ b ++ c) = true -> squeezed b = true.
Proof.
  induction a as [|x a IH]; simpl; [|intros [_ H]%andb_true_iff; auto].
  induction b as [|x b IH]; [done|]. simpl. intros [Hx H]%andb_true_iff. rewrite IH by done.
  destruct (is_space x); [|done]. apply andb_true_iff in Hx as [-> Hx]. destruct b; [done|]. simpl in *. by rewrite Hx.
Qed.

Lemma squeezed_lower t : squeezed (tlower t) = squeezed t.
Proof.
  induction t as [|c t IH]; [done|]. unfold tlower in *. cbn [squeezed map]. rewrite IH, is_space_lower. f_equal.
  destruct (is_space c) eqn:Ec; [|done].
  assert (lower_unit c = c) as ->.
  { unfold lower_unit. destruct (between 65 90 c) eqn:E; [|done]. unfold is_space, between in *. lia. }
  destruct t as [|c' t]; simpl; [done|]. by rewrite is_space_lower.
Qed.

(** What stands at the head of a squeezed text stood there before. *)
Lemma squeeze_head t s c r :
  squeeze t = s ++ c :: r -> forallb is_space s = true -> is_space c = false ->
  exists s' u, t = s' ++ c :: u /\ forallb is_space s' = true /\ squeeze u = r.
Proof.
  unfold squeeze. revert s. induction t as [|d t IH]; intros s E Hs Hc; [by destruct s|].
  cbn [collapse] in E. destruct (is_space d) eqn:Ed.
  - assert (Hcons : forall s0, collapse is_space SP t = s0 ++ c :: r -> forallb is_space s0 = true ->
      exists s' u, d :: t = s' ++ c :: u /\ forallb is_space s' = true /\ collapse is_space SP u = r).
    { intros s0 E0 Hs0. destruct (IH s0 E0 Hs0 Hc) as (s' & u & -> & Hs' & Hu). exists (d :: s'), u.
      split; [done|]. split; [|done]. simpl. by rewrite Ed. }
    destruct t as [|d' t]; [|destruct (is_space d'); [by eapply Hcons|]].
    + destruct s as [|e s]; [injection E as <- <-; done | by destruct s].
    + destruct s as [|e s]; simpl in E; [injection E as <- _; done|]. injection E as <- E.
      by eapply Hcons.
  - destruct s as [|e s]; simpl in E; injection E as <- E; [|simpl in Hs; by rewrite Ed in Hs].
    exists [], t. done.
Qed.

Lemma bullet_head_squeeze t : bullet_head (squeeze t) -> bullet_head t.
Proof.
  intros (s & c & s1 & v & E & Hs & Hc & Hne & Hs1).
  assert (Hnc : is_space c = false).
  { unfold is_bullet, in_cls, in_items, in_item, between in Hc. simpl in Hc. unfold is_space, between. lia. }
  destruct (squeeze_head _ _ _ _ E Hs Hnc) as (s' & u & -> & Hs' & Hu).
  destruct s1 as [|d s1]; [done|]. simpl in Hs1. apply andb_true_iff in Hs1 as [Hd _].
  destruct u as [|d' u]; [done|]. exists s', c, [d'], u. repeat split; try done. simpl. rewrite andb_true_r.
  unfold squeeze in Hu. cbn [collapse] in Hu. destruct (is_space d') eqn:Ed'; [done|]. injection Hu as -> _. congruence.
Qed.

Lemma bullet_head_trim t : bullet_head (ttrim t) -> bullet_head t.
Proof.
  intros (s & c & s1 & v & E & Hs & Hc & Hne & Hs1). destruct (infix_trim t) as (p & q & Et & Hp).
  exists (p ++ s), c, s1, (v ++ q). split; [rewrite Et, E, <- !(assoc_L (++)); simpl; by rewrite <- (assoc_L (++))|].
  rewrite forallb_app, Hp, Hs. done.
Qed.

Lemma bullet_head_lower t : bullet_head (tlower t) -> bullet_head t.
Proof.
  intros (s & c & s1 & v & E & Hs & Hc & Hne & Hs1). unfold tlower in E.
  apply map_eq_app in E as (s' & r & -> & <- & E). destruct r as [|c' r]; [done|]. injection E as <- E.
  apply map_eq_app in E as (s1' & v' & -> & <- & <-).
  assert (Hsp : forall l, forallb is_space (map lower_unit l) = forallb is_space l).
  { intros l. induction l as [|x l IH]; simpl; [done|]. by rewrite is_space_lower, IH. }
  rewrite Hsp in Hs, Hs1. exists s', c', s1', v'. repeat split; try done; [|by destruct s1'].
  unfold is_bullet, in_cls, in_items, in_item, between in *. simpl in *.
  unfold lower_unit in Hc. destruct (between 65 90 c') eqn:Eb; [|done]. unfold between in Eb. lia.
Qed.

Definition plain_emphasis (t : text) : text := map (fun c => if is_emphasis c then SP else c) t.

Lemma normalize_eq t : normalizeVerdictText t = tlower (ttrim (squeeze (strip_bullets (plain_emphasis t)))).
Proof.
  unfold normalizeVerdictText. rewrite replace_spaces. unfold EMPHASIS, plain. by rewrite replace_all_unit.
Qed.

Lemma normalize_no_emphasis t c : In c (normalizeVerdictText t) -> is_emphasis c = false.
Proof.
  rewrite normalize_eq. unfold tlower. intros (d & <- & Hd%ttrim_In)%in_map_iff.
  assert (He : is_emphasis d = false).
  { assert (H : forall u, In d (squeeze u) -> d = SP \/ In d u).
    { unfold squeeze. intros u. induction u as [|e u IH]; [by right|]. cbn [collapse].
      assert (Hi : In d (collapse is_space SP u) -> d = SP \/ In d (e :: u)) by (intros [->|]%IH; auto using in_cons).
      destruct (is_space e); [|intros [<-|Hu]; [right; by left | auto]].
      destruct u as [|e' u]; [intros [<-|[]]; by left|]. destruct (is_space e'); [auto|].
      intros [<-|Hu]; [by left | auto]. }
    destruct (H _ Hd) as [->|Hs]; [done|].
    assert (Hin : In d (plain_emphasis t)).
    { unfold strip_bullets, replace in Hs. destruct (exec BULLETS (plain_emphasis t)) as [m|] eqn:E; [|done].
      rewrite (exec_anchored BULLETS (plus bullet)) in E by done.
      destruct (mtch _ _ _ _ _); [|done]. injection E as <-. cbn [splice m_index m_end] in Hs.
      unfold slice in Hs. rewrite Nat.sub_diag, take_0 in Hs. cbn [app] in Hs.
      rewrite <- (take_drop (at_ p) (plain_emphasis t)). apply in_or_app. by right. }
    unfold plain_emphasis in Hin. apply in_map_iff in Hin as (e & <- & _). by destruct (is_emphasis e) eqn:Ee. }
  rewrite is_emphasis_eq in He |- *. unfold lower_unit. destruct (between 65 90 d) eqn:E; [|done].
  unfold between in E. simpl. lia.
Qed.

Lemma normalizeVerdictText_idem t : normalizeVerdictText (normalizeVerdictText t) = normalizeVerdictText t.
Proof.
  set (y := normalizeVerdictText t). rewrite (normalize_eq y).
  assert (E1 : plain_emphasis y = y).
  { unfold plain_emphasis. rewrite <- (map_id y) at 2. apply map_ext_in. intros c Hc.
    by rewrite (normalize_no_emphasis t c Hc). }
  rewrite E1. assert (Ey : y = tlower (ttrim (squeeze (strip_bullets (plain_emphasis t))))) by apply normalize_eq.
  rewrite strip_bullets_id.
  - rewrite squeeze_id, ttrim_id; [rewrite Ey; apply tlower_idem | |].
    + rewrite Ey. apply tlower_trimmed, ttrim_trimmed.
    + rewrite Ey, squeezed_lower. set (z := squeeze _). destruct (infix_trim z) as (p & s & E & _).
      apply (squeezed_infix p _ s). rewrite <- E. apply squeeze_squeezed.
  - rewrite Ey. intros H%bullet_head_lower%bullet_head_trim%bullet_head_squeeze. by apply strip_bullets_head in H.
Qed.

Lemma normalizeReviewVerdict_normalized t : normalizeReviewVerdict (normalizeVerdictText t) = normalizeReviewVerdict t.
Proof. unfold normalizeReviewVerdict. by rewrite normalizeVerdictText_idem. Qed.

(** ** The verdict a review states *)

Lemma section_line_review l k :
  k <> Unknown -> normalizeVerdictSectionLine l = Some k -> normalizeReviewVerdict l = Some k.
Proof.
  unfold normalizeVerdictSectionLine. intros Hk. destruct (negb _); [done|].
  destruct (isResolvedRequestChangesProse _); [congruence|]. by rewrite normalizeReviewVerdict_normalized.
Qed.

Lemma resolved_requests_changes n :
  tlower n = n -> isResolvedRequestChangesProse n = true -> tstarts (T "request changes") n = true.
Proof.
  intros Hn. unfold isResolvedRequestChangesProse. intros [[H _]%andb_true_iff _]%andb_true_iff.
  apply test_true in H as (i & y & Hi & Hm).
  apply (matches_anchored REQUEST_CHANGES (Seq (str "request changes") Wb)) in Hm as [_ Hm]; [|done..].
  inversion Hm as [| |? ? ? x1 ? H1 H2| | | | | | | | | |]; subst. apply runs_str in H1 as (w & (E & _) & Hw).
  cbn [start rest] in E. rewrite drop_0 in E. rewrite <- Hn, E. unfold tlower in *. rewrite map_app, Hw. apply tstarts_app.
Qed.

(** A line the section leaves undecided is not read as a permissive verdict. *)
Lemma section_line_undecided l k :
  decided (normalizeVerdictSectionLine l) = false -> normalizeReviewVerdict l = Some k ->
  k = Unknown \/ k = RequestChanges.
Proof.
  unfold normalizeVerdictSectionLine. rewrite normalizeReviewVerdict_normalized. unfold normalizeReviewVerdict.
  set (n := normalizeVerdictText l). destruct (nonblank n); cbn [negb]; [|done].
  destruct (isResolvedRequestChangesProse n) eqn:Er.
  - assert (tlower n = n) by (unfold n; rewrite normalize_eq; apply tlower_idem).
    rewrite resolved_requests_changes by done. intros _ [= <-]. by right.
  - intros Hd Hk. rewrite Hk in Hd. destruct k; auto; done.
Qed.

Definition is_request (l : text) : bool := is_kind RequestChanges (normalizeVerdictSectionLine l).

Lemma is_kind_eq k v : is_kind k v = true <-> v = Some k.
Proof. apply bool_decide_eq_true. Qed.

Lemma pick_verdict_spec ls l :
  pick_verdict ls = Some l ->
  In l ls /\
  (if existsb is_request ls then normalizeVerdictSectionLine l = Some RequestChanges
   else decided (normalizeVerdictSectionLine l) = true
        \/ forall x, In x ls -> decided (normalizeVerdictSectionLine x) = false).
Proof.
  unfold pick_verdict. fold is_request. set (permissive := existsb _ ls || existsb _ ls).
  assert (Hreq : existsb is_request ls = match filter_b is_request ls with [] => false | _ => true end).
  { unfold filter_b. induction ls as [|x ls IH]; simpl; [done|]. destruct (is_request x); [done | apply IH]. }
  rewrite Hreq. destruct (filter_b is_request ls) as [|x xs] eqn:Ef; cbn [andb].
  - destruct (last (filter_b _ ls)) as [x|] eqn:El; intros E.
    + injection E as ->. apply last_filter_In in El as [Hin Hd]. auto.
    + split; [apply last_Some in E as (l' & ->); apply in_or_app; right; by left|]. right. intros x Hx.
      destruct (decided (normalizeVerdictSectionLine x)) eqn:Ed; [|done]. exfalso.
      apply last_None in El. assert (Hin : In x (filter_b (fun l => decided (normalizeVerdictSectionLine l)) ls))
        by (by apply List.filter_In). by rewrite El in Hin.
  - destruct permissive eqn:Ep.
    + rewrite <- Ef. intros [Hin Hk]%last_filter_In. split; [done | by apply is_kind_eq].
    + assert (Hno : forall y, In y ls -> decided (normalizeVerdictSectionLine y) = true -> is_request y = true).
      { apply orb_false_iff in Ep as [E1 E2]. intros y Hy Hd.
        pose proof (some_b_false _ _ _ E1 Hy) as H1. pose proof (some_b_false _ _ _ E2 Hy) as H2. cbv beta in H1, H2.
        unfold is_request. destruct (normalizeVerdictSectionLine y) as [[]|]; done. }
      assert (Hx : In x ls /\ is_request x = true) by (apply List.filter_In; change (In x (filter_b is_request ls)); rewrite Ef; by left).
      destruct (last (filter_b _ ls)) as [z|] eqn:El.
      * intros [= <-]. apply last_filter_In in El as [Hin Hd]. split; [done|]. by apply is_kind_eq, Hno.
      * exfalso. apply last_None in El. destruct Hx as [Hin Hr].
        assert (Hd : In x (filter_b (fun l => decided (normalizeVerdictSectionLine l)) ls)).
        { apply List.filter_In. split; [done|]. apply is_kind_eq in Hr. by rewrite Hr. }
        by rewrite El in Hd.
Qed.

Lemma pick_verdict_some ls : ls <> [] -> exists l, pick_verdict ls = Some l.
Proof.
  intros Hne. assert (Hl : exists l, last ls = Some l).
  { destruct ls as [|x ls] using rev_ind; [done|]. exists x. apply last_snoc. }
  destruct Hl as [l Hl]. unfold pick_verdict.
  destruct (filter_b _ ls) as [|x xs] eqn:Ef; cbn [andb]; [destruct (last (filter_b _ ls)); eauto|].
  destruct (_ || _); [|destruct (last (filter_b _ ls)); eauto].
  destruct (last (x :: xs)) as [y|] eqn:Ey; [eauto | by apply last_None in Ey].
Qed.

(** The verdict normalized from the section of a body. *)
Definition stated_verdict (reviewBody : text) : option verdict_kind :=
  normalizeReviewVerdict (default [] (extractReviewVerdict reviewBody)).

Lemma stated_request body ls l :
  verdict_lines body = Some ls -> In l ls -> normalizeVerdictSectionLine l = Some RequestChanges ->
  stated_verdict body = Some RequestChanges.
Proof.
  intros Hls Hin Hk. unfold stated_verdict, extractReviewVerdict. rewrite Hls.
  destruct ls as [|x ls]; [done|]. destruct (pick_verdict_some (x :: ls)) as [y Hy]; [done|]. rewrite Hy. simpl.
  apply pick_verdict_spec in Hy as [_ Hy]. assert (Hex : existsb is_request (x :: ls) = true).
  { apply existsb_exists. exists l. split; [done | by apply is_kind_eq]. }
  rewrite Hex in Hy. by apply section_line_review.
Qed.

Lemma stated_permissive body k :
  k = CommentOnly \/ k = Approved -> stated_verdict body = Some k ->
  exists ls, verdict_lines body = Some ls /\ (exists l, In l ls /\ normalizeVerdictSectionLine l = Some k)
    /\ forall l, In l ls -> normalizeVerdictSectionLine l <> Some RequestChanges.
Proof.
  intros Hk Hv. unfold stated_verdict, extractReviewVerdict in Hv.
  assert (Hnone : normalizeReviewVerdict [] = None) by reflexivity.
  destruct (verdict_lines body) as [ls|] eqn:Els; [|simpl in Hv; congruence]. exists ls. split; [done|].
  destruct ls as [|x ls]; [simpl in Hv; congruence|].
  destruct (pick_verdict_some (x :: ls)) as [y Hy]; [done|]. rewrite Hy in Hv. change (default [] (Some y)) with y in Hv.
  assert (Hreq : forall l, In l (x :: ls) -> normalizeVerdictSectionLine l <> Some RequestChanges).
  { intros l Hl E. pose proof (stated_request body _ l Els Hl E) as Hs.
    unfold stated_verdict, extractReviewVerdict in Hs. rewrite Els, Hy in Hs. change (default [] (Some y)) with y in Hs.
    rewrite Hv in Hs. injection Hs as ->. by destruct Hk. }
  split; [|done]. apply pick_verdict_spec in Hy as [Hin Hy]. exists y. split; [done|].
  destruct (existsb is_request (x :: ls)) eqn:Ex.
  { apply existsb_exists in Ex as (l & Hl & E%is_kind_eq). by destruct (Hreq l Hl). }
  destruct (decided (normalizeVerdictSectionLine y)) eqn:Ed.
  - destruct (normalizeVerdictSectionLine y) as [k'|] eqn:Ek'; [|done].
    assert (Hk' : k' <> Unknown) by (by intros ->). rewrite (section_line_review y k' Hk' Ek') in Hv. congruence.
  - destruct (section_line_undecided y k Ed Hv) as [->| ->]; by destruct Hk.
Qed.

(** C22. A live request for changes always wins: if some line of the (unfenced)
    Verdict section reads as request changes, so does the verdict extracted from
    it; and a permissive verdict is extracted only when a line of the section
    states it and no line requests changes. *)
Theorem verdict_fails_toward_stricter (reviewBody : text) (ls : list text) :
  verdict_lines reviewBody = Some ls ->
  ((exists l, In l ls /\ normalizeVerdictSectionLine l = Some RequestChanges) ->
     normalizeReviewVerdict (default [] (extractReviewVerdict reviewBody)) = Some RequestChanges)
  /\ (forall k, k = CommentOnly \/ k = Approved ->
        normalizeReviewVerdict (default [] (extractReviewVerdict reviewBody)) = Some k ->
        (exists l, In l ls /\ normalizeVerdictSectionLine l = Some k)
        /\ forall l, In l ls -> normalizeVerdictSectionLine l <> Some RequestChanges).
Proof.
  intros Hls. split.
  - intros (l & Hl & Hk). by apply (stated_request reviewBody ls l).
  - intros k Hk Hv. destruct (stated_permissive reviewBody k Hk Hv) as (ls' & Hls' & H). assert (ls' = ls) as -> by congruence. exact H.
Qed.

(** How the count of blocking findings overrides a verdict. *)
Lemma reconcile_permissive st n v :
  reconcile st n v = Some CommentOnly \/ reconcile st n v = Some Approved ->
  (st = Known -> n = 0)
  /\ (v = Some RequestChanges -> st = Known /\ n = 0 /\ reconcile st n v = Some CommentOnly).
Proof.
  destruct st, n as [|n], v as [[]|]; vm_compute; intros [[=]|[=]]; split; done.
Qed.

Lemma reconcile_blocking n v :
  0 < n -> v <> Some Unknown -> v <> None -> reconcile Known n v = Some RequestChanges.
Proof. destruct n as [|n]; [lia|]. intros _. destruct v as [[]|]; done. Qed.

(** A text of several lines. *)
Definition text_of (ls : list string) : text := unlines (map T ls).
Definition ex_mixed : text :=
  text_of ["## Summary"; "One issue."; "## Verdict"; "- **Request changes** on the migration."; "Comment only, otherwise."].

Lemma verdict_fails_toward_stricter_witness :
  normalizeReviewVerdict (default [] (extractReviewVerdict ex_mixed)) = Some RequestChanges.
Proof.
  refine (proj1 (verdict_fails_toward_stricter ex_mixed
    (map T ["- **Request changes** on the migration."; "Comment only, otherwise."]) _) _).
  - vm_compute. reflexivity.
  - exists (T "- **Request changes** on the migration."). split; [by left | vm_compute; reflexivity].
Defined.



(** ** Sanitizing *)

Definition visible (c : N) : bool := negb (is_space c).

Lemma unix_lines_keeps t c : In c t -> is_space c = false -> In c (unix_lines t).
Proof.
  intros Hc Hs. unfold unix_lines, CRLF, plain. rewrite (replace_two_units 13 10 _ (fun _ => [NL])) by done.
  apply (substitute_keeps visible); [| |lia|done|unfold visible; by rewrite Hs].
  - intros u n d. unfold two_units. destruct u as [|c' [|d' u]]; [done..|].
    destruct ((c' =? 13)%N && (d' =? 10)%N) eqn:E; [|done]. intros [= <-]. simpl. unfold visible.
    apply andb_true_iff in E as [->%N.eqb_eq ->%N.eqb_eq]. by intros [<-|[<-|[]]].
  - intros u n. unfold two_units. destruct u as [|c' [|d' u]]; [done..|]. destruct (_ && _); [|done]. intros [= <-]. lia.
Qed.

Lemma blank_lines_keeps t c : In c t -> is_space c = false -> In c (replace_all BLANK_LINES (fun _ => [NL; NL]) t).
Proof.
  intros Hc Hs. unfold BLANK_LINES, plain, chr.
  rewrite (replace_long_runs _ _ _ _ _ _ (fun _ => [NL; NL])) by first [lia | done].
  apply (substitute_keeps visible); [| |lia|done|unfold visible; by rewrite Hs].
  - intros u n d. unfold long_run. set (p := in_cls _ _ _).
    assert (Hrun : forall u d, In d (take (span p u) u) -> visible d = false).
    { clear. intros u d. induction u as [|c u IH]; [by rewrite take_nil|]. cbn [span].
      destruct (p c) eqn:Ep; [|done]. rewrite firstn_cons. intros [<-|H]; [|auto]. unfold p in Ep.
      rewrite chr_class in Ep. by apply N.eqb_eq in Ep as ->. }
    destruct (Nat.leb 3 (span p u)); [|done]. intros [= <-]. apply Hrun.
  - intros u n. unfold long_run. destruct (Nat.leb_spec 3 (span (in_cls false false [CRange 10 10]) u)); [|done].
    intros [= <-]. lia.
Qed.

Lemma visible_nonblank t c : In c t -> is_space c = false -> nonblank (ttrim t) = true.
Proof.
  intros Hc Hs. destruct (nonblank (ttrim t)) eqn:E; [done|]. apply ttrim_spaces in E.
  rewrite forallb_forall in E. by rewrite (E c Hc) in Hs.
Qed.

Lemma trim_keeps t c : In c t -> is_space c = false -> In c (ttrim t).
Proof.
  intros Hc Hs. unfold ttrim. assert (Hd : forall u, In c u -> In c (drop_space u)).
  { intros u. induction u as [|d u IH]; simpl; [done|]. intros [->|Hu]; [rewrite Hs; by left|].
    destruct (is_space d); [auto | by right; auto]. }
  apply in_rev. rewrite rev_involutive. apply Hd, in_rev. rewrite rev_involutive. by apply Hd.
Qed.

(** A section match starts at a number sign of the text itself. *)
Lemma section_match_hash t m :
  In m (canonicalReviewSectionMatches t) ->
  t !! m_index m = Some 35%N /\ m_index m < m_end m <= length t.
Proof.
  intros (y & Hi & Hm & He & _)%matchAll_spec. rewrite mask_length in Hi.
  assert (Hend : m_index m <= at_ y <= length t)
    by (rewrite <- (mask_length t); eapply matches_end; [by rewrite mask_length | exact Hm]).
  unfold matches in Hm. cbn [CANONICAL_SECTION gim pattern icase multiline seqs] in Hm.
  inversion Hm as [| |? ? ? x1 ? H1 H2| | | | | | | | | |]; subst. inversion H1; subst.
  inversion H2 as [| |? ? ? x2 ? H3 H4| | | | | | | | | |]; subst.
  apply runs_str in H3 as (w & (E & A & _) & Hw). cbn [start rest at_] in E, A.
  assert (Hw2 : exists u, w = 35%N :: u).
  { destruct w as [|c u]; [done|]. exists u. f_equal. injection Hw as Hc _. change (lower_unit c = 35%N) in Hc. unfold lower_unit in Hc.
    destruct (between 65 90 c) eqn:Eb; [unfold between in Eb; lia | done]. }
  destruct Hw2 as [u ->]. pose proof (runs_after _ _ _ _ _ H4) as (w' & _ & A' & _). simpl in A, A'. split; [|lia].
  assert (Hhash : maskReviewFences t !! m_index m = Some 35%N)
    by (rewrite <- (Nat.add_0_r (m_index m)), <- lookup_drop, E; done).
  destruct (lookup_lt_is_Some_2 t (m_index m)) as [c Hc]; [lia|].
  destruct (Forall2_lookup_l _ _ _ _ _ (mask_units t) Hc) as (d & Hd & Hmask).
  rewrite Hhash in Hd. injection Hd as <-. destruct Hmask as [<-|[? _]]; done.
Qed.

Lemma next_section_after t i : i <= length t -> i <= nextTopLevelReviewSectionIndex t i.
Proof.
  intros Hi. unfold nextTopLevelReviewSectionIndex.
  pose proof (exec_from_spec TOP_LEVEL_SECTION (maskReviewFences t) i) as H. rewrite mask_length in H.
  destruct (exec_from _ _ i); [|done]. destruct (H Hi) as (y & Hr & _). lia.
Qed.

Lemma section_visible t m :
  In m (canonicalReviewSectionMatches t) ->
  In 35%N (normalizeWhitespace (slice (m_index m) (nextTopLevelReviewSectionIndex t (m_end m)) t)).
Proof.
  intros [Hh Hlt]%section_match_hash. pose proof (next_section_after t (m_end m) ltac:(lia)) as Hn.
  apply trim_keeps; [|done]. apply blank_lines_keeps; [|done]. apply unix_lines_keeps; [|done].
  unfold slice. apply list_elem_of_In, list_elem_of_lookup. exists 0.
  rewrite lookup_take_lt by lia. rewrite lookup_drop, Nat.add_0_r. exact Hh.
Qed.

Lemma in_tjoin sep w l c : In w l -> In c w -> In c (tjoin sep l).
Proof.
  induction l as [|v l IH]; [done|]. intros Hw Hc. destruct l as [|v' l].
  - destruct Hw as [->|[]]. exact Hc.
  - change (In c (v ++ sep ++ tjoin sep (v' :: l))). apply in_or_app.
    destruct Hw as [->|Hw]; [by left|]. right. apply in_or_app. right. by apply IH.
Qed.

(** With its sections found, the trimming has something to answer. *)
Lemma trim_sections_some t :
  canonicalReviewSectionMatches t <> [] ->
  exists s, trimCanonicalReviewSections t false = Ok (Some s) /\ nonblank s = true.
Proof.
  unfold trimCanonicalReviewSections. intros Hne.
  destruct (canonicalReviewSectionMatches t) as [|m ms] eqn:E; [done|]. cbn [negb orb].
  match goal with |- context [ttrim ?j] => set (joined := j) end.
  assert (Hv : nonblank (ttrim joined) = true).
  { apply (visible_nonblank _ 35%N); [|done]. unfold joined. cbn [kept_sections t_in existsb map snd].
    eapply in_tjoin; [by left|]. apply section_visible. rewrite E. by left. }
  rewrite Hv. eauto.
Qed.

(** C36. The best-effort sanitizer never throws, whatever the reply: it answers
    what the strict sanitizer answers when that one accepts, and otherwise the
    trimmed sections, or the promoted text when no canonical section is found. *)
Theorem best_effort_never_throws (reviewText : text) :
  exists s, sanitizeReviewPayloadBestEffort reviewText = Ok s
    /\ (forall r, sanitizeCodexReviewPayload reviewText = Ok r -> s = r)
    /\ (canonicalReviewSectionMatches (promoteCanonicalReviewSectionHeadings (normalizeWhitespace reviewText)) = [] ->
        s = promoteCanonicalReviewSectionHeadings (normalizeWhitespace reviewText))
    /\ (canonicalReviewSectionMatches (promoteCanonicalReviewSectionHeadings (normalizeWhitespace reviewText)) <> [] ->
        nonblank s = true).
Proof.
  unfold sanitizeReviewPayloadBestEffort, sanitizeCodexReviewPayload.
  set (t := promoteCanonicalReviewSectionHeadings (normalizeWhitespace reviewText)).
  destruct (decide (canonicalReviewSectionMatches t = [])) as [E|Hne].
  - assert (Hn : forall b, trimCanonicalReviewSections t b = Ok None)
      by (intros b; unfold trimCanonicalReviewSections; by rewrite E).
    rewrite !Hn. cbn [rbind]. exists t. destruct (looksLikeRuntimeJunk t); repeat split; done.
  - destruct (trim_sections_some t Hne) as (s & Hs & Hnb). rewrite Hs.
    assert (Hstrict : forall s', trimCanonicalReviewSections t true = Ok s' -> s' = Some s).
    { revert Hs. unfold trimCanonicalReviewSections. destruct (canonicalReviewSectionMatches t) as [|m ms]; [done|].
      cbn [negb orb]. case_match; [|done]. intros [= <-] s'. destruct (_ && _); [|done]. by intros [= <-]. }
    destruct (trimCanonicalReviewSections t true) as [s'|e] eqn:Et; cbn [rbind].
    + rewrite (Hstrict s' eq_refl). exists s. repeat split; try done. by intros r [= <-].
    + destruct s as [|c s]; [done|]. exists (c :: s). repeat split; done.
Qed.

(** ** Sections that do not count *)

(** A review that still holds the template is never scored on it: one finding
    with two placeholder fields makes the blocking section unknown and empty, so
    no total is reported and the effective verdict is the stated one, neither
    relaxed nor escalated. *)
Theorem template_section_is_unknown (reviewBody : text) (fs : list finding) (f : finding) :
  parseBlockingFindingsSection (unix_lines reviewBody) false = Some fs -> In f fs ->
  isTemplatePlaceholderFinding f TEMPLATE_PLACEHOLDER_VALUES = true ->
  let r := parseReviewFindings reviewBody in
  state (blocking r) = UnknownState /\ count (blocking r) = 0 /\ findings (blocking r) = []
  /\ malformed (blocking r) = true /\ findingsCount r = None
  /\ normalizeEffectiveReviewVerdict reviewBody
     = normalizeReviewVerdict (default [] (extractReviewVerdict reviewBody)).
Proof.
  intros Hp Hin Hf. cbv zeta. unfold normalizeEffectiveReviewVerdict, parseReviewFindings. rewrite Hp.
  assert (Hc : classify (Some fs) = {| count := 0; state := UnknownState; malformed := true; findings := [] |}).
  { unfold classify. assert (Hs : some_b (fun f => isTemplatePlaceholderFinding f TEMPLATE_PLACEHOLDER_VALUES) fs = true)
      by (apply existsb_exists; eauto). by rewrite Hs. }
  rewrite Hc. repeat split; done.
Qed.

Definition ex_template : text :=
  text_of ["## Blocking issues"; "- **<Title>**"; "  - **File:** `<path>`"; "  - **Problem:** <one paragraph>";
           "## Verdict"; "Request changes"].

Lemma template_section_is_unknown_witness :
  normalizeEffectiveReviewVerdict ex_template = Some RequestChanges.
Proof.
  destruct (parseBlockingFindingsSection (unix_lines ex_template) false) as [[|f fs]|] eqn:E;
    [vm_compute in E; discriminate E| |vm_compute in E; discriminate E].
  transitivity (normalizeReviewVerdict (default [] (extractReviewVerdict ex_template))); [|vm_compute; reflexivity].
  refine (proj2 (proj2 (proj2 (proj2 (proj2 (template_section_is_unknown ex_template (f :: fs) f E _ _))))));
    [by left|]. vm_compute in E. injection E as <- _. vm_compute. reflexivity.
Defined.

(** A blocking section whose content stands in a code fence reads as empty, and
    a request for changes is then reconciled to comment only. *)
Theorem fenced_blockers_are_dropped (reviewBody raw : text) :
  nonblank (ttrim (unix_lines reviewBody)) = true ->
  extractReviewSection (unix_lines reviewBody) BLOCKING_HEADING = Some raw ->
  (forall l, In l (lines (maskReviewFences (ttrim raw))) -> nonblank (ttrim l) = false) ->
  normalizeReviewVerdict (default [] (extractReviewVerdict reviewBody)) = Some RequestChanges ->
  normalizeEffectiveReviewVerdict reviewBody = Some CommentOnly.
Proof.
  intros Hb Hr Hl Hv. unfold normalizeEffectiveReviewVerdict, parseReviewFindings, parseBlockingFindingsSection.
  rewrite (fenced_section_reads_empty _ raw) by done. rewrite Hv. reflexivity.
Qed.

Example fenced_blockers :
  normalizeEffectiveReviewVerdict
    (text_of ["## Blocking issues"; "```"; "- **Crash on empty input**"; "```"; "## Verdict"; "Request changes"])
  = Some CommentOnly.
Proof. vm_compute. reflexivity. Qed.
