(* ===== verification/ReviewReply.v ===== *)
(** * The posting contract of a reviewer reply (kernel/review-reply.mjs) *)

From Stdlib Require Import ZArith Lia ZifyBool ZifyN Ascii.
From stdpp Require Import base list strings.
From S2P Require Import Prelude JsNum JsText JsRegExp ReviewMarkdown FindingLines ReviewFindings Verdict.

Definition GENERIC_PLACEHOLDERS : list text := [T "<text>"].
Definition REQUIRED_HEADINGS : list text :=
  [T "Summary"; T "Blocking issues"; T "Non-blocking issues"; T "Suggested fixes"; T "Verdict"].
Definition REQUIRED_HEADING_RE : regex :=
  icase_re (seqs [Bol; str "##"; plus blank;
    Grp 1 (alts [str "Summary"; str "Blocking issues"; str "Non-blocking issues"; str "Suggested fixes"; str "Verdict"]);
    blanks; Eol]).
Definition REVIEW_HEADER_RE : regex :=
  plain (seqs [Bol; str "##"; plus blank; str "Adversarial Review"; Wb; star dot; Eol]).
Definition ANY_HEADING_RE : regex := plain (seqs [Bol; Rep 1 (Some 6) true (chr 35); plus blank; nonspace]).
Definition ADVISORY_RE : regex :=
  icase_re (seqs [Bol; str "##"; plus blank; str "Simplicity and cost (advisory)"; blanks; Eol]).
Definition OUTPUT_BLOCK : regex := plain (seqs [Bol; str "Output requirements:"; star space; Eol]).
(** The end of the block: a line flush left that is no bullet. Its tokens: angle brackets, one to forty units. *)
Definition FLUSH_LEFT : regex := plain (Seq Bol (Cls true [CSpace; CRange 45 45])).
Definition TOKEN : regex :=
  plain (seqs [chr 60; Rep 1 (Some 40) true (Cls true (CRange 10 10 :: oneof "<>`")); chr 62]).

(** A [Set] keeps the first of equal values. *)
Definition add_new (seen : list text) (t : text) : list text := if t_in t seen then seen else seen ++ [t].

(** ** Placeholders of a prompt *)

Fixpoint until_flush (ls : list text) : list text :=
  match ls with [] => [] | l :: ls => if test FLUSH_LEFT l then [] else l :: until_flush ls end.
Definition extractTemplatePlaceholders (promptText : text) : list text :=
  let ls := lines (unix_lines promptText) in
  match find_index (test OUTPUT_BLOCK) ls with
  | None => []
  | Some start =>
      fold_left add_new (flat_map (fun l => map m_text (matchAll TOKEN l)) (until_flush (drop (S start) ls))) []
  end.

(** ** The check *)

Definition isTemplatePlaceholderValue (value : text) (placeholders : list text) : bool :=
  let t := tlower (ttrim value) in nonblank t && t_in t (map tlower placeholders).

(** The required headings in order, with their line numbers. *)
Fixpoint headings_at (index : nat) (ls : list text) : list (text * nat) :=
  match ls with
  | [] => []
  | l :: ls =>
      match exec REQUIRED_HEADING_RE l with
      | Some m =>
          match find_b (fun name => teqb (tlower name) (tlower (group_or_empty m 1))) REQUIRED_HEADINGS with
          | Some name => (name, index) :: headings_at (S index) ls
          | None => headings_at (S index) ls
          end
      | None => headings_at (S index) ls
      end
  end.

(** The values of a finding's own properties, in the order they were set. *)
Definition own_values (f : finding) : list text :=
  match title f with Some t => [t] | None => [] end ++ map snd (fields f).

Definition echoed_findings (placeholders : list text) (fs : list finding) : list text :=
  fold_left add_new
    (flat_map (fun f => if isTemplatePlaceholderFinding f placeholders
                        then filter_b (fun v => isTemplatePlaceholderValue v placeholders) (map bareValue (own_values f))
                        else []) fs) [].
Fixpoint echoed_sections (ls : list text) (headings : list (text * nat)) (echoed : list text) : list text :=
  match headings with
  | [] => echoed
  | (name, i) :: headings =>
      let next := match headings with (_, j) :: _ => j | [] => length ls end in
      let body := bareValue (unlines (take (next - S i) (drop (S i) ls))) in
      let echoed := if t_in name [T "Summary"; T "Suggested fixes"] && isTemplatePlaceholderValue body GENERIC_PLACEHOLDERS
                    then add_new echoed body else echoed in
      echoed_sections ls headings echoed
  end.

Definition name_count (name : text) (headings : list (text * nat)) : nat :=
  count_b (fun h => teqb (fst h) name) headings.

(** The line numbers a pattern accepts. *)
Fixpoint lines_at (p : text -> bool) (index : nat) (ls : list text) : list nat :=
  match ls with [] => [] | l :: ls => if p l then index :: lines_at p (S index) ls else lines_at p (S index) ls end.

Inductive reason :=
| EmptyReply
| TemplatePlaceholders (tokens : list text)
| NoRequiredHeading
| TextBeforeHeading
| RepeatedSections (names : list text)
| AdvisoryNotFinal
| NoVerdictSection
| MissingVerdictLine
| VerdictNotLast
| TextAfterVerdict
| RequestChangesWithoutFindings.

Definition reason_if (b : bool) (r : reason) : list reason := if b then [r] else [].

Definition preamble_reason (ls : list text) (first : nat) : list reason :=
  let preamble := filter_b (fun l => nonblank (ttrim l)) (take first ls) in
  reason_if (Nat.ltb 1 (length preamble)
             || match preamble with [l] => negb (test REVIEW_HEADER_RE l) | _ => false end) TextBeforeHeading.

Definition advisory_reason (unfenced : list text) (verdict : option nat) (advisory : list nat) : list reason :=
  reason_if
    (Nat.ltb 1 (length advisory)
     || match advisory with
        | [] => false
        | start :: _ =>
            match verdict with None => true | Some v => Nat.leb start v end
            || existsb (test H2) (drop (S start) unfenced)
        end) AdvisoryNotFinal.

Definition verdict_reason (ls : list text) (verdict : option nat) (advisory : list nat) : list reason :=
  match verdict with
  | None => [NoVerdictSection]
  | Some v =>
      let stop := match advisory with a :: _ => a | [] => length ls end in
      let vs := filter_b (fun l => nonblank (ttrim l)) (take (stop - S v) (drop (S v) ls)) in
      match last vs with
      | None => [MissingVerdictLine]
      | Some l =>
          if existsb (test ANY_HEADING_RE) vs then [VerdictNotLast]
          else reason_if (existsb (test FENCE) vs || negb (decided (normalizeVerdictSectionLine l))) TextAfterVerdict
      end
  end.

(** The reasons to reject the reply; it may be posted when there is none. *)
Definition reply_reasons (placeholders : list text) (reviewText : text) : list reason :=
  let t := promoteCanonicalReviewSectionHeadings (normalizeWhitespace reviewText) in
  if negb (nonblank t) then [EmptyReply]
  else
    let ls := lines t in
    let unfenced := lines (maskReviewFences t) in
    let headings := headings_at 0 unfenced in
    let blockingFindings := default [] (parseBlockingFindingsSection (unlines unfenced) false) in
    let others := default [] (parseNonBlockingFindingsSection (unlines unfenced)) in
    let echoed := echoed_sections unfenced headings (echoed_findings placeholders (blockingFindings ++ others)) in
    let echo_reason := match echoed with [] => [] | _ => [TemplatePlaceholders echoed] end in
    match headings with
    | [] => echo_reason ++ [NoRequiredHeading]
    | (_, first) :: _ =>
        let duplicated := filter_b (fun name => Nat.ltb 1 (name_count name headings)) REQUIRED_HEADINGS in
        let verdict := option_map snd (last (filter_b (fun h => teqb (fst h) (T "Verdict")) headings)) in
        let advisory := lines_at (test ADVISORY_RE) 0 unfenced in
        echo_reason
        ++ preamble_reason ls first
        ++ match duplicated with [] => [] | _ => [RepeatedSections duplicated] end
        ++ advisory_reason unfenced verdict advisory
        ++ verdict_reason ls verdict advisory
        ++ reason_if (is_kind RequestChanges (normalizeVerdictSectionLine (default [] (extractReviewVerdict t)))
                      && match blockingFindings with [] => true | _ => false end) RequestChangesWithoutFindings
    end.

Definition validateReviewerReply (placeholders : list text) (reviewText : text) : bool * list reason :=
  let reasons := reply_reasons placeholders reviewText in
  (match reasons with [] => true | _ => false end, reasons).

(** ** The placeholders of the installed prompts *)

Definition REVIEWER_STAGE_PROMPT_FILE : regex :=
  plain (seqs [Bol; str "reviewer."; alts [str "first"; str "middle"; str "last"]; opt (str ".addendum"); str ".md"; Eol]).

(** An entry of the prompts directory: whether it is a directory, and its files
    with their contents. *)
Record prompt_entry := { is_directory : bool; prompt_files : list (text * text) }.

Definition reviewTemplatePlaceholders (entries : list prompt_entry) : list text :=
  let stage_files := flat_map (fun e => if is_directory e then
      filter_b (fun f => test REVIEWER_STAGE_PROMPT_FILE (fst f)) (prompt_files e) else []) entries in
  fold_left add_new (flat_map (fun f => extractTemplatePlaceholders (snd f)) stage_files) GENERIC_PLACEHOLDERS.

(** ** The rejection *)

Definition comma_join (ts : list text) : text := tjoin (T ", ") ts.
Definition reason_text (r : reason) : text :=
  match r with
  | EmptyReply => T "empty reply"
  | TemplatePlaceholders tokens => T "template placeholders " ++ comma_join tokens
  | NoRequiredHeading => T "no required heading"
  | TextBeforeHeading => T "text before the first required heading"
  | RepeatedSections names => T "repeated required sections " ++ comma_join names
  | AdvisoryNotFinal => T "Simplicity and cost advisory must appear once as the final section"
  | NoVerdictSection => T "no Verdict section"
  | MissingVerdictLine => T "missing verdict line"
  | VerdictNotLast => T "Verdict is not the last section"
  | TextAfterVerdict => T "text after the Verdict"
  | RequestChangesWithoutFindings => T "request-changes-without-findings"
  end.
Definition rejection_message (reasons : list reason) : text :=
  T "[reviewer-output] reviewer reply rejected: " ++ tjoin (T "; ") (map reason_text reasons).

(** What [onRejected] is given, and the error of a rejected reply. *)
Record rejected := { rawReviewText : text; rejectionReason : text }.
Definition assertReviewerReply (placeholders : list text) (reviewText : text) : option rejected :=
  match validateReviewerReply placeholders reviewText with
  | (true, _) => None
  | (false, reasons) => Some {| rawReviewText := reviewText; rejectionReason := rejection_message reasons |}
  end.

(** ** What an accepted reply is *)

Lemma reason_if_nil b r : reason_if b r = [] <-> b = false.
Proof. by destruct b. Qed.

Lemma app_nil_iff {A} (l l' : list A) : l ++ l' = [] <-> l = [] /\ l' = [].
Proof. split; [apply app_eq_nil | by intros [-> ->]]. Qed.

Definition reply_text (reviewText : text) : text :=
  promoteCanonicalReviewSectionHeadings (normalizeWhitespace reviewText).
Definition reply_headings (reviewText : text) : list (text * nat) :=
  headings_at 0 (lines (maskReviewFences (reply_text reviewText))).

(** The non-blank lines of the Verdict section, up to the advisory. *)
Definition reply_verdict_lines (reviewText : text) (v : nat) : list text :=
  let ls := lines (reply_text reviewText) in
  let stop := match lines_at (test ADVISORY_RE) 0 (lines (maskReviewFences (reply_text reviewText))) with
              | a :: _ => a | [] => length ls end in
  filter_b (fun l => nonblank (ttrim l)) (take (stop - S v) (drop (S v) ls)).

Lemma verdict_reason_nil ls verdict advisory :
  verdict_reason ls verdict advisory = [] ->
  exists v l, verdict = Some v
    /\ let vs := filter_b (fun l => nonblank (ttrim l))
                   (take ((match advisory with a :: _ => a | [] => length ls end) - S v) (drop (S v) ls)) in
       last vs = Some l /\ decided (normalizeVerdictSectionLine l) = true
       /\ forall x, In x vs -> test ANY_HEADING_RE x = false /\ test FENCE x = false.
Proof.
  unfold verdict_reason. destruct verdict as [v|]; [|done]. set (vs := filter_b _ _). cbv zeta.
  destruct (last vs) as [l|] eqn:El; [|done]. destruct (existsb (test ANY_HEADING_RE) vs) eqn:Eh; [done|].
  intros [Hf Hd%negb_false_iff]%reason_if_nil%orb_false_iff. exists v, l. repeat (split; [done|]).
  intros x Hx. split; [by apply (some_b_false _ _ _ Eh) | by apply (some_b_false _ _ _ Hf)].
Qed.

(** The pairs the scan finds are the required headings of their lines. *)
Lemma headings_at_In index ls name i :
  In (name, i) (headings_at index ls) ->
  In name REQUIRED_HEADINGS /\ index <= i < index + length ls
  /\ exists l m, ls !! (i - index) = Some l /\ exec REQUIRED_HEADING_RE l = Some m
       /\ tlower name = tlower (group_or_empty m 1).
Proof.
  revert index. induction ls as [|l ls IH]; intros index; cbn [headings_at]; [done|].
  assert (Hrest : In (name, i) (headings_at (S index) ls) ->
    In name REQUIRED_HEADINGS /\ index <= i < index + length (l :: ls)
    /\ exists l' m, (l :: ls) !! (i - index) = Some l' /\ exec REQUIRED_HEADING_RE l' = Some m
       /\ tlower name = tlower (group_or_empty m 1)).
  { intros (Hn & Hi & l' & m & Hl & Hm)%IH. split; [done|]. split; [simpl; lia|]. exists l', m.
    replace (i - index) with (S (i - S index)) by lia. done. }
  destruct (exec REQUIRED_HEADING_RE l) as [m|] eqn:E; [|exact Hrest].
  destruct (find_b _ REQUIRED_HEADINGS) as [n|] eqn:Ef; [|exact Hrest].
  intros [[= <- <-]|H]; [|by apply Hrest]. apply find_b_In in Ef as [Hn Ht%teqb_eq]. split; [done|].
  split; [simpl; lia|]. exists l, m. by rewrite Nat.sub_diag.
Qed.

Lemma preamble_reason_nil ls first l :
  preamble_reason ls first = [] -> In l (take first ls) -> nonblank (ttrim l) = true -> test REVIEW_HEADER_RE l = true.
Proof.
  unfold preamble_reason. set (preamble := filter_b _ _). intros [Hlen Hone]%reason_if_nil%orb_false_iff Hl Hn.
  assert (Hin : In l preamble) by (by apply List.filter_In).
  destruct preamble as [|x [|y r]]; [done| |done]. destruct Hin as [->|[]]. by apply negb_false_iff.
Qed.

Lemma repeated_nil headings name :
  let duplicated := filter_b (fun name => Nat.ltb 1 (name_count name headings)) REQUIRED_HEADINGS in
  match duplicated with [] => [] | _ => [RepeatedSections duplicated] end = [] ->
  In name REQUIRED_HEADINGS -> name_count name headings <= 1.
Proof.
  cbv zeta. destruct (filter_b _ REQUIRED_HEADINGS) eqn:E; [|done]. intros _ Hn.
  destruct (Nat.ltb_spec 1 (name_count name headings)) as [Hlt|]; [|done]. exfalso.
  assert (Hin : In name (filter_b (fun name => Nat.ltb 1 (name_count name headings)) REQUIRED_HEADINGS))
    by (apply List.filter_In; split; [done | by apply Nat.ltb_lt]).
  by rewrite E in Hin.
Qed.

Lemma echoed_sections_nil ls headings echoed : echoed_sections ls headings echoed = [] -> echoed = [].
Proof.
  revert echoed. induction headings as [|[n i] headings IH]; intros echoed; cbn [echoed_sections]; [done|].
  intros H%IH. destruct (_ && _); [|done]. unfold add_new in H. destruct (t_in _ _); [done|]. by destruct echoed.
Qed.


Definition ex_reply : text :=
  text_of ["## Summary"; "The bump is consistent."; "## Blocking issues"; "- None."; "## Verdict"; "Comment only"].


(** The strict check and the consumers read different headings: a line of two
    number signs followed by a line that says Verdict is a heading to the
    extraction only, so an accepted reply may state one verdict in its Verdict
    section and be scored on another. *)
Definition ex_decoy : text :=
  text_of ["## Summary"; "##"; "Verdict"; "Approved"; "## Blocking issues"; "- None."; "## Verdict"; "Request changes"].
Example decoy_verdict :
  fst (validateReviewerReply [] ex_decoy) = true
  /\ reply_verdict_lines ex_decoy 6 = [T "Request changes"]
  /\ normalizeEffectiveReviewVerdict (reply_text ex_decoy) = Some Approved.
Proof. vm_compute. auto. Qed.
