(* ===== verification/RemediationReply.v ===== *)
(** * Replies of remediation workers (kernel/remediation-reply.mjs)

    The contract a reply of a remediation worker is held to before its loop
    acts on it: the shape of every entry, the texts a public comment may carry, the
    accounting of the blocking findings of the review, the disputes that close a
    finding, and the reply that only waits for CI. A reply and a job are JSON
    values; the findings of the review body come from the parser of the reviews. *)

From Stdlib Require Import ZArith Lia ZifyBool ZifyN Ascii.
From stdpp Require Import base list strings.
From S2P Require Import Prelude JsNum JsValue JsText JsRegExp ReviewMarkdown FindingLines ReviewFindings Verdict.

Definition REMEDIATION_REPLY_KIND : string := "adversarial-review-remediation-reply".
Definition PUBLIC_REPLY_MAX_CHARS : nat := 1200.
Definition PUBLIC_REPLY_MAX_LINES : nat := 20.
Definition OPERATIONAL_BLOCKER_TITLES : list text :=
  map T ["branch-contamination"; "branch-contamination-audit-error"; "base-branch-resolution-failed"; "stale-pr-head";
         "push-lease-rejected"; "fetch-failed"; "rebase-conflict"; "missing-auth"; "auth-failure"].
Definition OPERATIONAL_BLOCKER_KIND_PENDING_CI : string := "pending-ci".
Definition OPERATIONAL_BLOCKER_KINDS : list string := [OPERATIONAL_BLOCKER_KIND_PENDING_CI].
Definition PLACEHOLDER_EXACT_STRINGS : list text :=
  map T ["Replace this with a short remediation summary.";
         "Replace with validation you ran.";
         "Replace with the review finding this entry addresses.";
         "Replace with what you did to address it.";
         "Optional list of files changed for this finding.";
         "Replace with a finding you deliberately did NOT change the code on.";
         "Replace with a finding you deliberately did NOT change the code on. Remove this entry entirely if you addressed everything.";
         "Replace with one sharp sentence on why you disagreed.";
         "Replace with the reason this PR should receive another adversarial review pass."].

(** ** Values as texts *)

(** The text of a string value; [typeof v === 'string' && v.trim()]; [String(v ?? '')]. *)
Definition str_text (v : val) : option text := match v with VStr s => Some (utf16 s) | _ => None end.
Definition filled (v : val) : bool := match str_text v with Some t => nonblank (ttrim t) | None => false end.
Definition text_or_empty (v : val) : text := utf16 (to_str (coalesce v (VStr ""))).
(** [!entry || typeof entry !== 'object' || Array.isArray(entry)] is false. *)
Definition is_entry (v : val) : bool := match v with VObj _ => true | _ => false end.
Definition entries_of (v : val) : list val := match v with VArr l => l | _ => [] end.
Definition given (v : val) : bool := negb (strict_eq v VUndef).

Definition reply_error {A} (message : string) : result A := Throw (PlainError ("Remediation reply " +:+ message)).
(** [Check] and go on. *)
Definition require (b : bool) (message : string) : result unit := if b then Ok tt else reply_error message.
(** [items.forEach((item, index) => ...)]. *)
Fixpoint each_from (f : nat -> val -> result unit) (index : nat) (items : list val) : result unit :=
  match items with
  | [] => Ok tt
  | item :: items => let* _ := f index item in each_from f (S index) items
  end.
Definition each (f : nat -> val -> result unit) (items : list val) : result unit := each_from f 0 items.
Definition at_index (field : string) (index : nat) : string := field +:+ "[" +:+ to_str (VInt (Z.of_nat index)) +:+ "]".

Definition assertNoPlaceholderText (value : val) (label : string) : result unit :=
  match str_text value with
  | None => Ok tt
  | Some t =>
      require (negb (t_in (ttrim t) PLACEHOLDER_EXACT_STRINGS))
        (label +:+ " contains placeholder/example text from the prompt template; replace it with real content before submitting")
  end.

Definition validateStringArrayField (items : val) (field : string) : result unit :=
  match items with
  | VArr l => each (fun i item =>
      let* _ := require (filled item) (at_index field i +:+ " must be a non-empty string") in
      assertNoPlaceholderText item (at_index field i)) l
  | _ => reply_error (field +:+ " must be an array")
  end.

Definition validateOptionalTitle (entry : val) (label : string) : result unit :=
  if negb (given (oget entry "title")) then Ok tt
  else
    let* _ := require (filled (oget entry "title")) (label +:+ ".title must be a non-empty string when provided") in
    assertNoPlaceholderText (oget entry "title") (label +:+ ".title").

(** /[\s_]+/g *)
Definition SPACE_RUNS : regex := plain (plus (Cls false (CSpace :: oneof "_"))).
Definition normalizeOperationalBlockerTitle (value : val) : text :=
  replace_all SPACE_RUNS (fun _ => T "-") (tlower (ttrim (text_or_empty value))).

(** ** Texts fit for a public comment *)

Definition lined (r : re) : regex := {| pattern := r; icase := false; multiline := true |}.
Definition PUBLIC_REPLY_NOISE_SIGNALS : list (string * regex) :=
  [("JSON-like dump at start of field",
    plain (seqs [Bol; star space; Cls false (oneof "{["); star space; Cls false [CRange 34 34; CRange 123 123; CRange 91 91]]));
   ("fenced code block", lined (seqs [Bol; star space; str "```"]));
   ("tool call/result markup", icase_re (seqs [str "<tool_"; Alt (str "call") (str "result"); Wb]));
   ("git diff header", lined (seqs [Bol; str "diff --git"; Wb]));
   ("diff hunk header", lined (seqs [Bol; str "@@"; space]));
   ("token-count transcript header", plain (str "Original token count:"));
   ("python traceback header", lined (seqs [Bol; str "Traceback (most recent call last):"]))].
(** /^\s*stdout\s*:/im *)
Definition prefix_line (name : string) : regex :=
  {| pattern := seqs [Bol; star space; str name; star space; chr 58]; icase := true; multiline := true |}.
Definition detectPublicReplyNoiseSignal (t : text) : option string :=
  match find_b (fun s => test (snd s) t) PUBLIC_REPLY_NOISE_SIGNALS with
  | Some s => Some (fst s)
  | None => if test (prefix_line "stdout") t && test (prefix_line "stderr") t
            then Some "paired stdout/stderr log prefixes" else None
  end.

Section Labelled.
Variable publicCommentLabel : string.

Definition assertPublicReplyTextQuality (value : val) (label : string) : result unit :=
  match str_text value with
  | None => Ok tt
  | Some t0 =>
      let t := ttrim t0 in
      if negb (nonblank t) then Ok tt
      else
        let* _ := require (Nat.leb (length t) PUBLIC_REPLY_MAX_CHARS)
          (label +:+ " is too long for the " +:+ publicCommentLabel +:+ "; summarize it instead of dumping raw output") in
        let* _ := require (Nat.leb (count_b (fun line => nonblank (ttrim line)) (lines (unix_lines t))) PUBLIC_REPLY_MAX_LINES)
          (label +:+ " has too many lines for the " +:+ publicCommentLabel +:+ "; summarize it instead of dumping raw output") in
        match detectPublicReplyNoiseSignal t with
        | Some signal => reply_error (label +:+ " looks like raw logs, JSON, diff, or tool output (" +:+ signal
                                      +:+ "); write a human summary instead")
        | None => Ok tt
        end
  end.
(** A text of an entry that a public comment shows. *)
Definition assertPublic (entry : val) (key label : string) : result unit :=
  let* _ := assertNoPlaceholderText (oget entry key) (label +:+ "." +:+ key) in
  assertPublicReplyTextQuality (oget entry key) (label +:+ "." +:+ key).
Definition require_text (entry : val) (key label : string) : result unit :=
  require (filled (oget entry key)) (label +:+ "." +:+ key +:+ " must be a non-empty string").

Definition validate_files (label : string) (files : val) : result unit :=
  match files with
  | VUndef => Ok tt
  | VArr l => each (fun i f =>
      let* _ := require (filled f) (at_index (label +:+ ".files") i +:+ " must be a non-empty string") in
      assertNoPlaceholderText f (at_index (label +:+ ".files") i)) l
  | _ => reply_error (label +:+ ".files must be an array if provided")
  end.

(** An entry of [addressed], [nonBlocking] or [hardening], and of [pushback]. *)
Definition check_pair (second label : string) (entry : val) : result unit :=
  let* _ := require (is_entry entry) (label +:+ " must be an object") in
  let* _ := require_text entry "finding" label in
  let* _ := require_text entry second label in
  let* _ := validateOptionalTitle entry label in
  let* _ := assertNoPlaceholderText (oget entry "finding") (label +:+ ".finding") in
  let* _ := assertNoPlaceholderText (oget entry second) (label +:+ "." +:+ second) in
  let* _ := assertPublicReplyTextQuality (oget entry "finding") (label +:+ ".finding") in
  assertPublicReplyTextQuality (oget entry second) (label +:+ "." +:+ second).
Definition validateAddressedShapeField (items : val) (field : string) : result unit :=
  match items with
  | VArr l => each (fun i entry =>
      let* _ := check_pair "action" (at_index field i) entry in
      validate_files (at_index field i) (oget entry "files")) l
  | _ => reply_error (field +:+ " must be an array")
  end.
Definition validatePushbackField (items : val) : result unit :=
  match items with
  | VArr l => each (fun i => check_pair "reasoning" (at_index "pushback" i)) l
  | _ => reply_error "pushback must be an array"
  end.

(** The reasons of a blocker: at least one, each with text when given. *)
Definition check_reasons (label : string) (entry : val) : result unit :=
  let* _ := require (filled (oget entry "reasoning") || filled (oget entry "needsHumanInput"))
    (label +:+ " must include a non-empty reasoning or needsHumanInput field") in
  let* _ := require (negb (given (oget entry "reasoning")) || filled (oget entry "reasoning"))
    (label +:+ ".reasoning must be a non-empty string when provided") in
  require (negb (given (oget entry "needsHumanInput")) || filled (oget entry "needsHumanInput"))
    (label +:+ ".needsHumanInput must be a non-empty string when provided").
Definition check_blocker_texts (label : string) (entry : val) : result unit :=
  let* _ := assertPublic entry "finding" label in
  let* _ := (if filled (oget entry "reasoning") then assertPublic entry "reasoning" label else Ok tt) in
  if filled (oget entry "needsHumanInput") then assertPublic entry "needsHumanInput" label else Ok tt.

Definition check_blocker (label : string) (entry : val) : result unit :=
  match entry with
  | VStr _ =>
      let* _ := require (filled entry) (label +:+ " must be a non-empty string") in
      let* _ := assertNoPlaceholderText entry label in
      assertPublicReplyTextQuality entry label
  | _ =>
      let* _ := require (is_entry entry) (label +:+ " must be a non-empty string or an object") in
      let* _ := require_text entry "finding" label in
      let* _ := validateOptionalTitle entry label in
      let* _ := check_reasons label entry in
      check_blocker_texts label entry
  end.
Definition validateBlockersField (items : val) : result unit :=
  match items with
  | VArr l => each (fun i => check_blocker (at_index "blockers" i)) l
  | _ => reply_error "blockers must be an array"
  end.

Definition known_kind (kind : val) : bool :=
  match kind with VUndef => true | VStr s => str_in s OPERATIONAL_BLOCKER_KINDS | _ => false end.
Definition check_operational (label : string) (entry : val) : result unit :=
  let* _ := require (is_entry entry) (label +:+ " must be an object") in
  let* _ := require_text entry "finding" label in
  let* _ := validateOptionalTitle entry label in
  let* _ := require (known_kind (oget entry "kind"))
    (label +:+ ".kind must be one of: " +:+ join ", " OPERATIONAL_BLOCKER_KINDS) in
  let* _ := check_reasons label entry in
  check_blocker_texts label entry.
Definition validateOperationalBlockersField (items : val) : result unit :=
  match items with
  | VArr l => each (fun i => check_operational (at_index "operationalBlockers" i)) l
  | _ => reply_error "operationalBlockers must be an array"
  end.
End Labelled.

(** ** Titles *)

(** [s.normalize('NFKC')]: the tables of the Unicode standard. *)
Class Nfkc := nfkc : text -> text.

Definition any_of (l : list N) : regex := plain (Cls false (map (fun c => CRange c c) l)).
(** /[\u2018\u2019\u201A\u201B]/g, /[\u201C\u201D\u201E\u201F]/g, /[\u2010-\u2015\u2212]/g *)
Definition SINGLE_QUOTES : regex := any_of [8216; 8217; 8218; 8219]%N.
Definition DOUBLE_QUOTES : regex := any_of [8220; 8221; 8222; 8223]%N.
Definition DASHES : regex := plain (Cls false [CRange 8208 8213; CRange 8722 8722]).

Section Titles.
Context {nfkc_ : Nfkc}.

Definition title_key (t : text) : text :=
  tlower (ttrim (replace_all SPACES (fun _ => T " ")
    (replace_all DASHES (fun _ => T "-")
      (replace_all DOUBLE_QUOTES (fun _ => [34%N])
        (replace_all SINGLE_QUOTES (fun _ => T "'") (nfkc t)))))).
Definition normalizeCoverageTitle (title : val) : text := title_key (text_or_empty title).
Definition finding_key (f : finding) : text := title_key (default [] (title f)).

(** [parse...Section(job?.reviewBody)]: nothing for a body that is not a string. *)
Definition blocking_of (job : val) : option (list finding) :=
  match oget job "reviewBody" with VStr s => parseBlockingFindingsSection (utf16 s) false | _ => None end.
Definition nonBlocking_of (job : val) : option (list finding) :=
  match oget job "reviewBody" with VStr s => parseNonBlockingFindingsSection (utf16 s) | _ => None end.
Definition keys_of (found : option (list finding)) : list text := filter_b nonblank (map finding_key (default [] found)).

Definition extractNonBlockingFindingIdentities (body : text) : option (list text) :=
  option_map (fun fs => filter_b nonblank (map finding_key fs)) (parseNonBlockingFindingsSection body).

(** ** Disputes *)

(** /^[a-f0-9]{40}$/i *)
Definition HEX40 : regex := icase_re (seqs [Bol; Rep 40 (Some 40) true (Cls false [CRange 97 102; CRange 48 57]); Eol]).
Definition evidence_text (v : val) : bool :=
  filled v && match str_text v with Some t => (Z.of_nat (length t) <=? 16000)%Z | None => false end.
(** The same JSON: the same path and ranges. *)
Definition same_range (r s : range) : bool := num_eqb (r_start r) (r_start s) && num_eqb (r_end r) (r_end s).
Fixpoint same_ranges (l m : list range) : bool :=
  match l, m with
  | [], [] => true
  | r :: l, s :: m => same_range r s && same_ranges l m
  | _, _ => false
  end.
Definition same_location (a b : location) : bool := teqb (l_path a) (l_path b) && same_ranges (l_ranges a) (l_ranges b).
Definition cited_location (citation : val) : option location :=
  findingEvidenceLocation {| title := None; fields := [(File, utf16 (to_str (or_else citation (VStr ""))))] |}.

Definition disputeEvidenceForFinding (entry : val) (f : finding) (headSha : val) : option val :=
  let e := oget entry "evidence" in
  if negb (truthy e) || negb (strict_eq (oget e "headSha") headSha)
     || negb (test HEX40 (utf16 (to_str (or_else headSha (VStr "")))))
     || negb (evidence_text (oget e "output"))
     || negb (evidence_text (oget e "test") || evidence_text (oget e "code") && evidence_text (oget e "reproduction"))
  then None
  else
    match cited_location (oget e "citation"), findingEvidenceLocation f with
    | Some cited, Some original => if same_location cited original then Some e else None
    | _, _ => None
    end.

(** [v?.length] is truthy; [(v || []).filter]. *)
Definition has_length (v : val) : bool :=
  match v with VArr l => negb (Nat.eqb (length l) 0) | VStr s => negb (String.eqb s "") | _ => truthy (oget v "length") end.
Definition list_or_empty (v : val) (method : string) : result (list val) :=
  match or_else v (VArr []) with VArr l => Ok l | _ => Throw (TypeError (method +:+ " is not a function")) end.
(** [normalizeCoverageTitle(entry.title || entry.finding)]. *)
Definition entry_key (entry : val) : result text :=
  let* t := member entry "title" in Ok (normalizeCoverageTitle (or_else t (oget entry "finding"))).
Fixpoint some_entry (p : val -> result bool) (l : list val) : result bool :=
  match l with [] => Ok false | x :: l => let* b := p x in if b then Ok true else some_entry p l end.
Fixpoint count_entries (p : val -> result bool) (l : list val) : result nat :=
  match l with [] => Ok 0%nat | x :: l => let* b := p x in let* n := count_entries p l in Ok (if b then S n else n) end.
Fixpoint all_findings (p : finding -> result bool) (l : list finding) : result bool :=
  match l with [] => Ok true | x :: l => let* b := p x in if b then all_findings p l else Ok false end.

Definition titled_as (key : text) (fs : list finding) : bool := some_b (fun f => teqb (finding_key f) key) fs.
Definition allBlockingDisputed (job reply headSha : val) : result bool :=
  if negb (truthy reply) || negb (is_str (oget reply "outcome") "completed") || negb (strict_eq headSha (oget job "revisionRef"))
     || has_length (oget reply "blockers") || has_length (oget reply "operationalBlockers")
  then Ok false
  else
    let fs := default [] (blocking_of job) in
    let nonBlocking := default [] (nonBlocking_of job) in
    let* addressed := list_or_empty (oget reply "addressed") "some" in
    let* repaired := some_entry (fun entry =>
      let* key := entry_key entry in Ok (titled_as key fs || negb (titled_as key nonBlocking))) addressed in
    if repaired then Ok false
    else
      match fs with
      | [] => Ok false
      | _ =>
          all_findings (fun f =>
            let* pushback := list_or_empty (oget reply "pushback") "filter" in
            let* n := count_entries (fun e =>
              let* key := entry_key e in
              Ok (teqb key (finding_key f)
                  && match disputeEvidenceForFinding e f headSha with Some v => truthy v | None => false end)) pushback in
            Ok (Nat.eqb n 1)) fs
      end.

(** ** Operational blockers *)

Definition isOperationalBlockerEntry (entry : val) : bool :=
  is_entry entry && t_in (normalizeOperationalBlockerTitle (oget entry "title")) OPERATIONAL_BLOCKER_TITLES.

(** The loop over the blockers: kept, operational. *)
Fixpoint split_blockers (expected : list text) (index : nat) (blockers kept operational : list val) : result (list val * list val) :=
  match blockers with
  | [] => Ok (kept, operational)
  | b :: blockers =>
      if isOperationalBlockerEntry b then
        let key := normalizeCoverageTitle (oget b "title") in
        if nonblank key && t_in key expected
        then reply_error (at_index "blockers" index +:+ ".title matches both a known operational blocker title and a blocking "
               +:+ "review finding title. Keep it in blockers[] or move it to operationalBlockers[] explicitly so validation "
               +:+ "does not silently relocate it.")
        else split_blockers expected (S index) blockers kept (operational ++ [b])
      else split_blockers expected (S index) blockers (kept ++ [b]) operational
  end.
Definition normalizeOperationalBlockers (reply : obj) (expectedJob : val) : result obj :=
  match get reply "blockers", get reply "operationalBlockers" with
  | VArr blockers, (VUndef | VArr _) as prior =>
      let* split := split_blockers (keys_of (blocking_of expectedJob)) 0 blockers [] (entries_of prior) in
      if Nat.eqb (length (fst split)) (length blockers) then Ok reply
      else Ok (spread reply [("blockers", VArr (fst split)); ("operationalBlockers", VArr (snd split))])
  | _, _ => Ok reply
  end.

Definition usesPerFindingReplyContract (reply : obj) : bool :=
  some_b (fun k => given (get reply k)) ["addressed"; "pushback"; "nonBlocking"; "hardening"; "operationalBlockers"]
  || some_b is_entry (entries_of (get reply "blockers")).
End Titles.

(** ** The accounting of the blocking findings *)

Section Coverage.
Context {nfkc_ : Nfkc}.

(** An entry of the reply with its place. *)
Record Placed := { p_field : string; p_index : nat; p_entry : val }.
Fixpoint placed_from (field : string) (index : nat) (l : list val) : list Placed :=
  match l with
  | [] => []
  | e :: l => {| p_field := field; p_index := index; p_entry := e |} :: placed_from field (S index) l
  end.
Definition placed (field : string) (l : list val) : list Placed := placed_from field 0 l.

(** A [Map] from keys to counts, and to what is shown for a key: the first. *)
Definition Counts : Type := list (text * nat).
Definition count_of (m : Counts) (key : text) : nat :=
  match find_b (fun kv => teqb (fst kv) key) m with Some kv => snd kv | None => O end.
Fixpoint bump (m : Counts) (key : text) : Counts :=
  match m with
  | [] => [(key, 1%nat)]
  | (k, n) :: m => if teqb k key then (k, S n) :: m else (k, n) :: bump m key
  end.
Definition counts (keys : list text) : Counts := fold_left bump keys [].
(** What is shown for a key: the raw title it was first seen with. *)
Definition shown (l : list (text * text)) (key : text) : text :=
  match find_b (fun kv => teqb (fst kv) key) l with Some ((_, (c :: t))) => c :: t | _ => key end.

Definition raw_title (v : val) : text := match str_text v with Some t => ttrim t | None => [] end.
Definition finding_raw (f : finding) : text := match title f with Some t => ttrim t | None => [] end.
Definition placed_key (p : Placed) : text := normalizeCoverageTitle (oget (p_entry p) "title").
(** The keys of the titled entries, counted under the title as it is trimmed. *)
Definition entry_pairs (l : list Placed) : list (text * text) :=
  filter_b (fun kv => nonblank (fst kv)) (map (fun p => let raw := raw_title (oget (p_entry p) "title") in (title_key raw, raw)) l).
Definition finding_pairs (fs : list finding) : list (text * text) :=
  filter_b (fun kv => nonblank (fst kv)) (map (fun f => (finding_key f, finding_raw f)) fs).
Definition untitled (p : Placed) : bool := negb (is_entry (p_entry p)) || negb (nonblank (placed_key p)).

Definition add_text (seen : list text) (t : text) : list text := if t_in t seen then seen else seen ++ [t].
Definition or_none (ts : list text) : string := match ts with [] => "none" | _ => utf8 (tjoin (T "; ") ts) end.

Record Accounting := {
  a_findings : list finding; a_blocking : list text; a_nonBlocking : list text;
  a_addressed : list val; a_pushback : list val; a_blockers : list val
}.
Definition all_entries (a : Accounting) : list Placed :=
  placed "addressed" (a_addressed a) ++ placed "pushback" (a_pushback a) ++ placed "blockers" (a_blockers a).
(** The title of a finding that is not blocking. *)
Definition only_nonBlocking (a : Accounting) (key : text) : bool :=
  nonblank key && t_in key (a_nonBlocking a) && negb (t_in key (a_blocking a)).
Definition non_blocking_extras (a : Accounting) : list Placed :=
  filter_b (fun p => only_nonBlocking a (placed_key p)) (placed "addressed" (a_addressed a)).
Definition blocking_total (a : Accounting) : nat := length (all_entries a) - length (non_blocking_extras a).

Definition check_count (a : Accounting) : result unit :=
  let expected := length (a_findings a) in
  let nat_str n := to_str (VInt (Z.of_nat n)) in
  require (Nat.eqb (blocking_total a) expected)
    ("does not account for every blocking finding: review has " +:+ nat_str expected +:+ " blocking issue(s), reply records "
     +:+ nat_str (blocking_total a) +:+ " (addressed=" +:+ nat_str (length (a_addressed a)) +:+ ", pushback="
     +:+ nat_str (length (a_pushback a)) +:+ ", blockers=" +:+ nat_str (length (a_blockers a))
     +:+ "). Each blocking issue must appear exactly once across addressed[], pushback[], or blockers[]. "
     +:+ "If you fixed non-blocking findings too, put them in nonBlocking[] (not addressed[]).").

Definition titles_source : string := "bold bullet titles, H3 headings, or legacy Title fields".
Definition all_titled (a : Accounting) : bool := Nat.eqb (length (finding_pairs (a_findings a))) (length (a_findings a)).
Definition check_untitled (a : Accounting) : result unit :=
  if negb (all_titled a) then Ok tt
  else
    match find_b untitled (all_entries a) with
    | None => Ok tt
    | Some p =>
        match p_entry p with
        | VStr _ => reply_error (at_index "blockers" (p_index p) +:+ " is a string; when the adversarial review supplies a title "
                      +:+ "for every blocking finding via " +:+ titles_source
                      +:+ ", blockers entries must be objects with a non-empty title")
        | _ => reply_error (at_index (p_field p) (p_index p) +:+ ".title is required because the adversarial review supplied titles via "
                      +:+ titles_source)
        end
    end.

Definition missing_titles (a : Accounting) : list text :=
  let expected := counts (map fst (finding_pairs (a_findings a))) in
  let actual := counts (map fst (entry_pairs (all_entries a))) in
  map (fun kv => shown (finding_pairs (a_findings a)) (fst kv))
    (filter_b (fun kv => Nat.ltb (count_of actual (fst kv)) (snd kv)) expected).
(** Whether a key counted so often in the reply is unexpected. *)
Definition unexpected (a : Accounting) (expected : Counts) (kv : text * nat) : bool :=
  let '(key, n) := kv in
  negb (t_in key (a_nonBlocking a))
  && (Nat.eqb (count_of expected key) 0 || all_titled a && Nat.ltb (count_of expected key) n).
(** [actualDisplay.get(key) || String(entry?.title || key).trim() || key]. *)
Definition misplaced_title (a : Accounting) (p : Placed) : text :=
  match find_b (fun kv => teqb (fst kv) (placed_key p)) (entry_pairs (all_entries a)) with
  | Some (_, (c :: t)) => c :: t
  | _ => let v := oget (p_entry p) "title" in
         let t := ttrim (if truthy v then utf16 (to_str v) else placed_key p) in
         if nonblank t then t else placed_key p
  end.
Definition misplaced (a : Accounting) : list text :=
  fold_left add_text
    (map (misplaced_title a)
       (filter_b (fun p => negb (String.eqb (p_field p) "addressed") && only_nonBlocking a (placed_key p)) (all_entries a))) [].
Definition extra_titles (a : Accounting) : list text :=
  let expected := counts (map fst (finding_pairs (a_findings a))) in
  let actual := counts (map fst (entry_pairs (all_entries a))) in
  map (fun kv => shown (entry_pairs (all_entries a)) (fst kv)) (filter_b (unexpected a expected) actual) ++ misplaced a.
Definition check_titles (a : Accounting) : result unit :=
  require (match missing_titles a, extra_titles a with [], [] => true | _, _ => false end)
    ("titles must match the blocking review " +:+ titles_source +:+ " exactly. Missing: " +:+ or_none (missing_titles a)
     +:+ ". Unexpected: " +:+ or_none (extra_titles a) +:+ ".").

Definition accounting (reply : obj) (expectedJob : val) (fs : list finding) : Accounting := {|
  a_findings := fs; a_blocking := keys_of (Some fs); a_nonBlocking := keys_of (nonBlocking_of expectedJob);
  a_addressed := entries_of (get reply "addressed"); a_pushback := entries_of (get reply "pushback");
  a_blockers := entries_of (get reply "blockers") |}.
(** Operational blockers and nothing else. *)
Definition only_operational (reply : obj) (a : Accounting) : bool :=
  negb (Nat.eqb (length (entries_of (get reply "operationalBlockers"))) 0)
  && Nat.eqb (length (all_entries a)) 0.

Definition is_object (v : val) : bool := match v with VObj _ | VArr _ => true | _ => false end.
Definition validateBlockingCoverage (reply : obj) (expectedJob : val) : result unit :=
  if negb (is_object expectedJob) || negb (usesPerFindingReplyContract reply) then Ok tt
  else
    match blocking_of expectedJob with
    | None | Some [] => Ok tt
    | Some fs =>
        let a := accounting reply expectedJob fs in
        if only_operational reply a then Ok tt
        else
          let* _ := check_count a in
          match finding_pairs fs with
          | [] => Ok tt
          | _ => let* _ := check_untitled a in check_titles a
          end
    end.
End Coverage.

(** ** The reply *)

Section Reply.
Context {nfkc_ : Nfkc}.

Definition optional (v : val) (check : val -> result unit) : result unit := if given v then check v else Ok tt.
Definition OUTCOMES : list string := ["completed"; "blocked"; "partial"].
Definition populated (v : val) : bool := negb (Nat.eqb (length (entries_of v)) 0).

Definition check_fields (label : string) (reply : obj) : result unit :=
  let* _ := require (filled (get reply "jobId")) "jobId is required" in
  let* _ := require (filled (get reply "summary")) "summary is required" in
  let* _ := assertNoPlaceholderText (get reply "summary") "summary" in
  let* _ := require (match get reply "outcome" with VStr s => str_in s OUTCOMES | _ => false end)
    ("outcome must be one of: " +:+ join ", " OUTCOMES) in
  let* _ := validateStringArrayField (get reply "validation") "validation" in
  let* _ := validateBlockersField label (get reply "blockers") in
  let* _ := optional (get reply "operationalBlockers") (validateOperationalBlockersField label) in
  let* _ := optional (get reply "addressed") (fun v => validateAddressedShapeField label v "addressed") in
  let* _ := optional (get reply "pushback") (validatePushbackField label) in
  let* _ := optional (get reply "nonBlocking") (fun v => validateAddressedShapeField label v "nonBlocking") in
  optional (get reply "hardening") (fun v => validateAddressedShapeField label v "hardening").

Definition requested (reply : obj) : bool := truthy (oget (get reply "reReview") "requested").
Definition check_reReview (reply : obj) : result unit :=
  let r := get reply "reReview" in
  let* _ := require (is_entry r) "reReview must be an object" in
  let* _ := require (match oget r "requested" with VBool _ => true | _ => false end) "reReview.requested must be a boolean" in
  let* _ := require (negb (requested reply) || filled (oget r "reason"))
    "reReview.reason is required when reReview.requested is true" in
  if requested reply then assertNoPlaceholderText (oget r "reason") "reReview.reason" else Ok tt.

(** The invariants across fields. *)
Definition check_outcome (reply : obj) : result unit :=
  if negb (usesPerFindingReplyContract reply) then Ok tt
  else
    let blocked := populated (get reply "blockers") || populated (get reply "operationalBlockers") in
    let outcome := is_str (get reply "outcome") in
    let* _ := require (negb (blocked && requested reply))
      ("contradicts itself: blockers are populated but reReview.requested is true. A populated blockers or operationalBlockers "
       +:+ "list is a hard exit; set reReview.requested = false.") in
    let* _ := require (negb (outcome "blocked" && negb blocked))
      ("outcome is " +:+ json_quote "blocked" +:+ " but blockers and operationalBlockers are empty. "
       +:+ "A blocked outcome must list the unresolved blockers.") in
    let* _ := require (negb (outcome "blocked" && requested reply))
      ("outcome is " +:+ json_quote "blocked" +:+ " but reReview.requested is true. "
       +:+ "A blocked outcome must set reReview.requested = false.") in
    require (negb (outcome "completed" && blocked))
      ("outcome is " +:+ json_quote "completed" +:+ " but blockers or operationalBlockers is non-empty. "
       +:+ "Use outcome " +:+ json_quote "partial" +:+ " or " +:+ json_quote "blocked" +:+ " when unresolved blockers remain.").

Definition validateRemediationReply (label : string) (expectedJob reply : val) : result obj :=
  match reply with
  | VObj reply =>
      let* _ := require (is_str (get reply "kind") REMEDIATION_REPLY_KIND) ("kind must be " +:+ REMEDIATION_REPLY_KIND) in
      if negb (strict_eq (get reply "schemaVersion") (VInt 1))
      then Throw (PlainError ("Unsupported remediation reply schemaVersion: " +:+ to_str (get reply "schemaVersion")))
      else
        let* reply := normalizeOperationalBlockers reply expectedJob in
        let* _ := check_fields label reply in
        let* _ := check_reReview reply in
        let* _ := check_outcome reply in
        if negb (truthy expectedJob) then Ok reply
        else
          let* _ := require (strict_eq (get reply "jobId") (oget expectedJob "jobId"))
            ("jobId mismatch: expected " +:+ to_str (oget expectedJob "jobId") +:+ ", got " +:+ to_str (get reply "jobId")) in
          let* _ := validateBlockingCoverage reply expectedJob in
          Ok reply
  | _ => reply_error "must be a JSON object"
  end.
End Reply.

(** ** A reply that only waits for CI *)

Definition object_fields (v : val) : obj := match v with VObj o => o | _ => [] end.

Definition upto15 : re := Rep 0 (Some 15) true dot.
(** /contamination|stale.{0,15}head|lease.{0,15}reject|auth.{0,15}(?:fail|missing)|.../i *)
Definition HARD_BLOCKER : regex :=
  icase_re (alts [str "contamination"; seqs [str "stale"; upto15; str "head"]; seqs [str "lease"; upto15; str "reject"];
                  seqs [str "auth"; upto15; Alt (str "fail") (str "missing")];
                  seqs [alts [str "fetch"; str "rebase"; str "push"]; upto15; alts [str "fail"; str "reject"; str "conflict"]]]).
Definition in_progress : re := seqs [str "in"; Cls false (oneof " -"); str "progress"].
Definition PENDING_CHECKS : regex :=
  icase_re (seqs [Wb; alts [Seq (str "check") (opt (chr 115)); str "ci"; str "repo-guards"]; Wb; star (Cls true (oneof ".")); Wb;
                  alts [str "pending"; str "queued"; in_progress]; Wb]).
Definition BOUNDED_WAIT : regex :=
  icase_re (seqs [Wb; in_progress; str " after "; opt (str "the "); str "bounded CI wait"; Wb]).
(** /\bpushed (?:commit |PR head (?:is )?)?([a-f0-9]{7,40})\b/i *)
Definition PUSHED : regex :=
  icase_re (seqs [Wb; str "pushed "; opt (Alt (str "commit ") (Seq (str "PR head ") (opt (str "is "))));
                  Grp 1 (Rep 7 (Some 40) true (Cls false [CRange 97 102; CRange 48 57])); Wb]).

Definition is_pending (entry : val) : bool :=
  let t := tlower (ttrim (utf16 (to_str (or_else (oget entry "title") (VStr ""))))) in
  let finding := utf16 (to_str (oget entry "finding")) in
  if t_in t OPERATIONAL_BLOCKER_TITLES || test HARD_BLOCKER finding then false
  else is_str (oget entry "kind") OPERATIONAL_BLOCKER_KIND_PENDING_CI
       || t_in t (map T ["ci-pending"; "pending-ci"; "pr-head-ci-pending"])
       || test PENDING_CHECKS finding || test BOUNDED_WAIT finding.
Definition push_evidence (reply : obj) : text :=
  tjoin [NL] (utf16 (to_str (get reply "summary")) :: map (fun v => utf16 (to_str v)) (entries_of (get reply "validation"))).
(** The commit a reply reports as pushed. *)
Definition pushed_commit (reply : obj) : option text := option_map (fun m => group_or_empty m 1) (exec PUSHED (push_evidence reply)).
Definition starts_with (head : val) (commit : text) : bool :=
  match str_text head with Some t => tstarts commit t | None => false end.

Definition normalizeCiPendingOnlyReply (reply : obj) (expectedJob : val) : obj :=
  match get reply "operationalBlockers" with
  | VArr ((_ :: _) as operational) =>
      if has_length (get reply "blockers") || negb (every_b is_pending operational) then reply
      else
        match pushed_commit reply with
        | None => reply
        | Some commit =>
            if some_b (fun head => starts_with head commit) [oget expectedJob "revisionRef"; oget expectedJob "headSha"] then reply
            else spread reply
              [("outcome", VStr "completed"); ("operationalBlockers", VArr []);
               ("reReview", VObj (spread (object_fields (get reply "reReview"))
                  [("requested", VBool true);
                   ("reason", VStr "Remediation fix pushed; external CI readiness remains gated before re-review.");
                   ("normalizedFrom", VStr "ci-pending-only"); ("originalOperationalBlockers", VArr operational)]))]
        end
  | _ => reply
  end.

(** ** Facts: titles *)

Lemma drop_space_squeeze t : drop_space (squeeze t) = squeeze (drop_space t).
Proof.
  unfold squeeze. induction t as [|c t IH]; [done|]. cbn [collapse drop_space]. destruct (is_space c) eqn:Ec.
  - destruct t as [|d t]; [done|]. destruct (is_space d) eqn:Ed; [exact IH|]. cbn [drop_space]. rewrite Ed. cbn [collapse].
    rewrite Ed. change (is_space SP) with true. cbn [drop_space]. by rewrite Ed.
  - cbn [drop_space collapse]. by rewrite Ec.
Qed.
Definition ends_spaced (t : text) : bool := match rev t with c :: _ => is_space c | [] => false end.
Lemma squeeze_snoc t c :
  squeeze (t ++ [c]) = squeeze t ++ (if is_space c then (if ends_spaced t then [] else [SP]) else [c]).
Proof.
  unfold squeeze. induction t as [|d t IH]; [cbn; by destruct (is_space c)|]. cbn [app collapse]. rewrite IH.
  assert (He : t <> [] -> ends_spaced (d :: t) = ends_spaced t).
  { intros Hn. unfold ends_spaced. cbn [rev]. destruct (rev t) eqn:E; [|done]. apply (f_equal (@rev N)) in E.
    by rewrite rev_involutive in E. }
  destruct t as [|e t].
  - cbn [app collapse ends_spaced rev]. destruct (is_space d) eqn:Ed, (is_space c) eqn:Ec; cbn; rewrite ?Ed; done.
  - rewrite He by done. cbn [app]. destruct (is_space d); [|done]. by destruct (is_space e).
Qed.
Lemma rev_squeeze t : rev (squeeze t) = squeeze (rev t).
Proof.
  induction t as [|c t IH]; [done|]. cbn [rev]. rewrite squeeze_snoc, <- IH. unfold squeeze, ends_spaced. rewrite rev_involutive.
  cbn [collapse]. destruct (is_space c); [|by cbn]. destruct t as [|d t]; [done|]. destruct (is_space d); [by rewrite app_nil_r|].
  by cbn.
Qed.
Lemma ttrim_squeeze t : ttrim (squeeze t) = squeeze (ttrim t).
Proof. unfold ttrim. by rewrite drop_space_squeeze, rev_squeeze, drop_space_squeeze, rev_squeeze. Qed.
Lemma ttrim_map f t : (forall c, is_space (f c) = is_space c) -> ttrim (map f t) = map f (ttrim t).
Proof.
  intros Hf. assert (Hd : forall u, drop_space (map f u) = map f (drop_space u)).
  { induction u as [|c u IH]; [done|]. cbn [map drop_space]. rewrite Hf. by destruct (is_space c). }
  unfold ttrim. by rewrite Hd, <- map_rev, Hd, <- map_rev.
Qed.

Section TitleFacts.
Context {nfkc_ : Nfkc}.

(** Normalization keeps the white space at the ends of a text white. *)
Class NfkcTrims : Prop := nfkc_trim : forall t, ttrim (nfkc (ttrim t)) = ttrim (nfkc t).

Definition swap (items : list citem) (d c : N) : N := if in_cls false false items c then d else c.
Lemma swap_space items d c :
  (in_cls false false items c = true -> is_space c = false) -> is_space d = false -> is_space (swap items d c) = is_space c.
Proof. unfold swap. destruct (in_cls _ _ _ _); [|done]. intros Hc Hd. by rewrite Hd, Hc. Qed.
Definition plain_quotes (c : N) : N :=
  swap [CRange 8208 8213; CRange 8722 8722] 45
    (swap (map (fun c => CRange c c) [8220; 8221; 8222; 8223]%N) 34 (swap (map (fun c => CRange c c) [8216; 8217; 8218; 8219]%N) 39 c)).
Lemma in_range_not_space items c :
  forallb (fun i => match i with CRange lo hi => (8208 <=? lo)%N && (hi <=? 8223)%N || (lo =? 8722)%N && (hi =? 8722)%N | _ => false end)
    items = true ->
  in_cls false false items c = true -> is_space c = false.
Proof.
  unfold in_cls, in_items. cbn [xorb]. induction items as [|i items IH]; [done|]. cbn [forallb existsb].
  intros [Hi Hr]%andb_true_iff [H|H]%orb_true_iff; [|by apply IH]. cbn [andb] in H. rewrite orb_false_r in H.
  destruct i as [lo hi| | |]; try done. cbn [in_item] in H. unfold between in H.
  apply not_true_iff_false. unfold is_space, between. lia.
Qed.
Lemma plain_quotes_space c : is_space (plain_quotes c) = is_space c.
Proof. unfold plain_quotes. rewrite !swap_space; try done; by apply in_range_not_space. Qed.
Lemma title_key_alt t : title_key t = tlower (squeeze (map plain_quotes (ttrim (nfkc t)))).
Proof.
  unfold title_key, SINGLE_QUOTES, DOUBLE_QUOTES, DASHES, any_of, plain. change (T "'") with [39%N]. change (T "-") with [45%N].
  change (T " ") with [SP]. rewrite !replace_all_unit, !map_map, replace_spaces, ttrim_squeeze.
  rewrite <- (ttrim_map plain_quotes) by apply plain_quotes_space. done.
Qed.
Lemma title_key_trim `{!NfkcTrims} t : title_key (ttrim t) = title_key t.
Proof. by rewrite !title_key_alt, nfkc_trim. Qed.
End TitleFacts.

(** ** Facts: counting titles *)

Definition times (k : text) (l : list text) : nat := count_b (teqb k) l.
Lemma times_cons k x l : times k (x :: l) = ((if teqb k x then 1 else 0) + times k l)%nat.
Proof. unfold times, count_b, filter_b. cbn [List.filter]. by destruct (teqb k x). Qed.
Lemma teqb_sym t u : teqb t u = teqb u t.
Proof. apply eq_iff_eq_true. rewrite !teqb_eq. by split; intros ->. Qed.

Lemma count_of_bump m key k : count_of (bump m key) k = (count_of m k + (if teqb key k then 1 else 0))%nat.
Proof.
  unfold count_of, find_b. induction m as [|[k' n] m IH]; cbn [bump List.find fst snd].
  - destruct (teqb key k); done.
  - destruct (teqb k' key) eqn:E; cbn [List.find fst snd].
    + apply teqb_eq in E as ->. destruct (teqb key k); cbn [snd]; lia.
    + destruct (teqb k' k) eqn:E'; [|exact IH]. apply teqb_eq in E' as ->. rewrite teqb_sym, E. cbn [snd]. lia.
Qed.
Lemma count_of_counts l k : count_of (counts l) k = times k l.
Proof.
  unfold counts. assert (H : forall m, count_of (fold_left bump l m) k = (count_of m k + times k l)%nat).
  { induction l as [|x l IH]; intros m; cbn [fold_left]; [unfold times; cbn; lia|].
    rewrite IH, count_of_bump, times_cons, (teqb_sym k x). lia. }
  by rewrite H.
Qed.
Lemma count_of_In m k : (0 < count_of m k)%nat -> In (k, count_of m k) m.
Proof.
  unfold count_of. destruct (find_b _ m) as [[k' n]|] eqn:E; [|lia]. intros _. apply find_b_In in E as [Hin Hk].
  cbn [fst] in Hk. by apply teqb_eq in Hk as ->.
Qed.

Lemma times_In k l : (0 < times k l)%nat <-> In k l.
Proof.
  unfold times. rewrite count_b_pos. split; [intros (x & Hx & ->%teqb_eq); done|]. intros Hk. exists k. split; [done | by apply teqb_eq].
Qed.
(** A list with at least as many of each as another, and no longer, is a permutation of it. *)
Lemma times_Permutation l m : (forall k, (times k l <= times k m)%nat) -> length l = length m -> Permutation l m.
Proof.
  revert m. induction l as [|x l IH]; intros m Hle Hlen; [by destruct m|].
  assert (Hx : In x m).
  { apply times_In. specialize (Hle x). rewrite times_cons in Hle. destruct (teqb x x) eqn:E; [lia|].
    by rewrite (proj2 (teqb_eq x x) eq_refl) in E. }
  apply in_split in Hx as (m1 & m2 & ->). rewrite length_app in Hlen. cbn [length] in Hlen.
  apply (Permutation_cons_app m1 m2). apply IH; [|rewrite length_app; lia].
  intros k. specialize (Hle k). unfold times, count_b, filter_b in *. rewrite List.filter_app, length_app in *.
  cbn [List.filter] in Hle. destruct (teqb k x); cbn [length] in Hle; lia.
Qed.

Lemma filter_b_all {A} (p : A -> bool) l : length (filter_b p l) = length l -> forall x, In x l -> p x = true.
Proof. intros H. apply count_b_all. exact H. Qed.
Lemma filter_b_id {A} (p : A -> bool) l : (forall x, In x l -> p x = true) -> filter_b p l = l.
Proof.
  unfold filter_b. induction l as [|x l IH]; [done|]. intros H. cbn [List.filter]. rewrite (H x) by by left. f_equal. apply IH.
  intros y Hy. apply H. by right.
Qed.
Lemma filter_b_nil {A} (p : A -> bool) l x : filter_b p l = [] -> In x l -> p x = false.
Proof.
  intros Hl Hx. destruct (p x) eqn:E; [|done]. assert (In x (filter_b p l)) as Hi by (apply filter_In; done). by rewrite Hl in Hi.
Qed.
Lemma length_filter_split {A} (p : A -> bool) l : (count_b p l + length (filter_b (fun x => negb (p x)) l) = length l)%nat.
Proof. unfold count_b, filter_b. induction l as [|x l IH]; [done|]. cbn [List.filter]. destruct (p x); cbn [negb length] in *; lia. Qed.

Lemma require_Ok b message : require b message = Ok tt <-> b = true.
Proof. unfold require. by destruct b. Qed.
Lemma each_In f l : each f l = Ok tt -> forall x, In x l -> exists i, f i x = Ok tt.
Proof.
  unfold each. generalize 0. induction l as [|y l IH]; [done|]. intros n. cbn [each_from]. intros ([] & Hf & Hl)%rbind_Ok x [<-|Hx]; [eauto|].
  by eapply IH.
Qed.

(** ** Facts: the accounting *)

Section CoverageFacts.
Context {nfkc_ : Nfkc} {nfkcTrims : NfkcTrims}.

(** A title a validated entry can have. *)
Definition titled_entry (v : val) : Prop := match oget v "title" with VUndef | VStr _ => True | _ => False end.
Lemma optional_title_Ok v label : validateOptionalTitle v label = Ok tt -> titled_entry v.
Proof.
  unfold validateOptionalTitle, titled_entry, given. destruct (oget v "title"); try done; cbn [strict_eq negb];
    intros ([] & Hr%require_Ok & _)%rbind_Ok; done.
Qed.
Lemma counted_key v : titled_entry v -> title_key (raw_title (oget v "title")) = normalizeCoverageTitle (oget v "title").
Proof.
  unfold titled_entry, raw_title, normalizeCoverageTitle. destruct (oget v "title"); try done. intros _. cbn [str_text].
  apply title_key_trim.
Qed.

Lemma check_pair_titled second label v : forall publicLabel, check_pair publicLabel second label v = Ok tt -> titled_entry v.
Proof.
  intros pl. unfold check_pair. intros (? & _ & H)%rbind_Ok. apply rbind_Ok in H as (? & _ & H). apply rbind_Ok in H as (? & _ & H).
  apply rbind_Ok in H as ([] & Ht & _). by eapply optional_title_Ok.
Qed.
Lemma check_blocker_titled pl label v : check_blocker pl label v = Ok tt -> titled_entry v.
Proof.
  unfold check_blocker. destruct v; try done; cbn [is_entry]; intros (? & _ & H)%rbind_Ok; try done;
    apply rbind_Ok in H as (? & _ & H); apply rbind_Ok in H as ([] & Ht & _); by eapply optional_title_Ok.
Qed.

Lemma In_placed p field l : In p (placed field l) -> In (p_entry p) l /\ p_field p = field.
Proof.
  unfold placed. generalize 0. induction l as [|x l IH]; [done|]. intros n. cbn [placed_from].
  intros [<-|Hp]; [split; [by left | done]|]. destruct (IH _ Hp) as [H1 H2]. split; [by right | done].
Qed.
Lemma length_placed field l : length (placed field l) = length l.
Proof. unfold placed. generalize 0. induction l as [|x l IH]; intros n; [done|]. cbn [placed_from length]. by rewrite IH. Qed.

(** The validated fields hold titled entries only. *)
Lemma fields_titled label r job fs :
  check_fields label r = Ok tt -> forall p, In p (all_entries (accounting r job fs)) -> titled_entry (p_entry p).
Proof.
  unfold check_fields. intros H. do 5 (apply rbind_Ok in H as (? & _ & H)). apply rbind_Ok in H as ([] & Hb & H).
  apply rbind_Ok in H as (? & _ & H). apply rbind_Ok in H as ([] & Ha & H). apply rbind_Ok in H as ([] & Hp & _).
  intros p. unfold all_entries, accounting. cbn [a_addressed a_pushback a_blockers].
  rewrite !in_app_iff. intros [Hi|[Hi|Hi]]; apply In_placed in Hi as [Hi _].
  - destruct (get r "addressed") as [| | | | |l|]; try done. unfold optional in Ha. cbn in Ha.
    destruct (each_In _ _ Ha _ Hi) as (n & ([] & Hc & _)%rbind_Ok). by eapply check_pair_titled.
  - destruct (get r "pushback") as [| | | | |l|]; try done. unfold optional in Hp. cbn in Hp.
    destruct (each_In _ _ Hp _ Hi) as (n & Hc). by eapply check_pair_titled.
  - destruct (get r "blockers") as [| | | | |l|]; try done. cbn in Hb.
    destruct (each_In _ _ Hb _ Hi) as (n & Hc). by eapply check_blocker_titled.
Qed.

Lemma entry_pairs_keys l :
  (forall p, In p l -> titled_entry (p_entry p)) -> map fst (entry_pairs l) = filter_b nonblank (map placed_key l).
Proof.
  intros H. unfold entry_pairs. rewrite <- (filter_b_map fst nonblank), map_map. cbn [fst]. f_equal.
  apply map_ext_in. intros p Hp. by apply counted_key, H.
Qed.

(** The entries that are not acknowledgements of non-blocking findings. *)
Definition blocking_entries (a : Accounting) : list Placed :=
  filter_b (fun p => negb (only_nonBlocking a (placed_key p))) (all_entries a).

Lemma fold_add_text l acc x : In x acc -> In x (fold_left add_text l acc).
Proof.
  revert acc. induction l as [|y l IH]; intros acc Hx; [done|]. cbn [fold_left]. apply IH. unfold add_text.
  destruct (t_in y acc); [done|]. apply in_app_iff. by left.
Qed.
Lemma fold_add_text_nil l : fold_left add_text l [] = [] -> l = [].
Proof.
  destruct l as [|x l]; [done|]. cbn [fold_left]. intros H. exfalso.
  assert (Hx : In x (add_text [] x)) by (unfold add_text; cbn; by left). apply (fold_add_text l) in Hx. by rewrite H in Hx.
Qed.

Lemma blocking_total_split a :
  misplaced a = [] -> length (blocking_entries a) = blocking_total a.
Proof.
  intros Hm. unfold blocking_total, blocking_entries.
  pose proof (length_filter_split (fun p => only_nonBlocking a (placed_key p)) (all_entries a)) as Hl.
  enough (count_b (fun p => only_nonBlocking a (placed_key p)) (all_entries a) = length (non_blocking_extras a)) by lia.
  unfold misplaced in Hm. apply fold_add_text_nil, map_eq_nil in Hm.
  assert (Hn : forall p, In p (all_entries a) -> p_field p <> "addressed" -> only_nonBlocking a (placed_key p) = false).
  { intros p Hp Hf. pose proof (filter_b_nil _ _ _ Hm Hp) as H. cbv beta in H. apply andb_false_iff in H as [H|H]; [|done].
    apply negb_false_iff, String.eqb_eq in H. done. }
  unfold count_b, non_blocking_extras. unfold all_entries in *.
  unfold filter_b in *. rewrite !List.filter_app, !length_app.
  assert (Hz : forall field l, field <> "addressed" -> (forall p, In p (placed field l) -> In p (all_entries a)) ->
    length (List.filter (fun p => only_nonBlocking a (placed_key p)) (placed field l)) = 0).
  { intros field l Hf Hi. apply length_zero_iff_nil.
    destruct (List.filter (fun p => only_nonBlocking a (placed_key p)) (placed field l)) as [|p q] eqn:E; [done|]. exfalso.
    assert (Hp : In p (p :: q)) by by left. rewrite <- E in Hp. apply filter_In in Hp as [Hp Ho].
    rewrite (Hn p) in Ho; [done | by apply Hi |]. apply In_placed in Hp as [_ ->]. done. }
  unfold all_entries in Hz. rewrite (Hz "pushback"), (Hz "blockers"); [lia | done | | done |];
    intros p Hp; rewrite !in_app_iff; tauto.
Qed.

(** Each blocking finding is accounted for by an entry of its own. *)
Lemma accounted a :
  a_blocking a = keys_of (Some (a_findings a)) ->
  (forall p, In p (all_entries a) -> titled_entry (p_entry p)) -> all_titled a = true ->
  check_count a = Ok tt -> check_titles a = Ok tt ->
  Permutation (map finding_key (a_findings a)) (map placed_key (blocking_entries a)).
Proof.
  intros Hb Ht Hall Hc%require_Ok Htit%require_Ok. apply Nat.eqb_eq in Hc.
  destruct (missing_titles a) as [|] eqn:Em; [|done]. destruct (extra_titles a) as [|] eqn:Ee; [|done].
  unfold extra_titles in Ee. apply app_eq_nil in Ee as [_ Emis].
  assert (Hnb : forall f, In f (a_findings a) -> nonblank (finding_key f) = true).
  { unfold all_titled, finding_pairs in Hall. apply Nat.eqb_eq in Hall. intros f Hf.
    apply (filter_b_all (fun kv => nonblank (fst kv)) (map (fun f => (finding_key f, finding_raw f)) (a_findings a))) with
      (x := (finding_key f, finding_raw f)); [by rewrite length_map|].
    apply in_map_iff. by exists f. }
  assert (Hkeys : map fst (finding_pairs (a_findings a)) = map finding_key (a_findings a)).
  { unfold finding_pairs. rewrite filter_b_id, map_map; [done|]. intros kv (f & <- & Hf)%in_map_iff. by apply Hnb. }
  apply times_Permutation; [|rewrite !length_map, blocking_total_split by done; done].
  intros k. destruct (Nat.eq_0_gt_0_cases (times k (map finding_key (a_findings a)))) as [E0|Hpos]; [lia|].
  unfold missing_titles in Em. apply map_eq_nil in Em. rewrite Hkeys, entry_pairs_keys in Em by done.
  pose proof (proj1 (times_In _ _) Hpos) as Hin.
  assert (Hcount : (0 < count_of (counts (map finding_key (a_findings a))) k)%nat) by by rewrite count_of_counts.
  pose proof (filter_b_nil _ _ _ Em (count_of_In _ _ Hcount)) as Hge. cbn [fst snd] in Hge. rewrite !count_of_counts in Hge.
  apply Nat.ltb_ge in Hge. etransitivity; [exact Hge|].
  assert (Hbk : In k (a_blocking a)).
  { rewrite Hb. unfold keys_of. apply filter_In. split; [done|]. apply in_map_iff in Hin as (f & <- & Hf). by apply Hnb. }
  unfold times, count_b, blocking_entries. rewrite !filter_b_filter, !filter_b_map, !length_map. apply Nat.eq_le_incl. f_equal.
  rewrite filter_b_filter. unfold filter_b. apply filter_ext. intros p. destruct (teqb k (placed_key p)) eqn:E; rewrite ?andb_false_r; [|done].
  apply teqb_eq in E. subst k. unfold only_nonBlocking. rewrite (proj2 (t_in_In _ _) Hbk), andb_false_r.
  apply in_map_iff in Hin as (f & Hf & Hff). rewrite <- Hf, (Hnb f Hff). done.
Qed.
End CoverageFacts.

(** ** What an accepted reply promises *)

Section Accepted.
Context {nfkc_ : Nfkc}.

(** The parts of an accepted reply. *)
Lemma validate_Ok label job reply r :
  validateRemediationReply label job reply = Ok r ->
  exists raw, reply = VObj raw /\ normalizeOperationalBlockers raw job = Ok r /\ check_fields label r = Ok tt
    /\ check_reReview r = Ok tt /\ check_outcome r = Ok tt
    /\ (truthy job = true -> strict_eq (get r "jobId") (oget job "jobId") = true /\ validateBlockingCoverage r job = Ok tt).
Proof.
  unfold validateRemediationReply. destruct reply as [| | | | | |raw]; try done. intros (? & _ & H)%rbind_Ok.
  destruct (negb (strict_eq _ _)); [done|]. apply rbind_Ok in H as (r0 & Hn & H). apply rbind_Ok in H as ([] & Hf & H).
  apply rbind_Ok in H as ([] & Hr & H). apply rbind_Ok in H as ([] & Ho & H). exists raw. split; [done|].
  destruct (truthy job); cbn [negb] in H.
  - apply rbind_Ok in H as ([] & Hj%require_Ok & H). apply rbind_Ok in H as ([] & Hc & [= <-]). done.
  - injection H as <-. done.
Qed.

Definition blocked_reply (r : obj) : bool := populated (get r "blockers") || populated (get r "operationalBlockers").
(** The fields of a reply agree on whether its loop goes on. *)
Record Coherent (r : obj) : Prop := {
  co_again : requested r = true -> blocked_reply r = false /\ is_str (get r "outcome") "blocked" = false;
  co_blocked : is_str (get r "outcome") "blocked" = true -> blocked_reply r = true;
  co_completed : is_str (get r "outcome") "completed" = true -> blocked_reply r = false
}.
Lemma check_outcome_coherent r : usesPerFindingReplyContract r = true -> check_outcome r = Ok tt -> Coherent r.
Proof.
  intros Hu. unfold check_outcome. rewrite Hu. cbn [negb]. fold (blocked_reply r).
  intros ([] & H1%require_Ok & H)%rbind_Ok. apply rbind_Ok in H as ([] & H2%require_Ok & H).
  apply rbind_Ok in H as ([] & H3%require_Ok & H4%require_Ok).
  split; revert H1 H2 H3 H4; destruct (blocked_reply r), (requested r), (is_str (get r "outcome") "blocked"), (is_str (get r "outcome") "completed"); done.
Qed.

(** What the split of the blockers does. *)
Lemma split_blockers_spec expected n l kept op kept' op' :
  split_blockers expected n l kept op = Ok (kept', op') ->
  exists k o, kept' = kept ++ k /\ op' = op ++ o /\ Permutation l (k ++ o)
    /\ (forall b, In b k -> isOperationalBlockerEntry b = false) /\ (o = [] -> k = l).
Proof.
  revert n kept op. induction l as [|b l IH]; intros n kept op; cbn [split_blockers].
  { intros [= <- <-]. exists [], []. rewrite !app_nil_r. done. }
  destruct (isOperationalBlockerEntry b) eqn:Eb.
  - destruct (_ && _); [done|]. intros (k & o & -> & -> & Hp & Hk & _)%IH. exists k, (b :: o). rewrite <- (assoc_L (++)).
    split; [done|]. split; [done|]. split; [by apply Permutation_cons_app|]. done.
  - intros (k & o & -> & -> & Hp & Hk & Hn)%IH. exists (b :: k), o. rewrite <- (assoc_L (++)). split; [done|]. split; [done|].
    split; [by constructor|]. split; [intros x [<-|Hx]; [done | by apply Hk]|]. intros Ho. f_equal. by apply Hn.
Qed.
(** Every declared operational blocker stands among the operational ones, and nothing is lost. *)
Lemma normalize_blockers_spec raw job r l :
  normalizeOperationalBlockers raw job = Ok r -> get raw "blockers" = VArr l ->
  (get raw "operationalBlockers" = VUndef \/ is_array (get raw "operationalBlockers") = true) ->
  exists k, get r "blockers" = VArr k /\ (forall b, In b k -> isOperationalBlockerEntry b = false)
    /\ Permutation (entries_of (get raw "operationalBlockers") ++ l) (entries_of (get r "operationalBlockers") ++ k).
Proof.
  unfold normalizeOperationalBlockers. intros Hn Hl Ho. rewrite Hl in Hn.
  assert (Hn' : (let* split_ := split_blockers (keys_of (blocking_of job)) 0 l [] (entries_of (get raw "operationalBlockers")) in
    if Nat.eqb (length (fst split_)) (length l) then Ok raw
    else Ok (spread raw [("blockers", VArr (fst split_)); ("operationalBlockers", VArr (snd split_))])) = Ok r).
  { destruct (get raw "operationalBlockers"); destruct Ho as [Ho|Ho]; try discriminate Ho; exact Hn. }
  clear Hn. apply rbind_Ok in Hn' as ([kept op] & Hs & Hr). cbn [fst snd] in Hr.
  apply split_blockers_spec in Hs as (k & o & Ek & Eo & Hp & Hk & Hno). cbn [app] in Ek. subst kept op.
  destruct (Nat.eqb (length k) (length l)) eqn:El.
  - injection Hr as <-. apply Nat.eqb_eq in El. pose proof (Permutation_length Hp) as Hlen. rewrite length_app in Hlen.
    assert (o = []) as -> by (destruct o; [done | simpl in Hlen; lia]). rewrite (Hno eq_refl) in *. exists l. done.
  - assert (r = spread raw [("blockers", VArr k); ("operationalBlockers", VArr (entries_of (get raw "operationalBlockers") ++ o))])
      as -> by congruence.
    exists k. split; [apply (get_spread_in _ _ "blockers"); [keys | by left]|]. split; [done|].
    rewrite (get_spread_in _ _ "operationalBlockers" (VArr (entries_of (get raw "operationalBlockers") ++ o)));
      [|keys | by right; left]. cbn [entries_of]. rewrite <- (assoc_L (++)). apply Permutation_app_head.
    rewrite Hp. apply Permutation_app_comm.
Qed.

(** An accepted reply of a worker is coherent: a reply that lists blockers,
    operational ones included, neither asks for another review nor claims to be
    completed, and a blocked reply lists one. No blocker left in the list is a known
    operational one, and no entry the worker wrote is lost by the sorting. *)
Theorem accepted_remediation_coherent label job reply r :
  validateRemediationReply label job reply = Ok r ->
  (usesPerFindingReplyContract r = true -> Coherent r)
  /\ exists raw k, reply = VObj raw /\ get r "blockers" = VArr k
       /\ (forall b, In b k -> isOperationalBlockerEntry b = false)
       /\ Permutation (entries_of (get raw "operationalBlockers") ++ entries_of (get raw "blockers"))
                      (entries_of (get r "operationalBlockers") ++ k).
Proof.
  intros (raw & -> & Hn & Hf & _ & Ho & _)%validate_Ok.
  split; [intros Hu; by apply check_outcome_coherent|]. exists raw.
  assert (Hb : is_array (get r "blockers") = true /\ (get r "operationalBlockers" = VUndef \/ is_array (get r "operationalBlockers") = true)).
  { unfold check_fields in Hf. do 5 (apply rbind_Ok in Hf as (? & _ & Hf)). apply rbind_Ok in Hf as ([] & Hb & Hf).
    apply rbind_Ok in Hf as ([] & Hop & _). split; [by destruct (get r "blockers")|].
    unfold optional, given in Hop. destruct (get r "operationalBlockers"); try done; [by left | by right]. }
  destruct Hb as [Hb Hop]. destruct (get raw "blockers") as [| | | | |l|] eqn:El.
  6: { assert (Hr : get raw "operationalBlockers" = VUndef \/ is_array (get raw "operationalBlockers") = true).
       { unfold normalizeOperationalBlockers in Hn. rewrite El in Hn.
         destruct (get raw "operationalBlockers") eqn:Eo; try (by left); try (by right);
           injection Hn as <-; rewrite Eo in Hop; destruct Hop as [Hop|Hop]; done. }
       destruct (normalize_blockers_spec raw job r l Hn El Hr) as (k & Hk & Hno & Hp). exists k. done. }
  all: exfalso; unfold normalizeOperationalBlockers in Hn; rewrite El in Hn; injection Hn as <-; by rewrite El in Hb.
Qed.

(** C26. An accepted reply to a review with blocking findings accounts for each
    of them. Its entries, the acknowledgements of non-blocking findings apart, are
    as many as the findings, and when every finding has a title their titles are
    those of the findings, each as often as it occurs; or the reply holds nothing
    but operational blockers, and then asks for no other review. *)
Theorem accepted_remediation_accounts `{!NfkcTrims} label job reply r fs :
  validateRemediationReply label job reply = Ok r -> usesPerFindingReplyContract r = true ->
  blocking_of job = Some fs -> fs <> [] ->
  let a := accounting r job fs in
  (only_operational r a = true /\ requested r = false)
  \/ (blocking_total a = length fs
      /\ (all_titled a = true -> Permutation (map finding_key fs) (map placed_key (blocking_entries a)))).
Proof.
  intros (raw & -> & _ & Hf & _ & Ho & Hj)%validate_Ok Hu Hfs Hne a.
  assert (Hjob : truthy job = true /\ is_object job = true).
  { unfold blocking_of in Hfs. destruct job; try done. }
  destruct Hjob as [Ht Hobj]. destruct (Hj Ht) as [_ Hc]. unfold validateBlockingCoverage in Hc.
  rewrite Hobj, Hu, Hfs in Hc. cbn [negb orb] in Hc. destruct fs as [|f fs']; [done|]. set (fs := f :: fs') in *.
  fold a in Hc. destruct (only_operational r a) eqn:Eop.
  - left. split; [done|]. destruct (requested r) eqn:Er; [|done]. exfalso.
    apply (check_outcome_coherent r Hu) in Ho. destruct (co_again _ Ho Er) as [Hb _]. unfold blocked_reply in Hb.
    apply orb_false_iff in Hb as [_ Hb]. unfold populated in Hb. unfold only_operational in Eop. apply andb_true_iff in Eop as [Eop _].
    by rewrite Hb in Eop.
  - right. apply rbind_Ok in Hc as ([] & Hcount & Hc). split; [by apply require_Ok, Nat.eqb_eq in Hcount|].
    intros Hall. apply (accounted a); [done | by eapply fields_titled | done | done |].
    destruct (finding_pairs fs) as [|] eqn:Ep; [|by apply rbind_Ok in Hc as (? & _ & Hc)].
    exfalso. unfold all_titled in Hall. change (a_findings a) with fs in Hall. by rewrite Ep in Hall.
Qed.

(** A reply that only waits for CI is completed for it only on a report of
    a pushed commit that is not the reviewed head, when every blocker it lists is a
    pending check and none a hard one; the reply that comes out asks for a review,
    keeps the blockers as evidence and every other field, and is coherent. *)
Theorem ci_pending_reply_needs_push (reply : obj) (job : val) :
  let r := normalizeCiPendingOnlyReply reply job in
  r = reply
  \/ exists operational commit,
       get reply "operationalBlockers" = VArr operational /\ operational <> []
       /\ (forall e, In e operational -> is_pending e = true) /\ has_length (get reply "blockers") = false
       /\ pushed_commit reply = Some commit
       /\ starts_with (oget job "revisionRef") commit = false /\ starts_with (oget job "headSha") commit = false
       /\ requested r = true /\ oget (get r "reReview") "originalOperationalBlockers" = VArr operational
       /\ (is_array (get reply "blockers") = true -> Coherent r)
       /\ (forall k, ~ In k ["outcome"; "operationalBlockers"; "reReview"] -> get r k = get reply k).
Proof.
  cbv zeta. unfold normalizeCiPendingOnlyReply.
  destruct (get reply "operationalBlockers") as [| | | | |[|e0 operational]|] eqn:Eo; try (by left).
  destruct (has_length _) eqn:Eb; [by left|]. destruct (every_b is_pending (e0 :: operational)) eqn:Ep; [|by left].
  cbn [negb orb]. destruct (pushed_commit reply) as [commit|] eqn:Ec; [|by left].
  destruct (some_b _ _) eqn:Eh; [by left|]. right. exists (e0 :: operational), commit.
  set (changes := [("outcome", VStr "completed"); _; _]).
  assert (Hg : forall k v, In (k, v) changes -> get (spread reply changes) k = v).
  { intros k v Hin. apply get_spread_in; [|done]. cbn [changes map fst]. keys. }
  assert (Hreq : requested (spread reply changes) = true).
  { unfold requested. erewrite Hg by (right; right; left; reflexivity). 
    cbn [oget]. erewrite get_spread_in; [|cbn [map fst]; keys | by left]. done. }
  split; [done|]. split; [done|]. split; [by apply forallb_forall|]. split; [done|]. split; [done|].
  cbn [some_b existsb] in Eh. apply orb_false_iff in Eh as [-> Eh]. apply orb_false_iff in Eh as [-> _].
  split; [done|]. split; [done|]. split; [done|]. split; [|split].
  - erewrite Hg by (right; right; left; reflexivity). cbn [oget].
    apply get_spread_in; [cbn; keys | by right; right; right; left].
  - intros Harr. assert (Hn : blocked_reply (spread reply changes) = false).
    { unfold blocked_reply, populated. erewrite (Hg "operationalBlockers") by (right; left; reflexivity).
      rewrite get_spread_other; [|cbn; intuition discriminate]. destruct (get reply "blockers"); try done.
      cbn in *. apply negb_false_iff in Eb. by rewrite Eb. }
    split; [intros _; split; [done|] | |]; erewrite (Hg "outcome") by (left; reflexivity); done.
  - intros k Hk. apply get_spread_other. cbn. exact Hk.
Qed.

(** ** What closes a finding without a repair *)

(** The evidence of a dispute: observed at this head, with an output and a test,
    or code with a reproduction, at the location of the finding. *)
Record EvidenceAt (e : val) (f : finding) (headSha : val) : Prop := {
  ev_head : strict_eq (oget (oget e "evidence") "headSha") headSha = true;
  ev_sha : test HEX40 (utf16 (to_str (or_else headSha (VStr "")))) = true;
  ev_output : evidence_text (oget (oget e "evidence") "output") = true;
  ev_run : evidence_text (oget (oget e "evidence") "test") = true
           \/ evidence_text (oget (oget e "evidence") "code") = true /\ evidence_text (oget (oget e "evidence") "reproduction") = true;
  ev_place : exists cited original, cited_location (oget (oget e "evidence") "citation") = Some cited
               /\ findingEvidenceLocation f = Some original /\ same_location cited original = true
}.
Lemma dispute_evidence e f headSha v : disputeEvidenceForFinding e f headSha = Some v -> EvidenceAt e f headSha.
Proof.
  unfold disputeEvidenceForFinding. destruct (_ || _) eqn:Eg; [done|]. bool_simpl.
  destruct (cited_location _) as [cited|] eqn:Ec; [|done]. destruct (findingEvidenceLocation f) as [original|] eqn:Eo; [|done].
  destruct (same_location _ _) eqn:Es; [|done]. intros _. split; [done | done | done | | by exists cited, original].
  match goal with H : _ || _ = true |- _ => apply orb_true_iff in H as [H|H]; [by left | right; by apply andb_true_iff in H] end.
Qed.

Lemma count_one p l :
  count_entries p l = Ok 1%nat ->
  exists l1 e l2, l = l1 ++ e :: l2 /\ p e = Ok true /\ forall x, In x (l1 ++ l2) -> p x = Ok false.
Proof.
  assert (Hz : forall l, count_entries p l = Ok 0%nat -> forall x, In x l -> p x = Ok false).
  { clear l. induction l as [|y l IH]; [done|]. cbn [count_entries]. intros ([] & Hy & H)%rbind_Ok;
      apply rbind_Ok in H as (n & Hn & [= E]). subst n. intros x [<-|Hx]; [done | by apply IH]. }
  induction l as [|y l IH]; [done|]. cbn [count_entries]. intros ([] & Hy & H)%rbind_Ok;
    apply rbind_Ok in H as (n & Hn & [= E]); subst n.
  - exists [], y, l. split; [done|]. split; [done|]. by apply Hz.
  - destruct (IH Hn) as (l1 & e & l2 & -> & He & Hr). exists (y :: l1), e, l2. split; [done|]. split; [done|].
    intros x [<-|Hx]; [done | by apply Hr].
Qed.
Lemma all_findings_In p l : all_findings p l = Ok true -> forall f, In f l -> p f = Ok true.
Proof.
  induction l as [|y l IH]; [done|]. cbn [all_findings]. intros ([] & Hy & H)%rbind_Ok; [|done].
  intros f [<-|Hf]; [done | by apply IH].
Qed.
Lemma some_entry_none p l : some_entry p l = Ok false -> forall x, In x l -> p x = Ok false.
Proof.
  induction l as [|y l IH]; [done|]. cbn [some_entry]. intros ([] & Hy & H)%rbind_Ok; [done|].
  intros x [<-|Hx]; [done | by apply IH].
Qed.

(** C27. Blocking findings are closed without a repair only by disputes: the
    completed reply is of the head the job reviewed and lists no blocker; for each
    finding exactly one entry of its title carries evidence observed at that head
    and at the location of the finding; and every entry that claims a repair names
    a non-blocking finding and no blocking one. *)
Theorem disputes_close_every_finding (job reply headSha : val) :
  allBlockingDisputed job reply headSha = Ok true ->
  is_str (oget reply "outcome") "completed" = true /\ strict_eq headSha (oget job "revisionRef") = true
  /\ has_length (oget reply "blockers") = false /\ has_length (oget reply "operationalBlockers") = false
  /\ exists f0 fs, blocking_of job = Some (f0 :: fs)
  /\ (forall f, In f (f0 :: fs) -> exists l1 e l2,
        list_or_empty (oget reply "pushback") "filter" = Ok (l1 ++ e :: l2)
        /\ entry_key e = Ok (finding_key f) /\ EvidenceAt e f headSha
        /\ forall x, In x (l1 ++ l2) -> entry_key x = Ok (finding_key f) -> ~ EvidenceAt x f headSha)
  /\ (forall l entry key, list_or_empty (oget reply "addressed") "some" = Ok l -> In entry l -> entry_key entry = Ok key ->
        titled_as key (f0 :: fs) = false /\ titled_as key (default [] (nonBlocking_of job)) = true).
Proof.
  unfold allBlockingDisputed. destruct (_ || _) eqn:Eg; [done|]. bool_simpl.
  intros (addressed & Ha & Hall)%rbind_Ok. apply rbind_Ok in Hall as (repaired & Hr & Hall). destruct repaired; [done|].
  destruct (blocking_of job) as [[|f0 fs]|]; try done. cbn [default] in *. split; [done|]. split; [done|]. split; [done|].
  split; [done|]. exists f0, fs. split; [done|]. split.
  - intros f Hf. pose proof (all_findings_In _ _ Hall f Hf) as Hp. cbv beta in Hp. apply rbind_Ok in Hp as (pushback & Hpb & Hp).
    apply rbind_Ok in Hp as (n & Hn & [= E]). apply Nat.eqb_eq in E. subst n.
    apply count_one in Hn as (l1 & e & l2 & -> & He & Hx). exists l1, e, l2. split; [done|].
    apply rbind_Ok in He as (key & Hk & [= He]). apply andb_true_iff in He as [->%teqb_eq He]. split; [done|].
    destruct (disputeEvidenceForFinding e f headSha) as [v|] eqn:Ed; [|done]. split; [by eapply dispute_evidence|].
    intros x Hin Hkx. specialize (Hx x Hin). rewrite Hkx in Hx. cbn [rbind] in Hx. injection Hx as Hx.
    rewrite (proj2 (teqb_eq _ _) eq_refl) in Hx. cbn [andb] in Hx.
    intros [E1 E2 E3 E4 (c & o & E5 & E6 & E7)].
    assert (Et : truthy (oget x "evidence") = true) by by destruct (oget x "evidence").
    unfold disputeEvidenceForFinding in Hx. rewrite Et, E1, E2, E3, E5, E6, E7 in Hx. cbn [negb orb] in Hx.
    assert (Hrun : evidence_text (oget (oget x "evidence") "test")
      || evidence_text (oget (oget x "evidence") "code") && evidence_text (oget (oget x "evidence") "reproduction") = true).
    { destruct E4 as [->|[-> ->]]; [done | by rewrite orb_true_r]. }
    rewrite Hrun in Hx. cbn [negb] in Hx. by rewrite Et in Hx.
  - intros l entry key Hl Hin Hk. rewrite Hl in Ha. injection Ha as <-.
    pose proof (some_entry_none _ _ Hr _ Hin) as Hp. cbv beta in Hp. rewrite Hk in Hp. cbn [rbind] in Hp. injection Hp as Hp.
    apply orb_false_iff in Hp as [Hb1 Hb2]. by apply negb_false_iff in Hb2.
Qed.
End Accepted.

(** ** Concrete inputs *)

#[local] Instance ex_nfkc : Nfkc := fun t => t.
Definition nl_join (ls : list string) : string := join (String "010" EmptyString) ls.
Definition ex_body : string := nl_join
  ["## Blocking Issues"; "### Lost update in save()"; "**File:** src/a.js"; "**Lines:** 10-12"; "**Problem:** two writers race.";
   "### Unchecked index"; "**File:** src/b.js"; "**Lines:** 4"; "**Problem:** out of range."; "";
   "## Non-blocking Issues"; "### Typo in docs"; "**File:** README.md"; "**Problem:** spelling."; "";
   "## Verdict"; "Request changes"].
Definition ex_sha : string := "0123456789abcdef0123456789abcdef01234567".
Definition ex_job : val :=
  VObj [("jobId", VStr "job-1"); ("reviewBody", VStr ex_body); ("revisionRef", VStr ex_sha)].
Definition ex_fix (title : string) : val :=
  VObj [("title", VStr title); ("finding", VStr "The finding."); ("action", VStr "Fixed it.")].
Definition ex_dispute (title citation : string) : val :=
  VObj [("title", VStr title); ("finding", VStr "The finding."); ("reasoning", VStr "It cannot happen.");
        ("evidence", VObj [("headSha", VStr ex_sha); ("output", VStr "ok"); ("test", VStr "npm test"); ("citation", VStr citation)])].
Definition ex_blocked (title : string) (more : obj) : val :=
  VObj ([("title", VStr title); ("finding", VStr "PR head checks are pending."); ("reasoning", VStr "Waiting.")] ++ more).
Definition ex_worker (outcome : string) (again : bool) (more : obj) : val :=
  VObj ([("kind", VStr REMEDIATION_REPLY_KIND); ("schemaVersion", VInt 1); ("jobId", VStr "job-1");
         ("summary", VStr "pushed commit 89abcdef01 after the fix."); ("outcome", VStr outcome); ("validation", VArr [VStr "npm test"]);
         ("blockers", VArr []); ("reReview", VObj [("requested", VBool again); ("reason", VStr "Fixed.")])] ++ more).
Definition ex_both : obj := [("addressed", VArr [ex_fix "Unchecked index"; ex_fix "Lost update in  SAVE()"])].
Definition outcome_of (r : result obj) : string := match r with Ok _ => "accepted" | Throw e => error_message e end.
Definition ex_check (reply : val) : string := outcome_of (validateRemediationReply "public reply" ex_job reply).

#[local] Instance ex_trims : NfkcTrims.
Proof. intros t. apply ttrim_idem. Qed.

Definition ex_disputed : val := ex_worker "completed" false
  [("pushback", VArr [ex_dispute "Lost update in save()" "src/a.js:10-12"; ex_dispute "Unchecked index" "`src/b.js:4`"])].
Definition ex_pending : val := ex_worker "blocked" false
  [("addressed", VArr []); ("operationalBlockers", VArr [ex_blocked "CI pending" [("kind", VStr "pending-ci")]])].
Definition ex_raw (v : val) : obj := match v with VObj o => o | _ => [] end.

(** Replies as they are judged, the first words of each refusal. *)
Example remediation_reply_examples :
  map (fun reply => String.substring 18 30 (ex_check reply))
    [ex_worker "completed" true ex_both;
     ex_worker "completed" true [("addressed", VArr [ex_fix "Unchecked index"])];
     ex_worker "completed" true [("addressed", VArr [ex_fix "Unchecked index"; ex_fix "Unchecked index"])];
     ex_worker "completed" true [("addressed", VArr [ex_fix "Unchecked index"; ex_fix "Lost update in save()"; ex_fix "Typo in docs"])];
     ex_worker "blocked" true (ex_both ++ [("operationalBlockers", VArr [ex_blocked "Fetch_Failed" []])]);
     ex_worker "completed" true [("addressed", VArr [VObj [("finding", VStr "a bug"); ("action", VStr "```")]])];
     ex_disputed; ex_pending; VNull]
  = [""; "does not account for every blo"; "titles must match the blocking"; ""; "contradicts itself: blockers a";
     "addressed[0].action looks like"; ""; ""; "must be a JSON object"].
Proof. vm_compute. reflexivity. Qed.

Example dispute_examples :
  map (fun head => allBlockingDisputed ex_job ex_disputed (VStr head)) [ex_sha; "f"]
    ++ [allBlockingDisputed ex_job (ex_worker "completed" false
          [("pushback", VArr [ex_dispute "Lost update in save()" "src/a.js:10-12"; ex_dispute "Unchecked index" "src/b.js:5"])]) (VStr ex_sha)]
  = [Ok true; Ok false; Ok false].
Proof. vm_compute. reflexivity. Qed.

(** A reply that waits for CI after a push; after a push of the reviewed head itself. *)
Example ci_pending_examples :
  map (fun r => (get r "outcome", requested r))
    [normalizeCiPendingOnlyReply (ex_raw ex_pending) ex_job;
     normalizeCiPendingOnlyReply (ex_raw ex_pending) (VObj [("headSha", VStr "89abcdef0123")])]
  = [(VStr "completed", true); (VStr "blocked", false)].
Proof. vm_compute. reflexivity. Qed.

(** The commit is read in either case and compared as it is written: the reviewed
    head in capitals counts as a new push. *)
Example reviewed_head_in_capitals_counts :
  map (fun summary => requested (normalizeCiPendingOnlyReply (spread (ex_raw ex_pending) [("summary", VStr summary)]) ex_job))
    ["Pushed commit 0123456789abcdef."; "Pushed commit 0123456789ABCDEF."] = [false; true].
Proof. vm_compute. reflexivity. Qed.

Definition ex_accepted : obj :=
  match validateRemediationReply "public reply" ex_job (ex_worker "completed" true ex_both) with Ok r => r | Throw _ => [] end.
Definition ex_findings : list finding := default [] (blocking_of ex_job).

Lemma accepted_remediation_coherent_witness : requested ex_accepted = true /\ blocked_reply ex_accepted = false.
Proof.
  destruct (accepted_remediation_coherent "public reply" ex_job (ex_worker "completed" true ex_both) ex_accepted) as [Hc _].
  - vm_compute. reflexivity.
  - split; [vm_compute; reflexivity|]. apply (co_again _ (Hc ltac:(vm_compute; reflexivity))). vm_compute. reflexivity.
Defined.

Lemma accepted_remediation_accounts_witness :
  Permutation (map finding_key ex_findings) (map placed_key (blocking_entries (accounting ex_accepted ex_job ex_findings))).
Proof.
  destruct (accepted_remediation_accounts "public reply" ex_job (ex_worker "completed" true ex_both) ex_accepted ex_findings)
    as [[Ho _]|[_ Hp]].
  - vm_compute. reflexivity.
  - vm_compute. reflexivity.
  - vm_compute. reflexivity.
  - vm_compute. discriminate.
  - exfalso. revert Ho. vm_compute. discriminate.
  - apply Hp. vm_compute. reflexivity.
Defined.

Lemma disputes_close_every_finding_witness : is_str (oget ex_disputed "outcome") "completed" = true.
Proof. apply (disputes_close_every_finding ex_job ex_disputed (VStr ex_sha)). vm_compute. reflexivity. Defined.
