(* ===== verification/JsMath.v ===== *)
(** * [Math] on the numbers of the language

    Division, minimum, maximum and the roundings to whole numbers, with the
    facts the clients use: no operation with a finite non-zero number makes a
    NaN, rounding up is idempotent and whole, and a minimum or a maximum is one
    of its arguments and bounds both. *)

From Stdlib Require Import ZArith Lia SpecFloat.
From stdpp Require Import base list.
From S2P Require Import Prelude JsNum.

(** ** Operations *)

Definition num_div (x y : num) : num := SFdiv 53 1024 x y.
Definition infinity : num := S754_infinity false.

(** [Math.max(x, y)], [Math.min(x, y)]: NaN wins, and +0 is above -0. *)
Definition num_max (x y : num) : num :=
  if is_nan x || is_nan y then NaN
  else if num_ltb x y then y else if num_ltb y x then x
  else match x with S754_zero true => y | _ => x end.
Definition num_min (x y : num) : num :=
  if is_nan x || is_nan y then NaN
  else if num_ltb y x then y else if num_ltb x y then x
  else match x with S754_zero false => y | _ => x end.

(** [Math.ceil(x)], [Math.floor(x)]. *)
Definition round_up (s : bool) (m : positive) (d : Z) : Z :=
  if s then (- (Zpos m / 2 ^ d))%Z else (- (- Zpos m / 2 ^ d))%Z.
Definition num_ceil (x : num) : num :=
  match x with
  | S754_finite s m e => if (0 <=? e)%Z then x else binary_normalize 53 1024 (round_up s m (- e)) 0 s
  | _ => x
  end.
Definition num_floor (x : num) : num :=
  match x with
  | S754_finite s m e => if (0 <=? e)%Z then x else binary_normalize 53 1024 (- round_up (negb s) m (- e)) 0 s
  | _ => x
  end.

(** ** Facts of the numbers *)

Lemma shr_1_nonneg r : (0 <= shr_m r)%Z -> (0 <= shr_m (shr_1 r))%Z.
Proof. destruct r as [[|[]|[]] r s]; simpl; lia. Qed.
Lemma iter_pos_inv {A} (P : A -> Prop) f : (forall x, P x -> P (f x)) -> forall n x, P x -> P (SpecFloat.iter_pos f n x).
Proof. intros Hf. induction n; simpl; auto. Qed.
Lemma shr_shape r e n : (0 <= shr_m r)%Z -> (0 <= shr_m (shr r e n).1)%Z /\ (e <= (shr r e n).2)%Z.
Proof.
  intros Hr. destruct n as [|p|p]; simpl; [lia| |lia].
  split; [|lia]. by apply (iter_pos_inv (fun r => (0 <= shr_m r)%Z) shr_1 shr_1_nonneg).
Qed.
Lemma round_nearest_even_nonneg m l : (0 <= m)%Z -> (0 <= round_nearest_even m l)%Z.
Proof. intros. destruct l as [|[]]; simpl; try lia. destruct (Z.even m); lia. Qed.

(** Rounding yields no NaN, and never lowers the exponent. *)
Definition rounded (e : Z) (x : num) : Prop :=
  match x with S754_nan => False | S754_finite _ _ e' => (e <= e')%Z | _ => True end.

Lemma round_aux_shape s (m e : Z) (l : location) : (0 <= m)%Z -> rounded e (binary_round_aux 53 1024 s m e l).
Proof.
  intros Hm. unfold binary_round_aux, shr_fexp.
  assert (H0 : forall m l, shr_m (shr_record_of_loc m l) = m) by (by intros ? [|[]]).
  pose proof (shr_shape (shr_record_of_loc m l) e (fexp 53 1024 (Zdigits2 m + e) - e)) as H1.
  destruct (shr _ _ _) as [r1 e1]. rewrite H0 in H1. specialize (H1 Hm) as [H1 He1].
  pose proof (round_nearest_even_nonneg _ (loc_of_shr_record r1) H1) as H2. simpl in He1.
  set (m2 := round_nearest_even _ _) in *.
  pose proof (shr_shape (shr_record_of_loc m2 loc_Exact) e1 (fexp 53 1024 (Zdigits2 m2 + e1) - e1)) as H3.
  destruct (shr _ _ _) as [r2 e2]. rewrite H0 in H3. specialize (H3 H2) as [H3 He2]. simpl in *.
  destruct (shr_m r2); [done| |lia]. destruct (e2 <=? _)%Z; simpl; lia || done.
Qed.

Lemma rounded_weaken e e' x : (e' <= e)%Z -> rounded e x -> rounded e' x.
Proof. destruct x; simpl; lia || done. Qed.
Lemma rounded_not_nan e x : rounded e x -> is_nan x = false.
Proof. by destruct x. Qed.

Lemma normalize_not_nan m e z : is_nan (binary_normalize 53 1024 m e z) = false.
Proof.
  destruct m; simpl; [done| |]; unfold binary_round; destruct (shl_align _ _ _);
    eapply rounded_not_nan, round_aux_shape; lia.
Qed.

(** The number of an integer, however large, is an integer or an infinity. *)
Lemma normalize_integer z s :
  num_to_Z (binary_normalize 53 1024 z 0 s) <> None \/ is_finite (binary_normalize 53 1024 z 0 s) = false.
Proof.
  assert (Hr : forall s m, num_to_Z (binary_round 53 1024 s m 0) <> None
                           \/ is_finite (binary_round 53 1024 s m 0) = false).
  { intros s' m. destruct (Z.lt_ge_cases (Zpos m) (2 ^ 53)) as [H|H]; [left; by rewrite round_integer|].
    assert (Hd : (53 < Zpos (digits2_pos m))%Z).
    { pose proof (digits_upper m). apply (Z.pow_lt_mono_r_iff 2); lia. }
    unfold binary_round, shl_align.
    destruct (fexp 53 1024 (Z.pos (digits2_pos m) + 0) - 0)%Z eqn:E; [| |unfold fexp, emin in E; lia].
    all: pose proof (round_aux_shape s' (Zpos m) 0 loc_Exact) as Hs;
      destruct (binary_round_aux _ _ _ _ _ _) as [|[]| |? m' e']; simpl in *; try (by left); try (by right); try lia.
    all: left; replace (0 <=? e')%Z with true by lia; done. }
  destruct z as [|p|p]; [by left| apply Hr | apply Hr].
Qed.

Lemma num_ceil_integer x :
  is_nan x = false -> is_nan (num_ceil x) = false /\ (num_to_Z (num_ceil x) <> None \/ is_finite (num_ceil x) = false).
Proof.
  destruct x as [| | |s m e]; simpl; try done; try (split; [done | by (left + right)]).
  intros _. destruct (0 <=? e)%Z eqn:E.
  - simpl. rewrite E. split; [done | by left].
  - split; [apply normalize_not_nan | apply normalize_integer].
Qed.

Lemma num_leb_refl x : is_nan x = false -> num_leb x x = true.
Proof. intros H. apply num_leb_rank. do 2 (split; [done|]). destruct (num_rank x) as [[? ?] ?]; simpl; lia. Qed.
Lemma num_leb_not_nan x y : num_leb x y = true -> is_nan x = false /\ is_nan y = false.
Proof. by intros (? & ? & _)%num_leb_rank. Qed.
Lemma num_ltb_le x y : num_ltb x y = true -> num_leb x y = true.
Proof. unfold num_ltb, num_leb, SFltb, SFleb. destruct (SFcompare x y) as [[]|]; done. Qed.
Lemma num_nlt_le x y : is_nan x = false -> is_nan y = false -> num_ltb x y = false -> num_leb y x = true.
Proof. intros Hx Hy. rewrite num_ltb_leb by done. by destruct (num_leb y x). Qed.

(** The maximum is one of its arguments and bounds both; so for the minimum. *)
Lemma num_max_spec x y :
  is_nan x = false -> is_nan y = false ->
  (num_max x y = x \/ num_max x y = y) /\ num_leb x (num_max x y) = true /\ num_leb y (num_max x y) = true.
Proof.
  intros Hx Hy. unfold num_max. rewrite Hx, Hy. simpl.
  destruct (num_ltb x y) eqn:E1; [|destruct (num_ltb y x) eqn:E2].
  - split; [by right|]. split; [by apply num_ltb_le | by apply num_leb_refl].
  - split; [by left|]. split; [by apply num_leb_refl | by apply num_ltb_le].
  - pose proof (num_nlt_le _ _ Hx Hy E1). pose proof (num_nlt_le _ _ Hy Hx E2).
    destruct x as [[]| | |]; simpl; (split; [by (left + right)|]); auto using num_leb_refl.
Qed.
Lemma num_min_spec x y :
  is_nan x = false -> is_nan y = false ->
  (num_min x y = x \/ num_min x y = y) /\ num_leb (num_min x y) x = true /\ num_leb (num_min x y) y = true.
Proof.
  intros Hx Hy. unfold num_min. rewrite Hx, Hy. simpl.
  destruct (num_ltb y x) eqn:E1; [|destruct (num_ltb x y) eqn:E2].
  - split; [by right|]. split; [by apply num_ltb_le | by apply num_leb_refl].
  - split; [by left|]. split; [by apply num_leb_refl | by apply num_ltb_le].
  - pose proof (num_nlt_le _ _ Hy Hx E1). pose proof (num_nlt_le _ _ Hx Hy E2).
    destruct x as [[]| | |]; simpl; (split; [by (left + right)|]); auto using num_leb_refl.
Qed.
Lemma num_max_nan x y : is_nan (num_max x y) = false -> is_nan x = false /\ is_nan y = false.
Proof. unfold num_max. by destruct (is_nan x), (is_nan y). Qed.
Lemma num_min_nan x y : is_nan (num_min x y) = false -> is_nan x = false /\ is_nan y = false.
Proof. unfold num_min. by destruct (is_nan x), (is_nan y). Qed.

(** Rounding up a whole number changes nothing. *)
Lemma ceil_of_Z z s : num_ceil (binary_normalize 53 1024 z 0 s) = binary_normalize 53 1024 z 0 s.
Proof.
  assert (Hr : forall s m, num_ceil (binary_round 53 1024 s m 0) = binary_round 53 1024 s m 0).
  { intros s' m. destruct (Z.lt_ge_cases (Zpos m) (2 ^ 53)) as [H|H].
    - destruct (num_of_pos m H) as (m' & d & Ep & En & Hd & Hm & _). unfold num_of_Z, binary_normalize in Ep, En.
      assert (Hp : (2 ^ d <> 0)%Z) by (apply Z.pow_nonzero; lia).
      destruct s'; rewrite ?Ep, ?En; unfold num_ceil, round_up; destruct (0 <=? - d)%Z; try done;
        rewrite Z.opp_involutive, Hm, <- ?Z.mul_opp_l, Z.div_mul by done.
      + exact En.
      + rewrite Z.opp_involutive. exact Ep.
    - assert (Hd : (53 < Zpos (digits2_pos m))%Z).
      { pose proof (digits_upper m). apply (Z.pow_lt_mono_r_iff 2); lia. }
      unfold binary_round, shl_align.
      destruct (fexp 53 1024 (Z.pos (digits2_pos m) + 0) - 0)%Z eqn:E; [| |unfold fexp, emin in E; lia].
      all: pose proof (round_aux_shape s' (Zpos m) 0 loc_Exact) as Hs;
        destruct (binary_round_aux _ _ _ _ _ _) as [|[]| |? m' e']; simpl in *; try done.
      all: by replace (0 <=? e')%Z with true by lia. }
  destruct z as [|p|p]; [done | apply Hr | apply Hr].
Qed.

Lemma num_ceil_idem x : num_ceil (num_ceil x) = num_ceil x.
Proof.
  destruct x as [| | |s m e]; try done. simpl. destruct (0 <=? e)%Z eqn:E; [|apply ceil_of_Z].
  simpl. by rewrite E.
Qed.

(** Arithmetic with a finite non-zero number yields no NaN of a number. *)
Section Arithmetic.
Context (s : bool) (m : positive) (e : Z).
Let k : num := S754_finite s m e.

Lemma num_sub_not_nan x : is_nan x = false -> is_nan (num_sub x k) = false.
Proof. destruct x; intros; try done. apply normalize_not_nan. Qed.
Lemma num_add_not_nan x : is_nan x = false -> is_nan (num_add k x) = false.
Proof. destruct x; intros; try done. apply normalize_not_nan. Qed.
Lemma num_mul_not_nan x : is_nan x = false -> is_nan (num_mul x k) = false.
Proof. destruct x; intros; try done. eapply rounded_not_nan, round_aux_shape. lia. Qed.
Lemma num_div_not_nan x : is_nan x = false -> is_nan (num_div x k) = false.
Proof.
  destruct x as [| | |s' m' e']; intros; try done.
  unfold num_div, SFdiv, k, SFdiv_core_binary. set (a := match (_ - _)%Z with Zpos _ => _ | Z0 => _ | Zneg _ => _ end).
  assert (Ha : (0 <= a)%Z).
  { unfold a. destruct (_ - _)%Z eqn:Es; [lia | rewrite <- Es; apply Z.shiftl_nonneg; lia | lia]. }
  pose proof (Z_div_mod a (Zpos m) ltac:(lia)) as H1. destruct (Z.div_eucl a (Zpos m)) as [q r].
  eapply rounded_not_nan, round_aux_shape. nia.
Qed.
End Arithmetic.

(** A whole number of a range is the number of an integer of the range. *)
Lemma safe_range_integer x a b :
  (Z.abs a <= max_safe_integer)%Z -> (Z.abs b <= max_safe_integer)%Z ->
  (exists z, num_to_Z x = Some z) \/ is_finite x = false ->
  num_leb (num_of_Z a) x = true -> num_leb x (num_of_Z b) = true -> is_integer x = true.
Proof.
  intros Ha Hb [[z Hz]|Hf] H1 H2; unfold is_integer; [by rewrite Hz|].
  pose proof (num_of_Z_not_nan a Ha) as Na. pose proof (num_of_Z_not_nan b Hb) as Nb.
  pose proof (num_to_Z_of_Z a Ha) as Fa%num_to_Z_finite. pose proof (num_to_Z_of_Z b Hb) as Fb%num_to_Z_finite.
  destruct x as [|[]| |]; try done; [destruct (num_of_Z a) as [|[]| |[]] | destruct (num_of_Z b) as [|[]| |[]]]; done.
Qed.

(** Rounding down a canonical number that is at least one leaves at least one. *)
Lemma floor_at_least_one x :
  valid_binary 53 1024 x = true -> num_leb (num_of_Z 1) x = true ->
  num_leb (num_of_Z 1) (num_floor x) = true /\ (num_to_Z (num_floor x) <> None \/ is_finite (num_floor x) = false).
Proof.
  destruct x as [| | |s m e]; try done; [intros _ H; split; [done | by right]|].
  intros Hv H1. pose proof H1 as Hr. apply num_leb_rank in Hr as (_ & _ & Hr).
  change (num_rank (num_of_Z 1)) with (1, -52, 2 ^ 52)%Z in Hr.
  destruct s; [unfold num_rank, lex_le in Hr; lia|].
  assert (Ef : num_floor (S754_finite false m e)
               = if (0 <=? e)%Z then S754_finite false m e else num_of_Z (Zpos m / 2 ^ (- e))).
  { unfold num_floor, round_up, negb. by rewrite Z.opp_involutive. }
  rewrite Ef. destruct (0 <=? e)%Z eqn:E.
  - split; [done|]. left. simpl. by rewrite E.
  - apply Z.leb_gt in E. cbn [valid_binary] in Hv. unfold bounded, canonical_mantissa, fexp, emin in Hv.
    apply andb_prop in Hv as [Hv _]. apply Z.eqb_eq in Hv.
    assert (Hr2 : (-52 < e \/ e = -52 /\ 2 ^ 52 <= Zpos m)%Z).
    { unfold num_rank, lex_le in Hr. lia. }
    pose proof (digits_lower m) as Hlo. pose proof (digits_upper m) as Hup.
    assert (Hd : Zpos (digits2_pos m) = 53%Z) by lia. rewrite Hd in *.
    assert (Hle : (2 ^ (- e) <= 2 ^ 52)%Z) by (apply Z.pow_le_mono_r; lia).
    assert (Hp : (0 < 2 ^ (- e))%Z) by (apply Z.pow_pos_nonneg; lia).
    change (2 ^ (53 - 1))%Z with (2 ^ 52)%Z in Hlo.
    assert (Hq : (1 <= Zpos m / 2 ^ (- e) <= max_safe_integer)%Z).
    { unfold max_safe_integer. split; [apply Z.div_le_lower_bound; lia|].
      apply Z.lt_le_pred, Z.div_lt_upper_bound; nia. }
    split; [|apply normalize_integer].
    rewrite num_leb_of_Z; [apply Z.leb_le, Hq | |]; unfold max_safe_integer in *; lia.
Qed.

