(* ===== verification/LoadAware.v ===== *)
(** * Load-aware timeouts (load-aware-timeout.mjs)

    A nominal timeout is scaled by the load of the host, never below the nominal
    and never past the caps and the platform's timer limit. Readings of the host
    and the configuration are a class; the CPU sampler is a state machine. *)

From Stdlib Require Import ZArith Lia SpecFloat Ascii.
From stdpp Require Import base list strings.
From S2P Require Import Prelude JsNum JsMath JsValue JsDate QueueLane.

(** ** Bounds *)

Definition MIN_MULTIPLIER : num := num_of_Z 1.
Definition MAX_MULTIPLIER : num := num_of_Z 6.
Definition DEFAULT_MAX_TIMEOUT_SECONDS : num := num_of_Z 3600.
Definition MAX_TIMER_DELAY : num := num_of_Z (2 ^ 31 - 1).
Definition CPU_BUSY_THRESHOLD_PERCENT : num := num_of_Z 85.

Definition timerDelayMs (delayMs : val) : result num :=
  match delayMs with
  | VNum d =>
      if is_nan d then Throw (TypeError "timerDelayMs requires a numeric delay that is not NaN")
      else Ok (num_min MAX_TIMER_DELAY (num_max (num_of_Z 1) (num_ceil d)))
  | _ => Throw (TypeError "timerDelayMs requires a numeric delay that is not NaN")
  end.

(** ** The multiplier *)

(** [Number.isFinite(v)] on any value. *)
Definition finite_val (v : val) : bool := match v with VNum n => is_finite n | _ => false end.
Definition num_or (v : val) (d : num) : num := match v with VNum n => if is_finite n then n else d | _ => d end.

Definition loadAwareMultiplier (loadPerCore : val) (maxMultiplier : num) : num :=
  let lpc := num_max (num_of_Z 0) (num_or loadPerCore (num_of_Z 0)) in
  let factor := num_max (num_of_Z 0) (num_div (num_sub lpc (num_of_Z 1)) (num_of_Z 2)) in
  let multiplier := num_add (num_of_Z 1) (num_mul factor (num_of_Z 5)) in
  num_min (num_max MIN_MULTIPLIER maxMultiplier) (num_max MIN_MULTIPLIER multiplier).

Definition corroboration (cpuBusyPercent : val) : num :=
  match cpuBusyPercent with
  | VNum b => if is_finite b
              then num_min (num_of_Z 1) (num_max (num_of_Z 0) (num_div b CPU_BUSY_THRESHOLD_PERCENT))
              else num_of_Z 1
  | _ => num_of_Z 1
  end.
Definition corroboratedLoadAwareMultiplier (loadPerCore cpuBusyPercent : val) (maxMultiplier : num) (enabled : val) : num :=
  if is_false enabled then MIN_MULTIPLIER
  else
    let rawMultiplier := loadAwareMultiplier loadPerCore maxMultiplier in
    num_add MIN_MULTIPLIER (num_mul (num_sub rawMultiplier MIN_MULTIPLIER) (corroboration cpuBusyPercent)).

(** ** Scaling *)

(** What the host answers at a call: the policy of the configuration, the load
    average, the count of cores, and the CPU sample ([null] without one). *)
Class Host := {
  host_policy : obj;
  host_loadavg : num;
  host_cpu_count : num;
  host_cpu_busy : val
}.

Section Scaling.
Context `{Host}.

(** The value of [maxMultiplier] as a number; the option is absent or a number. *)
Definition policy_of (opts : obj) : obj :=
  if negb (strict_eq (get opts "enabled") VUndef) && negb (strict_eq (get opts "maxMultiplier") VUndef)
  then opts else spread host_policy opts.
(** The default parameter value applies to [undefined]. *)
Definition default_num (v : val) (d : num) : num := match v with VUndef => d | _ => to_num v end.
Definition default_val (v d : val) : val := match v with VUndef => d | _ => v end.

Definition cores_of (opts : obj) : num :=
  match get opts "cpuCount" with
  | VNum n => if is_finite n && num_ltb (num_of_Z 0) n then n else host_cpu_count
  | _ => host_cpu_count
  end.
Definition load_of (opts : obj) : num :=
  match get opts "loadAvg1m" with VNum n => if is_finite n then n else host_loadavg | _ => host_loadavg end.

Definition scaledTimeout (baseValue : val) (opts : obj) (maxValue : num) : result num :=
  let base := to_num baseValue in
  if negb (is_finite base) || num_leb base (num_of_Z 0)
  then Throw (PlainError ("load-aware-timeout: base timeout must be a positive number, got " +:+ to_str baseValue))
  else
    let policy := policy_of opts in
    if is_false (get policy "enabled") then Ok (num_ceil base)
    else
      let cores := cores_of opts in
      let load := load_of opts in
      if num_leb load cores then Ok (num_ceil base)
      else
        let busy := match map_get opts "cpuBusyPercent" with Some v => v | None => host_cpu_busy end in
        let multiplier := corroboratedLoadAwareMultiplier (VNum (num_div load cores)) busy
                            (default_num (get policy "maxMultiplier") MAX_MULTIPLIER)
                            (default_val (get policy "enabled") (VBool true)) in
        let effective := num_ceil (num_mul base multiplier) in
        let nominal := num_ceil base in
        let cap := num_max nominal maxValue in
        Ok (num_min cap (num_max nominal effective)).

(** [opts.maxMs ?? d]. *)
Definition cap_option (opts : obj) (k : string) (d : num) : num :=
  if is_nullish (get opts k) then d else to_num (get opts k).

Definition loadAwareTimeoutSeconds (baseSeconds : val) (opts : obj) : result num :=
  let* t := scaledTimeout baseSeconds opts (cap_option opts "maxSeconds" DEFAULT_MAX_TIMEOUT_SECONDS) in
  Ok (num_min (num_floor (num_div MAX_TIMER_DELAY (num_of_Z 1000))) t).

Definition loadAwareTimeoutMs (baseMs : val) (opts : obj) : result num :=
  let* t := scaledTimeout baseMs opts
              (cap_option opts "maxMs" (num_mul DEFAULT_MAX_TIMEOUT_SECONDS (num_of_Z 1000))) in
  timerDelayMs (VNum t).

Definition progressingOperationTimeoutMs (nominalMs deadlineMs nowMs ceilingMs : val) (loadOptions : obj) : result num :=
  match deadlineMs, nowMs, ceilingMs with
  | VNum deadline, VNum now, VNum ceiling =>
      if is_nan deadline || negb (is_finite now) || negb (is_finite ceiling) || num_ltb ceiling (num_of_Z 1)
      then Throw (TypeError "invalid progressing operation bounds")
      else
        let remaining := num_sub deadline now in
        if num_ltb remaining (num_of_Z 1) then Throw (PlainError "operation deadline expired")
        else
          let* effective := loadAwareTimeoutMs nominalMs loadOptions in
          Ok (num_min (num_min (num_min effective (num_floor remaining)) (num_floor ceiling)) MAX_TIMER_DELAY)
  | _, _, _ => Throw (TypeError "invalid progressing operation bounds")
  end.
End Scaling.

(** ** The CPU sampler *)

Definition SAMPLE_INTERVAL_MS : num := num_of_Z 5000.
Definition LAST_GOOD_CPU_MAX_AGE_MS : num := num_of_Z 60000.
Definition SUBSTITUTION_LOG_INTERVAL_MS : num := num_of_Z 60000.

Record Sampler := {
  sampledAt : num; cached : option num; lastGood : option num; lastGoodAt : num; warnedAt : num
}.
Definition new_sampler : Sampler :=
  {| sampledAt := S754_infinity true; cached := None; lastGood := None; lastGoodAt := S754_infinity true;
     warnedAt := S754_infinity true |}.

(** [raw.replace(',', '.')]: the first comma. *)
Fixpoint first_comma (s : string) : string :=
  match s with
  | EmptyString => ""
  | String a s' => if Ascii.eqb a "," then String "." s' else String a (first_comma s')
  end.

(** The sum over the lines of the output; [None] when a line is no number. *)
Fixpoint sum_lines (ls : list string) (total : num) (seen : bool) : option (num * bool) :=
  match ls with
  | [] => Some (total, seen)
  | line :: ls =>
      let raw := first_comma (trim line) in
      if String.eqb raw "" then sum_lines ls total seen
      else let value := string_to_number raw in
           if is_finite value then sum_lines ls (num_add total value) true else None
  end.

(** A sample from the output of [ps]; the command may fail. *)
Definition parse_sample (cpuCount : num) (out : option string) : option num :=
  match out with
  | None => None
  | Some out =>
      match sum_lines (split_on (ascii_of_N 10) out) (num_of_Z 0) false with
      | Some (total, true) =>
          let busy := num_div total cpuCount in
          if is_finite busy then Some (num_max (num_of_Z 0) (num_min (num_of_Z 100) busy)) else None
      | _ => None
      end
  end.

(** One call: [now0] is the clock at the entry, [now1] after the command, [out]
    what the command answers if it is run. The answer says whether it ran, and
    whether the substitution was logged. *)
Record Sampled := { s_value : option num; s_ran : bool; s_warned : bool }.

Definition sample (cpuCount now0 now1 : num) (out : option string) (st : Sampler) : Sampled * Sampler :=
  let run := num_leb SAMPLE_INTERVAL_MS (num_sub now0 (sampledAt st)) in
  let now := if run then now1 else now0 in
  let st := if run then
              let c := parse_sample cpuCount out in
              {| sampledAt := now1; cached := c;
                 lastGood := match c with Some _ => c | None => lastGood st end;
                 lastGoodAt := match c with Some _ => now1 | None => lastGoodAt st end;
                 warnedAt := warnedAt st |}
            else st in
  match cached st with
  | Some v => ({| s_value := Some v; s_ran := run; s_warned := false |}, st)
  | None =>
      let fresh := match lastGood st with
                   | Some _ => num_ltb (num_sub now (lastGoodAt st)) LAST_GOOD_CPU_MAX_AGE_MS
                   | None => false
                   end in
      let warns := num_leb SUBSTITUTION_LOG_INTERVAL_MS (num_sub now (warnedAt st)) in
      let st := {| sampledAt := sampledAt st; cached := cached st; lastGood := lastGood st;
                   lastGoodAt := lastGoodAt st; warnedAt := if warns then now else warnedAt st |} in
      ({| s_value := if fresh then lastGood st else None; s_ran := run; s_warned := warns |}, st)
  end.

(** ** The policy cache *)

Definition POLICY_ENABLED_KEY := "adversarial.reviewer.load_aware.enabled".
Definition POLICY_MAX_KEY := "adversarial.reviewer.load_aware.max_multiplier".

Record PolicyCache := { pc_path : val; pc_at : num; pc_value : obj }.

(** [timeoutPolicy()]: [path] is the configuration path of the environment,
    [now] the clock and [cfg] the reader of the configuration, absent when
    loading it or reading it throws. *)
Definition timeoutPolicy (path : val) (now : num) (cfg : option (string -> val -> val)) (cache : option PolicyCache)
    : obj * option PolicyCache :=
  let reload :=
    let value := match cfg with
                 | Some g => [("enabled", g POLICY_ENABLED_KEY (VBool true));
                              ("maxMultiplier", g POLICY_MAX_KEY (VNum MAX_MULTIPLIER))]
                 | None => [("enabled", VBool true); ("maxMultiplier", VNum MAX_MULTIPLIER)]
                 end in
    (value, Some {| pc_path := path; pc_at := now; pc_value := value |}) in
  match cache with
  | Some c => if strict_eq (pc_path c) path && num_ltb (num_sub now (pc_at c)) SAMPLE_INTERVAL_MS
              then (pc_value c, cache) else reload
  | None => reload
  end.
Lemma Ok_inj {A} (x y : A) : Ok x = Ok y -> x = y.
Proof. congruence. Qed.

(** ** Scaling: facts *)

Section ScalingFacts.
Context `{Host}.

(** A scaled timeout is at least the whole nominal, and past it only up to the
    cap; it is whole when the cap is. *)
Lemma scaledTimeout_range base opts cap t :
  scaledTimeout base opts cap = Ok t -> is_nan t = false ->
  num_leb (num_ceil (to_num base)) t = true
  /\ (num_leb t (num_ceil (to_num base)) = true \/ num_leb t cap = true)
  /\ (num_ceil cap = cap -> num_ceil t = t).
Proof.
  unfold scaledTimeout. set (n := num_ceil (to_num base)).
  assert (Hn : is_nan n = false -> num_leb n n = true) by apply num_leb_refl.
  assert (Hw : num_ceil n = n) by apply num_ceil_idem.
  destruct (_ || _); [done|]. destruct (is_false _); [intros [= <-]; auto 6|].
  destruct (num_leb (load_of opts) (cores_of opts)); [intros [= <-]; auto 6|].
  set (e := num_ceil (num_mul _ _)). assert (He : num_ceil e = e) by apply num_ceil_idem.
  intros [= <-] (Hc & Hm)%num_min_nan. pose proof (num_max_nan _ _ Hc) as [Hn1 Hcap].
  pose proof (num_max_nan _ _ Hm) as [_ He1].
  destruct (num_max_spec n cap Hn1 Hcap) as (Ec & Hnc & Hcc).
  destruct (num_max_spec n e Hn1 He1) as (Em & Hnm & _).
  destruct (num_min_spec _ _ Hc Hm) as (Et & Hle & _).
  revert Et Hle. generalize (num_min (num_max n cap) (num_max n e)). intros t Et Hle.
  split; [by destruct Et as [-> | ->]|]. split.
  - destruct Ec as [Ec|Ec]; rewrite Ec in Hle; [by left | by right].
  - intros Hcw. destruct Et as [Et|Et], Ec as [Ec|Ec], Em as [Em|Em]; rewrite Et, ?Ec, ?Em; assumption.
Qed.
End ScalingFacts.

(** Whole numbers of at least one, and infinity, are closed under minimum. *)
Definition whole_delay (x : num) : Prop :=
  num_leb (num_of_Z 1) x = true /\ (num_to_Z x <> None \/ is_finite x = false).

Lemma whole_min x y :
  whole_delay x -> whole_delay y ->
  whole_delay (num_min x y) /\ num_leb (num_min x y) x = true /\ num_leb (num_min x y) y = true.
Proof.
  intros Hx Hy. destruct (num_leb_not_nan _ _ (proj1 Hx)) as [_ Nx]. destruct (num_leb_not_nan _ _ (proj1 Hy)) as [_ Ny].
  destruct (num_min_spec x y Nx Ny) as ([E|E] & H1 & H2); (split; [by rewrite E | by split]).
Qed.

Lemma whole_delay_timer x : whole_delay x -> num_leb x MAX_TIMER_DELAY = true -> is_integer x = true.
Proof.
  intros [H1 Hi] HM. apply (safe_range_integer _ 1 (2 ^ 31 - 1)); [unfold max_safe_integer; lia.. | |done|done].
  destruct Hi as [Hi|Hi]; [left | by right]. destruct (num_to_Z x); eauto. done.
Qed.
Lemma integer_whole x : is_integer x = true -> num_leb (num_of_Z 1) x = true -> whole_delay x.
Proof. intros Hi H1. split; [done|]. left. unfold is_integer in Hi. by destruct (num_to_Z x). Qed.

(** A timer of a number is a whole delay the platform accepts. *)
Lemma timerDelayMs_range v n :
  timerDelayMs v = Ok n ->
  is_integer n = true /\ num_leb (num_of_Z 1) n = true /\ num_leb n MAX_TIMER_DELAY = true
  /\ (forall x, num_leb x (num_ceil (to_num v)) = true -> num_leb x n = true \/ n = MAX_TIMER_DELAY)
  /\ (num_leb n (num_of_Z 1) = true \/ num_leb n (num_ceil (to_num v)) = true).
Proof.
  unfold timerDelayMs. destruct v as [| | |d| | |]; try done. destruct (is_nan d) eqn:Hd; [done|].
  destruct (num_ceil_integer d Hd) as [Hc Hi]. intros E. apply Ok_inj in E. rewrite <- E. clear E n.
  assert (H1 : is_nan (num_of_Z 1) = false) by done. assert (HM : is_nan MAX_TIMER_DELAY = false) by done.
  destruct (num_max_spec _ _ H1 Hc) as (Em & H1m & Hcm).
  assert (Hm : is_nan (num_max (num_of_Z 1) (num_ceil d)) = false) by (destruct Em as [Em|Em]; rewrite Em; done).
  destruct (num_min_spec _ _ HM Hm) as (En & HnM & Hnm). cbn [to_num].
  revert En HnM Hnm. generalize (num_min MAX_TIMER_DELAY (num_max (num_of_Z 1) (num_ceil d))). intros n En HnM Hnm.
  assert (Hlow : num_leb (num_of_Z 1) n = true) by (destruct En as [En|En]; rewrite En; done).
  split; [|split; [done|split; [done|split]]].
  - apply whole_delay_timer; [|done]. split; [done|].
    destruct En as [En|En]; [rewrite En; by left|]. destruct Em as [Em|Em]; rewrite En, Em; [by left | done].
  - intros x Hx. destruct En as [En|En]; [by right|left]. rewrite En. eauto using num_leb_trans.
  - destruct Em as [Em|Em]; rewrite Em in Hnm; auto.
Qed.

(** ** Timers *)

Section Timers.
Context `{Host}.

(** The cap of the options, in milliseconds. *)
Definition max_ms (opts : obj) : num :=
  cap_option opts "maxMs" (num_mul DEFAULT_MAX_TIMEOUT_SECONDS (num_of_Z 1000)).

(** Whatever the load of the host, its CPU sample and the configured policy,
    an answered timeout is a whole number of milliseconds from 1 to the
    platform's timer limit; it never shrinks the nominal, the limit apart; and
    it passes the nominal only up to the caller's cap, when the cap is whole. *)
Theorem timeout_is_a_safe_timer base opts n :
  loadAwareTimeoutMs base opts = Ok n ->
  num_ceil (max_ms opts) = max_ms opts ->
  (is_integer n = true /\ num_leb (num_of_Z 1) n = true /\ num_leb n MAX_TIMER_DELAY = true)
  /\ (num_leb (num_ceil (to_num base)) n = true \/ n = MAX_TIMER_DELAY)
  /\ (num_leb n (num_of_Z 1) = true \/ num_leb n (num_ceil (to_num base)) = true \/ num_leb n (max_ms opts) = true).
Proof.
  unfold loadAwareTimeoutMs. fold (max_ms opts). intros (t & Ht & Hn)%rbind_Ok Hw.
  assert (Nt : is_nan t = false) by (cbn [timerDelayMs] in Hn; by destruct (is_nan t)).
  destruct (scaledTimeout_range _ _ _ _ Ht Nt) as (Hlo & Hup & Hwt). specialize (Hwt Hw).
  destruct (timerDelayMs_range _ _ Hn) as (Hi & H1 & HM & Hge & Hle). cbn [to_num] in Hge, Hle. rewrite Hwt in Hge, Hle.
  split; [done|]. split; [by apply Hge|].
  destruct Hle as [Hle|Hle]; [by left|]. right. destruct Hup; eauto using num_leb_trans.
Qed.

(** A progressing operation gets a whole timer of at least one millisecond
    that ends by its deadline, its ceiling and the platform's limit, and is
    refused as expired when less than a millisecond is left. *)
Theorem progressing_operation_is_bounded nominal deadline now ceiling opts n :
  progressingOperationTimeoutMs nominal (VNum deadline) (VNum now) (VNum ceiling) opts = Ok n ->
  valid_binary 53 1024 (num_sub deadline now) = true -> valid_binary 53 1024 ceiling = true ->
  num_leb (num_of_Z 1) (num_sub deadline now) = true
  /\ is_integer n = true /\ num_leb (num_of_Z 1) n = true
  /\ num_leb n (num_floor (num_sub deadline now)) = true /\ num_leb n (num_floor ceiling) = true
  /\ num_leb n MAX_TIMER_DELAY = true
  /\ exists e, loadAwareTimeoutMs nominal opts = Ok e /\ num_leb n e = true.
Proof.
  intros E Hv Hvc. revert E. unfold progressingOperationTimeoutMs.
  destruct (_ || _ || _ || _) eqn:Eg; [done|]. apply orb_false_elim in Eg as [Eg Hc1].
  apply orb_false_elim in Eg as [Eg Hcf]. apply orb_false_elim in Eg as [Hd Hnow].
  destruct (num_ltb (num_sub deadline now) (num_of_Z 1)) eqn:Er; [done|].
  destruct (loadAwareTimeoutMs nominal opts) as [e|] eqn:Ee; [|done]. cbn [rbind].
  intros E. apply Ok_inj in E. rewrite <- E. clear E n.
  assert (Nr : is_nan (num_sub deadline now) = false).
  { apply negb_false_iff in Hnow. destruct deadline as [[]|[]| |], now as [[]| | |]; try done; apply normalize_not_nan. }
  assert (Nc : is_nan ceiling = false) by (apply negb_false_iff in Hcf; by destruct ceiling).
  pose proof (num_nlt_le _ (num_of_Z 1) Nr eq_refl Er) as H1r. pose proof (num_nlt_le _ (num_of_Z 1) Nc eq_refl Hc1) as H1c.
  destruct (floor_at_least_one _ Hv H1r) as [Hfr Ifr]. destruct (floor_at_least_one _ Hvc H1c) as [Hfc Ifc].
  unfold loadAwareTimeoutMs in Ee. apply rbind_Ok in Ee as (t & _ & (Ie & H1e & HMe & _)%timerDelayMs_range).
  pose proof (integer_whole _ Ie H1e) as We. assert (WM : whole_delay MAX_TIMER_DELAY) by (by apply integer_whole).
  destruct (whole_min _ _ We (conj Hfr Ifr)) as (W1 & L1e & L1f).
  destruct (whole_min _ _ W1 (conj Hfc Ifc)) as (W2 & L2 & L2c).
  destruct (whole_min _ _ W2 WM) as (W3 & L3 & L3M).
  split; [done|]. split; [by apply whole_delay_timer|]. split; [apply W3|].
  split; [eauto using num_leb_trans|]. split; [eauto using num_leb_trans|]. split; [done|].
  exists e. split; [done|]. eauto using num_leb_trans.
Qed.
End Timers.

(** The patience multiplier is between one and the configured cap, for any
    reading of the load, and one on an idle host. *)
Theorem multiplier_is_clamped load cap :
  is_nan cap = false ->
  num_leb (num_of_Z 1) (loadAwareMultiplier load cap) = true
  /\ num_leb (loadAwareMultiplier load cap) (num_max MIN_MULTIPLIER cap) = true.
Proof.
  intros Hcap. unfold loadAwareMultiplier.
  assert (N0 : is_nan (num_of_Z 0) = false) by done. assert (N1 : is_nan MIN_MULTIPLIER = false) by done.
  assert (Nmax : forall x y, is_nan x = false -> is_nan y = false -> is_nan (num_max x y) = false).
  { intros x y Hx Hy. by destruct (num_max_spec x y Hx Hy) as ([E|E] & _); rewrite E. }
  assert (Nl : is_nan (num_or load (num_of_Z 0)) = false).
  { unfold num_or. destruct load as [| | |n| | |]; try done. by destruct n. }
  set (m := num_add _ _). assert (Nm : is_nan m = false).
  { apply num_add_not_nan, num_mul_not_nan, Nmax; [done|]. apply num_div_not_nan, num_sub_not_nan. auto. }
  destruct (num_max_spec _ _ N1 Hcap) as (_ & H1c & _). destruct (num_max_spec _ _ N1 Nm) as (_ & H1m & _).
  destruct (num_min_spec _ _ (Nmax _ _ N1 Hcap) (Nmax _ _ N1 Nm)) as ([E|E] & Hle & _); split; try done; by rewrite E.
Qed.

(** ** The sampler *)

Section SamplerFacts.
Context (cpuCount : num).

(** A call of the sampler: the clock before and after, and what the command answers. *)
Record Call := { c_before : num; c_after : num; c_out : option string }.
Definition step_sampler (st : Sampler) (c : Call) : Sampler :=
  (sample cpuCount (c_before c) (c_after c) (c_out c) st).2.
Definition sampler_after (cs : list Call) : Sampler := fold_left step_sampler cs new_sampler.

(** A good reading of the run: some command of it answered [v] at [t]. *)
Definition read_at (cs : list Call) (v t : num) : Prop :=
  exists c, c ∈ cs /\ parse_sample cpuCount (c_out c) = Some v /\ c_after c = t.

Definition sampler_inv (cs : list Call) (st : Sampler) : Prop :=
  (forall v, cached st = Some v -> read_at cs v (sampledAt st))
  /\ (forall v, lastGood st = Some v -> read_at cs v (lastGoodAt st)).

Lemma read_at_app cs c v t : read_at cs v t -> read_at (cs ++ [c]) v t.
Proof. intros (c' & Hc & H). exists c'. split; [apply elem_of_app; by left | done]. Qed.
Lemma read_at_last cs c v : parse_sample cpuCount (c_out c) = Some v -> read_at (cs ++ [c]) v (c_after c).
Proof. intros H. exists c. split; [apply elem_of_app; right; by apply list_elem_of_singleton | done]. Qed.

Lemma sampler_step cs c st : sampler_inv cs st -> sampler_inv (cs ++ [c]) (step_sampler st c).
Proof.
  intros [Hc Hg]. unfold step_sampler, sample.
  destruct (num_leb SAMPLE_INTERVAL_MS _); simpl.
  - destruct (parse_sample cpuCount (c_out c)) as [w|] eqn:E; simpl.
    + split; intros v [= <-]; by apply read_at_last.
    + split; [done|]. intros v Hv. by apply read_at_app, Hg.
  - destruct (cached st) as [w|] eqn:E; simpl.
    + split; intros v Hv; [apply read_at_app, Hc; simpl in *; congruence | by apply read_at_app, Hg].
    + split; intros v Hv; [simpl in Hv; congruence | by apply read_at_app, Hg].
Qed.

Lemma sampler_run cs : sampler_inv cs (sampler_after cs).
Proof.
  induction cs as [|c cs IH] using rev_ind; [done|].
  unfold sampler_after. rewrite fold_left_app. simpl. by apply sampler_step.
Qed.

Lemma parse_sample_percent out v :
  parse_sample cpuCount out = Some v -> num_leb (num_of_Z 0) v = true /\ num_leb v (num_of_Z 100) = true.
Proof.
  unfold parse_sample. destruct out as [out|]; [|done]. destruct (sum_lines _ _ _) as [[total []]|]; [|done..].
  destruct (is_finite (num_div total cpuCount)) eqn:E; [|done]. intros H. apply Some_inj in H. rewrite <- H. clear H v.
  assert (N : is_nan (num_div total cpuCount) = false) by (by destruct (num_div total cpuCount)).
  revert N. generalize (num_div total cpuCount). intros b N.
  assert (N0 : is_nan (num_of_Z 0) = false) by done. assert (N1 : is_nan (num_of_Z 100) = false) by done.
  destruct (num_min_spec _ _ N1 N) as ([Em|Em] & H1 & H2).
  - rewrite Em in *. split; by vm_compute.
  - rewrite Em in *. destruct (num_max_spec _ _ N0 N) as ([Ex|Ex] & H3 & H4); rewrite Ex in *; split; done.
Qed.

(** Over any run of calls, an answered percentage is between 0 and 100 and is
    the reading of a command of the run: read by this call, or cached and not
    older than the sampling interval, or the last good one and less than a
    minute old. *)
Theorem sampler_answers_fresh_readings cs c s st v :
  sample cpuCount (c_before c) (c_after c) (c_out c) (sampler_after cs) = (s, st) ->
  s_value s = Some v ->
  num_leb (num_of_Z 0) v = true /\ num_leb v (num_of_Z 100) = true
  /\ ((s_ran s = true /\ parse_sample cpuCount (c_out c) = Some v)
      \/ (exists t, read_at cs v t /\ s_ran s = false /\ num_leb SAMPLE_INTERVAL_MS (num_sub (c_before c) t) = false)
      \/ (exists t, read_at cs v t
            /\ num_ltb (num_sub (if s_ran s then c_after c else c_before c) t) LAST_GOOD_CPU_MAX_AGE_MS = true)).
Proof.
  destruct (sampler_run cs) as [Hc Hg]. unfold sample. generalize (sampler_after cs), Hc, Hg. clear Hc Hg. intros st0 Hc Hg E Hv.
  set (P := _ \/ _). enough (HP : P).
  { assert (Hp : exists o, parse_sample cpuCount o = Some v).
    { destruct HP as [[_ HP]|[(t & (c' & _ & HP & _) & _)|(t & (c' & _ & HP & _) & _)]]; eauto. }
    destruct Hp as [o Ho]. destruct (parse_sample_percent _ _ Ho). done. }
  unfold P. destruct (num_leb SAMPLE_INTERVAL_MS _) eqn:Er; simpl in E.
  - destruct (parse_sample cpuCount (c_out c)) as [w|] eqn:Ep; simpl in E.
    + injection E as <- _. simpl in *. left. split; congruence.
    + injection E as <- _. simpl in *. right; right. destruct (lastGood st0) as [w|] eqn:El; [|done].
      destruct (num_ltb _ _) eqn:Ef; [|done]. injection Hv as ->. eauto.
  - destruct (cached st0) as [w|] eqn:Ec.
    + injection E as <- _. simpl in *. injection Hv as ->. right; left. eauto.
    + injection E as <- _. simpl in *. right; right. destruct (lastGood st0) as [w|] eqn:El; [|done].
      destruct (num_ltb _ _) eqn:Ef; [|done]. injection Hv as ->. eauto.
Qed.
End SamplerFacts.

(** ** The wait of the queue (queue-wait.mjs), over the load of the host *)

Section QueueWaits.
Context `{Host} `{HostDate}.

(** [queueWaitMs(nominalMs, { ceilingMs, deadline, now, load })]: the checks of
    the ceiling and of the deadline come before the nominal is scaled. *)
Definition queueWait (nominalMs : val) (load : obj) (ceilingMs : Z) (deadline : option string) (now : string) : result Z :=
  let* _ := queueWaitMs 1 ceilingMs deadline now in
  let* t := loadAwareTimeoutMs nominalMs (map_set load "maxMs" (VInt ceilingMs)) in
  match num_to_Z t with
  | Some scaled => queueWaitMs scaled ceilingMs deadline now
  | None => Throw (PlainError "not a whole delay")
  end.

Lemma timer_to_Z n : is_integer n = true -> num_leb (num_of_Z 1) n = true -> exists z, num_to_Z n = Some z /\ (1 <= z)%Z.
Proof.
  intros Hi H1. unfold is_integer in Hi. destruct (num_to_Z n) as [z|] eqn:E; [|done]. exists z. split; [done|].
  destruct (num_leb_not_nan _ _ H1) as [_ N]. pose proof (num_to_Z_pos n z E) as Hp.
  rewrite num_ltb_leb in Hp by done. destruct (num_leb n (S754_zero false)) eqn:E0; simpl in Hp; [|lia].
  by pose proof (num_leb_trans _ _ _ H1 E0).
Qed.

(** C30. A wait of the queue is the nominal scaled by the load to a whole positive
    delay, cut to the ceiling and to what is left of the deadline: an expired
    deadline waits nothing, never a fresh timer. It fails only for an invalid
    ceiling or deadline, or a nominal that is not positive. *)
Theorem queue_wait_is_bounded nominal load ceiling dl now :
  match queueWait nominal load ceiling dl now with
  | Ok ms =>
      (0 <= ms <= ceiling)%Z
      /\ (exists t scaled, loadAwareTimeoutMs nominal (map_set load "maxMs" (VInt ceiling)) = Ok t
            /\ num_to_Z t = Some scaled /\ (1 <= scaled)%Z /\ (ms <= scaled)%Z
            /\ (dl = None -> ms = Z.min ceiling (Z.min MAX_TIMER_DELAY_MS scaled)))
      /\ (forall d due at_, dl = Some d -> date_parse d = Some due -> date_parse now = Some at_ ->
            (ms <= Z.max 0 (due - at_))%Z)
  | Throw e =>
      queueWaitMs 1 ceiling dl now = Throw e
      \/ loadAwareTimeoutMs nominal (map_set load "maxMs" (VInt ceiling)) = Throw e
  end.
Proof.
  unfold queueWait. destruct (queueWaitMs 1 ceiling dl now) as [one|] eqn:E1; [|by left]. cbn [rbind].
  destruct (loadAwareTimeoutMs _ _) as [t|] eqn:Et; [|by right]. cbn [rbind].
  pose proof Et as Er. unfold loadAwareTimeoutMs in Er.
  apply rbind_Ok in Er as (t0 & _ & (Hi & H1 & _)%timerDelayMs_range).
  destruct (timer_to_Z t Hi H1) as (z & Hz & Hz1). rewrite Hz.
  unfold queueWaitMs in *. destruct (ceiling <=? 0)%Z eqn:Ec; [done|].
  destruct dl as [d|]; [destruct (date_parse d) as [due|] eqn:Ed; [|done];
                        destruct (date_parse now) as [at_|] eqn:En; [|done]|].
  all: split; [unfold MAX_TIMER_DELAY_MS; lia|].
  all: split; [exists t, z; repeat split; try done; unfold MAX_TIMER_DELAY_MS; try lia|].
  all: intros; simplify_eq; lia.
Qed.
End QueueWaits.

(** ** Runs on concrete hosts *)

(** Four cores at a load of ten, twenty percent busy. *)
#[local] Instance busy_host : Host := {|
  host_policy := [("enabled", VBool true); ("maxMultiplier", VInt 6)];
  host_loadavg := num_of_Z 10; host_cpu_count := num_of_Z 4; host_cpu_busy := VInt 85 |}.

Example scaled_run :
  (loadAwareTimeoutMs (VInt 2000) [], loadAwareTimeoutSeconds (VInt 300) [("maxSeconds", VInt 600)])
  = (Ok (num_of_Z 9500), Ok (num_of_Z 600)).
Proof. vm_compute. reflexivity. Qed.

Lemma timeout_is_a_safe_timer_witness :
  loadAwareTimeoutMs (VInt 2000) [("maxMs", VInt 5000)] = Ok (num_of_Z 5000)
  /\ num_leb (num_of_Z 5000) MAX_TIMER_DELAY = true.
Proof.
  split; [vm_compute; reflexivity|].
  apply (timeout_is_a_safe_timer (VInt 2000) [("maxMs", VInt 5000)] (num_of_Z 5000)); vm_compute; reflexivity.
Defined.

Lemma progressing_operation_is_bounded_witness :
  progressingOperationTimeoutMs (VInt 2000) (VInt 7000) (VInt 1000) (VInt 60000) [] = Ok (num_of_Z 6000)
  /\ num_leb (num_of_Z 6000) MAX_TIMER_DELAY = true.
Proof.
  split; [vm_compute; reflexivity|].
  apply (progressing_operation_is_bounded (VInt 2000) (num_of_Z 7000) (num_of_Z 1000) (num_of_Z 60000) []);
    vm_compute; reflexivity.
Defined.

Lemma multiplier_is_clamped_witness :
  loadAwareMultiplier (VInt 9) (num_of_Z 6) = num_of_Z 6
  /\ num_leb (loadAwareMultiplier (VInt 9) (num_of_Z 6)) (num_max MIN_MULTIPLIER (num_of_Z 6)) = true.
Proof. split; [vm_compute; reflexivity | apply (multiplier_is_clamped (VInt 9) (num_of_Z 6)); vm_compute; reflexivity]. Defined.

(** A reading at time 10, a failed command at 20010: the old reading serves. *)
Definition first_call : Call :=
  {| c_before := num_of_Z 0; c_after := num_of_Z 10; c_out := Some (" 12,5" +:+ String (ascii_of_N 10) "87.5") |}.
Definition failed_call : Call := {| c_before := num_of_Z 20000; c_after := num_of_Z 20010; c_out := None |}.
Definition late_call : Call := {| c_before := num_of_Z 70000; c_after := num_of_Z 70010; c_out := None |}.

Example stale_readings_expire :
  map (fun c => s_value (sample (num_of_Z 4) (c_before c) (c_after c) (c_out c) (sampler_after (num_of_Z 4) [first_call])).1)
    [failed_call; late_call] = [Some (num_of_Z 25); None].
Proof. vm_compute. reflexivity. Qed.

Lemma sampler_answers_fresh_readings_witness :
  exists s st, sample (num_of_Z 4) (num_of_Z 20000) (num_of_Z 20010) None (sampler_after (num_of_Z 4) [first_call]) = (s, st)
    /\ s_value s = Some (num_of_Z 25) /\ num_leb (num_of_Z 25) (num_of_Z 100) = true.
Proof.
  eexists _, _. split; [vm_compute; reflexivity|]. split; [vm_compute; reflexivity|].
  eapply (sampler_answers_fresh_readings (num_of_Z 4) [first_call] failed_call); [vm_compute; reflexivity | vm_compute; reflexivity].
Defined.
#[local] Instance no_other_dates : HostDate := {| host_date_parse := fun _ => None |}.

(** Two seconds nominal under load, with a second and a half left. *)
Lemma queue_wait_is_bounded_witness :
  queueWait (VInt 2000) [] 60000 (Some "2026-01-01T00:00:01.500Z") "2026-01-01T00:00:00.000Z" = Ok 1500%Z
  /\ queueWait (VInt 2000) [] 60000 None "2026-01-01T00:00:00.000Z" = Ok 9500%Z
  /\ (0 <= 9500 <= 60000)%Z.
Proof.
  split; [vm_compute; reflexivity|]. split; [vm_compute; reflexivity|].
  pose proof (queue_wait_is_bounded (VInt 2000) [] 60000 None "2026-01-01T00:00:00.000Z") as H.
  assert (E : queueWait (VInt 2000) [] 60000 None "2026-01-01T00:00:00.000Z" = Ok 9500%Z) by (vm_compute; reflexivity).
  rewrite E in H. exact (proj1 H).
Defined.
