(* ===== verification/QueueHandoff.v ===== *)
(** * Queue handoffs (queue-handoff.mjs, queue-clean-review.mjs)

    The canonical JSON the digests are taken of, the validation of a closer's
    handoff and of a direct clean review against the evidence a trusted adapter
    read.
    SHA-256 is a class: nothing below depends on more than its being a function. *)

From Stdlib Require Import ZArith Lia Ascii SpecFloat.
From stdpp Require Import base list strings sorting.
From S2P Require Import Prelude JsNum JsValue JsDate JsText JsRegExp FindingLines QueueLane QueueStore OperatorEvidence QueueAdmission.

(** ** Canonical JSON *)

(** The order of UTF-16 code units on UTF-8 text: that of the bytes, but a
    four-byte sequence, whose units are surrogates, comes before the characters
    above the surrogates. *)
Definition byte_rank (a : ascii) : N :=
  let b := N_of_ascii a in
  if (b =? 238)%N then 243%N else if (b =? 239)%N then 244%N
  else if (240 <=? b)%N && (b <=? 244)%N then (b - 2)%N else b.
Fixpoint key_le (s t : string) : bool :=
  match s, t with
  | EmptyString, _ => true
  | String _ _, EmptyString => false
  | String a s, String b t =>
      if (byte_rank a =? byte_rank b)%N then key_le s t else (byte_rank a <? byte_rank b)%N
  end.
Definition field_before {A} (x y : string * A) : Prop := key_le (fst x) (fst y) = true.
#[export] Instance field_before_dec {A} (x y : string * A) : Decision (field_before x y).
Proof. unfold field_before. apply _. Defined.
(** [Object.keys(o).sort()], with the values. *)
Definition sort_fields {A} (o : list (string * A)) : list (string * A) := merge_sort field_before o.

Definition not_json : jserror := TypeError "handoff requires JSON data".
Definition json_member (f : string * string) : string := json_quote (fst f) +:+ ":" +:+ snd f.

Fixpoint handoffJson (v : val) : result string :=
  match v with
  | VNull => Ok "null"
  | VBool b => Ok (if b then "true" else "false")
  | VStr s => Ok (json_quote s)
  | VNum n => if is_finite n then Ok (num_to_string n) else Throw not_json
  | VArr l =>
      let* ts := (fix go (l : list val) : result (list string) :=
                    match l with
                    | [] => Ok []
                    | w :: l' => let* t := handoffJson w in let* ts := go l' in Ok (t :: ts)
                    end) l in
      Ok ("[" +:+ join "," ts +:+ "]")
  | VObj o =>
      let* fs := (fix go (o : list (string * val)) : result (list (string * string)) :=
                    match o with
                    | [] => Ok []
                    | (k, w) :: o' => let* t := handoffJson w in let* fs := go o' in Ok ((k, t) :: fs)
                    end) o in
      Ok ("{" +:+ join "," (map json_member (sort_fields fs)) +:+ "}")
  | VUndef => Throw not_json
  end.

(** [JSON.parse(handoffJson(v))] for a value that has canonical JSON. *)
Fixpoint canon (v : val) : val :=
  match v with
  | VNum n => json_num n
  | VArr l => VArr (map canon l)
  | VObj o =>
      VObj (sort_fields ((fix go (o : list (string * val)) : list (string * val) :=
              match o with [] => [] | (k, w) :: o' => (k, canon w) :: go o' end) o))
  | _ => v
  end.
Definition json_copy (v : val) : result val := let* _ := handoffJson v in Ok (canon v).

Class Sha256 := { sha256_hex : string -> string }.
Definition handoffDigest `{Sha256} (v : val) : result string := let* t := handoffJson v in Ok (sha256_hex t).

(** ** Normalization *)

Definition handoff_error (reason : string) : jserror := PlainError ("handoff: " +:+ reason).
(** [/^[a-f0-9]{40}$/i.test(v)]: the value is converted to a string. *)
Definition sha_test (v : val) : bool :=
  let s := to_str v in Nat.eqb (String.length s) 40 && all_chars hex_char s.
(** [Number.isSafeInteger(v) && v > 0]. *)
Definition safe_positive (v : val) : bool := match positive_int v with Some _ => true | None => false end.

Definition valid_launch (identity : val) : bool :=
  truthy identity && every_b (fun k => text (oget identity k)) ["workerId"; "workerClass"; "launchRequestId"].

(** The facts of a normalized handoff, in the order they are required. *)
Definition handoff_facts (h : val) : list (bool * string) :=
  [(safe_positive (oget h "prNumber") && safe_positive (oget h "admissionGeneration") && sha_test (oget h "head"),
    "invalid admission");
   (valid_launch (oget h "worker"), "invalid identity");
   (valid_launch (oget h "closer"), "invalid identity");
   (text (oget (oget h "sourceReview") "id") && sha_test (oget (oget h "sourceReview") "commitId"),
    "invalid source review");
   (text (oget (oget h "attestations") "produced") && text (oget (oget h "attestations") "reviewed"),
    "missing attestation references");
   (text (oget (oget h "primaryChange") "intent") && text (oget (oget h "primaryChange") "sourceRef"),
    "missing primary-change provenance");
   (strict_eq (oget (oget h "localValidation") "head") (oget h "head")
      && text (oget (oget h "localValidation") "sourceRef"), "missing local validation");
   (strict_eq (oget (oget h "publication") "head") (oget h "head") && text (oget (oget h "publication") "sourceRef"),
    "missing publication");
   (is_array (oget h "dispositions"), "missing finding dispositions")].

Fixpoint require_facts (fs : list (bool * string)) : result unit :=
  match fs with
  | [] => Ok tt
  | (b, reason) :: fs => guard b else handoff_error reason in require_facts fs
  end.

Definition normalizeQueueHandoff (input : val) : result val :=
  let* h := json_copy input in
  guard strict_eq (oget h "schemaVersion") (VInt 1) else handoff_error "unsupported schema" in
  match h with
  | VObj o =>
      let* l := resolveLaneKey (get o "lane") in
      let h := VObj (map_set o "lane" (lane_val l)) in
      let* _ := queueId (oget h "handoffId") in
      let* _ := require_facts (handoff_facts h) in
      Ok h
  | _ => Throw (handoff_error "unsupported schema")
  end.

(** ** Validation *)

Definition reviewCurrencyCovers (currency reviewedHead currentHead : val) : bool :=
  is_true (oget currency "current") && strict_eq (oget currency "reviewedHead") reviewedHead
  && strict_eq (oget currency "currentHead") currentHead.

Definition CURRENCY_PROOFS : list string :=
  ["exact-head"; "ancestry"; "closer-rebase-provenance"; "reviewed-rebase-patch-id"].
(** [current(currency, head)]. *)
Definition current_at (h currency head : val) : bool :=
  reviewCurrencyCovers currency head (oget h "head") && val_in (oget currency "proof") CURRENCY_PROOFS
  && (negb (is_str (oget currency "proof") "exact-head") || strict_eq head (oget h "head"))
  && text (oget currency "sourceRef").

(** A non-empty fenced block; a back reference asks for the same fence. *)
Definition EVIDENCE_FENCE : regex :=
  {| pattern := seqs [Bol; blanks; Grp 1 (Alt (Rep 3 None true (chr 96)) (Rep 3 None true (chr 126)));
                      star (Cls true [CRange 10 10]); chr 10; Grp 2 (lazy_star (Cls true []));
                      Bol; blanks; Back 1; blanks; Eol];
     icase := false; multiline := true |}.
Definition hasConcreteExactHeadEvidence (evidence : val) : bool :=
  existsb (fun m => nonblank (ttrim (group_or_empty m 2)))
    (matchAll EVIDENCE_FENCE (utf16 (to_str (coalesce evidence (VStr ""))))).

Definition attestation_fact (h e : val) (kind : string) (head : val) : bool :=
  let a := oget (oget e "attestations") kind in
  let r := oget a "record" in
  is_true (oget a "valid") && strict_eq (oget a "ref") (oget (oget h "attestations") kind) && text (oget a "sourceRef")
  && strict_eq (oget r "repo") (oget (oget h "lane") "repository")
  && strict_eq (oget r "pr_number") (oget h "prNumber") && is_str (oget r "kind") kind
  && strict_eq (oget r "head_sha") head && text (oget (oget r "signature") "algorithm")
  && text (oget (oget r "signature") "digest") && text (oget (oget r "signature") "subject")
  && text (oget r "producer_identity").

Definition exact_fact (h e : val) (kind : string) : bool :=
  is_true (oget (oget e kind) "ok") && strict_eq (oget (oget e kind) "head") (oget h "head")
  && strict_eq (oget (oget e kind) "sourceRef") (oget (oget h kind) "sourceRef").

(** The facts before the findings, in the order they are required. *)
Definition evidence_facts (h e : val) : list (bool * string) :=
  let review := oget e "review" in
  let source := oget h "sourceReview" in
  let subject := oget e "subject" in
  let produced := oget (oget (oget e "attestations") "produced") "record" in
  let reviewed := oget (oget (oget e "attestations") "reviewed") "record" in
  [(truthy e && is_str (oget subject "state") "open" && deep_eq (oget subject "lane") (oget h "lane")
      && strict_eq (oget subject "prNumber") (oget h "prNumber") && strict_eq (oget subject "head") (oget h "head")
      && text (oget subject "sourceRef"), "subject currency");
   (is_true (oget review "complete") && strict_eq (oget review "id") (oget source "id")
      && strict_eq (oget review "commitId") (oget source "commitId") && text (oget review "reviewerIdentity")
      && text (oget review "sourceRef"), "source review currency");
   (current_at h (oget e "currency") (oget source "commitId"), "stale review commit");
   (is_true (oget (oget e "identities") "ok") && text (oget (oget e "identities") "sourceRef")
      && deep_eq (oget (oget e "identities") "worker") (oget h "worker")
      && deep_eq (oget (oget e "identities") "closer") (oget h "closer"), "unverified identity");
   (attestation_fact h e "produced" (oget h "head"), "invalid produced attestation");
   (strict_eq (oget (oget produced "payload") "launch_request_id") (oget (oget h "closer") "launchRequestId")
      && strict_eq (oget (oget produced "payload") "worker_class") (oget (oget h "closer") "workerClass"),
    "produced identity mismatch");
   (attestation_fact h e "reviewed" (oget source "commitId"), "invalid reviewed attestation");
   (strict_eq (oget reviewed "producer_identity") (oget review "reviewerIdentity"), "reviewed identity mismatch");
   (is_true (oget (oget e "primaryChange") "ok")
      && strict_eq (oget (oget e "primaryChange") "head") (oget h "head")
      && strict_eq (oget (oget e "primaryChange") "sourceRef") (oget (oget h "primaryChange") "sourceRef")
      && strict_eq (oget (oget e "primaryChange") "intent") (oget (oget h "primaryChange") "intent"),
    "primary-change provenance");
   (exact_fact h e "localValidation", "failed localValidation");
   (exact_fact h e "publication", "failed publication");
   (is_array (oget review "findings"), "unknown finding inventory")].

Definition findingKey (f : val) : result string :=
  let* reviewId := member f "reviewId" in
  let* commit := member f "reviewCommitId" in
  let* id := member f "findingId" in
  handoffJson (VArr [reviewId; commit; id]).

(** The inventory, keyed by finding. *)
Definition finding_fact (h f : val) : bool :=
  text (oget f "findingId") && text (oget f "reviewId") && sha_test (oget f "reviewCommitId")
  && val_in (oget f "severity") ["blocking"; "non-blocking"] && text (oget f "sourceRef")
  && current_at h (oget f "currency") (oget f "reviewCommitId").
Fixpoint take_inventory (h : val) (fs : list val) (inventory : list (string * val)) : result (list (string * val)) :=
  match fs with
  | [] => Ok inventory
  | f :: fs =>
      let* _ := member f "findingId" in
      guard finding_fact h f else handoff_error "invalid finding inventory" in
      let* key := findingKey f in
      guard negb (str_in key (map fst inventory)) else handoff_error "duplicate source finding" in
      take_inventory h fs (inventory ++ [(key, f)])
  end.

(** Every element satisfies a check that may throw; it stops at the first that does not. *)
Fixpoint every_r {A} (p : A -> result bool) (l : list A) : result bool :=
  match l with
  | [] => Ok true
  | x :: l => let* b := p x in if b then every_r p l else Ok false
  end.
Definition location_fact (location : val) : result bool :=
  let* path := member location "path" in
  Ok (text path && safe_positive (oget location "line")).

Definition disposition_facts (h d : val) : result unit :=
  guard strict_eq (oget d "head") (oget h "head") && text (oget d "sourceRef")
        && hasConcreteExactHeadEvidence (oget d "evidence")
  else handoff_error "missing exact-head finding evidence" in
  guard val_in (oget d "resolution") ["fixed"; "withdrawn"] else handoff_error "unsupported finding disposition" in
  if is_str (oget d "resolution") "fixed" then
    guard match oget d "paths" with VArr (p :: ps) => every_b text (p :: ps) | _ => false end
    else handoff_error "fix paths missing" in Ok tt
  else
    let* located := (match oget d "sourceLocations" with
                     | VArr (l :: ls) => if text (oget d "explanation") then every_r location_fact (l :: ls) else Ok false
                     | _ => Ok false
                     end) in
    guard located else handoff_error "unsupported withdrawal" in Ok tt.

Fixpoint check_dispositions (h : val) (ds : list val) (inventory : list (string * val)) (seen : list string)
  : result (list string) :=
  match ds with
  | [] => Ok seen
  | d :: ds =>
      let* key := findingKey d in
      match map_get inventory key with
      | Some f =>
          guard negb (str_in key seen) && strict_eq (oget d "severity") (oget f "severity")
          else handoff_error "foreign or duplicate finding disposition" in
          let* _ := disposition_facts h d in
          check_dispositions h ds inventory (seen ++ [key])
      | None => Throw (handoff_error "foreign or duplicate finding disposition")
      end
  end.

Definition validateQueueHandoff (h e : val) : result unit :=
  let* _ := require_facts (evidence_facts h e) in
  let* inventory := take_inventory h (array_or_empty (oget (oget e "review") "findings")) [] in
  let* seen := check_dispositions h (array_or_empty (oget h "dispositions")) inventory [] in
  guard Nat.eqb (length seen) (length inventory) else handoff_error "incomplete finding coverage" in Ok tt.

(** ** Direct clean reviews *)

Definition fields_of (v : val) : obj := match v with VObj o => o | _ => [] end.
Definition without (ks : list string) (o : obj) : obj := filter_b (fun kv => negb (str_in (fst kv) ks)) o.

Definition normalizeCleanReview (input : val) : result val :=
  guard strict_eq (oget input "closer") VUndef && strict_eq (oget input "dispositions") VUndef
  else PlainError "clean review cannot carry closer adjudication" in
  let* h := normalizeQueueHandoff
    (VObj (spread (fields_of input) [("closer", oget input "worker"); ("dispositions", VArr [])])) in
  guard strict_eq (oget (oget h "sourceReview") "commitId") (oget h "head")
  else PlainError "clean review requires exact head" in
  Ok (VObj (without ["closer"; "dispositions"] (fields_of h))).

(** [v?.length === 0]. *)
Definition no_length (v : val) : bool :=
  match v with
  | VArr l => Nat.eqb (length l) 0
  | VStr s => String.eqb s ""
  | VObj o => strict_eq (get o "length") (VInt 0)
  | _ => false
  end.
Definition validateCleanReview (input e : val) : result unit :=
  let* h := normalizeCleanReview input in
  guard is_str (oget (oget e "review") "verdict") "settled-success" && no_length (oget (oget e "review") "findings")
        && is_str (oget (oget e "currency") "proof") "exact-head"
  else PlainError "clean review is not current and zero-finding" in
  let ids := oget e "identities" in
  validateQueueHandoff
    (VObj (spread (fields_of h) [("closer", oget h "worker"); ("dispositions", VArr [])]))
    (VObj (spread (fields_of e) [("identities", VObj (spread (fields_of ids) [("closer", oget ids "worker")]))])).

(** ** The order of keys *)

Lemma byte_rank_inj a b : byte_rank a = byte_rank b -> a = b.
Proof.
  intros H. rewrite <- (ascii_N_embedding a), <- (ascii_N_embedding b). f_equal. revert H. unfold byte_rank.
  pose proof (N_ascii_bounded a). pose proof (N_ascii_bounded b).
  generalize dependent (N_of_ascii a). generalize dependent (N_of_ascii b). intros y Hy x Hx.
  destruct (N.eqb_spec x 238), (N.eqb_spec x 239), (N.eqb_spec y 238), (N.eqb_spec y 239),
    (N.leb_spec 240 x), (N.leb_spec x 244), (N.leb_spec 240 y), (N.leb_spec y 244); cbn [andb]; lia.
Qed.

Lemma key_le_total s t : key_le s t = true \/ key_le t s = true.
Proof.
  revert t. induction s as [|a s IH]; intros [|b t]; simpl; auto.
  rewrite (N.eqb_sym (byte_rank b)). destruct (N.eqb_spec (byte_rank a) (byte_rank b)); [apply IH|].
  rewrite !N.ltb_lt. lia.
Qed.
Lemma key_le_trans s t u : key_le s t = true -> key_le t u = true -> key_le s u = true.
Proof.
  revert t u. induction s as [|a s IH]; intros [|b t] [|c u]; simpl; try done.
  destruct (N.eqb_spec (byte_rank a) (byte_rank b)) as [->|Hab].
  - destruct (byte_rank b =? byte_rank c)%N; [apply IH | done].
  - destruct (N.eqb_spec (byte_rank b) (byte_rank c)) as [<-|Hbc].
    + apply N.eqb_neq in Hab. by rewrite Hab.
    + rewrite !N.ltb_lt. intros. destruct (N.eqb_spec (byte_rank a) (byte_rank c)); [lia|]. apply N.ltb_lt. lia.
Qed.
Lemma key_le_antisym s t : key_le s t = true -> key_le t s = true -> s = t.
Proof.
  revert t. induction s as [|a s IH]; intros [|b t]; simpl; try done.
  rewrite (N.eqb_sym (byte_rank b)). destruct (N.eqb_spec (byte_rank a) (byte_rank b)) as [E|].
  - apply byte_rank_inj in E as ->. intros. f_equal. auto.
  - rewrite !N.ltb_lt. lia.
Qed.

#[export] Instance field_before_total {A} : Total (field_before (A := A)).
Proof. intros x y. apply key_le_total. Qed.
#[export] Instance field_before_trans {A} : Transitive (field_before (A := A)).
Proof. intros x y z. apply key_le_trans. Qed.

(** Lists of fields with distinct keys are equal once sorted, if they are permutations. *)
Lemma key_determines {A} (l : list (string * A)) x y :
  NoDup (map fst l) -> In x l -> In y l -> fst x = fst y -> x = y.
Proof.
  induction l as [|z l IH]; simpl; [done|]. intros [Hz Hl]%NoDup_cons [->|Hx] [->|Hy] E; [done| | |by apply IH].
  - destruct Hz. rewrite E. by apply list_elem_of_In, in_map.
  - destruct Hz. rewrite <- E. by apply list_elem_of_In, in_map.
Qed.

Lemma sort_fields_perm {A} (l m : list (string * A)) :
  NoDup (map fst l) -> l ≡ₚ m -> sort_fields l = sort_fields m.
Proof.
  intros Hl Hp. unfold sort_fields. apply (StronglySorted_unique_strong field_before).
  - intros x y Hx Hy H1 H2. apply (key_determines l); [done | | |by apply key_le_antisym].
    + apply list_elem_of_In. by rewrite <- (merge_sort_Permutation field_before l).
    + apply list_elem_of_In. rewrite Hp. by rewrite <- (merge_sort_Permutation field_before m).
  - by apply StronglySorted_merge_sort; try apply _.
  - by apply StronglySorted_merge_sort; try apply _.
  - by rewrite !merge_sort_Permutation.
Qed.

(** ** Canonical JSON depends on the value only *)

Definition json_field (kv : string * val) : result (string * string) :=
  let* t := handoffJson (snd kv) in Ok (fst kv, t).
Lemma json_texts_rmapM l :
  (fix go (l : list val) : result (list string) :=
     match l with
     | [] => Ok []
     | w :: l' => let* t := handoffJson w in let* ts := go l' in Ok (t :: ts)
     end) l = rmapM handoffJson l.
Proof. induction l as [|w l IH]; [done|]. cbn [rmapM]. by rewrite <- IH. Qed.
Lemma handoffJson_arr l :
  handoffJson (VArr l) = let* ts := rmapM handoffJson l in Ok ("[" +:+ join "," ts +:+ "]").
Proof. simpl. by rewrite json_texts_rmapM. Qed.
Lemma json_fields_rmapM o :
  (fix go (o : list (string * val)) : result (list (string * string)) :=
     match o with
     | [] => Ok []
     | (k, w) :: o' => let* t := handoffJson w in let* fs := go o' in Ok ((k, t) :: fs)
     end) o = rmapM json_field o.
Proof.
  induction o as [|[k w] o IH]; [done|]. cbn [rmapM]. rewrite <- IH. unfold json_field. simpl.
  by destruct (handoffJson w).
Qed.
Lemma handoffJson_obj o :
  handoffJson (VObj o)
  = let* fs := rmapM json_field o in Ok ("{" +:+ join "," (map json_member (sort_fields fs)) +:+ "}").
Proof. simpl. by rewrite json_fields_rmapM. Qed.

(** Values whose objects have distinct keys, as those of the language do. *)
Fixpoint distinct_keys (v : val) : Prop :=
  match v with
  | VArr l => (fix go l := match l with [] => True | w :: l' => distinct_keys w /\ go l' end) l
  | VObj o =>
      NoDup (map fst o)
      /\ (fix go (o : list (string * val)) := match o with [] => True | (_, w) :: o' => distinct_keys w /\ go o' end) o
  | _ => True
  end.

Lemma distinct_arr l : distinct_keys (VArr l) <-> Forall distinct_keys l.
Proof. simpl. induction l as [|w l IH]; [by split|]. rewrite Forall_cons, <- IH. done. Qed.
Lemma distinct_obj o : distinct_keys (VObj o) <-> NoDup (map fst o) /\ Forall (fun kv => distinct_keys (snd kv)) o.
Proof.
  simpl. apply and_iff_compat_l. induction o as [|[k w] o IH]; [by split|]. rewrite Forall_cons, <- IH. done.
Qed.

Lemma rmapM_all {A B} (f : A -> result B) e l :
  (forall x e', f x = Throw e' -> e' = e) ->
  (exists ys, rmapM f l = Ok ys /\ Forall2 (fun x y => f x = Ok y) l ys)
  \/ (rmapM f l = Throw e /\ exists x, In x l /\ f x = Throw e).
Proof.
  intros He. induction l as [|x l IH]; [left; by exists []|]. cbn [rmapM].
  destruct (f x) as [y|e'] eqn:Ex; [|apply He in Ex as Ee; subst e'; right; split; [done | exists x; split; [by left | done]]].
  destruct IH as [(ys & -> & H)|(-> & z & Hz & Hf)]; [left | right].
  - exists (y :: ys). split; [done | by constructor].
  - split; [done|]. exists z. split; [by right | done].
Qed.

Lemma handoffJson_error v e : handoffJson v = Throw e -> e = not_json.
Proof.
  revert e. induction v as [| |b|n|s|l IH|o IH] using val_nested_ind; intros e H.
  - by injection H.
  - done.
  - done.
  - simpl in H. destruct (is_finite n); [done | by injection H].
  - done.
  - rewrite handoffJson_arr in H. induction IH as [|w l Hw _ IHl]; [done|]. cbn [rmapM] in H.
    destruct (handoffJson w) eqn:E; cbn [rbind] in H; [|injection H as <-; eauto].
    apply IHl. destruct (rmapM handoffJson l); [done | exact H].
  - rewrite handoffJson_obj in H. induction IH as [|[k w] o Hw _ IHo]; [done|]. cbn [rmapM] in H.
    unfold json_field at 1 in H. simpl in Hw, H. destruct (handoffJson w) eqn:E; cbn [rbind] in H; [|injection H as <-; eauto].
    apply IHo. destruct (rmapM json_field o); [done | exact H].
Qed.
Lemma json_field_error kv e : json_field kv = Throw e -> e = not_json.
Proof. unfold json_field. destruct (handoffJson (snd kv)) eqn:E; [done|]. intros [= <-]. by eapply handoffJson_error. Qed.

Lemma rmapM_Ok_In {A B} (f : A -> result B) l ys x : rmapM f l = Ok ys -> In x l -> exists y, f x = Ok y.
Proof.
  revert ys. induction l as [|z l IH]; intros ys H; [done|]. cbn [rmapM] in H.
  apply rbind_Ok in H as (y & Hy & H). apply rbind_Ok in H as (ys' & Hys & _). intros [->|Hx]; eauto.
Qed.

Lemma rmapM_perm {A B} (f : A -> result B) e l m :
  (forall x e', f x = Throw e' -> e' = e) -> l ≡ₚ m ->
  (exists ys zs, rmapM f l = Ok ys /\ rmapM f m = Ok zs /\ ys ≡ₚ zs) \/ (rmapM f l = Throw e /\ rmapM f m = Throw e).
Proof.
  intros He Hp. destruct (rmapM_all f e l He) as [(ys & El & Hl)|(El & x & Hx & Hf)];
    destruct (rmapM_all f e m He) as [(zs & Em & Hm)|(Em & z & Hz & Hg)].
  - left. exists ys, zs. split; [done|]. split; [done|]. clear El Em He.
    revert m zs Hp Hm. induction Hl as [|x y l ys Hxy Hl IH]; intros m zs Hp Hm.
    + apply Permutation_nil in Hp. subst m. by inversion Hm.
    + assert (Hin : x ∈ m) by (rewrite <- Hp; by left).
      apply list_elem_of_split in Hin as (m1 & m2 & ->).
      apply Forall2_app_inv_l in Hm as (z1 & z2' & H1 & H2 & ->). inversion H2 as [|? z2 ? z2s Hz H3]; subst.
      rewrite Hxy in Hz. injection Hz as <-. rewrite <- Permutation_middle in Hp.
      apply Permutation_cons_inv in Hp. rewrite <- Permutation_middle. apply perm_skip.
      by apply (IH (m1 ++ m2) (z1 ++ z2s)); [|apply Forall2_app].
  - exfalso. apply list_elem_of_In in Hz. rewrite <- Hp in Hz.
    apply list_elem_of_In in Hz. destruct (rmapM_Ok_In f l ys z El Hz) as (y & Hy). congruence.
  - exfalso. apply list_elem_of_In in Hx. rewrite Hp in Hx.
    apply list_elem_of_In in Hx. destruct (rmapM_Ok_In f m zs x Em Hx) as (y & Hy). congruence.
  - by right.
Qed.

Lemma rmapM_json_keys o fs : rmapM json_field o = Ok fs -> map fst fs = map fst o.
Proof.
  revert fs. induction o as [|[k v] o IH]; intros fs H; cbn [rmapM] in H; [by injection H as <-|].
  apply rbind_Ok in H as ([k' t] & Hf & H). apply rbind_Ok in H as (fs' & Hfs & [= <-]).
  unfold json_field in Hf. apply rbind_Ok in Hf as (t' & _ & [= <- _]). simpl. by rewrite (IH fs' Hfs).
Qed.

Lemma num_eqb_same x y : num_eqb x y = true -> x = y \/ (exists s t, x = S754_zero s /\ y = S754_zero t).
Proof.
  unfold num_eqb, SFeqb, SFcompare. destruct x as [s|[]| |[] m e], y as [t|[]| |[] m' e']; try done; try (by right; eauto); try (by left).
  all: destruct (Z.compare_spec e e') as [->|He|He]; try done; rewrite ?compare_cont_Eq;
    destruct (Pos.compare_spec m m') as [->|Hm|Hm]; simpl; try done; by left.
Qed.
Lemma same_value_eq x y : same_value x y = true -> x = y.
Proof.
  unfold same_value. destruct x as [s|s| |s m e] eqn:Ex, y as [t|t| |t m' e'] eqn:Ey; try done;
    try (intros H; apply eqb_prop in H; by subst);
    intros H; destruct (num_eqb_same _ _ H) as [?|(? & ? & ? & ?)]; congruence.
Qed.

Lemma deep_eq_arr l m : deep_eq (VArr l) (VArr m) = true <-> Forall2 (fun x y => deep_eq x y = true) l m.
Proof.
  simpl. revert m. induction l as [|x l IH]; intros [|y m]; try (split; [done | by inversion 1]).
  rewrite andb_true_iff, IH, Forall2_cons. done.
Qed.
Lemma deep_eq_obj o p :
  deep_eq (VObj o) (VObj p) = true <->
  length o = length p /\ Forall (fun kv => exists w, map_get p (fst kv) = Some w /\ deep_eq (snd kv) w = true) o.
Proof.
  simpl. rewrite andb_true_iff, Nat.eqb_eq. apply and_iff_compat_l.
  induction o as [|[k v] o IH]; [by split|]. rewrite andb_true_iff, IH, Forall_cons. apply and_iff_compat_r. simpl.
  destruct (map_get p k) as [w|]; split; [eauto | by intros (? & [= ->] & ?) | done | by intros (? & [=] & _)].
Qed.

Lemma map_get_In {A} (m : jsmap A) k v : map_get m k = Some v -> In (k, v) m.
Proof.
  induction m as [|[k' w] m IH]; simpl; [done|]. destruct (String.eqb k k') eqn:E; [|auto].
  apply String.eqb_eq in E as ->. intros [= ->]. by left.
Qed.

(** The fields of [p] under the keys of [o], when those are its keys. *)
Lemma reordered o p :
  NoDup (map fst o) -> length o = length p ->
  Forall (fun kv : string * val => exists w : val, map_get p (fst kv) = Some w) o ->
  map (fun kv => (fst kv, default VUndef (map_get p (fst kv)))) o ≡ₚ p.
Proof.
  intros Ho Hl Hg. set (q := map _ o). assert (Hk : map fst q = map fst o) by (unfold q; by rewrite map_map).
  apply NoDup_Permutation_bis.
  - apply NoDup_ListNoDup. apply (NoDup_fmap_1 fst). change (NoDup (map fst q)). by rewrite Hk.
  - unfold q. rewrite length_map. lia.
  - intros x Hx. unfold q in Hx. apply in_map_iff in Hx as ([k v] & <- & Hin). rewrite Forall_forall in Hg.
    destruct (Hg (k, v)) as (w & Hw); [by apply list_elem_of_In|]. simpl in *. rewrite Hw. by apply map_get_In.
Qed.

Lemma same_json_fields o p :
  NoDup (map fst o) -> length o = length p ->
  Forall (fun kv => exists w, map_get p (fst kv) = Some w /\ handoffJson (snd kv) = handoffJson w) o ->
  handoffJson (VObj o) = handoffJson (VObj p).
Proof.
  intros Ho Hl Hf. rewrite !handoffJson_obj.
  assert (Hp : map (fun kv => (fst kv, default VUndef (map_get p (fst kv)))) o ≡ₚ p).
  { apply reordered; [done|done|]. eapply Forall_impl; [exact Hf|]. intros kv (w & Hw & _). eauto. }
  assert (Heq : rmapM json_field o = rmapM json_field (map (fun kv => (fst kv, default VUndef (map_get p (fst kv)))) o)).
  { clear Ho Hl Hp. induction Hf as [|[k v] o (w & Hw & Hj) _ IH]; [done|]. cbn [map rmapM]. rewrite <- IH. simpl in *.
    unfold json_field. simpl. by rewrite Hw, Hj. }
  rewrite Heq. destruct (rmapM_perm json_field not_json _ _ json_field_error Hp) as [(ys & zs & Ey & Ez & Hyz)|[-> ->]]; [|done].
  rewrite Ey, Ez. cbn [rbind]. rewrite (sort_fields_perm ys zs); [done| |done].
  rewrite (rmapM_json_keys _ _ Ey), map_map. exact Ho.
Qed.

(** C39. Deep-equal documents have one canonical JSON, so one digest: neither the
    order of the properties at any depth nor the transport can change it, and
    the arrays keep their order. *)
Theorem deep_equal_one_json a b :
  distinct_keys a -> deep_eq a b = true -> handoffJson a = handoffJson b.
Proof.
  revert b. induction a as [| |x|x|x|l IH|o IH] using val_nested_ind; intros b Hd He;
    destruct b as [| |y|y|y|m|p]; try done.
  - apply eqb_prop in He. by subst.
  - apply same_value_eq in He. by subst.
  - apply String.eqb_eq in He. by subst.
  - apply deep_eq_arr in He. apply distinct_arr in Hd. rewrite !handoffJson_arr.
    enough (E : rmapM handoffJson l = rmapM handoffJson m) by (by rewrite E).
    induction He as [|x y l m Hxy _ IHl]; [done|]. apply Forall_cons in Hd as [Hx Hd]. apply Forall_cons in IH as [IHx IH].
    cbn [rmapM]. by rewrite (IHx y Hx Hxy), IHl.
  - apply deep_eq_obj in He as [Hl Hf]. apply distinct_obj in Hd as [Ho Hd]. apply same_json_fields; [done|done|].
    rewrite Forall_forall in *. intros kv Hin. destruct (Hf kv Hin) as (w & Hw & E). exists w. split; [done|].
    by apply IH; [|apply Hd|].
Qed.

(** ** Canonical values *)

Definition canon_field (kv : string * val) : string * val := (fst kv, canon (snd kv)).
Lemma canon_obj o : canon (VObj o) = VObj (sort_fields (map canon_field o)).
Proof. simpl. f_equal. f_equal. induction o as [|[k w] o IH]; [done|]. simpl. by rewrite IH. Qed.

Lemma map_get_perm {A} (m m' : jsmap A) k : NoDup (map fst m) -> m ≡ₚ m' -> map_get m k = map_get m' k.
Proof.
  intros Hn Hp. assert (Hn' : NoDup (map fst m')) by (by rewrite <- Hp).
  assert (Hone : forall m m' : jsmap A, m ≡ₚ m' -> NoDup (map fst m') -> forall v, map_get m k = Some v -> map_get m' k = Some v).
  { clear. intros m m' Hp Hn v Hv%map_get_In. assert (Hin : In (k, v) m') by (by rewrite <- Hp).
    clear Hp Hv m. induction m' as [|[k' w] m IH]; [done|]. simpl in *. apply NoDup_cons in Hn as [Hk Hn].
    destruct Hin as [[= -> ->]|Hin]; [by rewrite String.eqb_refl|]. destruct (String.eqb k k') eqn:E; [|auto].
    apply String.eqb_eq in E as ->. destruct Hk. apply list_elem_of_In. by apply (in_map fst) in Hin. }
  destruct (map_get m k) as [v|] eqn:E; [symmetry; by apply (Hone m m')|].
  destruct (map_get m' k) as [v|] eqn:E'; [|done]. rewrite (Hone m' m) with (v := v) in E; [done|by symmetry|done|done].
Qed.

Lemma canon_keys o : map fst (map canon_field o) = map fst o.
Proof. by rewrite map_map. Qed.
Lemma sort_fields_permutes {A} (o : list (string * A)) : sort_fields o ≡ₚ o.
Proof. apply merge_sort_Permutation. Qed.

Lemma get_canon o k : NoDup (map fst o) -> get (sort_fields (map canon_field o)) k = canon (get o k).
Proof.
  intros Hn. unfold get. rewrite (map_get_perm _ (map canon_field o));
    [|rewrite sort_fields_permutes; by rewrite canon_keys|apply sort_fields_permutes].
  clear Hn. induction o as [|[k' w] o IH]; [done|]. simpl. by destruct (String.eqb k k').
Qed.
Lemma oget_canon v k : distinct_keys v -> oget (canon v) k = canon (oget v k).
Proof. destruct v; try done. - by destruct n. - intros [Hn _]. rewrite canon_obj. by apply get_canon. Qed.

Lemma json_num_text n : is_finite n = true -> handoffJson (json_num n) = Ok (num_to_string n).
Proof. by destruct n. Qed.

(** Reading back the canonical JSON of a value gives a value with the same JSON. *)
Lemma canon_json v t : distinct_keys v -> handoffJson v = Ok t -> handoffJson (canon v) = Ok t.
Proof.
  revert t. induction v as [| |b|n|s|l IH|o IH] using val_nested_ind; intros t Hd H; try done.
  - cbn [canon]. simpl in H. destruct (is_finite n) eqn:E; [|done]. injection H as <-. by apply json_num_text.
  - change (canon (VArr l)) with (VArr (map canon l)). rewrite handoffJson_arr in *.
    apply distinct_arr in Hd. apply rbind_Ok in H as (ts & Hts & [= <-]).
    enough (E : rmapM handoffJson (map canon l) = Ok ts) by (by rewrite E).
    revert ts Hts. induction IH as [|w l Hw _ IHl]; intros ts Hts; [done|]. apply Forall_cons in Hd as [Hdw Hd].
    cbn [rmapM map] in *. apply rbind_Ok in Hts as (x & Hx & Hts). apply rbind_Ok in Hts as (xs & Hxs & [= <-]).
    by rewrite (Hw x Hdw Hx), (IHl Hd xs Hxs).
  - rewrite canon_obj, handoffJson_obj in *. apply distinct_obj in Hd as [Hn Hd].
    apply rbind_Ok in H as (fs & Hfs & [= <-]).
    assert (E : rmapM json_field (map canon_field o) = Ok fs).
    { clear Hn. revert fs Hfs. induction IH as [|[k w] o Hw _ IHo]; intros fs Hfs; [done|].
      apply Forall_cons in Hd as [Hdw Hd]. cbn [rmapM map] in *.
      apply rbind_Ok in Hfs as ([k' x] & Hx & Hfs). apply rbind_Ok in Hfs as (xs & Hxs & [= <-]).
      unfold json_field in Hx. simpl in Hx. apply rbind_Ok in Hx as (x' & Hx & [= <- <-]).
      specialize (Hw x' Hdw Hx). cbn [snd] in Hw. rewrite (IHo Hd xs Hxs).
      unfold json_field, canon_field. cbn [fst snd]. by rewrite Hw. }
    destruct (rmapM_perm json_field not_json _ _ json_field_error (sort_fields_permutes (map canon_field o)))
      as [(ys & zs & Ey & Ez & Hyz)|[_ Ez]]; [|congruence].
    rewrite Ey. rewrite E in Ez. injection Ez as <-. cbn [rbind]. do 2 f_equal. f_equal. f_equal.
    rewrite (sort_fields_perm fs ys); [done| |by symmetry].
    by rewrite (rmapM_json_keys _ _ E), canon_keys.
Qed.

(** ** What a validated handoff covers *)

Lemma require_facts_Ok fs : require_facts fs = Ok tt <-> Forall (fun f => fst f = true) fs.
Proof.
  induction fs as [|[b r] fs IH]; simpl; [by split|]. rewrite Forall_cons, <- IH. simpl. by destruct b; split; intuition.
Qed.

Lemma NoDup_snoc_fresh {A} (l : list A) x : NoDup l -> x ∉ l -> NoDup (l ++ [x]).
Proof. intros Hl Hx. apply NoDup_app. split; [done|]. split; [|apply NoDup_singleton].
  intros y Hy ->%list_elem_of_singleton. done. Qed.
Lemma str_in_fresh k l : str_in k l = false -> k ∉ l.
Proof. intros H Hin. apply list_elem_of_In, str_in_In in Hin. congruence. Qed.

(** The inventory pairs each finding with its key, and no key comes twice. *)
Lemma take_inventory_Ok h fs inv inv' :
  take_inventory h fs inv = Ok inv' -> NoDup (map fst inv) ->
  exists ks, rmapM findingKey fs = Ok ks /\ inv' = inv ++ zip ks fs /\ length ks = length fs
    /\ NoDup (map fst inv') /\ Forall (fun f => finding_fact h f = true) fs.
Proof.
  revert inv. induction fs as [|f fs IH]; intros inv H Hn; cbn [take_inventory] in H.
  - injection H as <-. exists []. rewrite app_nil_r. auto 10.
  - apply rbind_Ok in H as (? & _ & H). destruct (finding_fact h f) eqn:Ef; [|done].
    apply rbind_Ok in H as (key & Hk & H). destruct (str_in key (map fst inv)) eqn:Es; [done|]. cbn [negb] in H.
    destruct (IH _ H) as (ks & Hks & -> & Hl & Hnd & Hff).
    { rewrite map_app. apply NoDup_snoc_fresh; [done | by apply str_in_fresh]. }
    exists (key :: ks). cbn [rmapM]. rewrite Hk, Hks. split; [done|].
    split; [by rewrite <- (assoc_L (++))|]. split; [simpl; lia|]. auto.
Qed.

Lemma keys_of_zip {A} (ks : list string) (fs : list A) : length ks = length fs -> map fst (zip ks fs) = ks.
Proof. revert fs. induction ks as [|k ks IH]; intros [|f fs] H; simpl in *; try lia; [done|]. f_equal. apply IH. lia. Qed.

(** A finding the inventory holds under a key has that key. *)
Lemma zip_key fs ks key f :
  rmapM findingKey fs = Ok ks -> map_get (zip ks fs) key = Some f -> In f fs /\ findingKey f = Ok key.
Proof.
  revert ks. induction fs as [|g fs IH]; intros ks H Hg; [injection H as <-; done|]. cbn [rmapM] in H.
  apply rbind_Ok in H as (k & Hk & H). apply rbind_Ok in H as (ks' & Hks & [= <-]). simpl in Hg.
  destruct (String.eqb key k) eqn:E.
  - apply String.eqb_eq in E as ->. injection Hg as <-. split; [by left | done].
  - destruct (IH _ Hks Hg) as [Hin Hf]. split; [by right | done].
Qed.

(** A disposition answers one finding of the inventory. *)
Definition disposes (h : val) (inventory : list (string * val)) (d : val) : Prop :=
  disposition_facts h d = Ok tt
  /\ exists key f, findingKey d = Ok key /\ map_get inventory key = Some f
       /\ strict_eq (oget d "severity") (oget f "severity") = true.

Lemma check_dispositions_Ok h ds inv seen seen' :
  check_dispositions h ds inv seen = Ok seen' -> NoDup seen ->
  exists ks, rmapM findingKey ds = Ok ks /\ seen' = seen ++ ks /\ length ks = length ds
    /\ NoDup seen' /\ Forall (disposes h inv) ds /\ Forall (fun k => In k (map fst inv)) ks.
Proof.
  revert seen. induction ds as [|d ds IH]; intros seen H Hn; cbn [check_dispositions] in H.
  - injection H as <-. exists []. rewrite app_nil_r. auto 10.
  - apply rbind_Ok in H as (key & Hk & H). destruct (map_get inv key) as [f|] eqn:Ef; [|done].
    destruct (negb (str_in key seen) && _) eqn:Es; [|done]. apply andb_true_iff in Es as [Es%negb_true_iff Hsev].
    apply rbind_Ok in H as ([] & Hd & H).
    destruct (IH _ H) as (ks & Hks & -> & Hl & Hnd & Hds & Hin).
    { apply NoDup_snoc_fresh; [done | by apply str_in_fresh]. }
    exists (key :: ks). cbn [rmapM]. rewrite Hk, Hks. split; [done|].
    split; [by rewrite <- (assoc_L (++))|]. split; [simpl; lia|]. split; [done|].
    split; constructor; [split; [done | eauto] | done | | done]. by apply map_get_In, (in_map fst) in Ef.
Qed.

Lemma disposition_grounded h d :
  disposition_facts h d = Ok tt ->
  strict_eq (oget d "head") (oget h "head") = true /\ hasConcreteExactHeadEvidence (oget d "evidence") = true
  /\ val_in (oget d "resolution") ["fixed"; "withdrawn"] = true.
Proof.
  unfold disposition_facts. destruct (_ && _ && _) eqn:E; [|done].
  apply andb_true_iff in E as [[E1 _]%andb_true_iff E2]. by destruct (val_in _ _).
Qed.

(** C29. A validated handoff covers the complete review: the evidence is of the open
    subject at the handed-off head, from a complete review whose identity is
    verified, and its findings and the handoff's dispositions are in one-to-one
    correspondence: no finding is named twice, no disposition is foreign or
    repeated, and none is missing. Every disposition keeps its finding's severity
    and is fixed or withdrawn with concrete evidence at the exact head. *)
Theorem handoff_covers_findings (h e : val) :
  validateQueueHandoff h e = Ok tt ->
  exists findings dispositions keys,
    oget (oget e "review") "findings" = VArr findings
    /\ dispositions = array_or_empty (oget h "dispositions")
    /\ oget (oget e "subject") "state" = VStr "open"
    /\ strict_eq (oget (oget e "subject") "head") (oget h "head") = true
    /\ oget (oget e "review") "complete" = VBool true /\ oget (oget e "identities") "ok" = VBool true
    /\ rmapM findingKey findings = Ok keys /\ NoDup keys
    /\ (exists named, rmapM findingKey dispositions = Ok named /\ named ≡ₚ keys)
    /\ Forall (fun f => val_in (oget f "severity") ["blocking"; "non-blocking"] = true) findings
    /\ Forall (fun d =>
         (exists f, In f findings /\ findingKey f = findingKey d
            /\ strict_eq (oget d "severity") (oget f "severity") = true)
         /\ strict_eq (oget d "head") (oget h "head") = true
         /\ hasConcreteExactHeadEvidence (oget d "evidence") = true
         /\ val_in (oget d "resolution") ["fixed"; "withdrawn"] = true) dispositions.
Proof.
  unfold validateQueueHandoff. intros ([] & Hf & H)%rbind_Ok. apply require_facts_Ok in Hf.
  apply rbind_Ok in H as (inv & Hinv & H). apply rbind_Ok in H as (seen & Hseen & H).
  destruct (Nat.eqb (length seen) (length inv)) eqn:El; [|done]. apply Nat.eqb_eq in El. clear H.
  unfold evidence_facts in Hf. rewrite !Forall_cons in Hf. cbn [fst] in Hf.
  destruct Hf as (Hsub & Hrev & _ & Hid & _ & _ & _ & _ & _ & _ & _ & Harr & _).
  destruct (oget (oget e "review") "findings") as [| | | | |findings|] eqn:Ef; try done. clear Harr.
  destruct (take_inventory_Ok _ _ _ _ Hinv (NoDup_nil_2)) as (keys & Hkeys & -> & Hkl & Hnk & Hff).
  destruct (check_dispositions_Ok _ _ _ _ _ Hseen (NoDup_nil_2)) as (named & Hnamed & -> & Hdl & Hnn & Hds & Hin).
  cbn [app array_or_empty] in Hkeys, Hnk, Hnn, Hin, Hds, El, Hff, Hkl.
  assert (Ekeys : map fst (zip keys findings) = keys) by by apply keys_of_zip.
  rewrite Ekeys in Hnk, Hin. exists findings, (array_or_empty (oget h "dispositions")), keys.
  apply andb_true_iff in Hsub as [[[[[_ Hopen]%andb_true_iff _]%andb_true_iff _]%andb_true_iff Hhead]%andb_true_iff _].
  apply andb_true_iff in Hrev as [[[[Hcomp _]%andb_true_iff _]%andb_true_iff _]%andb_true_iff _].
  apply andb_true_iff in Hid as [[[Hok _]%andb_true_iff _]%andb_true_iff _].
  split; [done|]. split; [done|]. split; [by apply is_str_eq|]. split; [done|]. split; [by apply is_true_eq|].
  split; [by apply is_true_eq|]. split; [done|]. split; [done|]. split; [|split].
  - exists named. split; [done|]. apply NoDup_Permutation_bis; [by apply NoDup_ListNoDup| |].
    + rewrite <- Ekeys, length_map. clear -El. lia.
    + intros k Hk. rewrite Forall_forall in Hin. by apply Hin, list_elem_of_In.
  - eapply Forall_impl; [exact Hff|]. intros f Hfact. unfold finding_fact in Hfact.
    by apply andb_true_iff in Hfact as [[[_ Hs]%andb_true_iff _]%andb_true_iff _].
  - eapply Forall_impl; [exact Hds|]. intros d (Hd & key & f & Hkd & Hget & Hsev).
    split; [|by apply disposition_grounded].
    destruct (zip_key _ _ _ _ Hkeys Hget) as (Hf & Hkf). exists f. rewrite Hkd, Hkf. done.
Qed.

(** ** Concrete inputs *)

#[local] Instance no_other_dates : HostDate := {| host_date_parse := fun _ => None |}.

Definition repeat_char (c : string) (n : nat) : string := join "" (repeat c n).
Definition ex_head : string := repeat_char "b" 40.
Definition ex_reviewed : string := repeat_char "a" 40.
Definition ex_handoff_lane : val := VObj [("repository", VStr "example/review"); ("base", VStr "main")].
Definition ex_launch (who : string) : val :=
  VObj [("workerId", VStr (who +:+ "-1")); ("workerClass", VStr who); ("launchRequestId", VStr (who +:+ "-run"))].
Definition fenced_text (lang body : string) : string :=
  "```" +:+ lang +:+ String "010" (body +:+ String "010" "```").

Definition ex_disposition (id severity resolution : string) (rest : list (string * val)) : val :=
  VObj ([("findingId", VStr id); ("reviewId", VStr "review-1"); ("reviewCommitId", VStr ex_reviewed);
         ("severity", VStr severity); ("resolution", VStr resolution); ("head", VStr ex_head);
         ("sourceRef", VStr "fix:1")] ++ rest).
Definition ex_dispositions : val :=
  VArr [ex_disposition "finding-1" "blocking" "fixed"
          [("paths", VArr [VStr "src/example.mjs"]); ("evidence", VStr (fenced_text "text" "node test/example.mjs: passed"))];
        ex_disposition "finding-2" "non-blocking" "withdrawn"
          [("explanation", VStr "The cited source already handles this input.");
           ("sourceLocations", VArr [VObj [("path", VStr "src/example.mjs"); ("line", VInt 12)]]);
           ("evidence", VStr (fenced_text "js" "if (input === null) return;"))]].
Definition ex_handoff : val :=
  VObj [("schemaVersion", VInt 1); ("lane", ex_handoff_lane); ("prNumber", VInt 101); ("head", VStr ex_head);
        ("admissionGeneration", VInt 1); ("handoffId", VStr "handoff:101"); ("worker", ex_launch "builder");
        ("closer", ex_launch "closer");
        ("sourceReview", VObj [("id", VStr "review-1"); ("commitId", VStr ex_reviewed)]);
        ("attestations", VObj [("produced", VStr "produced:1"); ("reviewed", VStr "reviewed:1")]);
        ("primaryChange", VObj [("intent", VStr "Preserve the requested change"); ("sourceRef", VStr "intent:1")]);
        ("localValidation", VObj [("head", VStr ex_head); ("sourceRef", VStr "validation:1")]);
        ("publication", VObj [("head", VStr ex_head); ("sourceRef", VStr "push:1")]);
        ("dispositions", ex_dispositions)].

Definition ex_currency : val :=
  VObj [("reviewedHead", VStr ex_reviewed); ("currentHead", VStr ex_head); ("current", VBool true);
        ("proof", VStr "ancestry"); ("sourceRef", VStr "compare:1")].
Definition ex_source_finding (id severity : string) : val :=
  VObj [("findingId", VStr id); ("reviewId", VStr "review-1"); ("reviewCommitId", VStr ex_reviewed);
        ("severity", VStr severity); ("sourceRef", VStr id); ("currency", ex_currency)].
Definition ex_attestation (kind producer head : string) (payload : list (string * val)) : val :=
  VObj [("valid", VBool true); ("ref", VStr (kind +:+ ":1")); ("sourceRef", VStr "verified-chain:1");
        ("record", VObj [("repo", VStr "example/review"); ("pr_number", VInt 101); ("head_sha", VStr head);
           ("kind", VStr kind); ("producer_identity", VStr producer); ("payload", VObj payload);
           ("signature", VObj [("algorithm", VStr "hmac"); ("subject", VStr producer); ("digest", VStr "signed")])])].
Definition ex_evidence_with (findings : list val) : val :=
  VObj [("subject", VObj [("lane", ex_handoff_lane); ("prNumber", VInt 101); ("head", VStr ex_head);
                          ("state", VStr "open"); ("sourceRef", VStr "live:1")]);
        ("review", VObj [("id", VStr "review-1"); ("commitId", VStr ex_reviewed); ("reviewerIdentity", VStr "reviewer-app");
                         ("complete", VBool true); ("sourceRef", VStr "reviews:1"); ("findings", VArr findings)]);
        ("currency", ex_currency);
        ("identities", VObj [("ok", VBool true); ("worker", ex_launch "builder"); ("closer", ex_launch "closer");
                             ("sourceRef", VStr "identity:1")]);
        ("attestations", VObj [("produced", ex_attestation "produced" "closer-app" ex_head
                                   [("launch_request_id", VStr "closer-run"); ("worker_class", VStr "closer")]);
                               ("reviewed", ex_attestation "reviewed" "reviewer-app" ex_reviewed [])]);
        ("primaryChange", VObj [("intent", VStr "Preserve the requested change"); ("sourceRef", VStr "intent:1");
                                ("head", VStr ex_head); ("ok", VBool true)]);
        ("localValidation", VObj [("head", VStr ex_head); ("sourceRef", VStr "validation:1"); ("ok", VBool true)]);
        ("publication", VObj [("head", VStr ex_head); ("sourceRef", VStr "push:1"); ("ok", VBool true)])].
Definition ex_evidence : val :=
  ex_evidence_with [ex_source_finding "finding-1" "blocking"; ex_source_finding "finding-2" "non-blocking"].

Example handoff_examples :
  (validateQueueHandoff ex_handoff ex_evidence,
   validateQueueHandoff ex_handoff (ex_evidence_with [ex_source_finding "finding-1" "blocking"]),
   validateQueueHandoff ex_handoff
     (ex_evidence_with [ex_source_finding "finding-1" "blocking"; ex_source_finding "finding-2" "non-blocking";
                        ex_source_finding "finding-3" "non-blocking"]),
   validateQueueHandoff ex_handoff
     (ex_evidence_with [ex_source_finding "finding-1" "non-blocking"; ex_source_finding "finding-2" "non-blocking"]))
  = (Ok tt, Throw (handoff_error "foreign or duplicate finding disposition"),
     Throw (handoff_error "incomplete finding coverage"),
     Throw (handoff_error "foreign or duplicate finding disposition")).
Proof. vm_compute. reflexivity. Qed.

Lemma deep_equal_one_json_witness :
  handoffJson (VObj [("b", VArr [VInt 1; VNull]); ("a", VObj [("y", VBool true); ("x", VStr "t")])])
  = handoffJson (VObj [("a", VObj [("x", VStr "t"); ("y", VBool true)]); ("b", VArr [VInt 1; VNull])]).
Proof.
  refine (deep_equal_one_json (VObj [("b", VArr [VInt 1; VNull]); ("a", VObj [("y", VBool true); ("x", VStr "t")])])
    (VObj [("a", VObj [("x", VStr "t"); ("y", VBool true)]); ("b", VArr [VInt 1; VNull])]) _ _).
  - repeat split; apply (bool_decide_unpack _); vm_compute; exact I.
  - vm_compute. reflexivity.
Defined.

Lemma handoff_covers_findings_witness :
  exists findings, oget (oget ex_evidence "review") "findings" = VArr findings.
Proof.
  destruct (handoff_covers_findings ex_handoff ex_evidence) as (fs & _ & _ & H & _).
  - vm_compute. reflexivity.
  - exists fs. exact H.
Defined.
