(* ===== verification/HandoffStore.v ===== *)
(** * Durable admission receipts (queue-handoff-store.mjs, queue-clean-review.mjs)

    The rows of validated handoffs and of direct clean reviews, their reading
    with its consistency check against the entry, the replay of a lost
    acknowledgement, and the commit that writes entry, event, evidence and
    acknowledgement in one transaction. A JSON column holds the value of its
    text. *)

From Stdlib Require Import ZArith Lia Ascii SpecFloat.
From stdpp Require Import base list strings gmap sorting.
From S2P Require Import Prelude JsNum JsValue JsDate QueueLane QueueStore QueueAdmission QueueHandoff.

Record HandoffRow := {
  h_id : string; h_entry : string; h_lane : string * string; h_pr : Z; h_head : string; h_gen : Z;
  h_digest : string; h_handoff : val; h_evidence : val; h_ack : val
}.
Record CleanRow := { c_entry : string; c_input : val; c_evidence : val }.
Record ReceiptDb := { queue : Db; handoff_rows : list HandoffRow; clean_rows : list CleanRow }.

Record Receipt := { r_handoff : val; r_evidence : val; r_ack : val }.

Section Receipts.
Context {hostDate : HostDate} `{Sha256}.

(** ** Reading *)

Definition inconsistent_ack : jserror := PlainError "inconsistent durable handoff acknowledgement".

(** [parse(row)] of a row that was found. *)
Definition parse_row (d : ReceiptDb) (r : HandoffRow) : result Receipt :=
  match row_of_id (queue d) (h_entry r) with
  | None => Throw inconsistent_ack
  | Some e =>
      let p := entry_payload e in
      let ack := h_ack r in
      let h := h_handoff r in
      guard is_str (oget ack "status") "acknowledged" && is_str (oget ack "entryId") (h_entry r)
            && is_str (oget ack "handoffId") (h_id r) && strict_eq (oget ack "ackId") (get p "ackId")
            && is_str (oget ack "payloadDigest") (h_digest r) && is_str (get p "handoffDigest") (h_digest r)
      else inconsistent_ack in
      let* digest := handoffDigest h in
      guard String.eqb digest (h_digest r) && is_str (oget h "head") (h_head r)
            && strict_eq (oget h "prNumber") (VInt (h_pr r)) && strict_eq (oget h "admissionGeneration") (VInt (h_gen r))
            && is_str (oget (oget h "lane") "repository") (fst (h_lane r))
            && is_str (oget (oget h "lane") "base") (snd (h_lane r))
      else inconsistent_ack in
      Ok {| r_handoff := h; r_evidence := h_evidence r; r_ack := ack |}
  end.
Definition parse (d : ReceiptDb) (r : option HandoffRow) : result (option Receipt) :=
  match r with
  | None => Ok None
  | Some r => let* x := parse_row d r in Ok (Some x)
  end.

(** The row of an admission, bound from a handoff or an entry. *)
Definition row_of_admission (l : Lane) (key : val) (r : HandoffRow) : bool :=
  same_lane l (h_lane r) && strict_eq (oget key "prNumber") (VInt (h_pr r)) && is_str (oget key "head") (h_head r)
  && strict_eq (oget key "admissionGeneration") (VInt (h_gen r)).
Definition read (d : ReceiptDb) (key : val) : result (option Receipt) :=
  let* k := member key "lane" in
  let* l := resolveLaneKey k in
  parse d (find_b (row_of_admission l key) (handoff_rows d)).
Definition read_named (d : ReceiptDb) (h : val) : result (option Receipt) :=
  parse d (find_b (fun r => is_str (oget h "handoffId") (h_id r)) (handoff_rows d)).

(** The acknowledgement already given for this handoff, if any. *)
Definition replay (d : ReceiptDb) (h : val) : result (option val) :=
  let* prior := read d h in
  let* named := read_named d h in
  match prior, named with
  | None, None => Ok None
  | Some p, Some n =>
      let* digest := handoffDigest h in
      guard strict_eq (oget (r_ack p) "ackId") (oget (r_ack n) "ackId") && is_str (oget (r_ack p) "payloadDigest") digest
      else PlainError "conflicting handoff acknowledgement" in
      Ok (Some (r_ack p))
  | _, _ => Throw (PlainError "conflicting handoff acknowledgement")
  end.

(** ** Committing *)

Definition row_clash (r o : HandoffRow) : bool :=
  String.eqb (h_id o) (h_id r) || String.eqb (h_entry o) (h_entry r)
  || bool_decide (h_lane o = h_lane r) && (h_pr o =? h_pr r)%Z && String.eqb (h_head o) (h_head r)
     && (h_gen o =? h_gen r)%Z.
Definition insert_handoff (d : ReceiptDb) (r : HandoffRow) : result ReceiptDb :=
  if some_b (row_clash r) (handoff_rows d) then Throw unique_error
  else Ok {| queue := queue d; handoff_rows := handoff_rows d ++ [r]; clean_rows := clean_rows d |}.

Definition admission_key (h : val) : result string :=
  handoffDigest (VArr [oget h "lane"; oget h "prNumber"; oget h "head"; oget h "admissionGeneration"]).
Definition admission_of (h : val) (key digest : string) (at_ : val) : Admission := {|
  a_lane := oget h "lane"; a_entryId := VStr ("q:" +:+ key); a_prNumber := oget h "prNumber";
  a_head := oget h "head"; a_generation := oget h "admissionGeneration"; a_handoffId := oget h "handoffId";
  a_ackId := VStr ("ack:" +:+ key); a_at := at_; a_digest := Some digest |}.

Definition ack_of (h : val) (entry : obj) (digest : string) : val :=
  VObj [("schemaVersion", VInt 1); ("status", VStr "acknowledged"); ("lane", oget h "lane");
        ("prNumber", oget h "prNumber"); ("head", oget h "head");
        ("admissionGeneration", oget h "admissionGeneration"); ("handoffId", oget h "handoffId");
        ("entryId", get entry "entryId"); ("ackId", get entry "ackId"); ("payloadDigest", VStr digest);
        ("readinessSeq", get entry "readinessSeq"); ("acknowledgedAt", get entry "acknowledgedAt")].

(** The columns an acknowledged handoff binds. *)
Definition handoff_row (h e ack : val) (entry : obj) (digest : string) (l : Lane) (pr gen : Z) : HandoffRow := {|
  h_id := to_str (oget h "handoffId"); h_entry := to_str (get entry "entryId"); h_lane := lane_pk l; h_pr := pr;
  h_head := to_str (oget h "head"); h_gen := gen; h_digest := digest; h_handoff := canon h; h_evidence := canon e;
  h_ack := canon ack |}.

Definition deadline_expired : jserror := PlainError "handoff commit deadline expired".
Definition past_deadline (deadline : option string) (at_ : string) : bool :=
  match deadline with
  | Some dl => match date_parse dl, date_parse at_ with Some due, Some t => (due <=? t)%Z | _, _ => false end
  | None => false
  end.

(** The transaction: entry, event, evidence and acknowledgement, or the stored acknowledgement. *)
Definition commit_txn (d : ReceiptDb) (h e : val) (deadline : option string) (scaled : Z) (now : val)
  : result (val * ReceiptDb) :=
  let* existing := replay d h in
  match existing with
  | Some ack => Ok (ack, d)
  | None =>
      let* at_ := queueTime now in
      guard negb (past_deadline deadline at_) else deadline_expired in
      let* digest := handoffDigest h in
      let* key := admission_key h in
      let* acked := acknowledge (queue d) (admission_of h key digest (VStr at_)) scaled in
      let '(entry, q) := acked in
      let ack := ack_of h entry digest in
      let* _ := handoffJson e in
      let* _ := handoffJson ack in
      match resolveLaneKey (oget h "lane"), positive_int (oget h "prNumber"), positive_int (oget h "admissionGeneration") with
      | Ok l, Some pr, Some gen =>
          let* d := insert_handoff {| queue := q; handoff_rows := handoff_rows d; clean_rows := clean_rows d |}
                      (handoff_row h e ack entry digest l pr gen) in
          Ok (ack, d)
      | _, _, _ => Throw (TypeError "invalid queue admission")
      end
  end.

(** [commit(h, evidence, { at, load, deadline, now })]. The scaled waits and the
    clock readings are arguments, as in the store. *)
Definition commit (d : ReceiptDb) (h0 e0 : val) (deadline : option string) (scaled_wait scaled : Z) (now0 now1 : val)
  : result (val * ReceiptDb) :=
  let* h := normalizeQueueHandoff h0 in
  let* e := json_copy e0 in
  let* _ := validateQueueHandoff h e in
  let* at0 := queueTime now0 in
  let* waitMs := queueWaitMs scaled_wait 30000 deadline at0 in
  guard negb (waitMs =? 0)%Z else deadline_expired in
  commit_txn d h e deadline scaled now1.

(** ** Clean reviews *)

Definition read_clean (d : ReceiptDb) (entryId : val) : result (option (val * val * obj)) :=
  match find_b (fun r => is_str entryId (c_entry r)) (clean_rows d) with
  | None => Ok None
  | Some r =>
      match row_of_id (queue d) (c_entry r) with
      | None => Ok None
      | Some row =>
          let p := entry_payload row in
          let input := c_input r in
          let* digest := handoffDigest input in
          guard is_str (get p "handoffDigest") digest && strict_eq (get p "head") (oget input "head")
                && strict_eq (get p "prNumber") (oget input "prNumber")
                && strict_eq (get p "admissionGeneration") (oget input "admissionGeneration")
          else PlainError "inconsistent clean review receipt" in
          let* lane := handoffJson (get p "lane") in
          let* lane' := handoffJson (oget input "lane") in
          guard String.eqb lane lane' else PlainError "inconsistent clean review receipt" in
          let* _ := validateCleanReview input (c_evidence r) in
          Ok (Some (input, c_evidence r, p))
      end
  end.

Definition commit_clean (d : ReceiptDb) (input0 e0 at_ : val) (scaled : Z) : result (obj * ReceiptDb) :=
  let* input := normalizeCleanReview input0 in
  let* e := json_copy e0 in
  let* _ := validateCleanReview input e in
  let* key := admission_key input in
  let* digest := handoffDigest input in
  let* acked := acknowledge (queue d) (admission_of input key digest at_) scaled in
  let '(entry, q) := acked in
  let d := {| queue := q; handoff_rows := handoff_rows d; clean_rows := clean_rows d |} in
  let* prior := read_clean d (get entry "entryId") in
  match prior with
  | Some _ => Ok (entry, d)
  | None =>
      let row := {| c_entry := to_str (get entry "entryId"); c_input := canon input; c_evidence := canon e |} in
      guard negb (some_b (fun r => String.eqb (c_entry r) (c_entry row)) (clean_rows d)) else unique_error in
      Ok (entry, {| queue := q; handoff_rows := handoff_rows d; clean_rows := clean_rows d ++ [row] |})
  end.

(** ** The services

    An evidence adapter answers a request within a timeout; a failure and the
    passing of the timeout are its throws. [None] is an adapter that cannot read.
    The clock readings and the scaled waits are arguments in the order of the calls. *)

Definition EvidenceRead := val -> Z -> result val.

Definition thirty_seconds_after (started : string) : result string :=
  match date_parse started with
  | Some t => date_to_iso (num_of_Z (t + 30000))
  | None => Throw (RangeError "Invalid time value")
  end.
Definition deadline_of (deadline : val) (started : string) : result string :=
  if is_nullish deadline then thirty_seconds_after started else queueTime deadline.
Definition evidence_expired : jserror := PlainError "handoff evidence deadline expired".

(** [submit] of createQueueHandoffService. *)
Definition submit (d : ReceiptDb) (adapter : option EvidenceRead) (input deadline : val) (scaled1 scaled2 scaled3 : Z)
    (now1 now2 now3 now4 : val) : result (val * ReceiptDb) :=
  let* h := normalizeQueueHandoff input in
  let* existing := replay d h in
  match existing with
  | Some ack => Ok (ack, d)
  | None =>
      match adapter with
      | None => Throw (PlainError "handoff evidence adapter unavailable")
      | Some read_evidence =>
          let* started := queueTime now1 in
          let* due := deadline_of deadline started in
          let* timeoutMs := queueWaitMs scaled1 30000 (Some due) started in
          guard negb (timeoutMs =? 0)%Z else evidence_expired in
          let* e := read_evidence h timeoutMs in
          let* at_ := queueTime now2 in
          guard negb (past_deadline (Some due) at_) else evidence_expired in
          commit d h e (Some due) scaled2 scaled3 now3 now4
      end
  end.

Definition clean_expired : jserror := PlainError "clean review deadline expired".
(** [submit] of createCleanReviewService. *)
Definition submit_clean (d : ReceiptDb) (adapter : option EvidenceRead) (input0 deadline : val) (scaled1 scaled2 scaled3 : Z)
    (now1 now2 now3 now4 : val) : result (obj * ReceiptDb) :=
  let* input := normalizeCleanReview input0 in
  let* key := admission_key input in
  let* prior := read_clean d (VStr ("q:" +:+ key)) in
  match prior with
  | Some (stored, _, entry) =>
      let* before := handoffDigest stored in
      let* digest := handoffDigest input in
      guard String.eqb before digest else PlainError "conflicting clean review acknowledgement" in
      Ok (entry, d)
  | None =>
      let* started := queueTime now1 in
      let* due := deadline_of deadline started in
      let* timeoutMs := queueWaitMs scaled1 30000 (Some due) started in
      guard negb (timeoutMs =? 0)%Z else clean_expired in
      match adapter with
      | None => Throw (PlainError "queue evidence adapter unavailable")
      | Some read_evidence =>
          let* e := read_evidence input timeoutMs in
          let* at_ := queueTime now2 in
          let* wait := queueWaitMs scaled2 30000 (Some due) at_ in
          guard negb (wait =? 0)%Z else clean_expired in
          guard negb (past_deadline (Some due) (to_str now3)) else clean_expired in
          let* at_ := queueTime now4 in
          commit_clean d input e (VStr at_) scaled3
      end
  end.

(** ** The receipt of an entry (resolveQueueAdmissionAdapters of queue-admission.mjs) *)

Definition admission_receipt (d : ReceiptDb) (entry : val) : result (option val) :=
  let* clean := read_clean d (oget entry "entryId") in
  match clean with
  | Some (input, e, p) =>
      Ok (Some (VObj [("kind", VStr "clean"); ("input", input); ("evidence", e); ("entry", VObj p)]))
  | None =>
      let* found := read d entry in
      match found with
      | None => Ok None
      | Some r =>
          guard strict_eq (oget (r_ack r) "entryId") (oget entry "entryId") else PlainError "foreign admission receipt" in
          let* _ := validateQueueHandoff (r_handoff r) (r_evidence r) in
          Ok (Some (VObj [("kind", VStr "remediated"); ("handoff", r_handoff r); ("evidence", r_evidence r);
                          ("ack", r_ack r)]))
      end
  end.
End Receipts.
(** ** The entry an acknowledgement answers *)

Section ReceiptFacts.
Context {hostDate : HostDate} `{Sha256}.

Lemma row_of_id_unique db r :
  NoDup (map entry_id (entry_rows db)) -> In r (entry_rows db) -> row_of_id db (entry_id r) = Some r.
Proof.
  intros Hn Hr. unfold row_of_id. destruct (find_b _ _) as [o|] eqn:E.
  - apply find_b_In in E as [Ho Hi%String.eqb_eq]. f_equal. by apply (rows_eq_of_id db o r).
  - pose proof (find_b_None _ _ r E Hr) as Hb. simpl in Hb. by rewrite String.eqb_refl in Hb.
Qed.

Lemma acknowledged_row db a sc e db' g :
  well_formed db -> acknowledge db a sc = Ok (e, db') -> a_digest a = Some g ->
  exists r ack, row_of_id db' (entry_id r) = Some r /\ get e "entryId" = VStr (entry_id r)
    /\ get e "ackId" = VStr ack /\ get (entry_payload r) "ackId" = VStr ack
    /\ get (entry_payload r) "handoffDigest" = VStr g.
Proof.
  intros [Hc Hi _] (l & at_ & id & handoff & ack & pr & head & gen & _ & _ & _ & _ & _ & _ & _ & _ & Hcase)%acknowledge_inv Hg.
  destruct (ensureLane_rows db l) as (Er & _).
  destruct Hcase as [(r & Hr & Hs & -> & ->)|(_ & lr & n & p & row & ev & _ & _ & _ & -> & -> & Hfresh & _ & _ & ->)].
  - assert (Hin : In r (entry_rows db)).
    { assert (Hin : In r [r]) by (by left). rewrite <- Hr in Hin. by apply List.filter_In in Hin as [? _]. }
    rewrite List.Forall_forall in Hc. destruct (Hc r Hin) as [_ _ _ Hrid _ _].
    unfold same_admission in Hs. rewrite Hg in Hs.
    apply andb_true_iff in Hs as [[_ Ha]%andb_true_iff Hd]. apply is_str_eq in Ha, Hd.
    exists r, ack. split; [apply row_of_id_unique; by rewrite Er|]. repeat split; try done.
    unfold coalesce in Hd. by destruct (is_nullish _).
  - match goal with |- context [_ ++ [?row]] => exists row, ack end. split; [|cbn [entry_id entry_payload]; rewrite Hg; do 2 (split; [done|]);
      split; by rewrite get_norm_fields by apply new_entry_keys].
    unfold row_of_id. cbn [entry_rows]. rewrite find_b_snoc. cbn [entry_id].
    destruct (find_b _ (entry_rows db)) as [o|] eqn:E; [|by rewrite String.eqb_refl].
    apply find_b_In in E as [Ho Hoi%String.eqb_eq]. by destruct (Hfresh o Ho).
Qed.

(** ** The receipt a commit leaves *)

Lemma ack_fields h e digest k : get (sort_fields (map canon_field (match ack_of h e digest with VObj o => o | _ => [] end))) k
  = canon (oget (ack_of h e digest) k).
Proof. apply get_canon. cbn [map fst ack_of]. apply (bool_decide_unpack _). vm_compute. exact I. Qed.
Lemma oget_ack h e digest k : oget (canon (ack_of h e digest)) k = canon (oget (ack_of h e digest) k).
Proof. unfold ack_of at 1. rewrite canon_obj. apply (ack_fields h e digest k). Qed.

Lemma distinct_get o k : distinct_keys (VObj o) -> distinct_keys (get o k).
Proof.
  intros [_ Hd]%distinct_obj. unfold get. destruct (map_get o k) as [v|] eqn:E; [|done].
  apply map_get_In in E. rewrite List.Forall_forall in Hd. exact (Hd _ E).
Qed.
Lemma distinct_lane l : distinct_keys (lane_val l).
Proof. split; [apply (bool_decide_unpack _); vm_compute; exact I | done]. Qed.
Lemma distinct_map_set o k v : distinct_keys (VObj o) -> distinct_keys v -> distinct_keys (VObj (map_set o k v)).
Proof.
  rewrite !distinct_obj, !List.Forall_forall. intros [Hn Hd] Hv. split; [by apply map_set_NoDup|].
  intros [k' w] [->|Hw]%map_set_In; [done|]. exact (Hd _ Hw).
Qed.
Lemma distinct_canon v : distinct_keys v -> distinct_keys (canon v).
Proof.
  induction v as [| |b|n|s|l IH|o IH] using val_nested_ind; try done.
  - by destruct n.
  - change (canon (VArr l)) with (VArr (map canon l)). rewrite !distinct_arr, Forall_map.
    intros Hd. rewrite List.Forall_forall in *. auto.
  - rewrite canon_obj, !distinct_obj. intros [Hn Hd]. split.
    + rewrite sort_fields_permutes. by rewrite canon_keys.
    + rewrite sort_fields_permutes, Forall_map. rewrite List.Forall_forall in *. intros kv Hkv. simpl. auto.
Qed.

(** What the columns of an admission say about a normalized handoff. *)
Record admitted (h : val) (l : Lane) (hd id : string) (pr gen : Z) : Prop := {
  ad_keys : distinct_keys h;
  ad_lane : oget h "lane" = lane_val l;
  ad_resolved : resolveLaneKey (lane_val l) = Ok l;
  ad_head : oget h "head" = VStr hd;
  ad_id : oget h "handoffId" = VStr id;
  ad_pr : oget h "prNumber" = VInt pr;
  ad_gen : oget h "admissionGeneration" = VInt gen;
  ad_pr_safe : (Z.abs pr <= max_safe_integer)%Z;
  ad_gen_safe : (Z.abs gen <= max_safe_integer)%Z
}.

Lemma canon_VInt n : (Z.abs n <= max_safe_integer)%Z -> canon (VInt n) = VInt n.
Proof. exact (json_VInt n). Qed.
Lemma is_str_refl s : is_str (VStr s) s = true.
Proof. by apply is_str_eq. Qed.

Lemma committed_row_parses q hs cs h e entry digest l hd id pr gen eid a r :
  admitted h l hd id pr gen -> handoffDigest h = Ok digest ->
  row_of_id q eid = Some r -> get entry "entryId" = VStr eid -> get entry "ackId" = VStr a ->
  get (entry_payload r) "ackId" = VStr a -> get (entry_payload r) "handoffDigest" = VStr digest ->
  let ack := ack_of h entry digest in
  parse_row {| queue := q; handoff_rows := hs; clean_rows := cs |} (handoff_row h e ack entry digest l pr gen)
  = Ok {| r_handoff := canon h; r_evidence := canon e; r_ack := canon ack |}.
Proof.
  intros [Hk Hl Hrl Hh Hid Hpr Hgen Sp Sg] Hd Hr He Ha Hpa Hpd ack.
  unfold handoffDigest in Hd. apply rbind_Ok in Hd as (t & Ht & [= <-]).
  unfold parse_row, handoff_row. cbn -[oget canon ack_of handoffDigest]. rewrite He. cbn [to_str]. rewrite Hr.
  unfold ack. rewrite !oget_ack.
  change (oget (ack_of ?x ?y ?z) "status") with (VStr "acknowledged").
  change (oget (ack_of ?x ?y ?z) "payloadDigest") with (VStr z).
  change (oget (ack_of ?x ?y ?z) "entryId") with (get y "entryId").
  change (oget (ack_of ?x ?y ?z) "ackId") with (get y "ackId").
  change (oget (ack_of ?x ?y ?z) "handoffId") with (oget x "handoffId").
  rewrite He, Ha, Hpa, Hpd, Hid. cbn [canon to_str]. rewrite (proj2 (strict_eq_str_l a _)) by done. rewrite !is_str_refl.
  unfold handoffDigest. rewrite (canon_json h t Hk Ht). cbn [andb rbind].
  rewrite !(oget_canon h) by done. rewrite Hl, Hh, Hpr, Hgen, !canon_VInt, !strict_eq_VInt by done. rewrite String.eqb_refl.
  rewrite !(oget_canon (lane_val l)) by apply distinct_lane.
  change (canon (oget (lane_val l) "repository")) with (VStr (repository l)).
  change (canon (oget (lane_val l) "base")) with (VStr (base l)).
  cbn [canon to_str]. by rewrite !is_str_refl.
Qed.

Lemma canon_idem v : distinct_keys v -> canon (canon v) = canon v.
Proof.
  induction v as [| |b|n|s|l IH|o IH] using val_nested_ind; intros Hd; try done.
  - by destruct n.
  - change (VArr (map canon (map canon l)) = VArr (map canon l)). f_equal. apply distinct_arr in Hd.
    rewrite map_map. induction IH as [|w l Hw _ IHl]; [done|]. apply Forall_cons in Hd as [Hdw Hd].
    cbn [map]. by rewrite Hw, IHl.
  - rewrite !canon_obj. apply distinct_obj in Hd as [Hn Hd]. f_equal.
    assert (E : map canon_field (map canon_field o) = map canon_field o).
    { clear Hn. induction IH as [|[k w] o Hw _ IHo]; [done|]. apply Forall_cons in Hd as [Hdw Hd]. cbn [map].
      rewrite IHo by done. f_equal. unfold canon_field. cbn [fst snd] in *. by rewrite Hw. }
    rewrite <- E at 2. apply sort_fields_perm; [rewrite canon_keys|]; by rewrite sort_fields_permutes, ?canon_keys.
Qed.

(** A number that is the integer it denotes, as those a document can spell are. *)
Definition exact_int (v : val) : Prop := forall z, positive_int v = Some z -> v = VInt z.

Lemma normalizeQueueHandoff_inv h0 h :
  distinct_keys h0 -> normalizeQueueHandoff h0 = Ok h ->
  exists l, distinct_keys h /\ oget h "lane" = lane_val l /\ resolveLaneKey (lane_val l) = Ok l
    /\ (exists id, oget h "handoffId" = VStr id)
    /\ (forall k, k <> "lane" -> oget h k = canon (oget h0 k)).
Proof.
  unfold normalizeQueueHandoff, json_copy. intros Hd (c & (t & _ & [= <-])%rbind_Ok & Hx)%rbind_Ok.
  destruct (strict_eq _ _); [|done].
  pose proof (distinct_canon h0 Hd) as Hc. pose proof (fun k => oget_canon h0 k Hd) as Hg.
  destruct (canon h0) as [| | | | | |o]; try done.
  apply rbind_Ok in Hx as (l & Hl & Hx). apply rbind_Ok in Hx as (id & Hid & Hx). apply rbind_Ok in Hx as (? & _ & [= <-]).
  exists l. split; [by apply distinct_map_set, distinct_lane|]. split; [apply get_set|].
  split; [by eapply resolveLaneKey_lane|]. split.
  - unfold queueId in Hid. destruct (oget _ "handoffId"); try done. eauto.
  - intros k Hk. rewrite <- Hg. apply get_set_ne. congruence.
Qed.
Lemma normalized_admitted h0 h q key digest at_ sc e q' :
  distinct_keys h0 -> exact_int (oget h0 "prNumber") -> exact_int (oget h0 "admissionGeneration") ->
  normalizeQueueHandoff h0 = Ok h -> acknowledge q (admission_of h key digest at_) sc = Ok (e, q') ->
  exists l hd id pr gen, admitted h l hd id pr gen
    /\ positive_int (oget h "prNumber") = Some pr /\ positive_int (oget h "admissionGeneration") = Some gen.
Proof.
  intros Hd Ep Eg (l & Hk & Hl & Hr & (id & Hid) & Hf)%normalizeQueueHandoff_inv Ha; [|done].
  apply acknowledge_inv in Ha as (l' & ? & ? & ? & ? & pr & hd & gen & _ & _ & _ & _ & _ & Hpr & Hhd & Hgen & _).
  cbn [a_prNumber a_head a_generation admission_of] in *.
  assert (Hint : forall k z, k <> "lane" -> exact_int (oget h0 k) -> positive_int (oget h k) = Some z ->
            oget h k = VInt z /\ (Z.abs z <= max_safe_integer)%Z).
  { intros k z Hne He Hz. rewrite (Hf k Hne) in *. destruct (positive_int_Some _ _ Hz) as [Hb (n & En & _)].
    assert (Ec : canon (oget h0 k) = oget h0 k).
    { by destruct (oget h0 k) as [| | |[]| | |]. }
    rewrite Ec in *. split; [by apply He | lia]. }
  destruct (Hint "prNumber" pr) as [H1 H2]; [done|done|done|].
  destruct (Hint "admissionGeneration" gen) as [H3 H4]; [done|done|done|].
  exists l, hd, id, pr, gen. split; [|done]. constructor; try done.
  unfold non_empty in Hhd. destruct (oget h "head") as [| | | |s| |]; try done.
  destruct (String.eqb s ""); [done|]. by injection Hhd as ->.
Qed.

Lemma read_committed q hs cs h l hd id pr gen row x :
  admitted h l hd id pr gen -> h_id row = id -> h_lane row = lane_pk l -> h_pr row = pr -> h_head row = hd -> h_gen row = gen ->
  find_b (row_of_admission l h) hs = None -> find_b (fun r => is_str (oget h "handoffId") (h_id r)) hs = None ->
  let d := {| queue := q; handoff_rows := hs ++ [row]; clean_rows := cs |} in
  parse_row d row = Ok x -> read d h = Ok (Some x) /\ read_named d h = Ok (Some x).
Proof.
  intros [_ Hl Hr Hh Hi Hp Hg Sp Sg] E1 E2 E3 E4 E5 N1 N2 d Hx.
  assert (Hm : member h "lane" = Ok (lane_val l)) by (unfold member; rewrite Hl; by destruct h).
  unfold read, read_named. rewrite Hm. cbn [rbind]. rewrite Hr. cbn [rbind handoff_rows d]. rewrite !find_b_snoc, N1, N2.
  unfold row_of_admission. rewrite Hp, Hh, Hg, Hi, E1, E2, E3, E4, E5, !strict_eq_VInt, !is_str_refl by done.
  rewrite (proj2 (same_lane_true l (lane_pk l))) by done. cbn [andb parse]. by rewrite Hx.
Qed.

Lemma replay_none d h l hd id pr gen :
  admitted h l hd id pr gen -> replay d h = Ok None ->
  find_b (row_of_admission l h) (handoff_rows d) = None
  /\ find_b (fun r => is_str (oget h "handoffId") (h_id r)) (handoff_rows d) = None.
Proof.
  intros [_ Hl Hr _ _ _ _ _ _] Hn. assert (Hm : member h "lane" = Ok (lane_val l)) by (unfold member; rewrite Hl; by destruct h).
  unfold replay, read, read_named in Hn. rewrite Hm in Hn. cbn [rbind] in Hn. rewrite Hr in Hn. cbn [rbind] in Hn.
  destruct (find_b (row_of_admission l h) _) as [r|] eqn:E1, (find_b (fun r => is_str (oget h "handoffId") (h_id r)) _) as [n|] eqn:E2; [| | |done].
  all: cbn [parse] in Hn; repeat (destruct (parse_row _ _); cbn [rbind] in Hn; try done).
  destruct (handoffDigest h); [|done]. cbn [rbind] in Hn. by destruct (_ && _).
Qed.

Lemma replay_committed d h digest x :
  read d h = Ok (Some x) -> read_named d h = Ok (Some x) -> handoffDigest h = Ok digest ->
  (exists a, oget (r_ack x) "ackId" = VStr a) -> oget (r_ack x) "payloadDigest" = VStr digest ->
  replay d h = Ok (Some (r_ack x)).
Proof.
  intros H1 H2 Hd (a & Ha) Hp. unfold replay. rewrite H1, H2. cbn [rbind]. rewrite Hd. cbn [rbind].
  rewrite Ha, Hp, is_str_refl. by rewrite (proj2 (strict_eq_str_l a _)).
Qed.

(** A commit that stores leaves one more row, whose receipt is the handoff's. *)
Lemma commit_txn_stores d h0 h e deadline sc now ack d' :
  well_formed (queue d) -> distinct_keys h0 ->
  exact_int (oget h0 "prNumber") -> exact_int (oget h0 "admissionGeneration") ->
  normalizeQueueHandoff h0 = Ok h -> replay d h = Ok None -> commit_txn d h e deadline sc now = Ok (ack, d') ->
  let x := {| r_handoff := canon h; r_evidence := canon e; r_ack := canon ack |} in
  (exists row, handoff_rows d' = handoff_rows d ++ [row]) /\ clean_rows d' = clean_rows d
  /\ (exists a entry, acknowledge (queue d) a sc = Ok (entry, queue d'))
  /\ read d' h = Ok (Some x) /\ replay d' h = Ok (Some (canon ack)).
Proof.
  intros Hwf Hd Ep Eg Hn Hnone Ht. unfold commit_txn in Ht. rewrite Hnone in Ht. cbn [rbind] in Ht.
  apply rbind_Ok in Ht as (at_ & _ & Ht). destruct (negb _); [|done].
  apply rbind_Ok in Ht as (digest & Hdig & Ht). apply rbind_Ok in Ht as (key & _ & Ht).
  apply rbind_Ok in Ht as ([entry q] & Hack & Ht). cbv beta iota zeta in Ht.
  apply rbind_Ok in Ht as (? & _ & Ht). apply rbind_Ok in Ht as (? & _ & Ht).
  destruct (normalized_admitted h0 h _ _ _ _ _ _ _ Hd Ep Eg Hn Hack) as (l & hd & id & pr & gen & Had & Hpr & Hgen).
  rewrite Hpr, Hgen, (ad_lane _ _ _ _ _ _ Had), (ad_resolved _ _ _ _ _ _ Had) in Ht.
  unfold insert_handoff in Ht. destruct (some_b _ _); [done|]. cbn [rbind] in Ht. injection Ht as <- <-.
  destruct (acknowledged_row _ _ _ _ _ digest Hwf Hack eq_refl) as (r & a & Hr & He & Ha & Hpa & Hpd).
  destruct (replay_none _ _ _ _ _ _ _ Had Hnone) as [N1 N2].
  destruct (read_committed q (handoff_rows d) (clean_rows d) h l hd id pr gen
    (handoff_row h e (ack_of h entry digest) entry digest l pr gen)
    {| r_handoff := canon h; r_evidence := canon e; r_ack := canon (ack_of h entry digest) |} Had) as [R1 R2];
    [cbn; by rewrite (ad_id _ _ _ _ _ _ Had)|done|done|cbn; by rewrite (ad_head _ _ _ _ _ _ Had)|done|done|done|
     by eapply committed_row_parses|].
  split; [by eexists|]. split; [done|]. split; [eauto|]. split; [exact R1|].
  eapply replay_committed in R1; [exact R1 | exact R2 | exact Hdig | |]; cbn [r_ack]; rewrite oget_ack.
  - exists a. cbn. by rewrite Ha.
  - done.
Qed.


(** A submission answers the stored acknowledgement, reading no evidence and no
    clock, or commits the evidence its adapter read within a positive timeout. *)
Lemma submit_commits d adapter input deadline s1 s2 s3 n1 n2 n3 n4 ack d' :
  submit d adapter input deadline s1 s2 s3 n1 n2 n3 n4 = Ok (ack, d') ->
  exists h, normalizeQueueHandoff input = Ok h
    /\ ((replay d h = Ok (Some ack) /\ d' = d)
        \/ (replay d h = Ok None
            /\ exists read_evidence ms e due, adapter = Some read_evidence /\ (0 < ms <= 30000)%Z
                 /\ read_evidence h ms = Ok e /\ commit d h e (Some due) s2 s3 n3 n4 = Ok (ack, d'))).
Proof.
  unfold submit. intros (h & Hn & Hx)%rbind_Ok. apply rbind_Ok in Hx as ([a|] & Hr & Hx); exists h; split; try done.
  - injection Hx as <- <-. by left.
  - right. split; [done|]. destruct adapter as [rd|]; [|done].
    apply rbind_Ok in Hx as (at0 & _ & Hx). apply rbind_Ok in Hx as (due & _ & Hx).
    apply rbind_Ok in Hx as (ms & Hms & Hx). destruct (Z.eqb_spec ms 0) as [|Hne]; [done|]. cbn [negb] in Hx.
    apply rbind_Ok in Hx as (e & He & Hx). apply rbind_Ok in Hx as (at1 & _ & Hx). destruct (negb _); [|done].
    exists rd, ms, e, due. repeat (split; [done|]). split; [|done].
    unfold queueWaitMs in Hms. cbn -[date_parse Z.min Z.max] in Hms.
    repeat (destruct (date_parse _); [|done]). injection Hms as <-. lia.
Qed.
End ReceiptFacts.

(** ** Concrete inputs *)

#[local] Instance no_other_dates : HostDate := {| host_date_parse := fun _ => None |}.
(** A digest for the examples: the length of the text. *)
#[local] Instance length_digest : Sha256 := {| sha256_hex := fun t => num_to_string (num_of_Z (Z.of_nat (String.length t))) |}.

Definition ex_receipts : ReceiptDb := {| queue := initial ∅; handoff_rows := []; clean_rows := [] |}.
Definition ex_now : val := VStr "2026-10-23T00:00:00Z".
Definition ex_commit : result (val * ReceiptDb) :=
  commit ex_receipts ex_handoff ex_evidence (Some "2026-10-23T00:01:00Z") 5000 1800000 ex_now ex_now.
Definition receipts_after (r : result (val * ReceiptDb)) : ReceiptDb := match r with Ok (_, d) => d | Throw _ => ex_receipts end.
Definition ack_after (r : result (val * ReceiptDb)) : val := match r with Ok (a, _) => a | Throw _ => VUndef end.

Example handoff_store_examples :
  (oget (ack_after ex_commit) "status", length (handoff_rows (receipts_after ex_commit)),
   deep_eq (ack_after (commit (receipts_after ex_commit) ex_handoff ex_evidence None 5000 1800000 ex_now ex_now))
     (ack_after ex_commit),
   match commit ex_receipts ex_handoff ex_evidence (Some "2026-10-23T00:00:00Z") 5000 1800000 ex_now ex_now with
   | Throw e => Some e | Ok _ => None end)
  = (VStr "acknowledged", 1%nat, true, Some deadline_expired).
Proof. vm_compute. reflexivity. Qed.

