(* ===== verification/QueueService.v ===== *)
(** * The services of the finalization queue: their world

    What queue-merge.mjs, queue-checks.mjs, queue-admission.mjs and
    queue-rebase.mjs of src/src/finalization share: the tables, the environment,
    the calls made, and the steps every service is made of. An awaited adapter is
    a function that answers and may change the tables and the environment in the
    meantime, as other actors do; the trace keeps what was read and called. The
    clock, the load-scaled waits and the lane's lock are read from the
    environment, each reading where the code reads it. *)

From Stdlib Require Import ZArith Lia Ascii SpecFloat.
From stdpp Require Import base list strings gmap.
From S2P Require Import Prelude JsNum JsValue JsDate LedgerEvents LedgerFold LedgerStore.
From S2P Require Import QueueLane QueueStore QueueOwner QueueAdmission QueueHandoff HandoffStore.

Record PageRow := { cause_key : string; page_entry : string; page_payload : val; page_receipt : option val }.
Record MergeRow := {
  merge_entry : string; merge_lane : string * string; merge_pr : val; merge_candidate : val; merge_sha : val;
  merge_operation : string; merge_digest : string; merge_receipt : val
}.
Record DeliveryRow := {
  delivery_key : string; delivery_entry : string; delivery_kind : string; delivery_payload : val;
  attempts : Z; last_error : option string; delivery_receipt : option val
}.

(** The routing tables: the columns of a route beside its executor, the invocations
    of the legacy writers, and the entries handed back to them. *)
Record RouteDetail := { config_generation : string; runtime : option val; transition : option val; route_updated : string }.
Record WriterRow := {
  writer_id : string; writer_lane : string * string; writer_route : Z; writer_kind : string;
  writer_intent : val; writer_result : option val
}.
Record ReturnRow := { return_entry : string; return_key : string; return_payload : val; return_receipt : option val }.
Record Routing := { route_details : gmap (string * string) RouteDetail; writers : list WriterRow; returns : list ReturnRow }.
Definition no_routing : Routing := {| route_details := ∅; writers := []; returns := [] |}.

(** The tables of the shared store a service reads or writes. *)
Record Tables := {
  receipts : ReceiptDb;
  ledger : LedgerStore.Table;
  pages : list PageRow;
  merges : list MergeRow;
  outbox : list DeliveryRow;
  routing : Routing
}.
Definition queue_of (t : Tables) : Db := queue (receipts t).
Definition with_queue (t : Tables) (d : Db) : Tables := {|
  receipts := {| queue := d; handoff_rows := handoff_rows (receipts t); clean_rows := clean_rows (receipts t) |};
  ledger := ledger t; pages := pages t; merges := merges t; outbox := outbox t; routing := routing t |}.
Definition with_ledger (t : Tables) (l : LedgerStore.Table) : Tables := {|
  receipts := receipts t; ledger := l; pages := pages t; merges := merges t; outbox := outbox t; routing := routing t |}.
Definition with_pages (t : Tables) (l : list PageRow) : Tables := {|
  receipts := receipts t; ledger := ledger t; pages := l; merges := merges t; outbox := outbox t; routing := routing t |}.
Definition with_merges (t : Tables) (l : list MergeRow) : Tables := {|
  receipts := receipts t; ledger := ledger t; pages := pages t; merges := l; outbox := outbox t; routing := routing t |}.
Definition with_outbox (t : Tables) (l : list DeliveryRow) : Tables := {|
  receipts := receipts t; ledger := ledger t; pages := pages t; merges := merges t; outbox := l; routing := routing t |}.
Definition with_routing (t : Tables) (r : Routing) : Tables := {|
  receipts := receipts t; ledger := ledger t; pages := pages t; merges := merges t; outbox := outbox t; routing := r |}.

(** What a service reads or calls outside the store. *)
Inductive Event :=
| EPolicy (engaged : bool)
| ERead (reader : string) (request : obj) (answer : result val)
| EGit (verb : string) (request : obj) (answer : result val)
| EMerge (request : obj) (answer : result val)
| EPush (request : obj) (answer : result val)
| EWriter (executor : string) (request : obj) (answer : result val).

(** The environment of a service: its clock, the nominal of a wait scaled by the
    load, and whether the issuance lock of a lane is free. *)
Class QueueEnv (E : Type) := {
  clock : E -> string * E;
  load_scaled : E -> Z -> Z * E;
  lock_is_free : E -> Lane -> bool * E
}.

Section Service.
Context {hostDate : HostDate} {sqliteText : SqliteText} {sha256 : Sha256}.
Context {E : Type} {queueEnv : QueueEnv E}.

Record World := { tables : Tables; env : E; trace : list Event }.

(** An awaited call: its reply, and what it leaves of the tables and the environment. *)
Definition External : Type := Tables -> E -> result val * Tables * E.
(** A reader answers a request within a budget of milliseconds. *)
Definition Reader : Type := obj -> Z -> External.

(** ** Computations *)

Definition SM (A : Type) : Type := World -> result A * World.
Definition sret {A} (a : A) : SM A := fun w => (Ok a, w).
Definition sthrow {A} (e : jserror) : SM A := fun w => (Throw e, w).
Definition slift {A} (r : result A) : SM A := fun w => (r, w).
Definition sbind {A B} (m : SM A) (f : A -> SM B) : SM B :=
  fun w => match m w with (Ok a, w') => f a w' | (Throw e, w') => (Throw e, w') end.
(** [try { m } catch]: what was thrown is a value. *)
Definition attempt {A} (m : SM A) : SM (result A) := fun w => let '(r, w') := m w in (Ok r, w').
(** [try { m } finally { f }]. *)
Definition sfinally {A B} (m : SM A) (f : SM B) : SM A :=
  fun w => let '(r, w1) := m w in
           match f w1 with (Ok _, w2) => (r, w2) | (Throw e, w2) => (Throw e, w2) end.

Definition look {A} (f : Tables -> A) : SM A := fun w => (Ok (f (tables w)), w).
Definition log_event (ev : Event) : SM unit :=
  fun w => (Ok tt, {| tables := tables w; env := env w; trace := trace w ++ [ev] |}).
Definition from_env {A} (f : E -> A * E) : SM A :=
  fun w => let '(a, e) := f (env w) in (Ok a, {| tables := tables w; env := e; trace := trace w |}).

(** [store.tx(fn)]: the tables roll back when it throws. *)
Definition stx {A} (m : SM A) : SM A :=
  fun w => match m w with
           | (Ok a, w') => (Ok a, w')
           | (Throw e, w') => (Throw e, {| tables := tables w; env := env w'; trace := trace w' |})
           end.
(** A statement, or a transaction of the queue store, on the tables. *)
Definition change {A} (f : Tables -> result (A * Tables)) : SM A :=
  fun w => match f (tables w) with
           | Ok (a, t) => (Ok a, {| tables := t; env := env w; trace := trace w |})
           | Throw e => (Throw e, w)
           end.
Definition on_queue {A} (f : Db -> result (A * Db)) : SM A :=
  change (fun t => let* x := f (queue_of t) in Ok (fst x, with_queue t (snd x))).

Definition call (ev : result val -> Event) (x : External) : SM val :=
  fun w => let '(r, t, e) := x (tables w) (env w) in (r, {| tables := t; env := e; trace := trace w ++ [ev r] |}).
End Service.
Arguments World E : clear implicits.
Arguments External E : clear implicits.
Arguments Reader E : clear implicits.
Arguments SM {E} A.

Declare Scope service_scope.
Notation "'let!' x ':=' m 'in' k" := (sbind m (fun x => k))
  (at level 10, x name, m at level 100, k at level 200) : service_scope.
#[global] Open Scope service_scope.

Section Steps.
Context {hostDate : HostDate} {sqliteText : SqliteText} {sha256 : Sha256}.
Context {E : Type} {queueEnv : QueueEnv E}.

Definition now : SM (E := E) string := from_env clock.
Definition scaled (nominal : Z) : SM (E := E) Z := from_env (fun e => load_scaled e nominal).

(** [new Date(Date.parse(t) + ms).toISOString()]. *)
Definition later (t : string) (ms : Z) : result string :=
  match date_parse t with
  | Some z => date_to_iso (num_of_Z (z + ms))
  | None => Throw (RangeError "Invalid time value")
  end.
Definition deadline_opt (v : val) : option string := if is_nullish v then None else Some (to_str v).
(** [Date.parse(now) >= Date.parse(deadline)]. *)
Definition past (t : string) (deadline : val) : bool :=
  match date_parse (to_str deadline), date_parse t with Some due, Some z => (due <=? z)%Z | _, _ => false end.

(** [queueWaitMs(nominal, { ceilingMs, load })], and with a deadline. *)
Definition wait_load (nominal ceiling : Z) : SM (E := E) Z :=
  let! s := scaled nominal in slift (queueWaitMs s ceiling None "").
Definition wait_until (nominal ceiling : Z) (deadline : val) : SM (E := E) Z :=
  let! t := now in
  let! s := scaled nominal in
  slift (queueWaitMs s ceiling (deadline_opt deadline) t).
Definition wait (deadline : val) : SM (E := E) Z := wait_until 5000 30000 deadline.

(** [readQueueEvidence(adapter, request, timeoutMs)]: the adapter's answer, its
    throw, or the throw of the timer, is the call's reply. *)
Definition readQueueEvidence (reader : string) (adapter : option (Reader E)) (request : obj) (timeoutMs : Z) : SM val :=
  if negb (0 <? timeoutMs)%Z then sthrow (PlainError "queue evidence deadline expired")
  else
    match adapter with
    | None => sthrow (PlainError "queue evidence adapter unavailable")
    | Some read => call (ERead reader request) (read request timeoutMs)
    end.

(** [read(adapter, request, timeoutMs)]: null for whatever is not an answer in time. *)
Definition read_or_null (name : string) (adapter : option (Reader E)) (request : obj) (timeoutMs : Z) : SM (E := E) val :=
  if (timeoutMs =? 0)%Z then sret VNull
  else let! got := attempt (readQueueEvidence name adapter request timeoutMs) in
       sret (match got with Ok v => v | Throw _ => VNull end).

Definition lane_of (entry : obj) : val := get entry "lane".
Definition patience_deadline (entry : obj) : result val := member (get entry "patience") "deadline".

Definition readEntry_ (entryId : val) : SM (E := E) (option obj) :=
  let! r := look (fun t => readEntry (queue_of t) entryId) in slift r.
Definition assertFence_ (f : Fence) (now : val) : SM (E := E) unit :=
  let! r := look (fun t => assertFence (queue_of t) f now) in let! _ := slift r in sret tt.
Definition operations_ (lane : val) : SM (E := E) (list OpRow) :=
  let! l := slift (resolveLaneKey lane) in look (fun t => operations (queue_of t) l).

(** The entry a service is asked about, of the lane of the fence. *)
Definition own_entry (f : Fence) (entryId : val) (foreign : string) : SM (E := E) obj :=
  let! found := readEntry_ entryId in
  match found with
  | None => sthrow (PlainError foreign)
  | Some entry =>
      let! l := slift (resolveLaneKey (lane_val (f_lane f))) in
      if negb (deep_eq (get entry "lane") (lane_val l)) then sthrow (PlainError foreign) else sret entry
  end.

(** The words a service refuses a moved entry with. *)
Record Words := { superseded : string; undrained : string; release_deferred : string }.

(** [isDeepStrictEqual(store.readEntry(entry.entryId), entry)]. *)
Definition unmoved (entry : obj) : SM (E := E) bool :=
  let! found := readEntry_ (get entry "entryId") in
  sret (match found with Some e => deep_eq (VObj e) (VObj entry) | None => false end).

Definition current (words : Words) (entry : obj) (f : Fence) : SM (E := E) unit :=
  let! t := now in
  let! at_ := slift (queueTime (VStr t)) in
  let! _ := assertFence_ f (VStr at_) in
  let! same := unmoved entry in
  if negb same then sthrow (PlainError (superseded words))
  else
    let! ops := operations_ (lane_of entry) in
    if negb (Nat.eqb (length ops) 0) then sthrow (PlainError (undrained words)) else sret tt.

(** [progress] of a service: the entry is unmoved, the wait for the writer is
    bounded by the entry's patience, and the store takes the step. *)
Definition progress_of (words : Words) (entry : obj) (f : Fence) (phase : string) (reason : val) (patch : obj)
    (readmit : bool) : SM (E := E) obj :=
  let! _ := current words entry f in
  let! deadline := slift (patience_deadline entry) in
  let! _ := wait deadline in
  let! t := now in
  let! at_ := slift (queueTime (VStr t)) in
  on_queue (fun d => progress d f
    {| p_entryId := get entry "entryId"; p_phase := phase; p_patch := map_set patch "reason" reason; p_at := VStr at_;
       p_readmit := readmit; p_observation := VUndef; p_expected := Some entry |}).

(** [owner.release({ fence })] under the lane's lock, and the refusal of a service. *)
Definition owner_release (f : Fence) : SM (E := E) Reply :=
  let! l := slift (resolveLaneKey (lane_val (f_lane f))) in
  let! free := from_env (fun e => lock_is_free e l) in
  if negb free then sret (Refused (VStr "owner-operation-in-flight"))
  else
    let! t := now in
    on_queue (fun d =>
      match release true f (VStr t) {| db := d; calls := [] |} with
      | (Ok r, w) => Ok (r, db w)
      | (Throw e, _) => Throw e
      end).
Definition release_ (words : Words) (f : Fence) : SM (E := E) unit :=
  let! r := owner_release f in
  match r with Refused _ => sthrow (PlainError (release_deferred words)) | _ => sret tt end.

(** [owner.issue]: the parts of the owner's operation, with the mutation a computation. *)
Definition issue_ (f : Fence) (entryId operationId : val) (kind : string) (invoke : obj -> SM (E := E) val) : SM (E := E) Reply :=
  let! id := slift (queueId operationId) in
  if negb (str_in kind ["push"; "merge"]) then sthrow (TypeError "invalid mutation adapter")
  else
    let! l := slift (resolveLaneKey (lane_val (f_lane f))) in
    let! free := from_env (fun e => lock_is_free e l) in
    if negb free then sret (Refused (VStr "owner-operation-in-flight"))
    else
      let! t := now in
      let! at_ := slift (queueTime (VStr t)) in
      let! s := scaled 30000 in
      let! prepared := on_queue (prepare f l entryId id kind at_ s) in
      match op_result (fst prepared) with
      | Some res => sret (Settled true res)
      | None =>
          if negb (snd prepared) then sthrow (PlainError "operation requires reconciliation")
          else
            let! res := invoke (op_intent (fst prepared)) in
            let! _ := stx (
              let! t1 := now in
              let! at1 := slift (queueTime (VStr t1)) in
              let! _ := assertFence_ f (VStr at1) in
              let! t2 := now in
              let! at2 := slift (queueTime (VStr t2)) in
              on_queue (fun d => let* d := settle d l id res at2 in Ok (tt, d))) in
            sret (Settled false res)
      end.

(** ** Parked causes and their pages *)

(** [INSERT ... ON CONFLICT DO NOTHING] of a page. *)
Definition insert_page (key entryId : string) (payload : obj) (t : Tables) : Tables :=
  if some_b (fun p => String.eqb (cause_key p) key) (pages t) then t
  else with_pages t (pages t ++ [{| cause_key := key; page_entry := entryId; page_payload := VObj (norm_fields payload);
                                    page_receipt := None |}]).

Definition page_pending (entryId : val) (p : PageRow) : bool :=
  is_str entryId (page_entry p) && match page_receipt p with None => true | Some _ => false end.
Definition acknowledge_page (key : string) (receipt : val) (t : Tables) : Tables :=
  with_pages t (map (fun p =>
    if String.eqb (cause_key p) key && match page_receipt p with None => true | Some _ => false end
    then {| cause_key := cause_key p; page_entry := page_entry p; page_payload := page_payload p;
            page_receipt := Some (json_norm receipt) |}
    else p) (pages t)).

Fixpoint flush_rows (adapter : option (Reader E)) (rows : list PageRow) : SM (E := E) unit :=
  match rows with
  | [] => sret tt
  | row :: rows =>
      let! timeoutMs := wait_load 5000 30000 in
      let! got := attempt (readQueueEvidence "page" adapter [("payload", page_payload row)] timeoutMs) in
      let! _ := match got with
                | Ok receipt =>
                    if truthy (oget receipt "id")
                    then change (fun t => Ok (tt, acknowledge_page (cause_key row) receipt t)) else sret tt
                | Throw _ => sret tt
                end in
      flush_rows adapter rows
  end.
(** [flushPages(entryId)]. *)
Definition flushPages (adapter : option (Reader E)) (entryId : val) : SM (E := E) unit :=
  match adapter with
  | None => sret tt
  | Some _ =>
      let! rows := look (fun t => firstn 100 (filter_b (page_pending entryId) (pages t))) in
      flush_rows adapter rows
  end.

(** The infrastructure record of a parked cause. *)
Definition cause_of (dependency : string) (entry : obj) (reason : val) : obj :=
  [("dependency", VStr dependency); ("head", get entry "candidate"); ("base", get entry "exactBase"); ("reason", reason)].
Definition fields_or_empty (v : val) : obj := match v with VObj o => o | _ => [] end.
Definition infrastructure_of (entry cause : obj) (key parkedAt nextProbeAt : string) : val :=
  VObj (spread (fields_or_empty (get entry "infrastructure"))
         (cause ++ [("causeKey", VStr key); ("parkedAt", VStr parkedAt); ("nextProbeAt", VStr nextProbeAt);
                    ("recovered", VBool false)])).
Definition page_of (entry cause : obj) (key : string) (deadline : val) : obj :=
  cause ++ [("causeKey", VStr key); ("repo", oget (get entry "lane") "repository"); ("pr", get entry "prNumber");
            ("deadline", deadline)].

(** ** The derivation of a candidate (queue-rebase-proof.mjs) *)

(** The git adapter recomputes the proof of one hop. *)
Definition GitVerify : Type := obj -> External E.
Fixpoint verify_hops (git : GitVerify) (entry : obj) (deadline : val) (hops : list val) (head : val) : SM (E := E) bool :=
  match hops with
  | [] => sret true
  | hop :: hops =>
      let! old := slift (member hop "expectedOldHead") in
      let proof := oget hop "proof" in
      if negb (strict_eq old head) || negb (strict_eq (oget proof "oldHead") head)
         || negb (strict_eq (oget proof "candidate") (oget hop "candidate"))
         || negb (strict_eq (oget proof "exactBase") (oget hop "exactBase"))
      then sret false
      else
        let request := [("entry", VObj (spread entry (fields_or_empty hop))); ("deadline", deadline)] in
        let! again := call (EGit "verify" request) (git request) in
        if negb (truthy again) || negb (deep_eq again proof) then sret false
        else verify_hops git entry deadline hops (oget hop "candidate")
  end.
Definition verifyQueueDerivation (git : GitVerify) (entry : obj) (deadline : val) : SM (E := E) bool :=
  match coalesce (oget (get entry "rebase") "priorDerivations") (VArr []) with
  | VArr prior =>
      if Nat.ltb 256 (length prior) then sret false
      else verify_hops git entry deadline (prior ++ [VObj entry]) (get entry "head")
  | _ => sret false
  end.

(** The admission receipt and the digest of what was submitted. *)
Definition receipt_of (entry : obj) : SM (E := E) (option val) :=
  let! r := look (fun t => admission_receipt (receipts t) (VObj entry)) in slift r.
Definition submitted (receipt : val) : val := coalesce (oget receipt "input") (oget receipt "handoff").
End Steps.

(** ** Reasoning about what a computation adds to the trace *)

Definition not_mutation (ev : Event) : Prop := match ev with EMerge _ _ | EPush _ _ | EWriter _ _ _ => False | _ => True end.

Section Logic.
Context {hostDate : HostDate} {sqliteText : SqliteText} {sha256 : Sha256}.
Context {E : Type} {queueEnv : QueueEnv E}.
Abbreviation World := (World E).

(** The trace of [w'] continues that of [w] with events of the given kind. *)
Definition adds (P : list Event -> Prop) (w w' : World) : Prop := exists t, trace w' = trace w ++ t /\ P t.
Definition quietly (w w' : World) : Prop := adds (Forall not_mutation) w w'.

Lemma quietly_refl (w w' : World) : trace w' = trace w -> quietly w w'.
Proof. intros Et. exists []. rewrite app_nil_r. by split; [|constructor]. Qed.
Lemma quietly_trans (w1 w2 w3 : World) : quietly w1 w2 -> quietly w2 w3 -> quietly w1 w3.
Proof.
  intros (t & E1 & H1) (u & E2 & H2). exists (t ++ u). rewrite E2, E1, (assoc_L (++)). split; [done|]. by apply Forall_app.
Qed.
Lemma quietly_event (w w' : World) ev : trace w' = trace w ++ [ev] -> not_mutation ev -> quietly w w'.
Proof. intros Et Hn. exists [ev]. split; [done|]. by constructor. Qed.

(** A computation that calls no merge and no push, whatever its world. *)
Class Quiet {A} (m : SM (E := E) A) : Prop := quiet_run : forall w, quietly w (snd (m w)).

(** The postcondition of a run. *)
Definition wp {A} (m : SM A) (Q : result A -> World -> Prop) (w : World) : Prop := Q (fst (m w)) (snd (m w)).
Lemma wp_run {A} (m : SM A) Q w r w' : wp m Q w -> m w = (r, w') -> Q r w'.
Proof. unfold wp. intros Hw Hm. by rewrite Hm in Hw. Qed.
Lemma wp_bind {A B} (m : SM A) (f : A -> SM B) Q w :
  wp m (fun r w1 => match r with Ok a => wp (f a) Q w1 | Throw e => Q (Throw e) w1 end) w -> wp (sbind m f) Q w.
Proof. unfold wp, sbind. by destruct (m w) as [[a|e] w1]. Qed.
Lemma wp_mono {A} (m : SM A) (Q Q' : result A -> World -> Prop) w :
  (forall r w1, Q r w1 -> Q' r w1) -> wp m Q w -> wp m Q' w.
Proof. unfold wp. auto. Qed.
Lemma wp_quiet {A} (m : SM A) Q w :
  Quiet m -> (forall r w1, m w = (r, w1) -> quietly w w1 -> Q r w1) -> wp m Q w.
Proof. intros Hq HQ. unfold wp. apply HQ; [by destruct (m w) | apply Hq]. Qed.
Lemma wp_lift {A} (r : result A) Q w : Q r w -> wp (slift r) Q w.
Proof. done. Qed.
Lemma wp_ret {A} (a : A) Q w : Q (Ok a) w -> wp (sret a) Q w.
Proof. done. Qed.
Lemma wp_throw {A} (e : jserror) (Q : result A -> World -> Prop) w : Q (Throw e) w -> wp (sthrow e) Q w.
Proof. done. Qed.

(** What a run of a sequence did. *)
Lemma sbind_inv {A B} (m : SM A) (f : A -> SM B) (w : World) r w' :
  sbind m f w = (r, w') ->
  (exists a w1, m w = (Ok a, w1) /\ f a w1 = (r, w')) \/ (exists e, m w = (Throw e, w') /\ r = Throw e).
Proof.
  unfold sbind. destruct (m w) as [[a|e] w1]; intros Hr; [left; eauto|]. injection Hr as <- <-. right. eauto.
Qed.
Lemma sbind_Ok {A B} (m : SM A) (f : A -> SM B) (w : World) b w' :
  sbind m f w = (Ok b, w') -> exists a w1, m w = (Ok a, w1) /\ f a w1 = (Ok b, w').
Proof. intros [Hs|(e & _ & [=])]%sbind_inv. exact Hs. Qed.
Lemma member_oget v k x : member v k = Ok x -> x = oget v k.
Proof. unfold member. destruct (is_nullish v); [done|]. by intros [= <-]. Qed.
Lemma slift_Ok {A} (r : result A) (w : World) a w' : slift r w = (Ok a, w') -> r = Ok a /\ w' = w.
Proof. unfold slift. intros [= -> ->]. done. Qed.
Lemma sret_Ok {A} (x : A) (w : World) a w' : sret x w = (Ok a, w') -> x = a /\ w' = w.
Proof. unfold sret. intros [= -> ->]. done. Qed.
Lemma attempt_Ok {A} (m : SM A) (w : World) r w' : attempt m w = (Ok r, w') -> m w = (r, w').
Proof. unfold attempt. destruct (m w). congruence. Qed.

#[global] Instance sret_quiet {A} (a : A) : Quiet (sret a).
Proof. intros w. by apply quietly_refl. Qed.
#[global] Instance sthrow_quiet {A} e : Quiet (sthrow (A := A) e).
Proof. intros w. by apply quietly_refl. Qed.
#[global] Instance slift_quiet {A} (r : result A) : Quiet (slift r).
Proof. intros w. by apply quietly_refl. Qed.
#[global] Instance look_quiet {A} (f : Tables -> A) : Quiet (look f).
Proof. intros w. by apply quietly_refl. Qed.
#[global] Instance from_env_quiet {A} (f : E -> A * E) : Quiet (from_env f).
Proof. intros w. apply quietly_refl. unfold from_env. by destruct (f (env w)). Qed.
#[global] Instance change_quiet {A} (f : Tables -> result (A * Tables)) : Quiet (change f).
Proof. intros w. apply quietly_refl. unfold change. by destruct (f (tables w)) as [[a t]|]. Qed.
#[global] Instance on_queue_quiet {A} (f : Db -> result (A * Db)) : Quiet (on_queue f).
Proof. apply change_quiet. Qed.
#[global] Instance policy_quiet b : Quiet (log_event (EPolicy b)).
Proof. intros w. by eapply quietly_event. Qed.
#[global] Instance sbind_quiet {A B} (m : SM A) (f : A -> SM B) : Quiet m -> (forall a, Quiet (f a)) -> Quiet (sbind m f).
Proof.
  intros Hm Hf w. unfold sbind. specialize (Hm w). destruct (m w) as [[a|e] w1]; [|exact Hm].
  eapply quietly_trans; [exact Hm | apply Hf].
Qed.
#[global] Instance attempt_quiet {A} (m : SM A) : Quiet m -> Quiet (attempt m).
Proof. intros Hm w. unfold attempt. specialize (Hm w). by destruct (m w). Qed.
#[global] Instance stx_quiet {A} (m : SM A) : Quiet m -> Quiet (stx m).
Proof. intros Hm w. unfold stx. specialize (Hm w). destruct (m w) as [[a|e] w1]; [exact Hm|]. exact Hm. Qed.
Lemma call_quiet (ev : result val -> Event) (x : External E) : (forall r, not_mutation (ev r)) -> Quiet (call ev x).
Proof. intros Hn w. unfold call. destruct (x _ _) as [[r t] e]. eapply quietly_event; [done|]. apply Hn. Qed.
End Logic.

Section Runs.
Context {hostDate : HostDate} {sqliteText : SqliteText} {sha256 : Sha256}.
Context {E : Type} {queueEnv : QueueEnv E}.

(** A transaction rolls back what it throws on. *)
Lemma stx_inv {A} (m : SM A) (w : World E) r w' :
  stx m w = (r, w') -> match r with Ok a => m w = (Ok a, w') | Throw _ => tables w' = tables w end.
Proof. unfold stx. destruct (m w) as [[a|e] w1]; by intros [= <- <-]. Qed.
Lemma change_Ok {A} (f : Tables -> result (A * Tables)) (w : World E) a w' :
  change f w = (Ok a, w') -> f (tables w) = Ok (a, tables w').
Proof. unfold change. destruct (f (tables w)) as [[x t]|]; [|done]. by intros [= <- <-]. Qed.

(** A quiet step of a run, and a quiet rest. *)
Lemma wp_step {A B} (P : World E -> World E -> Prop) (m : SM A) (f : A -> SM B) w0 w :
  (forall w w', quietly w w' -> P w w') -> Quiet m -> quietly w0 w ->
  (forall a w1, m w = (Ok a, w1) -> quietly w0 w1 -> wp (f a) (fun _ w2 => P w0 w2) w1) ->
  wp (sbind m f) (fun _ w2 => P w0 w2) w.
Proof.
  intros HP Hq Q0 Hf. apply wp_bind, wp_quiet; [done|]. intros [a|err] w1 Hm Q1.
  - apply Hf; [done|]. by eapply quietly_trans.
  - apply HP. by eapply quietly_trans.
Qed.
Lemma wp_stop {A} (P : World E -> World E -> Prop) (m : SM A) w0 w :
  (forall w w', quietly w w' -> P w w') -> Quiet m -> quietly w0 w -> wp m (fun _ w2 => P w0 w2) w.
Proof. intros HP Hq Q0. apply wp_quiet; [done|]. intros. apply HP. by eapply quietly_trans. Qed.


Lemma call_inv (ev : result val -> Event) (x : External E) (w : World E) r w' :
  call ev x w = (r, w') -> trace w' = trace w ++ [ev r].
Proof. unfold call. destruct (x _ _) as [[a t] e]. by intros [= <- <-]. Qed.
Lemma read_evidence_Ok n (a : option (Reader E)) q ms (w : World E) v w1 :
  readQueueEvidence n a q ms w = (Ok v, w1) -> trace w1 = trace w ++ [ERead n q (Ok v)].
Proof. unfold readQueueEvidence. destruct (negb _); [done|]. destruct a as [x|]; [|done]. apply call_inv. Qed.
Lemma queueWaitMs_range s c dl t ms : queueWaitMs s c dl t = Ok ms -> (0 <= ms <= c)%Z.
Proof.
  unfold queueWaitMs. destruct (Z.leb_spec c 0); [done|].
  destruct dl as [d|]; [destruct (date_parse d); [|done]; destruct (date_parse t); [|done]|]; intros [= <-]; lia.
Qed.
Lemma wait_until_range n c d (w : World E) ms w1 : wait_until n c d w = (Ok ms, w1) -> (0 <= ms <= c)%Z.
Proof.
  intros (t & w2 & _ & Hw)%sbind_Ok. apply sbind_Ok in Hw as (s & w3 & _ & [Hq _]%slift_Ok).
  by eapply queueWaitMs_range.
Qed.

(** A release that is not refused leaves the lane idle. *)
Lemma release_reply f t q r q' : release true f t q = (Ok r, q') -> r = Done.
Proof.
  unfold release, locked. rewrite qbind_lift. destruct (resolveLaneKey _); [|done]. unfold tx.
  destruct (queueTime t); [|done]. cbn [rbind]. destruct (assertFence _ _ _); [|done]. cbn [rbind].
  destruct (Nat.eqb _ _); [|done]. destruct (append_owner _ _ _ _); [|done]. by intros [= <- <-].
Qed.
Definition lane_idle (f : Fence) (w : World E) : Prop :=
  exists l row, resolveLaneKey (lane_val (f_lane f)) = Ok l /\ lanes (queue_of (tables w)) !! lane_pk l = Some row
    /\ owner_state row = "idle".
Lemma release_frees ws f (w w' : World E) : release_ ws f w = (Ok tt, w') -> lane_idle f w'.
Proof.
  unfold release_, owner_release. intros (r & w1 & Hr & Hw)%sbind_Ok.
  apply sbind_Ok in Hr as (l & w2 & [Hl ->]%slift_Ok & Hr). apply sbind_Ok in Hr as (free & w3 & _ & Hr).
  destruct free; cbn [negb] in Hr; [|by apply sret_Ok in Hr as [<- _]].
  apply sbind_Ok in Hr as (t & w4 & _ & Hr). unfold on_queue in Hr. apply change_Ok in Hr.
  destruct (release true f (VStr t) _) as [[r0|] q] eqn:Eq; [|done]. cbn [rbind fst snd] in Hr.
  apply release_reply in Eq as Ed. subst r0. injection Hr as <- Et. apply sret_Ok in Hw as [_ ->].
  apply release_step in Eq as [_ Hq]. destruct (Hq eq_refl) as (at_ & row & l' & _ & _ & Hl' & _ & row' & Hrow & Hi).
  exists l', row'. split; [done|]. by rewrite <- Et.
Qed.

(** ** What a run read, in order *)

Lemma now_reads (w : World E) t w1 : now w = (Ok t, w1) -> t = fst (clock (env w)).
Proof. unfold now, from_env. destruct (clock (env w)). by intros [= -> _]. Qed.
Lemma quiet_run_of {A} (m : SM (E := E) A) (w : World E) r w' : Quiet m -> m w = (r, w') -> quietly w w'.
Proof. intros Hq Hm. specialize (Hq w). by rewrite Hm in Hq. Qed.

(** The answers read between two worlds, no mutation in between. *)
Fixpoint reads (l : list (string * val)) (w w' : World E) : Prop :=
  match l with
  | [] => quietly w w'
  | (n, v) :: l => exists w1 w2 q, quietly w w1 /\ trace w2 = trace w1 ++ [ERead n q (Ok v)] /\ reads l w2 w'
  end.
Lemma reads_before l (w w1 w' : World E) : quietly w w1 -> reads l w1 w' -> reads l w w'.
Proof.
  destruct l as [|[n v] l]; simpl; [apply quietly_trans|]. intros Q (w2 & w3 & q & Q2 & Ht & Hl).
  exists w2, w3, q. split; [by eapply quietly_trans | done].
Qed.
Lemma reads_after l (w w1 w' : World E) : reads l w w1 -> quietly w1 w' -> reads l w w'.
Proof.
  revert w. induction l as [|[n v] l IH]; simpl; intros w; [apply quietly_trans|].
  intros (w2 & w3 & q & Q2 & Ht & Hl) Q. exists w2, w3, q. auto.
Qed.
Lemma reads_app l k (w w1 w' : World E) : reads l w w1 -> reads k w1 w' -> reads (l ++ k) w w'.
Proof.
  revert w. induction l as [|[n v] l IH]; simpl; intros w; [apply reads_before|].
  intros (w2 & w3 & q & Q2 & Ht & Hl) Hk. exists w2, w3, q. auto.
Qed.
Lemma reads_single n q v (w w' : World E) : trace w' = trace w ++ [ERead n q (Ok v)] -> reads [(n, v)] w w'.
Proof. intros Ht. exists w, w', q. split; [by apply quietly_refl|]. split; [done|]. by apply quietly_refl. Qed.

Lemma read_or_null_answer n a q ms (w : World E) v w1 :
  read_or_null n a q ms w = (Ok v, w1) -> v = VNull \/ trace w1 = trace w ++ [ERead n q (Ok v)].
Proof.
  unfold read_or_null. destruct (ms =? 0)%Z; [intros [<- _]%sret_Ok; by left|].
  intros (got & w2 & Hm%attempt_Ok & [<- ->]%sret_Ok)%sbind_Ok. destruct got as [x|]; [right | by left].
  by apply read_evidence_Ok in Hm.
Qed.

Lemma sfinally_Ok {A B} (m : SM A) (g : SM B) (w : World E) a w' :
  sfinally m g w = (Ok a, w') -> exists w1 b, m w = (Ok a, w1) /\ g w1 = (Ok b, w').
Proof. unfold sfinally. destruct (m w) as [r w1] eqn:Em.
  destruct (g w1) as [[b|x] w2] eqn:Eg; [|done]. intros [= -> ->]. eauto.
Qed.

(** ** A run that mutates at most once *)

(** Nothing is called, or exactly the events [core] allows, quiet before and after. *)
Definition once (core : list Event -> Prop) (t : list Event) : Prop :=
  Forall not_mutation t
  \/ exists pre c post, t = pre ++ c ++ post /\ Forall not_mutation pre /\ Forall not_mutation post /\ core c.
Lemma once_quiet core (w w' : World E) : quietly w w' -> adds (once core) w w'.
Proof. intros (t & Et & Ht). exists t. split; [done | by left]. Qed.
Lemma once_after core (w w1 w2 : World E) : quietly w w1 -> adds (once core) w1 w2 -> adds (once core) w w2.
Proof.
  intros (t & E1 & Ht) (u & E2 & Hu). exists (t ++ u). rewrite E2, E1, (assoc_L (++)). split; [done|].
  destruct Hu as [Hu|(pre & c & post & -> & Hp & Hq & Hc)]; [left; by apply Forall_app|].
  right. exists (t ++ pre), c, post. rewrite (assoc_L (++)). split; [done|]. split; [by apply Forall_app | done].
Qed.
Lemma once_before core (w w1 w2 : World E) : adds (once core) w w1 -> quietly w1 w2 -> adds (once core) w w2.
Proof.
  intros (t & E1 & Ht) (u & E2 & Hu). exists (t ++ u). rewrite E2, E1, (assoc_L (++)). split; [done|].
  destruct Ht as [Ht|(pre & c & post & -> & Hp & Hq & Hc)]; [left; by apply Forall_app|].
  right. exists pre, c, (post ++ u). rewrite <- !(assoc_L (++)). split; [done|].
  split; [done|]. split; [by apply Forall_app | done].
Qed.
(** A quiet step before what mutates at most once, and a quiet rest. *)
Lemma wp_before {A B} core (m : SM A) (f : A -> SM B) (w0 w : World E) :
  Quiet m -> quietly w0 w ->
  (forall a w1, m w = (Ok a, w1) -> quietly w0 w1 -> wp (f a) (fun _ w2 => adds (once core) w0 w2) w1) ->
  wp (sbind m f) (fun _ w2 => adds (once core) w0 w2) w.
Proof. apply wp_step, once_quiet. Qed.
Lemma wp_end {A} core (m : SM A) (w0 w : World E) :
  Quiet m -> quietly w0 w -> wp m (fun _ w2 => adds (once core) w0 w2) w.
Proof. apply wp_stop, once_quiet. Qed.
End Runs.

(** Quiet by its shape: every branch is. *)
Ltac quiet :=
  repeat first
    [ progress intros
    | apply _
    | apply sbind_quiet
    | apply attempt_quiet
    | apply stx_quiet
    | apply call_quiet; intros ?; exact I
    | match goal with |- Quiet (match ?x with _ => _ end) => destruct x end ].

Section QuietSteps.
Context {hostDate : HostDate} {sqliteText : SqliteText} {sha256 : Sha256}.
Context {E : Type} {queueEnv : QueueEnv E}.

#[global] Instance now_quiet : Quiet (E := E) now.
Proof. unfold now. quiet. Qed.
#[global] Instance scaled_quiet n : Quiet (E := E) (scaled n).
Proof. unfold scaled. quiet. Qed.
#[global] Instance wait_load_quiet n c : Quiet (E := E) (wait_load n c).
Proof. unfold wait_load. quiet. Qed.
#[global] Instance wait_until_quiet n c d : Quiet (E := E) (wait_until n c d).
Proof. unfold wait_until. quiet. Qed.
#[global] Instance wait_quiet d : Quiet (E := E) (wait d).
Proof. unfold wait. quiet. Qed.
#[global] Instance read_evidence_quiet n (a : option (Reader E)) q ms : Quiet (readQueueEvidence n a q ms).
Proof. unfold readQueueEvidence. quiet. Qed.
#[global] Instance read_or_null_quiet n (a : option (Reader E)) q ms : Quiet (read_or_null n a q ms).
Proof. unfold read_or_null. quiet. Qed.
#[global] Instance readEntry_quiet i : Quiet (E := E) (readEntry_ i).
Proof. unfold readEntry_. quiet. Qed.
#[global] Instance own_entry_quiet f i m : Quiet (E := E) (own_entry f i m).
Proof. unfold own_entry. quiet. Qed.
#[global] Instance assertFence_quiet f t : Quiet (E := E) (assertFence_ f t).
Proof. unfold assertFence_. quiet. Qed.
#[global] Instance operations_quiet l : Quiet (E := E) (operations_ l).
Proof. unfold operations_. quiet. Qed.
#[global] Instance unmoved_quiet e : Quiet (E := E) (unmoved e).
Proof. unfold unmoved. quiet. Qed.
#[global] Instance current_quiet ws e f : Quiet (E := E) (current ws e f).
Proof. unfold current. quiet. Qed.
#[global] Instance progress_of_quiet ws e f p r u a : Quiet (E := E) (progress_of ws e f p r u a).
Proof. unfold progress_of. quiet. Qed.
#[global] Instance owner_release_quiet f : Quiet (E := E) (owner_release f).
Proof. unfold owner_release. quiet. Qed.
#[global] Instance release_quiet ws f : Quiet (E := E) (release_ ws f).
Proof. unfold release_. quiet. Qed.
#[global] Instance flush_rows_quiet (a : option (Reader E)) rows : Quiet (flush_rows a rows).
Proof. induction rows as [|row rows IH]; cbn [flush_rows]; quiet. Qed.
#[global] Instance flushPages_quiet (a : option (Reader E)) i : Quiet (flushPages a i).
Proof. unfold flushPages. quiet. Qed.
#[global] Instance verify_hops_quiet (g : GitVerify (E := E)) e d hops h : Quiet (verify_hops g e d hops h).
Proof. revert h. induction hops as [|hop hops IH]; intros h; cbn [verify_hops]; quiet. Qed.
#[global] Instance verify_quiet (g : GitVerify (E := E)) e d : Quiet (verifyQueueDerivation g e d).
Proof. unfold verifyQueueDerivation. quiet. Qed.
#[global] Instance receipt_of_quiet e : Quiet (E := E) (receipt_of e).
Proof. unfold receipt_of. quiet. Qed.
End QuietSteps.

(** ** Computations that leave the tables alone *)

Section Still.
Context {hostDate : HostDate} {sqliteText : SqliteText} {sha256 : Sha256}.
Context {E : Type} {queueEnv : QueueEnv E}.

Class Still {A} (m : SM (E := E) A) : Prop := still_run : forall w, tables (snd (m w)) = tables w.

#[global] Instance sret_still {A} (a : A) : Still (sret a).
Proof. done. Qed.
#[global] Instance sthrow_still {A} e : Still (sthrow (A := A) e).
Proof. done. Qed.
#[global] Instance slift_still {A} (r : result A) : Still (slift r).
Proof. done. Qed.
#[global] Instance look_still {A} (f : Tables -> A) : Still (look f).
Proof. done. Qed.
#[global] Instance from_env_still {A} (f : E -> A * E) : Still (from_env f).
Proof. intros w. unfold from_env. by destruct (f (env w)). Qed.
#[global] Instance log_still ev : Still (log_event ev).
Proof. done. Qed.
#[global] Instance sbind_still {A B} (m : SM A) (f : A -> SM B) : Still m -> (forall a, Still (f a)) -> Still (sbind m f).
Proof.
  intros Hm Hf w. unfold sbind. specialize (Hm w). destruct (m w) as [[a|e] w1]; [|exact Hm].
  transitivity (tables w1); [apply Hf | exact Hm].
Qed.
#[global] Instance attempt_still {A} (m : SM A) : Still m -> Still (attempt m).
Proof. intros Hm w. unfold attempt. specialize (Hm w). by destruct (m w). Qed.

Lemma still_tables {A} (m : SM A) w r w' : Still m -> m w = (r, w') -> tables w' = tables w.
Proof. intros Hs Hm. specialize (Hs w). by rewrite Hm in Hs. Qed.
(** ** Computations that leave the trace alone *)

Class Silent {A} (m : SM (E := E) A) : Prop := silent_run : forall w, trace (snd (m w)) = trace w.

#[global] Instance sret_silent {A} (a : A) : Silent (sret a).
Proof. done. Qed.
#[global] Instance sthrow_silent {A} e : Silent (sthrow (A := A) e).
Proof. done. Qed.
#[global] Instance slift_silent {A} (r : result A) : Silent (slift r).
Proof. done. Qed.
#[global] Instance look_silent {A} (f : Tables -> A) : Silent (look f).
Proof. done. Qed.
#[global] Instance from_env_silent {A} (f : E -> A * E) : Silent (from_env f).
Proof. intros w. unfold from_env. by destruct (f (env w)). Qed.
#[global] Instance change_silent {A} (f : Tables -> result (A * Tables)) : Silent (change f).
Proof. intros w. unfold change. by destruct (f (tables w)) as [[a t]|]. Qed.
#[global] Instance sbind_silent {A B} (m : SM A) (f : A -> SM B) : Silent m -> (forall a, Silent (f a)) -> Silent (sbind m f).
Proof.
  intros Hm Hf w. unfold sbind. specialize (Hm w). destruct (m w) as [[a|e] w1]; [|exact Hm].
  transitivity (trace w1); [apply Hf | exact Hm].
Qed.
#[global] Instance attempt_silent {A} (m : SM A) : Silent m -> Silent (attempt m).
Proof. intros Hm w. unfold attempt. specialize (Hm w). by destruct (m w). Qed.
Lemma silent_trace {A} (m : SM A) w r w' : Silent m -> m w = (r, w') -> trace w' = trace w.
Proof. intros Hs Hm. specialize (Hs w). by rewrite Hm in Hs. Qed.
End Still.

Ltac still :=
  repeat first
    [ progress intros
    | apply _
    | apply sbind_still
    | apply attempt_still
    | match goal with |- Still (match ?x with _ => _ end) => destruct x end ].

Ltac silent :=
  repeat first
    [ progress intros
    | apply _
    | apply sbind_silent
    | apply attempt_silent
    | match goal with |- Silent (match ?x with _ => _ end) => destruct x end ].

Section StillSteps.
Context {hostDate : HostDate} {sqliteText : SqliteText} {sha256 : Sha256}.
Context {E : Type} {queueEnv : QueueEnv E}.

#[global] Instance now_silent : Silent (E := E) now.
Proof. unfold now. silent. Qed.
#[global] Instance wait_until_silent n c d : Silent (E := E) (wait_until n c d).
Proof. unfold wait_until, scaled. silent. Qed.
#[global] Instance wait_silent d : Silent (E := E) (wait d).
Proof. unfold wait. silent. Qed.
#[global] Instance assertFence_silent f t : Silent (E := E) (assertFence_ f t).
Proof. unfold assertFence_. silent. Qed.
#[global] Instance readEntry_silent i : Silent (E := E) (readEntry_ i).
Proof. unfold readEntry_. silent. Qed.
#[global] Instance assertFence_still f t : Still (E := E) (assertFence_ f t).
Proof. unfold assertFence_. still. Qed.
#[global] Instance readEntry_still i : Still (E := E) (readEntry_ i).
Proof. unfold readEntry_. still. Qed.
#[global] Instance now_still : Still (E := E) now.
Proof. unfold now. still. Qed.
#[global] Instance wait_still d : Still (E := E) (wait d).
Proof. unfold wait, wait_until, scaled. still. Qed.
#[global] Instance current_still ws e f : Still (E := E) (current ws e f).
Proof. unfold current, assertFence_, unmoved, readEntry_, operations_. still. Qed.

Lemma progress_of_Ok ws entry f phase reason patch readmit (w : World E) e w' :
  progress_of ws entry f phase reason patch readmit w = (Ok e, w') ->
  exists at_ d, tables w' = with_queue (tables w) d
    /\ progress (queue_of (tables w)) f
         {| p_entryId := get entry "entryId"; p_phase := phase; p_patch := map_set patch "reason" reason; p_at := VStr at_;
            p_readmit := readmit; p_observation := VUndef; p_expected := Some entry |} = Ok (e, d).
Proof.
  unfold progress_of. intros ([] & w1 & H1 & Hp)%sbind_Ok. apply sbind_Ok in Hp as (dl & w2 & H2 & Hp).
  apply sbind_Ok in Hp as (ms & w3 & H3 & Hp). apply sbind_Ok in Hp as (t & w4 & H4 & Hp).
  apply sbind_Ok in Hp as (at_ & w5 & H5 & Hp). unfold on_queue in Hp. apply change_Ok in Hp.
  assert (Et : tables w5 = tables w).
  { etransitivity; [exact (still_tables _ _ _ _ _ H5)|]. etransitivity; [exact (still_tables _ _ _ _ _ H4)|].
    etransitivity; [exact (still_tables _ _ _ _ _ H3)|]. etransitivity; [exact (still_tables _ _ _ _ _ H2)|].
    exact (still_tables _ _ _ _ _ H1). }
  rewrite Et in Hp. apply rbind_Ok in Hp as ([x d] & Hp & [= <- Ew]). exists at_, d. done.
Qed.

(** ** The entry a step writes *)

Lemma map_set_other (m : obj) k v x : In x m -> fst x <> k -> In x (map_set m k v).
Proof.
  induction m as [|[k0 w] m IH]; [done|]. simpl. intros [<-|Hin] Hne; destruct (String.eqb k k0) eqn:Ek; simpl in *; auto.
  apply String.eqb_eq in Ek as ->. congruence.
Qed.
Lemma map_set_here (m : obj) k v : In (k, v) (map_set m k v).
Proof.
  induction m as [|[k0 w] m IH]; simpl; [auto|]. destruct (String.eqb k k0) eqn:Ek; simpl; auto.
  apply String.eqb_eq in Ek as ->. auto.
Qed.

Definition STAMPS : list string := ["phase"; "updatedAt"; "progressVersion"; "readinessSeq"].
Definition stamped (patch : obj) (phase at_ : string) (v : num) (seq : option Z) : obj :=
  let u := map_set (map_set (map_set patch "phase" (VStr phase)) "updatedAt" (VStr at_)) "progressVersion" (VNum v) in
  match seq with Some n => map_set u "readinessSeq" (VInt n) | None => u end.
Lemma stamped_writes patch phase at_ v seq :
  NoDup (map fst patch) ->
  let u := stamped patch phase at_ v seq in
  NoDup (map fst u) /\ In ("phase", VStr phase) u
  /\ (forall k w, In (k, w) patch -> ~ In k STAMPS -> In (k, w) u)
  /\ (forall k, ~ In k (map fst patch) -> ~ In k STAMPS -> ~ In k (map fst u)).
Proof.
  intros Hn. cbv zeta. unfold stamped, STAMPS. destruct seq as [n|]; repeat split.
  1, 5: by repeat apply map_set_NoDup.
  1, 4: repeat (apply map_set_other; [|done]); apply map_set_here.
  1, 3: intros k w Hin Hk; simpl in Hk; repeat (apply map_set_other; [|simpl; intuition congruence]); done.
  1, 2: intros k Hk Hs; simpl in Hs; rewrite !map_set_keys; intuition congruence.
Qed.

(** The entry a step of the store writes: the stored one with the patch and its stamps. *)
Lemma progress_writes d f p e d' :
  progress d f p = Ok (e, d') -> truthy (p_observation p) = false -> NoDup (map fst (p_patch p)) ->
  exists l id r, resolveLaneKey (lane_val (f_lane f)) = Ok l /\ p_entryId p = VStr id /\ row_of_id d id = Some r
    /\ operations d l = []
    /\ (forall x, p_expected p = Some x -> deep_eq (VObj (entry_payload r)) (VObj x) = true)
    /\ get e "phase" = VStr (p_phase p)
    /\ (forall k v, In (k, v) (p_patch p) -> ~ In k STAMPS -> get e k = v)
    /\ (forall k, ~ In k (map fst (p_patch p)) -> ~ In k STAMPS -> get e k = get (entry_payload r) k).
Proof.
  intros Hp Ho Hn. pose proof Hp as Hx.
  apply progress_inv in Hp as (at_ & ow & l & id & r & ph & pa & v & _ & _ & Hl & Hid & Hrow & _ & Hops & _ & _ & _ & Hpp & _ & _ & _ & Hc).
  destruct (Hpp Ho) as [-> ->]. exists l, id, r. do 4 (split; [done|]).
  unfold commit_progress in Hc. apply rbind_Ok in Hc as ([u d0] & Hb & Hc).
  assert (exists seq, u = stamped (p_patch p) (p_phase p) at_ v seq) as (seq & ->).
  { destruct (p_readmit p); [|exists None; by injection Hb as <- _].
    apply rbind_Ok in Hb as (l0 & _ & Hb). apply rbind_Ok in Hb as (b & _ & Hb). exists (Some b.1). by injection Hb as <- _. }
  apply rbind_Ok in Hc as (d1 & _ & Hc). apply rbind_Ok in Hc as ([? d2] & _ & [= <- <-]).
  destruct (stamped_writes (p_patch p) (p_phase p) at_ v seq Hn) as (Hnu & Hph & Hin & Hout).
  split; [|split; [|split]].
  - intros x Hxp. unfold progress in Hx. apply rbind_Ok in Hx as (? & _ & Hx).
    destruct (str_in _ _); [|done]. destruct (every_b _ _); [|done]. apply rbind_Ok in Hx as (? & _ & Hx).
    apply rbind_Ok in Hx as (found & Hf & Hx). apply rbind_Ok in Hx as (l' & _ & Hx). destruct found as [e0|]; [|done].
    apply readEntry_Some in Hf as (i & r0 & Ei & _ & Hr0 & <-). rewrite Ei in Hx.
    assert (i = id) as -> by congruence. assert (r0 = r) as -> by congruence.
    destruct (lane_json_is _ _); [|done]. rewrite Hxp in Hx. by destruct (deep_eq _ _).
  - by apply get_spread_in.
  - intros k w Hk Hs. apply get_spread_in; auto.
  - intros k Hk Hs. apply get_spread_other. auto.
Qed.

(** A field of an entry is that of another it was compared with. *)
Definition same_field (o p : obj) (k : string) : Prop := get o k = VUndef \/ deep_eq (get o k) (get p k) = true.

Lemma deep_eq_field o p k : deep_eq (VObj o) (VObj p) = true -> same_field o p k.
Proof.
  intros [_ Hf]%deep_eq_obj. unfold same_field, get. destruct (map_get o k) as [v|] eqn:Eo; [right | by left].
  rewrite Forall_forall in Hf. destruct (Hf (k, v)) as (x & Hx & Hd); [by apply list_elem_of_In, map_get_In|].
  simpl in Hx. by rewrite Hx.
Qed.
Lemma own_entry_Ok f i m (w : World E) entry w1 :
  own_entry f i m w = (Ok entry, w1) -> readEntry (queue_of (tables w)) i = Ok (Some entry) /\ quietly w w1.
Proof.
  intros Hr. apply quiet_run_of in Hr as Q; [|apply _]. split; [|done]. unfold own_entry in Hr.
  apply sbind_Ok in Hr as (found & w2 & Hf & Hr). destruct found as [x|]; [|done].
  apply sbind_Ok in Hr as (l & w3 & _ & Hr). destruct (negb _); [done|]. apply sret_Ok in Hr as [<- _].
  unfold readEntry_ in Hf. apply sbind_Ok in Hf as (r & w4 & Hl & [Hf _]%slift_Ok). injection Hl as <- _. done.
Qed.

(** ** A service that mutates at most once *)

(** A run is quiet, or runs the one mutation of [D] with its events [core]. *)
Section MutatesOnce.
Context {D : Type} (ok : D -> Prop) (core : D -> list Event -> Prop).

Definition mutates_once (w w' : World E) : Prop := quietly w w' \/ exists x, ok x /\ adds (once (core x)) w w'.
Lemma mutates_quiet (w w' : World E) : quietly w w' -> mutates_once w w'.
Proof. by left. Qed.
Lemma mutates_then (w0 w1 w2 : World E) : mutates_once w0 w1 -> quietly w1 w2 -> mutates_once w0 w2.
Proof.
  intros [Q|(x & Hx & Ha)] Q1; [left; by eapply quietly_trans|]. right. exists x. split; [done|]. by eapply once_before.
Qed.
Lemma mutates_bind {A B} (m : SM A) (k : A -> SM B) (w0 w : World E) :
  wp m (fun _ w1 => mutates_once w0 w1) w -> (forall a, Quiet (k a)) ->
  wp (sbind m k) (fun _ w2 => mutates_once w0 w2) w.
Proof.
  intros Hm Hk. apply wp_bind. eapply wp_mono; [|exact Hm]. intros [a|err] w1 Hr; [|done].
  apply wp_quiet; [done|]. intros. by eapply mutates_then.
Qed.
Lemma wp_next {A B} (m : SM A) (k : A -> SM B) (w0 w : World E) :
  Quiet m -> quietly w0 w ->
  (forall a w1, m w = (Ok a, w1) -> quietly w0 w1 -> wp (k a) (fun _ w2 => mutates_once w0 w2) w1) ->
  wp (sbind m k) (fun _ w2 => mutates_once w0 w2) w.
Proof. apply wp_step, mutates_quiet. Qed.
Lemma wp_halt {A} (m : SM A) (w0 w : World E) :
  Quiet m -> quietly w0 w -> wp m (fun _ w2 => mutates_once w0 w2) w.
Proof. apply wp_stop, mutates_quiet. Qed.

(** The intent of a mutation was journalled, fresh and alone on its lane. *)
Definition journalled_as (f : Fence) (entryId : val) (kind id : string) : Prop :=
  exists l at_ s d d' o, prepare f l entryId id kind at_ s d = Ok ((o, true), d').

(** An issue mutates at most once, on the journalled intent, when its mutation does. *)
Lemma wp_issue f entryId kind opId (invoke : obj -> SM val) x (w0 w : World E) :
  quietly w0 w -> (journalled_as f entryId kind opId -> ok x) ->
  (forall intent w1, quietly w0 w1 -> wp (invoke intent) (fun _ w2 => adds (once (core x)) w0 w2) w1) ->
  wp (issue_ f entryId (VStr opId) kind invoke) (fun _ w2 => mutates_once w0 w2) w.
Proof.
  intros Q0 Hok Hinv. unfold issue_. apply wp_next; [quiet|done|]. intros id w1 [Hid ->]%slift_Ok Q1.
  destruct (negb (str_in _ _)); [apply wp_halt; [quiet|done]|].
  apply wp_next; [quiet|done|]. intros l w2 _ Q2. apply wp_next; [quiet|done|]. intros free w3 _ Q3.
  destruct (negb free); [apply wp_halt; [quiet|done]|].
  apply wp_next; [quiet|done|]. intros t w4 _ Q4. apply wp_next; [quiet|done|]. intros at_ w5 _ Q5.
  apply wp_next; [quiet|done|]. intros s w6 _ Q6. apply wp_next; [quiet|done|]. intros [o fresh] w7 Hp Q7. cbn [fst snd].
  destruct (op_result o); [apply wp_halt; [quiet|done]|]. destruct fresh; cbn [negb]; [|apply wp_halt; [quiet|done]].
  assert (id = opId) as ->.
  { unfold queueId in Hid. destruct opId as [|a s0]; [discriminate|]. destruct (_ && _); [|discriminate]. by injection Hid as <-. }
  assert (Hj : journalled_as f entryId kind opId).
  { unfold on_queue, change in Hp. destruct (prepare _ _ _ _ _ _ _ _) as [[[o' b'] d']|] eqn:Epr; [|discriminate].
    cbn [rbind fst snd] in Hp. injection Hp as -> -> _. exists l, at_, s, (queue_of (tables w6)), d', o. exact Epr. }
  apply mutates_bind; [|intros a; quiet].
  eapply wp_mono; [|apply Hinv; exact Q7]. intros r w8 Ha. right. exists x. auto.
Qed.
End MutatesOnce.
End StillSteps.

(** ** The issue of a service is the owner's *)

Section IssueRefines.
Context {hostDate : HostDate} {sqliteText : SqliteText} {sha256 : Sha256}.
Context {E : Type} {queueEnv : QueueEnv E}.

(** A mutation run in the environment of [w], as an awaited call of the owner. *)
Definition as_external (invoke : obj -> SM (E := E) val) (w : World E) (intent : obj) : QExternal :=
  fun d => let x := invoke intent {| tables := with_queue (tables w) d; env := env w; trace := trace w |} in
           (fst x, queue_of (tables (snd x))).

Definition owner_world (w : World E) (c : list QCall) : QWorld := {| db := queue_of (tables w); calls := c |}.

Lemma on_queue_run {A} (g : Db -> result (A * Db)) (w : World E) :
  on_queue g w = match g (queue_of (tables w)) with
                 | Ok (a, d) => (Ok a, {| tables := with_queue (tables w) d; env := env w; trace := trace w |})
                 | Throw e => (Throw e, w)
                 end.
Proof. unfold on_queue, change. by destruct (g _) as [[a d]|]. Qed.

(** The settling transaction, at the clock readings it made. *)
Lemma settle_run f l id res (w : World E) :
  exists n1 n2 r w',
    stx (let! t1 := now in let! at1 := slift (queueTime (VStr t1)) in let! _ := assertFence_ f (VStr at1) in
         let! t2 := now in let! at2 := slift (queueTime (VStr t2)) in
         on_queue (fun d => let* d := settle d l id res at2 in Ok (tt, d))) w = (r, w')
    /\ forall c, tx (fun d => let* at1 := queueTime n1 in let* _ := assertFence d f (VStr at1) in
                    let* at2 := queueTime n2 in let* d := settle d l id res at2 in Ok (tt, d)) (owner_world w c)
       = (r, owner_world w' c).
Proof.
  unfold stx, now, assertFence_, from_env, look, slift, sret. unfold sbind at 1. destruct (clock (env w)) as [t1 e1]. cbn.
  exists (VStr t1), (VStr (fst (clock e1))). unfold tx, owner_world. cbn [db calls].
  unfold sbind. cbn. destruct (match date_parse t1 with Some _ => _ | None => _ end) as [at1|x]; [|by do 2 eexists].
  cbn. destruct (assertFence _ f (VStr at1)) as [row|x]; [|by do 2 eexists]. cbn.
  destruct (clock e1) as [t2 e2]. cbn. destruct (match date_parse t2 with Some _ => _ | None => _ end) as [at2|x]; [|by do 2 eexists].
  rewrite on_queue_run. cbn. destruct (settle _ l id res at2) as [d|x]; by do 2 eexists.
Qed.

(** The owner's operation once the intent is prepared, its mutation run from [w1]. *)
Lemma owner_issue_run f entryId operationId kind invoke (w w1 : World E) id l t0 at_ s o fresh n1 n2 :
  queueId operationId = Ok id -> negb (str_in kind ["push"; "merge"]) = false ->
  resolveLaneKey (lane_val (f_lane f)) = Ok l -> queueTime t0 = Ok at_ ->
  prepare f l entryId id kind at_ s (queue_of (tables w)) = Ok ((o, fresh), queue_of (tables w1)) ->
  with_queue (tables w1) (queue_of (tables w1)) = tables w1 ->
  issue true f entryId operationId kind (as_external invoke w1) s t0 n1 n2 (owner_world w [])
  = match op_result o with
    | Some res => (Ok (Settled true res), owner_world w1 [])
    | None =>
        if negb fresh then (Throw (PlainError "operation requires reconciliation"), owner_world w1 [])
        else match invoke (op_intent o) w1 with
             | (Throw e, w2) => (Throw e, owner_world w2 [CInvoke (op_intent o)])
             | (Ok res, w2) =>
                 match tx (fun d => let* at1 := queueTime n1 in let* _ := assertFence d f (VStr at1) in
                     let* at2 := queueTime n2 in let* d := settle d l id res at2 in Ok (tt, d))
                   (owner_world w2 [CInvoke (op_intent o)]) with
                 | (Ok _, q) => (Ok (Settled false res), q)
                 | (Throw e, q) => (Throw e, q)
                 end
             end
    end.
Proof.
  intros Eid Ek El Et Ep Hw. unfold issue, locked, qbind, qlift. rewrite Eid, Ek, El, Et.
  unfold tx at 1, owner_world at 1. cbn [db calls]. rewrite Ep. destruct (op_result o); [done|]. destruct fresh; [|done].
  cbn [negb]. unfold await_call, as_external. cbn [db calls]. rewrite Hw.
  replace {| tables := tables w1; env := env w1; trace := trace w1 |} with w1 by by destruct w1.
  by destruct (invoke (op_intent o) w1) as [[res|e] w2].
Qed.

End IssueRefines.

(** ** Concrete inputs *)

#[local] Existing Instance ex_host.
#[local] Existing Instance ex_text.
#[local] Existing Instance length_digest.
(** A clock that stands still, waits that are not scaled, a lock that is free. *)
Definition still_env : QueueEnv unit := {|
  clock := fun e => ("2026-10-23T00:01:00.000Z", e); load_scaled := fun e n => (n, e); lock_is_free := fun e _ => (true, e) |}.
#[local] Existing Instance still_env.

Definition ex_base : string := repeat_char "c" 40.
Definition ex_qlane : Lane := {| repository := "example/review"; base := "main" |}.
Definition ex_qfence : Fence := {| f_lane := ex_qlane; f_owner := "o1"; f_generation := 1; f_route := 0 |}.
Definition ex_qowner : LaneRow := {|
  generation := 1; route_generation := 0; owner_id := Some "o1"; owner_state := "active";
  owner_acquired := Some "2026-10-23T00:00:00.000Z"; heartbeat_at := Some "2026-10-23T00:00:00.000Z";
  expires_at := Some "2026-10-23T02:00:00.000Z"; owner_reason := None; readiness_seq := 0 |}.
Definition ex_routed : Db :=
  set_lanes (initial {[ lane_pk ex_qlane := {| route_executor := "queue-v2"; in_transition := false |} ]})
    {[ lane_pk ex_qlane := ex_qowner ]}.
Definition ex_admitted : ReceiptDb :=
  receipts_after (commit {| queue := ex_routed; handoff_rows := []; clean_rows := [] |} ex_handoff ex_evidence None 5000 1800000
    (VStr "2026-10-23T00:00:00Z") (VStr "2026-10-23T00:00:00Z")).

Definition ex_entry_id : val :=
  match entry_rows (queue ex_admitted) with r :: _ => VStr (entry_id r) | [] => VUndef end.
Definition ex_proof : val :=
  VObj [("kind", VStr "queue-ordered-binary-v1"); ("noop", VBool true); ("oldHead", VStr ex_head);
        ("candidate", VStr ex_head); ("exactBase", VStr ex_base); ("digest", VStr "p1")].
Definition ex_published : obj :=
  [("candidate", VStr ex_head); ("expectedOldHead", VStr ex_head); ("exactBase", VStr ex_base); ("proof", ex_proof);
   ("rebase", VObj [("sourceReceiptDigest", match handoffDigest (canon ex_handoff) with Ok d => VStr d | Throw _ => VUndef end);
                    ("publication", VObj [("head", VStr ex_head); ("base", VStr ex_base); ("sourceRef", VStr "push:1")])])].
Definition ex_step (d : Db) (phase : string) (patch : obj) : Db :=
  match progress d ex_qfence {| p_entryId := ex_entry_id; p_phase := phase; p_patch := patch; p_at := VStr "2026-10-23T00:00:30Z";
                                p_readmit := false; p_observation := VUndef; p_expected := None |} with
  | Ok (_, d) => d
  | Throw _ => d
  end.
Definition ex_final_queue : Db :=
  fold_left (fun d pp => ex_step d (fst pp) (snd pp))
    [("ready", []); ("rebasing", []); ("publishing", ex_published); ("waiting-checks", []); ("finalizing", [])] (queue ex_admitted).
Definition ex_tables : Tables := {|
  receipts := {| queue := ex_final_queue; handoff_rows := handoff_rows ex_admitted; clean_rows := [] |};
  ledger := empty_table; pages := []; merges := []; outbox := []; routing := no_routing |}.
Definition ex_world : World unit := {| tables := ex_tables; env := tt; trace := [] |}.
Definition answers (v : val) : External unit := fun t e => (Ok v, t, e).

Definition ex_live_subject (state : string) : list (string * val) :=
  [("sourceRef", VStr "live:1"); ("lane", ex_handoff_lane); ("prNumber", VInt 101); ("state", VStr state);
   ("head", VStr ex_head); ("baseSha", VStr ex_base); ("labels", VArr [])].
Definition ex_open : val :=
  VObj [("subject", VObj (ex_live_subject "open"));
        ("identity", VObj [("ok", VBool true); ("sourceRef", VStr "id:1")]);
        ("permission", VObj [("sourceRef", VStr "perm:1"); ("canPush", VBool true)]);
        ("structuralSourceRef", VStr "rules:1");
        ("eligibility", VObj [("mergeable", VStr "MERGEABLE"); ("mergeStateStatus", VStr "CLEAN");
           ("requiredGateContext", VStr "gate"); ("branchProtectionRequiredContexts", VArr [VStr "gate"]);
           ("primaryChange", VObj [("headSha", VStr ex_head)])])].
Definition ex_green : val :=
  VObj [("complete", VBool true); ("head", VStr ex_head); ("base", VStr ex_base);
        ("requiredSet", VObj [("version", VStr "v1"); ("contexts", VArr [VStr "build"])]);
        ("results", VArr [VObj [("name", VStr "build"); ("status", VStr "COMPLETED"); ("conclusion", VStr "SUCCESS");
                                ("head", VStr ex_head); ("startedAt", VStr "2026-10-23T00:00:00Z")]])].

Definition ex_world_after (steps : list (string * obj)) : World unit := {|
  tables := {| receipts := {| queue := fold_left (fun d pp => ex_step d (fst pp) (snd pp)) steps (queue ex_admitted);
                              handoff_rows := handoff_rows ex_admitted; clean_rows := [] |};
               ledger := empty_table; pages := []; merges := []; outbox := []; routing := no_routing |};
  env := tt; trace := [] |}.

Definition ex_issue : result Reply * World unit :=
  issue_ ex_qfence ex_entry_id (VStr "merge:1") "merge"
    (fun _ => sret (VObj [("outcome", VStr "succeeded"); ("sourceRef", VStr "merge:1")])) ex_world.
Example issue_settles :
  (fst ex_issue, length (filter_b (fun o => match op_result o with Some _ => true | None => false end)
                   (op_rows (queue_of (tables (snd ex_issue))))))
  = (Ok (Settled false (VObj [("outcome", VStr "succeeded"); ("sourceRef", VStr "merge:1")])), 1%nat).
Proof. vm_compute. reflexivity. Qed.

Lemma ex_issue_pair :
  issue_ ex_qfence ex_entry_id (VStr "merge:1") "merge"
    (fun _ => sret (VObj [("outcome", VStr "succeeded"); ("sourceRef", VStr "merge:1")])) ex_world = (fst ex_issue, snd ex_issue).
Proof. unfold ex_issue. by destruct (issue_ _ _ _ _ _ _). Qed.
