(* ===== verification/QueueMerge.v ===== *)
(** * The merge service of the queue (queue-merge.mjs, queue-delivery.mjs)

    Final eligibility, the guarded squash merge under the lane's fence, its
    reconciliation, the durable receipt and the outbox of its deliveries. *)

From Stdlib Require Import ZArith Lia Ascii SpecFloat.
From stdpp Require Import base list strings gmap.
From S2P Require Import Prelude JsNum JsValue JsDate LedgerEvents LedgerFold LedgerStore.
From S2P Require Import CheckRollup OperatorEvidence MergeEligibility QueueLane QueueStore QueueOwner QueueAdmission QueueHandoff HandoffStore QueueService.

Section Merge.
Context {hostDate : HostDate} {sqliteText : SqliteText} {sha256 : Sha256}.
(** The primary-change check of the structural predicate. *)
Variable checkPrimaryChange : val -> val -> val -> result val.

(** ** Reconciliation of one merge *)

Definition queueMergeSubject (entry : obj) : val :=
  VObj [("domainId", VStr "code-pr");
        ("subjectExternalId", VStr (to_str (oget (get entry "lane") "repository") +:+ "#" +:+ to_str (get entry "prNumber")))].

(** [new Date(v).toISOString()]. *)
Definition new_date_iso (v : val) : result string :=
  match v with
  | VNum n => date_to_iso n
  | VBool b => date_to_iso (to_num (VBool b))
  | VNull => date_to_iso (num_of_Z 0)
  | VUndef => Throw (RangeError "Invalid time value")
  | _ => match date_parse (to_str v) with
         | Some t => date_to_iso (num_of_Z t)
         | None => Throw (RangeError "Invalid time value")
         end
  end.
Definition date_readable (v : val) : bool := match date_parse (to_str v) with Some _ => true | None => false end.

Definition disposition_val (phase : string) (reason : val) : val := VObj [("phase", VStr phase); ("reason", reason)].
Definition not_applied_of (s : val) (phase reason : string) : val :=
  VObj [("outcome", VStr "not-applied"); ("sourceRef", oget s "sourceRef"); ("reason", VStr reason);
        ("disposition", disposition_val phase (VStr reason))].

(** [reconcileQueueMergeObservation(entry, observation, { bot, reportedSha, drained })]: a
    result, or null while the outcome is ambiguous. *)
Definition reconcileQueueMergeObservation (entry : obj) (observation bot reportedSha : val) (drained : bool) : result val :=
  let s := oget observation "subject" in
  if negb (text (oget s "sourceRef") && deep_eq (oget s "lane") (get entry "lane")
           && strict_eq (oget s "prNumber") (get entry "prNumber")) then Ok VNull
  else if is_str (oget s "state") "merged" then
    if negb (sameSha (oget s "head") (get entry "candidate"))
    then Ok (not_applied_of s "closed-observed" "merged-head-mismatch")
    else if negb (sha (oget s "mergeCommitSha")) || negb (date_readable (oget s "mergedAt"))
            || (negb (strict_eq reportedSha VNull) && negb (sameSha reportedSha (oget s "mergeCommitSha")))
    then Ok VNull
    else if negb (text (oget s "mergedBy")) || negb (text (oget bot "login"))
            || negb (strict_eq (oget s "mergedBy") (oget bot "login"))
    then Ok (not_applied_of s "closed-observed" "merged-by-other-actor")
    else
      let* at_ := new_date_iso (oget s "mergedAt") in
      Ok (VObj [("outcome", VStr "succeeded"); ("sourceRef", oget s "sourceRef");
                ("mergeSha", VStr (to_lower (to_str (oget s "mergeCommitSha")))); ("mergedAt", VStr at_);
                ("mergedBy", oget s "mergedBy")])
  else if is_str (oget s "state") "closed" then Ok (not_applied_of s "closed-observed" "live-closed")
  else if negb (is_str (oget s "state") "open") then Ok VNull
  else if negb (sameSha (oget s "head") (get entry "candidate"))
  then Ok (not_applied_of s "returned-to-closer" "external-head-change")
  else if drained
  then Ok (VObj [("outcome", VStr "not-applied"); ("sourceRef", oget s "sourceRef"); ("reason", VStr "merge-refused");
                 ("disposition", VNull)])
  else Ok VNull.

(** ** Settled merges *)

Definition mergeOperationId (entry : obj) : result string :=
  let* d := handoffDigest (VArr [get entry "entryId"; get entry "candidate"; get entry "exactBase"; get entry "progressVersion"]) in
  Ok ("merge:" +:+ d).

Definition settled_rows (d : Db) (entry : obj) : list OpRow :=
  filter_b (fun o => strict_eq (get (op_intent o) "candidate") (get entry "candidate"))
    (rev (filter_b (fun o => is_str (get entry "entryId") (op_entry o) && String.eqb (op_kind o) "merge"
                             && match op_result o with Some _ => true | None => false end) (op_rows d))).
Definition result_of (o : OpRow) : val := match op_result o with Some v => v | None => VUndef end.
Definition still_owed (id : string) (o : OpRow) : bool :=
  String.eqb (operation_id o) id && negb (val_in (oget (result_of o) "reason") ["superseded"; "merge-already-settled"]).
Definition settledMerge (d : Db) (entry : obj) : result (option OpRow) :=
  let rows := settled_rows d entry in
  match find_b (fun o => is_str (oget (result_of o) "outcome") "succeeded") rows, rows with
  | Some o, _ => Ok (Some o)
  | None, [] => Ok None
  | None, _ => let* id := mergeOperationId entry in Ok (find_b (still_owed id) rows)
  end.

(** ** The last look *)

(** [lifecycle(entry, receipt, live)]: null when the live subject may be merged. *)
Definition lifecycle (entry : obj) (receipt live : val) : result (option Disposition) :=
  let s := oget live "subject" in
  if negb (text (oget s "sourceRef") && deep_eq (oget s "lane") (get entry "lane")
           && strict_eq (oget s "prNumber") (get entry "prNumber"))
  then Ok (Some (disposition "parked-infrastructure" "final-observation-unavailable"))
  else if val_in (oget s "state") ["closed"; "merged"]
  then Ok (Some (disposition "closed-observed" ("live-" +:+ to_str (oget s "state"))))
  else if negb (is_str (oget s "state") "open")
  then Ok (Some (disposition "parked-infrastructure" "final-observation-unavailable"))
  else if negb (sameSha (oget s "head") (get entry "candidate"))
  then Ok (Some (disposition "returned-to-closer" "external-head-change"))
  else if negb (sameSha (oget s "baseSha") (get entry "exactBase"))
          || is_str (oget (oget live "eligibility") "mergeStateStatus") "BEHIND"
  then Ok (Some (disposition "rebasing" "external-base-change"))
  else
    let derivation := if sameSha (get entry "candidate") (get entry "head") then VNull
                      else VObj [("head", get entry "candidate")] in
    let* admission := classifyQueueAdmission checkPrimaryChange (VObj entry) receipt live derivation in
    Ok (if String.eqb (d_phase admission) "ready" then None else Some admission).

(** What the final evaluation says: the phase the entry takes, and the persisted
    decision when it may be finalized. *)
Record MergeVerdict := {
  v_phase : string;
  v_reason : val;
  v_checks : option val;
  v_decision : obj;
  v_receipt : val;
  v_ledger_count : nat
}.
Definition verdict_of (phase : string) (reason : val) (checks : option val) : MergeVerdict :=
  {| v_phase := phase; v_reason := reason; v_checks := checks; v_decision := []; v_receipt := VNull; v_ledger_count := 0 |}.
Definition stop (phase reason : string) : MergeVerdict := verdict_of phase (VStr reason) None.
Definition of_disposition (d : Disposition) : MergeVerdict := verdict_of (d_phase d) (d_reason d) None.

Definition PRODUCERS : list string := ["closer-hammer"; "ama-daemon"].
Definition releasing (phase : string) : bool := negb (str_in phase ["rebasing"; "waiting-checks"; "finalizing"]).

(** ** The service *)

Context {E : Type} {queueEnv : QueueEnv E}.
Abbreviation M := (SM (E := E)).

(** The surfaces composed into the service. *)
Record MergeConfig := {
  liveAdapter : option (Reader E);
  checkReader : option (Reader E);
  gitVerify : GitVerify (E := E);
  (** [identitySurface.check], absent without the surface *)
  identityCheck : option (Reader E);
  (** [mergeSurface.merge], with its name *)
  mergeSurface : obj -> External E;
  mergeSurfaceName : val;
  (** the policy, or what reading it throws *)
  policy : E -> result val * E;
  deliveryAdapters : jsmap (Reader E);
  pageAdapter : option (Reader E)
}.
Variable cfg : MergeConfig.

Definition MERGE_WORDS : Words := {|
  superseded := "merge observation superseded"; undrained := "merge requires drained operation reconciliation";
  release_deferred := "merge-lane-release-deferred" |}.

(** [brake()]: an unreadable policy is engaged. *)
Definition brake : M bool :=
  let! p := from_env (policy cfg) in
  let b := match p with Ok v => is_true (oget v "autonomousExecutionDisabled") | Throw _ => true end in
  let! _ := log_event (EPolicy b) in sret b.

Definition merge_progress (entry : obj) (f : Fence) (phase : string) (reason : val) (patch : obj) : M obj :=
  progress_of MERGE_WORDS entry f phase reason patch false.

Definition park_dependency (reason : val) : string :=
  if includes "identity" (to_str reason) then "identity" else if includes "git" (to_str reason) then "git" else "merge".
Definition park (entry : obj) (f : Fence) (reason : val) : M val :=
  let cause := cause_of (park_dependency reason) entry reason in
  let! key := slift (handoffDigest (VArr [get entry "entryId"; VObj cause])) in
  let! parked := stx (
    let! t1 := now in
    let! t2 := now in
    let! probe := slift (later t2 60000) in
    let! result := merge_progress entry f "parked-infrastructure" reason
      [("decision", VNull); ("infrastructure", infrastructure_of entry cause key t1 probe)] in
    let! deadline := slift (patience_deadline entry) in
    let! _ := change (fun t => Ok (tt, insert_page key (to_str (get entry "entryId")) (page_of entry cause key deadline) t)) in
    sret result) in
  let! _ := release_ MERGE_WORDS f in
  let! _ := flushPages (pageAdapter cfg) (get entry "entryId") in
  sret (VObj parked).

Definition dispose (entry : obj) (f : Fence) (phase : string) (reason : val) (checks : option val) : M val :=
  if String.eqb phase "parked-infrastructure" then park entry f reason
  else
    let patch := if String.eqb phase "rebasing" then [("checks", VNull); ("decision", VNull)]
                 else ("decision", VNull) :: match checks with Some c => [("checks", c)] | None => [] end in
    let! result := merge_progress entry f phase reason patch in
    let! _ := (if releasing phase then release_ MERGE_WORDS f else sret tt) in
    sret (VObj result).

Definition read_ledger (entry : obj) : M LedgerState :=
  let! events := look (fun t => LedgerStore.read (ledger t) (queueMergeSubject entry)) in
  let! events := slift events in
  sret (fold events).

(** [checkIdentityAttestation(identitySurface, ctx)] of a surface that is there. *)
Definition identity_val (r : result val) : val :=
  match r with
  | Ok v =>
      if is_true (oget v "ok") then VObj (spread [("ok", VBool true)] (fields_or_empty v))
      else VObj [("ok", VBool false); ("reason", or_else (oget v "reason") (VStr "identity/attestation check denied"));
                 ("surfaceError", VBool false)]
  | Throw _ => VObj [("ok", VBool false); ("surfaceError", VBool true)]
  end.
Definition read_identity (entry : obj) (deadline : val) : M val :=
  match identityCheck cfg with
  | None => sret VNull
  | Some check =>
      let! ms := wait deadline in
      if (ms =? 0)%Z then sret VNull
      else
        let! got := attempt (readQueueEvidence "identity" (Some check)
          [("subjectKey", queueMergeSubject entry); ("revisionRef", get entry "candidate");
           ("decision", VObj [("kind", VStr "finalize-now")])] ms) in
        sret (identity_val got)
  end.

(** The decision that is persisted before the merge. *)
Definition decision_of (entry : obj) (receipt live checks identity : val) (checksReason version receiptDigest : val)
    (at_ : string) (count : nat) : obj :=
  let s := oget live "subject" in
  [("kind", VStr "eligible"); ("at", VStr at_); ("head", get entry "candidate"); ("base", get entry "exactBase");
   ("liveSourceRef", oget s "sourceRef"); ("labels", VArr (map label_name (array_or_empty (oget s "labels"))));
   ("holds", VStr "none"); ("checksReason", checksReason); ("requiredSetVersion", version);
   ("structuralSourceRef", oget live "structuralSourceRef");
   ("primaryChange", coalesce (oget (oget live "eligibility") "primaryChange") VNull);
   ("proofDigest", coalesce (oget (get entry "proof") "digest") VNull); ("receiptDigest", receiptDigest);
   ("admissionKind", oget receipt "kind"); ("subjectLedgerEventCount", VInt (Z.of_nat count));
   ("executionOwnership", VStr "lane-fence-replaces-merge-lease");
   ("attribution", VObj [
      ("bot", VObj [("login", oget identity "login"); ("producerClass", oget identity "producerClass");
                    ("sourceRef", oget identity "sourceRef")]);
      ("closer", coalesce (oget (oget receipt "handoff") "closer") VNull);
      ("worker", coalesce (oget (submitted receipt) "worker") VNull)])].

(** The checks of the candidate: classified when they were read for it completely. *)
Definition final_checks (entry : obj) (checks : val) : string * val :=
  if strict_eq (oget checks "head") (get entry "candidate") && strict_eq (oget checks "base") (get entry "exactBase")
     && is_true (oget checks "complete")
  then let c := classifyQueueChecks checks in (cd_kind c, VStr (cd_reason c))
  else ("wait", coalesce (oget checks "reason") (VStr "checks-unreadable")).

Definition usable_identity (identity : val) : bool :=
  is_true (oget identity "ok") && text (oget identity "login") && val_in (oget identity "producerClass") PRODUCERS
  && text (oget identity "sourceRef").

(** The rest of [evaluate], once the live subject, its derivation and its receipt hold. *)
Definition evaluate_checks (entry : obj) (receipt live receiptDigest deadline : val) (count : nat) : M MergeVerdict :=
  let! ms := wait deadline in
  let! checks := read_or_null "checks" (checkReader cfg) [("entry", VObj entry); ("deadline", deadline)] ms in
  let '(kind, reason) := final_checks entry checks in
  if String.eqb kind "red" then sret (verdict_of "returned-to-closer" reason (Some checks))
  else if negb (String.eqb kind "green") then sret (verdict_of "waiting-checks" reason (Some (coalesce checks VNull)))
  else
    let! identity := read_identity entry deadline in
    if negb (usable_identity identity) then sret (stop "parked-infrastructure" "merge-identity-unavailable")
    else
      let! t := now in
      let! version := slift (member (oget checks "requiredSet") "version") in
      let decision := decision_of entry receipt live checks identity reason version receiptDigest t count in
      let! d := slift (handoffDigest (json_norm (VObj decision))) in
      sret {| v_phase := "finalizing"; v_reason := VUndef; v_checks := Some checks;
              v_decision := decision ++ [("id", VStr ("decision:" +:+ d))]; v_receipt := receipt; v_ledger_count := count |}.

Definition evaluate (entry : obj) (deadline : val) : M MergeVerdict :=
  let! braked := brake in
  if braked then sret (stop "parked-hold" "autonomous-execution-disabled")
  else
    let! state := read_ledger entry in
    match terminal state with
    | Some _ => sret (stop "parked-hold" "subject-ledger-terminal")
    | None =>
        let! got := attempt (receipt_of entry) in
        match got with
        | Throw _ | Ok None => sret (stop "parked-infrastructure" "admission-receipt-unavailable")
        | Ok (Some receipt) =>
            let! d := slift (handoffDigest (submitted receipt)) in
            let rebase := get entry "rebase" in
            let publication := oget rebase "publication" in
            if negb (truthy publication) || negb (strict_eq (oget publication "head") (get entry "candidate"))
               || negb (strict_eq (oget publication "base") (get entry "exactBase"))
               || negb (is_str (oget rebase "sourceReceiptDigest") d)
            then sret (stop "returned-to-closer" "disposition-currency-changed")
            else
              let! ms := wait deadline in
              let! live := read_or_null "live" (liveAdapter cfg) [("entry", VObj entry); ("kind", VStr "final-merge")] ms in
              let! changed := slift (lifecycle entry receipt live) in
              match changed with
              | Some c => sret (of_disposition c)
              | None =>
                  let! proof := attempt (verifyQueueDerivation (gitVerify cfg) entry deadline) in
                  match proof with
                  | Throw _ => sret (stop "parked-infrastructure" "rebase-git-unavailable")
                  | Ok false => sret (stop "returned-to-closer" "persisted-rebase-proof-unavailable")
                  | Ok true => evaluate_checks entry receipt live (VStr d) deadline (eventCount state)
                  end
              end
        end
    end.

(** ** The guarded merge *)

Definition merge_not_applied (reason disposition observation : val) : val :=
  VObj [("outcome", VStr "not-applied"); ("sourceRef", VStr "queue:merge-not-invoked"); ("reason", reason);
        ("disposition", disposition); ("observation", observation)].
Definition held_by (phase reason : string) : val := disposition_val phase (VStr reason).
Definition brake_hold (observation : val) : val :=
  merge_not_applied (VStr "autonomous-execution-disabled") (held_by "parked-hold" "autonomous-execution-disabled") observation.

(** [current(entry, fence)] with the new intent itself the only open operation. *)
Definition still_current (entry : obj) (f : Fence) : M bool :=
  let! got := attempt (current MERGE_WORDS entry f) in
  match got with
  | Ok _ => sret true
  | Throw e =>
      if negb (String.eqb (error_message e) (undrained MERGE_WORDS)) then sret false
      else
        let! t := now in
        let! at_ := slift (queueTime (VStr t)) in
        let! _ := assertFence_ f (VStr at_) in
        unmoved entry
  end.

Definition first_sha (l : list val) : val := match find_b sha l with Some v => v | None => VNull end.
Definition reported_sha (response : val) : val :=
  let payload := if is_true (oget response "ok") then coalesce (oget response "payload") (VObj []) else VObj [] in
  first_sha [oget payload "sha"; oget payload "mergeCommitSha"; oget (oget payload "data") "sha"].

Definition millis (v : val) : Z := match v with VNum n => default 0%Z (num_to_Z n) | _ => 0%Z end.
Definition merge_request (entry : obj) (timeoutMs : Z) : obj :=
  [("subjectKey", queueMergeSubject entry); ("subjectExternalId", oget (queueMergeSubject entry) "subjectExternalId");
   ("revisionRef", get entry "candidate"); ("mergeMethod", VStr "squash"); ("timeoutMs", VInt timeoutMs)].

(** What follows the call: an explicit refusal, or the authoritative observation. *)
Definition after_merge_call (entry : obj) (v : MergeVerdict) (last : val) (response : result val) : M val :=
  let answer := match response with Ok r => r | Throw _ => VNull end in
  if is_ok response && is_false (oget answer "ok")
     && val_in (oget answer "reason") ["adapter-unavailable"; "unsupported-subject"; "no-revision"]
  then sret (merge_not_applied (VStr "merge-surface-unavailable")
               (held_by "parked-infrastructure" "merge-surface-unavailable") last)
  else
    let drained := is_ok response && is_false (oget answer "ok") && is_str (oget answer "reason") "merge-refused" in
    let! ms := wait_load 5000 30000 in
    let! observed := read_or_null "live" (liveAdapter cfg) [("entry", VObj entry); ("kind", VStr "merge-reconcile")] ms in
    let! result := slift (reconcileQueueMergeObservation entry observed
                            (oget (oget (VObj (v_decision v)) "attribution") "bot") (reported_sha answer) drained) in
    if negb (truthy result) then sthrow (PlainError "merge-requires-drain-reconciliation")
    else
      sret (VObj (spread (fields_or_empty result)
        [("observation", observed);
         ("response", VObj [("ok", VBool (is_true (oget answer "ok")));
            ("reason", if is_ok response then coalesce (oget answer "reason") VNull else VStr "surface-threw");
            ("via", coalesce (mergeSurfaceName cfg) VNull)])])).

(** The last live read, the brake and the budget, then the call. *)
Definition merge_under_lock (entry : obj) (v : MergeVerdict) (intent : obj) : M val :=
  let! deadline := slift (patience_deadline entry) in
  let! ms := wait deadline in
  let! last := read_or_null "live" (liveAdapter cfg) [("entry", VObj entry); ("kind", VStr "merge-preflight")] ms in
  let! changed := slift (lifecycle entry (v_receipt v) last) in
  match changed with
  | Some c => sret (merge_not_applied (d_reason c) (disposition_val (d_phase c) (d_reason c)) last)
  | None =>
      let! braked := brake in
      if braked then sret (brake_hold last)
      else
        let! ms := wait_until 30000 60000 deadline in
        let timeoutMs := Z.min (millis (get intent "timeoutMs")) ms in
        if (timeoutMs =? 0)%Z
        then sret (merge_not_applied (VStr "merge-deadline-expired")
                     (held_by "parked-infrastructure" "merge-deadline-expired") last)
        else
          let request := merge_request entry timeoutMs in
          let! response := attempt (call (EMerge request) (mergeSurface cfg request)) in
          after_merge_call entry v last response
  end.

Definition invokeMerge (entry : obj) (f : Fence) (v : MergeVerdict) (intent : obj) : M val :=
  let! braked := brake in
  if braked then sret (brake_hold VNull)
  else
    let! ok := still_current entry f in
    if negb ok then sret (merge_not_applied (VStr "superseded") VNull VNull)
    else
      let! settled := look (fun t => settledMerge (queue_of t) entry) in
      let! settled := slift settled in
      if match settled with Some o => is_str (oget (result_of o) "outcome") "succeeded" | None => false end
      then sret (merge_not_applied (VStr "merge-already-settled") VNull VNull)
      else
        let! state := read_ledger entry in
        if match terminal state with Some _ => true | None => false end
           || negb (Nat.eqb (eventCount state) (v_ledger_count v))
        then sret (merge_not_applied (VStr "subject-ledger-moved") (held_by "parked-hold" "subject-ledger-moved") VNull)
        else merge_under_lock entry v intent.

(** ** The receipt and its deliveries *)

Record Delivery := { x_kind : string; x_key : string; x_payload : val }.
(** [queueDeliveryPayloads(receipt)] of queue-delivery.mjs. *)
Definition queueDeliveryPayloads (receipt : val) : list Delivery :=
  let merge := oget receipt "merge" in
  let base := [("repo", oget (oget receipt "lane") "repository"); ("prNumber", oget receipt "prNumber");
               ("headSha", oget receipt "newHead")] in
  let key kind := "delivery:" +:+ kind +:+ ":" +:+ to_str (oget receipt "entryId") +:+ ":" +:+ to_str (oget merge "mergeSha") in
  [{| x_kind := "merge-action-receipt"; x_key := key "merge-action-receipt";
      x_payload := VObj (base ++ [("merged", VBool true); ("executedAt", oget merge "mergedAt");
        ("producerClass", oget (oget (oget receipt "attribution") "bot") "producerClass");
        ("action", VStr "gh pr merge"); ("deliveryKey", VStr (key "merge-action-receipt"))]) |};
   {| x_kind := "closure-audit"; x_key := key "closure-audit";
      x_payload := VObj (base ++ [("now", oget merge "mergedAt");
        ("metadata", VObj [("closureAuthority", VStr "merge-queue-v2")]);
        ("attempt", VObj [("outcome", VStr "succeeded"); ("deliveryKey", VStr (key "closure-audit"));
           ("attemptPhase", VStr "queue-squash-merge"); ("reviewedHead", oget receipt "oldHead");
           ("validatedHead", oget receipt "newHead"); ("rebasedOntoBase", oget receipt "base");
           ("mergeMethod", oget merge "method"); ("mergeCommitSha", oget merge "mergeSha");
           ("mergedAt", oget merge "mergedAt"); ("mergedBy", oget merge "mergedBy");
           ("receiptDigest", oget receipt "digest"); ("queueEntryId", oget receipt "entryId")])]) |}].

Definition owner_of (f : Fence) : val :=
  VObj [("ownerId", VStr (f_owner f)); ("generation", VInt (f_generation f)); ("routeGeneration", VInt (f_route f))].
Definition derivation_hops (entry : obj) : val :=
  VInt (Z.of_nat (length (array_or_empty (oget (get entry "rebase") "priorDerivations"))) + 1).
(** The receipt of a merge that succeeded, before its digest. *)
Definition receipt_body (entry : obj) (f : Fence) (operationId : string) (result : val) : val :=
  let proof := coalesce (get entry "proof") (VObj []) in
  let decision := get entry "decision" in
  let rebase := get entry "rebase" in
  let field k := coalesce (oget proof k) VNull in
  json_norm (VObj
    [("schemaVersion", VInt 1); ("entryId", get entry "entryId"); ("lane", get entry "lane");
     ("prNumber", get entry "prNumber"); ("handoffId", get entry "handoffId"); ("ackId", get entry "ackId");
     ("admissionKind", oget decision "admissionKind"); ("oldHead", get entry "head");
     ("expectedOldHead", get entry "expectedOldHead"); ("newHead", get entry "candidate"); ("base", get entry "exactBase");
     ("rebase", VObj [("sourceReceiptDigest", oget rebase "sourceReceiptDigest"); ("publication", oget rebase "publication");
        ("proof", VObj [("kind", field "kind"); ("noop", field "noop"); ("digest", field "digest"); ("fork", field "fork");
                        ("replayedCommits", coalesce (oget proof "replayedCommits") (VArr []))]);
        ("derivationHops", derivation_hops entry)]);
     ("checks", get entry "checks"); ("decision", decision);
     ("merge", VObj [("operationId", VStr operationId); ("method", VStr "squash"); ("mergeSha", oget result "mergeSha");
        ("mergedAt", oget result "mergedAt"); ("mergedBy", oget result "mergedBy"); ("sourceRef", oget result "sourceRef");
        ("via", coalesce (oget (oget result "response") "via") VNull)]);
     ("attribution", oget decision "attribution"); ("owner", owner_of f)]).

Definition insert_merge (row : MergeRow) (t : Tables) : result (unit * Tables) :=
  if some_b (fun o => String.eqb (merge_entry o) (merge_entry row) || String.eqb (merge_operation o) (merge_operation row)) (merges t)
  then Throw unique_error else Ok (tt, with_merges t (merges t ++ [row])).
Definition insert_delivery (entryId : string) (d : Delivery) (t : Tables) : result (unit * Tables) :=
  if some_b (fun o => String.eqb (delivery_key o) (x_key d)
                      || String.eqb (delivery_entry o) entryId && String.eqb (delivery_kind o) (x_kind d)) (outbox t)
  then Throw unique_error
  else Ok (tt, with_outbox t (outbox t ++ [{| delivery_key := x_key d; delivery_entry := entryId; delivery_kind := x_kind d;
         delivery_payload := json_norm (x_payload d); attempts := 0; last_error := None; delivery_receipt := None |}])).
Fixpoint insert_deliveries (entryId : string) (ds : list Delivery) : M unit :=
  match ds with
  | [] => sret tt
  | d :: ds => let! _ := change (insert_delivery entryId d) in insert_deliveries entryId ds
  end.

(** [fold(...).finalized?.revisionRef === candidate]. *)
Definition finalized_at (state : LedgerState) (candidate : val) : bool :=
  match finalizedMark state with Some (TFinalized rev _ _) => strict_eq rev candidate | _ => strict_eq VUndef candidate end.
Definition mark_finalized (entry : obj) (mergeSha : val) : M unit :=
  let! state := read_ledger entry in
  if finalized_at state (get entry "candidate") then sret tt
  else
    let! t := now in
    let! at_ := slift (queueTime (VStr t)) in
    let! event := slift (finalized (queueMergeSubject entry)
      [("at", VStr at_); ("revisionRef", get entry "candidate"); ("method", VStr "squash");
       ("sourceRef", VStr ("github:merge:" +:+ to_str mergeSha))]) in
    change (fun t => let* x := LedgerStore.append (ledger t) event in Ok (tt, with_ledger t (snd x))).

(** The transaction of a merge that succeeded. *)
Definition record_txn (entry : obj) (f : Fence) (operationId : string) (result receipt : val) (digest : string) : M obj :=
  let deliveries := queueDeliveryPayloads receipt in
  let entryId := to_str (get entry "entryId") in
  stx (
    let! next := merge_progress entry f "merged" (VStr "squash-merge-reconciled")
      [("merge", oget receipt "merge");
       ("delivery", VObj [("receiptDigest", VStr digest); ("keys", VArr (map (fun d => VStr (x_key d)) deliveries))])] in
    let! _ := change (insert_merge {| merge_entry := entryId;
        merge_lane := (to_str (oget (get entry "lane") "repository"), to_str (oget (get entry "lane") "base"));
        merge_pr := get entry "prNumber"; merge_candidate := get entry "candidate"; merge_sha := oget result "mergeSha";
        merge_operation := operationId; merge_digest := digest; merge_receipt := receipt |}) in
    let! _ := insert_deliveries entryId deliveries in
    let! _ := mark_finalized entry (oget result "mergeSha") in
    sret next).

(** ** The outbox *)

(** [/^[a-z0-9-]{1,80}$/]. *)
Definition plain_code (s : string) : bool :=
  all_chars (fun a => in_range 48 57 a || in_range 97 122 a || Ascii.eqb a "-") s
  && Nat.leb 1 (String.length s) && Nat.leb (String.length s) 80.
Definition attempted (key : string) (error : option string) (receipt : option val) (t : Tables) : Tables :=
  with_outbox t (map (fun d =>
    if String.eqb (delivery_key d) key
    then {| delivery_key := delivery_key d; delivery_entry := delivery_entry d; delivery_kind := delivery_kind d;
            delivery_payload := delivery_payload d; attempts := attempts d + 1; last_error := error;
            delivery_receipt := match delivery_receipt d with Some r => Some r | None => receipt end |}
    else d) (outbox t)).
Definition pending_delivery (entryId : val) (d : DeliveryRow) : bool :=
  match delivery_receipt d with None => true | Some _ => false end
  && (negb (truthy entryId) || is_str entryId (delivery_entry d)).

Definition deliver_row (row : DeliveryRow) : M bool :=
  let! got := (match map_get (deliveryAdapters cfg) (delivery_kind row) with
               | None => sret (Throw (PlainError "delivery-adapter-unavailable"))
               | Some a =>
                   attempt (
                     let! ms := wait_load 5000 30000 in
                     readQueueEvidence "delivery" (Some a)
                       [("key", VStr (delivery_key row)); ("kind", VStr (delivery_kind row)); ("payload", delivery_payload row)] ms)
               end) in
  let receipt := match got with Ok v => v | Throw _ => VNull end in
  let error := match got with
               | Ok _ => "delivery-adapter-unavailable"
               | Throw e => if plain_code (error_message e) then error_message e else "delivery-failed"
               end in
  let delivered := is_str (oget receipt "id") (delivery_key row) && text (oget receipt "sourceRef") in
  if delivered then
    let! t := now in
    let! _ := change (fun w => Ok (tt, attempted (delivery_key row) None
      (Some (json_norm (VObj [("id", oget receipt "id"); ("sourceRef", oget receipt "sourceRef"); ("at", VStr t)]))) w)) in
    sret true
  else
    let! _ := change (fun w => Ok (tt, attempted (delivery_key row)
      (Some (if truthy receipt then "delivery-receipt-invalid" else error)) None w)) in
    sret false.
Fixpoint deliver_rows (rows : list DeliveryRow) (delivered pending : Z) : M (Z * Z) :=
  match rows with
  | [] => sret (delivered, pending)
  | row :: rows =>
      let! ok := deliver_row row in
      if ok then deliver_rows rows (delivered + 1) pending else deliver_rows rows delivered (pending + 1)
  end.
(** [deliver({ entryId, limit })]. *)
Definition deliver (entryId : val) (limit : Z) : M (Z * Z) :=
  let! rows := look (fun t => firstn (Z.to_nat (Z.min (Z.max 1 limit) 100)) (filter_b (pending_delivery entryId) (outbox t))) in
  deliver_rows rows 0 0.

(** ** Finalization *)

Definition record (entry : obj) (f : Fence) (operationId : string) (result : val) : M val :=
  let decision := get entry "decision" in
  if negb (is_str (oget decision "kind") "eligible" && strict_eq (oget decision "head") (get entry "candidate"))
  then sthrow (PlainError "merge receipt requires the persisted final decision")
  else
    let! _ := slift (member (get entry "rebase") "publication") in
    let! bot := slift (member (oget decision "attribution") "bot") in
    let! _ := slift (member bot "producerClass") in
    let body := receipt_body entry f operationId result in
    let! digest := slift (handoffDigest body) in
    let receipt := VObj (fields_or_empty body ++ [("digest", VStr digest)]) in
    let! merged := record_txn entry f operationId result receipt digest in
    let! _ := release_ MERGE_WORDS f in
    let! _ := deliver (get entry "entryId") 100 in
    sret (VObj merged).

Definition entry_val (e : option obj) : val := match e with Some o => VObj o | None => VNull end.
Definition apply_result (entry : obj) (f : Fence) (operationId : string) (result : val) : M val :=
  if is_str (oget result "outcome") "succeeded" then record entry f operationId result
  else if val_in (oget result "reason") ["superseded"; "merge-already-settled"]
  then let! found := readEntry_ (get entry "entryId") in sret (entry_val found)
  else
    let disposition := oget result "disposition" in
    if truthy disposition
    then dispose entry f (to_str (oget disposition "phase")) (oget disposition "reason")
           (match oget disposition "checks" with VUndef => None | c => Some c end)
    else park entry f (coalesce (oget result "reason") (VStr "merge-not-applied")).

Definition past_now (deadline : val) : M bool := let! t := now in sret (past t deadline).

(** The decision is persisted, the intent journalled, the merge issued. *)
Definition issue_merge (entry : obj) (f : Fence) (entryId : val) (v : MergeVerdict) : M val :=
  let! entry := merge_progress entry f "finalizing" (VStr "final-eligibility-validated")
    [("decision", VObj (v_decision v)); ("checks", match v_checks v with Some c => c | None => VUndef end)] in
  let! operationId := slift (mergeOperationId entry) in
  let! issued := issue_ f entryId (VStr operationId) "merge" (invokeMerge entry f v) in
  match issued with
  | Settled _ result => apply_result entry f operationId result
  | _ => let! found := readEntry_ entryId in sret (entry_val found)
  end.

Definition finalize_fresh (entry : obj) (f : Fence) (entryId : val) : M val :=
  let! deadline := slift (patience_deadline entry) in
  let! expired := past_now deadline in
  if expired then park entry f (VStr "merge-deadline-expired")
  else
    let! v := evaluate entry deadline in
    let! _ := current MERGE_WORDS entry f in
    let! expired := (if str_in (v_phase v) ["finalizing"; "waiting-checks"] then past_now deadline else sret false) in
    if expired then park entry f (VStr "merge-deadline-expired")
    else if negb (String.eqb (v_phase v) "finalizing") then dispose entry f (v_phase v) (v_reason v) (v_checks v)
    else issue_merge entry f entryId v.

(** [finalize({ fence, entryId })]. *)
Definition finalize (f : Fence) (entryId : val) : M val :=
  let! found := readEntry_ entryId in
  match found with
  | None => sthrow (PlainError "foreign merge entry")
  | Some entry =>
      let! l := slift (resolveLaneKey (lane_val (f_lane f))) in
      if negb (deep_eq (get entry "lane") (lane_val l)) then sthrow (PlainError "foreign merge entry")
      else if is_str (get entry "phase") "merged" then
        let! _ := deliver entryId 100 in
        let! again := readEntry_ entryId in sret (entry_val again)
      else
        let! t := now in
        let! at_ := slift (queueTime (VStr t)) in
        let! _ := assertFence_ f (VStr at_) in
        if negb (is_str (get entry "phase") "finalizing") then sthrow (PlainError "merge requires a finalizing candidate")
        else
          let! ops := operations_ (lane_of entry) in
          if negb (Nat.eqb (length ops) 0) then sret (VObj entry)
          else
            let! settled := look (fun t => settledMerge (queue_of t) entry) in
            let! settled := slift settled in
            match settled with
            | Some o => apply_result entry f (operation_id o) (result_of o)
            | None => finalize_fresh entry f entryId
            end
  end.

(** [observeQueueMergeOperation]: for the recovery of an owner, once the prior
    execution is stopped and drained. It reads and never merges. *)
Definition observeQueueMergeOperation (intent : obj) : M val :=
  let! found := readEntry_ (get intent "entryId") in
  match found with
  | None => sret VNull
  | Some entry =>
      let bot := oget (oget (get entry "decision") "attribution") "bot" in
      if negb (is_str (get intent "kind") "merge") || negb (truthy bot) then sret VNull
      else
        let pinned := map_set entry "candidate" (get intent "candidate") in
        let! ms := wait_load 5000 30000 in
        let! observation := readQueueEvidence "live" (liveAdapter cfg)
          [("entry", VObj pinned); ("kind", VStr "merge-reconcile")] ms in
        let! result := slift (reconcileQueueMergeObservation pinned observation bot VNull true) in
        sret (match result with VObj o => VObj (spread o [("observation", observation)]) | _ => result end)
  end.
End Merge.

(** ** The merge surface is called once, on a last look *)

Section MergeFacts.
Context {hostDate : HostDate} {sqliteText : SqliteText} {sha256 : Sha256}.
Context (checkPrimaryChange : val -> val -> val -> result val).
Context {E : Type} {queueEnv : QueueEnv E}.
Context (cfg : MergeConfig (E := E)).

#[global] Instance brake_quiet : Quiet (brake cfg).
Proof. unfold brake. quiet. Qed.
#[global] Instance merge_progress_quiet e f p r u : Quiet (E := E) (merge_progress e f p r u).
Proof. unfold merge_progress. quiet. Qed.
#[global] Instance park_quiet e f r : Quiet (park cfg e f r).
Proof. unfold park. quiet. Qed.
#[global] Instance dispose_quiet e f p r c : Quiet (dispose cfg e f p r c).
Proof. unfold dispose. quiet. Qed.
#[global] Instance read_ledger_quiet e : Quiet (E := E) (read_ledger e).
Proof. unfold read_ledger. quiet. Qed.
#[global] Instance read_identity_quiet e d : Quiet (read_identity cfg e d).
Proof. unfold read_identity. quiet. Qed.
#[global] Instance evaluate_checks_quiet e r l d dl n : Quiet (evaluate_checks cfg e r l d dl n).
Proof. unfold evaluate_checks. quiet. Qed.
#[global] Instance evaluate_quiet e d : Quiet (evaluate checkPrimaryChange cfg e d).
Proof. unfold evaluate. quiet. Qed.
#[global] Instance still_current_quiet e f : Quiet (E := E) (still_current e f).
Proof. unfold still_current. quiet. Qed.
#[global] Instance after_merge_call_quiet e v l r : Quiet (after_merge_call cfg e v l r).
Proof. unfold after_merge_call. quiet. Qed.
#[global] Instance insert_deliveries_quiet i ds : Quiet (E := E) (insert_deliveries i ds).
Proof. induction ds as [|d ds IH]; cbn [insert_deliveries]; quiet. Qed.
#[global] Instance mark_finalized_quiet e s : Quiet (E := E) (mark_finalized e s).
Proof. unfold mark_finalized. quiet. Qed.
#[global] Instance record_txn_quiet e f o r x d : Quiet (E := E) (record_txn e f o r x d).
Proof. unfold record_txn. quiet. Qed.
#[global] Instance deliver_row_quiet r : Quiet (deliver_row cfg r).
Proof. unfold deliver_row. quiet. Qed.
#[global] Instance deliver_rows_quiet rs a b : Quiet (deliver_rows cfg rs a b).
Proof. revert a b. induction rs as [|r rs IH]; intros a b; cbn [deliver_rows]; quiet. Qed.
#[global] Instance deliver_quiet i n : Quiet (deliver cfg i n).
Proof. unfold deliver. quiet. Qed.
#[global] Instance record_quiet e f o r : Quiet (record cfg e f o r).
Proof. unfold record. quiet. Qed.
#[global] Instance apply_result_quiet e f o r : Quiet (apply_result cfg e f o r).
Proof. unfold apply_result. quiet. Qed.
#[global] Instance past_now_quiet d : Quiet (E := E) (past_now d).
Proof. unfold past_now. quiet. Qed.

Definition PREFLIGHT (entry : obj) : obj := [("entry", VObj entry); ("kind", VStr "merge-preflight")].

(** A live read that allows the merge, a policy that does not hold it, the call. *)
Definition last_look (entry : obj) (receipt : val) (c : list Event) : Prop :=
  exists last ms answer,
    c = [ERead "live" (PREFLIGHT entry) (Ok last); EPolicy false; EMerge (merge_request entry ms) answer]
    /\ lifecycle checkPrimaryChange entry receipt last = Ok None /\ (ms <> 0 /\ ms <= 60000)%Z.
(** The trace of a run that merges at most once, right after a last look. *)
Definition one_merge (entry : obj) (receipt : val) : list Event -> Prop := once (last_look entry receipt).

Lemma lifecycle_null e r : exists d, lifecycle checkPrimaryChange e r VNull = Ok (Some d).
Proof. unfold lifecycle. simpl. eauto. Qed.
Lemma brake_trace (w : World E) b w1 : brake cfg w = (Ok b, w1) -> trace w1 = trace w ++ [EPolicy b].
Proof.
  intros (p & w2 & Hp & Hb)%sbind_Ok. apply sbind_Ok in Hb as ([] & w3 & Hl & [<- ->]%sret_Ok).
  unfold from_env in Hp. destruct (policy cfg (env w)) as [a e]. injection Hp as <- <-.
  unfold log_event in Hl. by injection Hl as <-.
Qed.
(** The call itself, after the last look and the brake. *)
Lemma merge_call_once entry v last ms (w0 w : World E) :
  quietly w0 w -> (ms <> 0 /\ ms <= 60000)%Z -> lifecycle checkPrimaryChange entry (v_receipt v) last = Ok None ->
  (exists pre, trace w = pre ++ [ERead "live" (PREFLIGHT entry) (Ok last); EPolicy false]
    /\ exists t, pre = trace w0 ++ t /\ Forall not_mutation t) ->
  wp (let! response := attempt (call (EMerge (merge_request entry ms)) (mergeSurface cfg (merge_request entry ms))) in
      after_merge_call cfg entry v last response) (fun _ w2 => adds (one_merge entry (v_receipt v)) w0 w2) w.
Proof.
  intros _ Hms Hl (pre & Et & t & -> & Ht). apply wp_bind. unfold wp, attempt.
  destruct (call _ _ w) as [r w1] eqn:Ec. cbn [fst snd]. apply call_inv in Ec.
  destruct (after_merge_call_quiet entry v last r w1) as (u & Eu & Hu).
  exists (t ++ [ERead "live" (PREFLIGHT entry) (Ok last); EPolicy false; EMerge (merge_request entry ms) r] ++ u). split.
  { rewrite Eu, Ec, Et, <- !(assoc_L (++)). done. }
  right. eexists t, _, u. do 3 (split; [done|]). by exists last, ms, r.
Qed.

Lemma merge_under_lock_once entry v intent (w0 w : World E) :
  quietly w0 w ->
  wp (merge_under_lock checkPrimaryChange cfg entry v intent) (fun _ w2 => adds (one_merge entry (v_receipt v)) w0 w2) w.
Proof.
  intros Q0. unfold merge_under_lock. apply wp_before; [apply _|done|]. intros dl w1 _ Q1.
  apply wp_before; [apply _|done|]. intros ms w2 _ Q2.
  apply wp_before; [apply _|done|]. intros last w3 Hlast Q3.
  apply wp_before; [apply _|done|]. intros changed w4 [Hl ->]%slift_Ok Q4.
  destruct changed as [c|]; [apply wp_end; [apply _|done]|].
  apply wp_before; [apply _|done|]. intros b w5 Hb Q5. destruct b; [apply wp_end; [apply _|done]|].
  apply wp_before; [apply _|done|]. intros m w6 Hm Q6.
  destruct (Z.eqb_spec (Z.min (millis (get intent "timeoutMs")) m) 0) as [|Hne]; [apply wp_end; [apply _|done]|].
  apply merge_call_once; [done | pose proof (wait_until_range _ _ _ _ _ _ Hm); lia | done|].
  apply brake_trace in Hb. apply silent_trace in Hm; [|apply _].
  destruct (read_or_null_answer _ _ _ _ _ _ _ Hlast) as [->|Hr].
  { destruct (lifecycle_null entry (v_receipt v)) as (d & Hd). congruence. }
  exists (trace w2). rewrite Hm, Hb, Hr, <- (assoc_L (++)). split; [done | exact Q2].
Qed.

Lemma invokeMerge_once entry f v intent (w0 w : World E) :
  quietly w0 w ->
  wp (invokeMerge checkPrimaryChange cfg entry f v intent) (fun _ w2 => adds (one_merge entry (v_receipt v)) w0 w2) w.
Proof.
  intros Q0. unfold invokeMerge. apply wp_before; [apply _|done|]. intros b w1 _ Q1.
  destruct b; [apply wp_end; [apply _|done]|]. apply wp_before; [apply _|done|]. intros same w2 _ Q2.
  destruct (negb same); [apply wp_end; [apply _|done]|]. apply wp_before; [apply _|done|]. intros st w3 _ Q3.
  apply wp_before; [apply _|done|]. intros settled w4 _ Q4.
  match goal with |- wp (if ?b then _ else _) _ _ => destruct b end; [apply wp_end; [apply _|done]|].
  apply wp_before; [apply _|done|]. intros state w5 _ Q5.
  match goal with |- wp (if ?b then _ else _) _ _ => destruct b end; [apply wp_end; [apply _|done] | by apply merge_under_lock_once].
Qed.

(** ** What the decision rests on *)

Ltac absurd_in E := simpl in E; repeat (destruct E as [E|E]; [discriminate E|]); destruct E.
Lemma admission_phase entry receipt live derivation d :
  classifyQueueAdmission checkPrimaryChange entry receipt live derivation = Ok d -> d_phase d <> "finalizing".
Proof.
  unfold classifyQueueAdmission. intros Hd Ep. destruct (subject_disposition _ _ _) as [x|] eqn:E1.
  { injection Hd as <-. apply (subject_disposition_phase checkPrimaryChange) in E1. rewrite Ep in E1. absurd_in E1. }
  destruct (truthy receipt); cbn [negb] in Hd; [|by injection Hd as <-].
  apply rbind_Ok in Hd as ([x|] & E2 & Hd).
  { injection Hd as <-. apply (review_disposition_phase checkPrimaryChange) in E2. rewrite Ep in E2. absurd_in E2. }
  destruct (access_disposition live) as [x|] eqn:E3.
  { injection Hd as <-. apply (access_disposition_phase checkPrimaryChange) in E3. rewrite Ep in E3. absurd_in E3. }
  unfold structural_disposition in Hd. apply rbind_Ok in Hd as (el & _ & [= <-]).
  destruct (find_b _ _); [done|]. by destruct (filter_b _ _).
Qed.
Lemma lifecycle_phase entry receipt live d :
  lifecycle checkPrimaryChange entry receipt live = Ok (Some d) -> d_phase d <> "finalizing".
Proof.
  unfold lifecycle. repeat (case_goal; [intros [= <-]; done|]).
  intros (a & Ha & Hd)%rbind_Ok. destruct (String.eqb _ _); [done|]. injection Hd as <-. by eapply admission_phase.
Qed.

(** The evidence of a decision: the live subject allows it, the checks of the
    candidate are green, the identity that merges is attested, and the
    candidate is the published head of the receipt that was admitted. *)
Record final_evidence (entry : obj) (v : MergeVerdict) : Prop := {
  fe_live : exists live, lifecycle checkPrimaryChange entry (v_receipt v) live = Ok None;
  fe_checks : exists checks reason, v_checks v = Some checks /\ final_checks entry checks = ("green", reason);
  fe_identity : exists identity, usable_identity identity = true
    /\ oget (oget (get (v_decision v) "attribution") "bot") "login" = oget identity "login";
  fe_candidate : get (v_decision v) "head" = get entry "candidate";
  fe_kind : get (v_decision v) "kind" = VStr "eligible";
  fe_receipt : exists d, handoffDigest (submitted (v_receipt v)) = Ok d
    /\ is_str (oget (get entry "rebase") "sourceReceiptDigest") d = true
    /\ strict_eq (oget (oget (get entry "rebase") "publication") "head") (get entry "candidate") = true
    /\ strict_eq (oget (oget (get entry "rebase") "publication") "base") (get entry "exactBase") = true
}.

Lemma evaluate_checks_evidence entry receipt live d dl n (w : World E) v w' :
  evaluate_checks cfg entry receipt live d dl n w = (Ok v, w') -> v_phase v = "finalizing" ->
  v_receipt v = receipt /\ v_ledger_count v = n
  /\ (exists checks reason, v_checks v = Some checks /\ final_checks entry checks = ("green", reason))
  /\ (exists identity, usable_identity identity = true
       /\ oget (oget (get (v_decision v) "attribution") "bot") "login" = oget identity "login")
  /\ get (v_decision v) "head" = get entry "candidate" /\ get (v_decision v) "kind" = VStr "eligible".
Proof.
  unfold evaluate_checks. intros (ms & w1 & _ & Hv)%sbind_Ok Ep. apply sbind_Ok in Hv as (checks & w2 & _ & Hv).
  destruct (final_checks entry checks) as [kind reason] eqn:Ef.
  destruct (String.eqb kind "red"); [by apply sret_Ok in Hv as [<- _]|].
  destruct (String.eqb kind "green") eqn:Eg; cbn [negb] in Hv; [|by apply sret_Ok in Hv as [<- _]].
  apply String.eqb_eq in Eg as ->. apply sbind_Ok in Hv as (identity & w3 & _ & Hv).
  destruct (usable_identity identity) eqn:Ei; cbn [negb] in Hv; [|by apply sret_Ok in Hv as [<- _]].
  apply sbind_Ok in Hv as (t & w4 & _ & Hv). apply sbind_Ok in Hv as (version & w5 & _ & Hv).
  apply sbind_Ok in Hv as (dg & w6 & _ & [<- _]%sret_Ok). cbn -[decision_of]. split; [done|]. split; [done|].
  split; [eauto|]. split; [|done]. exists identity. done.
Qed.

Lemma evaluate_evidence entry dl (w : World E) v w' :
  evaluate checkPrimaryChange cfg entry dl w = (Ok v, w') -> v_phase v = "finalizing" -> final_evidence entry v.
Proof.
  unfold evaluate. intros (b & w1 & _ & Hv)%sbind_Ok Ep. destruct b; [by apply sret_Ok in Hv as [<- _]|].
  apply sbind_Ok in Hv as (state & w2 & _ & Hv). destruct (terminal state); [by apply sret_Ok in Hv as [<- _]|].
  apply sbind_Ok in Hv as (got & w3 & _ & Hv). destruct got as [[receipt|]|err]; [|by apply sret_Ok in Hv as [<- _]..].
  apply sbind_Ok in Hv as (d & w4 & [Hd _]%slift_Ok & Hv). cbv zeta in Hv.
  destruct (negb (truthy _) || _ || _ || _) eqn:Eb; [by apply sret_Ok in Hv as [<- _]|].
  apply orb_false_iff in Eb as [[[_ E1%negb_false_iff]%orb_false_iff E2%negb_false_iff]%orb_false_iff E3%negb_false_iff].
  apply sbind_Ok in Hv as (ms & w5 & _ & Hv). apply sbind_Ok in Hv as (live & w6 & _ & Hv).
  apply sbind_Ok in Hv as (changed & w7 & [Hl _]%slift_Ok & Hv). destruct changed as [c|].
  { apply sret_Ok in Hv as [<- _]. simpl in Ep. by apply lifecycle_phase in Hl. }
  apply sbind_Ok in Hv as (proof & w8 & _ & Hv). destruct proof as [[]|]; [|by apply sret_Ok in Hv as [<- _]..].
  destruct (evaluate_checks_evidence _ _ _ _ _ _ _ _ _ Hv Ep) as (Hr & _ & Hc & Hi & Hh & Hk).
  split; rewrite ?Hr; eauto 10.
Qed.

(** ** A finalization merges at most once *)

(** The fields a decision binds are those of the entry it was made on. *)
Definition BOUND : list string := ["entryId"; "lane"; "prNumber"; "head"; "candidate"; "exactBase"; "rebase"; "phase"].
(** The intent of the merge was journalled, fresh, for this decision. *)
Definition journalled (f : Fence) (entryId : val) (entry : obj) : Prop :=
  exists id, journalled_as f entryId "merge" id /\ mergeOperationId entry = Ok id.

(** The decision the merge was issued on. *)
Record decided (f : Fence) (entryId : val) (entry0 entry : obj) (v : MergeVerdict) : Prop := {
  de_evidence : final_evidence entry0 v;
  de_decision : get entry "decision" = VObj (v_decision v);
  de_phase : get entry "phase" = VStr "finalizing";
  de_bound : forall k, In k BOUND -> k <> "phase" -> same_field entry entry0 k;
  de_intent : journalled f entryId entry
}.

(** The entries and the verdict a merge is issued on. *)
Definition Case : Type := obj * obj * MergeVerdict.
Definition case_ok (f : Fence) (entryId : val) (x : Case) : Prop :=
  let '(entry0, entry, v) := x in decided f entryId entry0 entry v.
Definition case_look (x : Case) : list Event -> Prop :=
  let '(_, entry, v) := x in last_look entry (v_receipt v).
Definition finalized_run (f : Fence) (entryId : val) : World E -> World E -> Prop :=
  mutates_once (case_ok f entryId) case_look.

Ltac step := apply wp_next; [quiet|done|].
Ltac halt := apply wp_halt; [quiet|done].

Lemma issue_merge_once f entryId entry0 v (w0 w : World E) :
  quietly w0 w -> final_evidence entry0 v ->
  wp (issue_merge checkPrimaryChange cfg entry0 f entryId v) (fun _ w2 => finalized_run f entryId w0 w2) w.
Proof.
  intros Q0 Hev. unfold issue_merge. step. intros entry w1 Hp Q1.
  step. intros opId w2 [Hop ->]%slift_Ok Q2.
  assert (Hde : journalled f entryId entry -> decided f entryId entry0 entry v).
  { clear - Hp Hev. unfold merge_progress, progress_of in Hp. intros Hj.
    apply sbind_Ok in Hp as (? & x1 & _ & Hp). apply sbind_Ok in Hp as (dl & x2 & _ & Hp).
    apply sbind_Ok in Hp as (ms & x3 & _ & Hp). apply sbind_Ok in Hp as (t & x4 & _ & Hp).
    apply sbind_Ok in Hp as (at_ & x5 & _ & Hp). unfold on_queue, change in Hp.
    destruct (progress _ _ _) as [[e d']|] eqn:Ep; [|done]. cbn [rbind fst snd] in Hp. injection Hp as <- _.
    destruct (progress_writes _ _ _ _ _ Ep eq_refl) as (l & id & r & _ & _ & _ & _ & He & Hph & Hin & Hout).
    { simpl. apply (bool_decide_unpack _). vm_compute. exact I. }
    split; [done| |done| |done].
    - apply Hin; [left; done | simpl; intuition discriminate].
    - intros k Hk Hne. pose proof (deep_eq_field _ _ k (He entry0 eq_refl)) as Hf. unfold same_field in *. rewrite Hout; [exact Hf| |];
        clear - Hk Hne; unfold BOUND, STAMPS in *; simpl in *; intuition congruence. }
  apply mutates_bind; [|intros [| | |]; apply _].
  apply (wp_issue _ _ _ _ _ _ _ (entry0, entry, v)); [done | intros Hj; apply Hde; by exists opId|].
  intros intent w3 Q3. by apply invokeMerge_once.
Qed.

Lemma finalize_fresh_once entry f entryId (w0 w : World E) :
  quietly w0 w ->
  wp (finalize_fresh checkPrimaryChange cfg entry f entryId) (fun _ w2 => finalized_run f entryId w0 w2) w.
Proof.
  intros Q0. unfold finalize_fresh. step. intros dl w1 _ Q1. step. intros ex w2 _ Q2. destruct ex; [halt|].
  step. intros v w3 Hv Q3. step. intros [] w4 _ Q4. step. intros ex w5 _ Q5. destruct ex; [halt|].
  destruct (String.eqb (v_phase v) "finalizing") eqn:Ep; cbn [negb]; [|halt].
  apply String.eqb_eq in Ep. apply issue_merge_once; [done | by eapply evaluate_evidence].
Qed.

End MergeFacts.

(** ** What the reconciliation and the receipt say *)

Section ReceiptFacts.
Context {hostDate : HostDate} {sqliteText : SqliteText} {sha256 : Sha256}.
Context {E : Type} {queueEnv : QueueEnv E}.

(** The observation names this pull request. *)
Definition names_subject (entry : obj) (s : val) : Prop :=
  text (oget s "sourceRef") = true /\ deep_eq (oget s "lane") (get entry "lane") = true
  /\ strict_eq (oget s "prNumber") (get entry "prNumber") = true.
(** The merge is this candidate's, structured, and the bot's. *)
Record merged_by_bot (entry : obj) (s bot reportedSha : val) : Prop := {
  mb_state : oget s "state" = VStr "merged";
  mb_head : sameSha (oget s "head") (get entry "candidate") = true;
  mb_sha : sha (oget s "mergeCommitSha") = true;
  mb_date : date_readable (oget s "mergedAt") = true;
  mb_reported : reportedSha = VNull \/ sameSha reportedSha (oget s "mergeCommitSha") = true;
  mb_actor : strict_eq (oget s "mergedBy") (oget bot "login") = true /\ text (oget bot "login") = true
}.
(** What proves that the merge was not applied. *)
Inductive refuted (entry : obj) (s bot : val) (drained : bool) : val -> Prop :=
| rf_other_head : oget s "state" = VStr "merged" -> sameSha (oget s "head") (get entry "candidate") = false ->
    refuted entry s bot drained (VStr "merged-head-mismatch")
| rf_other_actor : oget s "state" = VStr "merged" -> sameSha (oget s "head") (get entry "candidate") = true ->
    (text (oget s "mergedBy") && text (oget bot "login") && strict_eq (oget s "mergedBy") (oget bot "login")) = false ->
    refuted entry s bot drained (VStr "merged-by-other-actor")
| rf_closed : oget s "state" = VStr "closed" -> refuted entry s bot drained (VStr "live-closed")
| rf_moved : oget s "state" = VStr "open" -> sameSha (oget s "head") (get entry "candidate") = false ->
    refuted entry s bot drained (VStr "external-head-change")
| rf_drained : oget s "state" = VStr "open" -> sameSha (oget s "head") (get entry "candidate") = true -> drained = true ->
    refuted entry s bot drained (VStr "merge-refused").

(** The claim about one result. *)
Definition outcome_exact (entry : obj) (s bot reportedSha : val) (drained : bool) (r : val) : Prop :=
  (oget r "outcome" = VStr "succeeded" <-> names_subject entry s /\ merged_by_bot entry s bot reportedSha)
  /\ (oget r "outcome" = VStr "succeeded" ->
        oget r "mergeSha" = VStr (to_lower (to_str (oget s "mergeCommitSha"))) /\ oget r "mergedBy" = oget bot "login")
  /\ (oget r "outcome" = VStr "not-applied" -> names_subject entry s /\ refuted entry s bot drained (oget r "reason"))
  /\ (oget r "outcome" = VStr "succeeded" \/ oget r "outcome" = VStr "not-applied" \/ r = VNull).

Lemma ambiguous_outcome entry s bot rep drained :
  (merged_by_bot entry s bot rep -> False) -> outcome_exact entry s bot rep drained VNull.
Proof. intros Hm. split; [split; [done | by intros [_ Hx]]|]. split; [done|]. split; [done | by right; right]. Qed.
Lemma unnamed_outcome entry s bot rep drained :
  (text (oget s "sourceRef") && deep_eq (oget s "lane") (get entry "lane") && strict_eq (oget s "prNumber") (get entry "prNumber"))
    = false -> outcome_exact entry s bot rep drained VNull.
Proof.
  intros Hf. split; [split; [done|]|split; [done|]; split; [done | by right; right]].
  intros [(H1 & H2 & H3) _]. by rewrite H1, H2, H3 in Hf.
Qed.
Lemma refuted_outcome entry s bot rep drained phase reason :
  names_subject entry s -> (merged_by_bot entry s bot rep -> False) -> refuted entry s bot drained (VStr reason) ->
  outcome_exact entry s bot rep drained (not_applied_of s phase reason).
Proof.
  intros Hn Hm Hr. split; [split; [done | by intros [_ Hx]]|]. split; [done|]. split; [done | by right; left].
Qed.
Lemma same_text_of a b : strict_eq a b = true -> text b = true -> text a = true.
Proof. intros He Hb. unfold text in *. destruct a, b; try done. apply strict_eq_str_l in He. by injection He as ->. Qed.

(** The reconciliation of a merge calls it succeeded exactly on a live merged
    state of this pull request at the candidate, with a structured merge SHA that
    agrees with the reported one and the attributed bot as merger; it calls it
    not applied only on a state that refutes it, an open candidate counting as
    one only once the request was drained or refused; anything else stays
    ambiguous. *)
Theorem reconcile_merge_exact (entry : obj) (observation bot reportedSha r : val) (drained : bool) :
  reconcileQueueMergeObservation entry observation bot reportedSha drained = Ok r ->
  let s := oget observation "subject" in
  (oget r "outcome" = VStr "succeeded" <-> names_subject entry s /\ merged_by_bot entry s bot reportedSha)
  /\ (oget r "outcome" = VStr "succeeded" ->
        oget r "mergeSha" = VStr (to_lower (to_str (oget s "mergeCommitSha"))) /\ oget r "mergedBy" = oget bot "login")
  /\ (oget r "outcome" = VStr "not-applied" -> names_subject entry s /\ refuted entry s bot drained (oget r "reason"))
  /\ (oget r "outcome" = VStr "succeeded" \/ oget r "outcome" = VStr "not-applied" \/ r = VNull).
Proof.
  unfold reconcileQueueMergeObservation. cbv zeta. set (s := oget observation "subject").
  destruct (text _ && deep_eq _ _ && strict_eq _ _) eqn:E1; cbn [negb]; [|intros [= <-]; apply unnamed_outcome; by rewrite E1].
  assert (Hn : names_subject entry s).
  { apply andb_true_iff in E1 as [[H1 H2]%andb_true_iff H3]. by split. }
  clear E1. destruct (is_str (oget s "state") "merged") eqn:E2.
  { apply is_str_eq in E2. destruct (sameSha _ _) eqn:E3; cbn [negb].
    2: { intros [= <-]. apply refuted_outcome; [done| |by constructor]. intros [_ Hh _ _ _ _]. congruence. }
    destruct (negb (sha _) || _ || _) eqn:E4.
    { intros [= <-]. apply ambiguous_outcome. intros [_ _ H1 H2 H3 _]. rewrite H1, H2 in E4. cbn [negb orb] in E4.
      destruct H3 as [->|H3]; [done|]. rewrite H3 in E4. by rewrite andb_false_r in E4. }
    destruct (negb (text _) || _ || _) eqn:E5.
    { intros [= <-]. assert (Hx : (text (oget s "mergedBy") && text (oget bot "login") && strict_eq (oget s "mergedBy") (oget bot "login")) = false).
      { by destruct (text (oget s "mergedBy")), (text (oget bot "login")), (strict_eq _ (oget bot "login")). }
      apply refuted_outcome; [done| |by constructor]. intros [_ _ _ _ _ [H1 H2]]. rewrite H1, H2 in Hx.
      rewrite (same_text_of _ _ H1 H2) in Hx. done. }
    intros (at_ & _ & [= <-])%rbind_Ok. apply orb_false_iff in E4 as [[H1 H2]%orb_false_iff H3], E5 as [[H4 H5]%orb_false_iff H6].
    apply negb_false_iff in H1, H2, H4, H5, H6. split; [|split; [|split; [done | by left]]].
    - split; [|done]. intros _. split; [done|]. split; try done.
      destruct (strict_eq reportedSha VNull) eqn:En; [left; by destruct reportedSha|]. right. by apply negb_false_iff in H3.
    - intros _. split; [done|]. cbn. unfold text in H4. destruct (oget s "mergedBy"); try done. by apply strict_eq_str_l in H6. }
  assert (Hnm : merged_by_bot entry s bot reportedSha -> False).
  { intros [H1 _ _ _ _ _]. rewrite H1 in E2. done. }
  destruct (is_str (oget s "state") "closed") eqn:E3.
  { apply is_str_eq in E3. intros [= <-]. apply refuted_outcome; [done|done|by constructor]. }
  destruct (is_str (oget s "state") "open") eqn:E4; cbn [negb]; [|intros [= <-]; by apply ambiguous_outcome].
  apply is_str_eq in E4. destruct (sameSha _ _) eqn:E5; cbn [negb].
  2: { intros [= <-]. apply refuted_outcome; [done|done|by constructor]. }
  destruct drained; intros [= <-]; [|by apply ambiguous_outcome].
  split; [split; [done | by intros [_ Hm]]|]. split; [done|]. split; [|by right; left].
  intros _. split; [done|]. by constructor.
Qed.

(** ** The receipt is written with the phase, the deliveries and the ledger, or not at all *)

Lemma insert_merge_Ok row t t' :
  insert_merge row t = Ok (tt, t') ->
  t' = with_merges t (merges t ++ [row])
  /\ forall o, In o (merges t) -> merge_entry o <> merge_entry row /\ merge_operation o <> merge_operation row.
Proof.
  unfold insert_merge. destruct (some_b _ _) eqn:Es; [done|]. intros [= <-]. split; [done|]. intros o Ho.
  pose proof (some_b_false _ _ _ Es Ho) as Hf. apply orb_false_iff in Hf as [H1 H2].
  by apply String.eqb_neq in H1, H2.
Qed.

Definition pending_row (entryId : string) (d : Delivery) : DeliveryRow := {|
  delivery_key := x_key d; delivery_entry := entryId; delivery_kind := x_kind d; delivery_payload := json_norm (x_payload d);
  attempts := 0; last_error := None; delivery_receipt := None |}.
Lemma insert_deliveries_Ok i ds (w : World E) w' :
  insert_deliveries i ds w = (Ok tt, w') -> tables w' = with_outbox (tables w) (outbox (tables w) ++ map (pending_row i) ds).
Proof.
  revert w. induction ds as [|d ds IH]; intros w Hd; cbn [insert_deliveries] in Hd.
  - apply sret_Ok in Hd as [_ ->]. rewrite app_nil_r. by destruct (tables w).
  - apply sbind_Ok in Hd as ([] & w1 & H1 & Hd). apply change_Ok in H1. unfold insert_delivery in H1.
    destruct (some_b _ _); [done|]. injection H1 as H1. rewrite (IH _ Hd), <- H1. cbn [outbox with_outbox map].
    by rewrite <- (assoc_L (++)).
Qed.

(** The ledger of the subject is finalized at the candidate: it was, or the event was appended. *)
Definition ledger_finalized (entry : obj) (t t' : LedgerStore.Table) : Prop :=
  exists es, LedgerStore.read t (queueMergeSubject entry) = Ok es
  /\ ((finalized_at (fold es) (get entry "candidate") = true /\ t' = t)
      \/ exists event e at_ source, finalized (queueMergeSubject entry)
             [("at", VStr at_); ("revisionRef", get entry "candidate"); ("method", VStr "squash"); ("sourceRef", source)] = Ok event
           /\ LedgerStore.append t event = Ok (e, t')).
Lemma mark_finalized_Ok entry sha_ (w w' : World E) :
  mark_finalized entry sha_ w = (Ok tt, w') ->
  exists t', tables w' = with_ledger (tables w) t' /\ ledger_finalized entry (ledger (tables w)) t'.
Proof.
  unfold mark_finalized, read_ledger. intros (st & w1 & Hr & Hm)%sbind_Ok.
  apply sbind_Ok in Hr as (r & w2 & [= <- <-] & Hr). apply sbind_Ok in Hr as (es & w3 & [Hes ->]%slift_Ok & [<- ->]%sret_Ok).
  destruct (finalized_at _ _) eqn:Ef.
  { apply sret_Ok in Hm as [_ ->]. exists (ledger (tables w)). split; [by destruct (tables w)|]. exists es. eauto. }
  apply sbind_Ok in Hm as (t & w4 & H4 & Hm). apply sbind_Ok in Hm as (at_ & w5 & [_ ->]%slift_Ok & Hm).
  apply sbind_Ok in Hm as (event & w6 & [He ->]%slift_Ok & Hm). apply change_Ok in Hm.
  apply (still_tables now) in H4; [|apply _]. rewrite H4 in Hm. apply rbind_Ok in Hm as ([e t'] & Ha & [= <-]).
  exists t'. split; [done|]. exists es. split; [done|]. right. eauto 10.
Qed.

(** C10. The receipt of a merge is materialized at once. When the transaction goes
    through, the entry left the final stage for merged, one receipt row was
    added, the first of its entry and of its operation, with one pending row for
    each of the two deliveries, and the ledger of the subject is finalized at the
    candidate; nothing else changed. When it throws, no table changed. *)
Theorem merge_receipt_atomic (entry : obj) (f : Fence) (op digest : string) (res receipt : val) (w w' : World E) (r : result obj) :
  record_txn entry f op res receipt digest w = (r, w') ->
  match r with
  | Throw _ => tables w' = tables w
  | Ok next =>
      get next "phase" = VStr "merged" /\ get next "merge" = oget receipt "merge"
      /\ exists d row l, tables w' =
           {| receipts := {| queue := d; handoff_rows := handoff_rows (receipts (tables w)); clean_rows := clean_rows (receipts (tables w)) |};
              ledger := l; pages := pages (tables w); merges := merges (tables w) ++ [row];
              outbox := outbox (tables w) ++ map (pending_row (to_str (get entry "entryId"))) (queueDeliveryPayloads receipt); routing := routing (tables w) |}
         /\ merge_entry row = to_str (get entry "entryId") /\ merge_operation row = op /\ merge_digest row = digest
         /\ merge_receipt row = receipt /\ merge_sha row = oget res "mergeSha"
         /\ (forall o, In o (merges (tables w)) -> merge_entry o <> merge_entry row /\ merge_operation o <> op)
         /\ ledger_finalized entry (ledger (tables w)) l
         /\ exists at_, progress (queue_of (tables w)) f
              {| p_entryId := get entry "entryId"; p_phase := "merged";
                 p_patch := [("merge", oget receipt "merge");
                   ("delivery", VObj [("receiptDigest", VStr digest);
                                      ("keys", VArr (map (fun d => VStr (x_key d)) (queueDeliveryPayloads receipt)))]);
                   ("reason", VStr "squash-merge-reconciled")];
                 p_at := VStr at_; p_readmit := false; p_observation := VUndef; p_expected := Some entry |} = Ok (next, d)
  end.
Proof.
  intros Ht%stx_inv. destruct r as [next|err]; [|done].
  apply sbind_Ok in Ht as (e & w1 & Hp & Ht). apply progress_of_Ok in Hp as (at_ & d & E1 & Hp).
  apply sbind_Ok in Ht as ([] & w2 & H2 & Ht). apply change_Ok, insert_merge_Ok in H2 as [E2 Hfresh].
  apply sbind_Ok in Ht as ([] & w3 & H3 & Ht). apply insert_deliveries_Ok in H3.
  apply sbind_Ok in Ht as ([] & w4 & H4 & Ht). apply mark_finalized_Ok in H4 as (l & E4 & Hl).
  apply sret_Ok in Ht as [<- ->].
  destruct (progress_writes _ _ _ _ _ Hp eq_refl) as (_ & _ & _ & _ & _ & _ & _ & _ & Hph & Hin & _).
  { simpl. apply (bool_decide_unpack _). vm_compute. exact I. }
  split; [done|]. split; [apply Hin; [by left | simpl; intuition discriminate]|].
  rewrite H3, E2, E1 in E4, Hl. rewrite E1 in Hfresh. eexists d, _, l. split; [exact E4|]. cbn. repeat (split; [done|]). eauto.
Qed.
End ReceiptFacts.

(** ** Concrete inputs *)

#[local] Existing Instance ex_host.
#[local] Existing Instance ex_text.
#[local] Existing Instance length_digest.
#[local] Existing Instance still_env.

Definition ex_merge_sha : string := repeat_char "d" 40.
Definition ex_after_merge (by_ : string) : val :=
  VObj [("subject", VObj (ex_live_subject "merged" ++
    [("mergeCommitSha", VStr ex_merge_sha); ("mergedAt", VStr "2026-10-23T00:01:05Z"); ("mergedBy", VStr by_)]))].

Definition ex_live_reader (by_ : string) : Reader unit :=
  fun request _ => answers (if is_str (get request "kind") "merge-reconcile" then ex_after_merge by_ else ex_open).
Definition ex_service (by_ : string) (disabled : bool) : MergeConfig (E := unit) := {|
  liveAdapter := Some (ex_live_reader by_); checkReader := Some (fun _ _ => answers ex_green);
  gitVerify := fun _ => answers ex_proof;
  identityCheck := Some (fun _ _ => answers (VObj [("ok", VBool true); ("login", VStr "merge-bot");
    ("producerClass", VStr "ama-daemon"); ("sourceRef", VStr "id:2")]));
  mergeSurface := fun _ => answers (VObj [("ok", VBool true); ("payload", VObj [("sha", VStr ex_merge_sha)])]);
  mergeSurfaceName := VStr "guarded"; policy := fun e => (Ok (VObj [("autonomousExecutionDisabled", VBool disabled)]), e);
  deliveryAdapters := []; pageAdapter := None |}.

Definition ex_finalize (by_ : string) (disabled : bool) : result val * World unit :=
  finalize preserved (ex_service by_ disabled) ex_qfence ex_entry_id ex_world.
Definition phase_after (r : result val * World unit) : result val :=
  match fst r with Ok v => Ok (oget v "phase") | Throw e => Throw e end.
Definition merges_called (r : result val * World unit) : nat :=
  length (filter_b (fun ev => match ev with EMerge _ _ => true | _ => false end) (trace (snd r))).

Example merge_service_examples :
  (phase_after (ex_finalize "merge-bot" false), merges_called (ex_finalize "merge-bot" false),
   length (merges (tables (snd (ex_finalize "merge-bot" false)))), length (outbox (tables (snd (ex_finalize "merge-bot" false)))),
   phase_after (ex_finalize "someone" false), phase_after (ex_finalize "merge-bot" true), merges_called (ex_finalize "merge-bot" true))
  = (Ok (VStr "merged"), 1%nat, 1%nat, 2%nat, Ok (VStr "closed-observed"), Ok (VStr "parked-hold"), 0%nat).
Proof. vm_compute. reflexivity. Qed.


Definition ex_final_entry : obj :=
  match row_of_id ex_final_queue (to_str ex_entry_id) with Some r => entry_payload r | None => [] end.

Definition ex_bot : val := VObj [("login", VStr "merge-bot")].
Definition ex_merged : val := ex_after_merge "merge-bot".
Definition ex_pinned : obj :=
  [("lane", ex_handoff_lane); ("prNumber", VInt 101); ("candidate", VStr ex_head)].
Definition ex_reconciled : val :=
  match reconcileQueueMergeObservation ex_pinned ex_merged ex_bot (VStr ex_merge_sha) false with Ok r => r | Throw _ => VNull end.
Lemma reconcile_merge_exact_witness : names_subject ex_pinned (oget ex_merged "subject").
Proof.
  assert (Hr : reconcileQueueMergeObservation ex_pinned ex_merged ex_bot (VStr ex_merge_sha) false = Ok ex_reconciled)
    by (vm_compute; reflexivity).
  assert (Ho : oget ex_reconciled "outcome" = VStr "succeeded") by (vm_compute; reflexivity).
  destruct (reconcile_merge_exact ex_pinned ex_merged ex_bot (VStr ex_merge_sha) ex_reconciled false Hr) as [[H _] _].
  exact (proj1 (H Ho)).
Defined.

Definition ex_result : val :=
  VObj [("outcome", VStr "succeeded"); ("mergeSha", VStr ex_merge_sha); ("mergedAt", VStr "2026-10-23T00:01:05.000Z")].
Definition ex_merge_receipt : val := receipt_body ex_final_entry ex_qfence "merge:1" ex_result.
Definition ex_record : result obj * World unit :=
  record_txn ex_final_entry ex_qfence "merge:1" ex_result ex_merge_receipt "digest" ex_world.
Lemma ex_record_pair :
  record_txn ex_final_entry ex_qfence "merge:1" ex_result ex_merge_receipt "digest" ex_world = (fst ex_record, snd ex_record).
Proof. unfold ex_record. by destruct (record_txn _ _ _ _ _ _ _). Qed.
Lemma merge_receipt_atomic_witness :
  match fst ex_record with Ok e => get e "phase" = VStr "merged" | Throw _ => tables (snd ex_record) = ex_tables end.
Proof.
  pose proof (merge_receipt_atomic ex_final_entry ex_qfence "merge:1" "digest" ex_result ex_merge_receipt ex_world
    (snd ex_record) (fst ex_record) ex_record_pair) as Hx.
  revert Hx. destruct (fst ex_record); [intros [Hp _]; exact Hp | intros Hx; exact Hx].
Defined.
Example record_goes_through : is_ok (fst ex_record) = true.
Proof. vm_compute. reflexivity. Qed.
