(* ===== verification/QueueChecks.v ===== *)
(** * The checks service of the queue (queue-checks.mjs)

    Polling the checks of a published candidate, parking it when its patience
    ends, probing a parked one again, and the pages of parked causes. The
    classification of what is read is in QueueAdmission. *)

From Stdlib Require Import ZArith Lia Ascii SpecFloat.
From stdpp Require Import base list strings gmap.
From S2P Require Import Prelude JsNum JsValue JsDate LedgerEvents LedgerStore MergeEligibility QueueLane QueueStore QueueOwner QueueAdmission QueueHandoff HandoffStore QueueService.

Section Checks.
Context {hostDate : HostDate} {sqliteText : SqliteText} {sha256 : Sha256}.
(** The primary-change check of the structural predicate. *)
Variable checkPrimaryChange : val -> val -> val -> result val.
Context {E : Type} {queueEnv : QueueEnv E}.
Abbreviation M := (SM (E := E)).

(** ** Projections of the store and the page adapter *)

Definition json_present (v : val) : bool := negb (is_nullish v).
Definition observation_of (r : EntryRow) : val :=
  let e := entry_payload r in
  VObj [("entryId", VStr (entry_id r)); ("phase", VStr (entry_phase r)); ("candidate", get e "candidate");
        ("base", get e "exactBase"); ("patience", get e "patience"); ("checks", get e "checks");
        ("infrastructure", coalesce (get e "infrastructure") VNull)].
(** [resolveQueueChecksAdapter({ db }).read()]: the newest observations and the count of the pages. *)
Definition checks_projection (t : Tables) : list val * (nat * nat) :=
  (map observation_of (firstn 100 (rev (filter_b
     (fun r => json_present (get (entry_payload r) "checks") || json_present (get (entry_payload r) "infrastructure"))
     (entry_rows (queue_of t))))),
   (length (pages t), length (filter_b (fun p => match page_receipt p with None => true | Some _ => false end) (pages t)))).

(** [createQueueInfrastructurePageAdapter({ deliverAlert, env })]. *)
Definition page_adapter (deliverAlert : string -> obj -> External E) (processEnv : val) : Reader E :=
  fun request _ t e =>
    let '(r, t, e) := deliverAlert "Merge queue infrastructure patience expired; inspect dependency evidence."
      [("event", VStr "finalization.queue.infrastructure"); ("payload", get request "payload"); ("env", processEnv)] t e in
    (match r with
     | Ok receipt => if truthy (oget receipt "id")
                     then Ok (VObj [("id", oget receipt "id"); ("status", oget receipt "status")])
                     else Throw (PlainError "page-enqueue-unavailable")
     | Throw x => Throw x
     end, t, e).

(** ** The service *)

Record ChecksConfig := {
  c_checkReader : option (Reader E);
  c_liveAdapter : option (Reader E);
  c_gitVerify : GitVerify (E := E);
  c_pageAdapter : option (Reader E)
}.
Variable cfg : ChecksConfig.

Definition CHECKS_WORDS : Words := {|
  superseded := "checks observation superseded"; undrained := "checks require drained operations";
  release_deferred := "checks-lane-release-deferred" |}.

(** [current(entry, fence)]. *)
Definition checks_current (entry : obj) (f : Fence) : M unit :=
  let! t := now in
  let! _ := assertFence_ f (VStr t) in
  let! same := unmoved entry in
  if negb same then sthrow (PlainError (superseded CHECKS_WORDS))
  else
    let! ops := operations_ (lane_of entry) in
    if negb (Nat.eqb (length ops) 0) then sthrow (PlainError (undrained CHECKS_WORDS)) else sret tt.

Definition checks_progress (entry : obj) (f : Fence) (phase : string) (reason : val) (patch : obj) (readmit : bool) : M obj :=
  let! _ := checks_current entry f in
  let! deadline := slift (patience_deadline entry) in
  let! _ := wait deadline in
  let! t := now in
  on_queue (fun d => progress d f
    {| p_entryId := get entry "entryId"; p_phase := phase; p_patch := map_set patch "reason" reason; p_at := VStr t;
       p_readmit := readmit; p_observation := VUndef; p_expected := Some entry |}).

Definition KNOWN_FAILURES : list string :=
  ["required-set-unresolved"; "required-set-changed"; "checks-partial-pages"; "checks-moving-pages"; "checks-stale-sha"].
Definition unread_reason (e : jserror) : string :=
  if auth_outage e then "credential-outage"
  else if str_in (error_message e) KNOWN_FAILURES then error_message e else "checks-unreadable".
(** [read(adapter, entry, deadline)]: null without a budget, an incomplete snapshot for what was thrown. *)
Definition checks_read (name : string) (adapter : option (Reader E)) (entry : obj) (deadline : val) : M val :=
  let! timeoutMs := wait deadline in
  if (timeoutMs =? 0)%Z then sret VNull
  else
    let! got := attempt (readQueueEvidence name adapter [("entry", VObj entry); ("deadline", deadline)] timeoutMs) in
    match got with
    | Ok v => sret v
    | Throw e =>
        let! t := now in
        sret (VObj [("complete", VBool false); ("head", get entry "candidate"); ("base", get entry "exactBase");
                    ("reason", VStr (unread_reason e)); ("observedAt", VStr t)])
    end.

(** The last complete snapshot, kept while a cause is parked. *)
Definition last_snapshot (entry : obj) : val :=
  let checks := get entry "checks" in
  if truthy (oget checks "complete") then checks else coalesce (oget checks "lastSnapshot") VNull.
Definition park (entry : obj) (f : Fence) (reason checks : val) : M obj :=
  let dependency := if is_str reason "credential-outage" then "credentials" else "checks" in
  let cause := cause_of dependency entry reason in
  let! key := slift (handoffDigest (VArr [get entry "entryId"; VObj cause])) in
  let! deadline := slift (patience_deadline entry) in
  let! checks := (if truthy checks then sret checks else
    let! t := now in
    sret (VObj [("head", get entry "candidate"); ("base", get entry "exactBase"); ("complete", VBool false);
                ("observedAt", VStr t); ("lastSnapshot", last_snapshot entry)])) in
  let! parked := stx (
    let! t1 := now in
    let! t2 := now in
    let! probe := slift (later t2 60000) in
    let! result := checks_progress entry f "parked-infrastructure" reason
      [("checks", checks); ("infrastructure", infrastructure_of entry cause key t1 probe)] false in
    let! _ := change (fun t => Ok (tt, insert_page key (to_str (get entry "entryId")) (page_of entry cause key deadline) t)) in
    sret result) in
  let! _ := release_ CHECKS_WORDS f in
  let! _ := flushPages (c_pageAdapter cfg) (get entry "entryId") in
  sret parked.

(** ** Polling *)

Fixpoint resume (entry : obj) (f : Fence) (phases : list string) : M obj :=
  match phases with
  | [] => sret entry
  | phase :: phases =>
      let! entry := checks_progress entry f phase (VStr "recovered-candidate-resumed") [] false in
      resume entry f phases
  end.

Definition recovered (entry : obj) : val := oget (get entry "infrastructure") "recovered".

(** The entry waits for the checks of the candidate that was published. *)
Definition published (entry : obj) : result bool :=
  let publication := oget (get entry "rebase") "publication" in
  if negb (is_str (get entry "phase") "waiting-checks") || negb (strict_eq (oget publication "head") (get entry "candidate"))
  then Ok false
  else
    let* p := member (get entry "rebase") "publication" in
    let* b := member p "base" in
    Ok (strict_eq b (get entry "exactBase")).

(** [Date.parse(now) < Date.parse(deadline)]. *)
Definition before (t : string) (deadline : val) : bool :=
  match date_parse t, date_parse (to_str deadline) with Some z, Some due => (z <? due)%Z | _, _ => false end.

Definition STICKY_REASONS : list string :=
  ["missing-required-check:"; "checks-pending"; "credential-outage"; "required-set-"].
(** The reason of a wait on checks that could not be classified. *)
Definition wait_reason (entry : obj) (checks live : val) (expired : bool) : val :=
  coalesce (oget checks "reason") (coalesce (oget live "reason")
    (if expired && some_b (fun p => String.prefix p (to_str (coalesce (get entry "reason") (VStr "")))) STICKY_REASONS
     then get entry "reason" else VStr "checks-unreadable")).

(** The deadline of the observations: a recovered candidate whose patience is over
    gets one more bounded look. *)
Definition poll_deadline (entry : obj) (expired : bool) (patience : val) : M val :=
  if expired && truthy (recovered entry) then
    let! t := now in
    let! ms := wait_load 5000 30000 in
    let! d := slift (later t ms) in sret (VStr d)
  else sret patience.

(** What the checks that were read say, within their window. *)
Definition poll_classify (entry : obj) (checks live deadline : val) (expired : bool) : M (string * val) :=
  let! valid := (if strict_eq (oget checks "head") (get entry "candidate") && strict_eq (oget checks "base") (get entry "exactBase")
                 then let! t := now in sret (before t deadline) else sret false) in
  let! complete := (if valid then slift (let* c := member checks "complete" in Ok (is_true c)) else sret false) in
  sret (if valid && complete
        then let c := classifyQueueChecks checks in (cd_kind c, VStr (cd_reason c))
        else ("wait", wait_reason entry checks live expired)).

Definition reason_opt (r : option string) : val := match r with Some s => VStr s | None => VUndef end.

(** The subject moved: the entry leaves the wait. *)
Definition poll_moved (entry : obj) (f : Fence) (phase : string) (reason : option string) (expired : bool) : M obj :=
  if String.eqb phase "rebasing" && expired then park entry f (VStr "checks-deadline-expired") VNull
  else
    let! result := checks_progress entry f phase (reason_opt reason) [("checks", VNull)] false in
    let! _ := (if negb (String.eqb phase "rebasing") then release_ CHECKS_WORDS f else sret tt) in
    sret result.

Definition poll_settle (entry : obj) (f : Fence) (kind : string) (reason checks patience : val) (expired : bool) : M obj :=
  if String.eqb kind "green" then checks_progress entry f "finalizing" reason [("checks", checks)] false
  else if String.eqb kind "red" then
    let! result := checks_progress entry f "returned-to-closer" reason [("checks", checks)] false in
    let! _ := release_ CHECKS_WORDS f in
    sret result
  else
    let! over := (if expired then sret true else let! t := now in sret (past t patience)) in
    if over then park entry f reason checks
    else checks_progress entry f "waiting-checks" reason [("checks", checks)] false.

(** One observation of a published candidate. *)
Definition observe (entry : obj) (f : Fence) : M obj :=
  let! ok := slift (published entry) in
  if negb ok then sthrow (PlainError "checks require exact published candidate")
  else
    let! t := now in
    let! patience := slift (patience_deadline entry) in
    let expired := past t patience in
    let! deadline := poll_deadline entry expired patience in
    let! live := checks_read "live" (c_liveAdapter cfg) entry deadline in
    let! _ := checks_current entry f in
    match subjectDecision (VObj entry) live with
    | Some (phase, reason) =>
        if negb (String.eqb phase "waiting-checks") then poll_moved entry f phase reason expired
        else
          let! checks := checks_read "checks" (c_checkReader cfg) entry deadline in
          let! _ := checks_current entry f in
          let! c := poll_classify entry checks live deadline expired in
          poll_settle entry f (fst c) (snd c) checks patience expired
    | None =>
        let! _ := checks_current entry f in
        let! c := poll_classify entry VNull live deadline expired in
        poll_settle entry f (fst c) (snd c) VNull patience expired
    end.

Definition RESUMED : list string := ["rebasing"; "publishing"; "waiting-checks"].
(** [poll({ fence, entryId })]. *)
Definition poll (f : Fence) (entryId : val) : M obj :=
  let! entry := own_entry f entryId "foreign checks entry" in
  let! _ := checks_current entry f in
  if is_str (get entry "phase") "parked-infrastructure" && truthy (get entry "infrastructure") then
    let! _ := release_ CHECKS_WORDS f in
    let! _ := flushPages (c_pageAdapter cfg) entryId in
    sret entry
  else
    let! entry := resume entry f
      (if is_str (get entry "phase") "ready" && is_true (recovered entry) then RESUMED else []) in
    observe entry f.

(** ** Probing a parked entry again *)

Definition infrastructure_with (entry : obj) (fields : obj) : val :=
  VObj (spread (fields_or_empty (get entry "infrastructure")) fields).

(** The receipt of the entry and whether its derivation still proves it. *)
Definition reprobe_proof (entry : obj) (deadline : val) : M (val * bool) :=
  let! got := attempt (receipt_of entry) in
  match got with
  | Ok (Some receipt) =>
      let! proof := attempt (
        if truthy receipt then
          let! d := slift (handoffDigest (submitted receipt)) in
          if is_str (oget (get entry "rebase") "sourceReceiptDigest") d
          then verifyQueueDerivation (c_gitVerify cfg) entry deadline else sret false
        else sret false) in
      sret (receipt, match proof with Ok b => b | Throw _ => false end)
  | Ok None => sret (VNull, false)
  | Throw _ => sret (VUndef, false)
  end.

Definition GONE : list string := ["closed-observed"; "returned-to-closer"].

(** The second live look: only a candidate that could be admitted now rejoins the tail. *)
Definition readmit (entry : obj) (f : Fence) (receipt checks deadline : val) : M obj :=
  let! fresh := checks_read "live" (c_liveAdapter cfg) entry deadline in
  let! _ := checks_current entry f in
  match subjectDecision (VObj entry) fresh with
  | Some (phase, reason) =>
      if str_in phase GONE then checks_progress entry f phase (reason_opt reason) [] false
      else if negb (String.eqb phase "waiting-checks") then sret entry
      else
        let derivation := if strict_eq (get entry "candidate") (get entry "head") then VNull
                          else VObj [("head", get entry "candidate")] in
        let! admission := slift (classifyQueueAdmission checkPrimaryChange (VObj entry) receipt fresh derivation) in
        if String.eqb (d_phase admission) "returned-to-closer"
        then checks_progress entry f "returned-to-closer" (d_reason admission) [("checks", checks)] false
        else if negb (String.eqb (d_phase admission) "ready") then sret entry
        else
          let! t := now in
          if past t deadline then sret entry
          else
            let! t := now in
            checks_progress entry f "ready" (VStr "infrastructure-recovered-at-tail")
              [("checks", checks);
               ("infrastructure", infrastructure_with entry [("recovered", VBool true); ("recoveredAt", VStr t)])] true
  | None => sret entry
  end.

Definition reprobe_checks (entry : obj) (f : Fence) (deadline : val) : M obj :=
  let! checks := checks_read "checks" (c_checkReader cfg) entry deadline in
  let! _ := checks_current entry f in
  if negb (strict_eq (oget checks "head") (get entry "candidate") && strict_eq (oget checks "base") (get entry "exactBase"))
  then sret entry
  else
    let c := classifyQueueChecks checks in
    if String.eqb (cd_kind c) "red"
    then checks_progress entry f "returned-to-closer" (VStr (cd_reason c)) [("checks", checks)] false
    else if negb (String.eqb (cd_kind c) "green") then sret entry
    else
      let! proved := reprobe_proof entry deadline in
      let! _ := checks_current entry f in
      if negb (snd proved) then sret entry
      else
        let! t := now in
        if past t deadline then sret entry else readmit entry f (fst proved) checks deadline.

(** The probe proper, its window persisted before anything is read. *)
Definition probe (entry : obj) (f : Fence) : M obj :=
  let! t := now in
  let! ms := wait_load 5000 30000 in
  let! deadline := slift (later t ms) in
  let! next := slift (later deadline 60000) in
  let! entry := checks_progress entry f "parked-infrastructure" (get entry "reason")
    [("infrastructure", infrastructure_with entry [("probeDeadline", VStr deadline); ("nextProbeAt", VStr next)])] false in
  let deadline := VStr deadline in
  let! live := checks_read "live" (c_liveAdapter cfg) entry deadline in
  let! _ := checks_current entry f in
  match subjectDecision (VObj entry) live with
  | Some (phase, reason) =>
      if str_in phase GONE then checks_progress entry f phase (reason_opt reason) [] false
      else if negb (String.eqb phase "waiting-checks") then sret entry
      else reprobe_checks entry f deadline
  | None => sret entry
  end.

Definition not_due (t : string) (at_ : val) : bool := before t at_.
(** [reprobe({ fence, entryId })]: the lane is released on every path. *)
Definition reprobe (f : Fence) (entryId : val) : M obj :=
  let! entry := own_entry f entryId "foreign checks entry" in
  let! _ := checks_current entry f in
  sfinally (
    if negb (is_str (get entry "phase") "parked-infrastructure") || negb (truthy (get entry "infrastructure")) then sret entry
    else
      let! t := now in
      if not_due t (oget (get entry "infrastructure") "nextProbeAt") then sret entry
      else probe entry f)
    (release_ CHECKS_WORDS f).
End Checks.

(** ** Facts *)

Section ChecksFacts.
Context {hostDate : HostDate} {sqliteText : SqliteText} {sha256 : Sha256}.
Context {E : Type} {queueEnv : QueueEnv E}.
Context (cfg : ChecksConfig (E := E)).

#[global] Instance checks_current_quiet e f : Quiet (E := E) (checks_current e f).
Proof. unfold checks_current. quiet. Qed.
#[global] Instance checks_progress_quiet e f p r u a : Quiet (E := E) (checks_progress e f p r u a).
Proof. unfold checks_progress. quiet. Qed.
#[global] Instance checks_read_quiet n (a : option (Reader E)) e d : Quiet (checks_read n a e d).
Proof. unfold checks_read. quiet. Qed.
#[global] Instance checks_park_quiet e f r c : Quiet (park cfg e f r c).
Proof. unfold park. quiet. Qed.
#[global] Instance resume_quiet e f ps : Quiet (E := E) (resume e f ps).
Proof. revert e. induction ps as [|p ps IH]; intros e; cbn [resume]; quiet. Qed.
#[global] Instance poll_deadline_quiet e x p : Quiet (E := E) (poll_deadline e x p).
Proof. unfold poll_deadline. quiet. Qed.
#[global] Instance poll_classify_quiet e c l d x : Quiet (E := E) (poll_classify e c l d x).
Proof. unfold poll_classify. quiet. Qed.
#[global] Instance poll_moved_quiet e f p r x : Quiet (poll_moved cfg e f p r x).
Proof. unfold poll_moved. quiet. Qed.
#[global] Instance poll_settle_quiet e f k r c p x : Quiet (poll_settle cfg e f k r c p x).
Proof. unfold poll_settle. quiet. Qed.
#[global] Instance reprobe_proof_quiet e d : Quiet (reprobe_proof cfg e d).
Proof. unfold reprobe_proof. quiet. Qed.

#[global] Instance checks_current_still e f : Still (E := E) (checks_current e f).
Proof. unfold checks_current, assertFence_, unmoved, readEntry_, operations_. still. Qed.

(** A step of the service writes its phase and patch over the entry it was given. *)
Lemma checks_progress_writes entry f phase reason patch re (w : World E) e w' :
  checks_progress entry f phase reason patch re w = (Ok e, w') -> NoDup (map fst patch) ->
  get e "phase" = VStr phase
  /\ (forall k v, In (k, v) patch -> k <> "reason" -> ~ In k STAMPS -> get e k = v)
  /\ (forall k, ~ In k (map fst patch) -> k <> "reason" -> ~ In k STAMPS -> same_field e entry k).
Proof.
  unfold checks_progress. intros ([] & w1 & _ & Hp)%sbind_Ok Hn. apply sbind_Ok in Hp as (dl & w2 & _ & Hp).
  apply sbind_Ok in Hp as (ms & w3 & _ & Hp). apply sbind_Ok in Hp as (t & w4 & _ & Hp).
  unfold on_queue in Hp. apply change_Ok in Hp. apply rbind_Ok in Hp as ([x d] & Hp & [= <- _]).
  destruct (progress_writes _ _ _ _ _ Hp eq_refl) as (l & id & r & _ & _ & _ & _ & He & Hph & Hin & Hout).
  { simpl. by apply map_set_NoDup. }
  split; [done|]. split.
  - intros k v Hk Hr Hs. apply Hin; [|done]. by apply map_set_other.
  - intros k Hk Hr Hs. pose proof (deep_eq_field _ _ k (He entry eq_refl)) as Hf. unfold same_field in *.
    rewrite Hout; [done | | done]. simpl. rewrite map_set_keys. intuition congruence.
Qed.

Lemma checks_read_answer n a entry dl (w : World E) v w1 :
  checks_read n a entry dl w = (Ok v, w1) ->
  reads [(n, v)] w w1 \/ oget v "complete" <> VBool true /\ oget v "subject" = VUndef.
Proof.
  unfold checks_read. intros Hr. apply sbind_Ok in Hr as (ms & w2 & Hw & Hr). apply quiet_run_of in Hw as Qw; [|apply _].
  destruct (ms =? 0)%Z; [apply sret_Ok in Hr as [<- _]; right; done|].
  apply sbind_Ok in Hr as (got & w3 & Hg%attempt_Ok & Hr). destruct got as [x|x].
  - apply sret_Ok in Hr as [<- ->]. left. apply read_evidence_Ok in Hg. eapply reads_before; [exact Qw|]. by eapply reads_single.
  - right. apply sbind_Ok in Hr as (t & w4 & _ & [<- _]%sret_Ok). done.
Qed.

Lemma subject_needs_answer entry v : oget v "subject" = VUndef -> subjectDecision entry v = None.
Proof. unfold subjectDecision. by intros ->. Qed.

Lemma unread_or_read n a entry dl (w : World E) v w1 :
  checks_read n a entry dl w = (Ok v, w1) -> subjectDecision (VObj entry) v <> None -> reads [(n, v)] w w1.
Proof.
  intros Hr Hs. destruct (checks_read_answer _ _ _ _ _ _ _ Hr) as [?|[_ Hv]]; [done|].
  by rewrite (subject_needs_answer _ _ Hv) in Hs.
Qed.

(** ** A poll advances on green checks of the published candidate *)

Lemma subject_phase entry live phase reason :
  subjectDecision entry live = Some (phase, reason) ->
  In phase ["closed-observed"; "returned-to-closer"; "rebasing"; "waiting-checks"].
Proof. unfold subjectDecision. repeat case_goal; intros [= <- _]; simpl; tauto. Qed.

Lemma park_phase entry f reason checks (w : World E) e w' :
  park cfg entry f reason checks w = (Ok e, w') -> get e "phase" = VStr "parked-infrastructure" /\ same_field e entry "patience".
Proof.
  unfold park. intros (key & w1 & _ & Hp)%sbind_Ok. apply sbind_Ok in Hp as (dl & w2 & _ & Hp).
  apply sbind_Ok in Hp as (c & w3 & _ & Hp). apply sbind_Ok in Hp as (parked & w4 & Ht%stx_inv & Hp).
  apply sbind_Ok in Hp as (? & w5 & _ & Hp). apply sbind_Ok in Hp as (? & w6 & _ & [<- _]%sret_Ok).
  apply sbind_Ok in Ht as (t1 & w7 & _ & Ht). apply sbind_Ok in Ht as (t2 & w8 & _ & Ht).
  apply sbind_Ok in Ht as (pr & w9 & _ & Ht). apply sbind_Ok in Ht as (res & w10 & Hc & Ht).
  apply sbind_Ok in Ht as (? & w11 & _ & [<- _]%sret_Ok).
  apply checks_progress_writes in Hc as (Hph & _ & Hout); [|by apply (bool_decide_unpack _)].
  split; [done|]. apply Hout; unfold STAMPS; simpl; intuition discriminate.
Qed.

Lemma poll_moved_phase entry f phase reason expired (w : World E) e w' :
  poll_moved cfg entry f phase reason expired w = (Ok e, w') ->
  (get e "phase" = VStr "parked-infrastructure" \/ get e "phase" = VStr phase /\ (phase = "rebasing" -> expired = false))
  /\ same_field e entry "patience".
Proof.
  unfold poll_moved. destruct (String.eqb phase "rebasing" && expired) eqn:Eb.
  - intros [Hp Hs]%park_phase. auto.
  - intros (res & w1 & Hc & Hp)%sbind_Ok. apply sbind_Ok in Hp as (? & w2 & _ & [<- _]%sret_Ok).
    apply checks_progress_writes in Hc as (Hph & _ & Hout); [|by apply (bool_decide_unpack _)].
    split; [right; split; [done|]|apply Hout; unfold STAMPS; simpl; intuition discriminate].
    intros ->. by apply andb_false_iff in Eb as [Eb|Eb].
Qed.

(** Where a settled observation leads, and when it may go on waiting. *)
Lemma poll_settle_phase entry f kind reason checks patience expired (w : World E) e w' :
  poll_settle cfg entry f kind reason checks patience expired w = (Ok e, w') ->
  same_field e entry "patience"
  /\ (get e "phase" = VStr "finalizing" /\ kind = "green" /\ get e "checks" = checks
        /\ (forall k, In k ["entryId"; "lane"; "prNumber"; "head"; "candidate"; "exactBase"; "rebase"] -> same_field e entry k)
      \/ get e "phase" = VStr "returned-to-closer" \/ get e "phase" = VStr "parked-infrastructure"
      \/ get e "phase" = VStr "waiting-checks" /\ exists env0, past (fst (clock env0)) patience = false).
Proof.
  unfold poll_settle. destruct (String.eqb kind "green") eqn:Eg.
  { intros (Hph & Hin & Hout)%checks_progress_writes; [|by apply (bool_decide_unpack _)].
    apply String.eqb_eq in Eg as ->. split; [apply Hout; unfold STAMPS; simpl; intuition discriminate|].
    left. split; [done|]. split; [done|]. split; [apply Hin; unfold STAMPS; simpl; intuition discriminate|].
    intros k Hk. apply Hout; unfold STAMPS; simpl in *; intuition congruence. }
  destruct (String.eqb kind "red").
  { intros (res & w1 & Hc & Hp)%sbind_Ok. apply sbind_Ok in Hp as (? & w2 & _ & [<- _]%sret_Ok).
    apply checks_progress_writes in Hc as (Hph & _ & Hout); [|by apply (bool_decide_unpack _)].
    split; [apply Hout; unfold STAMPS; simpl; intuition discriminate | auto]. }
  intros (over & w1 & Ho & Hp)%sbind_Ok. destruct over; [apply park_phase in Hp as [Hp Hs]; auto|].
  apply checks_progress_writes in Hp as (Hph & _ & Hout); [|by apply (bool_decide_unpack _)].
  split; [apply Hout; unfold STAMPS; simpl; intuition discriminate|]. do 3 right. split; [done|].
  destruct expired; [by apply sret_Ok in Ho as [Ho _]|].
  apply sbind_Ok in Ho as (t & w2 & Ht & [Ho _]%sret_Ok). exists (env w). by apply now_reads in Ht as <-.
Qed.

Lemma poll_classify_green entry checks live dl x (w : World E) r w' :
  poll_classify entry checks live dl x w = (Ok ("green", r), w') ->
  strict_eq (oget checks "head") (get entry "candidate") = true /\ strict_eq (oget checks "base") (get entry "exactBase") = true
  /\ oget checks "complete" = VBool true /\ cd_kind (classifyQueueChecks checks) = "green"
  /\ exists env0, before (fst (clock env0)) dl = true.
Proof.
  unfold poll_classify. intros (valid & w1 & Hv & Hp)%sbind_Ok. apply sbind_Ok in Hp as (c & w2 & Hc & [Hr _]%sret_Ok).
  destruct (strict_eq _ _ && strict_eq _ _) eqn:Eb; [|by apply sret_Ok in Hv as [<- _]].
  apply andb_true_iff in Eb as [E1 E2]. split; [done|]. split; [done|].
  apply sbind_Ok in Hv as (t & w3 & Ht & [Hb _]%sret_Ok).
  destruct valid; [|done]. apply slift_Ok in Hc as [Hc _]. apply rbind_Ok in Hc as (m & Hm%member_oget & [= Hc]).
  destruct c; [|done]. cbn [andb] in Hr. injection Hr as Hk _. apply is_true_eq in Hc.
  split; [congruence|]. split; [done|]. exists (env w). by apply now_reads in Ht as <-.
Qed.

(** What stands behind a candidate that goes on to its finalization. *)
Record green_evidence (entry : obj) (checks : val) (w w' : World E) : Prop := {
  ge_published : published entry = Ok true;
  ge_read : exists live, reads [("live", live); ("checks", checks)] w w'
    /\ exists r, subjectDecision (VObj entry) live = Some ("waiting-checks", r);
  ge_head : strict_eq (oget checks "head") (get entry "candidate") = true;
  ge_base : strict_eq (oget checks "base") (get entry "exactBase") = true;
  ge_complete : oget checks "complete" = VBool true;
  ge_green : cd_kind (classifyQueueChecks checks) = "green"
}.
Definition CANDIDATE_FIELDS : list string := ["entryId"; "lane"; "prNumber"; "head"; "candidate"; "exactBase"; "rebase"].

(** Outcomes of an observation of [entry]. *)
Lemma observe_outcome entry f (w : World E) e w' :
  observe cfg entry f w = (Ok e, w') ->
  same_field e entry "patience"
  /\ (get e "phase" = VStr "finalizing" /\ green_evidence entry (get e "checks") w w'
        /\ (forall k, In k CANDIDATE_FIELDS -> same_field e entry k)
      \/ In (get e "phase") [VStr "returned-to-closer"; VStr "parked-infrastructure"; VStr "closed-observed"]
      \/ In (get e "phase") [VStr "waiting-checks"; VStr "rebasing"]
         /\ exists dl env0, patience_deadline entry = Ok dl /\ past (fst (clock env0)) dl = false).
Proof.
  unfold observe. intros (ok & w1 & [Hpub ->]%slift_Ok & Hp)%sbind_Ok. destruct ok; cbn [negb] in Hp; [|done].
  apply sbind_Ok in Hp as (t & w2 & Ht & Hp). apply sbind_Ok in Hp as (pa & w3 & [Hpa ->]%slift_Ok & Hp). cbv zeta in Hp.
  apply sbind_Ok in Hp as (dl & w4 & Hdl & Hp). apply sbind_Ok in Hp as (live & w5 & Hlive & Hp).
  apply sbind_Ok in Hp as ([] & w6 & Hcur & Hp).
  assert (Hexp : past t pa = false -> exists env0, past (fst (clock env0)) pa = false).
  { intros Hx. exists (env w). by apply now_reads in Ht as <-. }
  assert (Q4 : quietly w w4).
  { eapply quietly_trans; [eapply quiet_run_of; [|exact Ht] | eapply quiet_run_of; [|exact Hdl]]; apply _. }
  apply quiet_run_of in Hcur as Q6; [|apply _].
  destruct (subjectDecision (VObj entry) live) as [[phase reason]|] eqn:Es.
  - destruct (String.eqb phase "waiting-checks") eqn:Ep; cbn [negb] in Hp.
    2: { apply poll_moved_phase in Hp as [Hph Hpt]. split; [done|]. apply subject_phase in Es as Hin.
         destruct Hph as [->|[Hph Hre]]; [right; left; simpl; tauto|]. right. rewrite Hph.
         simpl in Hin. destruct Hin as [<-|[<-|[<-|[<-|[]]]]]; [left; simpl; tauto.. | | done].
         right. split; [simpl; tauto|]. destruct (Hexp (Hre eq_refl)) as (e0 & He). by exists pa, e0. }
    apply String.eqb_eq in Ep as ->.
    apply sbind_Ok in Hp as (checks & w7 & Hch & Hp). apply sbind_Ok in Hp as ([] & w8 & Hcur2 & Hp).
    apply quiet_run_of in Hcur2 as Q8; [|apply _].
    apply sbind_Ok in Hp as ([kind r] & w9 & Hcl & Hp). apply quiet_run_of in Hcl as Q9; [|apply _].
    apply quiet_run_of in Hp as Q10; [|apply _]. cbn [fst snd] in Hp.
    apply poll_settle_phase in Hp as [Hpt [(Hph & -> & Hcks & Hf)|[->|[->|[-> (e0 & He)]]]]]; (split; [done|]);
      [left | right; left; simpl; tauto.. | right; right; split; [simpl; tauto | by exists pa, e0]].
    split; [done|]. split; [|done]. apply poll_classify_green in Hcl as (H1 & H2 & H3 & H4 & _). rewrite Hcks.
    split; try done. exists live. split; [|eauto].
    eapply reads_before; [exact Q4|]. apply (reads_app [_] [_] _ w6).
    + eapply reads_after; [|exact Q6]. eapply unread_or_read; [exact Hlive|]. by rewrite Es.
    + eapply reads_after; [|eapply quietly_trans; [exact Q8|]; eapply quietly_trans; [exact Q9|exact Q10]].
      destruct (checks_read_answer _ _ _ _ _ _ _ Hch) as [?|[Hn _]]; done.
  - apply sbind_Ok in Hp as ([] & w8 & Hcur2 & Hp). apply sbind_Ok in Hp as ([kind r] & w9 & Hcl & Hp). cbn [fst snd] in Hp.
    apply poll_settle_phase in Hp as [Hpt [(Hph & -> & Hcks & Hf)|[->|[->|[-> (e0 & He)]]]]]; (split; [done|]);
      [|right; left; simpl; tauto.. | right; right; split; [simpl; tauto | by exists pa, e0]].
    by apply poll_classify_green in Hcl as (_ & _ & H3 & _).
Qed.

(** Either the parked entry itself, or what one observation makes of an entry. *)
Lemma poll_inv f i (w : World E) e w' :
  poll cfg f i w = (Ok e, w') ->
  get e "phase" = VStr "parked-infrastructure" \/ exists entry w1, quietly w w1 /\ observe cfg entry f w1 = (Ok e, w').
Proof.
  unfold poll. intros (entry & w1 & [_ Q1]%own_entry_Ok & Hp)%sbind_Ok.
  apply sbind_Ok in Hp as ([] & w2 & Hc & Hp). apply quiet_run_of in Hc as Q2; [|apply _].
  destruct (is_str _ _ && _) eqn:Eb.
  - apply sbind_Ok in Hp as (? & w3 & _ & Hp). apply sbind_Ok in Hp as (? & w4 & _ & [<- _]%sret_Ok).
    left. by apply andb_true_iff in Eb as [Eb%is_str_eq _].
  - right. apply sbind_Ok in Hp as (e1 & w3 & Hr & Hp). apply quiet_run_of in Hr as Q3; [|apply _].
    exists e1, w3. split; [|done]. eapply quietly_trans; [exact Q1|]. by eapply quietly_trans.
Qed.

(** C12. A poll sends a candidate on to its finalization only on evidence read in
    that poll, in this order and with no mutation in between: a live subject that
    is open at the candidate and the exact base, then a complete snapshot of the
    checks of this candidate on this base whose classification is green. The
    candidate was the published one, the snapshot is what the entry keeps, and no
    field that identifies the candidate is changed. *)
Theorem poll_advances_on_green (f : Fence) (entryId : val) (w w' : World E) (e : obj) :
  poll cfg f entryId w = (Ok e, w') -> get e "phase" = VStr "finalizing" ->
  exists entry, green_evidence entry (get e "checks") w w' /\ (forall k, In k CANDIDATE_FIELDS -> same_field e entry k).
Proof.
  intros [Hp|(entry & w1 & Q & Hp)]%poll_inv Hf; [by rewrite Hf in Hp|].
  apply observe_outcome in Hp as [_ [(_ & Hg & Hk)|[Hin|[Hin _]]]]; [|rewrite Hf in Hin; simpl in Hin; intuition discriminate..].
  exists entry. split; [|done]. destruct Hg as [G1 (live & Hr & Hs) G3 G4 G5 G6].
  split; try done. exists live. split; [by eapply reads_before | done].
Qed.

Lemma deep_eq_text v v' k s : deep_eq v v' = true -> oget v k = VStr s -> oget v' k = VStr s.
Proof.
  intros Hd Hk. destruct v as [| | | | | |o]; try done. destruct v' as [| | | | | |p]; try done.
  apply deep_eq_obj in Hd as [_ Hf]. simpl in *. rewrite Forall_forall in Hf. unfold get in *.
  destruct (map_get o k) as [x|] eqn:Eo; [|done]. subst x.
  destruct (Hf (k, VStr s)) as (x & Hx & Hd); [by apply list_elem_of_In, map_get_In|]. simpl in Hx, Hd. rewrite Hx.
  destruct x; try done. by apply String.eqb_eq in Hd as ->.
Qed.

(** Waiting for checks is bounded: once the clock has reached the patience
    deadline of an entry, no poll leaves it waiting or sends it back to a rebase.
    A poll that answers has parked it, returned it, closed it, or taken it on to
    its finalization. *)
Theorem expired_poll_never_waits (f : Fence) (entryId : val) (w w' : World E) (e : obj) (deadline : string) :
  poll cfg f entryId w = (Ok e, w') -> oget (get e "patience") "deadline" = VStr deadline ->
  (forall env0, past (fst (clock env0)) (VStr deadline) = true) ->
  In (get e "phase") (map VStr ["parked-infrastructure"; "returned-to-closer"; "closed-observed"; "finalizing"]).
Proof.
  intros [Hp|(entry & w1 & _ & Hp)]%poll_inv Hd Hpast; [rewrite Hp; simpl; tauto|].
  apply observe_outcome in Hp as [Hs [(-> & _)|[Hin|[_ (dl & env0 & Hdl & Hn)]]]]; [simpl; tauto | simpl in *; tauto|].
  exfalso. destruct Hs as [Hs|Hs]; [by rewrite Hs in Hd|].
  apply (deep_eq_text _ _ _ _ Hs) in Hd. apply member_oget in Hdl as ->. rewrite Hd in Hn. specialize (Hpast env0). congruence.
Qed.

End ChecksFacts.

(** ** A probe readmits on fresh evidence *)

Section ProbeFacts.
Context {hostDate : HostDate} {sqliteText : SqliteText} {sha256 : Sha256}.
Context (checkPrimaryChange : val -> val -> val -> result val).
Context {E : Type} {queueEnv : QueueEnv E}.
Context (cfg : ChecksConfig (E := E)).

Definition derivation_of (entry : obj) : val :=
  if strict_eq (get entry "candidate") (get entry "head") then VNull else VObj [("head", get entry "candidate")].

(** The second look: what was read after the proof admits the entry. *)
Record admitted_now (entry : obj) (receipt fresh : val) : Prop := {
  an_subject : exists r, subjectDecision (VObj entry) fresh = Some ("waiting-checks", r);
  an_ready : exists d, classifyQueueAdmission checkPrimaryChange (VObj entry) receipt fresh (derivation_of entry) = Ok d
    /\ d_phase d = "ready"
}.

Ltac not_ready Hp He :=
  first [ apply sret_Ok in Hp as [<- _]; congruence
        | apply checks_progress_writes in Hp as (Hp & _); [congruence | by apply (bool_decide_unpack _)] ].

Lemma gone_not_ready phase : str_in phase GONE = true -> phase <> "ready".
Proof. by intros H ->. Qed.

Lemma readmit_ready entry f receipt checks dl (w : World E) e w' :
  readmit checkPrimaryChange cfg entry f receipt checks dl w = (Ok e, w') ->
  get e "phase" = VStr "ready" -> get entry "phase" <> VStr "ready" ->
  exists fresh, reads [("live", fresh)] w w' /\ admitted_now entry receipt fresh
    /\ get e "checks" = checks /\ oget (get e "infrastructure") "recovered" = VBool true
    /\ (forall k, In k CANDIDATE_FIELDS -> same_field e entry k).
Proof.
  unfold readmit. intros (fresh & w1 & Hf & Hp)%sbind_Ok He Hn. apply sbind_Ok in Hp as ([] & w2 & Hc & Hp).
  apply quiet_run_of in Hc as Q2; [|apply _].
  destruct (subjectDecision (VObj entry) fresh) as [[phase reason]|] eqn:Es; [|not_ready Hp He].
  destruct (str_in phase GONE) eqn:Eg.
  { apply gone_not_ready in Eg. not_ready Hp He. }
  destruct (String.eqb phase "waiting-checks") eqn:Ep; cbn [negb] in Hp; [|not_ready Hp He]. apply String.eqb_eq in Ep as ->.
  apply sbind_Ok in Hp as (d & w3 & [Hd ->]%slift_Ok & Hp).
  destruct (String.eqb (d_phase d) "returned-to-closer"); [not_ready Hp He|].
  destruct (String.eqb (d_phase d) "ready") eqn:Er; cbn [negb] in Hp; [|not_ready Hp He]. apply String.eqb_eq in Er.
  apply sbind_Ok in Hp as (t & w4 & Ht & Hp). apply quiet_run_of in Ht as Q4; [|apply _].
  destruct (past t dl); [not_ready Hp He|]. apply sbind_Ok in Hp as (t2 & w5 & Ht2 & Hp). apply quiet_run_of in Ht2 as Q5; [|apply _].
  apply quiet_run_of in Hp as Q6; [|apply _].
  apply checks_progress_writes in Hp as (_ & Hin & Hout); [|by apply (bool_decide_unpack _)].
  exists fresh. split.
  { eapply reads_after; [eapply unread_or_read; [exact Hf | by rewrite Es]|].
    eapply quietly_trans; [exact Q2|]. eapply quietly_trans; [exact Q4|]. by eapply quietly_trans. }
  split; [split; eauto|]. split; [apply Hin; unfold STAMPS; simpl; intuition discriminate|]. split.
  - erewrite Hin; [|simpl; right; left; reflexivity | done | unfold STAMPS; simpl; intuition discriminate].
    unfold infrastructure_with, oget. apply get_spread_in; [|simpl; auto]. by apply (bool_decide_unpack _).
  - intros k Hk. apply Hout; unfold STAMPS; simpl in *; intuition congruence.
Qed.

Lemma reprobe_proof_true entry dl (w : World E) receipt w' :
  reprobe_proof cfg entry dl w = (Ok (receipt, true), w') ->
  (exists d, handoffDigest (submitted receipt) = Ok d /\ is_str (oget (get entry "rebase") "sourceReceiptDigest") d = true)
  /\ exists w1, verifyQueueDerivation (c_gitVerify cfg) entry dl w1 = (Ok true, w').
Proof.
  unfold reprobe_proof. intros (got & w1 & _ & Hp)%sbind_Ok. destruct got as [[r|]|]; [|by apply sret_Ok in Hp as [? _]..].
  apply sbind_Ok in Hp as (proof & w2 & Ha%attempt_Ok & [Hp ->]%sret_Ok). injection Hp as <- Hp.
  destruct proof as [b|]; [|done]. subst b. destruct (truthy r); [|done].
  apply sbind_Ok in Ha as (d & w3 & [Hd ->]%slift_Ok & Ha). destruct (is_str _ d) eqn:Ei; [|done]. eauto.
Qed.

(** What stands behind a parked entry that rejoins the tail of its lane. *)
Record recovery_evidence (entry : obj) (checks : val) (w w' : World E) : Prop := {
  rv_head : strict_eq (oget checks "head") (get entry "candidate") = true;
  rv_base : strict_eq (oget checks "base") (get entry "exactBase") = true;
  rv_green : cd_kind (classifyQueueChecks checks) = "green";
  rv_proved : exists receipt fresh dl w1 w2,
    (exists d, handoffDigest (submitted receipt) = Ok d /\ is_str (oget (get entry "rebase") "sourceReceiptDigest") d = true)
    /\ verifyQueueDerivation (c_gitVerify cfg) entry dl w1 = (Ok true, w2)
    /\ reads [("checks", checks)] w w2 /\ reads [("live", fresh)] w2 w' /\ admitted_now entry receipt fresh
}.

Lemma reprobe_checks_ready entry f dl (w : World E) e w' :
  reprobe_checks checkPrimaryChange cfg entry f dl w = (Ok e, w') ->
  get e "phase" = VStr "ready" -> get entry "phase" <> VStr "ready" ->
  recovery_evidence entry (get e "checks") w w' /\ oget (get e "infrastructure") "recovered" = VBool true
  /\ (forall k, In k CANDIDATE_FIELDS -> same_field e entry k).
Proof.
  unfold reprobe_checks. intros (checks & w1 & Hc & Hp)%sbind_Ok He Hn. apply sbind_Ok in Hp as ([] & w2 & Hcur & Hp).
  apply quiet_run_of in Hcur as Q2; [|apply _].
  destruct (strict_eq _ _ && strict_eq _ _) eqn:Eb; cbn [negb] in Hp; [|not_ready Hp He]. apply andb_true_iff in Eb as [E1 E2].
  destruct (String.eqb _ "red"); [not_ready Hp He|]. destruct (String.eqb _ "green") eqn:Eg; cbn [negb] in Hp; [|not_ready Hp He].
  apply String.eqb_eq in Eg. apply sbind_Ok in Hp as ([receipt b] & w3 & Hpr & Hp).
  apply quiet_run_of in Hpr as Q3; [|apply _]. apply sbind_Ok in Hp as ([] & w4 & Hcur2 & Hp).
  apply quiet_run_of in Hcur2 as Q4; [|apply _]. cbn [fst snd] in Hp. destruct b; cbn [negb] in Hp; [|not_ready Hp He].
  apply sbind_Ok in Hp as (t & w5 & Ht & Hp). apply quiet_run_of in Ht as Q5; [|apply _].
  destruct (past t dl); [not_ready Hp He|].
  apply readmit_ready in Hp as (fresh & Hr & Ha & <- & Hrec & Hf); [|done..]. split; [|done].
  apply reprobe_proof_true in Hpr as [Hd (w6 & Hv)]. split; [done..|]. exists receipt, fresh, dl, w6, w3.
  split; [done|]. split; [done|]. split; [|split; [|done]].
  - eapply reads_after; [|eapply quietly_trans; [exact Q2 | exact Q3]].
    destruct (checks_read_answer _ _ _ _ _ _ _ Hc) as [?|[Hx _]]; [done|]. by destruct (checks_green_grounded _ Eg).
  - eapply reads_before; [|exact Hr]. by eapply quietly_trans.
Qed.

Lemma probe_ready entry f (w : World E) e w' :
  probe checkPrimaryChange cfg entry f w = (Ok e, w') -> get e "phase" = VStr "ready" ->
  exists entry1 live w1, reads [("live", live)] w w1 /\ (exists r, subjectDecision (VObj entry1) live = Some ("waiting-checks", r))
    /\ (forall k, In k CANDIDATE_FIELDS -> same_field entry1 entry k)
    /\ recovery_evidence entry1 (get e "checks") w1 w' /\ oget (get e "infrastructure") "recovered" = VBool true
    /\ (forall k, In k CANDIDATE_FIELDS -> same_field e entry1 k).
Proof.
  unfold probe. intros Hp He. apply sbind_Ok in Hp as (t & w1 & H1 & Hp). apply sbind_Ok in Hp as (ms & w2 & H2 & Hp).
  apply sbind_Ok in Hp as (dl & w3 & [_ ->]%slift_Ok & Hp). apply sbind_Ok in Hp as (nx & w4 & [_ ->]%slift_Ok & Hp).
  apply sbind_Ok in Hp as (entry1 & w5 & Hpr & Hp). cbv zeta in Hp.
  apply sbind_Ok in Hp as (live & w6 & Hl & Hp). apply sbind_Ok in Hp as ([] & w7 & Hc & Hp).
  assert (Q : quietly w w5).
  { eapply quietly_trans; [eapply quiet_run_of; [|exact H1]; apply _|].
    eapply quietly_trans; [eapply quiet_run_of; [|exact H2]; apply _ | eapply quiet_run_of; [|exact Hpr]; apply _]. }
  apply quiet_run_of in Hc as Q7; [|apply _].
  apply checks_progress_writes in Hpr as (Hph & _ & Hout); [|by apply (bool_decide_unpack _)].
  destruct (subjectDecision (VObj entry1) live) as [[phase r]|] eqn:Es; [|not_ready Hp He].
  destruct (str_in phase GONE) eqn:Eg; [apply gone_not_ready in Eg; not_ready Hp He|].
  destruct (String.eqb phase "waiting-checks") eqn:Ep; cbn [negb] in Hp; [|not_ready Hp He]. apply String.eqb_eq in Ep as ->.
  apply reprobe_checks_ready in Hp as (Hev & Hrec & Hf); [|done | by rewrite Hph].
  exists entry1, live, w7. split.
  { eapply reads_before; [exact Q|]. eapply reads_after; [|exact Q7]. eapply unread_or_read; [exact Hl | by rewrite Es]. }
  split; [eauto|]. split; [|done]. intros k Hk. apply Hout; unfold STAMPS; simpl in *; intuition congruence.
Qed.

End ProbeFacts.

(** ** Concrete inputs *)

#[local] Existing Instance ex_host.
#[local] Existing Instance ex_text.
#[local] Existing Instance length_digest.
#[local] Existing Instance still_env.
(** The same environment an hour later, past the patience of the entry. *)
Definition late_env : QueueEnv unit := {|
  clock := fun e => ("2026-10-23T01:00:00.000Z", e); load_scaled := fun e n => (n, e); lock_is_free := fun e _ => (true, e) |}.

Definition to_waiting : list (string * obj) := [("ready", []); ("rebasing", []); ("publishing", ex_published); ("waiting-checks", [])].
Definition ex_waiting : World unit := ex_world_after to_waiting.
Definition ex_parked : World unit := ex_world_after (to_waiting ++
  [("parked-infrastructure", [("infrastructure", VObj [("dependency", VStr "checks"); ("recovered", VBool false);
                                                       ("nextProbeAt", VStr "2026-10-23T00:00:45.000Z")])])]).
Definition ex_checks_service (checks : result val) : ChecksConfig (E := unit) := {|
  c_checkReader := Some (fun _ _ t e => (checks, t, e)); c_liveAdapter := Some (fun _ _ => answers ex_open);
  c_gitVerify := fun _ => answers ex_proof; c_pageAdapter := Some (fun _ _ => answers (VObj [("id", VStr "alert:1")])) |}.

Definition ex_poll (checks : result val) : result obj * World unit :=
  poll (ex_checks_service checks) ex_qfence ex_entry_id ex_waiting.
Definition ex_late_poll (checks : result val) : result obj * World unit :=
  poll (queueEnv := late_env) (ex_checks_service checks) ex_qfence ex_entry_id ex_waiting.
Definition ex_reprobe (checks : result val) : result obj * World unit :=
  reprobe preserved (ex_checks_service checks) ex_qfence ex_entry_id ex_parked.
Definition entry_of (r : result obj * World unit) : obj := match fst r with Ok e => e | Throw _ => [] end.
Definition outage : result val := Throw (MarkedError "HTTP 401" true None).

Example checks_service_examples :
  (map (fun c => (get (entry_of (ex_poll c)) "phase", get (entry_of (ex_poll c)) "reason")) [Ok ex_green; outage; Throw (PlainError "checks-stale-sha")],
   map (fun c => (get (entry_of (ex_late_poll c)) "phase", length (pages (tables (snd (ex_late_poll c)))))) [Ok ex_green; outage],
   map (fun c => get (entry_of (ex_reprobe c)) "phase") [Ok ex_green; outage])
  = ([(VStr "finalizing", VStr "exact-candidate-checks-green"); (VStr "waiting-checks", VStr "credential-outage");
      (VStr "waiting-checks", VStr "checks-stale-sha")],
     [(VStr "parked-infrastructure", 1%nat); (VStr "parked-infrastructure", 1%nat)],
     [VStr "ready"; VStr "parked-infrastructure"]).
Proof. vm_compute. reflexivity. Qed.

Lemma run_of (r : result obj * World unit) : is_ok (fst r) = true -> r = (Ok (entry_of r), snd r).
Proof. destruct r as [[e|x] w]; [done | done]. Qed.

Lemma poll_advances_on_green_witness :
  exists entry, strict_eq (oget ex_green "head") (get entry "candidate") = true.
Proof.
  destruct (poll_advances_on_green (ex_checks_service (Ok ex_green)) ex_qfence ex_entry_id ex_waiting (snd (ex_poll (Ok ex_green)))
    (entry_of (ex_poll (Ok ex_green)))) as (entry & Hg & _).
  - apply run_of. vm_compute. reflexivity.
  - vm_compute. reflexivity.
  - exists entry. pose proof (ge_head _ _ _ _ Hg) as Hh. clear Hg. revert Hh. vm_compute. auto.
Defined.

Lemma expired_poll_never_waits_witness :
  In (get (entry_of (ex_late_poll outage)) "phase")
    (map VStr ["parked-infrastructure"; "returned-to-closer"; "closed-observed"; "finalizing"]).
Proof.
  apply (expired_poll_never_waits (queueEnv := late_env) (ex_checks_service outage) ex_qfence ex_entry_id ex_waiting
    (snd (ex_late_poll outage)) (entry_of (ex_late_poll outage)) "2026-10-23T00:30:00.000Z").
  - apply run_of. vm_compute. reflexivity.
  - vm_compute. reflexivity.
  - intros []. vm_compute. reflexivity.
Defined.

Definition ex_parked_entry : obj :=
  match readEntry (queue_of (tables ex_parked)) ex_entry_id with Ok (Some e) => e | _ => [] end.
