(* ===== verification/QueueReconcile.v ===== *)
(** * The admission service of the queue (queue-admission.mjs)

    The order of a lane, and the reconciliation that moves an acknowledged, ready
    or parked entry by live evidence. The classification of the evidence is in
    QueueAdmission, the receipts in HandoffStore. *)

From Stdlib Require Import ZArith Lia Ascii SpecFloat.
From stdpp Require Import base list strings gmap.
From S2P Require Import Prelude JsNum JsValue JsDate LedgerEvents LedgerStore MergeEligibility.
From S2P Require Import QueueLane QueueStore QueueOwner QueueAdmission QueueHandoff HandoffStore QueueService.

(** [phase.startsWith('parked-')]. *)
Definition parked (phase : val) : bool := match phase with VStr s => String.prefix "parked-" s | _ => false end.
Definition terminal_phase (phase : val) : bool := val_in phase TERMINAL_PHASES.

Section Reconcile.
Context {hostDate : HostDate} {sqliteText : SqliteText} {sha256 : Sha256}.
Variable checkPrimaryChange : val -> val -> val -> result val.
Context {E : Type} {queueEnv : QueueEnv E}.
Abbreviation M := (SM (E := E)).

(** ** [order(lane)] *)

Record Order := { o_actionable : list obj; o_parked : list obj; o_terminal : list obj }.
Definition order (d : Db) (lane : val) : result Order :=
  let* l := resolveLaneKey lane in
  let* all := entries d (lane_val l) in
  Ok {| o_actionable := filter_b (fun e => actionable (get e "phase")) all;
        o_parked := filter_b (fun e => parked (get e "phase")) all;
        o_terminal := filter_b (fun e => terminal_phase (get e "phase")) all |}.
Definition is_first (o : Order) (entryId : val) : bool :=
  match o_actionable o with e :: _ => strict_eq (get e "entryId") entryId | [] => strict_eq VUndef entryId end.

(** ** [reconcile] *)

Record AdmissionConfig := { a_liveAdapter : option (Reader E); a_gitVerify : GitVerify (E := E) }.
Variable cfg : AdmissionConfig.

(** [new Date(Math.min(Date.parse(a), Date.parse(b))).toISOString()]. *)
Definition min_deadline (a b : val) : result string :=
  match date_parse (to_str a), date_parse (to_str b) with
  | Some x, Some y => date_to_iso (num_of_Z (Z.min x y))
  | _, _ => Throw (RangeError "Invalid time value")
  end.
Definition run_deadline (entry : obj) (deadline : val) : result string :=
  let* patience := patience_deadline entry in
  let* d := if is_nullish deadline then Ok patience else let* d := queueTime deadline in Ok (VStr d) in
  min_deadline d patience.

Definition now_time : M string := let! t := now in slift (queueTime (VStr t)).
(** [queueWaitMs(5_000, { ceilingMs: 30_000, deadline, now: started, load })]. *)
Definition wait_from (deadline started : string) : M Z :=
  let! s := scaled 5000 in slift (queueWaitMs s 30000 (Some deadline) started).

(** The receipt on file and the live answer; null for what cannot be read. *)
Definition read_evidence (entry : obj) (waitMs : Z) : M (val * val) :=
  if (waitMs =? 0)%Z then sret (VNull, VNull)
  else
    let! got := attempt (receipt_of entry) in
    let receipt := match got with Ok (Some r) => r | _ => VNull end in
    let! live := attempt (readQueueEvidence "live" (a_liveAdapter cfg)
      [("entry", VObj entry); ("kind", coalesce (oget receipt "kind") VNull)] waitMs) in
    sret (receipt, match live with Ok v => v | Throw _ => VNull end).

(** The live head is our own rewrite of the admitted head, by the persisted candidate. *)
Definition derivable (entry : obj) (receipt live : val) : bool :=
  let head := oget (oget live "subject") "head" in
  is_str (oget (oget live "subject") "state") "open" && truthy (get entry "candidate")
  && negb (sameSha (get entry "candidate") (get entry "head")) && negb (sameSha head (get entry "head"))
  && some_b (fun h => sameSha head h) [get entry "candidate"; get entry "expectedOldHead"]
  && truthy (get entry "proof") && truthy receipt.

Inductive Derivation := NoDerivation | Derived (head : val) | ProofUnavailable.
Definition derive (entry : obj) (receipt live : val) (deadline : string) : M Derivation :=
  let! t := now in
  if negb (match date_parse t, date_parse deadline with Some z, Some due => (z <? due)%Z | _, _ => false end
           && derivable entry receipt live)
  then sret NoDerivation
  else
    let! d := slift (handoffDigest (submitted receipt)) in
    if negb (is_str (oget (get entry "rebase") "sourceReceiptDigest") d) then sret NoDerivation
    else
      let! proof := attempt (verifyQueueDerivation (a_gitVerify cfg) entry (VStr deadline)) in
      sret (match proof with
            | Ok true => Derived (oget (oget live "subject") "head")
            | Ok false => NoDerivation
            | Throw _ => ProofUnavailable
            end).
Definition derivation_val (d : Derivation) : val := match d with Derived h => VObj [("head", h)] | _ => VNull end.

Definition expired_decision : Disposition := disposition "parked-infrastructure" "admission-deadline-expired".
Definition decide (entry : obj) (receipt live : val) (derivation : Derivation) (at_ deadline : string) : result Disposition :=
  if past at_ (VStr deadline) then Ok expired_decision
  else match derivation with
       | ProofUnavailable => Ok (disposition "parked-infrastructure" "rebase-git-unavailable")
       | _ => classifyQueueAdmission checkPrimaryChange (VObj entry) receipt live (derivation_val derivation)
       end.

(** What [evaluateMergeEligibility] answered, as the object it is. *)
Definition eligibility_val (m : MergeEligibility) : val :=
  let field k (v : option val) := match v with Some x => [(k, x)] | None => [] end in
  VObj ([("eligible", VBool (m_eligible m)); ("reasons", VArr (m_reasons m))]
        ++ field "guardReversals" (m_guardReversals m) ++ field "derivedChanges" (m_derivedChanges m)).
Definition admission_patch (decision : Disposition) (receipt live : val) (at_ : string) : obj :=
  let field k := coalesce (oget live k) VNull in
  [("reason", d_reason decision);
   ("admission", VObj [("kind", coalesce (oget receipt "kind") VNull); ("observedAt", VStr at_); ("subject", field "subject");
      ("structuralSourceRef", field "structuralSourceRef");
      ("eligibility", match d_eligibility decision with Some m => eligibility_val m | None => VNull end);
      ("currentReview", field "currentReview"); ("identity", field "identity"); ("permission", field "permission")])].

Definition entry_or_null (e : option obj) : val := match e with Some o => VObj o | None => VNull end.

(** The committing transaction: nothing is written over an entry that moved. *)
Definition commit_decision (f : Fence) (entryId : val) (entry : obj) (decision : Disposition) (receipt live : val)
    (at_ deadline : string) : M val :=
  stx (
    let! t := now_time in
    let! _ := assertFence_ f (VStr t) in
    let! found := readEntry_ entryId in
    if negb (match found with Some e => deep_eq (VObj e) (VObj entry) | None => false end) then sret (entry_or_null found)
    else
      let! t := now in
      let decision := if past t (VStr deadline) then expired_decision else decision in
      let! first := (if String.eqb (d_phase decision) "ready" && negb (parked (get entry "phase")) then
                       let! o := look (fun t => order (queue_of t) (get entry "lane")) in
                       let! o := slift o in sret (is_first o entryId)
                     else sret true) in
      if negb first then sret (entry_or_null found)
      else if is_str (get entry "phase") (d_phase decision) && strict_eq (d_reason decision) (get entry "reason")
      then sret (entry_or_null found)
      else
        let! t := now_time in
        let! e := on_queue (fun d => progress d f
          {| p_entryId := entryId; p_phase := d_phase decision; p_patch := admission_patch decision receipt live at_;
             p_at := VStr t; p_readmit := parked (get entry "phase") && String.eqb (d_phase decision) "ready";
             p_observation := VUndef; p_expected := Some entry |}) in
        sret (VObj e)).

(** The evidence read, the decision and its commit. *)
Definition reconcile_live (f : Fence) (entryId deadline : val) (entry : obj) : M val :=
  let! started := now_time in
  let! deadline := slift (run_deadline entry deadline) in
  let! waitMs := wait_from deadline started in
  let! seen := read_evidence entry waitMs in
  let '(receipt, live) := seen in
  let! derivation := derive entry receipt live deadline in
  let! at_ := now_time in
  let! decision := slift (decide entry receipt live derivation at_ deadline) in
  let! _ := wait_from deadline at_ in
  commit_decision f entryId entry decision receipt live at_ deadline.

(** [reconcile({ fence, entryId, deadline })]. *)
Definition reconcile (f : Fence) (entryId deadline : val) : M val :=
  let! found := readEntry_ entryId in
  match found with
  | None => sthrow (PlainError "foreign queue entry")
  | Some entry =>
      let! l := slift (resolveLaneKey (lane_val (f_lane f))) in
      if negb (deep_eq (get entry "lane") (lane_val l)) then sthrow (PlainError "foreign queue entry")
      else
        let! t := now_time in
        let! _ := assertFence_ f (VStr t) in
        if terminal_phase (get entry "phase") then sret (VObj entry)
        else if negb (val_in (get entry "phase") ["acknowledged"; "ready"]) && negb (parked (get entry "phase"))
        then sthrow (PlainError "entry belongs to execution recovery")
        else reconcile_live f entryId deadline entry
  end.
End Reconcile.

(** ** Facts *)

Section ReconcileFacts.
Context {hostDate : HostDate} {sqliteText : SqliteText} {sha256 : Sha256}.
Context (checkPrimaryChange : val -> val -> val -> result val).
Context {E : Type} {queueEnv : QueueEnv E}.
Context (cfg : AdmissionConfig (E := E)).

#[global] Instance now_time_quiet : Quiet (E := E) now_time.
Proof. unfold now_time. quiet. Qed.
#[global] Instance wait_from_quiet d s : Quiet (E := E) (wait_from d s).
Proof. unfold wait_from. quiet. Qed.
#[global] Instance read_both_quiet e ms : Quiet (read_evidence cfg e ms).
Proof. unfold read_evidence. quiet. Qed.
#[global] Instance derive_quiet e r l d : Quiet (derive cfg e r l d).
Proof. unfold derive. quiet. Qed.
#[global] Instance commit_decision_quiet f i e d r l a dl : Quiet (E := E) (commit_decision f i e d r l a dl).
Proof. unfold commit_decision. quiet. Qed.
#[global] Instance now_time_still : Still (E := E) now_time.
Proof. unfold now_time. still. Qed.

Lemma readEntry_answer i (w : World E) found w1 :
  readEntry_ i w = (Ok found, w1) -> readEntry (queue_of (tables w)) i = Ok found.
Proof. unfold readEntry_. intros (r & w2 & [= <- <-] & [Hf _]%slift_Ok)%sbind_Ok. exact Hf. Qed.

(** Nothing was written: the answer is the entry as it is stored. *)
Definition untouched (entryId v : val) (w w' : World E) : Prop :=
  tables w' = tables w /\ exists found, readEntry (queue_of (tables w)) entryId = Ok found /\ v = entry_or_null found.

(** The entry, unmoved, took one step to the phase of a decision of its lane. *)
Record stepped (f : Fence) (entryId : val) (entry e : obj) (decision : Disposition) (w w' : World E) : Prop := {
  st_unmoved : exists x, readEntry (queue_of (tables w)) entryId = Ok (Some x) /\ deep_eq (VObj x) (VObj entry) = true;
  st_phase : get e "phase" = VStr (d_phase decision);
  st_progress : exists p d, progress (queue_of (tables w)) f p = Ok (e, d) /\ tables w' = with_queue (tables w) d
    /\ p_phase p = d_phase decision /\ p_readmit p = parked (get entry "phase") && String.eqb (d_phase decision) "ready";
  st_turn : d_phase decision = "ready" -> parked (get entry "phase") = true
    \/ exists o, order (queue_of (tables w)) (get entry "lane") = Ok o /\ is_first o entryId = true
}.

Lemma commit_outcome f i entry decision receipt live at_ dl (w w' : World E) v :
  commit_decision f i entry decision receipt live at_ dl w = (Ok v, w') ->
  untouched i v w w' \/ exists e d, v = VObj e /\ (d = decision \/ d = expired_decision) /\ stepped f i entry e d w w'.
Proof.
  unfold commit_decision. intros Hs%stx_inv. apply sbind_Ok in Hs as (t & w1 & H1%still_tables & Hs); [|apply _].
  apply sbind_Ok in Hs as ([] & w2 & H2%still_tables & Hs); [|apply _].
  apply sbind_Ok in Hs as (found & w3 & H3 & Hs). pose proof (readEntry_answer _ _ _ _ H3) as Hf.
  apply still_tables in H3; [|apply _].
  assert (E3 : tables w3 = tables w) by congruence. rewrite H2, H1 in Hf.
  assert (Hun : forall w4, tables w4 = tables w3 -> untouched i (entry_or_null found) w w4).
  { intros w4 E4. split; [congruence | eauto]. }
  destruct (match found with Some e => _ | None => false end) eqn:Ed; cbn [negb] in Hs;
    [|apply sret_Ok in Hs as [<- ->]; left; by apply Hun].
  destruct found as [x|]; [|done].
  apply sbind_Ok in Hs as (t4 & w4 & H4%still_tables & Hs); [|apply _]. cbv zeta in Hs.
  set (dec := if past t4 (VStr dl) then expired_decision else decision) in Hs.
  apply sbind_Ok in Hs as (first & w5 & Hfirst & Hs).
  assert (E5 : tables w5 = tables w3).
  { rewrite <- H4. clear -Hfirst. apply still_tables in Hfirst; [done|]. still. }
  destruct first; cbn [negb] in Hs; [|apply sret_Ok in Hs as [<- ->]; left; by apply Hun].
  destruct (is_str _ _ && _); [apply sret_Ok in Hs as [<- ->]; left; by apply Hun|].
  apply sbind_Ok in Hs as (t6 & w6 & H6%still_tables & Hs); [|apply _].
  apply sbind_Ok in Hs as (e & w7 & Hp & [<- ->]%sret_Ok). unfold on_queue in Hp. apply change_Ok in Hp.
  apply rbind_Ok in Hp as ([e1 d1] & Hp & [= <- Et]). rewrite H6, E5, E3 in Hp, Et.
  right. exists e1, dec. split; [done|]. split; [unfold dec; destruct (past _ _); auto|]. split; [eauto| | |].
  - destruct (progress_writes _ _ _ _ _ Hp eq_refl) as (l & id & r & _ & _ & _ & _ & _ & Hph & _); [|done].
    by apply (bool_decide_unpack _).
  - eexists _, d1. split; [exact Hp|]. split; [by symmetry | done].
  - intros Hready. destruct (parked (get entry "phase")); [by left|]. right.
    rewrite Hready in Hfirst. cbn [String.eqb negb andb] in Hfirst.
    apply sbind_Ok in Hfirst as (o & w8 & [= <- <-] & Hfirst). apply sbind_Ok in Hfirst as (o' & w9 & [Ho _]%slift_Ok & [Hi _]%sret_Ok).
    rewrite H4, E3 in Ho. eauto.
Qed.

Lemma live_needed entry receipt live derivation d :
  classifyQueueAdmission checkPrimaryChange entry receipt live derivation = Ok d -> d_phase d = "ready" ->
  truthy receipt = true /\ live <> VNull.
Proof.
  intros Hc Hd. destruct (ready_inv _ _ _ _ _ _ Hc Hd) as (Hs & Hr & _). split; [done|]. intros ->.
  destruct Hs as [_ _ Ho _ _ _]. done.
Qed.

Lemma read_evidence_reads entry ms (w : World E) receipt live w1 :
  read_evidence cfg entry ms w = (Ok (receipt, live), w1) -> truthy receipt = true -> live <> VNull ->
  reads [("live", live)] w w1 /\ exists wa wb : World E, receipt_of entry wa = (Ok (Some receipt), wb).
Proof.
  unfold read_evidence. destruct (ms =? 0)%Z; [intros [[= <- <-] _]%sret_Ok Ht; done|].
  intros (got & w2 & Hg & Hr)%sbind_Ok Ht Hl. apply quiet_run_of in Hg as Q; [|apply _].
  apply sbind_Ok in Hr as (lv & w3 & Hlv%attempt_Ok & [Hr ->]%sret_Ok). injection Hr as <- <-.
  destruct lv as [v|]; [|done]. apply read_evidence_Ok in Hlv. split.
  - eapply reads_before; [exact Q | by eapply reads_single].
  - apply attempt_Ok in Hg. destruct got as [[r|]|]; [|done..]. eauto.
Qed.

Lemma derive_verified entry receipt live dl (w : World E) h w1 :
  derive cfg entry receipt live dl w = (Ok (Derived h), w1) ->
  h = oget (oget live "subject") "head" /\ derivable entry receipt live = true
  /\ exists wa wb, verifyQueueDerivation (a_gitVerify cfg) entry (VStr dl) wa = (Ok true, wb).
Proof.
  unfold derive. intros (t & w2 & _ & Hr)%sbind_Ok. destruct (_ && derivable entry receipt live) eqn:Ed; cbn [negb] in Hr;
    [|by apply sret_Ok in Hr as [? _]]. apply andb_true_iff in Ed as [_ Ed].
  apply sbind_Ok in Hr as (d & w3 & _ & Hr). destruct (is_str _ d); cbn [negb] in Hr; [|by apply sret_Ok in Hr as [? _]].
  apply sbind_Ok in Hr as (p & w4 & Hp%attempt_Ok & [Hr ->]%sret_Ok). destruct p as [[]|]; [|done..].
  injection Hr as <-. eauto.
Qed.

(** What stands behind an entry admitted as ready. *)
Definition admission_evidence (entry : obj) (d : Disposition) (w w1 : World E) : Prop :=
  exists receipt live derivation,
    reads [("live", live)] w w1 /\ (exists wa wb : World E, receipt_of entry wa = (Ok (Some receipt), wb))
    /\ classifyQueueAdmission checkPrimaryChange (VObj entry) receipt live (derivation_val derivation) = Ok d
    /\ forall h, derivation = Derived h -> derivable entry receipt live = true
         /\ exists dl wa wb, verifyQueueDerivation (a_gitVerify cfg) entry dl wa = (Ok true, wb).

Definition reconciled (f : Fence) (entryId v : val) (entry : obj) (w w1 w' : World E) : Prop :=
  untouched entryId v w1 w'
  \/ exists e d, v = VObj e /\ terminal_phase (get entry "phase") = false /\ stepped f entryId entry e d w1 w'
       /\ (get e "phase" = VStr "ready" -> admission_evidence entry d w w1).

Lemma reconcile_live_outcome f entryId deadline entry (w w' : World E) v :
  reconcile_live checkPrimaryChange cfg f entryId deadline entry w = (Ok v, w') -> terminal_phase (get entry "phase") = false ->
  exists w1, quietly w w1 /\ reconciled f entryId v entry w w1 w'.
Proof.
  unfold reconcile_live. intros Hr Et.
  apply sbind_Ok in Hr as (st & w5 & H5 & Hr). apply quiet_run_of in H5 as Q5; [|apply _].
  apply sbind_Ok in Hr as (dl & w6 & [_ ->]%slift_Ok & Hr). apply sbind_Ok in Hr as (ms & w7 & H7 & Hr).
  apply quiet_run_of in H7 as Q7; [|apply _]. apply sbind_Ok in Hr as ([receipt live] & w8 & H8 & Hr).
  apply quiet_run_of in H8 as Q8; [|apply _]. apply sbind_Ok in Hr as (dv & w9 & H9 & Hr).
  apply quiet_run_of in H9 as Q9; [|apply _]. apply sbind_Ok in Hr as (at_ & w10 & H10 & Hr).
  apply quiet_run_of in H10 as Q10; [|apply _]. apply sbind_Ok in Hr as (dec & w11 & [Hdec ->]%slift_Ok & Hr).
  apply sbind_Ok in Hr as (ms2 & w12 & H12 & Hr). apply quiet_run_of in H12 as Q12; [|apply _].
  assert (Qa : quietly w w7) by by eapply quietly_trans.
  assert (Qb : quietly w8 w12) by (eapply quietly_trans; [exact Q9|]; by eapply quietly_trans).
  exists w12. split; [eapply quietly_trans; [exact Qa|]; by eapply quietly_trans|].
  apply commit_outcome in Hr as [Hu|(e & d & -> & Hd & Hst)]; [by left|]. right. exists e, d. do 3 (split; [done|]).
  intros Hready. assert (Hdr : d_phase d = "ready") by (pose proof (st_phase _ _ _ _ _ _ _ Hst); congruence).
  destruct Hd as [->| ->]; [|done]. unfold decide in Hdec. destruct (past _ _); [injection Hdec as <-; done|].
  assert (Hc : classifyQueueAdmission checkPrimaryChange (VObj entry) receipt live (derivation_val dv) = Ok dec).
  { destruct dv; [done | done | injection Hdec as <-; done]. }
  destruct (live_needed _ _ _ _ _ Hc Hdr) as [Ht Hl]. destruct (read_evidence_reads _ _ _ _ _ _ H8 Ht Hl) as [Hrd Hrc].
  exists receipt, live, dv. split; [eapply reads_before; [exact Qa | by eapply reads_after]|]. do 2 (split; [done|]).
  intros h ->. apply derive_verified in H9 as (_ & Hdv & wa & wb & Hv). eauto 6.
Qed.
Lemma admission_evidence_before entry d (w0 w w1 : World E) :
  quietly w0 w -> admission_evidence entry d w w1 -> admission_evidence entry d w0 w1.
Proof.
  intros Q (receipt & live & dv & Hr & Hx). exists receipt, live, dv. split; [by eapply reads_before | done].
Qed.

End ReconcileFacts.

(** ** Concrete inputs *)

#[local] Existing Instance ex_host.
#[local] Existing Instance ex_text.
#[local] Existing Instance length_digest.
#[local] Existing Instance still_env.
Definition ex_admitted_world : World unit := {|
  tables := {| receipts := ex_admitted; ledger := empty_table; pages := []; merges := []; outbox := []; routing := no_routing |};
  env := tt; trace := [] |}.
Definition ex_admission_service (live : result val) : AdmissionConfig (E := unit) := {|
  a_liveAdapter := Some (fun _ _ t e => (live, t, e)); a_gitVerify := fun _ => answers ex_proof |}.
Definition ex_reconcile (live : result val) : result val * World unit :=
  reconcile preserved (ex_admission_service live) ex_qfence ex_entry_id VNull ex_admitted_world.
Definition answer_of (r : result val * World unit) : val := match fst r with Ok v => v | Throw _ => VUndef end.

Example reconcile_examples :
  map (fun l => (oget (answer_of (ex_reconcile l)) "phase", oget (answer_of (ex_reconcile l)) "reason"))
    [Ok ex_open; Ok VNull; Throw (PlainError "down")]
  = [(VStr "ready", VStr "admission-validated"); (VStr "parked-infrastructure", VStr "subject-unavailable");
     (VStr "parked-infrastructure", VStr "subject-unavailable")].
Proof. vm_compute. reflexivity. Qed.

Definition ex_acknowledged : obj :=
  match readEntry (queue_of (tables ex_admitted_world)) ex_entry_id with Ok (Some e) => e | _ => [] end.
