(* ===== verification/QueueRebase.v ===== *)
(** * The rebase service of the queue (queue-rebase.mjs)

    The mechanical rebase of the first entry of a lane: its preparation by the git
    adapter, the preflight on live evidence and rights, the guarded publication of
    the candidate under the lane's fence, and what its outcome makes of the entry. *)

From Stdlib Require Import ZArith Lia Ascii SpecFloat.
From stdpp Require Import base list strings gmap.
From S2P Require Import Prelude JsNum JsValue JsDate LedgerEvents LedgerStore MergeEligibility.
From S2P Require Import QueueLane QueueStore QueueOwner QueueAdmission QueueHandoff HandoffStore QueueService.

Section Rebase.
Context {hostDate : HostDate} {sqliteText : SqliteText} {sha256 : Sha256}.
Variable checkPrimaryChange : val -> val -> val -> result val.
Context {E : Type} {queueEnv : QueueEnv E}.
Abbreviation M := (SM (E := E)).

Record RebaseConfig := {
  b_liveAdapter : option (Reader E);
  b_gitVerify : GitVerify (E := E);
  b_gitPrepare : obj -> External E;
  b_gitPush : obj -> External E;
  (** the policy object as it is at a reading *)
  b_policy : E -> val * E
}.
Variable cfg : RebaseConfig.

Definition REBASE_WORDS : Words := {|
  superseded := "rebase observation superseded"; undrained := "publication requires drained operation reconciliation";
  release_deferred := "" |}.
Definition REBASE_DIVERGENCE_WARNING : string :=
  "The queue rewrote branch history. Fetch and rebase local work onto the published head before pushing.".

Definition nonempty (v : val) : bool := match v with VStr s => negb (String.eqb s "") | _ => false end.
Definition rebase_progress (entry : obj) (f : Fence) (phase : string) (reason : val) (patch : obj) : M obj :=
  progress_of REBASE_WORDS entry f phase reason patch false.
Definition rebase_current (entry : obj) (f : Fence) : M unit := current REBASE_WORDS entry f.

Definition LIVE (entry : obj) : obj := [("entry", VObj entry); ("kind", VStr "rebase-publication")].
(** [read(entry)]. *)
Definition read_live (entry : obj) : M val :=
  let! deadline := slift (patience_deadline entry) in
  let! ms := wait deadline in
  read_or_null "live" (b_liveAdapter cfg) (LIVE entry) ms.
(** [verify(entry)]. *)
Definition verify (entry : obj) : M bool :=
  if negb (truthy (get entry "candidate")) || negb (truthy (get entry "rebase")) then sret false
  else
    let! deadline := slift (patience_deadline entry) in
    verifyQueueDerivation (b_gitVerify cfg) entry deadline.
(** [policy?.autonomousExecutionDisabled === true]. *)
Definition held : M bool :=
  let! p := from_env (b_policy cfg) in
  let b := is_true (oget p "autonomousExecutionDisabled") in
  let! _ := log_event (EPolicy b) in sret b.

(** ** The preflight *)

Definition rights (live : val) : option Disposition :=
  let p := oget live "permission" in
  let target := oget live "subject" in
  if negb (nonempty (oget p "rulesSourceRef") && is_bool (oget p "canForcePush") && is_bool (oget p "fork")
           && is_bool (oget p "canWriteHeadRepository") && is_bool (oget p "maintainerCanModify")
           && strict_eq (oget p "headRepository") (oget target "headRepository")
           && strict_eq (oget p "headRef") (oget target "headRef"))
  then Some (disposition "parked-permission" "rebase-rights-unavailable")
  else if negb (truthy (oget p "canForcePush")) || negb (truthy (oget p "canWriteHeadRepository"))
          || truthy (oget p "fork") && negb (truthy (oget p "maintainerCanModify"))
  then Some (disposition "parked-permission"
               (if truthy (oget p "fork") then "fork-rebase-permission-denied" else "force-push-permission-denied"))
  else if is_ok (resolveLaneKey (VObj [("repository", oget target "headRepository"); ("base", oget target "headRef")]))
  then None else Some (disposition "parked-permission" "head-branch-unavailable").

(** The decision of an admission at a head of ours, when [derived]. *)
Definition preflight_decision (entry : obj) (receipt live head : val) (derived : bool) : result Disposition :=
  let* decision := classifyQueueAdmission checkPrimaryChange (VObj entry) receipt live
                     (if derived then VObj [("head", head)] else VNull) in
  Ok (if negb (String.eqb (d_phase decision) "ready") then decision
      else match rights live with Some d => d | None => decision end).
Definition execution_disabled : Disposition := disposition "parked-hold" "autonomous-execution-disabled".
Definition preflight (entry : obj) (receipt live head : val) (derived : bool) : M Disposition :=
  let! off := held in
  if off then sret execution_disabled else slift (preflight_decision entry receipt live head derived).
Definition is_ready (d : Disposition) : bool := String.eqb (d_phase d) "ready".

(** ** What a step writes *)

Definition rebase_with (entry : obj) (fields : obj) : val := VObj (spread (fields_or_empty (get entry "rebase")) fields).
Definition observed_patch (entry : obj) (live : val) : obj := [("rebase", rebase_with entry [("lastObservation", live)])].

Definition parkOrReturn (entry : obj) (f : Fence) (phase : string) (reason live : val) : M obj :=
  let notice := if String.eqb phase "parked-permission"
    then [("notice", VObj [("key", VStr ("rebase-permission:" +:+ to_str (get entry "entryId") +:+ ":" +:+ to_str reason));
                           ("audience", VStr "author-and-operator"); ("reason", reason)])] else [] in
  rebase_progress entry f phase reason [("rebase", rebase_with entry (("lastObservation", live) :: notice))].
Definition park_or_return (entry : obj) (f : Fence) (d : Disposition) (live : val) : M obj :=
  parkOrReturn entry f (d_phase d) (d_reason d) live.

Definition stop (entry : obj) (f : Fence) (phase reason : string) : M obj := rebase_progress entry f phase (VStr reason) [].
Definition expired (entry : obj) : M bool :=
  let! t := now in
  let! deadline := slift (patience_deadline entry) in sret (past t deadline).

(** The live subject of this entry. *)
Definition same_subject (entry : obj) (s : val) : bool :=
  deep_eq (oget s "lane") (get entry "lane") && strict_eq (oget s "prNumber") (get entry "prNumber").
Definition published_at (entry : obj) (s : val) : bool :=
  strict_eq (oget s "head") (get entry "candidate") && strict_eq (oget s "baseSha") (get entry "exactBase")
  && is_str (oget s "state") "open" && same_subject entry s.
Definition branch_moved (entry : obj) (s : val) : result bool :=
  let* repository := member (get entry "rebase") "headRepository" in
  let* ref := member (get entry "rebase") "headRef" in
  Ok (negb (strict_eq (oget s "headRepository") repository) || negb (strict_eq (oget s "headRef") ref)).

(** The candidate is live already: the wait for its checks begins. *)
Definition already_published (entry : obj) (f : Fence) (receipt live : val) (derived : bool) : M obj :=
  let s := oget live "subject" in
  let! decision := preflight entry receipt live (get entry "candidate") derived in
  if negb (is_ready decision) then park_or_return entry f decision live
  else
    let! noop := slift (member (get entry "proof") "noop") in
    let! t := now in
    rebase_progress entry f "waiting-checks" (VStr (if truthy noop then "no-op-rebase" else "candidate-already-published"))
      [("rebase", rebase_with entry [("lastObservation", live);
         ("publication", VObj [("head", oget s "head"); ("base", oget s "baseSha"); ("sourceRef", oget s "sourceRef");
                               ("observedAt", VStr t)])])].

(** ** The publication *)

Definition push_not_invoked (d : Disposition) (observation : val) : val :=
  VObj [("outcome", VStr "not-applied"); ("sourceRef", VStr "queue:push-not-invoked");
        ("disposition", VObj [("phase", VStr (d_phase d)); ("reason", d_reason d)]); ("observation", observation)].
Definition foreign_head (entry : obj) : bool := negb (strict_eq (get entry "expectedOldHead") (get entry "head")).

(** The decision on the last look, ready only at the exact base and branch in time. *)
Definition last_decision (entry : obj) (live : val) (decision : Disposition) : M Disposition :=
  let s := oget live "subject" in
  let! over := expired entry in
  let d := if over then disposition "parked-infrastructure" "rebase-deadline-expired" else decision in
  let d := if is_ready d && negb (strict_eq (oget s "baseSha") (get entry "exactBase"))
           then disposition "rebasing" "external-base-change" else d in
  let! moved := slift (if is_ready d then branch_moved entry s else Ok false) in
  sret (if moved then disposition "returned-to-closer" "head-branch-changed" else d).

(** After the call: an explicit result of git, or the authoritative observation. *)
Definition after_push (entry : obj) (response : result val) : M val :=
  let result := match response with Ok v => v | Throw _ => VUndef end in
  let! observed := read_live entry in
  let subject := oget observed "subject" in
  if val_in (oget result "outcome") ["succeeded"; "not-applied"] && truthy (oget result "sourceRef")
  then sret (VObj (spread (fields_or_empty result) [("observation", observed)]))
  else if negb (truthy (oget subject "sourceRef")) || negb (same_subject entry subject)
  then sthrow (PlainError "publication-outcome-unavailable")
  else if negb (strict_eq (oget subject "head") (get entry "candidate"))
  then sthrow (PlainError "publication-requires-drain-reconciliation")
  else sret (VObj [("outcome", VStr "succeeded"); ("sourceRef", oget subject "sourceRef"); ("observation", observed)]).

Definition push_request (entry intent : obj) : obj := [("entry", VObj entry); ("intent", VObj intent)].
(** The mutation of the owner's operation: the last read and the git process under its lock. *)
Definition invoke_push (entry : obj) (f : Fence) (entryId receipt : val) (intent : obj) : M val :=
  let! lastLive := read_live entry in
  let! decision := preflight entry receipt lastLive (get entry "expectedOldHead") (foreign_head entry) in
  let! decision := last_decision entry lastLive decision in
  if negb (is_ready decision) then sret (push_not_invoked decision lastLive)
  else
    let! t := now in
    let! at_ := slift (queueTime (VStr t)) in
    let! _ := assertFence_ f (VStr at_) in
    let! found := readEntry_ entryId in
    if negb (match found with Some e => deep_eq (VObj e) (VObj entry) | None => false end)
    then sthrow (PlainError "publication observation superseded")
    else
      let! response := attempt (call (EPush (push_request entry intent)) (b_gitPush cfg (push_request entry intent))) in
      after_push entry response.

(** What the settled publication makes of the entry. *)
Definition settle_publication (entry : obj) (f : Fence) (result : val) : M obj :=
  let! _ := rebase_current entry f in
  let observation := oget result "observation" in
  let subject := oget observation "subject" in
  let observed := if truthy (oget subject "sourceRef") && same_subject entry subject then subject else VNull in
  let head := oget observed "head" in
  let disposition := oget result "disposition" in
  if truthy disposition
  then parkOrReturn entry f (to_str (oget disposition "phase")) (oget disposition "reason") observation
  else if is_str (oget result "outcome") "not-applied" then
    if negb (truthy observed) then stop entry f "parked-infrastructure" "publication-observation-unavailable"
    else if negb (strict_eq head (get entry "expectedOldHead"))
    then rebase_progress entry f "returned-to-closer" (VStr "external-head-change") (observed_patch entry observation)
    else rebase_progress entry f "parked-infrastructure" (VStr "publication-not-applied") (observed_patch entry observation)
  else if val_in (oget observed "state") ["closed"; "merged"]
  then rebase_progress entry f "closed-observed" (VStr ("live-" +:+ to_str (oget observed "state"))) (observed_patch entry observation)
  else if negb (is_str (oget observed "state") "open") then stop entry f "parked-infrastructure" "publication-lifecycle-unavailable"
  else if negb (strict_eq head (get entry "candidate")) && negb (strict_eq head (get entry "expectedOldHead"))
  then rebase_progress entry f "returned-to-closer" (VStr "external-head-change") (observed_patch entry observation)
  else if negb (strict_eq (oget observed "baseSha") (get entry "exactBase"))
  then rebase_progress entry f "rebasing" (VStr "external-base-change") [("checks", VNull)]
  else
    let! t := now in
    rebase_progress entry f "waiting-checks" (VStr "candidate-published")
      [("rebase", rebase_with entry
         [("publication", VObj [("head", get entry "candidate"); ("base", get entry "exactBase");
                                ("sourceRef", oget result "sourceRef"); ("observedAt", VStr t)]);
          ("lastObservation", observation)])].

Definition pushOperationId (entryId : val) (entry : obj) : result string :=
  let* d := handoffDigest (VArr [entryId; get entry "progressVersion"]) in Ok ("push:" +:+ d).
Definition entry_or_null (e : option obj) : val := match e with Some o => VObj o | None => VNull end.

(** The candidate is proved once more and issued through the owner. *)
Definition issue_push (entry : obj) (f : Fence) (entryId receipt : val) : M val :=
  let! proof := attempt (verify entry) in
  match proof with
  | Throw _ => let! e := stop entry f "parked-infrastructure" "rebase-git-unavailable" in sret (VObj e)
  | Ok proved =>
      let! _ := rebase_current entry f in
      if negb proved then let! e := stop entry f "returned-to-closer" "persisted-rebase-proof-unavailable" in sret (VObj e)
      else
        let! operationId := slift (pushOperationId entryId entry) in
        let! issued := issue_ f entryId (VStr operationId) "push" (invoke_push entry f entryId receipt) in
        match issued with
        | Settled _ result => let! e := settle_publication entry f result in sret (VObj e)
        | _ => let! found := readEntry_ entryId in sret (entry_or_null found)
        end
  end.

(** Fresh rights, holds, head and base before the intent. *)
Definition publish (entry : obj) (f : Fence) (entryId receipt : val) : M val :=
  let written (m : M obj) : M val := let! e := m in sret (VObj e) in
  let! live := read_live entry in
  let! _ := rebase_current entry f in
  let! over := expired entry in
  if over then written (stop entry f "parked-infrastructure" "rebase-deadline-expired")
  else
    let s := oget live "subject" in
    if published_at entry s && truthy (oget s "sourceRef")
    then written (already_published entry f receipt live (negb (strict_eq (get entry "candidate") (get entry "head"))))
    else
      let! next := preflight entry receipt live (get entry "expectedOldHead") (foreign_head entry) in
      if negb (is_ready next) then written (park_or_return entry f next live)
      else if negb (strict_eq (oget s "baseSha") (get entry "exactBase"))
      then written (rebase_progress entry f "rebasing" (VStr "external-base-change") [("checks", VNull)])
      else
        let! moved := slift (branch_moved entry s) in
        if moved then written (stop entry f "returned-to-closer" "head-branch-changed")
        else
          let! entry := rebase_progress entry f "publishing" (VStr "publication-preflight-validated") (observed_patch entry live) in
          issue_push entry f entryId receipt.

(** ** The preparation of a candidate *)

Definition FAILED_PROOFS : list string :=
  ["unsupported-rebase-history"; "rebase-conflict-or-unsupported"; "rebase-preservation-unproven"].
(** What a failed preparation makes of the entry. *)
Definition prepare_failure (e : jserror) : string * string :=
  match error_reason e with
  | Some r => if str_in r FAILED_PROOFS then ("returned-to-closer", r) else ("parked-infrastructure", "rebase-git-unavailable")
  | None => ("parked-infrastructure", "rebase-git-unavailable")
  end.

(** [const { priorDerivations = [], ...priorRebase } = entry.rebase ?? {}]. *)
Definition prior_derivations (entry : obj) : result (list val) :=
  match oget (get entry "rebase") "priorDerivations" with
  | VUndef => Ok []
  | VArr l => Ok l
  | _ => Throw (TypeError "priorDerivations is not iterable")
  end.
Definition prior_rebase (entry : obj) : val :=
  VObj (filter_b (fun kv => negb (String.eqb (fst kv) "priorDerivations")) (fields_or_empty (get entry "rebase"))).
Definition this_derivation (entry : obj) : list val :=
  if truthy (get entry "candidate")
  then [VObj [("candidate", get entry "candidate"); ("expectedOldHead", get entry "expectedOldHead");
              ("exactBase", get entry "exactBase"); ("proof", get entry "proof"); ("rebase", prior_rebase entry)]]
  else [].
Definition rebase_record (entry : obj) (live prepared : val) (receiptDigest : string) (prior : list val) : val :=
  let s := oget live "subject" in
  VObj [("workspace", oget prepared "workspace"); ("headRepository", oget s "headRepository"); ("headRef", oget s "headRef");
        ("sourceReceiptDigest", VStr receiptDigest); ("sourceEntryHead", get entry "head"); ("preflight", live);
        ("warning", VStr REBASE_DIVERGENCE_WARNING);
        ("authorNotice", VObj [("key", VStr ("rebase-warning:" +:+ to_str (get entry "entryId") +:+ ":" +:+ to_str (oget prepared "candidate")));
                               ("audience", VStr "author"); ("body", VStr REBASE_DIVERGENCE_WARNING)]);
        ("priorDerivations", VArr (prior ++ this_derivation entry))].

(** A candidate is prepared by git, or the entry leaves; the entry that goes on. *)
Definition prepare_candidate (entry : obj) (f : Fence) (receipt live : val) : M (obj + obj) :=
  let s := oget live "subject" in
  let! entry := rebase_progress entry f "rebasing" (VStr "mechanical-rebase-started") [] in
  let! deadline := slift (patience_deadline entry) in
  let request := [("entry", VObj entry); ("oldHead", oget s "head"); ("exactBase", oget s "baseSha");
                  ("headRepository", oget s "headRepository"); ("headRef", oget s "headRef"); ("deadline", deadline)] in
  let! got := attempt (call (EGit "prepare" request) (b_gitPrepare cfg request)) in
  let! _ := rebase_current entry f in
  match got with
  | Throw e =>
      let '(phase, reason) := prepare_failure e in
      let! e := stop entry f phase reason in sret (inl e)
  | Ok prepared =>
      let! _ := slift (member prepared "workspace") in
      let! d := slift (handoffDigest (submitted receipt)) in
      let! prior := slift (prior_derivations entry) in
      let! entry := rebase_progress entry f "publishing" (VStr "candidate-preservation-proven")
        [("candidate", oget prepared "candidate"); ("expectedOldHead", oget prepared "expectedOldHead");
         ("exactBase", oget prepared "exactBase"); ("proof", oget prepared "proof");
         ("rebase", rebase_record entry live prepared d prior); ("checks", VNull)] in
      sret (inr entry)
  end.

(** ** A run *)

(** The newest push of this candidate may have landed: not refused, and not seen. *)
Definition pushed_unseen (d : Db) (entryId : val) (entry : obj) : bool :=
  match find_b (fun o => strict_eq (get (op_intent o) "candidate") (get entry "candidate"))
          (rev (filter_b (fun o => is_str entryId (op_entry o) && String.eqb (op_kind o) "push") (op_rows d))) with
  | Some o => negb (is_str (oget (match op_result o with Some v => v | None => VNull end) "outcome") "not-applied")
  | None => false
  end.

(** The entry, its candidate proved when it has one, at a live observation. *)
Definition run_proved (entry : obj) (f : Fence) (entryId receipt live : val) (verified : bool) : M val :=
  let written (m : M obj) : M val := let! e := m in sret (VObj e) in
  let s := oget live "subject" in
  let own := truthy (get entry "candidate") in
  let! moved := (if truthy (oget (get entry "rebase") "workspace") && truthy (oget s "sourceRef") && same_subject entry s
                 then slift (branch_moved entry s) else sret false) in
  if moved then written (stop entry f "returned-to-closer" "head-branch-changed")
  else if own && published_at entry s && nonempty (oget s "sourceRef")
  then written (already_published entry f receipt live (verified && negb (strict_eq (get entry "candidate") (get entry "head"))))
  else
    let expected := if own && strict_eq (oget s "head") (get entry "candidate") then get entry "candidate"
                    else get entry "expectedOldHead" in
    let! decision := preflight entry receipt live expected (negb (strict_eq expected (get entry "head")) && verified) in
    if negb (is_ready decision) then written (park_or_return entry f decision live)
    else
      let! unseen := (if own && strict_eq (oget s "head") (get entry "expectedOldHead")
                      then look (fun t => pushed_unseen (queue_of t) entryId entry) else sret false) in
      if unseen
      then written (rebase_progress entry f "parked-infrastructure" (VStr "publication-success-not-visible") (observed_patch entry live))
      else if negb own || negb (strict_eq (oget s "baseSha") (get entry "exactBase"))
              || strict_eq (oget s "head") (get entry "candidate")
      then
        let! prepared := prepare_candidate entry f receipt live in
        match prepared with
        | inl e => sret (VObj e)
        | inr entry => publish entry f entryId receipt
        end
      else publish entry f entryId receipt.

(** Every persisted candidate is proved again: whether it is, or the entry it leaves as. *)
Definition prove_again (entry : obj) (f : Fence) (receipt : val) : M (obj + bool) :=
  if negb (truthy (get entry "candidate")) then sret (inr false)
  else
    let! got := attempt (verify entry) in
    match got with
    | Throw _ => let! e := stop entry f "parked-infrastructure" "rebase-git-unavailable" in sret (inl e)
    | Ok proved =>
        let! _ := rebase_current entry f in
        let! same := (if proved then
                        let! d := slift (handoffDigest (submitted receipt)) in
                        sret (is_str (oget (get entry "rebase") "sourceReceiptDigest") d)
                      else sret false) in
        if negb same then let! e := stop entry f "returned-to-closer" "persisted-rebase-proof-unavailable" in sret (inl e)
        else sret (inr true)
    end.

(** A proven candidate readmitted at the tail resumes its execution phases. *)
Definition resume_candidate (entry : obj) (f : Fence) (verified : bool) : M obj :=
  if is_str (get entry "phase") "ready" && verified then
    let! entry := rebase_progress entry f "rebasing" (VStr "persisted-candidate-resumed") [] in
    rebase_progress entry f "publishing" (VStr "candidate-preservation-proven") []
  else sret entry.

Definition gone_live (entry : obj) (live : val) : bool :=
  let s := oget live "subject" in
  nonempty (oget s "sourceRef") && same_subject entry s && val_in (oget s "state") ["closed"; "merged"].

Definition run_live (entry : obj) (f : Fence) (entryId : val) : M val :=
  let written (m : M obj) : M val := let! e := m in sret (VObj e) in
  let! live := read_live entry in
  let! _ := rebase_current entry f in
  if gone_live entry live
  then written (rebase_progress entry f "closed-observed" (VStr ("live-" +:+ to_str (oget (oget live "subject") "state")))
                  (observed_patch entry live))
  else
    let! got := attempt (receipt_of entry) in
    match got with
    | Throw _ | Ok None => written (stop entry f "parked-infrastructure" "admission-receipt-unavailable")
    | Ok (Some receipt) =>
        let! over := expired entry in
        if over then written (stop entry f "parked-infrastructure" "rebase-deadline-expired")
        else
          let! proved := prove_again entry f receipt in
          match proved with
          | inl e => sret (VObj e)
          | inr verified =>
              let! over := expired entry in
              if over then written (stop entry f "parked-infrastructure" "rebase-deadline-expired")
              else
                let! entry := resume_candidate entry f verified in
                run_proved entry f entryId receipt live verified
          end
    end.

Definition RUN_PHASES : list string := ["ready"; "rebasing"; "publishing"; "waiting-checks"].
(** [run({ fence, entryId })]. *)
Definition run (f : Fence) (entryId : val) : M val :=
  let! entry := own_entry f entryId "foreign rebase entry" in
  let! _ := rebase_current entry f in
  if val_in (get entry "phase") TERMINAL_PHASES || String.prefix "parked-" (to_str (get entry "phase")) then sret (VObj entry)
  else if negb (val_in (get entry "phase") RUN_PHASES) then sthrow (PlainError "invalid rebase phase")
  else
    let! off := held in
    if off then let! e := stop entry f "parked-hold" "autonomous-execution-disabled" in sret (VObj e)
    else run_live entry f entryId.
End Rebase.

(** ** The git push is called once, on a last look *)

Section RebaseFacts.
Context {hostDate : HostDate} {sqliteText : SqliteText} {sha256 : Sha256}.
Context (checkPrimaryChange : val -> val -> val -> result val).
Context {E : Type} {queueEnv : QueueEnv E}.
Context (cfg : RebaseConfig (E := E)).

#[global] Instance rebase_progress_quiet e f p r u : Quiet (E := E) (rebase_progress e f p r u).
Proof. unfold rebase_progress. quiet. Qed.
#[global] Typeclasses Opaque rebase_progress stop.
#[global] Instance rebase_current_quiet e f : Quiet (E := E) (rebase_current e f).
Proof. unfold rebase_current. quiet. Qed.
#[global] Instance read_live_quiet e : Quiet (read_live cfg e).
Proof. unfold read_live. quiet. Qed.
#[global] Instance verify_rebase_quiet e : Quiet (verify cfg e).
Proof. unfold verify. quiet. Qed.
#[global] Instance held_quiet : Quiet (held cfg).
Proof. unfold held. quiet. Qed.
#[global] Instance preflight_quiet e r l h d : Quiet (preflight checkPrimaryChange cfg e r l h d).
Proof. unfold preflight. quiet. Qed.
#[global] Instance parkOrReturn_quiet e f p r l : Quiet (E := E) (parkOrReturn e f p r l).
Proof. unfold parkOrReturn. quiet. Qed.
#[global] Instance park_or_return_quiet e f d l : Quiet (E := E) (park_or_return e f d l).
Proof. unfold park_or_return. quiet. Qed.
#[global] Instance stop_quiet e f p r : Quiet (E := E) (stop e f p r).
Proof. apply rebase_progress_quiet. Qed.
#[global] Instance expired_quiet e : Quiet (E := E) (expired e).
Proof. unfold expired. quiet. Qed.
#[global] Instance expired_silent e : Silent (E := E) (expired e).
Proof. unfold expired. silent. Qed.
#[global] Instance already_published_quiet e f r l d : Quiet (already_published checkPrimaryChange cfg e f r l d).
Proof. unfold already_published. quiet. Qed.
#[global] Instance last_decision_quiet e l d : Quiet (E := E) (last_decision e l d).
Proof. unfold last_decision. quiet. Qed.
#[global] Instance last_decision_silent e l d : Silent (E := E) (last_decision e l d).
Proof. unfold last_decision. silent. Qed.
#[global] Instance after_push_quiet e r : Quiet (after_push cfg e r).
Proof. unfold after_push. quiet. Qed.
#[global] Instance settle_publication_quiet e f r : Quiet (E := E) (settle_publication e f r).
Proof. unfold settle_publication. quiet. Qed.
#[global] Instance prepare_candidate_quiet e f r l : Quiet (prepare_candidate cfg e f r l).
Proof. unfold prepare_candidate. quiet. Qed.
#[global] Instance prove_again_quiet e f r : Quiet (prove_again cfg e f r).
Proof. unfold prove_again. quiet. Qed.
#[global] Instance resume_candidate_quiet e f v : Quiet (E := E) (resume_candidate e f v).
Proof. unfold resume_candidate. quiet. Qed.

Lemma read_live_answer entry (w : World E) v w1 :
  read_live cfg entry w = (Ok v, w1) -> v = VNull \/ trace w1 = trace w ++ [ERead "live" (LIVE entry) (Ok v)].
Proof.
  unfold read_live. intros (dl & w2 & [_ ->]%slift_Ok & Hr)%sbind_Ok. apply sbind_Ok in Hr as (ms & w3 & H3 & Hr).
  apply silent_trace in H3; [|apply _]. apply read_or_null_answer in Hr as [->|Hr]; [by left|]. right. by rewrite Hr, H3.
Qed.
Lemma held_trace (w : World E) b w1 : held cfg w = (Ok b, w1) -> trace w1 = trace w ++ [EPolicy b].
Proof.
  unfold held. intros (p & w2 & H2 & Hb)%sbind_Ok. apply silent_trace in H2; [|apply _].
  apply sbind_Ok in Hb as ([] & w3 & [= <-] & [<- ->]%sret_Ok). simpl. by rewrite H2.
Qed.
Lemma preflight_ready entry receipt live head derived (w : World E) d w1 :
  preflight checkPrimaryChange cfg entry receipt live head derived w = (Ok d, w1) -> is_ready d = true ->
  trace w1 = trace w ++ [EPolicy false] /\ preflight_decision checkPrimaryChange entry receipt live head derived = Ok d.
Proof.
  unfold preflight. intros (off & w2 & Ho & Hp)%sbind_Ok Hd. apply held_trace in Ho.
  destruct off; [apply sret_Ok in Hp as [<- _]; done|]. by apply slift_Ok in Hp as [Hp ->].
Qed.
Lemma preflight_null entry receipt head derived d :
  preflight_decision checkPrimaryChange entry receipt VNull head derived = Ok d -> is_ready d = false.
Proof.
  unfold preflight_decision, classifyQueueAdmission. simpl. by intros [= <-].
Qed.
Lemma last_decision_ready entry live decision (w : World E) d w1 :
  last_decision entry live decision w = (Ok d, w1) -> is_ready d = true ->
  d = decision /\ strict_eq (oget (oget live "subject") "baseSha") (get entry "exactBase") = true
  /\ branch_moved entry (oget live "subject") = Ok false.
Proof.
  unfold last_decision. intros (over & w2 & _ & Hp)%sbind_Ok Hd. cbv zeta in Hp.
  apply sbind_Ok in Hp as (moved & w3 & [Hm _]%slift_Ok & [<- _]%sret_Ok). destruct moved; [done|].
  destruct over; [done|]. destruct (is_ready decision) eqn:Er; [|cbn [andb] in Hd; congruence].
  destruct (strict_eq _ (get entry "exactBase")) eqn:Eb; cbn [negb andb] in *; [|done].
  rewrite Er in Hm. done.
Qed.

(** The last live read allows the push, the policy does not hold it, the call. *)
Definition push_look (entry : obj) (receipt : val) (c : list Event) : Prop :=
  exists last intent answer d,
    c = [ERead "live" (LIVE entry) (Ok last); EPolicy false; EPush (push_request entry intent) answer]
    /\ preflight_decision checkPrimaryChange entry receipt last (get entry "expectedOldHead") (foreign_head entry) = Ok d
    /\ d_phase d = "ready"
    /\ strict_eq (oget (oget last "subject") "baseSha") (get entry "exactBase") = true
    /\ branch_moved entry (oget last "subject") = Ok false.

Lemma invoke_push_once entry f entryId receipt intent (w0 w : World E) :
  quietly w0 w ->
  wp (invoke_push checkPrimaryChange cfg entry f entryId receipt intent) (fun _ w2 => adds (once (push_look entry receipt)) w0 w2) w.
Proof.
  intros Q0. unfold invoke_push. apply wp_before; [apply _|done|]. intros last w1 H1 Q1.
  apply wp_before; [apply _|done|]. intros d0 w2 H2 Q2. apply wp_before; [apply _|done|]. intros d w3 H3 Q3.
  destruct (is_ready d) eqn:Ed; cbn [negb]; [|apply wp_end; [apply _|done]].
  destruct (last_decision_ready _ _ _ _ _ _ H3 Ed) as (-> & Hb & Hm). apply preflight_ready in H2 as [T2 Hd]; [|done].
  apply silent_trace in H3 as T3; [|apply _].
  apply wp_before; [apply _|done|]. intros t w4 T4%silent_trace Q4; [|apply _].
  apply wp_before; [apply _|done|]. intros at_ w5 [_ ->]%slift_Ok Q5.
  apply wp_before; [apply _|done|]. intros [] w6 T6%silent_trace Q6; [|apply _].
  apply wp_before; [apply _|done|]. intros found w7 T7%silent_trace Q7; [|apply _].
  match goal with |- wp (if ?b then _ else _) _ _ => destruct b end; [apply wp_end; [apply _|done]|].
  destruct (read_live_answer _ _ _ _ H1) as [->|T1]; [apply preflight_null in Hd; congruence|].
  apply wp_bind. unfold wp, attempt. destruct (call _ _ w7) as [r w8] eqn:Ec. cbn [fst snd]. apply call_inv in Ec.
  destruct (after_push_quiet entry r w8) as (u & Eu & Hu). destruct Q0 as (t0 & E0 & Ht0).
  exists (t0 ++ [ERead "live" (LIVE entry) (Ok last); EPolicy false; EPush (push_request entry intent) r] ++ u). split.
  { rewrite Eu, Ec, T7, T6, T4, T3, T2, T1, E0, <- !(assoc_L (++)). done. }
  right. eexists t0, _, u. do 3 (split; [done|]). exists last, intent, r, d0. apply String.eqb_eq in Ed. done.
Qed.

(** What a push is issued on: a candidate in its publication, its derivation
    verified anew, its intent journalled fresh and alone on the lane. *)
Record push_decided (f : Fence) (entryId : val) (x : obj * val) : Prop := {
  pd_phase : get (fst x) "phase" = VStr "publishing";
  pd_proved : exists w1 w2 : World E, verify cfg (fst x) w1 = (Ok true, w2);
  pd_receipt : exists (entry0 : obj) (w1 w2 : World E), receipt_of entry0 w1 = (Ok (Some (snd x)), w2);
  pd_intent : exists id, journalled_as f entryId "push" id /\ pushOperationId entryId (fst x) = Ok id
}.
Definition pushed_run (f : Fence) (entryId : val) : World E -> World E -> Prop :=
  mutates_once (push_decided f entryId) (fun x => push_look (fst x) (snd x)).
Definition on_file (receipt : val) : Prop :=
  exists (entry0 : obj) (w1 w2 : World E), receipt_of entry0 w1 = (Ok (Some receipt), w2).

Ltac next := apply wp_next; [quiet|done|].
Ltac halt := apply wp_halt; [quiet|done].

Lemma rebase_progress_phase entry f phase reason patch (w : World E) e w' :
  rebase_progress entry f phase reason patch w = (Ok e, w') -> NoDup (map fst patch) -> get e "phase" = VStr phase.
Proof.
  unfold rebase_progress. intros (at_ & d & _ & Hp)%progress_of_Ok Hn.
  destruct (progress_writes _ _ _ _ _ Hp eq_refl) as (l & id & r & _ & _ & _ & _ & _ & Hph & _); [|done].
  simpl. by apply map_set_NoDup.
Qed.

Lemma issue_push_once entry f entryId receipt (w0 w : World E) :
  quietly w0 w -> get entry "phase" = VStr "publishing" -> on_file receipt ->
  wp (issue_push checkPrimaryChange cfg entry f entryId receipt) (fun _ w2 => pushed_run f entryId w0 w2) w.
Proof.
  intros Q0 Hph Hon. unfold issue_push. next. intros proof w1 Hv%attempt_Ok Q1. destruct proof as [proved|x]; [|halt].
  next. intros [] w2 _ Q2. destruct proved; cbn [negb]; [|halt]. next. intros opId w3 [Hop ->]%slift_Ok Q3.
  apply mutates_bind; [|intros [| | |]; quiet]. apply (wp_issue _ _ _ _ _ _ _ (entry, receipt)); [done| |].
  - intros Hj. split; [done | by eauto | done | by eauto].
  - intros intent w4 Q4. by apply invoke_push_once.
Qed.

Lemma publish_once entry f entryId receipt (w0 w : World E) :
  quietly w0 w -> on_file receipt ->
  wp (publish checkPrimaryChange cfg entry f entryId receipt) (fun _ w2 => pushed_run f entryId w0 w2) w.
Proof.
  intros Q0 Hon. unfold publish. next. intros live w1 _ Q1. next. intros [] w2 _ Q2. next. intros over w3 _ Q3.
  destruct over; [halt|]. destruct (_ && truthy _); [halt|]. next. intros d w4 _ Q4.
  destruct (negb (is_ready d)); [halt|]. destruct (negb (strict_eq _ _)); [halt|].
  next. intros moved w5 _ Q5. destruct moved; [halt|]. next. intros e w6 He Q6.
  apply issue_push_once; [done | | done]. eapply rebase_progress_phase; [exact He|]. by apply (bool_decide_unpack _).
Qed.

Lemma run_proved_once entry f entryId receipt live verified (w0 w : World E) :
  quietly w0 w -> on_file receipt ->
  wp (run_proved checkPrimaryChange cfg entry f entryId receipt live verified) (fun _ w2 => pushed_run f entryId w0 w2) w.
Proof.
  intros Q0 Hon. unfold run_proved. next. intros moved w1 _ Q1. destruct moved; [halt|].
  destruct (_ && nonempty _); [halt|]. next. intros d w2 _ Q2. destruct (negb (is_ready d)); [halt|].
  next. intros unseen w3 _ Q3. destruct unseen; [halt|].
  match goal with |- wp (if ?b then _ else _) _ _ => destruct b end; [|by apply publish_once].
  next. intros [e|e] w4 _ Q4; [halt | by apply publish_once].
Qed.

Lemma run_live_once entry f entryId (w0 w : World E) :
  quietly w0 w -> wp (run_live checkPrimaryChange cfg entry f entryId) (fun _ w2 => pushed_run f entryId w0 w2) w.
Proof.
  intros Q0. unfold run_live. next. intros live w1 _ Q1. next. intros [] w2 _ Q2. destruct (gone_live _ _); [halt|].
  next. intros got w3 Hg%attempt_Ok Q3. destruct got as [[receipt|]|]; [|halt..].
  next. intros over w4 _ Q4. destruct over; [halt|]. next. intros [e|verified] w5 _ Q5; [halt|].
  next. intros over w6 _ Q6. destruct over; [halt|]. next. intros e w7 _ Q7. apply run_proved_once; [done|].
  by exists entry, w2, w3.
Qed.

End RebaseFacts.

(** ** Concrete inputs *)

#[local] Existing Instance ex_host.
#[local] Existing Instance ex_text.
#[local] Existing Instance length_digest.
#[local] Existing Instance still_env.
Definition ex_rebased : string := repeat_char "e" 40.
Definition ex_rebase_live : val :=
  VObj (spread (fields_or_empty ex_open)
    [("subject", VObj (ex_live_subject "open" ++ [("headRepository", VStr "example/review"); ("headRef", VStr "topic")]));
     ("permission", VObj [("sourceRef", VStr "perm:1"); ("canPush", VBool true); ("rulesSourceRef", VStr "rules:2");
        ("canForcePush", VBool true); ("fork", VBool false); ("canWriteHeadRepository", VBool true);
        ("maintainerCanModify", VBool false); ("headRepository", VStr "example/review"); ("headRef", VStr "topic")])]).
Definition ex_rebase_proof : val :=
  VObj [("noop", VBool false); ("oldHead", VStr ex_head); ("candidate", VStr ex_rebased); ("exactBase", VStr ex_base)].
Definition ex_rebase_service (prepared : result val) (disabled : bool) : RebaseConfig (E := unit) := {|
  b_liveAdapter := Some (fun _ _ => answers ex_rebase_live); b_gitVerify := fun _ => answers ex_rebase_proof;
  b_gitPrepare := fun _ t e => (prepared, t, e);
  b_gitPush := fun _ => answers (VObj [("outcome", VStr "succeeded"); ("sourceRef", VStr "push:1")]);
  b_policy := fun e => (VObj [("autonomousExecutionDisabled", VBool disabled)], e) |}.
Definition ex_prepared : result val :=
  Ok (VObj [("workspace", VStr "/work/1"); ("candidate", VStr ex_rebased); ("expectedOldHead", VStr ex_head);
            ("exactBase", VStr ex_base); ("proof", ex_rebase_proof)]).
Definition ex_run (prepared : result val) (disabled : bool) : result val * World unit :=
  run preserved (ex_rebase_service prepared disabled) ex_qfence ex_entry_id (ex_world_after [("ready", [])]).
Definition seen_of (r : result val * World unit) : val * val * nat :=
  let v := match fst r with Ok v => v | Throw _ => VUndef end in
  (oget v "phase", oget v "reason", length (filter_b (fun ev => match ev with EPush _ _ => true | _ => false end) (trace (snd r)))).

Example rebase_service_examples :
  [seen_of (ex_run ex_prepared false); seen_of (ex_run ex_prepared true);
   seen_of (ex_run (Throw (MarkedError "conflict" false (Some "rebase-conflict-or-unsupported"))) false);
   seen_of (ex_run (Throw (PlainError "timeout")) false)]
  = [(VStr "waiting-checks", VStr "candidate-published", 1%nat);
     (VStr "parked-hold", VStr "autonomous-execution-disabled", 0%nat);
     (VStr "returned-to-closer", VStr "rebase-conflict-or-unsupported", 0%nat);
     (VStr "parked-infrastructure", VStr "rebase-git-unavailable", 0%nat)].
Proof. vm_compute. reflexivity. Qed.

