(* ===== verification/QueueCheckReader.v ===== *)
(** * The reader of the checks of a candidate (queue-check-reader.mjs)

    The required set from the configuration and the rules, the paginated inventory
    of check runs and statuses of the exact candidate, and the snapshot they make.
    The transport and the adapters for the rules and for repositories without CI
    are readers; the page loop runs on fuel. *)

From Stdlib Require Import ZArith Lia Ascii SpecFloat.
From stdpp Require Import base list strings gmap sorting.
From S2P Require Import Prelude JsNum JsValue JsDate LedgerEvents LedgerStore JsText OperatorEvidence CheckRollup.
From S2P Require Import QueueLane QueueStore QueueOwner QueueAdmission QueueHandoff HandoffStore QueueService QueueChecks.

(** The configuration: the answer of [getMergeAuthorityConfig] when it has one, and itself. *)
Record CheckCfg := { authority : val; plain : val }.
Definition resolveRequiredCheckContextsFromCfg (cfg : CheckCfg) : list val :=
  array_or_empty (coalesce (oget (authority cfg) "requiredCheckContexts") (oget (plain cfg) "requiredCheckContexts")).
Definition noCiRepositories (cfg : CheckCfg) : val :=
  coalesce (oget (authority cfg) "noCiRepositories") (coalesce (oget (plain cfg) "noCiRepositories") (VArr [])).

(** ** The required set *)

Definition text_le (s t : string) : Prop := key_le s t = true.
#[export] Instance text_le_dec s t : Decision (text_le s t).
Proof. unfold text_le. apply _. Defined.
(** [[...new Set(l)]]: the first occurrences. *)
Fixpoint distinct (seen l : list string) : list string :=
  match l with
  | [] => []
  | s :: l => if str_in s seen then distinct seen l else s :: distinct (s :: seen) l
  end.
Definition required_contexts (names : list val) : list string :=
  merge_sort text_le (distinct [] (map (fun v => to_lower (trim (to_str v))) names)).
Definition json_texts (l : list string) : string := "[" +:+ join "," (map json_quote l) +:+ "]".
(** [JSON.stringify(source)]. *)
Definition source_text (configured : list val) (sourceRef version : val) (contexts : list string) : string :=
  "{" +:+ join "," [json_quote "configured" +:+ ":" +:+ json_texts (map to_str configured);
                     json_quote "rules" +:+ ":" +:+ json_quote (to_str sourceRef);
                     json_quote "rulesVersion" +:+ ":" +:+ json_quote (to_str version);
                     json_quote "contexts" +:+ ":" +:+ json_texts contexts] +:+ "}".

Section Reader.
Context {hostDate : HostDate} {sqliteText : SqliteText} {sha256 : Sha256}.

(** [resolveQueueRequiredSet({ cfg, rules })]. *)
Definition resolveQueueRequiredSet (cfg : CheckCfg) (rules : val) : result val :=
  let configured := resolveRequiredCheckContextsFromCfg cfg in
  let listed := array_or_empty (oget rules "contexts") in
  if negb (is_true (oget rules "complete")) || negb (text (oget rules "sourceRef")) || negb (text (oget rules "version"))
     || negb (is_array (oget rules "contexts")) || is_true (oget rules "unresolved")
     || some_b (fun x => negb (text x)) (configured ++ listed)
  then Throw (PlainError "required-set-unresolved")
  else
    let contexts := required_contexts (configured ++ listed) in
    let names := VArr (map VStr contexts) in
    Ok (VObj [("contexts", names);
              ("source", VObj [("configured", VArr configured); ("rules", oget rules "sourceRef");
                               ("rulesVersion", oget rules "version"); ("contexts", names)]);
              ("version", VStr ("sha256:" +:+ sha256_hex (source_text configured (oget rules "sourceRef") (oget rules "version") contexts)))]).

(** ** The items of a page *)

Inductive Kind := CheckRuns | Statuses.
Definition kind_name (k : Kind) : string := match k with CheckRuns => "check-runs" | Statuses => "statuses" end.
Definition is_runs (k : Kind) : bool := match k with CheckRuns => true | Statuses => false end.

Definition partial_pages {A} : result A := Throw (PlainError "checks-partial-pages").
Definition safe_int (v : val) : bool := match v with VNum n => is_safe_integer n | _ => false end.
Definition created_at (k : Kind) (item : val) : val :=
  match k with
  | CheckRuns => coalesce (oget item "started_at") (coalesce (oget item "completed_at") VNull)
  | Statuses => oget item "created_at"
  end.
Definition item_url (item : val) : val := coalesce (oget item "html_url") (coalesce (oget item "target_url") (oget item "url")).
Definition readable_item (k : Kind) (seen : list val) (item : val) : bool :=
  let created := created_at k item in
  safe_int (oget item "id") && negb (some_b (strict_eq (oget item "id")) seen)
  && text (coalesce (oget item "name") (oget item "context"))
  && (is_runs k && strict_eq created VNull || match date_parse (to_str created) with Some _ => true | None => false end)
  && text (item_url item).

Definition or_null (v : val) : val := coalesce v VNull.
Definition check_item (k : Kind) (entry : obj) (sourceRef item : val) : val :=
  VObj ([("__typename", VStr (if is_runs k then "CheckRun" else "StatusContext")); ("id", oget item "id");
         ("name", or_null (oget item "name")); ("context", or_null (oget item "context")); ("head", get entry "candidate")]
        ++ (if is_runs k && truthy (oget item "app")
            then [("app", VObj [("id", or_null (oget (oget item "app") "id")); ("slug", or_null (oget (oget item "app") "slug"))])]
            else [])
        ++ [("status", or_null (oget item "status")); ("state", or_null (oget item "state"));
            ("conclusion", or_null (oget item "conclusion")); ("createdAt", created_at k item);
            ("startedAt", or_null (oget item "started_at")); ("completedAt", or_null (oget item "completed_at"));
            ("url", item_url item); ("sourceRef", sourceRef)]).

(** The loop over the items of a page, on [(seen, all)]. *)
Fixpoint take_items (k : Kind) (entry : obj) (sourceRef : val) (items : list val) (seen all : list val)
  : result (list val * list val) :=
  match items with
  | [] => Ok (seen, all)
  | item :: items =>
      let* _ := member item (if is_runs k then "started_at" else "created_at") in
      guard readable_item k seen item else PlainError "checks-invalid-result" in
      guard negb (is_runs k) || same_text (oget item "head_sha") (get entry "candidate") else PlainError "checks-stale-sha" in
      take_items k entry sourceRef items (oget item "id" :: seen) (all ++ [check_item k entry sourceRef item])
  end.

(** What the pages of one kind have given so far. *)
Record Inventory := { i_seen : list val; i_total : val; i_count : Z; i_all : list val; i_pages : list val }.

Definition page_items (k : Kind) (response : val) : val :=
  match k with CheckRuns => oget (oget response "body") "check_runs" | Statuses => oget response "body" end.
(** The total a page of check runs reports; null for statuses. *)
Definition page_total (k : Kind) (response total : val) : result val :=
  match k with
  | CheckRuns =>
      let next := oget (oget response "body") "total_count" in
      match nonneg_int next with
      | Some _ => if negb (strict_eq total VNull) && negb (strict_eq total next)
                  then Throw (PlainError "checks-moving-pages") else Ok next
      | None => Throw (PlainError "checks-moving-pages")
      end
  | Statuses => Ok total
  end.
(** One page: what it adds, and the number of the next one. *)
Definition take_page (k : Kind) (entry : obj) (page : Z) (response : val) (inv : Inventory) : result (Inventory * option Z) :=
  let next := oget response "nextPage" in
  guard text (oget response "sourceRef") && (strict_eq next VNull || strict_eq next (VInt (page + 1)))
  else PlainError "checks-partial-pages" in
  match page_items k response with
  | VArr items =>
      guard Nat.leb (length items) 100 && (strict_eq next VNull || Nat.eqb (length items) 100)
      else PlainError "checks-partial-pages" in
      let* total := page_total k response (i_total inv) in
      let* taken := take_items k entry (oget response "sourceRef") items (i_seen inv) (i_all inv) in
      Ok ({| i_seen := fst taken; i_total := total; i_count := i_count inv + Z.of_nat (length items); i_all := snd taken;
             i_pages := i_pages inv ++ [oget response "sourceRef"] |},
          if strict_eq next VNull then None else Some (page + 1)%Z)
  | _ => partial_pages
  end.

(** ** The reader *)

Context {E : Type} {queueEnv : QueueEnv E}.
Abbreviation M := (SM (E := E)).
Record ReaderConfig := {
  r_request : option (Reader E);
  r_policy : option (Reader E);
  r_noCi : option (Reader E);
  r_cfg : CheckCfg;
  (** [signal?.throwIfAborted()]: the reason of an abort *)
  r_aborted : E -> option jserror * E
}.
Variable cfg : ReaderConfig.

(** [call(adapter, req)]. *)
Definition call_reader (name : string) (adapter : option (Reader E)) (request : obj) (deadline : val) : M val :=
  let! aborted := from_env (r_aborted cfg) in
  match aborted with
  | Some e => sthrow e
  | None =>
      let! ms := wait deadline in
      if (ms =? 0)%Z then sthrow (PlainError "checks-deadline-expired")
      else readQueueEvidence name adapter request ms
  end.

Definition path_of (k : Kind) (entry : obj) (repository : val) (page : Z) : string :=
  "/repos/" +:+ to_str repository +:+ "/commits/" +:+ to_str (get entry "candidate") +:+ "/"
  +:+ kind_name k +:+ "?per_page=100&page=" +:+ to_str (VInt page) +:+ (if is_runs k then "&filter=all" else "").

(** [while (page !== null)]; nothing when the fuel runs out. *)
Fixpoint read_pages (fuel : nat) (k : Kind) (entry : obj) (deadline : val) (page : Z) (inv : Inventory) : M (option Inventory) :=
  match fuel with
  | O => sret None
  | S fuel =>
      let! repository := slift (member (get entry "lane") "repository") in
      let! response := call_reader "pages" (r_request cfg)
        [("path", VStr (path_of k entry repository page)); ("deadline", deadline)] deadline in
      let! step := slift (take_page k entry page response inv) in
      match snd step with
      | Some next => read_pages fuel k entry deadline next (fst step)
      | None => sret (Some (fst step))
      end
  end.
(** The pages of one kind, after those already read, and the check of their count. *)
Definition read_kind (fuel : nat) (k : Kind) (entry : obj) (deadline : val) (all pages : list val) : M (option Inventory) :=
  let! got := read_pages fuel k entry deadline 1
    {| i_seen := []; i_total := VNull; i_count := 0; i_all := all; i_pages := pages |} in
  match got with
  | None => sret None
  | Some inv =>
      if negb (strict_eq (i_total inv) VNull) && negb (strict_eq (VInt (i_count inv)) (i_total inv))
      then slift partial_pages else sret (Some inv)
  end.

Definition with_state (item : val) : val :=
  VObj (spread (fields_or_empty item) [("result", VStr (checkItemState item))]).
(** The proof that no CI is configured, asked for when nothing is required or reported. *)
Definition read_no_ci (entry : obj) (deadline required : val) (results : list val) : M val :=
  match r_noCi cfg with
  | Some adapter =>
      if negb (Nat.eqb (length results) 0) || negb (Nat.eqb (length (array_or_empty (oget required "contexts"))) 0) then sret VNull
      else
        let! listed := slift (match noCiRepositories (r_cfg cfg) with
                              | VArr l => Ok (some_b (fun r => same_text r (oget (get entry "lane") "repository")) l)
                              | _ => Throw (TypeError "noCiRepositories.some is not a function")
                              end) in
        if negb listed then sret VNull
        else let! v := call_reader "no-ci" (Some adapter) [("entry", VObj entry); ("deadline", deadline)] deadline in sret (or_null v)
  | None => sret VNull
  end.

Definition read_required (entry : obj) (deadline : val) : M val :=
  let! rules := call_reader "policy" (r_policy cfg) [("entry", VObj entry); ("deadline", deadline)] deadline in
  slift (resolveQueueRequiredSet (r_cfg cfg) rules).
(** The snapshot of the inventory, once the required set has been read again. *)
Definition snapshot (entry : obj) (deadline required : val) (all pages : list val) : M val :=
  let! after := read_required entry deadline in
  if negb (strict_eq (oget after "version") (oget required "version")) then sthrow (PlainError "required-set-changed")
  else
    let results := map with_state (latestCheckRollupItems (VArr all)) in
    let! noCi := read_no_ci entry deadline required results in
    let! t := now in
    sret (VObj [("head", get entry "candidate"); ("base", get entry "exactBase"); ("requiredSet", required);
                ("results", VArr results); ("pages", VArr pages); ("noCi", noCi); ("complete", VBool true);
                ("observedAt", VStr t)]).
(** [read({ entry, deadline, signal })]. *)
Definition read_checks (fuel : nat) (entry : obj) (deadline : val) : M (option val) :=
  let! deadline := (match deadline with VUndef => slift (patience_deadline entry) | _ => sret deadline end) in
  let! required := read_required entry deadline in
  let! runs := read_kind fuel CheckRuns entry deadline [] [] in
  match runs with
  | None => sret None
  | Some runs =>
      let! both := read_kind fuel Statuses entry deadline (i_all runs) (i_pages runs) in
      match both with
      | None => sret None
      | Some both => let! v := snapshot entry deadline required (i_all both) (i_pages both) in sret (Some v)
      end
  end.

(** The reader composed into the checks service. *)
Definition check_reader (fuel : nat) : Reader E := fun request _ t e =>
  let '(r, w) := read_checks fuel (fields_or_empty (get request "entry")) (get request "deadline")
                   {| tables := t; env := e; trace := [] |} in
  (match r with Ok (Some v) => Ok v | Ok None => Throw (PlainError "out of fuel") | Throw x => Throw x end, tables w, env w).
End Reader.

(** ** What a page adds *)

Section Pages.
Context {hostDate : HostDate} {sqliteText : SqliteText} {sha256 : Sha256}.

Definition item_id (x : val) : val := oget x "id".
Definition of_candidate (entry : obj) (x : val) : Prop := oget x "head" = get entry "candidate".
(** No two items share an id. *)
Definition distinct_ids (l : list val) : Prop := ForallOrdPairs (fun x y => strict_eq (item_id y) (item_id x) = false) l.

(** What the pages gave are items of the candidate, counted, with the ids seen. *)
Definition collected (entry : obj) (base seen all items : list val) : Prop :=
  all = base ++ items /\ seen = rev (map item_id items) /\ Forall (of_candidate entry) items /\ distinct_ids items.

Lemma distinct_snoc l x :
  distinct_ids l -> (forall y, In y l -> strict_eq (item_id x) (item_id y) = false) -> distinct_ids (l ++ [x]).
Proof.
  unfold distinct_ids. induction 1 as [|y l Hy Hl IH]; intros Hx; [by repeat constructor|].
  cbn [app]. constructor; [|apply IH; auto with datatypes].
  apply Forall_app. split; [done|]. constructor; [|constructor]. apply Hx. by left.
Qed.

Lemma check_item_fields k entry ref item :
  item_id (check_item k entry ref item) = item_id item /\ of_candidate entry (check_item k entry ref item).
Proof. by destruct k. Qed.

Lemma take_items_collected k entry ref base l seen all got seen' all' :
  collected entry base seen all got -> take_items k entry ref l seen all = Ok (seen', all') ->
  exists got', collected entry base seen' all' got' /\ length got' = (length got + length l)%nat.
Proof.
  revert seen all got. induction l as [|item l IH]; intros seen all got Hc; cbn [take_items].
  { intros [= <- <-]. exists got. split; [done|]. simpl. lia. }
  intros (cr & _ & Ht)%rbind_Ok.
  destruct (readable_item k seen item) eqn:Er; [|done]. destruct (negb (is_runs k) || _); [|done].
  destruct Hc as (-> & -> & Hf & Hd). destruct (check_item_fields k entry ref item) as [Hi Hh].
  eapply (IH _ _ (got ++ [check_item k entry ref item])) in Ht as (got' & Hg & Hl).
  - exists got'. split; [done|]. rewrite Hl, length_app. simpl. lia.
  - split; [by rewrite (assoc_L (++))|]. split; [by rewrite map_app, rev_app_distr; cbn [map rev app]; rewrite Hi|].
    split; [apply Forall_app; by repeat constructor|].
    apply distinct_snoc; [done|]. intros y Hy. rewrite Hi.
    unfold readable_item in Er. bool_simpl. eapply some_b_false; [eassumption|].
    apply in_rev. rewrite rev_involutive. by apply in_map.
Qed.

(** What the pages read so far amount to. *)
Definition inventoried (k : Kind) (entry : obj) (base : list val) (inv : Inventory) : Prop :=
  exists items, collected entry base (i_seen inv) (i_all inv) items /\ i_count inv = Z.of_nat (length items)
    /\ (i_total inv = VNull \/ exists n, nonneg_int (i_total inv) = Some n).

Lemma take_page_inventoried k entry base page response inv inv' next :
  inventoried k entry base inv -> take_page k entry page response inv = Ok (inv', next) ->
  inventoried k entry base inv' /\ (k = CheckRuns -> i_total inv' <> VNull)
  /\ next = (if strict_eq (oget response "nextPage") VNull then None else Some (page + 1)%Z).
Proof.
  intros (got & Hc & Hn & Ht) Hp. unfold take_page in Hp. destruct (_ && _); [|done].
  destruct (page_items k response) as [| | | | |items|]; try done. destruct (_ && _); [|done].
  apply rbind_Ok in Hp as (total & Htot & Hp). apply rbind_Ok in Hp as ([seen all] & Hi & [= <- <-]).
  destruct (take_items_collected _ _ _ _ _ _ _ _ _ _ Hc Hi) as (got' & Hc' & Hl). cbn [i_total fst snd].
  assert (Hk : (total = VNull \/ exists n, nonneg_int total = Some n) /\ (k = CheckRuns -> total <> VNull)).
  { unfold page_total in Htot. destruct k; [|injection Htot as <-; split; [exact Ht | done]].
    destruct (nonneg_int (oget _ _)) as [n|] eqn:En; [|done]. destruct (_ && _); [done|]. injection Htot as <-.
    split; [right; eauto|]. intros _ E0. by rewrite E0 in En. }
  split; [|split; [apply Hk | done]]. exists got'. split; [done|]. split; [cbn; lia | apply Hk].
Qed.
End Pages.

(** ** Runs of the reader *)

Section Runs.
Context {hostDate : HostDate} {sqliteText : SqliteText} {sha256 : Sha256}.
Context {E : Type} {queueEnv : QueueEnv E}.
Variable cfg : ReaderConfig (E := E).

#[local] Instance call_reader_quiet n a q d : Quiet (call_reader cfg n a q d).
Proof. unfold call_reader. quiet. Qed.
#[local] Instance read_pages_quiet fuel k entry d page inv : Quiet (read_pages cfg fuel k entry d page inv).
Proof. revert page inv. induction fuel as [|fuel IH]; intros page inv; cbn [read_pages]; quiet. Qed.
#[local] Instance read_kind_quiet fuel k entry d all pages : Quiet (read_kind cfg fuel k entry d all pages).
Proof. unfold read_kind, partial_pages. quiet. Qed.
#[local] Instance read_required_quiet entry d : Quiet (read_required cfg entry d).
Proof. unfold read_required. quiet. Qed.
#[local] Instance read_no_ci_quiet entry d r l : Quiet (read_no_ci cfg entry d r l).
Proof. unfold read_no_ci. quiet. Qed.

Lemma call_reader_Ok n a q d (w : World E) v w' :
  call_reader cfg n a q d w = (Ok v, w') ->
  exists ms w1, (0 < ms)%Z /\ readQueueEvidence n a q ms w1 = (Ok v, w') /\ reads [(n, v)] w w'.
Proof.
  unfold call_reader. intros (ab & w1 & H1 & Hc)%sbind_Ok. destruct ab; [done|].
  apply sbind_Ok in Hc as (ms & w2 & H2 & Hc). destruct (ms =? 0)%Z eqn:Em; [done|].
  exists ms, w2. apply wait_until_range in H2 as Hr. apply Z.eqb_neq in Em. split; [lia|]. split; [done|].
  apply read_evidence_Ok in Hc. eapply reads_before; [|by eapply reads_single].
  eapply quietly_trans; [by eapply quiet_run_of; [|exact H1]; apply _ | by eapply quiet_run_of; [|exact H2]; apply _].
Qed.

(** The required set is resolved from the answer of the policy. *)
Lemma read_required_Ok entry d (w : World E) required w' :
  read_required cfg entry d w = (Ok required, w') ->
  exists rules, reads [("policy", rules)] w w' /\ resolveQueueRequiredSet (r_cfg cfg) rules = Ok required.
Proof.
  unfold read_required. intros (rules & w1 & Hc & [Hr ->]%slift_Ok)%sbind_Ok. exists rules.
  apply call_reader_Ok in Hc as (_ & _ & _ & _ & Hc). done.
Qed.

Lemma read_pages_inventoried fuel k entry base d page inv (w : World E) got w' :
  inventoried k entry base inv -> read_pages cfg fuel k entry d page inv w = (Ok (Some got), w') ->
  inventoried k entry base got /\ (k = CheckRuns -> i_total got <> VNull).
Proof.
  revert page inv w. induction fuel as [|fuel IH]; intros page inv w Hi; cbn [read_pages]; [done|].
  intros (repo & w1 & _ & Hp)%sbind_Ok. apply sbind_Ok in Hp as (resp & w2 & _ & Hp).
  apply sbind_Ok in Hp as ([inv' next] & w3 & [Ht ->]%slift_Ok & Hp).
  destruct (take_page_inventoried _ _ _ _ _ _ _ _ Hi Ht) as (Hi' & Hk & _). cbn [fst snd] in Hp.
  destruct next as [next|]; [by eapply IH | by apply sret_Ok in Hp as [[= <-] _]].
Qed.

(** The inventory of a kind: items of the candidate, with ids of their own, and
    for the check runs as many as the total of the last page. *)
Lemma read_kind_exact fuel k entry d base pages (w : World E) got w' :
  read_kind cfg fuel k entry d base pages w = (Ok (Some got), w') ->
  exists items, i_all got = base ++ items /\ Forall (of_candidate entry) items /\ distinct_ids items
    /\ (k = CheckRuns -> strict_eq (VInt (Z.of_nat (length items))) (i_total got) = true).
Proof.
  unfold read_kind. intros ([inv|] & w1 & Hp & Hk)%sbind_Ok; [|done].
  assert (Hi : inventoried k entry base {| i_seen := []; i_total := VNull; i_count := 0; i_all := base; i_pages := pages |}).
  { exists []. split; [|split; [done | by left]]. split; [by rewrite app_nil_r|]. by repeat constructor. }
  destruct (read_pages_inventoried _ _ _ _ _ _ _ _ _ _ Hi Hp) as ((items & (Ha & _ & Hf & Hd) & Hc & _) & Ht).
  destruct (negb (strict_eq (i_total inv) VNull)) eqn:En; cbn [andb] in Hk.
  - destruct (negb (strict_eq _ (i_total inv))) eqn:Ec; [done|]. apply sret_Ok in Hk as [[= <-] _].
    exists items. split; [done|]. split; [done|]. split; [done|]. intros _. by apply negb_false_iff in Ec; rewrite Hc in Ec.
  - apply sret_Ok in Hk as [[= <-] _]. exists items. split; [done|]. split; [done|]. split; [done|].
    intros Ek. exfalso. apply (Ht Ek). apply negb_false_iff in En. by destruct (i_total inv).
Qed.

Lemma with_state_fields x : oget (with_state x) "head" = oget x "head" /\ oget (with_state x) "result" = VStr (checkItemState x).
Proof.
  unfold with_state. split.
  - change (get (spread (fields_or_empty x) [("result", VStr (checkItemState x))]) "head" = oget x "head").
    rewrite get_spread_other; [by destruct x | simpl; intuition discriminate].
  - apply (get_spread_in _ _ "result"); [keys | by left].
Qed.

Lemma required_set_readable rules required :
  resolveQueueRequiredSet (r_cfg cfg) rules = Ok required ->
  truthy (oget required "version") = true /\ is_array (oget required "contexts") = true.
Proof. unfold resolveQueueRequiredSet. destruct (_ || _); [done|]. by intros [= <-]. Qed.

(** The parts of a run of the reader that answered. *)
Lemma read_checks_parts fuel entry deadline (w : World E) v w' :
  read_checks cfg fuel entry deadline w = (Ok (Some v), w') ->
  exists d w1 w2 w3 w4 required runs both,
    quietly w w1 /\ read_required cfg entry d w1 = (Ok required, w2)
    /\ read_kind cfg fuel CheckRuns entry d [] [] w2 = (Ok (Some runs), w3)
    /\ read_kind cfg fuel Statuses entry d (i_all runs) (i_pages runs) w3 = (Ok (Some both), w4)
    /\ snapshot cfg entry d required (i_all both) (i_pages both) w4 = (Ok v, w').
Proof.
  unfold read_checks. intros (d & w1 & Hd & Hr)%sbind_Ok. apply sbind_Ok in Hr as (required & w2 & Hq & Hr).
  apply sbind_Ok in Hr as ([runs|] & w3 & Hk & Hr); [|done]. apply sbind_Ok in Hr as ([both|] & w4 & Hb & Hr); [|done].
  apply sbind_Ok in Hr as (x & w5 & Hs & [[= ->] ->]%sret_Ok).
  exists d, w1, w2, w3, w4, required, runs, both. split; [|done].
  eapply quiet_run_of; [|exact Hd]. destruct deadline; quiet.
Qed.

(** The snapshot: the required set was read again at the same version. *)
Lemma snapshot_Ok entry d required all pages (w : World E) v w' :
  snapshot cfg entry d required all pages w = (Ok v, w') ->
  exists rules again w1 noCi t, reads [("policy", rules)] w w1 /\ quietly w1 w'
    /\ resolveQueueRequiredSet (r_cfg cfg) rules = Ok again /\ strict_eq (oget again "version") (oget required "version") = true
    /\ v = VObj [("head", get entry "candidate"); ("base", get entry "exactBase"); ("requiredSet", required);
                 ("results", VArr (map with_state (latestCheckRollupItems (VArr all)))); ("pages", VArr pages);
                 ("noCi", noCi); ("complete", VBool true); ("observedAt", VStr t)].
Proof.
  unfold snapshot. intros (again & w1 & Ha & Hs)%sbind_Ok. apply read_required_Ok in Ha as (rules & Hr & Ha).
  destruct (strict_eq _ _) eqn:Ev; [|done]. cbn [negb] in Hs. apply sbind_Ok in Hs as (noCi & w2 & Hn & Hs).
  apply sbind_Ok in Hs as (t & w3 & Ht & [<- ->]%sret_Ok). exists rules, again, w1, noCi, t.
  split; [done|]. split; [|done]. apply quiet_run_of in Hn; [|apply _]. apply quiet_run_of in Ht; [|apply _].
  by eapply quietly_trans.
Qed.

Record ExactSnapshot (entry : obj) (v : val) (runs statuses : list val) (total : val) : Prop := {
  es_head : oget v "head" = get entry "candidate";
  es_complete : oget v "complete" = VBool true;
  es_results : oget v "results" = VArr (map with_state (latestCheckRollupItems (VArr (runs ++ statuses))));
  es_candidate : Forall (of_candidate entry) (runs ++ statuses);
  es_distinct : distinct_ids runs /\ distinct_ids statuses;
  es_counted : strict_eq (VInt (Z.of_nat (length runs))) total = true
}.

(** ** Termination *)

Lemma sbind_ext {A B} (m : SM A) (f g : A -> SM B) (w : World E) :
  (forall a w', f a w' = g a w') -> sbind m f w = sbind m g w.
Proof. intros Hfg. unfold sbind. by destruct (m w) as [[a|e] w']. Qed.

(** The pages of the API end: asked for page [N] or a later one, it names no next page. *)
Definition ends_by (N : Z) : Prop :=
  forall read, r_request cfg = Some read ->
  forall k entry repository page d ms t e v t' e', (N <= page)%Z ->
    read [("path", VStr (path_of k entry repository page)); ("deadline", d)] ms t e = (Ok v, t', e') ->
    oget v "nextPage" = VNull.

Definition out_of_fuel {A} (r : result (option A)) : Prop := r = Ok None.

Lemma read_pages_fuel N fuel k entry d page inv (w : World E) :
  ends_by N -> (N - page < Z.of_nat fuel)%Z -> (0 < fuel)%nat -> ~ out_of_fuel (fst (read_pages cfg fuel k entry d page inv w)).
Proof.
  intros He. revert page inv w. induction fuel as [|fuel IH]; intros page inv w Hf Hpos; [lia|].
  cbn [read_pages]. intros Ho. destruct (sbind _ _ w) as [r w'] eqn:Er. cbn [fst] in Ho. rewrite Ho in Er.
  apply sbind_Ok in Er as (repo & w1 & _ & Er). apply sbind_Ok in Er as (resp & w2 & Hc & Er).
  apply sbind_Ok in Er as ([inv' next] & w3 & [Ht ->]%slift_Ok & Er). cbn [fst snd] in Er.
  destruct next as [next|]; [|done].
  assert (Hn : oget resp "nextPage" <> VNull /\ next = (page + 1)%Z).
  { unfold take_page in Ht. destruct (_ && _); [|done]. destruct (page_items k resp); try done. destruct (_ && _); [|done].
    apply rbind_Ok in Ht as (? & _ & Ht). apply rbind_Ok in Ht as (? & _ & Ht).
    destruct (strict_eq (oget resp "nextPage") VNull) eqn:En; [done|]. injection Ht as _ <-. split; [|done].
    intros E0. by rewrite E0 in En. }
  destruct Hn as [Hn ->]. apply call_reader_Ok in Hc as (ms & w4 & _ & Hc & _).
  unfold readQueueEvidence in Hc. destruct (negb _); [done|]. destruct (r_request cfg) as [read|] eqn:Eq; [|done].
  unfold call in Hc. destruct (read _ ms _ _) as [[r0 t0] e0] eqn:Eread. injection Hc as -> _.
  destruct (Z_le_gt_dec N page) as [Hge|Hlt]; [by rewrite (He _ Eq _ _ _ _ _ _ _ _ _ _ _ Hge Eread) in Hn|].
  apply (IH (page + 1)%Z inv' w2); [lia | lia |]. by rewrite Er.
Qed.

Lemma read_pages_more fuel more k entry d page inv (w : World E) :
  ~ out_of_fuel (fst (read_pages cfg fuel k entry d page inv w)) ->
  read_pages cfg (fuel + more) k entry d page inv w = read_pages cfg fuel k entry d page inv w.
Proof.
  revert page inv w. induction fuel as [|fuel IH]; intros page inv w; [by intros []|].
  cbn [Nat.add read_pages]. unfold sbind. destruct (slift _ w) as [[repo|] w1]; [|done].
  destruct (call_reader _ _ _ _ _ w1) as [[resp|] w2]; [|done].
  destruct (slift _ w2) as [[[inv' next]|] w3]; [|done]. cbn [snd fst]. destruct next; [apply IH | done].
Qed.

Lemma read_kind_more N fuel more k entry d all pages (w : World E) :
  ends_by N -> (N <= Z.of_nat fuel)%Z -> (0 < fuel)%nat ->
  read_kind cfg (fuel + more) k entry d all pages w = read_kind cfg fuel k entry d all pages w
  /\ ~ out_of_fuel (fst (read_kind cfg fuel k entry d all pages w)).
Proof.
  intros He Hf Hpos. unfold read_kind, sbind.
  pose proof (fun inv => read_pages_fuel N fuel k entry d 1 inv w He ltac:(lia) Hpos) as Hp.
  rewrite (read_pages_more _ _ _ _ _ _ _ _ (Hp _)). split; [done|]. specialize (Hp {| i_seen := []; i_total := VNull; i_count := 0; i_all := all; i_pages := pages |}).
  destruct (read_pages _ _ _ _ _ _ _ w) as [[[inv|]|] w1]; [|by destruct Hp|done].
  by destruct (negb _ && negb _).
Qed.

(** C38. When the pages of the API end, the reader of the checks ends, with a
    snapshot or with an error: fuel for as many pages is enough, whatever else the
    API answers, and more changes nothing. *)
Theorem check_reader_terminates N fuel entry deadline (w : World E) :
  ends_by N -> (N <= Z.of_nat fuel)%Z -> (0 < fuel)%nat ->
  ~ out_of_fuel (fst (read_checks cfg fuel entry deadline w))
  /\ forall more, read_checks cfg (fuel + more) entry deadline w = read_checks cfg fuel entry deadline w.
Proof.
  intros He Hf Hpos.
  assert (Hk : forall k d all pages w more, read_kind cfg (fuel + more) k entry d all pages w = read_kind cfg fuel k entry d all pages w
    /\ ~ out_of_fuel (fst (read_kind cfg fuel k entry d all pages w))) by (intros; by eapply read_kind_more).
  split.
  - intros Ho. destruct (read_checks cfg fuel entry deadline w) as [r w'] eqn:Er. cbn [fst] in Ho. rewrite Ho in Er.
    unfold read_checks in Er. apply sbind_Ok in Er as (d & w1 & _ & Er). apply sbind_Ok in Er as (req & w2 & _ & Er).
    apply sbind_Ok in Er as (runs & w3 & Hr & Er). destruct (Hk CheckRuns d [] [] w2 0%nat) as [_ Hn].
    destruct runs as [runs|]; [|by rewrite Hr in Hn]. apply sbind_Ok in Er as (both & w4 & Hb & Er).
    destruct (Hk Statuses d (i_all runs) (i_pages runs) w3 0%nat) as [_ Hn'].
    destruct both as [both|]; [|by rewrite Hb in Hn']. by apply sbind_Ok in Er as (? & ? & _ & [[=] _]%sret_Ok).
  - intros more. unfold read_checks. apply sbind_ext. intros d w1. apply sbind_ext. intros req w2.
    unfold sbind. rewrite (proj1 (Hk CheckRuns d [] [] w2 more)).
    destruct (read_kind cfg fuel CheckRuns _ _ _ _ _) as [[[runs|]|] w3]; [|done|done].
    by rewrite (proj1 (Hk Statuses d (i_all runs) (i_pages runs) w3 more)).
Qed.
End Runs.

(** ** Concrete inputs *)

#[local] Existing Instance ex_host.
#[local] Existing Instance ex_text.
#[local] Existing Instance length_digest.
#[local] Existing Instance still_env.

Definition ex_subject : obj :=
  [("lane", VObj [("repository", VStr "example/review"); ("base", VStr "main")]); ("candidate", VStr ex_head);
   ("exactBase", VStr ex_base); ("patience", VObj [("deadline", VStr "2026-10-23T00:30:00.000Z")])].
Definition ex_run (i : nat) : val :=
  VObj [("id", VInt (Z.of_nat i)); ("name", VStr "ci"); ("head_sha", VStr ex_head); ("status", VStr "completed");
        ("conclusion", VStr (if Nat.eqb i 101 then "success" else "failure")); ("started_at", VStr (if Nat.eqb i 101 then "2026-10-23T00:00:09Z" else "2026-10-23T00:00:05Z"));
        ("html_url", VStr "https://example.test/run")].
(** A page of check runs out of [total] reported, and the statuses. *)
Definition ex_page (total : Z) (runs : list nat) (next : val) : val :=
  VObj [("sourceRef", VStr "page"); ("nextPage", next);
        ("body", VObj [("total_count", VInt total); ("check_runs", VArr (map ex_run runs))])].
Definition ex_statuses : val := VObj [("sourceRef", VStr "page"); ("nextPage", VNull); ("body", VArr [])].
Definition is_path (q : obj) (k : Kind) (page : Z) : bool :=
  is_str (get q "path") (path_of k ex_subject (VStr "example/review") page).
(** An API with the given runs after the first hundred. *)
Definition ex_api (total : Z) (rest : list nat) : Reader unit := fun q _ =>
  answers (if is_path q Statuses 1 then ex_statuses
           else if is_path q CheckRuns 1 then ex_page total (List.seq 1 100) (VInt 2) else ex_page total rest VNull).
Definition ex_rules (version : string) : val :=
  VObj [("complete", VBool true); ("sourceRef", VStr "rules:1"); ("version", VStr version); ("contexts", VArr [VStr " CI "])].
Definition ex_reader (api policy : Reader unit) : ReaderConfig (E := unit) := {|
  r_request := Some api; r_policy := Some policy; r_noCi := None;
  r_cfg := {| authority := VUndef; plain := VObj [("requiredCheckContexts", VArr [VStr "ci"])] |};
  r_aborted := fun e => (None, e) |}.
Definition ex_empty : World unit := {| tables := ex_tables; env := tt; trace := [] |}.
Definition ex_read (api : Reader unit) : result (option val) * World unit :=
  read_checks (ex_reader api (fun _ _ => answers (ex_rules "v1"))) 3 ex_subject VUndef ex_empty.
Definition verdict_of (r : result (option val)) : string :=
  match r with
  | Ok (Some v) => cd_reason (classifyQueueChecks v)
  | Ok None => "out of fuel"
  | Throw e => error_message e
  end.

(** The one run that counts is on the second page; a missing, a repeated and a
    foreign item, and a moved total, are refused. *)
Example check_reader_examples :
  (map (fun api => verdict_of (fst (ex_read api)))
     [ex_api 101 [101%nat]; ex_api 102 [101%nat]; ex_api 101 [100%nat]; ex_api 100 []],
   length (trace (snd (ex_read (ex_api 101 [101%nat])))),
   resolveQueueRequiredSet (r_cfg (ex_reader (ex_api 0 []) (ex_api 0 []))) (VObj [("complete", VBool false)]))
  = (["exact-candidate-checks-green"; "checks-partial-pages"; "checks-invalid-result"; "checks-completed-red"], 5%nat,
     Throw (PlainError "required-set-unresolved")).
Proof. vm_compute. reflexivity. Qed.

Definition ex_answer : val := match fst (ex_read (ex_api 101 [101%nat])) with Ok (Some v) => v | _ => VUndef end.

Definition ex_single : ReaderConfig (E := unit) :=
  ex_reader (fun _ _ => answers (ex_page 0 [] VNull)) (fun _ _ => answers (ex_rules "v1")).
Lemma check_reader_terminates_witness :
  ~ out_of_fuel (fst (read_checks ex_single 1 ex_subject VUndef ex_empty))
  /\ read_checks ex_single 8 ex_subject VUndef ex_empty = read_checks ex_single 1 ex_subject VUndef ex_empty.
Proof.
  destruct (check_reader_terminates ex_single 1 1 ex_subject VUndef ex_empty) as [Hout Hmore]; [|lia|lia|].
  - intros read [= <-] k entry repo page d ms t e v t' e' _ Hr. injection Hr as <- _ _. vm_compute. reflexivity.
  - split; [exact Hout | exact (Hmore 7%nat)].
Defined.
