(* ===== verification/QueueRouting.v ===== *)
(** * The routing of a lane (queue-routing.mjs, config-lane-routes.mjs)

    Which executor owns a lane, the legacy one or the queue, and the transfer of a
    lane between them. [run] is the one place where a writer is selected; [transfer]
    fences both writers, drains them on evidence, settles what they left, hands the
    entries back when the lane returns to the legacy executor, and only then moves
    the route. The lock of the lane, the clock and the writers are of the
    environment; a route row is its executor, with its other columns in the routing
    tables, and the raw JSON columns of a row are shown as what they denote. *)

From Stdlib Require Import ZArith Lia Ascii SpecFloat.
From stdpp Require Import base list strings gmap sorting.
From S2P Require Import Prelude JsNum JsValue JsDate LedgerEvents LedgerStore.
From S2P Require Import QueueLane QueueStore QueueOwner QueueAdmission QueueHandoff HandoffStore QueueService.

(** ** The routes of the configuration *)

Record LaneRoute := { lr_repository : string; lr_base : string; lr_executor : string }.
Definition EXECUTORS : list string := ["legacy"; "queue-v2"].

Definition text_before (s t : string) : Prop := key_le s t = true.
#[export] Instance text_before_dec s t : Decision (text_before s t).
Proof. unfold text_before. apply _. Defined.
Definition sorted_keys (o : obj) : string := join "," (merge_sort text_before (map fst o)).

Definition lane_route (record : val) : result LaneRoute :=
  let invalid := TypeError "invalid lane_routes record" in
  match record with
  | VObj o =>
      match get o "repository", get o "executor" with
      | VStr r, VStr x =>
          guard String.eqb (sorted_keys o) "base,executor,repository" && is_full_name r && str_in x EXECUTORS else invalid in
          match get o "base" with
          | VStr b => guard is_branch b else TypeError "invalid lane_routes base" in
                      Ok {| lr_repository := to_lower r; lr_base := b; lr_executor := x |}
          | _ => Throw (TypeError "invalid lane_routes base")
          end
      | _, _ => Throw invalid
      end
  | _ => Throw invalid
  end.
Definition same_route (a b : LaneRoute) : bool :=
  String.eqb (lr_repository a) (lr_repository b) && String.eqb (lr_base a) (lr_base b).
Fixpoint normalize_records (seen : list LaneRoute) (records : list val) : result (list LaneRoute) :=
  match records with
  | [] => Ok []
  | record :: records =>
      let* r := lane_route record in
      guard negb (some_b (same_route r) seen) else TypeError "duplicate lane_routes lane" in
      let* rest := normalize_records (r :: seen) records in Ok (r :: rest)
  end.
Definition normalizeLaneRoutes (routes : val) : result (list LaneRoute) :=
  match routes with VArr l => normalize_records [] l | _ => Throw (TypeError "lane_routes requires a list") end.
Definition route_record (r : LaneRoute) : val :=
  VObj [("repository", VStr (lr_repository r)); ("base", VStr (lr_base r)); ("executor", VStr (lr_executor r))].

Definition resolveLaneExecutor (routes : list LaneRoute) (l : Lane) : result string :=
  let* asked := lane_route (VObj [("repository", VStr (repository l)); ("base", VStr (base l)); ("executor", VStr "legacy")]) in
  let* routes := normalizeLaneRoutes (VArr (map route_record routes)) in
  Ok (match find_b (same_route asked) routes with Some r => lr_executor r | None => "legacy" end).

Section Routing.
Context {hostDate : HostDate} {sqliteText : SqliteText} {sha256 : Sha256}.

Record Desired := { d_lane : Lane; d_executor : string; d_config : string; d_enabled : bool }.
Definition resolveLaneRoute (cfg lane : val) : result Desired :=
  let* l := resolveLaneKey lane in
  let* routes := normalizeLaneRoutes (coalesce (oget cfg "laneRoutes") (VArr [])) in
  let* executor := resolveLaneExecutor routes l in
  let* digest := handoffDigest (json_norm (VObj (spread (fields_or_empty cfg) [("laneRoutes", VArr (map route_record routes))]))) in
  Ok {| d_lane := l; d_executor := executor; d_config := "sha256:" +:+ digest;
        d_enabled := negb (strict_eq (oget cfg "autonomousMergeExecutionEnabled") (VBool false))
                     && negb (strict_eq (oget cfg "autonomous_merge_execution_enabled") (VBool false)) |}.
Definition desired_fields (d : Desired) : obj :=
  [("lane", lane_val (d_lane d)); ("executor", VStr (d_executor d)); ("configGeneration", VStr (d_config d));
   ("autonomousExecutionEnabled", VBool (d_enabled d))].

(** ** Reading the routing tables *)

(** A route row joined with its lane row. *)
Record RouteView := { v_executor : string; v_detail : RouteDetail; v_owner : LaneRow }.
Definition read_route (t : Tables) (l : Lane) : option RouteView :=
  match routes (queue_of t) !! lane_pk l, route_details (routing t) !! lane_pk l, lanes (queue_of t) !! lane_pk l with
  | Some row, Some detail, Some owner => Some {| v_executor := route_executor row; v_detail := detail; v_owner := owner |}
  | _, _, _ => None
  end.
Definition opt_val (v : option val) : val := match v with Some v => v | None => VNull end.
Definition route_val (l : Lane) (v : RouteView) : val :=
  VObj [("repository", VStr (repository l)); ("base", VStr (base l)); ("executor", VStr (v_executor v));
        ("config_generation", VStr (config_generation (v_detail v))); ("updated_at", VStr (route_updated (v_detail v)));
        ("route_generation", VInt (route_generation (v_owner v))); ("owner_id", opt_text (owner_id (v_owner v)));
        ("fence", VInt (generation (v_owner v))); ("owner_state", VStr (owner_state (v_owner v)));
        ("runtime", opt_val (runtime (v_detail v))); ("transition", opt_val (transition (v_detail v)))].

Definition id_before (a b : WriterRow) : Prop := String.leb (writer_id a) (writer_id b) = true.
#[export] Instance id_before_dec a b : Decision (id_before a b).
Proof. unfold id_before. apply _. Defined.
Definition return_before (a b : ReturnRow) : Prop := String.leb (return_entry a) (return_entry b) = true.
#[export] Instance return_before_dec a b : Decision (return_before a b).
Proof. unfold return_before. apply _. Defined.
Definition is_none {A} (o : option A) : bool := match o with None => true | Some _ => false end.
Definition legacy_writers (t : Tables) (l : Lane) : list WriterRow :=
  merge_sort id_before (filter_b (fun w => same_lane l (writer_lane w) && is_none (writer_result w)) (writers (routing t))).
Definition pending_returns (t : Tables) (l : Lane) : list ReturnRow :=
  merge_sort return_before
    (filter_b (fun r => is_none (return_receipt r)
       && match row_of_id (queue_of t) (return_entry r) with Some e => same_lane l (entry_lane e) | None => false end)
       (returns (routing t))).
Definition writer_val (w : WriterRow) : val :=
  VObj [("writer_id", VStr (writer_id w)); ("repository", VStr (fst (writer_lane w))); ("base", VStr (snd (writer_lane w)));
        ("route_generation", VInt (writer_route w)); ("kind", VStr (writer_kind w)); ("intent", writer_intent w)].
Definition op_val (o : OpRow) : val :=
  VObj [("operation_id", VStr (operation_id o)); ("repository", VStr (fst (op_lane o))); ("base", VStr (snd (op_lane o)));
        ("entry_id", VStr (op_entry o)); ("generation", VInt (op_generation o)); ("route_generation", VInt (op_route_generation o));
        ("kind", VStr (op_kind o)); ("intent", VObj (op_intent o))].

(** ** Writing them *)

Definition set_routes (d : Db) (r : gmap (string * string) RouteRow) : Db := {|
  lanes := lanes d; entry_rows := entry_rows d; event_rows := event_rows d; last_event := last_event d;
  op_rows := op_rows d; routes := r |}.
Definition put_route (l : Lane) (executor : string) (detail : RouteDetail) (t : Tables) : Tables :=
  let row := {| route_executor := executor; in_transition := negb (is_none (transition detail)) |} in
  with_routing (with_queue t (set_routes (queue_of t) (<[lane_pk l := row]> (routes (queue_of t)))))
    {| route_details := <[lane_pk l := detail]> (route_details (routing t)); writers := writers (routing t); returns := returns (routing t) |}.
(** [UPDATE finalization_queue_route]: nothing when the row is missing. *)
Definition update_route (l : Lane) (f : string -> RouteDetail -> string * RouteDetail) (t : Tables) : Tables :=
  match routes (queue_of t) !! lane_pk l, route_details (routing t) !! lane_pk l with
  | Some row, Some detail => let '(x, detail) := f (route_executor row) detail in put_route l x detail t
  | _, _ => t
  end.
Definition with_writers (t : Tables) (ws : list WriterRow) : Tables :=
  with_routing t {| route_details := route_details (routing t); writers := ws; returns := returns (routing t) |}.
Definition with_returns (t : Tables) (rs : list ReturnRow) : Tables :=
  with_routing t {| route_details := route_details (routing t); writers := writers (routing t); returns := rs |}.
Definition settle_writer (id : string) (res : val) (t : Tables) : Tables :=
  with_writers t (map (fun w => if String.eqb (writer_id w) id
    then {| writer_id := writer_id w; writer_lane := writer_lane w; writer_route := writer_route w; writer_kind := writer_kind w;
            writer_intent := writer_intent w; writer_result := Some (json_norm res) |} else w) (writers (routing t))).

Definition insert_route (l : Lane) (config at_ : string) (t : Tables) : Tables :=
  let t := with_queue t (ensureLane (queue_of t) l) in
  match routes (queue_of t) !! lane_pk l with
  | Some _ => t
  | None => put_route l "legacy" {| config_generation := config; runtime := None; transition := None; route_updated := at_ |} t
  end.

Context {E : Type} {queueEnv : QueueEnv E}.
Abbreviation M := (SM (E := E)).

(** [queueTime(now())]. *)
Definition queue_now : M string := let! t := now in slift (queueTime (VStr t)).
Definition statement (f : Tables -> Tables) : M unit := change (fun t => Ok (tt, f t)).
Definition append_event (type : string) (l : Lane) (fields : Tables -> obj) : M unit :=
  change (fun t => let* a := append (queue_of t) type (lane_val l) (fields t) in Ok (tt, with_queue t (snd a))).

Definition initialize (d : Desired) : M unit := stx (let! at_ := queue_now in statement (insert_route (d_lane d) (d_config d) at_)).

Definition refused (reason : string) (more : obj) : val := VObj ([("ok", VBool false); ("reason", VStr reason)] ++ more).

Record RoutingConfig := {
  g_runtime : val;
  (** waiting for the lock until a deadline, and the milliseconds it took *)
  g_waitForLock : Lane -> val -> E -> bool * E;
  g_waited : E -> Z * E;
  (** [randomUUID()] *)
  g_uuid : E -> string * E
}.
Variable cfg : RoutingConfig.

(** [locked(lane, action, legacyDeadline)]. *)
Definition locked_lane (l : Lane) (legacyDeadline : val) (action : M val) : M val :=
  let! free := from_env (fun e => lock_is_free e l) in
  let! held := (if free then sret true
                else if truthy legacyDeadline then from_env (g_waitForLock cfg l legacyDeadline) else sret false) in
  if held then action
  else if truthy legacyDeadline
  then let! ms := from_env (g_waited cfg) in
       sret (refused "owner-operation-in-flight" [("outcome", VStr "lane-busy"); ("waitedMs", VInt ms)])
  else sret (refused "owner-operation-in-flight" []).

(** ** [run] *)

Definition Writer : Type := obj -> External E.
Definition select_writer (executor : string) (legacy queue : option Writer) : option Writer :=
  if String.eqb executor "legacy" then legacy else queue.
(** [result?.attempts > 0 && !result.merged && !result.permanent]. *)
Definition unfinished (res : val) : bool :=
  num_ltb (num_of_Z 0) (to_num (oget res "attempts")) && negb (truthy (oget res "merged")) && negb (truthy (oget res "permanent")).
Definition insert_writer (row : WriterRow) (t : Tables) : result (unit * Tables) :=
  if some_b (fun w => String.eqb (writer_id w) (writer_id row)) (writers (routing t)) then Throw unique_error
  else Ok (tt, with_writers t (writers (routing t) ++ [row])).

(** The legacy writer, between its intent and its result. *)
Definition run_legacy (d : Desired) (generation : Z) (kind subject : val) (write : Writer) : M val :=
  match kind with
  | VStr k =>
      if negb (str_in k ["daemon"; "closer"]) then sthrow (PlainError "invalid legacy writer kind")
      else
        let! id := from_env (g_uuid cfg) in
        let! at_ := queue_now in
        let intent := VObj (norm_fields [("lane", lane_val (d_lane d)); ("kind", kind); ("subject", subject);
                             ("runtime", g_runtime cfg); ("at", VStr at_); ("routeGeneration", VInt generation)]) in
        let! _ := change (insert_writer {| writer_id := id; writer_lane := lane_pk (d_lane d); writer_route := generation;
                                           writer_kind := k; writer_intent := intent; writer_result := None |}) in
        let request := desired_fields d ++ [("routeGeneration", VInt generation)] in
        let! res := call (EWriter "legacy" request) (write request) in
        let! _ := (if unfinished res then sret tt
                   else statement (settle_writer id (VObj [("outcome", VStr "succeeded"); ("sourceRef", VStr ("local-return:" +:+ id))]))) in
        sret res
  | _ => sthrow (PlainError "invalid legacy writer kind")
  end.

Definition no_route {A} : M A := sthrow (TypeError "Cannot read properties of null (reading 'transition')").
Definition stored_runtime : option val := if truthy (g_runtime cfg) then Some (json_norm (g_runtime cfg)) else None.
Definition route_moved (d : Desired) (v : RouteView) : bool :=
  negb (is_none (transition (v_detail v))) || negb (String.eqb (v_executor v) (d_executor d)).
Definition lane_unreconciled (v : RouteView) (ws : list WriterRow) (ops : list OpRow) : bool :=
  String.eqb (v_executor v) "queue-v2" && negb (Nat.eqb (length ws) 0) || negb (Nat.eqb (length ops) 0).

Definition run_lane (d : Desired) (kind subject : val) (legacy queue : option Writer) : M val :=
  let l := d_lane d in
  let! _ := initialize d in
  let! route := look (fun t => read_route t l) in
  let! ws := look (fun t => legacy_writers t l) in
  match route with
  | None => no_route
  | Some v =>
      if route_moved d v then sret (refused "lane-transfer-required" [("route", route_val l v)])
      else
        let! ops := look (fun t => operations (queue_of t) l) in
        if lane_unreconciled v ws ops then sret (refused "lane-reconciliation-required" [])
        else
          let! at_ := queue_now in
          let! _ := statement (update_route l (fun x r =>
            (x, {| config_generation := d_config d; runtime := stored_runtime; transition := transition r; route_updated := at_ |}))) in
          match select_writer (v_executor v) legacy queue with
          | None => sret (refused "queue-composition-unavailable" [])
          | Some write =>
              let generation := route_generation (v_owner v) in
              if String.eqb (v_executor v) "queue-v2" then
                let request := desired_fields d ++ [("routeGeneration", VInt generation)] in
                call (EWriter "queue-v2" request) (write request)
              else run_legacy d generation kind subject write
          end
  end.
Definition run (config lane kind subject : val) (legacy queue : option Writer) (legacyDeadline : val) : M val :=
  let! d := slift (resolveLaneRoute config lane) in
  if negb (d_enabled d) then sret (refused "autonomous-merge-execution-disabled" [])
  else locked_lane (d_lane d) (if String.eqb (d_executor d) "legacy" then legacyDeadline else VUndef)
         (run_lane d kind subject legacy queue).

(** ** [transfer] *)

Definition parked_lane (r : LaneRow) : LaneRow := {|
  generation := generation r; route_generation := (route_generation r + 1)%Z; owner_id := owner_id r; owner_state := "parked";
  owner_acquired := owner_acquired r; heartbeat_at := heartbeat_at r; expires_at := expires_at r;
  owner_reason := Some "route-transfer"; readiness_seq := readiness_seq r |}.
Definition lane_event (l : Lane) (at_ : string) (t : Tables) : obj := [("at", VStr at_); ("owner", owner_val (queue_of t) l)].
(** The transaction that fences both writers. *)
Definition begin_transfer (d : Desired) (from : string) : M unit := stx (
  let l := d_lane d in
  let! started := queue_now in
  let! at_ := queue_now in
  let! _ := statement (update_route l (fun x r =>
    (x, {| config_generation := config_generation r; runtime := runtime r; route_updated := at_;
           transition := Some (VObj [("from", VStr from); ("to", VStr (d_executor d)); ("startedAt", VStr started)]) |}))) in
  let! _ := statement (fun t => with_queue t (update_lane (queue_of t) l parked_lane)) in
  let! at1 := queue_now in
  append_event "owner-parked" l (lane_event l at1)).

(** [wait()] of the transfer. *)
Definition transfer_wait (deadline : val) : M Z :=
  let! at_ := queue_now in
  let! s := scaled 30000 in
  slift (queueWaitMs s 60000 (deadline_opt deadline) at_).
(** What an awaited adapter answered; undefined when it threw. *)
Definition ask (name : string) (adapter : option (Reader E)) (request : obj) (deadline : val) : M val :=
  let! got := attempt (let! ms := transfer_wait deadline in readQueueEvidence name adapter request ms) in
  sret (match got with Ok v => v | Throw _ => VUndef end).

Definition result_of (evidence : val) (id : string) : val := oget (oget evidence "results") id.
Definition drain_request (l : Lane) (v : RouteView) (ws : list WriterRow) (ops : list OpRow) : obj :=
  [("lane", lane_val l); ("prior", route_val l v); ("legacyWriters", VArr (map writer_val ws)); ("operations", VArr (map op_val ops))].
(** The evidence that nothing of the lane runs any more, when it proves that. *)
Definition drained (evidence deadline : val) (ws : list WriterRow) (ops : list OpRow) : M bool :=
  if negb (is_true (oget evidence "quiescent") && truthy (oget evidence "sourceRef")) then sret false
  else
    let! ms := transfer_wait deadline in
    sret (negb (ms =? 0)%Z && every_b (fun w => validResult (result_of evidence (writer_id w))) ws
          && every_b (fun o => validResult (result_of evidence (operation_id o))) ops).

(** The stored receipt of a merge is that of its operation. *)
Definition receipt_valid (o : OpRow) (entry : val) (row : MergeRow) : result bool :=
  let receipt := merge_receipt row in
  let i := op_intent o in
  if negb (truthy receipt) then Ok false
  else
  let* digest := handoffDigest (VObj (filter_b (fun kv => negb (String.eqb (fst kv) "digest")) (fields_or_empty receipt))) in
  Ok (is_str (oget receipt "digest") digest && is_str (oget receipt "digest") (merge_digest row)
      && is_str (oget receipt "entryId") (op_entry o) && strict_eq (oget receipt "newHead") (get i "candidate")
      && strict_eq (oget receipt "base") (get i "exactBase") && is_str (oget (oget receipt "merge") "operationId") (operation_id o)
      && strict_eq (oget (oget receipt "merge") "mergeSha") (merge_sha row)
      && strict_eq (merge_candidate row) (get i "candidate") && String.eqb (merge_operation row) (operation_id o)
      && strict_eq (oget (oget entry "merge") "mergeSha") (oget (oget receipt "merge") "mergeSha")).
Definition op_reconciled (t : Tables) (o : OpRow) : result bool :=
  let* found := readEntry (queue_of t) (VStr (op_entry o)) in
  let entry := match found with Some e => VObj e | None => VNull end in
  let i := op_intent o in
  let* valid := (match find_b (fun m => String.eqb (merge_entry m) (op_entry o)) (merges t) with
                 | Some row => if String.eqb (op_kind o) "merge" then receipt_valid o entry row else Ok false
                 | None => Ok false
                 end) in
  let publication := oget (oget entry "rebase") "publication" in
  Ok (strict_eq (oget entry "candidate") (get i "candidate") && strict_eq (oget entry "exactBase") (get i "exactBase")
      && (if String.eqb (op_kind o) "merge" then is_str (oget entry "phase") "merged" && valid
          else strict_eq (oget publication "head") (get i "candidate") && strict_eq (oget publication "base") (get i "exactBase")
               && truthy (oget publication "sourceRef"))).
Fixpoint ops_reconciled (t : Tables) (evidence : val) (ops : list OpRow) : result bool :=
  match ops with
  | [] => Ok true
  | o :: ops =>
      if negb (is_str (oget (result_of evidence (operation_id o)) "outcome") "succeeded") then ops_reconciled t evidence ops
      else let* ok := op_reconciled t o in if ok then ops_reconciled t evidence ops else Ok false
  end.

(** ** Settling, returning, finishing *)

Definition settle_op (o : OpRow) (res : val) (t : Tables) : Tables :=
  with_queue t (set_op_rows (queue_of t)
    (map (fun p => if String.eqb (operation_id p) (operation_id o) then with_result p res else p) (op_rows (queue_of t)))).
Fixpoint settle_writers (evidence : val) (ws : list WriterRow) : M unit :=
  match ws with
  | [] => sret tt
  | w :: ws => let! _ := statement (settle_writer (writer_id w) (result_of evidence (writer_id w))) in settle_writers evidence ws
  end.
Fixpoint settle_ops (l : Lane) (evidence : val) (ops : list OpRow) : M unit :=
  match ops with
  | [] => sret tt
  | o :: ops =>
      let res := result_of evidence (operation_id o) in
      let! _ := statement (settle_op o res) in
      let! at_ := queue_now in
      let! _ := append_event "operation-result" l (fun _ =>
        [("at", VStr at_); ("operationId", VStr (operation_id o)); ("result", res)]) in
      settle_ops l evidence ops
  end.
Definition terminal (e : obj) : bool := val_in (get e "phase") TERMINAL_PHASES.
Definition insert_return (l : Lane) (e : obj) (t : Tables) : Tables :=
  let id := to_str (get e "entryId") in
  let key := "route-return:" +:+ id in
  if some_b (fun r => String.eqb (return_entry r) id || String.eqb (return_key r) key) (returns (routing t)) then t
  else with_returns t (returns (routing t) ++
    [{| return_entry := id; return_key := key; return_receipt := None;
        return_payload := VObj (norm_fields [("lane", lane_val l); ("entry", VObj e); ("deliveryKey", VStr key)]) |}]).
Definition settle_lane (d : Desired) (evidence : val) (ws : list WriterRow) (ops : list OpRow) : M unit := stx (
  let! _ := settle_writers evidence ws in
  let! _ := settle_ops (d_lane d) evidence ops in
  if String.eqb (d_executor d) "legacy"
  then statement (fun t => fold_left (fun t e => insert_return (d_lane d) e t)
         (filter_b (fun e => negb (terminal e)) (map entry_payload (lane_rows (queue_of t) (d_lane d)))) t)
  else sret tt).

Definition store_receipt (id : string) (receipt : val) (t : Tables) : Tables :=
  with_returns t (map (fun r => if String.eqb (return_entry r) id
    then {| return_entry := return_entry r; return_key := return_key r; return_payload := return_payload r;
            return_receipt := Some (json_norm receipt) |} else r) (returns (routing t))).
(** The entry given back, as the queue records it. *)
Definition returned_row (r : EntryRow) (e : obj) : EntryRow := {|
  entry_id := entry_id r; entry_lane := entry_lane r; pr_number := pr_number r; admission_head := admission_head r;
  admission_generation := admission_generation r; handoff_id := handoff_id r; ack_id := ack_id r; entry_seq := entry_seq r;
  entry_phase := to_str (get e "phase"); entry_payload := norm_fields e |}.
Definition give_back (l : Lane) (id : string) : M unit :=
  let! found := readEntry_ (VStr id) in
  match found with
  | None => sthrow (TypeError "Cannot read properties of null (reading 'phase')")
  | Some entry =>
      if terminal entry then sret tt
      else
        let! at_ := queue_now in
        match next_version (get entry "progressVersion") with
        | None => sthrow (PlainError "queue progress version exhausted")
        | Some version =>
            let patch := [("phase", VStr "returned-to-closer"); ("reason", VStr "route-rollback"); ("updatedAt", VStr at_);
                          ("progressVersion", VNum version)] in
            let! _ := statement (fun t => with_queue t (set_entry_rows (queue_of t)
              (map (fun r => if is_str (get entry "entryId") (entry_id r) then returned_row r (spread entry patch) else r)
                 (entry_rows (queue_of t))))) in
            let! owner := look (fun t => readOwner (queue_of t) l) in
            match owner with
            | None => sthrow (TypeError "Cannot read properties of null (reading 'generation')")
            | Some r =>
                append_event "progress" l (fun _ =>
                  [("at", VStr at_); ("entryId", get entry "entryId"); ("patch", VObj patch); ("priorPhase", get entry "phase");
                   ("generation", VInt (generation r)); ("routeGeneration", VInt (route_generation r))])
            end
        end
  end.
Fixpoint return_rows (l : Lane) (adapter : option (Reader E)) (deadline : val) (rows : list ReturnRow) : M bool :=
  match rows with
  | [] => sret true
  | row :: rows =>
      let! receipt := ask "return" adapter (fields_or_empty (return_payload row)) deadline in
      if negb (is_true (oget receipt "acknowledged") && is_str (oget receipt "deliveryKey") (return_key row)
               && truthy (oget receipt "sourceRef"))
      then sret false
      else
        let! ms := transfer_wait deadline in
        if (ms =? 0)%Z then sret false
        else
          let! _ := stx (let! _ := statement (store_receipt (return_entry row) receipt) in give_back l (return_entry row)) in
          return_rows l adapter deadline rows
  end.
Definition finish_transfer (d : Desired) : M unit := stx (
  let l := d_lane d in
  let! at_ := queue_now in
  let! _ := statement (update_route l (fun _ _ =>
    (d_executor d, {| config_generation := d_config d; runtime := None; transition := None; route_updated := at_ |}))) in
  let! _ := statement (fun t => with_queue t (update_lane (queue_of t) l (fun r => {|
    generation := generation r; route_generation := route_generation r; owner_id := None; owner_state := "idle";
    owner_acquired := owner_acquired r; heartbeat_at := heartbeat_at r; expires_at := expires_at r; owner_reason := None;
    readiness_seq := readiness_seq r |}))) in
  let! at1 := queue_now in
  append_event "owner-released" l (lane_event l at1)).

(** From the fenced lane on. *)
Definition drain_lane (d : Desired) (drain back : option (Reader E)) (deadline : val) : M val :=
  let l := d_lane d in
  let! route := look (fun t => read_route t l) in
  let! ws := look (fun t => legacy_writers t l) in
  match route with
  | None => no_route
  | Some v =>
      let! started := queue_now in
      let! deadline := (if is_nullish deadline then let! t := slift (later started 60000) in sret (VStr t) else sret deadline) in
      let! ops := look (fun t => operations (queue_of t) l) in
      let! evidence := ask "drain" drain (drain_request l v ws ops) deadline in
      let! proven := drained evidence deadline ws ops in
      if negb proven then sret (refused "route-drain-unproven" [])
      else
        let! checked := look (fun t => ops_reconciled t evidence ops) in
        let! reconciled := slift checked in
        if negb reconciled then sret (refused "operation-receipt-reconciliation-required" [])
        else
          let! _ := settle_lane d evidence ws ops in
          let! rows := look (fun t => pending_returns t l) in
          let! returned := return_rows l back deadline rows in
          if negb returned then sret (refused "legacy-return-unacknowledged" [])
          else
            let! _ := finish_transfer d in
            let! route := look (fun t => read_route t l) in
            sret (VObj [("ok", VBool true); ("route", match route with Some v => route_val l v | None => VNull end)])
  end.
Definition transfer_lane (d : Desired) (expectedGeneration : val) (drain back : option (Reader E)) (deadline : val) : M val :=
  let l := d_lane d in
  let! _ := initialize d in
  let! route := look (fun t => read_route t l) in
  match route with
  | None => no_route
  | Some prior =>
      let generation := route_generation (v_owner prior) in
      if negb (strict_eq (VInt generation) expectedGeneration) then sret (refused "route-generation-mismatch" [])
      else
        match transition (v_detail prior) with
        | None =>
            if String.eqb (v_executor prior) (d_executor d)
            then sret (VObj [("ok", VBool true); ("replay", VBool true); ("route", route_val l prior)])
            else if negb (Z.abs (generation + 1) <=? max_safe_integer)%Z then sthrow (PlainError "route generation exhausted")
            else let! _ := begin_transfer d (v_executor prior) in drain_lane d drain back deadline
        | Some tr =>
            if negb (is_str (oget tr "to") (d_executor d)) then sret (refused "different-transfer-pending" [])
            else drain_lane d drain back deadline
        end
  end.
Definition transfer (config lane expectedGeneration : val) (drain back : option (Reader E)) (deadline : val) : M val :=
  let! d := slift (resolveLaneRoute config lane) in
  locked_lane (d_lane d) VUndef (transfer_lane d expectedGeneration drain back deadline).
End Routing.

(** ** What the steps of the routing do *)

Section Facts.
Context {hostDate : HostDate} {sqliteText : SqliteText} {sha256 : Sha256}.
Context {E : Type} {queueEnv : QueueEnv E}.
Variable cfg : RoutingConfig (E := E).

#[local] Instance queue_now_silent : Silent (E := E) queue_now.
Proof. unfold queue_now. silent. Qed.
#[local] Instance queue_now_quiet : Quiet (E := E) queue_now.
Proof. unfold queue_now. quiet. Qed.
#[local] Instance queue_now_still : Still (E := E) queue_now.
Proof. unfold queue_now. still. Qed.
#[local] Instance statement_silent f : Silent (E := E) (statement f).
Proof. unfold statement. silent. Qed.
#[local] Instance statement_quiet f : Quiet (E := E) (statement f).
Proof. unfold statement. quiet. Qed.
#[local] Instance append_event_quiet ty l f : Quiet (E := E) (append_event ty l f).
Proof. unfold append_event. quiet. Qed.
#[local] Instance initialize_quiet d : Quiet (E := E) (initialize d).
Proof. unfold initialize. quiet. Qed.
#[local] Instance transfer_wait_quiet d : Quiet (E := E) (transfer_wait d).
Proof. unfold transfer_wait. quiet. Qed.
#[local] Instance transfer_wait_still d : Still (E := E) (transfer_wait d).
Proof. unfold transfer_wait, scaled. still. Qed.
#[local] Instance ask_quiet n (a : option (Reader E)) q d : Quiet (ask n a q d).
Proof. unfold ask. quiet. Qed.
#[local] Instance drained_quiet e d ws ops : Quiet (E := E) (drained e d ws ops).
Proof. unfold drained. quiet. Qed.
#[local] Instance settle_writers_quiet e ws : Quiet (E := E) (settle_writers e ws).
Proof. induction ws as [|x ws IH]; cbn [settle_writers]; quiet. Qed.
#[local] Instance settle_ops_quiet l e ops : Quiet (E := E) (settle_ops l e ops).
Proof. induction ops as [|x ops IH]; cbn [settle_ops]; quiet. Qed.
#[local] Instance settle_lane_quiet d e ws ops : Quiet (E := E) (settle_lane d e ws ops).
Proof. unfold settle_lane. quiet. Qed.
#[local] Instance give_back_quiet l i : Quiet (E := E) (give_back l i).
Proof. unfold give_back. quiet. Qed.
#[local] Instance return_rows_quiet l (a : option (Reader E)) d rows : Quiet (return_rows l a d rows).
Proof. induction rows as [|x rows IH]; cbn [return_rows]; quiet. Qed.
#[local] Instance finish_quiet d : Quiet (E := E) (finish_transfer d).
Proof. unfold finish_transfer. quiet. Qed.
#[local] Instance begin_quiet d x : Quiet (E := E) (begin_transfer d x).
Proof. unfold begin_transfer. quiet. Qed.
#[local] Instance drain_lane_quiet d (a b : option (Reader E)) t : Quiet (drain_lane d a b t).
Proof. unfold drain_lane, no_route. quiet. Qed.
#[local] Instance transfer_lane_quiet d g (a b : option (Reader E)) t : Quiet (transfer_lane d g a b t).
Proof. unfold transfer_lane, no_route. quiet. Qed.

Lemma locked_Ok l dl (action : SM val) (w : World E) r w' :
  locked_lane cfg l dl action w = (r, w') ->
  (exists w1, trace w1 = trace w /\ tables w1 = tables w /\ action w1 = (r, w'))
  \/ (quietly w w' /\ tables w' = tables w /\ exists more, r = Ok (refused "owner-operation-in-flight" more)).
Proof.
  unfold locked_lane. intros Hl. destruct (from_env (fun e => lock_is_free e l) w) as [[free|e] w1] eqn:E1;
    [|unfold from_env in E1; by destruct (lock_is_free _ _)].
  pose proof (silent_trace _ _ _ _ _ E1) as T1. pose proof (still_tables _ _ _ _ _ E1) as S1.
  unfold sbind at 1 in Hl. rewrite E1 in Hl.
  set (held_ := if free then _ else _) in Hl.
  destruct (held_ w1) as [[held|e] w2] eqn:E2.
  2: { subst held_. destruct free; [done|]. destruct (truthy dl); [|done]. unfold from_env in E2. by destruct (g_waitForLock _ _ _ _). }
  assert (T2 : trace w2 = trace w1) by (subst held_; destruct free, (truthy dl); eapply silent_trace; try exact E2; silent).
  assert (S2 : tables w2 = tables w1) by (subst held_; destruct free, (truthy dl); eapply still_tables; try exact E2; still).
  unfold sbind at 1 in Hl. rewrite E2 in Hl. destruct held.
  { left. exists w2. by rewrite T2, T1, S2, S1. }
  right. destruct (truthy dl).
  - unfold sbind, from_env in Hl. destruct (g_waited cfg (env w2)) as [ms e]. injection Hl as <- <-. cbn [tables].
    split; [apply quietly_refl; cbn; by rewrite T2|]. split; [by rewrite S2|]. eauto.
  - injection Hl as <- <-. split; [apply quietly_refl; by rewrite T2|]. split; [by rewrite S2|]. eauto.
Qed.

(** ** The writer a lane is run with *)

Lemma normalize_executors seen l rs :
  normalize_records seen l = Ok rs -> forall r, In r rs -> str_in (lr_executor r) EXECUTORS = true.
Proof.
  revert seen rs. induction l as [|x l IH]; intros seen rs; cbn [normalize_records]; [by intros [= <-]|].
  intros (r & Hr & H)%rbind_Ok. destruct (negb _); [|done]. apply rbind_Ok in H as (rest & Hrest & [= <-]).
  intros r' [<-|Hin]; [|by eapply IH]. unfold lane_route in Hr. destruct x as [| | | | | |o]; try done.
  destruct (get o "repository"); try done. destruct (get o "executor") as [| | | |x| |]; try done.
  destruct (_ && _) eqn:Eg; [|done]. apply andb_true_iff in Eg as [_ Ex].
  destruct (get o "base"); try done. destruct (is_branch _); [|done]. by injection Hr as <-.
Qed.
Lemma resolve_executor config lane d : resolveLaneRoute config lane = Ok d -> d_executor d = "legacy" \/ d_executor d = "queue-v2".
Proof.
  unfold resolveLaneRoute. intros (l & _ & H)%rbind_Ok. apply rbind_Ok in H as (rs & _ & H).
  apply rbind_Ok in H as (x & Hx & H). apply rbind_Ok in H as (g & _ & [= <-]). cbn [d_executor].
  unfold resolveLaneExecutor in Hx. apply rbind_Ok in Hx as (asked & _ & Hx). apply rbind_Ok in Hx as (rs' & Hn & [= <-]).
  destruct (find_b _ rs') as [r|] eqn:Ef; [|by left]. apply find_b_In in Ef as [Hin _]. unfold normalizeLaneRoutes in Hn.
  pose proof (normalize_executors _ _ _ Hn r Hin) as Hs. apply str_in_In in Hs. destruct Hs as [<-|[<-|[]]]; auto.
Qed.

(** What the first statements of a run leave. *)
Lemma initialize_Ok d (w w' : World E) :
  initialize d w = (Ok tt, w') -> exists at_, tables w' = insert_route (d_lane d) (d_config d) at_ (tables w).
Proof.
  unfold initialize. intros H%stx_inv. apply sbind_Ok in H as (at_ & w1 & H1 & H). unfold statement in H.
  apply change_Ok in H. injection H as <-. exists at_. f_equal. symmetry. by apply still_tables in H1; [|apply _].
Qed.

(** The one call of a run: what its lane was read as, nothing awaited in between. *)
Record WriterCalled (d : Desired) (w w' : World E) (w0 w1 w2 : World E) (v : RouteView) : Prop := {
  wc_before : quietly w w0;
  wc_tables : exists at_, tables w0 = insert_route (d_lane d) (d_config d) at_ (tables w);
  wc_read : read_route (tables w0) (d_lane d) = Some v;
  wc_route : v_executor v = d_executor d /\ transition (v_detail v) = None;
  wc_operations : operations (queue_of (tables w0)) (d_lane d) = [];
  wc_queue : d_executor d = "queue-v2" -> legacy_writers (tables w0) (d_lane d) = [];
  wc_held : trace w1 = trace w0;
  wc_journal : d_executor d = "legacy" -> exists row, In row (writers (routing (tables w1)))
    /\ writer_lane row = lane_pk (d_lane d) /\ writer_result row = None /\ writer_route row = route_generation (v_owner v);
  wc_call : exists request answer, trace w2 = trace w1 ++ [EWriter (d_executor d) request answer];
  wc_after : quietly w2 w'
}.
Definition routed (d : Desired) (w w' : World E) : Prop := quietly w w' \/ exists w0 w1 w2 v, WriterCalled d w w' w0 w1 w2 v.
Lemma routed_quiet d w w' : quietly w w' -> routed d w w'.
Proof. by left. Qed.
Ltac routed_step := apply (wp_step (routed _)); [apply routed_quiet | quiet | done |].
Ltac routed_stop := apply (wp_stop (routed _)); [apply routed_quiet | unfold no_route; quiet | done].

Lemma call_writer_runs ev (x : External E) (w : World E) r w' :
  call ev x w = (r, w') -> trace w' = trace w ++ [ev r].
Proof. unfold call. destruct (x _ _) as [[a t] e]. by intros [= <- <-]. Qed.

Lemma not_moved d v : route_moved d v = false -> v_executor v = d_executor d /\ transition (v_detail v) = None.
Proof.
  unfold route_moved. intros [H1 H2]%orb_false_iff. apply negb_false_iff in H1, H2. apply String.eqb_eq in H2.
  split; [done|]. by destruct (transition _).
Qed.
Lemma reconciled_lane v ws ops :
  lane_unreconciled v ws ops = false -> ops = [] /\ (v_executor v = "queue-v2" -> ws = []).
Proof.
  unfold lane_unreconciled. intros [H1 H2]%orb_false_iff. apply negb_false_iff, Nat.eqb_eq, nil_length_inv in H2.
  split; [done|]. intros Hx. rewrite Hx in H1. cbn in H1. by apply negb_false_iff, Nat.eqb_eq, nil_length_inv in H1.
Qed.

Lemma insert_writer_In row t u t' : insert_writer row t = Ok (u, t') -> In row (writers (routing t')).
Proof. unfold insert_writer. destruct (some_b _ _); [done|]. intros [= _ <-]. cbn. apply in_app_iff. right. by left. Qed.

(** The legacy writer, from the read of the lane on. *)
Lemma run_legacy_routed d kind subject write (w w0 wu : World E) v :
  quietly w w0 -> read_route (tables w0) (d_lane d) = Some v -> route_moved d v = false ->
  lane_unreconciled v (legacy_writers (tables w0) (d_lane d)) (operations (queue_of (tables w0)) (d_lane d)) = false ->
  d_executor d = "legacy" -> trace wu = trace w0 ->
  (exists at_, tables w0 = insert_route (d_lane d) (d_config d) at_ (tables w)) ->
  wp (run_legacy cfg d (route_generation (v_owner v)) kind subject write) (fun _ w' => routed d w w') wu.
Proof.
  intros Q0 Hread Hm Hu Hx Htr Htab. assert (Qu : quietly w wu) by (eapply quietly_trans; [exact Q0 | by apply quietly_refl]).
  apply not_moved in Hm as [Hex Htn]. apply reconciled_lane in Hu as [Hops Hws].
  unfold run_legacy. destruct kind as [| | | |k| |]; try (solve [routed_stop]).
  destruct (str_in k ["daemon"; "closer"]); cbn [negb]; [|routed_stop].
  routed_step. intros id w1 H1 Q1.
  routed_step. intros at_ w2 H2 Q2.
  routed_step. intros [] w3 H3 Q3.
  apply change_Ok in H3 as Hin. apply insert_writer_In in Hin.
  assert (T3 : trace w3 = trace w0).
  { rewrite (silent_trace _ _ _ _ _ H3), (silent_trace _ _ _ _ _ H2), (silent_trace _ _ _ _ _ H1). exact Htr. }
  apply wp_bind. unfold wp at 1. destruct (call _ _ w3) as [r w4] eqn:Ec. apply call_writer_runs in Ec. cbn [fst snd].
  assert (Hdone : forall w5, quietly w4 w5 -> routed d w w5).
  { intros w5 Q5. right. exists w0, w3, w4, v. split; [done | done | done | done | done | by rewrite <- Hex | by rewrite T3 | | | done].
    - intros _. eexists. split; [exact Hin|]. done.
    - rewrite Hx. eauto. }
  destruct r as [res|e]; [|apply Hdone; by apply quietly_refl].
  apply wp_quiet; [destruct (unfinished res); quiet|]. intros r w5 _ Q5. by apply Hdone.
Qed.

Lemma run_lane_routed d kind subject legacy queue (w0 w : World E) :
  d_executor d = "legacy" \/ d_executor d = "queue-v2" -> quietly w0 w -> tables w = tables w0 ->
  wp (run_lane cfg d kind subject legacy queue) (fun _ w' => routed d w0 w') w.
Proof.
  intros Hx Q0 Ht. unfold run_lane.
  routed_step. intros [] w1 Hinit Q1. apply initialize_Ok in Hinit as Htab. rewrite Ht in Htab.
  routed_step. intros route w2 [= <- <-] Q2.
  routed_step. intros ws w3 [= <- <-] Q3.
  destruct (read_route _ _) as [v|] eqn:Ev; [|routed_stop].
  destruct (route_moved d v) eqn:Em; [routed_stop|].
  routed_step. intros ops w4 [= <- <-] Q4.
  destruct (lane_unreconciled _ _ _) eqn:Eu; [routed_stop|].
  routed_step. intros at_ w5 H5 Q5.
  routed_step. intros [] w6 H6 Q6.
  assert (T6 : trace w6 = trace w1) by (rewrite (silent_trace _ _ _ _ _ H6); exact (silent_trace _ _ _ _ _ H5)).
  destruct (select_writer _ _ _) as [write|]; [|routed_stop].
  destruct (String.eqb (v_executor v) "queue-v2") eqn:Eq.
  - apply String.eqb_eq in Eq. unfold wp. destruct (call _ _ w6) as [r w7] eqn:Ec. apply call_writer_runs in Ec. cbn [snd].
    pose proof (not_moved _ _ Em) as [Hex Htn]. pose proof (reconciled_lane _ _ _ Eu) as [Hops Hws].
    right. exists w1, w6, w7, v. split; [done | done | done | done | done | by intros _; apply Hws | done | | | by apply quietly_refl].
    + intros Hl. rewrite <- Hex, Eq in Hl. done.
    + rewrite <- Hex, Eq. eauto.
  - pose proof (not_moved _ _ Em) as [Hex _]. apply (run_legacy_routed d kind subject write w0 w1 w6 v); try done.
    destruct Hx as [Hx|Hx]; [done|]. by rewrite Hex, Hx in Eq.
Qed.

Lemma run_calls_the_routed_writer_core config lane kind subject legacy queue deadline (w w' : World E) r :
  run cfg config lane kind subject legacy queue deadline w = (r, w') ->
  quietly w w'
  \/ exists d w0 w1 w2 v, resolveLaneRoute config lane = Ok d /\ d_enabled d = true /\ WriterCalled d w w' w0 w1 w2 v.
Proof.
  unfold run. intros [(d & wd & [Hd ->]%slift_Ok & H)|(e & He & ->)]%sbind_inv.
  2: { unfold slift in He. injection He as _ <-. left. by apply quietly_refl. }
  destruct (d_enabled d) eqn:Een; cbn [negb] in H; [|injection H as _ <-; left; by apply quietly_refl].
  apply locked_Ok in H as [(w1 & T1 & S1 & H)|(Q & _)]; [|by left].
  pose proof (run_lane_routed d kind subject legacy queue w w1 (resolve_executor _ _ _ Hd) (quietly_refl _ _ T1) S1) as Hw.
  eapply wp_run in Hw; [|exact H]. destruct Hw as [Q|(w2 & w3 & w4 & v & Hc)]; [by left|].
  right. exists d, w2, w3, w4, v. done.
Qed.


(** ** A lane in transfer *)

(** The stored route of the lane is in transfer. *)
Definition fenced (t : Tables) (l : Lane) : Prop :=
  exists row detail, routes (queue_of t) !! lane_pk l = Some row
    /\ route_details (routing t) !! lane_pk l = Some detail /\ transition detail <> None.
(** The two parts of a route row agree on whether it is in transfer. *)
Definition one_row (t : Tables) (l : Lane) : Prop :=
  forall row detail, routes (queue_of t) !! lane_pk l = Some row -> route_details (routing t) !! lane_pk l = Some detail ->
    in_transition row = negb (is_none (transition detail)).
Lemma put_route_one_row l x detail t : one_row (put_route l x detail t) l.
Proof.
  intros row det. change (routes (queue_of (put_route l x detail t))) with
    (<[lane_pk l := {| route_executor := x; in_transition := negb (is_none (transition detail)) |}]> (routes (queue_of t))).
  change (route_details (routing (put_route l x detail t))) with (<[lane_pk l := detail]> (route_details (routing t))).
  rewrite !lookup_insert_eq. by intros [= <-] [= <-].
Qed.
Lemma update_route_one_row l f t : one_row t l -> one_row (update_route l f t) l.
Proof.
  intros Ho. unfold update_route. destruct (routes _ !! _) as [row|]; [|done]. destruct (route_details _ !! _) as [detail|]; [|done].
  destruct (f _ _). apply put_route_one_row.
Qed.

Lemma insert_route_keeps l config at_ t row :
  routes (queue_of t) !! lane_pk l = Some row ->
  routes (queue_of (insert_route l config at_ t)) = routes (queue_of t) /\ routing (insert_route l config at_ t) = routing t.
Proof.
  intros Hr. unfold insert_route. assert (He : routes (ensureLane (queue_of t) l) = routes (queue_of t)).
  { unfold ensureLane. by destruct (lanes (queue_of t) !! lane_pk l). }
  change (routes (queue_of (with_queue t (ensureLane (queue_of t) l)))) with (routes (ensureLane (queue_of t) l)).
  rewrite He, Hr. done.
Qed.

(** A lane in transfer has no writer: every fence of it is refused,
    whatever owner it names, and no run, whatever its configuration asks for,
    calls a writer. *)
Theorem lane_in_transfer_has_no_writer (l : Lane) (w : World E) :
  fenced (tables w) l -> one_row (tables w) l ->
  (forall f at_, resolveLaneKey (lane_val (f_lane f)) = Ok l ->
     assertFence (queue_of (tables w)) f at_ = Throw (PlainError "queue route is not owned"))
  /\ (forall config lane kind subject legacy queue deadline d r w',
        resolveLaneRoute config lane = Ok d -> d_lane d = l ->
        run cfg config lane kind subject legacy queue deadline w = (r, w') -> quietly w w').
Proof.
  intros (row & detail & Hrow & Hdet & Htr) Hone. pose proof (Hone row detail Hrow Hdet) as Hin.
  assert (in_transition row = true) as Hin' by (rewrite Hin; by destruct (transition detail)). clear Hin Hone. rename Hin' into Hin. split.
  - intros f at_ Hl. unfold assertFence. rewrite Hl. cbn [rbind]. rewrite Hrow, Hin. by rewrite andb_false_r.
  - intros config lane kind subject legacy queue deadline d r w' Hd Hl Hrun.
    destruct (run_calls_the_routed_writer_core _ _ _ _ _ _ _ _ _ _ Hrun) as [Q|(d' & w0 & w1 & w2 & v & Hd' & _ & Hc)]; [done|].
    assert (d' = d) as -> by congruence. exfalso. destruct (wc_tables _ _ _ _ _ _ _ Hc) as [at0 Ht].
    pose proof (wc_read _ _ _ _ _ _ _ Hc) as Hread. destruct (wc_route _ _ _ _ _ _ _ Hc) as [_ Hnone].
    rewrite Ht, Hl in Hread. destruct (insert_route_keeps l (d_config d) at0 (tables w) row Hrow) as [E1 E2].
    unfold read_route in Hread. rewrite E1, E2, Hrow, Hdet in Hread.
    destruct (lanes _ !! _); [|done]. injection Hread as <-. done.
Qed.

(** ** A transfer that went through *)

Lemma append_tables d ty lane f e d' :
  append d ty lane f = Ok (e, d') -> routes d' = routes d /\ lanes d' = lanes d /\ op_rows d' = op_rows d.
Proof.
  unfold append. intros (ev & _ & H)%rbind_Ok. apply rbind_Ok in H as (l & _ & [= _ <-]). done.
Qed.
Lemma lane_append_Ok ty l f (w w' : World E) :
  append_event ty l f w = (Ok tt, w') ->
  routes (queue_of (tables w')) = routes (queue_of (tables w)) /\ routing (tables w') = routing (tables w)
  /\ lanes (queue_of (tables w')) = lanes (queue_of (tables w)) /\ op_rows (queue_of (tables w')) = op_rows (queue_of (tables w)).
Proof.
  unfold append_event. intros H%change_Ok. apply rbind_Ok in H as ([e d] & Ha & [= <-]). cbn [snd].
  apply append_tables in Ha as (H1 & H2 & H3). done.
Qed.
Lemma statement_Ok f (w w' : World E) u : statement f w = (Ok u, w') -> tables w' = f (tables w).
Proof. unfold statement. intros H%change_Ok. by injection H as _ <-. Qed.

Lemma put_route_routes l x detail t :
  routes (queue_of (put_route l x detail t))
  = <[lane_pk l := {| route_executor := x; in_transition := negb (is_none (transition detail)) |}]> (routes (queue_of t)).
Proof. done. Qed.
Lemma put_route_details l x detail t :
  route_details (routing (put_route l x detail t)) = <[lane_pk l := detail]> (route_details (routing t)).
Proof. done. Qed.

Lemma begin_transfer_fences d from (w w' : World E) v :
  read_route (tables w) (d_lane d) = Some v -> begin_transfer d from w = (Ok tt, w') -> fenced (tables w') (d_lane d).
Proof.
  unfold read_route. intros Hread H%stx_inv. apply sbind_Ok in H as (started & w1 & H1 & H). apply sbind_Ok in H as (at_ & w2 & H2 & H).
  apply sbind_Ok in H as ([] & w3 & H3 & H). apply sbind_Ok in H as ([] & w4 & H4 & H). apply sbind_Ok in H as (at1 & w5 & H5 & H).
  apply statement_Ok in H3, H4. apply lane_append_Ok in H as (Er & Et & _).
  apply still_tables in H1; [|apply _]. apply still_tables in H2; [|apply _]. apply still_tables in H5; [|apply _].
  rewrite H5, H4 in Er, Et. rewrite H2, H1 in H3.
  destruct (routes (queue_of (tables w)) !! lane_pk (d_lane d)) as [row|] eqn:Erow; [|done].
  destruct (route_details (routing (tables w)) !! lane_pk (d_lane d)) as [detail|] eqn:Edet; [|done].
  unfold update_route in H3. rewrite Erow, Edet in H3. unfold fenced. rewrite Er, Et.
  assert (Eu : forall t g, routes (queue_of (with_queue t (update_lane (queue_of t) (d_lane d) g))) = routes (queue_of t)).
  { intros t g. cbn. unfold update_lane. by destruct (lanes (queue_of t) !! lane_pk (d_lane d)). }
  rewrite Eu. cbn [routing with_queue]. rewrite H3, put_route_routes, put_route_details.
  eexists _, _. rewrite !lookup_insert_eq. split; [done|]. split; [done|]. done.
Qed.

(** The lane belongs to its new executor, and to no owner. *)
Definition moved_to (d : Desired) (t : Tables) : Prop :=
  forall v, read_route t (d_lane d) = Some v ->
    v_executor v = d_executor d /\ transition (v_detail v) = None
    /\ (exists row, routes (queue_of t) !! lane_pk (d_lane d) = Some row /\ in_transition row = false)
    /\ owner_id (v_owner v) = None /\ owner_state (v_owner v) = "idle".
Lemma finish_transfer_moves d (w w' : World E) : finish_transfer d w = (Ok tt, w') -> moved_to d (tables w').
Proof.
  unfold finish_transfer. intros H%stx_inv. apply sbind_Ok in H as (at_ & w1 & H1 & H). apply sbind_Ok in H as ([] & w2 & H2 & H).
  apply sbind_Ok in H as ([] & w3 & H3 & H). apply sbind_Ok in H as (at1 & w4 & H4 & H).
  apply statement_Ok in H2, H3. apply lane_append_Ok in H as (Er & Et & El & _). apply still_tables in H4; [|apply _].
  rewrite H4 in Er, Et, El. intros v. unfold read_route. rewrite Er, Et, El, H3. clear Er Et El H3 H4.
  set (g := fun r : LaneRow => _).
  assert (Eu : routes (queue_of (with_queue (tables w2) (update_lane (queue_of (tables w2)) (d_lane d) g))) = routes (queue_of (tables w2))).
  { cbn. unfold update_lane. by destruct (lanes (queue_of (tables w2)) !! lane_pk (d_lane d)). }
  rewrite Eu. cbn [routing with_queue].
  destruct (routes (queue_of (tables w2)) !! lane_pk (d_lane d)) as [row|] eqn:Erow; [|done].
  destruct (route_details (routing (tables w2)) !! lane_pk (d_lane d)) as [detail|] eqn:Edet; [|done].
  destruct (lanes _ !! lane_pk (d_lane d)) as [owner|] eqn:Eown; [|done]. intros [= <-]. cbn [v_executor v_detail v_owner].
  assert (Hrow : route_executor row = d_executor d /\ transition detail = None /\ in_transition row = false).
  { rewrite H2 in Erow, Edet. unfold update_route in Erow, Edet.
    destruct (routes (queue_of (tables w1)) !! lane_pk (d_lane d)) as [r0|] eqn:E0; [|by rewrite E0 in Erow].
    destruct (route_details (routing (tables w1)) !! lane_pk (d_lane d)) as [t0|] eqn:E1; [|by rewrite E1 in Edet].
    rewrite put_route_routes, lookup_insert_eq in Erow. rewrite put_route_details, lookup_insert_eq in Edet.
    injection Erow as <-. injection Edet as <-. done. }
  destruct Hrow as (-> & -> & Hin). split; [done|]. split; [done|]. split; [by exists row|].
  cbn in Eown. unfold update_lane in Eown. destruct (lanes (queue_of (tables w2)) !! lane_pk (d_lane d)) as [o0|] eqn:Eo.
  - cbn in Eown. rewrite lookup_insert_eq in Eown. by injection Eown as <-.
  - by rewrite Eo in Eown.
Qed.

(** Nothing of these writers and operations is open. *)
Definition settled (ws : list WriterRow) (ops : list OpRow) (t : Tables) : Prop :=
  (forall row, In row (writers (routing t)) -> In (writer_id row) (map writer_id ws) -> writer_result row <> None)
  /\ (forall o, In o (op_rows (queue_of t)) -> In (operation_id o) (map operation_id ops) -> op_result o <> None).

Lemma settle_writers_Ok evidence ws done_ (w w' : World E) :
  settled done_ [] (tables w) -> settle_writers evidence ws w = (Ok tt, w') ->
  settled (done_ ++ ws) [] (tables w') /\ queue_of (tables w') = queue_of (tables w).
Proof.
  revert done_ w. induction ws as [|x ws IH]; intros done_ w Hd; cbn [settle_writers].
  { intros [_ ->]%sret_Ok. by rewrite app_nil_r. }
  intros ([] & w1 & H1 & H)%sbind_Ok. apply statement_Ok in H1.
  apply (IH (done_ ++ [x])) in H as [Hs Hq].
  - rewrite <- (assoc_L (++)) in Hs. split; [exact Hs|]. by rewrite Hq, H1.
  - rewrite H1. split; [|by intros o _ []]. intros row Hrow Hid. cbn in Hrow. apply in_map_iff in Hrow as (r & Er & Hr).
    destruct (String.eqb (writer_id r) (writer_id x)) eqn:Ex; subst row; [done|].
    apply (proj1 Hd r Hr). rewrite map_app in Hid. apply in_app_iff in Hid as [Hid|[Hid|[]]]; [done|].
    by rewrite Hid, String.eqb_refl in Ex.
Qed.
Lemma settle_ops_Ok l evidence ws ops done_ (w w' : World E) :
  settled ws done_ (tables w) -> settle_ops l evidence ops w = (Ok tt, w') -> settled ws (done_ ++ ops) (tables w').
Proof.
  revert done_ w. induction ops as [|x ops IH]; intros done_ w Hd; cbn [settle_ops].
  { intros [_ ->]%sret_Ok. by rewrite app_nil_r. }
  intros ([] & w1 & H1 & H)%sbind_Ok. apply statement_Ok in H1. apply sbind_Ok in H as (at_ & w2 & H2 & H).
  apply sbind_Ok in H as ([] & w3 & H3 & H). apply still_tables in H2; [|apply _]. apply lane_append_Ok in H3 as (_ & Et & _ & Eo).
  change (x :: ops) with ([x] ++ ops). rewrite (assoc_L (++)). apply (IH (done_ ++ [x])) in H; [done|].
  destruct Hd as [Hw Ho]. split.
  - rewrite Et, H2, H1. exact Hw.
  - rewrite Eo, H2, H1. intros o Hin Hid. cbn in Hin. apply in_map_iff in Hin as (p & Ep & Hp).
    destruct (String.eqb (operation_id p) (operation_id x)) eqn:Ex; subst o; [done|].
    apply (Ho p Hp). rewrite map_app in Hid. apply in_app_iff in Hid as [Hid|[Hid|[]]]; [done|].
    by rewrite Hid, String.eqb_refl in Ex.
Qed.
Lemma settle_lane_Ok d evidence ws ops (w w' : World E) :
  settle_lane d evidence ws ops w = (Ok tt, w') -> settled ws ops (tables w').
Proof.
  unfold settle_lane. intros H%stx_inv. apply sbind_Ok in H as ([] & w1 & H1 & H). apply sbind_Ok in H as ([] & w2 & H2 & H).
  apply (settle_writers_Ok evidence ws []) in H1 as [H1 _]; [|by split; intros ? _ []]. cbn [app] in H1.
  apply (settle_ops_Ok _ _ ws ops []) in H2; [|exact H1]. cbn [app] in H2.
  destruct (String.eqb _ _); [|by apply sret_Ok in H as [_ ->]]. apply statement_Ok in H. rewrite H. clear H.
  generalize (filter_b (fun e => negb (terminal e)) (map entry_payload (lane_rows (queue_of (tables w2)) (d_lane d)))) as es.
  revert H2. generalize (tables w2) as t. intros t Ht es. revert t Ht. induction es as [|e es IH]; intros t Ht; [done|].
  cbn [fold_left]. apply IH. unfold insert_return. destruct (some_b _ _); [done|]. exact Ht.
Qed.

Lemma ask_reads n (a : option (Reader E)) q d (w w' : World E) v :
  ask n a q d w = (Ok v, w') -> is_nullish v = false -> reads [(n, v)] w w'.
Proof.
  unfold ask. intros (got & w1 & Hm%attempt_Ok & [<- ->]%sret_Ok)%sbind_Ok Hn. destruct got as [x|]; [|done].
  apply sbind_Ok in Hm as (ms & w2 & Hw & Hr). apply read_evidence_Ok in Hr.
  eapply reads_before; [|by eapply reads_single]. eapply quiet_run_of; [|exact Hw]. apply _.
Qed.
Lemma drained_Ok evidence deadline ws ops (w w' : World E) :
  drained evidence deadline ws ops w = (Ok true, w') ->
  is_true (oget evidence "quiescent") = true /\ truthy (oget evidence "sourceRef") = true
  /\ (forall x, In x ws -> validResult (result_of evidence (writer_id x)) = true)
  /\ (forall o, In o ops -> validResult (result_of evidence (operation_id o)) = true) /\ tables w' = tables w.
Proof.
  unfold drained. destruct (_ && _) eqn:Eg; [|done]. cbn [negb]. apply andb_true_iff in Eg as [Hq Hs].
  intros (ms & w1 & H1 & [Hp ->]%sret_Ok)%sbind_Ok. apply andb_true_iff in Hp as [[_ Hw]%andb_true_iff Ho].
  split; [done|]. split; [done|]. split; [by apply forallb_forall|]. split; [by apply forallb_forall|].
  by apply still_tables in H1; [|apply _].
Qed.
Lemma ops_reconciled_true t evidence ops :
  ops_reconciled t evidence ops = Ok true ->
  forall o, In o ops -> is_str (oget (result_of evidence (operation_id o)) "outcome") "succeeded" = true -> op_reconciled t o = Ok true.
Proof.
  induction ops as [|o ops IH]; [done|]. cbn [ops_reconciled]. intros H p [<-|Hp] Hs.
  - rewrite Hs in H. cbn [negb] in H. by apply rbind_Ok in H as ([] & Ho & H).
  - destruct (negb _); [by apply IH|]. apply rbind_Ok in H as ([] & _ & H); [by apply IH | done].
Qed.

(** What a transfer that went through did: [w1] where the fenced lane was read, [w2]
    where the evidence of its drain was accepted, [w3] where it was settled. *)
Record Transferred (d : Desired) (w w' : World E) (w1 w2 w3 : World E) (evidence : val) : Prop := {
  tf_fenced : fenced (tables w1) (d_lane d);
  tf_read : reads [("drain", evidence)] w1 w2;
  tf_quiescent : is_true (oget evidence "quiescent") = true /\ truthy (oget evidence "sourceRef") = true;
  tf_writers : forall x, In x (legacy_writers (tables w1) (d_lane d)) -> validResult (result_of evidence (writer_id x)) = true;
  tf_operations : forall o, In o (operations (queue_of (tables w1)) (d_lane d)) ->
    validResult (result_of evidence (operation_id o)) = true
    /\ (is_str (oget (result_of evidence (operation_id o)) "outcome") "succeeded" = true -> op_reconciled (tables w2) o = Ok true);
  tf_settled : settled (legacy_writers (tables w1) (d_lane d)) (operations (queue_of (tables w1)) (d_lane d)) (tables w3);
  tf_moved : moved_to d (tables w')
}.

Lemma drain_lane_done d drain back deadline (w w' : World E) reply :
  fenced (tables w) (d_lane d) -> drain_lane d drain back deadline w = (Ok reply, w') -> oget reply "ok" = VBool true ->
  exists w1 w2 w3 evidence, Transferred d w w' w1 w2 w3 evidence.
Proof.
  intros Hf H Hok. unfold drain_lane in H. apply sbind_Ok in H as (route & wa & [= <- <-] & H).
  apply sbind_Ok in H as (ws & wb & [= <- <-] & H). destruct (read_route _ _) as [v|]; [|done].
  apply sbind_Ok in H as (started & w1 & H1 & H). apply sbind_Ok in H as (dl & w2 & H2 & H).
  apply sbind_Ok in H as (ops & wc & [= <- <-] & H). apply sbind_Ok in H as (evidence & w3 & H3 & H).
  apply sbind_Ok in H as (proven & w4 & H4 & H). destruct proven; [|by apply sret_Ok in H as [<- _]]. cbn [negb] in H.
  apply sbind_Ok in H as (checked & wd & [= <- <-] & H). apply sbind_Ok in H as (reconciled & we & [Hrec ->]%slift_Ok & H).
  destruct reconciled; [|by apply sret_Ok in H as [<- _]]. cbn [negb] in H.
  apply sbind_Ok in H as ([] & w5 & H5 & H). apply sbind_Ok in H as (rows & wf & [= <- <-] & H).
  apply sbind_Ok in H as (returned & w6 & H6 & H). destruct returned; [|by apply sret_Ok in H as [<- _]]. cbn [negb] in H.
  apply sbind_Ok in H as ([] & w7 & H7 & H). apply sbind_Ok in H as (last & wg & [= <- <-] & [_ ->]%sret_Ok).
  assert (T1 : tables w1 = tables w) by by apply still_tables in H1; [|apply _].
  assert (T2 : tables w2 = tables w).
  { rewrite <- T1. destruct (is_nullish deadline); apply still_tables in H2; try done; still. }
  rewrite T2 in *. apply quiet_run_of in H4 as Q4; [|apply _]. apply drained_Ok in H4 as (Hq & Hs & Hw & Ho & T4).
  assert (Hn : is_nullish evidence = false) by by destruct evidence.
  exists w2, w4, w5, evidence. split.
  - by rewrite T2.
  - eapply (reads_after _ _ w3); [by eapply ask_reads | exact Q4].
  - done.
  - by rewrite T2.
  - rewrite T2. intros o Hin. split; [by apply Ho|]. by apply (ops_reconciled_true _ _ _ Hrec).
  - rewrite T2. by eapply settle_lane_Ok.
  - by eapply finish_transfer_moves.
Qed.

End Facts.

(** ** Concrete inputs *)

#[local] Existing Instance ex_host.
#[local] Existing Instance ex_text.
#[local] Existing Instance length_digest.
#[local] Existing Instance still_env.

(** A lane of the legacy executor, with an invocation that left its intent. *)
Definition ex_routes (in_transfer : bool) : Routing := {|
  route_details := {[ lane_pk ex_qlane := {|
    config_generation := "sha256:1"; runtime := None; route_updated := "2026-10-23T00:00:00.000Z";
    transition := if in_transfer then Some (VObj [("from", VStr "legacy"); ("to", VStr "queue-v2")]) else None |} ]};
  writers := [{| writer_id := "w1"; writer_lane := lane_pk ex_qlane; writer_route := 0; writer_kind := "closer";
                 writer_intent := VObj []; writer_result := None |}];
  returns := [] |}.
Definition ex_legacy_world (in_transfer : bool) : World unit := {|
  tables := with_routing (with_queue ex_tables (set_routes (initial ∅)
    {[ lane_pk ex_qlane := {| route_executor := "legacy"; in_transition := in_transfer |} ]})) (ex_routes in_transfer);
  env := tt; trace := [] |}.
Definition ex_routing : RoutingConfig (E := unit) := {|
  g_runtime := VStr "node:1"; g_waitForLock := fun _ _ e => (true, e); g_waited := fun e => (0%Z, e); g_uuid := fun e => ("w2", e) |}.
Definition ex_route_config (executor : string) : val :=
  VObj [("laneRoutes", VArr [VObj [("repository", VStr "Example/Review"); ("base", VStr "main"); ("executor", VStr executor)]])].
Definition ex_lane_val : val := lane_val ex_qlane.
Definition ex_writer : Writer := fun _ => answers (VObj [("attempts", VInt 1); ("merged", VBool true)]).
Definition ex_drain : Reader unit := fun _ _ => answers (VObj [("quiescent", VBool true); ("sourceRef", VStr "drain:1");
  ("results", VObj [("w1", VObj [("outcome", VStr "not-applied"); ("sourceRef", VStr "host:1")])])]).
Definition ex_run (in_transfer : bool) (executor : string) : result val * World unit :=
  run ex_routing (ex_route_config executor) ex_lane_val (VStr "daemon") VNull (Some ex_writer) (Some ex_writer) VUndef
    (ex_legacy_world in_transfer).
Definition ex_transfer (drain : option (Reader unit)) : result val * World unit :=
  transfer ex_routing (ex_route_config "queue-v2") ex_lane_val (VInt 0) drain None VUndef (ex_legacy_world false).
Definition called (w : World unit) : list string :=
  flat_map (fun ev => match ev with EWriter x _ _ => [x] | _ => [] end) (trace w).
Definition replied (r : result val * World unit) : result (val * val) * list string :=
  (let* v := fst r in Ok (oget v "ok", oget v "reason"), called (snd r)).
Example routing_replies :
  (replied (ex_run false "legacy"), replied (ex_run false "queue-v2"), replied (ex_run true "legacy"))
  = ((Ok (VUndef, VUndef), ["legacy"]), (Ok (VBool false, VStr "lane-transfer-required"), []),
     (Ok (VBool false, VStr "lane-transfer-required"), [])).
Proof. vm_compute. reflexivity. Qed.
Example transfer_replies :
  (replied (ex_transfer (Some ex_drain)), replied (ex_transfer None))
  = ((Ok (VBool true, VUndef), []), (Ok (VBool false, VStr "route-drain-unproven"), [])).
Proof. vm_compute. reflexivity. Qed.


Lemma lane_in_transfer_has_no_writer_witness :
  assertFence (queue_of (tables (ex_legacy_world true))) ex_qfence (VStr "2026-10-23T00:01:00.000Z") = Throw (PlainError "queue route is not owned")
  /\ quietly (ex_legacy_world true) (snd (ex_run true "legacy")).
Proof.
  assert (Hf : fenced (tables (ex_legacy_world true)) ex_qlane).
  { eexists _, _. split; [vm_compute; reflexivity|]. split; [vm_compute; reflexivity | discriminate]. }
  assert (Ho : one_row (tables (ex_legacy_world true)) ex_qlane).
  { intros row detail Hr Hd. vm_compute in Hr, Hd. injection Hr as <-. injection Hd as <-. reflexivity. }
  destruct (lane_in_transfer_has_no_writer ex_routing ex_qlane (ex_legacy_world true) Hf Ho) as [H1 H2].
  split; [apply H1; vm_compute; reflexivity|].
  destruct (resolveLaneRoute (ex_route_config "legacy") ex_lane_val) as [d|e] eqn:Ed; [|vm_compute in Ed; discriminate].
  apply (H2 (ex_route_config "legacy") ex_lane_val (VStr "daemon") VNull (Some ex_writer) (Some ex_writer) VUndef d
    (fst (ex_run true "legacy"))); [exact Ed | vm_compute in Ed; injection Ed as <-; reflexivity | apply surjective_pairing].
Defined.

