(* ===== verification/JsState.v ===== *)
(** * Computations over a state, as the sources thread it

    A computation reads and changes a state and answers a value or throws; what it
    changed before it threw stays changed, as files and rows do. The composition is
    that of statements, [try] and [finally]. A postcondition of a computation is
    proved from those of its steps. *)

From stdpp Require Import base list strings.
From S2P Require Import Prelude.

Section Computations.
Context {S : Type}.

Definition ST (A : Type) : Type := S -> result A * S.
Definition ret {A} (a : A) : ST A := fun s => (Ok a, s).
Definition throw {A} (e : jserror) : ST A := fun s => (Throw e, s).
Definition lift {A} (r : result A) : ST A := fun s => (r, s).
Definition bind {A B} (m : ST A) (f : A -> ST B) : ST B :=
  fun s => match m s with (Ok a, s') => f a s' | (Throw e, s') => (Throw e, s') end.
(** [try { m } catch]: what was thrown is a value. *)
Definition try_ {A} (m : ST A) : ST (result A) := fun s => let '(r, s') := m s in (Ok r, s').
Definition gets {A} (f : S -> A) : ST A := fun s => (Ok (f s), s).
Definition modify (f : S -> S) : ST unit := fun s => (Ok tt, f s).

(** The postcondition of a run. *)
Definition wp {A} (m : ST A) (Q : result A -> S -> Prop) (s : S) : Prop := Q (fst (m s)) (snd (m s)).

Lemma st_run {A} (m : ST A) Q s r s' : wp m Q s -> m s = (r, s') -> Q r s'.
Proof. unfold wp. intros Hw Hm. by rewrite Hm in Hw. Qed.
Lemma st_ret {A} (a : A) (Q : result A -> S -> Prop) s : Q (Ok a) s -> wp (ret a) Q s.
Proof. done. Qed.
Lemma st_throw {A} e (Q : result A -> S -> Prop) s : Q (Throw e) s -> wp (throw e) Q s.
Proof. done. Qed.
Lemma st_lift {A} (r : result A) (Q : result A -> S -> Prop) s : Q r s -> wp (lift r) Q s.
Proof. done. Qed.
Lemma st_gets {A} (f : S -> A) (Q : result A -> S -> Prop) s : Q (Ok (f s)) s -> wp (gets f) Q s.
Proof. done. Qed.
Lemma st_modify f (Q : result unit -> S -> Prop) s : Q (Ok tt) (f s) -> wp (modify f) Q s.
Proof. done. Qed.
Lemma st_bind {A B} (m : ST A) (f : A -> ST B) (Q : result B -> S -> Prop) s :
  wp m (fun r s1 => match r with Ok a => wp (f a) Q s1 | Throw e => Q (Throw e) s1 end) s -> wp (bind m f) Q s.
Proof. unfold wp, bind. by destruct (m s) as [[a|e] s1]. Qed.
Lemma st_try {A} (m : ST A) (Q : result (result A) -> S -> Prop) s :
  wp m (fun r s1 => Q (Ok r) s1) s -> wp (try_ m) Q s.
Proof. unfold wp, try_. by destruct (m s). Qed.
Lemma st_mono {A} (m : ST A) (Q Q' : result A -> S -> Prop) s :
  (forall r s1, Q r s1 -> Q' r s1) -> wp m Q s -> wp m Q' s.
Proof. unfold wp. auto. Qed.
Lemma st_intro {A} (m : ST A) (Q : result A -> S -> Prop) s : (forall r s1, m s = (r, s1) -> Q r s1) -> wp m Q s.
Proof. unfold wp. intros H. apply H. by destruct (m s). Qed.

Lemma seq_inv {A B} (m : ST A) (f : A -> ST B) s r s' :
  bind m f s = (r, s') ->
  (exists a s1, m s = (Ok a, s1) /\ f a s1 = (r, s')) \/ (exists e, m s = (Throw e, s') /\ r = Throw e).
Proof.
  unfold bind. destruct (m s) as [[a|e] s1]; intros Hr; [left; eauto|]. injection Hr as <- <-. right. eauto.
Qed.
Lemma seq_Ok {A B} (m : ST A) (f : A -> ST B) s b s' :
  bind m f s = (Ok b, s') -> exists a s1, m s = (Ok a, s1) /\ f a s1 = (Ok b, s').
Proof. intros [Hs|(e & _ & [=])]%seq_inv. exact Hs. Qed.
Lemma try_returns {A} (m : ST A) s e s' : try_ m s <> (Throw e, s').
Proof. unfold try_. by destruct (m s). Qed.
Lemma lift_Ok {A} (r : result A) s a s' : lift r s = (Ok a, s') -> r = Ok a /\ s' = s.
Proof. by intros [= <- <-]. Qed.
Lemma ret_Ok {A} (x : A) s a s' : ret x s = (Ok a, s') -> x = a /\ s' = s.
Proof. by intros [= <- <-]. Qed.

(** A relation every run of a computation is in, whatever it starts from: what its
    steps keep, the whole keeps. *)
Class Keeps (R : S -> S -> Prop) {A} (m : ST A) : Prop := keeps_run : forall s, R s (snd (m s)).
Section Kept.
Context (R : S -> S -> Prop) {HR : PreOrder R}.
Lemma keeps_pure {A} (m : ST A) : (forall s, snd (m s) = s) -> Keeps R m.
Proof. intros Hm s. rewrite Hm. reflexivity. Qed.
Lemma keeps_bind {A B} (m : ST A) (f : A -> ST B) : Keeps R m -> (forall a, Keeps R (f a)) -> Keeps R (bind m f).
Proof.
  intros Hm Hf s. unfold bind. specialize (Hm s). destruct (m s) as [[a|e] s1]; [|exact Hm]. simpl in Hm.
  transitivity s1; [exact Hm | apply Hf].
Qed.
Lemma keeps_try {A} (m : ST A) : Keeps R m -> Keeps R (try_ m).
Proof. intros Hm s. unfold try_. specialize (Hm s). by destruct (m s). Qed.
Lemma keeps_wp {A} (m : ST A) (s0 s : S) : R s0 s -> Keeps R m -> wp m (fun _ s1 => R s0 s1) s.
Proof. intros H0 Hm. unfold wp. by transitivity s. Qed.
Lemma keeps_result {A} (m : ST A) s r s' : Keeps R m -> m s = (r, s') -> R s s'.
Proof. intros Hm Hs. specialize (Hm s). by rewrite Hs in Hm. Qed.
End Kept.
End Computations.
Arguments ST S A : clear implicits.

Declare Scope state_scope.
Notation "'let!' x ':=' m 'in' k" := (bind m (fun x => k))
  (at level 10, x name, m at level 100, k at level 200) : state_scope.
#[global] Open Scope state_scope.

(** Decomposes a computation into its steps. *)
Ltac keeps :=
  repeat first
    [ apply _
    | simple apply keeps_bind; [apply _ | |]
    | simple apply keeps_try
    | match goal with |- Keeps _ (match ?x with _ => _ end) => destruct x end
    | match goal with |- forall _, Keeps _ _ => intros ? end ].
