(* ===== verification/LeaseFiles.v ===== *)
(** * The files of a merge lane (ama/merge-lease.mjs, deploy-incident.mjs)

    A lane of a repository and a base branch has four files: the holder of its
    merge lease, the queue of its waiters, the gate attempts of its heads, and the
    history of its grants. A section under the mutation lock of the lane is atomic
    against the processes that take the lock; outside it others may rewrite every
    file, before each read and while the lock is waited for. The lock, the clock,
    the liveness of processes, the load and the failure of a write are of the
    environment. A row of a file is a JSON object, written through [JSON.stringify];
    its counters are numbers or missing. *)

From Stdlib Require Import ZArith Lia Ascii SpecFloat.
From stdpp Require Import base list strings.
From S2P Require Import Prelude JsState JsNum JsMath JsValue JsDate LoadAware.

Definition LEASE_SCHEMA_VERSION : val := VInt 1.
Definition DEFAULT_DEADLINE_SECONDS : num := num_of_Z 900.
Definition DEFAULT_MAX_GATE_ATTEMPTS : num := num_of_Z 5.
Definition DEFAULT_ATTEMPT_TTL_SECONDS : num := num_of_Z (30 * 24 * 60 * 60).
Definition MERGE_LEASE_HISTORY_LIMIT : nat := Z.to_nat 4096.

(** ** Keys of a lane *)

Definition segment_char (a : ascii) : bool :=
  in_range 48 57 a || in_range 65 90 a || in_range 97 122 a || (code a =? 46)%N || (code a =? 95)%N || (code a =? 45)%N.
(** A hyphen per UTF-16 unit of a character outside the segment. *)
Fixpoint sanitizeSegment (s : string) : string :=
  match s with
  | EmptyString => ""
  | String a s' =>
      (if segment_char a then String a "" else if in_range 128 191 a then "" else if (240 <=? code a)%N then "--" else "-")
      +:+ sanitizeSegment s'
  end.
Fixpoint slash_marks (s : string) : string :=
  match s with
  | EmptyString => ""
  | String a s' => (if (code a =? 47)%N then "__" else String a "") +:+ slash_marks s'
  end.
Record LeaseKey := { lk_key : string; lk_repoSlug : string; lk_baseSlug : string; lk_fileSlug : string }.
Definition deriveLeaseKey (repo base : string) : result LeaseKey :=
  if String.eqb repo "" then Throw (PlainError "deriveLeaseKey: repo is required")
  else if String.eqb base "" then Throw (PlainError "deriveLeaseKey: base is required")
  else
    let r := sanitizeSegment (slash_marks repo) in
    let b := sanitizeSegment base in
    Ok {| lk_key := repo +:+ "::" +:+ base; lk_repoSlug := r; lk_baseSlug := b; lk_fileSlug := r +:+ "__" +:+ b |}.

(** ** The deploy-incident marker of a pull request body *)

Definition blank (a : ascii) : bool := (code a =? 9)%N || (code a =? 32)%N.
Definition alnum (a : ascii) : bool := in_range 48 57 a || in_range 65 90 a || in_range 97 122 a.
Fixpoint skip_blanks (s : string) : string :=
  match s with String a s' => if blank a then skip_blanks s' else s | EmptyString => s end.
(** The rest of an identifier, blanks, and the end of the comment. *)
Fixpoint id_tail (s : string) : bool :=
  starts_with "-->" (skip_blanks s)
  || match s with String a s' => segment_char a && id_tail s' | EmptyString => false end.
Definition drop_prefix (p s : string) : option string :=
  if starts_with p s then Some (String.substring (String.length p) (String.length s - String.length p) s) else None.
Definition marker_at (s : string) : bool :=
  match drop_prefix "<!--" s with
  | Some s1 =>
      match drop_prefix "deploy-incident:v1" (skip_blanks s1) with
      | Some (String a s2) =>
          blank a && match drop_prefix "id=" (skip_blanks s2) with
                     | Some (String c s3) => alnum c && id_tail s3
                     | _ => false
                     end
      | _ => false
      end
  | None => false
  end.
Fixpoint marker_in (s : string) : bool :=
  marker_at s || match s with String _ s' => marker_in s' | EmptyString => false end.
Definition hasDeployIncidentMarker (body : val) : bool := marker_in (to_str (or_else body (VStr ""))).

(** ** Values *)

Section Lane.
Context {hostDate : HostDate} {host : Host}.

(** [Date.parse(v)]. *)
Definition dparse (v : val) : num := match date_parse (to_str v) with Some z => num_of_Z z | None => NaN end.
(** [Number(v) || 0]. *)
Definition num_or_zero (v : val) : num := let n := to_num v in if truthy (VNum n) then n else num_of_Z 0.
Definition positive_floor (v : val) (default : num) : num :=
  let n := to_num v in if is_finite n && num_ltb (num_of_Z 0) n then num_floor n else default.
Definition parseDeadlineSeconds (v : val) : num := positive_floor v DEFAULT_DEADLINE_SECONDS.
Definition parseMaxGateAttempts (v : val) : num := positive_floor v DEFAULT_MAX_GATE_ATTEMPTS.
Definition same_number (a b : val) : bool := num_eqb (to_num a) (to_num b).
Definition without (k : string) (o : obj) : obj := filter_b (fun kv => negb (String.eqb (fst kv) k)) o.
(** A property that is written only when it has a value. *)
Definition when (b : bool) (k : string) (v : val) : obj := if b then [(k, v)] else [].
Definition has_own (o : obj) (k : string) : bool := match map_get o k with Some _ => true | None => false end.

Definition ageSecondsFrom (acquiredAt nowIso : val) : option num :=
  let start := dparse acquiredAt in
  let end_ := dparse nowIso in
  if is_finite start && is_finite end_
  then Some (num_max (num_of_Z 0) (num_floor (num_div (num_sub end_ start) (num_of_Z 1000)))) else None.

Definition positive_integer (v : val) (field : string) : result num :=
  let bad := PlainError ("merge lease: " +:+ field +:+ " must be a positive integer") in
  if is_nullish v || is_str v "" || is_bool v then Throw bad
  else let n := to_num v in
       if is_integer n && num_ltb (num_of_Z 0) n then Ok n else Throw bad.
Definition normalizeHolderPr (v : val) (field : string) : result num := positive_integer v field.
Definition normalizeHolderPid (v : val) : result num := positive_integer v "holderPid".

(** ** Files and the environment *)

Inductive File (A : Type) := Absent | Present (a : A) | Unreadable (e : jserror).
Arguments Absent {A}.
Arguments Present {A} a.
Arguments Unreadable {A} e.
Definition read_file {A} (f : File A) : result (option A) :=
  match f with Absent => Ok None | Present a => Ok (Some a) | Unreadable e => Throw e end.

(** The waiters or the attempts of a lane: the stamp of the last write, and the rows. *)
Record Doc := { doc_updated : val; doc_rows : list obj }.
Definition empty_doc : Doc := {| doc_updated := VNull; doc_rows := [] |}.
Record LaneFiles := { holder : File obj; waiters : File Doc; attempts : File Doc; history : File (list obj) }.
Inductive FileName := HolderFile | WaitersFile | AttemptsFile | HistoryFile.

Definition set_holder (f : File obj) (l : LaneFiles) : LaneFiles :=
  {| holder := f; waiters := waiters l; attempts := attempts l; history := history l |}.
Definition set_waiters (d : Doc) (l : LaneFiles) : LaneFiles :=
  {| holder := holder l; waiters := Present d; attempts := attempts l; history := history l |}.
Definition set_attempts (d : Doc) (l : LaneFiles) : LaneFiles :=
  {| holder := holder l; waiters := waiters l; attempts := Present d; history := history l |}.
Definition set_history (h : list obj) (l : LaneFiles) : LaneFiles :=
  {| holder := holder l; waiters := waiters l; attempts := attempts l; history := Present h |}.

(** The answer to signal zero. *)
Inductive Signal := Delivered | SignalError (code : string).

Class LaneEnv (E : Type) := {
  iso_now : E -> string * E;
  new_uuid : E -> string * E;
  hostname : E -> string;
  signal_zero : E -> Z -> Signal;
  load_readings : E -> obj * E;
  write_error : E -> FileName -> option jserror * E;
  (** what the other processes make of the files meanwhile *)
  others_act : E -> LaneFiles -> LaneFiles * E;
  lane_lock : E -> LaneFiles -> result bool * LaneFiles * E;
  attempts_lock : E -> result bool * E
}.
Record LaneConfig := {
  l_repo : string; l_base : string;
  (** AMG_LEASE_DEADLINE_SECONDS, AMG_MAX_GATE_ATTEMPTS *)
  env_deadline : val; env_max_attempts : val;
  WATCHER_POLL_INTERVAL_MS : num
}.

Context {E : Type} {laneEnv : LaneEnv E}.
Variable cfg : LaneConfig.

Definition pidIsLive (e : E) (pid : val) : bool :=
  match num_to_Z (to_num pid) with
  | Some z =>
      (0 <? z)%Z && match signal_zero e z with
                    | Delivered => true
                    | SignalError c => negb (String.eqb c "ESRCH")
                    end
  | None => false
  end.

(** What this process does to the holder of the lease, and the wakes it asks for. *)
Inductive HolderStep := Created (l : obj) | Replaced (old new : obj) | Removed (old : obj).
Record LaneWorld := { files : LaneFiles; lenv : E; holder_steps : list HolderStep; wakes : list obj }.
Abbreviation M := (ST LaneWorld).

Definition set_files (w : LaneWorld) (f : LaneFiles) : LaneWorld :=
  {| files := f; lenv := lenv w; holder_steps := holder_steps w; wakes := wakes w |}.
Definition of_env {A} (f : E -> A * E) : M A :=
  fun w => let '(a, e) := f (lenv w) in (Ok a, {| files := files w; lenv := e; holder_steps := holder_steps w; wakes := wakes w |}).
Definition others : M unit :=
  fun w => let '(f, e) := others_act (lenv w) (files w) in
           (Ok tt, {| files := f; lenv := e; holder_steps := holder_steps w; wakes := wakes w |}).

(** [now || isoNow()]. *)
Definition at_or_now (at_ : val) : M val := if truthy at_ then ret at_ else let! t := of_env iso_now in ret (VStr t).

Definition readWaiterDoc : M Doc :=
  let! d := bind (gets files) (fun f => lift (read_file (waiters f))) in ret (match d with Some d => d | None => empty_doc end).
Definition readAttemptDoc : M Doc :=
  let! d := bind (gets files) (fun f => lift (read_file (attempts f))) in ret (match d with Some d => d | None => empty_doc end).
Definition read_holder : M (option obj) := bind (gets files) (fun f => lift (read_file (holder f))).
(** A write that fails leaves the file as it was. *)
Definition write (name : FileName) (f : LaneFiles -> LaneFiles) : M unit :=
  let! refused := of_env (fun e => write_error e name) in
  match refused with Some e => throw e | None => modify (fun w => set_files w (f (files w))) end.
Definition write_waiters (rows : list obj) (at_ : val) : M unit :=
  write WaitersFile (set_waiters {| doc_updated := at_; doc_rows := map norm_fields rows |}).
Definition write_attempts (rows : list obj) (at_ : val) : M unit :=
  write AttemptsFile (set_attempts {| doc_updated := at_; doc_rows := map norm_fields rows |}).

Definition log_step (s : HolderStep) : M unit :=
  modify (fun w => {| files := files w; lenv := lenv w; holder_steps := holder_steps w ++ [s]; wakes := wakes w |}).
(** [writeFileAtomic(leasePath, lease, { overwrite: false })]: false when the file exists. *)
Definition create_holder (lease : obj) : M bool :=
  let! refused := of_env (fun e => write_error e HolderFile) in
  match refused with
  | Some e => throw e
  | None =>
      let! f := gets files in
      match holder f with
      | Absent =>
          let! _ := modify (fun w => set_files w (set_holder (Present (norm_fields lease)) (files w))) in
          let! _ := log_step (Created (norm_fields lease)) in ret true
      | _ => ret false
      end
  end.
Definition replace_holder (lease : obj) : M unit :=
  let! f := gets files in
  let! _ := write HolderFile (set_holder (Present (norm_fields lease))) in
  match holder f with Present old => log_step (Replaced old (norm_fields lease)) | _ => ret tt end.
(** [rmSync(leasePath, { force: true })]. *)
Definition remove_holder : M unit :=
  let! f := gets files in
  let! _ := modify (fun w => set_files w (set_holder Absent (files w))) in
  match holder f with Present old => log_step (Removed old) | _ => ret tt end.

(** ** The mutation locks *)

(** [withMutationLock(leasePath, fn)]: none when the lock was not taken in time. *)
Definition with_lane_lock {A} (m : M A) : M (option A) :=
  fun w => let '(got, f, e) := lane_lock (lenv w) (files w) in
           let w1 := {| files := f; lenv := e; holder_steps := holder_steps w; wakes := wakes w |} in
           match got with
           | Throw err => (Throw err, w1)
           | Ok false => (Ok None, w1)
           | Ok true => let '(r, w2) := m w1 in (match r with Ok a => Ok (Some a) | Throw err => Throw err end, w2)
           end.
Definition lane_name : string := l_repo cfg +:+ "::" +:+ l_base cfg.
Definition withWaiterMutationLock {A} (m : M A) : M A :=
  let! r := with_lane_lock m in
  match r with
  | Some a => ret a
  | None => throw (PlainError ("merge lease: mutation lock busy while updating waiters for " +:+ lane_name))
  end.
Definition withAttemptMutationLockOnly {A} (m : M A) : M A :=
  let! got := of_env attempts_lock in
  match got with
  | Throw e => throw e
  | Ok true => m
  | Ok false => throw (PlainError ("merge lease: mutation lock busy while updating attempts for " +:+ lane_name))
  end.
Definition withAttemptMutationLock {A} (m : M A) : M A := withWaiterMutationLock (withAttemptMutationLockOnly m).

Definition word_char (a : ascii) : bool := alnum a || (code a =? 95)%N.
Fixpoint busy_in (before : bool) (s : string) : bool :=
  (negb before && match drop_prefix "mutation lock busy" s with
                  | Some (String a _) => negb (word_char a)
                  | Some EmptyString => true
                  | None => false
                  end)
  || match s with String a s' => busy_in (word_char a) s' | EmptyString => false end.
Definition isMutationLockBusyError (e : jserror) : bool := busy_in false (error_message e).

(** ** Waiters *)

Definition deploy_incident (w : obj) : bool := is_true (get w "deployIncident").
(** [sortWaiters] puts [a] after [b]. *)
Definition waits_after (a b : obj) : bool :=
  if deploy_incident a && negb (deploy_incident b) then false
  else if deploy_incident b && negb (deploy_incident a) then true
  else num_ltb (dparse (get b "arrivedAt")) (dparse (get a "arrivedAt")).
Fixpoint queue_in (x : obj) (l : list obj) : list obj :=
  match l with
  | [] => [x]
  | y :: l' => if waits_after x y then y :: queue_in x l' else x :: l
  end.
Definition sortWaiters (l : list obj) : list obj := foldr queue_in [] l.
Definition read_waiters : M (list obj) := let! d := readWaiterDoc in ret (sortWaiters (doc_rows d)).
Definition put_waiters (rows : list obj) (at_ : val) : M unit := write_waiters (sortWaiters rows) at_.

Definition is_daemon (w : obj) : bool := is_str (get w "priority") "daemon".
Definition waiterExpired (w : obj) (nowIso : val) : bool :=
  match ageSecondsFrom (if is_daemon w then get w "updatedAt" else or_else (get w "registeredAt") (get w "arrivedAt")) nowIso with
  | Some age => num_leb (parseDeadlineSeconds (get w "deadlineSeconds")) age
  | None => false
  end.
Definition waiterProcessDead (e : E) (w : obj) (here : val) : bool :=
  if negb (truthy (get w "holderHost")) || negb (strict_eq (get w "holderHost") here) then false
  else
    let pid := if has_own w "acquisitionPid" then get w "acquisitionPid" else VNum (to_num (get w "holderPid")) in
    match pid with
    | VNum n => is_safe_integer n && num_ltb (num_of_Z 0) n && negb (pidIsLive e pid)
    | _ => false
    end.
Definition host_or_here (h : val) : M val := if truthy h then ret h else let! e := gets lenv in ret (VStr (hostname e)).

Record Pruned := { pr_pruned : list obj; pr_waiters : list obj }.
Definition stale_waiter (e : E) (at_ here : val) (w : obj) : bool := waiterExpired w at_ || waiterProcessDead e w here.
Definition mark_stale (e : E) (here : val) (w : obj) : obj :=
  spread w [("staleReason", VStr (if waiterProcessDead e w here then "dead-waiter-pid" else "expired-waiter"))].
Definition pruneMergeLeaseWaitersUnlocked (now hostName : val) : M Pruned :=
  let! rows := read_waiters in
  match rows with
  | [] => ret {| pr_pruned := []; pr_waiters := [] |}
  | _ =>
      let! here := host_or_here hostName in
      let! at_ := at_or_now now in
      let! e := gets lenv in
      let kept := filter_b (fun w => negb (stale_waiter e at_ here w)) rows in
      let pruned := map (mark_stale e here) (filter_b (stale_waiter e at_ here) rows) in
      let! _ := (if Nat.ltb 0 (length pruned) then put_waiters kept at_ else ret tt) in
      ret {| pr_pruned := pruned; pr_waiters := sortWaiters kept |}
  end.

Definition waiterReady (w : obj) (at_ : val) : bool :=
  negb (truthy (get w "notBefore")) || num_leb (dparse (get w "notBefore")) (dparse at_).
Definition same_waiter (id : val) (w : obj) : bool := strict_eq (get w "waiterId") id.
Definition waiterQueuePosition (rows : list obj) (waiter : option obj) (at_ : val) : option nat :=
  match waiter with
  | None => None
  | Some w =>
      let order := match find_b (same_waiter (get w "waiterId")) rows with
                   | Some queued => if waiterReady queued at_ then filter_b (fun x => waiterReady x at_) rows else rows
                   | None => rows
                   end in
      Datatypes.option_map S (find_index (same_waiter (get w "waiterId")) order)
  end.

(** ** Gate attempts *)

Definition count_field (r : obj) (k : string) : val := VNum (num_max (num_of_Z 0) (num_floor (num_or_zero (get r k)))).
Definition normal_fields (r : obj) (pr : num) (nowIso : val) : obj :=
  [("pr", VNum pr); ("head", VStr (to_str (or_else (get r "head") (VStr ""))));
   ("attempts", count_field r "attempts"); ("retryable", count_field r "retryable");
   ("firstAttemptAt", or_else (get r "firstAttemptAt") nowIso); ("lastAttemptAt", or_else (get r "lastAttemptAt") nowIso)].
Definition normalizeAttemptRecord (r : obj) (nowIso : val) : result obj :=
  let* pr := normalizeHolderPr (get r "pr") "pr" in Ok (spread r (normal_fields r pr nowIso)).
Definition attemptExpired (r : obj) (nowIso : val) : bool :=
  match ageSecondsFrom (get r "lastAttemptAt") nowIso with
  | Some age => num_leb DEFAULT_ATTEMPT_TTL_SECONDS age
  | None => false
  end.
(** [String.prototype.localeCompare], of the host. *)
Class Collation := { locale_after : string -> string -> bool }.
Context {collation : Collation}.
Definition attempt_after (a b : obj) : bool :=
  let x := to_num (get a "pr") in
  let y := to_num (get b "pr") in
  if num_ltb y x then true else if num_ltb x y then false
  else locale_after (to_str (or_else (get a "head") (VStr ""))) (to_str (or_else (get b "head") (VStr ""))).
Fixpoint attempt_in (x : obj) (l : list obj) : list obj :=
  match l with
  | [] => [x]
  | y :: l' => if attempt_after x y then y :: attempt_in x l' else x :: l
  end.
Definition sortedAttempts (l : list obj) : list obj := foldr attempt_in [] l.

(** The record of a head. *)
Definition of_head (pr head : val) (r : obj) : bool := same_number (get r "pr") pr && strict_eq (get r "head") head.
Definition same_record (pr : num) (head : string) (r : obj) : bool :=
  strict_eq (get r "pr") (VNum pr) && is_str (get r "head") head.
Definition head_text (head : val) : string := to_str (or_else head (VStr "")).

Definition closerArrivalExpiry (r : obj) : result val :=
  if truthy (get r "queueArrivalExpiresAt") then Ok (get r "queueArrivalExpiresAt")
  else let* t := date_to_iso (num_add (dparse (get r "nextEligibleAt")) (WATCHER_POLL_INTERVAL_MS cfg)) in Ok (VStr t).
Definition arrival_live (pr now : val) (r : obj) : result bool :=
  if same_number (get r "pr") pr && truthy (get r "queueArrivedAt")
     && is_finite (dparse (or_else (get r "queueArrivalExpiresAt") (get r "nextEligibleAt")))
  then let* t := closerArrivalExpiry r in Ok (num_ltb (dparse now) (dparse t) && negb (attemptExpired r now))
  else Ok false.
(** The row, with its place in the list. *)
Fixpoint find_arrival (pr now : val) (i : nat) (rows : list obj) : result (option (nat * obj)) :=
  match rows with
  | [] => Ok None
  | r :: rows => let* found := arrival_live pr now r in if found then Ok (Some (i, r)) else find_arrival pr now (S i) rows
  end.
Definition closerArrival (rows : list obj) (pr now : val) : result (option (nat * obj)) := find_arrival pr now 0 rows.
Definition withoutCloserArrival (r : obj) : obj := without "queueArrivalExpiresAt" (without "queueArrivedAt" r).
Definition clearCloserArrivals (rows : list obj) (pr : val) : list obj :=
  map (fun r => if same_number (get r "pr") pr then withoutCloserArrival r else r) rows.
Definition read_attempts : M (list obj) := let! d := readAttemptDoc in ret (sortedAttempts (doc_rows d)).
Definition live_record (rows : list obj) (pr head at_ : val) : option obj :=
  find_b (fun r => of_head pr head r && negb (attemptExpired r at_)) rows.

(** ** History *)

Definition readMergeLeaseHistory : M (list obj) :=
  let! h := bind (gets files) (fun f => lift (read_file (history f))) in ret (match h with Some h => h | None => [] end).
(** [records.slice(-limit)]. *)
Definition last_rows (l : list obj) : list obj := drop (length l - MERGE_LEASE_HISTORY_LIMIT) l.
Definition history_record (lease : obj) (id event : string) (at_ reason : val) : obj :=
  [("schemaVersion", VInt 1); ("eventId", VStr id); ("event", VStr event); ("at", at_); ("reason", reason);
   ("repo", get lease "repo"); ("base", get lease "base"); ("leaseId", get lease "leaseId");
   ("holderPr", get lease "holderPr"); ("holderHead", get lease "holderHead");
   ("holderPid", get lease "holderPid"); ("holderHost", get lease "holderHost");
   ("holderRole", or_else (get lease "holderRole") (VStr "closer"));
   ("acquiredAt", or_else (get lease "grantedAt") (get lease "acquiredAt"));
   ("releasedAt", if str_in event ["grant"; "renew"] then VNull else at_)].
Definition appendLeaseHistory (lease : obj) (event : string) (at_ reason : val) : M unit :=
  let! records := readMergeLeaseHistory in
  let! id := of_env new_uuid in
  write HistoryFile (set_history (map norm_fields (last_rows (records ++ [history_record lease id event at_ reason])))).

(** ** Load-scaled seconds and milliseconds *)

Definition scaled_seconds (base : num) : M num :=
  let! load := of_env load_readings in
  lift (loadAwareTimeoutSeconds (VNum base) (spread load [("maxSeconds", VNum infinity)])).
Definition scaled_ms (base : num) : M num :=
  let! load := of_env load_readings in lift (loadAwareTimeoutMs (VNum base) load).
Definition daemonMergeReservationSeconds (pollIntervalMs : num) : M num :=
  scaled_seconds (num_div (num_mul (num_of_Z 2) pollIntervalMs) (num_of_Z 1000)).
End Lane.
Arguments Absent {A}.
Arguments Present {A} a.
Arguments Unreadable {A} e.
Arguments LaneWorld E : clear implicits.
