(* ===== verification/MergeLease.v ===== *)
(** * The merge lease of a lane (ama/merge-lease.mjs)

    One holder at a time may merge into a base branch. A request joins the queue of
    waiters, is granted the lease when it is the first that is ready and neither
    parked nor backing off, and gives it back under the identity it was granted
    with; a lease whose process is dead, or that another host holds past its
    deadline, is taken away. A release without a merge is counted against its head,
    delays it and parks it at the cap; the gate attempts of a head are counted the
    same way. *)

From Stdlib Require Import ZArith Lia Ascii SpecFloat.
From stdpp Require Import base list strings.
From S2P Require Import Prelude JsState JsNum JsMath JsValue JsDate LoadAware LeaseFiles.

Section Lease.
Context {hostDate : HostDate} {host : Host} {collation : Collation}.
Context {E : Type} {laneEnv : LaneEnv E}.
Variable cfg : LaneConfig.
Abbreviation M := (ST (LaneWorld E)).

(** ** Gate attempts *)

Record Refunded := { rf_removed : bool; rf_attempts : list obj }.
Definition refund_record (at_ : val) (r : obj) : obj :=
  spread r [("attempts", VNum (num_max (num_of_Z 0) (num_sub (to_num (get r "attempts")) (num_of_Z 1))));
            ("retryable", VNum (num_add (to_num (get r "retryable")) (num_of_Z 1))); ("lastAttemptAt", at_)].
Definition refundAttemptUnlocked (pr head now : val) : M Refunded :=
  let! at_ := at_or_now now in
  let! doc := readAttemptDoc in
  let! pr := lift (normalizeHolderPr pr "pr") in
  let mine := same_record pr (head_text head) in
  let! rows := lift (rmapM (fun r => normalizeAttemptRecord r at_) (doc_rows doc)) in
  let attempts := sortedAttempts (map (fun r => if mine r then refund_record at_ r else r) rows) in
  let refunded := some_b mine rows in
  let! _ := (if refunded then write_attempts attempts at_ else ret tt) in
  ret {| rf_removed := refunded; rf_attempts := attempts |}.
Definition refundMergeLeaseGateAttempt (pr head now : val) : M Refunded :=
  withAttemptMutationLock cfg (refundAttemptUnlocked pr head now).

Definition removeAttemptRecordsUnlocked (pr head now : val) : M Refunded :=
  let! at_ := at_or_now now in
  let! pr := lift (normalizeHolderPr pr "pr") in
  let! doc := readAttemptDoc in
  let! rows := lift (rmapM (fun r => normalizeAttemptRecord r at_) (doc_rows doc)) in
  let rest := filter_b (fun r => negb (same_record pr (head_text head) r)) rows in
  let removed := negb (Nat.eqb (length rest) (length (doc_rows doc))) in
  let! _ := (if removed || Nat.ltb 0 (length (doc_rows doc)) then write_attempts (sortedAttempts rest) at_ else ret tt) in
  ret {| rf_removed := removed; rf_attempts := sortedAttempts rest |}.
Definition ready_again (pr head : val) (w : obj) : obj := if of_head pr head w then without "notBefore" w else w.
Definition resetMergeLeaseGateAttempts (pr head now : val) : M Refunded :=
  withAttemptMutationLock cfg (
    let! lease := read_holder in
    if match lease with Some l => same_number (get l "holderPr") pr && strict_eq (get l "holderHead") head | None => false end
    then throw (PlainError "cannot reset gate attempts while this head holds the merge lease")
    else
      let! removal := removeAttemptRecordsUnlocked pr head now in
      if rf_removed removal then
        let! rows := read_waiters in
        let rows := map (ready_again pr head) rows in
        let! _ := (if Nat.ltb 0 (length rows) then let! at_ := at_or_now now in put_waiters rows at_ else ret tt) in
        ret removal
      else ret removal).

Record GateAttempt := { ga_attempt : obj; ga_attempts : list obj; ga_max : num; ga_parked : bool }.
(** The record starts over when the base it was counted at has moved. *)
Definition at_base (baseSha : val) (r : obj) : obj :=
  if truthy baseSha && negb (strict_eq (get r "baseSha") baseSha)
  then spread r [("attempts", VInt 0); ("consecutiveNoMergeReleases", VInt 0); ("parkedReason", VNull);
                 ("noMergeReason", VNull); ("nextEligibleAt", VNull)]
  else r.
Definition next_attempt (old : obj) (pr : num) (head : string) (baseSha at_ : val) : result obj :=
  normalizeAttemptRecord
    (spread old ([("pr", VNum pr); ("head", VStr head)] ++ when (truthy baseSha) "baseSha" baseSha ++
      [("attempts", VNum (num_add (num_or_zero (get old "attempts")) (num_of_Z 1)));
       ("retryable", VNum (num_or_zero (get old "retryable")));
       ("firstAttemptAt", or_else (get old "firstAttemptAt") at_); ("lastAttemptAt", at_)])) at_.
Definition recordMergeLeaseGateAttempt (pr head now maxAttempts baseSha : val) : M GateAttempt :=
  let max := parseMaxGateAttempts (match maxAttempts with
               VUndef => VNum (parseMaxGateAttempts (env_max_attempts cfg)) | v => v end) in
  let! at_ := at_or_now now in
  withAttemptMutationLock cfg (
    let! doc := readAttemptDoc in
    let! pr := lift (normalizeHolderPr pr "pr") in
    let head := head_text head in
    let! rows := lift (rmapM (fun r => normalizeAttemptRecord r at_) (doc_rows doc)) in
    let active := filter_b (fun r => negb (attemptExpired r at_)) rows in
    let others := filter_b (fun r => negb (same_record pr head r)) active in
    let existing := Datatypes.option_map (at_base baseSha) (find_b (same_record pr head) active) in
    let old := match existing with Some r => r | None => [] end in
    if truthy (get old "parkedReason")
    then ret {| ga_attempt := old; ga_attempts := sortedAttempts active; ga_max := max; ga_parked := true |}
    else if num_leb max (num_or_zero (get old "attempts")) then
      let capped := withoutCloserArrival (spread old [("parkedReason", VStr "max-gate-attempts")]) in
      let sorted := sortedAttempts (clearCloserArrivals (others ++ [capped]) (VNum pr)) in
      let! _ := write_attempts sorted at_ in
      ret {| ga_attempt := capped; ga_attempts := sorted; ga_max := max; ga_parked := true |}
    else
      let! next := lift (next_attempt old pr head baseSha at_) in
      let sorted := sortedAttempts (others ++ [next]) in
      let! _ := write_attempts sorted at_ in
      ret {| ga_attempt := next; ga_attempts := sorted; ga_max := max; ga_parked := false |}).

(** ** Waiters *)

Definition has_row (r : option obj) : bool := match r with Some _ => true | None => false end.
Record WaiterRequest := {
  u_pr : val; u_head : val; u_holderPid : val; u_holderHost : val; u_acquisitionPid : val; u_deadlineSeconds : val;
  u_waiterId : val; u_arrivedAt : val; u_updatedAt : val; u_attempt : val; u_priority : val; u_prBody : val;
  u_effectiveDeadline : val
}.
(** The latest of the dates that have a value; the first keeps its place on a tie. *)
Definition later_of (a b : val) : val := if truthy b then (if truthy a && num_ltb (dparse b) (dparse a) then a else b) else a.
Definition not_before (daemon : bool) (retry arrival existing : option obj) : val :=
  let at_ r k := match r with Some r => get r k | None => VUndef end in
  if daemon then or_else (at_ retry "nextEligibleAt") (at_ existing "notBefore")
  else later_of (later_of (later_of VUndef (at_ retry "nextEligibleAt")) (at_ arrival "nextEligibleAt")) (at_ existing "notBefore").
Definition waiter_deadline (r : WaiterRequest) : M val :=
  if negb (is_nullish (u_effectiveDeadline r)) then ret (u_effectiveDeadline r)
  else if is_str (u_priority r) "daemon" && is_nullish (u_deadlineSeconds r)
  then let! s := daemonMergeReservationSeconds (WATCHER_POLL_INTERVAL_MS cfg) in ret (VNum s)
  else let! s := scaled_seconds (parseDeadlineSeconds (coalesce (u_deadlineSeconds r) (env_deadline cfg))) in ret (VNum s).
Record Registered := { rg_waiter : obj; rg_waiters : list obj }.
Definition upsertMergeLeaseWaiter (r : WaiterRequest) : M Registered :=
  let! waiterId := (match u_waiterId r with
                    | VUndef => let! id := of_env new_uuid in ret (VStr ("mw_" +:+ id))
                    | v => ret v end) in
  withWaiterMutationLock cfg (
    let! now := (if truthy (u_updatedAt r) then ret (u_updatedAt r) else at_or_now (u_arrivedAt r)) in
    let! rows := read_waiters in
    let! e := gets lenv in
    let here := if truthy (u_holderHost r) then u_holderHost r else VStr (hostname e) in
    let daemon := is_str (u_priority r) "daemon" in
    let existing := find_b (fun w => same_waiter waiterId w && negb (waiterExpired w now) && negb (waiterProcessDead e w here)) rows in
    let! attempts := read_attempts in
    let! found := lift (if daemon then Ok None else closerArrival cfg attempts (u_pr r) now) in
    let arrival := Datatypes.option_map snd found in
    let retry := live_record attempts (u_pr r) (u_head r) now in
    let notBefore := not_before daemon retry arrival existing in
    let old k := match existing with Some w => get w k | None => VUndef end in
    let arrived := match arrival with Some a => get a "queueArrivedAt" | None => VUndef end in
    let! pr := lift (normalizeHolderPr (u_pr r) "pr") in
    let! pid := lift (normalizeHolderPid (u_holderPid r)) in
    let! apid := (if is_nullish (u_acquisitionPid r) then ret None
                  else let! p := lift (normalizeHolderPid (u_acquisitionPid r)) in ret (Some p)) in
    let! deadline := waiter_deadline r in
    let waiter :=
      [("repo", VStr (l_repo cfg)); ("base", VStr (l_base cfg)); ("pr", VNum pr); ("head", VStr (head_text (u_head r)));
       ("waiterId", waiterId)] ++ when daemon "priority" (u_priority r) ++
      [("deployIncident", VBool (match u_prBody r with VUndef => is_true (old "deployIncident") | b => hasDeployIncidentMarker b end))] ++
      when (truthy notBefore) "notBefore" notBefore ++
      [("arrivedAt", or_else arrived (or_else (old "arrivedAt") (or_else (u_arrivedAt r) now)))] ++
      when (truthy (old "registeredAt") || has_row arrival) "registeredAt" (or_else (old "registeredAt") now) ++
      [("updatedAt", now);
       ("attempt", if is_finite (to_num (u_attempt r)) then VNum (to_num (u_attempt r)) else VInt 1);
       ("holderPid", VNum pid); ("holderHost", here)] ++
      match apid with Some p => [("acquisitionPid", VNum p)] | None => [] end ++ [("deadlineSeconds", deadline)] in
    let without_it := filter_b (fun w => negb (same_waiter waiterId w)) rows in
    let next :=
      if match retry with Some a => truthy (get a "parkedReason") | None => false end then without_it
      else match existing with
           | Some _ => map (fun w => if same_waiter waiterId w then waiter else w) rows
           | None => without_it ++ [waiter]
           end in
    let! _ := put_waiters next now in
    ret {| rg_waiter := waiter; rg_waiters := sortWaiters next |}).

Definition removeMergeLeaseWaiter (waiterId updatedAt : val) (expected : option (val * val)) : M bool :=
  if negb (truthy waiterId) then let! _ := others in let! _ := read_waiters in ret false
  else withWaiterMutationLock cfg (
    let! rows := read_waiters in
    let rest := filter_b (fun w => negb (same_waiter waiterId w)
      || match expected with
         | Some (pid, h) => negb (strict_eq (get w "acquisitionPid") pid) || negb (strict_eq (get w "holderHost") h)
         | None => false
         end) rows in
    let removed := negb (Nat.eqb (length rest) (length rows)) in
    let! _ := (if removed || Nat.ltb 0 (length rows) then let! at_ := at_or_now updatedAt in put_waiters rest at_ else ret tt) in
    ret removed).

(** ** Releasing *)

Record Fence := { f_leaseId : val; f_holderPr : val; f_holderHead : val; f_acquiredAt : val }.
Definition holderMatches (lease : option obj) (f : Fence) : bool :=
  match lease with
  | Some l => strict_eq (get l "leaseId") (f_leaseId f) && same_number (get l "holderPr") (f_holderPr f)
              && strict_eq (get l "holderHead") (f_holderHead f) && strict_eq (get l "acquiredAt") (f_acquiredAt f)
  | None => false
  end.
Definition fence_of (l : obj) : Fence :=
  {| f_leaseId := get l "leaseId"; f_holderPr := get l "holderPr"; f_holderHead := get l "holderHead"; f_acquiredAt := get l "acquiredAt" |}.

(** A wake is best effort, and so is the pruning before it. *)
Definition wakeDaemonWaiter (now : val) : M unit :=
  let! _ := try_ (
    let! p := pruneMergeLeaseWaitersUnlocked now VUndef in
    match find_b (fun w => waiterReady w now) (pr_waiters p) with
    | Some first =>
        if is_daemon first
        then modify (fun w => {| files := files w; lenv := lenv w; holder_steps := holder_steps w;
               wakes := wakes w ++ [[("prNumber", get first "pr"); ("headSha", get first "head");
                                     ("reason", VStr "daemon-merge-lease-released")]] |})
        else ret tt
    | None => ret tt
    end) in ret tt.

(** [2 ** k]. *)
Definition num_pow2 (k : num) : num :=
  match num_to_Z k with
  | Some z => if (0 <=? z)%Z then num_of_Z (2 ^ z) else num_div (num_of_Z 1) (num_of_Z (2 ^ (- z)))
  | None => NaN
  end.
Definition backoff_nominal (releases : num) : num :=
  num_min (WATCHER_POLL_INTERVAL_MS cfg)
    (num_mul (num_of_Z 1000) (num_pow2 (num_min (num_sub releases (num_of_Z 1)) (num_of_Z 20)))).
Definition bumped (v : val) : num := num_add (to_num (or_else v (VInt 0))) (num_of_Z 1).

Definition lease_head (l : obj) (r : obj) : bool :=
  strict_eq (VNum (to_num (get r "pr"))) (get l "holderPr") && strict_eq (get r "head") (get l "holderHead").
Definition closer_lease (l : obj) : bool :=
  negb (is_str (get l "holderRole") "daemon") && negb (is_str (oget (get l "waiter") "priority") "daemon").
Record Requeued := { rq_retry : obj; rq_prune : Refunded }.

Definition row_or_empty (r : option obj) : obj := match r with Some r => r | None => [] end.
(** The record of a head after one more release without a merge. *)
Definition no_merge_fields (lease old : obj) (at_ reason : val) (chargeable refund : bool) (eligible : string) : obj :=
  let consecutive := if chargeable then bumped (get old "consecutiveNoMergeReleases") else num_of_Z 0 in
  let parked := or_else (get old "parkedReason")
                  (if num_leb (parseMaxGateAttempts (env_max_attempts cfg)) consecutive
                   then VStr "repeated-no-merge-release" else VNull) in
  [("pr", get lease "holderPr"); ("head", get lease "holderHead")] ++
  (if refund
   then [("attempts", VNum (num_max (num_of_Z 0) (num_sub (num_or_zero (get old "attempts")) (num_of_Z 1))));
         ("retryable", VNum (num_add (num_or_zero (get old "retryable")) (num_of_Z 1)))] else []) ++
  [("noMergeLeaseId", get lease "leaseId"); ("noMergeReleases", VNum (bumped (get old "noMergeReleases")));
   ("consecutiveNoMergeReleases", VNum consecutive); ("noMergeReason", reason); ("parkedReason", parked);
   ("reenteredAt", at_); ("nextEligibleAt", VStr eligible); ("lastAttemptAt", at_)].
Definition no_merge_record (lease : obj) (previous : option obj) (at_ reason : val) (chargeable refund : bool) (backoffMs : num)
  : result obj :=
  let old := row_or_empty previous in
  let* eligible := date_to_iso (num_add (dparse at_) backoffMs) in
  normalizeAttemptRecord (spread old (no_merge_fields lease old at_ reason chargeable (refund && has_row previous) eligible)) at_.
(** What it remembers of the arrival of a closer. *)
Definition with_arrival (lease next : obj) (previous arrival : option (nat * obj)) : result obj :=
  let parked := truthy (get next "parkedReason") in
  if closer_lease lease && negb parked then
    let* t := date_to_iso (num_add (dparse (get next "nextEligibleAt")) (WATCHER_POLL_INTERVAL_MS cfg)) in
    let since := or_else (oget (get lease "waiter") "arrivedAt")
                   (or_else (match arrival with Some (_, a) => get a "queueArrivedAt" | None => VUndef end) (get lease "acquiredAt")) in
    Ok (spread next [("queueArrivedAt", since); ("queueArrivalExpiresAt", VStr t)])
  else
    match arrival, previous with
    | Some (i, _), Some (j, p) =>
        if negb parked && Nat.eqb i j then let* t := closerArrivalExpiry cfg p in Ok (spread next [("queueArrivalExpiresAt", t)])
        else Ok (withoutCloserArrival next)
    | _, _ => Ok (withoutCloserArrival next)
    end.
Definition find_row (p : obj -> bool) (rows : list obj) : option (nat * obj) :=
  match find_index p rows with
  | Some i => match find_b p rows with Some r => Some (i, r) | None => None end
  | None => None
  end.
Definition no_refund : Refunded := {| rf_removed := false; rf_attempts := [] |}.
Definition new_charge (lease : obj) (rows : list obj) (previous : option (nat * obj)) (at_ reason : val) (chargeable refund : bool)
  : M (option obj * Refunded) :=
  let old := Datatypes.option_map snd previous in
  let! backoffMs := scaled_ms (backoff_nominal (bumped (get (row_or_empty old) "noMergeReleases"))) in
  let! arrival := lift (closerArrival cfg rows (get lease "holderPr") at_) in
  let! record := lift (no_merge_record lease old at_ reason chargeable refund backoffMs) in
  let! next := lift (with_arrival lease record previous arrival) in
  let kept := if closer_lease lease || truthy (get next "parkedReason")
              then clearCloserArrivals rows (get lease "holderPr") else rows in
  let attempts := sortedAttempts (filter_b (fun r => negb (lease_head lease r)) kept ++ [next]) in
  let! _ := write_attempts attempts at_ in
  ret (Some next, {| rf_removed := refund && has_row old; rf_attempts := attempts |}).
Definition charge_release (lease : obj) (at_ reason : val) (chargeable refund : bool) : M (option obj * Refunded) :=
  withAttemptMutationLockOnly cfg (
    let! doc := readAttemptDoc in
    let rows := doc_rows doc in
    let previous := find_row (fun r => lease_head lease r && negb (attemptExpired r at_)) rows in
    let old := Datatypes.option_map snd previous in
    if strict_eq (get (row_or_empty old) "noMergeLeaseId") (get lease "leaseId") then ret (old, no_refund)
    else new_charge lease rows previous at_ reason chargeable refund).
Definition recordNoMergeRelease (lease : obj) (at_ reason : val) (chargeable refund : bool) : M Requeued :=
  let! charged := charge_release lease at_ reason chargeable refund in
  let! rows := read_waiters in
  let rest := filter_b (fun w => negb (lease_head lease w)) rows in
  match fst charged with
  | None => throw (TypeError "Cannot read properties of undefined (reading 'parkedReason')")
  | Some retry =>
      let parked := truthy (get retry "parkedReason") in
      let next :=
        if negb parked && is_str (oget (get lease "waiter") "priority") "daemon"
        then rest ++ [spread (match get lease "waiter" with VObj o => o | _ => [] end)
                        [("arrivedAt", at_); ("updatedAt", at_); ("attempt", VInt 1); ("notBefore", get retry "nextEligibleAt")]]
        else rest in
      let! _ := put_waiters next at_ in
      let! _ := appendLeaseHistory lease (if parked then "park" else "requeue") at_
                  (VStr ("re-queued after no-merge release: " +:+ to_str reason)) in
      ret {| rq_retry := retry; rq_prune := snd charged |}
  end.

Definition RETRYABLE_MERGE_OUTCOMES : list string :=
  ["base-advanced"; "base-advanced-during-server-rebase"; "server-rebase-conflict"; "rebase-conflict";
   "retry-base-not-contained"; "lane-busy"; "lease-contention"; "merge-lease-timeout"].
Record ReleaseRequest := {
  r_fence : Fence; r_now : val; r_event : string; r_reason : string; r_merged : bool; r_terminal : bool; r_yielded : bool
}.
Inductive ReleaseReply :=
| NotReleased (existing : option obj) (reason : option string)
| ReleasedLease (lease : obj) (retry : option obj) (refund : Refunded).
Definition released (r : ReleaseReply) : bool := match r with ReleasedLease _ _ _ => true | _ => false end.

Definition terminal_release (r : ReleaseRequest) : bool :=
  r_merged r || r_terminal r || str_in (r_reason r) ["holder-pr-merged"; "holder-pr-closed"].
(** A busy attempts lock keeps the lease; every other error goes on. *)
Definition keep_when_busy {A} (lease : obj) (m : M A) (k : A -> M ReleaseReply) : M ReleaseReply :=
  let! r := try_ m in
  match r with
  | Ok a => k a
  | Throw e => if isMutationLockBusyError e then ret (NotReleased (Some lease) (Some "mutation-lock-busy")) else throw e
  end.
Definition arrival_rows (lease : obj) (rows : list obj) : bool :=
  some_b (fun r => strict_eq (VNum (to_num (get r "pr"))) (get lease "holderPr") && truthy (get r "queueArrivedAt")) rows.
Definition forget_arrivals (lease : obj) (at_ : val) : M unit :=
  withAttemptMutationLockOnly cfg (
    let! doc := readAttemptDoc in write_attempts (clearCloserArrivals (doc_rows doc) (get lease "holderPr")) at_).
Definition drop_holder (lease : obj) (event : string) (at_ reason now : val) (retry : option obj) (refund : Refunded) : M ReleaseReply :=
  let! _ := appendLeaseHistory lease event at_ reason in
  let! _ := remove_holder in
  let! woken := at_or_now now in
  let! _ := wakeDaemonWaiter woken in
  ret (ReleasedLease lease retry refund).
(** Under the lock, the lease read again against the fence. *)
Definition fenced {A} (f : Fence) (refused : option obj -> A) (body : obj -> M A) : M A :=
  let! lease := read_holder in
  match lease with
  | Some l => if holderMatches (Some l) f then body l else ret (refused (Some l))
  | None => ret (refused None)
  end.
Definition not_released (l : option obj) : ReleaseReply := NotReleased l None.
(** The fence before the lock is waited for, and the answer when it is busy. *)
Definition locked_by_fence {A} (f : Fence) (refused : option obj -> A) (busy : option obj -> A) (body : obj -> M A) : M A :=
  let! _ := others in
  let! lease := read_holder in
  if negb (holderMatches lease f) then ret (refused lease)
  else
    let! r := with_lane_lock (fenced f refused body) in
    match r with
    | Some a => ret a
    | None => let! _ := others in let! l := read_holder in ret (busy l)
    end.
Definition release_busy (l : option obj) : ReleaseReply := NotReleased l (Some "mutation-lock-busy").

Definition release_body (r : ReleaseRequest) (lease : obj) : M ReleaseReply :=
  let! at_ := at_or_now (r_now r) in
  let retryable := r_yielded r || str_in (r_reason r) RETRYABLE_MERGE_OUTCOMES in
  let reason := VStr (r_reason r) in
  let! arrived := (if terminal_release r then let! doc := readAttemptDoc in ret (arrival_rows lease (doc_rows doc)) else ret false) in
  keep_when_busy lease (if arrived then forget_arrivals lease at_ else ret tt) (fun _ =>
    if String.eqb (r_event r) "release" && negb (terminal_release r)
    then keep_when_busy lease (recordNoMergeRelease lease at_ reason (negb retryable) retryable)
           (fun q => drop_holder lease (r_event r) at_ reason (r_now r) (Some (rq_retry q)) (rq_prune q))
    else drop_holder lease (r_event r) at_ reason (r_now r) None no_refund).
Definition releaseMergeLease (r : ReleaseRequest) : M ReleaseReply :=
  locked_by_fence (r_fence r) not_released release_busy (release_body r).

Definition abort_body (reason : string) (now : val) (lease : obj) : M ReleaseReply :=
  let! at_ := at_or_now now in
  keep_when_busy lease (recordNoMergeRelease lease at_ (VStr reason) false true) (fun q =>
    let! again := at_or_now now in
    drop_holder lease "release" again (VStr reason) now (Some (rq_retry q)) (rq_prune q)).
Definition releaseMergeLeaseForRetryableAbort (f : Fence) (reason : string) (now : val) : M ReleaseReply :=
  locked_by_fence f not_released release_busy (abort_body reason now).

(** ** Renewing *)

Inductive RenewReply := NotRenewed (existing : option obj) (reason : option string) | Renewed (lease previous : obj).
Definition renewed_lease (l : obj) (at_ : val) : obj :=
  spread l [("acquiredAt", at_); ("updatedAt", at_); ("previousAcquiredAt", get l "acquiredAt");
            ("grantedAt", or_else (get l "grantedAt") (get l "acquiredAt"))].
Definition renew_body (now : val) (l : obj) : M RenewReply :=
  let! at_ := at_or_now now in
  let renewed := renewed_lease l at_ in
  let! _ := appendLeaseHistory renewed "renew" at_ (VStr "holder-renewal") in
  let! _ := replace_holder renewed in
  ret (Renewed renewed l).
Definition renewMergeLease (f : Fence) (now : val) : M RenewReply :=
  locked_by_fence f (fun l => NotRenewed l None) (fun l => NotRenewed l (Some "mutation-lock-busy")) (renew_body now).

(** ** Inspecting and reclaiming *)

Record Inspection := {
  i_lease : option obj; i_age : option num; i_deadline : val; i_past : bool; i_live : option bool;
  i_waiters : list obj; i_attempts : list obj; i_at : val
}.
Definition same_host (l : obj) (here : val) : bool := strict_eq (get l "holderHost") here.
Definition lease_deadline (l : obj) : val := coalesce (get l "deadlineSeconds") (VNum (parseDeadlineSeconds (env_deadline cfg))).
Definition past_deadline (l : obj) (at_ : val) : bool :=
  match ageSecondsFrom (get l "acquiredAt") at_ with Some age => num_leb (to_num (lease_deadline l)) age | None => false end.
Definition inspectMergeLease (now hostName : val) : M Inspection :=
  let! at_ := at_or_now now in
  let! here := host_or_here hostName in
  let! _ := others in
  let! lease := read_holder in
  let! rows := read_waiters in
  let! attempts := read_attempts in
  let! e := gets lenv in
  match lease with
  | None => ret {| i_lease := None; i_age := None; i_deadline := VNum (parseDeadlineSeconds (env_deadline cfg)); i_past := false;
                   i_live := None; i_waiters := rows; i_attempts := attempts; i_at := at_ |}
  | Some l =>
      ret {| i_lease := Some l; i_age := ageSecondsFrom (get l "acquiredAt") at_; i_deadline := lease_deadline l;
             i_past := past_deadline l at_; i_live := if same_host l here then Some (pidIsLive e (get l "holderPid")) else None;
             i_waiters := rows; i_attempts := attempts; i_at := at_ |}
  end.

Record Reclaim := { rc_reclaimed : bool; rc_reason : string; rc_inspection : Inspection; rc_release : option ReleaseReply }.
Definition reclaimIfStale (now hostName : val) : M Reclaim :=
  let! i := inspectMergeLease now hostName in
  match i_lease i with
  | None => ret {| rc_reclaimed := false; rc_reason := "absent"; rc_inspection := i; rc_release := None |}
  | Some l =>
      let! here := host_or_here hostName in
      let! e := gets lenv in
      let here_ := same_host l here in
      let dead := here_ && negb (pidIsLive e (get l "holderPid")) in
      if negb dead && negb (i_past i && negb here_)
      then ret {| rc_reclaimed := false; rc_reason := "live-within-deadline"; rc_inspection := i; rc_release := None |}
      else
        let why := if dead then "dead-holder-pid" else "past-deadline" in
        let! r := releaseMergeLease {| r_fence := fence_of l; r_now := now; r_event := if dead then "steal" else "expiry";
          r_reason := why; r_merged := false; r_terminal := false; r_yielded := false |} in
        match r with
        | NotReleased _ reason =>
            ret {| rc_reclaimed := false; rc_reason := match reason with Some x => x | None => "identity-changed" end;
                   rc_inspection := i; rc_release := Some r |}
        | ReleasedLease _ _ _ => ret {| rc_reclaimed := true; rc_reason := why; rc_inspection := i; rc_release := Some r |}
        end
  end.

(** ** Acquiring *)

Record AcquireRequest := {
  a_holderPr : val; a_holderHead : val; a_holderPid : val; a_holderHost : val; a_holderProcessGroup : val;
  a_deadlineSeconds : val; a_leaseId : val; a_now : val; a_waiterId : val; a_registerWaiter : bool;
  a_waiterPriority : val; a_prBody : val; a_waiterDeadlineSeconds : val; a_acquisitionPid : val; a_attempt : val
}.
Inductive AcquireReply :=
| Acquired (lease : obj) (waiter : option obj) (pruned : list obj) (reclaim : option Reclaim)
| NotReady (parked : bool) (reason : val) (retry : obj) (waiter : option obj)
| Held (lease : obj) (waiter : option obj) (reclaim : Reclaim) (position : option nat)
| Queued (waiter : option obj) (waiters : list obj) (position : option nat) (pruned : list obj)
| Beaten (lease : option obj) (waiter : option obj) (position : option nat).
Definition acquired (r : AcquireReply) : bool := match r with Acquired _ _ _ _ => true | _ => false end.

Definition waiter_request (r : AcquireRequest) (at_ : val) : WaiterRequest := {|
  u_pr := a_holderPr r; u_head := a_holderHead r; u_holderPid := a_holderPid r; u_holderHost := a_holderHost r;
  u_acquisitionPid := a_acquisitionPid r; u_deadlineSeconds := a_deadlineSeconds r; u_waiterId := a_waiterId r;
  u_arrivedAt := at_; u_updatedAt := at_; u_attempt := a_attempt r; u_priority := a_waiterPriority r; u_prBody := a_prBody r;
  u_effectiveDeadline := a_waiterDeadlineSeconds r |}.
Definition new_lease (r : AcquireRequest) (id : val) (pr pid deadline : num) (here at_ : val) (waiter : option obj) : obj :=
  [("schemaVersion", LEASE_SCHEMA_VERSION); ("repo", VStr (l_repo cfg)); ("base", VStr (l_base cfg)); ("leaseId", id);
   ("holderPr", VNum pr); ("holderHead", VStr (head_text (a_holderHead r)));
   ("holderRole", VStr (if is_str (a_waiterPriority r) "daemon" then "daemon" else "closer"))] ++
  match waiter with Some w => [("waiter", VObj w)] | None => [] end ++
  [("holderPid", VNum pid); ("holderHost", here)] ++
  when (negb (is_nullish (a_holderProcessGroup r))) "holderProcessGroup" (VNum (to_num (a_holderProcessGroup r))) ++
  [("acquiredAt", at_); ("deadlineSeconds", VNum deadline); ("updatedAt", at_)].
Definition make_lease (r : AcquireRequest) (at_ : val) (waiter : option obj) : M obj :=
  let! id := (if truthy (a_leaseId r) then ret (a_leaseId r) else let! u := of_env new_uuid in ret (VStr ("ml_" +:+ u))) in
  let! pr := lift (normalizeHolderPr (a_holderPr r) "holderPr") in
  let! pid := lift (normalizeHolderPid (a_holderPid r)) in
  let! here := host_or_here (a_holderHost r) in
  let! deadline := scaled_seconds (parseDeadlineSeconds (coalesce (a_deadlineSeconds r) (env_deadline cfg))) in
  ret (new_lease r id pr pid deadline here at_ waiter).

Definition waiter_id (w : option obj) : val := match w with Some w => get w "waiterId" | None => VUndef end.
(** The date of a record is still to come. *)
Definition backs_off (r : option obj) (at_ : val) : bool :=
  match r with Some r => num_ltb (dparse at_) (dparse (get r "nextEligibleAt")) | None => num_ltb (dparse at_) (dparse VUndef) end.
Definition parked_row (r : option obj) : bool := match r with Some r => truthy (get r "parkedReason") | None => false end.

(** The lease was created: its grant goes to the history and its waiter leaves the
    queue, or the lease is taken back. *)
Definition settle_grant (lease : obj) (at_ reason : val) (waiter : option obj) (rows : list obj) : M unit :=
  let! granted := try_ (appendLeaseHistory lease "grant" at_ reason) in
  match granted with
  | Throw e => let! _ := remove_holder in throw e
  | Ok _ =>
      if truthy (waiter_id waiter) then
        let! served := try_ (put_waiters (filter_b (fun w => negb (same_waiter (waiter_id waiter) w)) rows) at_) in
        match served with
        | Ok _ => ret tt
        | Throw e =>
            let! _ := appendLeaseHistory lease "release" at_ (VStr "waiter-removal-failed") in
            let! _ := remove_holder in throw e
        end
      else ret tt
  end.
Definition grant_reason (reclaim : option Reclaim) : val :=
  VStr (match reclaim with Some c => if rc_reclaimed c then "reclaimed:" +:+ rc_reason c else "queue-grant" | None => "queue-grant" end).
(** Under the lock: the place in the queue, the retry state, the exclusive creation. *)
Definition admit_request (r : AcquireRequest) (at_ : val) (waiter : option obj) (reclaim : option Reclaim) : M AcquireReply :=
  let! p := pruneMergeLeaseWaitersUnlocked at_ (a_holderHost r) in
  let! attempts := read_attempts in
  let! found := lift (if is_str (a_waiterPriority r) "daemon" then Ok None else closerArrival cfg attempts (a_holderPr r) at_) in
  let arrival := Datatypes.option_map snd found in
  let retry := live_record attempts (a_holderPr r) (a_holderHead r) at_ in
  if parked_row retry || backs_off retry at_ || backs_off arrival at_
  then ret (NotReady (parked_row retry) (if parked_row retry then get (row_or_empty retry) "parkedReason" else VStr "no-merge-backoff")
              (row_or_empty (match retry with Some x => Some x | None => arrival end)) waiter)
  else
    let rows := pr_waiters p in
    let ready := filter_b (fun w => waiterReady w at_) rows in
    let first := match ready with w :: _ => get w "waiterId" | [] => VUndef end in
    if Nat.ltb 0 (length ready) && negb (truthy (waiter_id waiter)) then ret (Queued None rows None (pr_pruned p))
    else if Nat.ltb 0 (length ready) && negb (strict_eq first (waiter_id waiter))
    then ret (Queued waiter rows (waiterQueuePosition rows waiter at_) (pr_pruned p))
    else
      let! lease := make_lease r at_ waiter in
      let! created := create_holder lease in
      if created then
        let! _ := settle_grant lease at_ (grant_reason reclaim) waiter rows in
        ret (Acquired lease waiter (pr_pruned p) reclaim)
      else
        let! beat := read_holder in
        ret (Beaten beat waiter (waiterQueuePosition rows waiter at_)).

Definition acquireMergeLease (r : AcquireRequest) : M AcquireReply :=
  let! at_ := at_or_now (a_now r) in
  let! _ := others in
  let! attempts := read_attempts in
  let prior := live_record attempts (a_holderPr r) (a_holderHead r) at_ in
  if parked_row prior
  then ret (NotReady true (get (row_or_empty prior) "parkedReason") (row_or_empty prior) None)
  else
    let! waiter := (if a_registerWaiter r
                    then let! g := upsertMergeLeaseWaiter (waiter_request r at_) in ret (Some (rg_waiter g)) else ret None) in
    let! _ := others in
    let! existing := read_holder in
    match existing with
    | None => withWaiterMutationLock cfg (admit_request r at_ waiter None)
    | Some l =>
        let! c := reclaimIfStale at_ (a_holderHost r) in
        if rc_reclaimed c then withWaiterMutationLock cfg (admit_request r at_ waiter (Some c))
        else
          let! p := withWaiterMutationLock cfg (pruneMergeLeaseWaitersUnlocked at_ (a_holderHost r)) in
          ret (Held l waiter c (waiterQueuePosition (pr_waiters p) waiter at_))
    end.

Definition daemonMergeWaiterId (pr head : val) : result val :=
  let* n := normalizeHolderPr pr "pr" in Ok (VStr ("daemon_" +:+ num_to_string n +:+ "_" +:+ to_str head)).
Definition acquireDaemonMergeLease (r : AcquireRequest) (pollIntervalMs : val) : M AcquireReply :=
  let! deadline := daemonMergeReservationSeconds
    (match pollIntervalMs with VUndef => WATCHER_POLL_INTERVAL_MS cfg | v => to_num v end) in
  let! id := lift (daemonMergeWaiterId (a_holderPr r) (a_holderHead r)) in
  acquireMergeLease {|
    a_holderPr := a_holderPr r; a_holderHead := a_holderHead r; a_holderPid := a_holderPid r; a_holderHost := a_holderHost r;
    a_holderProcessGroup := a_holderProcessGroup r; a_deadlineSeconds := a_deadlineSeconds r; a_leaseId := a_leaseId r;
    a_now := a_now r; a_waiterId := id; a_registerWaiter := true; a_waiterPriority := VStr "daemon"; a_prBody := a_prBody r;
    a_waiterDeadlineSeconds := VNum deadline; a_acquisitionPid := a_acquisitionPid r; a_attempt := a_attempt r |}.

(** ** The reservation of a daemon, and the reconciliation of a lane *)

(** An awaited call: the files may change meanwhile. *)
Definition Awaited (A : Type) : Type := LaneFiles -> E -> result A * LaneFiles * E.
Definition await {A} (x : Awaited A) : M A :=
  fun w => let '(r, f, e) := x (files w) (lenv w) in
           (r, {| files := f; lenv := e; holder_steps := holder_steps w; wakes := wakes w |}).
Definition obsolete (pr : val) (keepHead : val) (w : obj) : bool :=
  is_daemon w && same_number (get w "pr") pr && negb (strict_eq (get w "head") keepHead).
Definition prune_reservations (pr keepHead : val) : M unit :=
  let! _ := others in
  let! rows := read_waiters in
  if some_b (obsolete pr keepHead) rows
  then withWaiterMutationLock cfg (
    let! rows := read_waiters in
    let! at_ := of_env iso_now in
    put_waiters (filter_b (fun w => negb (obsolete pr keepHead w)) rows) (VStr at_))
  else ret tt.
Definition keeps_reservation (res : val) : bool :=
  let closure := or_else (oget res "amaClosureResult") res in
  let reason := or_else (oget (oget closure "daemonCleanMerge") "reason") (oget closure "reason") in
  is_str reason "lease-contended" || is_str reason "no-merge-backoff"
  || (truthy (oget closure "leaseAcquired") && is_false (oget closure "merged") && negb (truthy (oget closure "permanent"))
      && negb (is_str (oget closure "disposition") "not-taken")).
Definition withDaemonMergeReservation (pr head : val) (isAttemptActive : E -> bool) (attempt : Awaited val) : M val :=
  if negb (truthy pr) || negb (truthy head) then await attempt
  else
    let! _ := prune_reservations pr head in
    let! r := try_ (await attempt) in
    let! e := gets lenv in
    let res := match r with Ok v => v | Throw _ => VUndef end in
    let! _ := prune_reservations pr (if keeps_reservation res || isAttemptActive e then head else VNull) in
    lift r.

Inductive PruneReply := Pruning (r : Refunded) | PruneSkipped (error : string).
Record Reconciled := {
  rl_reconciled : bool; rl_released : bool; rl_reason : string; rl_state : option string; rl_inspection : Inspection;
  rl_reclaim : option Reclaim; rl_release : option ReleaseReply; rl_prune : option PruneReply
}.
(** [ghPrState] answers the state of the pull request in upper case. *)
Definition reconcileMergeLeases (ghPrState : val -> Awaited string) (now hostName : val) : M Reconciled :=
  let! i := inspectMergeLease now hostName in
  match i_lease i with
  | None => ret {| rl_reconciled := true; rl_released := false; rl_reason := "absent"; rl_state := None; rl_inspection := i;
                   rl_reclaim := None; rl_release := None; rl_prune := None |}
  | Some l =>
      let! stale := reclaimIfStale now hostName in
      let reply ok done_ reason := {| rl_reconciled := ok; rl_released := done_; rl_reason := reason; rl_state := None;
        rl_inspection := i; rl_reclaim := Some stale; rl_release := None; rl_prune := None |} in
      if rc_reclaimed stale then ret (reply true true (rc_reason stale))
      else if str_in (rc_reason stale) ["identity-changed"; "mutation-lock-busy"] then ret (reply false false (rc_reason stale))
      else
        let! state := await (ghPrState (get l "holderPr")) in
        let answer ok reason rel pr := {| rl_reconciled := ok; rl_released := match rel with Some x => released x | None => false end;
          rl_reason := reason; rl_state := Some state; rl_inspection := i; rl_reclaim := None; rl_release := rel; rl_prune := pr |} in
        if negb (str_in state ["MERGED"; "CLOSED"]) then ret (answer true "holder-pr-open" None None)
        else
          let why := "holder-pr-" +:+ to_lower state in
          let! rel := releaseMergeLease {| r_fence := fence_of l; r_now := now; r_event := "release"; r_reason := why;
            r_merged := false; r_terminal := false; r_yielded := false |} in
          match rel with
          | NotReleased _ reason =>
              ret (answer false (match reason with Some x => x | None => "identity-changed" end) (Some rel) None)
          | ReleasedLease _ _ _ =>
              let! pruned := try_ (withAttemptMutationLock cfg (
                let! at_ := at_or_now now in removeAttemptRecordsUnlocked (get l "holderPr") (get l "holderHead") at_)) in
              match pruned with
              | Ok p => ret (answer true why (Some rel) (Some (Pruning p)))
              | Throw e =>
                  if isMutationLockBusyError e then ret (answer true why (Some rel) (Some (PruneSkipped (error_message e))))
                  else throw e
              end
          end
  end.
End Lease.
