(* ===== verification/LeaseSafety.v ===== *)
(** * What the merge lease guarantees

    A process changes the holder of a lane in three ways only: it creates a lease
    when there is none and it is first in line, it replaces or removes the lease its
    fence names, and it takes a stale lease away. The steps of a process are in its
    log; what the other processes do to the files meanwhile is arbitrary. *)

From Stdlib Require Import ZArith Lia Ascii SpecFloat Sorted.
From stdpp Require Import base list strings.
From S2P Require Import Prelude JsState JsNum JsMath JsValue JsDate LedgerEvents LedgerStore QueueLane QueueStore LoadAware.
From S2P Require Import LeaseFiles MergeLease.

(** ** What the operations do to the holder *)

Section Facts.
Context {hostDate : HostDate} {host : Host} {collation : Collation}.
Context {E : Type} {laneEnv : LaneEnv E}.
Variable cfg : LaneConfig.
Abbreviation World := (LaneWorld E).

(** Nothing done to the holder by this process; nor, under the lock, by any other. *)
Definition untouched (w w' : World) : Prop := holder_steps w' = holder_steps w.
Definition still (w w' : World) : Prop := holder_steps w' = holder_steps w /\ holder (files w') = holder (files w).
#[export] Instance untouched_preorder : PreOrder untouched.
Proof. split; [by intros w | intros a b c; unfold untouched; congruence]. Qed.
#[export] Instance still_preorder : PreOrder still.
Proof. split; [by intros w | intros a b c [H1 H2] [H3 H4]; split; congruence]. Qed.
#[export] Instance still_untouched {A} (m : ST World A) : Keeps still m -> Keeps untouched m | 9.
Proof. intros H w. by destruct (H w). Qed.

#[export] Instance of_env_still {A} (f : E -> A * E) : Keeps still (of_env f).
Proof. intros w. unfold of_env. by destruct (f (lenv w)). Qed.
#[export] Instance gets_still {A} (f : World -> A) : Keeps still (gets f).
Proof. done. Qed.
#[export] Instance ret_still {A} (a : A) : Keeps still (ret (S := World) a).
Proof. done. Qed.
#[export] Instance throw_still {A} e : Keeps still (throw (S := World) (A := A) e).
Proof. done. Qed.
#[export] Instance lift_still {A} (r : result A) : Keeps still (lift (S := World) r).
Proof. done. Qed.
#[export] Instance at_or_now_still v : Keeps still (at_or_now v).
Proof. unfold at_or_now. keeps. Qed.
#[export] Instance host_or_here_still v : Keeps still (host_or_here v).
Proof. unfold host_or_here. keeps. Qed.
#[export] Instance read_holder_still : Keeps still (read_holder (E := E)).
Proof. unfold read_holder. keeps. Qed.
#[export] Instance readWaiterDoc_still : Keeps still (readWaiterDoc (E := E)).
Proof. unfold readWaiterDoc. keeps. Qed.
#[export] Instance readAttemptDoc_still : Keeps still (readAttemptDoc (E := E)).
Proof. unfold readAttemptDoc. keeps. Qed.
#[export] Instance read_waiters_still : Keeps still (read_waiters (E := E)).
Proof. unfold read_waiters. keeps. Qed.
#[export] Instance read_attempts_still : Keeps still (read_attempts (E := E)).
Proof. unfold read_attempts. keeps. Qed.
Lemma write_still name f : (forall l, holder (f l) = holder l) -> Keeps still (write (E := E) name f).
Proof.
  intros Hf. unfold write. apply keeps_bind; [apply _ | apply _ |]. intros [e|]; [apply _|]. intros w. split; [done|]. simpl. apply Hf.
Qed.
#[export] Instance write_waiters_still rows at_ : Keeps still (write_waiters (E := E) rows at_).
Proof. by apply write_still. Qed.
#[export] Instance write_attempts_still rows at_ : Keeps still (write_attempts (E := E) rows at_).
Proof. by apply write_still. Qed.
#[export] Instance put_waiters_still rows at_ : Keeps still (put_waiters (E := E) rows at_).
Proof. unfold put_waiters. apply _. Qed.
#[export] Instance append_history_still l e a r : Keeps still (appendLeaseHistory (E := E) l e a r).
Proof. unfold appendLeaseHistory, readMergeLeaseHistory. keeps; by apply write_still. Qed.
#[export] Instance scaled_seconds_still b : Keeps still (scaled_seconds b).
Proof. unfold scaled_seconds. keeps. Qed.
#[export] Instance scaled_ms_still b : Keeps still (scaled_ms b).
Proof. unfold scaled_ms. keeps. Qed.
#[export] Instance prune_still n h : Keeps still (pruneMergeLeaseWaitersUnlocked n h).
Proof. unfold pruneMergeLeaseWaitersUnlocked. keeps. Qed.
#[export] Instance attempts_lock_still {A} (m : ST World A) : Keeps still m -> Keeps still (withAttemptMutationLockOnly cfg m).
Proof. intros Hm. unfold withAttemptMutationLockOnly. keeps. Qed.
#[export] Instance wake_still n : Keeps still (wakeDaemonWaiter n).
Proof. unfold wakeDaemonWaiter. keeps. by intros w. Qed.
#[export] Instance charge_still l a r c f : Keeps still (charge_release cfg l a r c f).
Proof. unfold charge_release, new_charge. apply attempts_lock_still. keeps. Qed.
#[export] Instance no_merge_still l a r c f : Keeps still (recordNoMergeRelease cfg l a r c f).
Proof. unfold recordNoMergeRelease. keeps. Qed.
#[export] Instance forget_still l a : Keeps still (forget_arrivals cfg l a).
Proof. unfold forget_arrivals. apply attempts_lock_still. keeps. Qed.
#[export] Instance make_lease_still r a wt : Keeps still (make_lease cfg r a wt).
Proof. unfold make_lease. keeps. Qed.
#[export] Instance remove_attempts_still p h n : Keeps still (removeAttemptRecordsUnlocked p h n).
Proof. unfold removeAttemptRecordsUnlocked. keeps. Qed.

#[export] Instance others_untouched : Keeps untouched (others (E := E)).
Proof. intros w. unfold others. by destruct (others_act _ _). Qed.
#[export] Instance lane_lock_untouched {A} (m : ST World A) : Keeps untouched m -> Keeps untouched (with_lane_lock m).
Proof.
  intros Hm w. unfold with_lane_lock. destruct (lane_lock _ _) as [[got f] e]. destruct got as [[]|]; try done.
  set (w1 := {| files := f |}). specialize (Hm w1). destruct (m w1). done.
Qed.
#[export] Instance waiter_lock_untouched {A} (m : ST World A) : Keeps untouched m -> Keeps untouched (withWaiterMutationLock cfg m).
Proof. intros Hm. unfold withWaiterMutationLock. keeps. Qed.
#[export] Instance await_untouched {A} (x : Awaited A) : Keeps untouched (await x).
Proof. intros w. unfold await. by destruct (x _ _) as [[r f] e]. Qed.
#[export] Instance inspect_untouched n h : Keeps untouched (inspectMergeLease cfg n h).
Proof. unfold inspectMergeLease. keeps. Qed.
#[export] Instance upsert_untouched r : Keeps untouched (upsertMergeLeaseWaiter cfg r).
Proof. unfold upsertMergeLeaseWaiter, waiter_deadline, daemonMergeReservationSeconds. keeps; apply waiter_lock_untouched; keeps. Qed.

(** ** Fenced operations *)

Lemma read_holder_Ok (w : World) l w' :
  read_holder w = (Ok l, w') -> w' = w /\ holder (files w) = match l with Some l => Present l | None => Absent end.
Proof.
  unfold read_holder, bind, gets, lift, read_file. destruct (holder (files w)); intros [= <- <-]; done.
Qed.
Lemma locked_by_fence_inv {A} f (refused busy : option obj -> A) (body : obj -> ST World A) (w : World) r w' :
  locked_by_fence f refused busy body w = (r, w') ->
  (untouched w w' /\ forall a, r = Ok a -> exists l, a = refused l \/ a = busy l)
  \/ exists l w1, holderMatches (Some l) f = true /\ holder (files w1) = Present l /\ untouched w w1 /\ body l w1 = (r, w').
Proof.
  unfold locked_by_fence. intros [([] & wa & Ha & H)|(e & He & ->)]%seq_inv.
  2: { left. split; [|done]. eapply keeps_result; [|exact He]. apply _. }
  eapply (keeps_result untouched) in Ha; [|apply _]. apply seq_inv in H as [(l0 & wb & Hb & H)|(e & He & ->)].
  2: { left. split; [|done]. transitivity wa; [done|]. eapply keeps_result; [|exact He]. apply _. }
  apply read_holder_Ok in Hb as [-> _]. destruct (negb _).
  { injection H as <- <-. left. split; [done|]. intros a [= <-]. eauto. }
  apply seq_inv in H as [(r0 & wc & Hc & H)|(e & He & ->)]; unfold with_lane_lock in *.
  - destruct (lane_lock (lenv wa) (files wa)) as [[[[]|err] fl] en]; [| |done].
    + set (w1 := {| files := fl |}) in Hc. destruct (fenced f refused body w1) as [[x|err] w2] eqn:Ef; [|done].
      injection Hc as <- <-. injection H as <- <-. unfold fenced in Ef. apply seq_Ok in Ef as (l1 & w3 & H3 & Ef).
      apply read_holder_Ok in H3 as [-> Hl]. destruct l1 as [l1|].
      * destruct (holderMatches (Some l1) f) eqn:Em.
        -- right. exists l1, w1. split; [done|]. split; [done|]. split; [|done]. unfold untouched in *. by rewrite <- Ha.
        -- injection Ef as <- <-. left. split; [by unfold untouched in *; rewrite <- Ha|]. intros a [= <-]. eauto.
      * injection Ef as <- <-. left. split; [by unfold untouched in *; rewrite <- Ha|]. intros a [= <-]. eauto.
    + injection Hc as <- <-. left. assert (Hu : untouched wa w').
      { set (w1 := {| files := fl |}) in H. transitivity w1; [done|]. eapply (keeps_result untouched); [|exact H]. keeps. }
      split; [by transitivity wa|]. intros a ->. apply seq_Ok in H as ([] & w3 & _ & H). apply seq_Ok in H as (l2 & w4 & _ & H).
      injection H as <- _. eauto.
  - destruct (lane_lock (lenv wa) (files wa)) as [[[[]|err] fl] en]; [|done|].
    + set (w1 := {| files := fl |}) in He. destruct (fenced f refused body w1) as [[x|err] w2] eqn:Ef; [done|].
      injection He as <- <-. unfold fenced in Ef. apply seq_inv in Ef as [(l1 & w3 & H3 & Ef)|(e' & He' & [= <-])].
      * apply read_holder_Ok in H3 as [-> Hl]. destruct l1 as [l1|]; [|done]. destruct (holderMatches (Some l1) f) eqn:Em; [|done].
        right. exists l1, w1. split; [done|]. split; [done|]. split; [|done]. unfold untouched in *. by rewrite <- Ha.
      * left. split; [|done]. transitivity w1; [by unfold untouched in *; rewrite <- Ha|]. eapply keeps_result; [|exact He']. apply _.
    + injection He as <- <-. left. split; [by unfold untouched in *; rewrite <- Ha|]. done.
Qed.

(** The lease was let go of, or nothing was done to the holder. *)
Definition dropped (l : obj) (w : World) (res : result ReleaseReply) (w' : World) : Prop :=
  match res with
  | Ok (ReleasedLease l' _ _) => l' = l /\ holder_steps w' = holder_steps w ++ [Removed l] /\ holder (files w') = Absent
  | _ => still w w'
  end.
Lemma dropped_step {A} l (m : ST World A) (f : A -> ST World ReleaseReply) (w0 w : World) :
  Keeps still m -> still w0 w -> (forall a w1, still w0 w1 -> wp (f a) (dropped l w0) w1) -> wp (bind m f) (dropped l w0) w.
Proof.
  intros Hm H0 Hf. apply st_bind, st_intro. intros r w1 Hr. assert (still w0 w1) by (transitivity w; [done | by eapply keeps_result]).
  destruct r; [by apply Hf | done].
Qed.
Lemma dropped_busy {A} l (m : ST World A) (k : A -> ST World ReleaseReply) (w0 w : World) :
  Keeps still m -> still w0 w -> (forall a w1, still w0 w1 -> wp (k a) (dropped l w0) w1) -> wp (keep_when_busy l m k) (dropped l w0) w.
Proof.
  intros Hm H0 Hf. unfold keep_when_busy. apply dropped_step; [by apply keeps_try | done |]. intros [a|e] w1 H1; [by apply Hf|].
  by destruct (isMutationLockBusyError e).
Qed.
Lemma drop_holder_drops l ev a r n t f (w0 w : World) :
  still w0 w -> holder (files w0) = Present l -> wp (drop_holder l ev a r n t f) (dropped l w0) w.
Proof.
  intros H0 Hl. unfold drop_holder. apply dropped_step; [apply _ | done |]. intros [] w1 [H1 H2].
  apply st_bind, st_intro. intros r1 w2 Hr. unfold remove_holder, bind, gets, modify, log_step in Hr. rewrite H2, Hl in Hr.
  simpl in Hr. injection Hr as <- <-. set (w2 := {| files := _ |}).
  assert (Hk : Keeps still (let! woken := at_or_now n in let! _ := wakeDaemonWaiter woken in ret (ReleasedLease l t f))) by keeps.
  apply st_intro. intros r2 w3 H3. pose proof (keeps_result still _ _ _ _ Hk H3) as [S1 S2].
  apply seq_inv in H3 as [(wn & w4 & _ & H3)|(e & He & ->)].
  - apply seq_inv in H3 as [([] & w5 & _ & [= <- <-])|(e & He & ->)].
    + simpl. rewrite S1, S2. simpl. by rewrite H1.
    + exfalso. unfold wakeDaemonWaiter in He. apply seq_inv in He as [(x & w6 & _ & [=])|(e' & He & _)]. by apply try_returns in He.
  - exfalso. unfold at_or_now in He. destruct (truthy n); [done|]. unfold bind, of_env in He. by destruct (iso_now _).
Qed.
Lemma release_body_drops r l (w : World) : holder (files w) = Present l -> wp (release_body cfg r l) (dropped l w) w.
Proof.
  intros Hl. unfold release_body. apply dropped_step; [apply _ | done |]. intros at_ w1 H1.
  apply dropped_step; [keeps | done |]. intros arrived w2 H2. apply dropped_busy; [keeps | done |]. intros [] w3 H3.
  destruct (_ && _); [|by apply drop_holder_drops]. apply dropped_busy; [apply _ | done |]. intros q w4 H4. by apply drop_holder_drops.
Qed.
Lemma abort_body_drops reason now l (w : World) : holder (files w) = Present l -> wp (abort_body cfg reason now l) (dropped l w) w.
Proof.
  intros Hl. unfold abort_body. apply dropped_step; [apply _ | done |]. intros at_ w1 H1.
  apply dropped_busy; [apply _ | done |]. intros q w2 H2. apply dropped_step; [apply _ | done |]. intros again w3 H3. by apply drop_holder_drops.
Qed.

(** What a fenced release did: it let go of the lease the fence names, or of none. *)
Definition let_go (f : Fence) (w : World) (res : result ReleaseReply) (w' : World) : Prop :=
  match res with
  | Ok (ReleasedLease l _ _) =>
      holderMatches (Some l) f = true /\ holder_steps w' = holder_steps w ++ [Removed l] /\ holder (files w') = Absent
  | _ => untouched w w'
  end.
Lemma fenced_drop f body (w : World) res w' :
  (forall l w1, holder (files w1) = Present l -> wp (body l) (dropped l w1) w1) ->
  locked_by_fence f not_released release_busy body w = (res, w') -> let_go f w res w'.
Proof.
  intros Hb [[Hu Ha]|(l & w1 & Hm & Hl & Hu & Hr)]%locked_by_fence_inv.
  - destruct res as [a|e]; [|done]. destruct (Ha a eq_refl) as [l [->| ->]]; done.
  - pose proof (st_run _ _ _ _ _ (Hb l w1 Hl) Hr) as Hd. unfold let_go. destruct res as [[ex why|l' t rf]|e]; simpl in Hd.
    + destruct Hd. unfold untouched in *. congruence.
    + destruct Hd as (-> & Hs & Hf). split; [done|]. split; [|done]. by rewrite Hs, Hu.
    + destruct Hd. unfold untouched in *. congruence.
Qed.
Lemma release_lets_go r (w : World) res w' : releaseMergeLease cfg r w = (res, w') -> let_go (r_fence r) w res w'.
Proof. apply fenced_drop. intros. by apply release_body_drops. Qed.

Definition renewed_under (f : Fence) (w : World) (res : result RenewReply) (w' : World) : Prop :=
  match res with
  | Ok (Renewed new old) =>
      holderMatches (Some old) f = true /\ holder_steps w' = holder_steps w ++ [Replaced old (norm_fields new)]
      /\ holder (files w') = Present (norm_fields new)
      /\ (forall k, k <> "acquiredAt" -> k <> "updatedAt" -> k <> "previousAcquiredAt" -> k <> "grantedAt" -> get new k = get old k)
  | _ => untouched w w'
  end.
Lemma renew_body_renews now l (w : World) res w' :
  holder (files w) = Present l -> renew_body now l w = (res, w') ->
  match res with
  | Ok (Renewed new old) => exists at_, old = l /\ new = renewed_lease l at_ /\ holder (files w') = Present (norm_fields new)
                       /\ holder_steps w' = holder_steps w ++ [Replaced l (norm_fields new)]
  | _ => untouched w w'
  end.
Proof.
  intros Hl H. unfold renew_body in H. apply seq_inv in H as [(at_ & w1 & H1 & H)|(e & He & ->)].
  2: { eapply keeps_result; [|exact He]. apply _. }
  apply (keeps_result still) in H1 as [S1 F1]; [|apply _].
  apply seq_inv in H as [([] & w2 & H2 & H)|(e & He & ->)].
  2: { transitivity w1; [done|]. eapply keeps_result; [|exact He]. apply _. }
  apply (keeps_result still) in H2 as [S2 F2]; [|apply _]. unfold replace_holder in H.
  apply seq_inv in H as [([] & w3 & H3 & [= <- <-])|(e & He & ->)].
  - apply seq_inv in H3 as [(f & w4 & [= <- <-] & H3)|(e & _ & [=])]. apply seq_inv in H3 as [([] & w5 & H5 & H3)|(e & _ & [=])].
    unfold write in H5. apply seq_inv in H5 as [(re & w6 & H6 & H5)|(e & _ & [=])]. apply (keeps_result still) in H6 as [S6 F6]; [|apply _].
    destruct re; [done|]. injection H5 as <-. rewrite F2, F1, Hl in H3. injection H3 as <-. cbn.
    exists at_. split; [done|]. split; [done|]. split; [done|]. by rewrite S6, S2, S1.
  - transitivity w2; [by unfold untouched; rewrite S2, S1|]. apply seq_inv in He as [(f & w4 & [= <- <-] & H3)|(e' & [=] & _)].
    apply seq_inv in H3 as [([] & w5 & H5 & H3)|(e' & H5 & _)].
    + rewrite F2, F1, Hl in H3. done.
    + unfold write in H5. apply seq_inv in H5 as [(re & w6 & H6 & H5)|(e2 & H5 & _)].
      * apply (keeps_result still) in H6 as [S6 _]; [|apply _]. destruct re; [|done]. by injection H5 as _ <-.
      * apply (keeps_result still) in H5 as [S6 _]; [done | apply _].
Qed.
Lemma renewed_lease_get l at_ k :
  k <> "acquiredAt" -> k <> "updatedAt" -> k <> "previousAcquiredAt" -> k <> "grantedAt" -> get (renewed_lease l at_) k = get l k.
Proof. intros H1 H2 H3 H4. apply get_spread_other. simpl. intuition congruence. Qed.

(** C18. The lease is let go of and renewed only under its own fence: a release and a
    retryable abort remove the holder the fence names, read again under the lock,
    or do nothing to the lease, whatever they answer or throw; a renewal replaces
    it with the same lease at a later date, or does nothing. *)
Theorem lease_moves_under_its_fence :
  (forall r w res w', releaseMergeLease cfg r w = (res, w') -> let_go (r_fence r) w res w')
  /\ (forall f reason now w res w', releaseMergeLeaseForRetryableAbort cfg f reason now w = (res, w') -> let_go f w res w')
  /\ (forall f now w res w', renewMergeLease f now w = (res, w') -> renewed_under f w res w').
Proof.
  split; [|split].
  - intros r w res w'. apply release_lets_go.
  - intros f reason now w res w'. apply fenced_drop. intros. by apply abort_body_drops.
  - intros f now w res w' [[Hu Ha]|(l & w1 & Hm & Hl & Hu & Hr)]%locked_by_fence_inv.
    + destruct res as [a|e]; [|done]. destruct (Ha a eq_refl) as [l [->| ->]]; done.
    + apply renew_body_renews in Hr; [|done]. unfold renewed_under. destruct res as [[ex why|new old]|e].
      * by transitivity w1.
      * destruct Hr as (at_ & -> & -> & Hf & Hs). split; [done|]. split; [by rewrite Hs, Hu|]. split; [done|].
        intros k. by apply renewed_lease_get.
      * by transitivity w1.
Qed.

(** ** Reclaiming *)

Definition stale_lease (e : E) (l : obj) (here at_ : val) : Prop :=
  (same_host l here = true /\ pidIsLive e (get l "holderPid") = false)
  \/ (same_host l here = false /\ past_deadline cfg l at_ = true).
(** A stale lease was taken away, under its own fence. *)
Definition took_stale (now h : val) (w w' : World) : Prop :=
  exists e l old here at_, (truthy h = true -> here = h) /\ (truthy now = true -> at_ = now) /\ stale_lease e l here at_ /\ holderMatches (Some old) (fence_of l) = true
    /\ holder_steps w' = holder_steps w ++ [Removed old].
Lemma at_or_now_given v (w : World) a w' : at_or_now v w = (Ok a, w') -> files w' = files w /\ (truthy v = true -> a = v).
Proof.
  unfold at_or_now. destruct (truthy v); [by intros [= <- <-]|]. unfold bind, of_env. destruct (iso_now (lenv w)). by intros [= <- <-].
Qed.
Lemma host_or_here_given v (w : World) a w' : host_or_here v w = (Ok a, w') -> files w' = files w /\ (truthy v = true -> a = v).
Proof. unfold host_or_here. destruct (truthy v); by intros [= <- <-]. Qed.
Lemma inspect_lease now h (w : World) i w' l :
  inspectMergeLease cfg now h w = (Ok i, w') -> i_lease i = Some l ->
  i_past i = past_deadline cfg l (i_at i) /\ (truthy now = true -> i_at i = now).
Proof.
  unfold inspectMergeLease. intros (at_ & w1 & [_ Hat]%at_or_now_given & H)%seq_Ok Hl. apply seq_Ok in H as (here & w2 & _ & H).
  apply seq_Ok in H as ([] & w3 & _ & H). apply seq_Ok in H as (lease & w4 & _ & H). apply seq_Ok in H as (rows & w5 & _ & H).
  apply seq_Ok in H as (att & w6 & _ & H). apply seq_Ok in H as (e & w7 & _ & H). destruct lease as [l'|]; injection H as <- _; [|done].
  cbn in *. split; [congruence | exact Hat].
Qed.
Lemma reclaim_stale now h (w : World) res w' :
  reclaimIfStale cfg now h w = (res, w') ->
  match res with
  | Ok c => if rc_reclaimed c then took_stale now h w w' /\ holder (files w') = Absent else untouched w w'
  | Throw _ => untouched w w'
  end.
Proof.
  unfold reclaimIfStale. intros [(i & w1 & H1 & H)|(e & He & ->)]%seq_inv.
  2: { eapply keeps_result; [|exact He]. apply _. }
  pose proof (keeps_result untouched _ _ _ _ _ H1) as U1.
  destruct (i_lease i) as [l|] eqn:El; [|by injection H as <- <-].
  pose proof (inspect_lease _ _ _ _ _ _ H1 El) as [Hp Hat].
  apply seq_inv in H as [(here & w2 & H2 & H)|(e & He & ->)].
  2: { transitivity w1; [done|]. eapply keeps_result; [|exact He]. apply _. }
  pose proof (keeps_result untouched _ _ _ _ _ H2) as U2. apply host_or_here_given in H2 as [_ Hh].
  apply seq_inv in H as [(e & w3 & [= <- <-] & H)|(e & [=] & _)].
  set (dead := same_host l here && negb (pidIsLive (lenv w2) (get l "holderPid"))) in H.
  destruct (negb dead && negb (i_past i && negb (same_host l here))) eqn:Eg.
  { injection H as <- <-. cbn [rc_reclaimed]. by transitivity w1. }
  assert (Hstale : stale_lease (lenv w2) l here (i_at i)).
  { apply andb_false_iff in Eg as [Eg|Eg]; apply negb_false_iff, andb_true_iff in Eg as [G1 G2]; apply negb_true_iff in G2.
    - by left.
    - right. by rewrite <- Hp. }
  apply seq_inv in H as [(rel & w3 & Hr & H)|(e & He & ->)].
  2: { apply release_lets_go in He. unfold let_go in He. transitivity w1; [done|]. by transitivity w2. }
  apply release_lets_go in Hr. unfold let_go in Hr. destruct rel as [ex why|l' t rf]; injection H as <- <-; cbn [rc_reclaimed r_fence] in *.
  - transitivity w1; [done|]. by transitivity w2.
  - destruct Hr as (Hm & Hs & Hf). split; [|done]. exists (lenv w2), l, l', here, (i_at i). do 4 (split; [done|]).
    unfold untouched in *. by rewrite Hs, U2, U1.
Qed.


(** ** The queue *)

Definition dated (w : obj) : Prop := is_nan (dparse (get w "arrivedAt")) = false.
Definition queued_before (a b : obj) : Prop := waits_after a b = false.
Lemma queued_before_trans a b c : dated a -> dated b -> dated c -> queued_before a b -> queued_before b c -> queued_before a c.
Proof.
  unfold dated, queued_before, waits_after. intros Ha Hb Hc.
  destruct (deploy_incident a), (deploy_incident b), (deploy_incident c); cbn [andb negb]; try done;
    rewrite !num_ltb_leb by done; rewrite !negb_false_iff; intros H1 H2; by eapply num_leb_trans.
Qed.
Lemma waits_after_total a b : dated a -> dated b -> waits_after a b = true -> queued_before b a.
Proof.
  unfold dated, queued_before, waits_after. intros Ha Hb.
  destruct (deploy_incident a), (deploy_incident b); cbn [andb negb]; try done;
    intros H; rewrite num_ltb_leb by done; apply negb_false_iff; by apply num_ltb_le.
Qed.
Lemma queue_in_In x y l : In y (queue_in x l) <-> y = x \/ In y l.
Proof.
  induction l as [|z l IH]; cbn; [intuition congruence|]. destruct (waits_after x z); cbn; [rewrite IH|]; intuition congruence.
Qed.
Lemma sortWaiters_In l y : In y (sortWaiters l) <-> In y l.
Proof. induction l as [|x l IH]; [done|]. cbn. rewrite queue_in_In, IH. intuition congruence. Qed.
Lemma queue_in_sorted x l :
  dated x -> Forall dated l -> StronglySorted queued_before l -> StronglySorted queued_before (queue_in x l).
Proof.
  intros Hx Hl Hs. induction l as [|y l IH]; cbn; [repeat constructor|].
  inversion Hl as [|? ? Hy Hl']; subst. inversion Hs as [|? ? Hs' Hy']; subst. destruct (waits_after x y) eqn:E0.
  - constructor; [by apply IH|]. apply List.Forall_forall. intros z Hz. apply queue_in_In in Hz as [->|Hz].
    + by apply waits_after_total.
    + by apply (proj1 (List.Forall_forall _ _) Hy' z).
  - constructor; [done|]. constructor; [done|]. apply List.Forall_forall. intros z Hz. pose proof (proj1 (List.Forall_forall _ _) Hy' z Hz) as Hyz.
    eapply (queued_before_trans x y z); try done. by apply (proj1 (List.Forall_forall _ _) Hl' z).
Qed.
Lemma sortWaiters_sorted l : Forall dated l -> StronglySorted queued_before (sortWaiters l).
Proof.
  induction l as [|x l IH]; cbn; [constructor|]. intros Hd. inversion Hd as [|? ? Hx Hl]; subst. apply queue_in_sorted; [done | | by apply IH].
  apply List.Forall_forall. intros y Hy. apply (proj1 (List.Forall_forall _ _) Hl y). by apply (proj1 (sortWaiters_In _ _)).
Qed.
Lemma filter_sorted (p : obj -> bool) l : StronglySorted queued_before l -> StronglySorted queued_before (filter_b p l).
Proof.
  induction 1 as [|x l Hs IH Hx]; cbn; [constructor|]. destruct (p x); [|done]. constructor; [done|].
  apply List.Forall_forall. intros y Hy. apply filter_In in Hy as [Hy _]. by apply (proj1 (List.Forall_forall _ _) Hx y).
Qed.

(** The waiters of the lane that may be served at a time: those that are not stale,
    in the order of the queue, whose delay is over. *)
Definition file_rows (f : File Doc) : list obj := match f with Present d => doc_rows d | _ => [] end.
Definition serviceable (e : E) (at_ pruned_at here : val) (f : File Doc) : list obj :=
  filter_b (fun w => waiterReady w at_)
    (sortWaiters (filter_b (fun w => negb (stale_waiter e pruned_at here w)) (sortWaiters (file_rows f)))).
Lemma serviceable_first e at_ at' here f x rest y :
  serviceable e at_ at' here f = x :: rest -> Forall dated (file_rows f) -> In y rest -> queued_before x y.
Proof.
  unfold serviceable. intros Hl Hd Hy.
  assert (Hs : StronglySorted queued_before (x :: rest)).
  { rewrite <- Hl. apply filter_sorted, sortWaiters_sorted. apply List.Forall_forall. intros z Hz.
    apply filter_In in Hz as [Hz _]. apply (proj1 (List.Forall_forall _ _) Hd z). by apply (proj1 (sortWaiters_In _ _)). }
  inversion Hs as [|? ? _ Hx]; subst. by apply (proj1 (List.Forall_forall _ _) Hx y).
Qed.

Lemma read_waiters_Ok (w : World) rows w' :
  read_waiters w = (Ok rows, w') -> w' = w /\ rows = sortWaiters (file_rows (waiters (files w))).
Proof.
  unfold read_waiters, readWaiterDoc, bind, gets, lift, read_file, ret. destruct (waiters (files w)); by intros [= <- <-].
Qed.
Lemma read_attempts_Ok (w : World) rows w' :
  read_attempts w = (Ok rows, w') -> w' = w /\ rows = sortedAttempts (file_rows (attempts (files w))).
Proof.
  unfold read_attempts, readAttemptDoc, bind, gets, lift, read_file, ret. destruct (attempts (files w)); by intros [= <- <-].
Qed.
Lemma prune_Ok now h (w : World) p w' :
  pruneMergeLeaseWaitersUnlocked now h w = (Ok p, w') ->
  attempts (files w') = attempts (files w)
  /\ exists e at_ here, pr_waiters p = sortWaiters (filter_b (fun x => negb (stale_waiter e at_ here x)) (sortWaiters (file_rows (waiters (files w)))))
     /\ (truthy now = true -> at_ = now).
Proof.
  unfold pruneMergeLeaseWaitersUnlocked. intros (rows & w1 & H1 & H)%seq_Ok. apply read_waiters_Ok in H1 as [-> ->].
  destruct (sortWaiters _) as [|x l].
  { injection H as <- <-. split; [done|]. exists (lenv w), now, h. done. }
  apply seq_Ok in H as (here & w2 & H2 & H). apply seq_Ok in H as (at_ & w3 & H3 & H). apply seq_Ok in H as (e & w4 & [= <- <-] & H).
  apply seq_Ok in H as ([] & w5 & H5 & H). injection H as <- <-.
  apply host_or_here_given in H2 as [F2 _]. apply at_or_now_given in H3 as [F3 Hat]. split; [|by exists (lenv w3), at_, here].
  destruct (Nat.ltb _ _); [|by injection H5 as <-; rewrite F3, F2]. unfold put_waiters, write_waiters, write in H5.
  apply seq_Ok in H5 as (re & w6 & H6 & H5). unfold of_env in H6. destruct (write_error _ _). injection H6 as <- <-.
  destruct o; [done|]. injection H5 as <-. cbn. by rewrite F3, F2.
Qed.

(** ** Granting *)

(** The history refused a write. *)
Definition history_refused : Prop := exists e : E, fst (write_error e HistoryFile) <> None.
Lemma write_inv name f (w : World) r w' :
  write name f w = (r, w') ->
  match r with
  | Ok _ => files w' = f (files w)
  | Throw _ => files w' = files w /\ exists e : E, fst (write_error e name) <> None
  end.
Proof.
  unfold write, bind, of_env. destruct (write_error (lenv w) name) as [[err|] e] eqn:Ew; intros [= <- <-]; cbn; [|done].
  split; [done|]. exists (lenv w). by rewrite Ew.
Qed.
Lemma history_append_inv l ev a rs (w : World) r w' :
  appendLeaseHistory l ev a rs w = (r, w') ->
  match r with
  | Ok _ => (exists h, files w' = set_history h (files w))
  | Throw _ => files w' = files w /\ ((exists e0, history (files w) = Unreadable e0) \/ history_refused)
  end.
Proof.
  unfold appendLeaseHistory. intros [(h & w1 & H1 & H)|(e & He & ->)]%seq_inv; unfold readMergeLeaseHistory, bind, gets, lift in *.
  - assert (w1 = w) as -> by (destruct (history (files w)); by injection H1 as _ <-).
    apply seq_inv in H as [(id & w2 & H2 & H)|(e & He & ->)].
    + assert (F2 : files w2 = files w) by (unfold of_env in H2; destruct (new_uuid _); by injection H2 as _ <-).
      apply write_inv in H. destruct r; [by rewrite H, F2; eauto|]. destruct H as [Hf He]. rewrite Hf, F2. split; [done|]. by right.
    + unfold of_env in He. by destruct (new_uuid _).
  - destruct (history (files w)) eqn:Eh; [done | done |]. injection He as <- <-. split; [done|]. left. eauto.
Qed.
Lemma settle_grant_inv lease at_ rs waiter rows l (w : World) r w' :
  holder (files w) = Present l -> settle_grant lease at_ rs waiter rows w = (r, w') ->
  match r with
  | Ok _ => still w w' /\ (truthy (waiter_id waiter) = true ->
      waiters (files w') = Present {| doc_updated := at_; doc_rows := map norm_fields (sortWaiters (filter_b (fun x => negb (same_waiter (waiter_id waiter) x)) rows)) |})
  | Throw _ => (holder_steps w' = holder_steps w ++ [Removed l] /\ holder (files w') = Absent) \/ (still w w' /\ history_refused)
  end.
Proof.
  intros Hl. assert (Hrm : forall e0 (w1 : World), still w w1 -> (let! _ := remove_holder in throw (A := unit) e0) w1 = (r, w') ->
    (exists e1, r = Throw e1) /\ holder_steps w' = holder_steps w ++ [Removed l] /\ holder (files w') = Absent).
  { intros e0 w1 [S1 F1] Hr. unfold remove_holder, bind, gets, modify, log_step, throw in Hr. rewrite F1, Hl in Hr. injection Hr as <- <-.
    cbn. rewrite S1. eauto. }
  intros H. unfold settle_grant in H. apply seq_inv in H as [(granted & w1 & H1 & H)|(e & He & ->)]; [|by apply try_returns in He].
  assert (S1 : still w w1) by (eapply keeps_result; [|exact H1]; keeps).
  destruct granted as [[]|e].
  2: { destruct (Hrm e w1 S1 H) as ([e1 ->] & Hs & Hf). by left. }
  destruct (truthy (waiter_id waiter)) eqn:Et; [|by injection H as <- <-].
  apply seq_inv in H as [(served & w2 & H2 & H)|(e & He & ->)]; [|by apply try_returns in He].
  assert (S2 : still w w2) by (transitivity w1; [done | eapply keeps_result; [|exact H2]; keeps]).
  unfold try_ in H1, H2. destruct (appendLeaseHistory _ _ _ _ w) as [g w1'] eqn:Ea. injection H1 as -> ->.
  destruct (put_waiters _ _ w1) as [sv w2'] eqn:Eb. injection H2 as -> ->. apply history_append_inv in Ea as [h Ea]. apply write_inv in Eb.
  destruct served as [[]|e].
  - injection H as <- <-. split; [done|]. intros _. by rewrite Eb.
  - destruct Eb as [Eb _]. apply seq_inv in H as [([] & w3 & H3 & H)|(e3 & He & ->)].
    + assert (S3 : still w w3) by (transitivity w2; [done | eapply keeps_result; [|exact H3]; apply _]).
      destruct (Hrm e w3 S3 H) as ([e1 ->] & Hs & Hf). by left.
    + right. split; [transitivity w2; [done | eapply keeps_result; [|exact He]; apply _]|]. apply history_append_inv in He as [_ [[e0 He]|He]]; [|done].
      by rewrite Eb, Ea in He.
Qed.

(** The world under the lock when the lease was created, and the request it went to. *)
Record Grant (r : AcquireRequest) (at_ : val) (waiter : option obj) (lease : obj) (w w' : World) : Prop := {
  gr_free : holder (files w) = Absent;
  gr_line : exists e here at', (truthy at_ = true -> at' = at_)
    /\ let line := serviceable e at_ at' here (waiters (files w)) in
       line = [] \/ exists x rest, line = x :: rest /\ strict_eq (get x "waiterId") (waiter_id waiter) = true;
  gr_retry : forall retry, live_record (sortedAttempts (file_rows (attempts (files w)))) (a_holderPr r) (a_holderHead r) at_ = Some retry ->
    truthy (get retry "parkedReason") = false /\ num_ltb (dparse at_) (dparse (get retry "nextEligibleAt")) = false;
  gr_holder : holder (files w') = Present (norm_fields lease);
  gr_steps : holder_steps w' = holder_steps w ++ [Created (norm_fields lease)];
  gr_served : truthy (waiter_id waiter) = true -> exists rows, waiters (files w') = Present {| doc_updated := at_; doc_rows := rows |}
}.
Definition admitted (r : AcquireRequest) (at_ : val) (waiter : option obj) (w : World) (res : result AcquireReply) (w' : World) : Prop :=
  match res with
  | Ok (Acquired lease wt _ _) => wt = waiter /\ Grant r at_ waiter lease w w'
  | Ok _ => still w w'
  | Throw _ =>
      still w w'
      \/ exists l, (holder_steps w' = holder_steps w ++ [Created l; Removed l] /\ holder (files w') = Absent)
                 \/ (holder_steps w' = holder_steps w ++ [Created l] /\ history_refused)
  end.

Lemma create_holder_inv lease (w : World) r w' :
  create_holder lease w = (r, w') ->
  match r with
  | Ok true => holder (files w) = Absent /\ holder (files w') = Present (norm_fields lease)
               /\ holder_steps w' = holder_steps w ++ [Created (norm_fields lease)]
  | _ => still w w'
  end.
Proof.
  unfold create_holder. intros [(re & w1 & H1 & H)|(e & He & ->)]%seq_inv.
  2: { unfold of_env in He. by destruct (write_error _ _). }
  apply (keeps_result still) in H1 as [S1 F1]; [|apply _]. destruct re as [e|].
  - injection H as <- <-. done.
  - unfold bind, gets, modify, log_step, ret in H. destruct (holder (files w1)) eqn:Eh; injection H as <- <-.
    + cbn. by rewrite S1, <- F1.
    + split; [done | congruence].
    + split; [done | congruence].
Qed.
Lemma admit_admits r at_ waiter rc (w : World) res w' : admit_request cfg r at_ waiter rc w = (res, w') -> admitted r at_ waiter w res w'.
Proof.
  unfold admit_request. intros [(p & w1 & H1 & H)|(e & He & ->)]%seq_inv.
  2: { left. eapply keeps_result; [|exact He]. apply _. }
  assert (S1 : still w w1) by (eapply keeps_result; [|exact H1]; apply _).
  apply prune_Ok in H1 as (A1 & e & at' & here & Hp & Hat).
  apply seq_inv in H as [(rows & w2 & H2 & H)|(e2 & He & ->)].
  2: { left. transitivity w1; [done|]. eapply keeps_result; [|exact He]. apply _. }
  apply read_attempts_Ok in H2 as [-> ->]. rewrite A1 in H.
  apply seq_inv in H as [(found & w3 & H3 & H)|(e2 & He & ->)].
  2: { injection He as _ <-. by left. }
  apply lift_Ok in H3 as [_ ->]. cbn zeta in H.
  set (retry := live_record _ _ _ _) in H. destruct (parked_row retry || _ || _) eqn:Eg; [by injection H as <- <-|].
  apply orb_false_iff in Eg as [[Hpk Hbk]%orb_false_iff _].
  rewrite Hp in H. change (filter_b (fun x => waiterReady x at_) (sortWaiters (filter_b (fun x => negb (stale_waiter e at' here x))
    (sortWaiters (file_rows (waiters (files w))))))) with (serviceable e at_ at' here (waiters (files w))) in H.
  set (line := serviceable e at_ at' here (waiters (files w))) in H.
  destruct (Nat.ltb 0 (length line) && negb (truthy (waiter_id waiter))); [by injection H as <- <-|].
  destruct (Nat.ltb 0 (length line) && negb (strict_eq _ (waiter_id waiter))) eqn:El; [by injection H as <- <-|].
  apply seq_inv in H as [(lease & w4 & H4 & H)|(e2 & He & ->)].
  2: { left. transitivity w1; [done|]. eapply keeps_result; [|exact He]. apply _. }
  assert (S4 : still w w4) by (transitivity w1; [done | eapply keeps_result; [|exact H4]; apply _]).
  apply seq_inv in H as [(created & w5 & H5 & H)|(e2 & He & ->)]; [|apply create_holder_inv in He; left; by transitivity w4].
  apply create_holder_inv in H5. destruct created.
  - destruct H5 as (F4 & F5 & T5). destruct S4 as [T4 F4'].
    apply seq_inv in H as [([] & w6 & H6 & H)|(e2 & He & ->)].
    + injection H as <- <-. split; [done|]. apply (settle_grant_inv _ _ _ _ _ _ _ _ _ F5) in H6 as [[T6 F6] Hw]. split.
      * by rewrite <- F4'.
      * exists e, here, at'. split; [done|]. fold line. clearbody line. destruct line as [|x rest]; [by left|]. right.
        exists x, rest. split; [done|]. cbn in El. by apply negb_false_iff in El.
      * intros r0 Hr. fold retry in Hr. rewrite Hr in Hpk, Hbk. done.
      * by rewrite F6.
      * by rewrite T6, T5, T4.
      * intros Ht. rewrite (Hw Ht). eauto.
    + apply (settle_grant_inv _ _ _ _ _ _ _ _ _ F5) in He as [[T6 F6]|[[T6 F6] Hh]]; right; exists (norm_fields lease).
      * left. split; [|done]. rewrite T6, T5, T4. by rewrite <- (assoc_L (++)).
      * right. split; [|done]. by rewrite T6, T5, T4.
  - assert (S5 : still w w5) by by transitivity w4.
    apply seq_inv in H as [(beat & w6 & H6 & H)|(e2 & He & ->)].
    + apply (keeps_result still) in H6; [|apply _]. injection H as <- <-. unfold admitted. by transitivity w5.
    + left. transitivity w5; [done|]. eapply keeps_result; [|exact He]. apply _.
Qed.

(** ** Requests for the lease *)

(** What a request did to the holder: it may have taken a stale lease away, and
    then created its own, taken its own back, or done nothing. *)
Definition requested (r : AcquireRequest) (w : World) (res : result AcquireReply) (w' : World) : Prop :=
  exists w0 w1 at_, (truthy (a_now r) = true -> at_ = a_now r) /\ untouched w w0
  /\ (untouched w0 w1 \/ took_stale at_ (a_holderHost r) w0 w1)
  /\ match res with
     | Ok (Acquired lease waiter _ _) => exists wl, untouched w1 wl /\ Grant r at_ waiter lease wl w'
     | Ok _ => untouched w1 w'
     | Throw _ =>
         untouched w1 w'
         \/ exists l, (holder_steps w' = holder_steps w1 ++ [Created l; Removed l] /\ holder (files w') = Absent)
                    \/ (holder_steps w' = holder_steps w1 ++ [Created l] /\ history_refused)
     end.
Lemma waiter_lock_inv {A} (m : ST World A) (w : World) r w' :
  withWaiterMutationLock cfg m w = (r, w') ->
  (untouched w w' /\ exists e, r = Throw e) \/ exists w1, untouched w w1 /\ m w1 = (r, w').
Proof.
  unfold withWaiterMutationLock, bind, with_lane_lock. destruct (lane_lock (lenv w) (files w)) as [[[[]|err] fl] en].
  - match goal with |- context [m ?x] => remember x as w1 eqn:Ew end. destruct (m w1) as [[a|e] w2] eqn:Em; intros [= <- <-]; right;
      exists w1; rewrite Em; by subst w1.
  - intros [= <- <-]. left. split; [done | eauto].
  - intros [= <- <-]. left. split; [done | eauto].
Qed.
Lemma locked_admit r at_ waiter rc (w w0 w1 : World) res w' :
  (truthy (a_now r) = true -> at_ = a_now r) -> untouched w w0 -> (untouched w0 w1 \/ took_stale at_ (a_holderHost r) w0 w1) ->
  withWaiterMutationLock cfg (admit_request cfg r at_ waiter rc) w1 = (res, w') -> requested r w res w'.
Proof.
  intros Hat U0 U1 [[U (e & ->)]|(wl & Ul & Ha%admit_admits)]%waiter_lock_inv; exists w0, w1, at_; (do 3 (split; [done|])).
  - by left.
  - destruct res as [[lease wt pr c|pk rs rt wt|l wt c q|wt ws q pr|l wt q]|e]; cbn in Ha.
    + destruct Ha as [-> Hg]. by exists wl.
    + destruct Ha. by transitivity wl.
    + destruct Ha. by transitivity wl.
    + destruct Ha. by transitivity wl.
    + destruct Ha. by transitivity wl.
    + unfold untouched in Ul. destruct Ha as [[Ha _]|(l & Ha)]; [left; unfold untouched; congruence|].
      right. exists l. by rewrite <- Ul.
Qed.
Lemma acquire_requests r (w : World) res w' : acquireMergeLease cfg r w = (res, w') -> requested r w res w'.
Proof.
  assert (Hstop : forall res, untouched w w' -> match res with Ok (Acquired _ _ _ _) => False | _ => True end -> requested r w res w').
  { intros r0 U Hr. exists w, w', (a_now r). split; [done|]. split; [done|]. split; [by left|]. destruct r0 as [[]|]; try done. by left. }
  unfold acquireMergeLease. intros [(at_ & w1 & H1 & H)|(e & He & ->)]%seq_inv.
  2: { apply Hstop; [|done]. eapply keeps_result; [|exact He]. apply _. }
  pose proof (keeps_result untouched _ _ _ _ _ H1) as U1. pose proof (proj2 (at_or_now_given _ _ _ _ H1)) as Hat.
  apply seq_inv in H as [([] & w2 & H2 & H)|(e & He & ->)].
  2: { apply Hstop; [|done]. transitivity w1; [done|]. eapply keeps_result; [|exact He]. apply _. }
  pose proof (keeps_result untouched _ _ _ _ _ H2) as U2.
  apply seq_inv in H as [(rows & w3 & H3 & H)|(e & He & ->)].
  2: { apply Hstop; [|done]. transitivity w1; [done|]. transitivity w2; [done|]. eapply keeps_result; [|exact He]. apply _. }
  pose proof (keeps_result untouched _ _ _ _ _ H3) as U3. assert (U : untouched w w3) by (transitivity w1; [done|]; by transitivity w2).
  clear U1 U2 U3 H1 H2 H3 w1 w2. destruct (parked_row _).
  { injection H as <- <-. by apply Hstop. }
  apply seq_inv in H as [(waiter & w4 & H4 & H)|(e & He & ->)].
  2: { apply Hstop; [|done]. transitivity w3; [done|]. eapply keeps_result; [|exact He]. keeps. }
  assert (U4 : untouched w w4) by (transitivity w3; [done | eapply keeps_result; [|exact H4]; keeps]).
  apply seq_inv in H as [([] & w5 & H5 & H)|(e & He & ->)].
  2: { apply Hstop; [|done]. transitivity w4; [done|]. eapply keeps_result; [|exact He]. apply _. }
  assert (U5 : untouched w w5) by (transitivity w4; [done | eapply keeps_result; [|exact H5]; apply _]).
  apply seq_inv in H as [(existing & w6 & H6 & H)|(e & He & ->)].
  2: { apply Hstop; [|done]. transitivity w5; [done|]. eapply keeps_result; [|exact He]. apply _. }
  apply read_holder_Ok in H6 as [-> _]. destruct existing as [l|].
  2: { eapply (locked_admit r at_ waiter None w w5 w5); [done | done | by left | exact H]. }
  apply seq_inv in H as [(c & w7 & H7 & H)|(e & He & ->)].
  2: { apply Hstop; [|done]. apply reclaim_stale in He. by transitivity w5. }
  apply reclaim_stale in H7. destruct (rc_reclaimed c).
  - eapply (locked_admit r at_ waiter (Some c) w w5 w7); [done | done | right; apply H7 | exact H].
  - assert (U7 : untouched w w7) by by transitivity w5. apply seq_inv in H as [(p & w8 & H8 & H)|(e & He & ->)].
    + apply (keeps_result untouched) in H8; [|apply _]. injection H as <- <-. apply Hstop; [|done]. by transitivity w7.
    + apply Hstop; [|done]. transitivity w7; [done|]. eapply keeps_result; [|exact He]. apply _.
Qed.


(** @ The line is that of the queue: whoever waits behind the first that may be
    served has no deploy incident it lacks and, without a difference there, did not
    arrive earlier. *)
Theorem line_is_by_incident_and_arrival (e : E) at_ at' here f x rest y :
  serviceable e at_ at' here f = x :: rest -> Forall dated (file_rows f) -> In y rest ->
  (deploy_incident y = true -> deploy_incident x = true)
  /\ (deploy_incident y = deploy_incident x -> num_leb (dparse (get x "arrivedAt")) (dparse (get y "arrivedAt")) = true).
Proof.
  intros Hl Hd Hy. pose proof (serviceable_first _ _ _ _ _ _ _ _ Hl Hd Hy) as Hb.
  assert (Hin : forall z, In z (x :: rest) -> dated z).
  { intros z Hz. rewrite <- Hl in Hz. unfold serviceable in Hz. apply filter_In in Hz as [Hz _].
    apply (proj1 (sortWaiters_In _ _)) in Hz. apply filter_In in Hz as [Hz _]. apply (proj1 (sortWaiters_In _ _)) in Hz.
    by apply (proj1 (List.Forall_forall _ _) Hd z). }
  assert (Hx : dated x) by (apply Hin; by left). assert (Hdy : dated y) by (apply Hin; by right).
  unfold queued_before, waits_after in Hb. unfold dated in *. destruct (deploy_incident x), (deploy_incident y); cbn [andb negb] in Hb; split; try done;
    intros _; rewrite num_ltb_leb in Hb by done; by apply negb_false_iff in Hb.
Qed.

(** ** Releases without a merge *)

(** A row as a file holds it, and a lease as a grant writes it. *)
Definition row_ok (r : obj) : Prop := NoDup (map fst r) /\ stable_fields r.
Definition lease_ok (l : obj) : Prop :=
  exists n h id, get l "holderPr" = VNum n /\ get l "holderHead" = VStr h /\ get l "leaseId" = VStr id.
Lemma row_get r k : row_ok r -> json_norm (get r k) = get r k.
Proof. intros [_ Hs]. by apply json_stable_get, stable_obj. Qed.
Lemma get_without k r j : j <> k -> get (without k r) j = get r j.
Proof.
  intros Hj. unfold get, without. induction r as [|[k' v] r IH]; cbn; [done|]. destruct (String.eqb k' k) eqn:Ek; cbn.
  - apply String.eqb_eq in Ek as ->. destruct (String.eqb j k) eqn:Ej; [by apply String.eqb_eq in Ej|]. exact IH.
  - by destruct (String.eqb j k').
Qed.
Lemma without_NoDup k r : NoDup (map fst r) -> NoDup (map fst (without k r)).
Proof.
  unfold without. induction r as [|[k' v] r IH]; cbn; [done|]. intros [Hk Hr]%NoDup_cons. destruct (String.eqb k' k); cbn; [by apply IH|].
  apply NoDup_cons. split; [|by apply IH]. intros Hin. apply Hk. apply list_elem_of_In in Hin. apply list_elem_of_In.
  apply in_map_iff in Hin as ([j x] & <- & Hx). apply filter_In in Hx as [Hx _]. apply in_map_iff. by exists (j, x).
Qed.
Lemma lease_head_norm l r : NoDup (map fst r) -> json_norm (get r "pr") = get r "pr" -> json_norm (get r "head") = get r "head" ->
  lease_head l (norm_fields r) = lease_head l r.
Proof. intros Hn Hp Hh. unfold lease_head. by rewrite !get_norm_fields, Hp, Hh by done. Qed.
Lemma cleared_head l rows pr r : Forall row_ok rows -> In r (clearCloserArrivals rows pr) ->
  NoDup (map fst r) /\ json_norm (get r "pr") = get r "pr" /\ json_norm (get r "head") = get r "head"
  /\ lease_head l (norm_fields r) = lease_head l r.
Proof.
  intros Hr Hin. unfold clearCloserArrivals in Hin. apply in_map_iff in Hin as (x & Ex & Hx).
  pose proof (proj1 (List.Forall_forall _ _) Hr x Hx) as Hok. assert (Hn : NoDup (map fst r) /\ get r "pr" = get x "pr" /\ get r "head" = get x "head").
  { destruct (same_number _ _); subst r; [|split; [apply Hok | done]].
    unfold withoutCloserArrival. split; [by do 2 apply without_NoDup; apply Hok|]. by rewrite !get_without. }
  destruct Hn as (Hn & Hp & Hh). assert (H1 : json_norm (get r "pr") = get r "pr") by by rewrite Hp, row_get.
  assert (H2 : json_norm (get r "head") = get r "head") by by rewrite Hh, row_get. split; [done|]. split; [done|]. split; [done|].
  by apply lease_head_norm.
Qed.
Lemma attempt_in_In x y l : In y (attempt_in x l) <-> y = x \/ In y l.
Proof.
  induction l as [|z l IH]; cbn; [intuition congruence|]. destruct (attempt_after x z); cbn; [rewrite IH|]; intuition congruence.
Qed.
Lemma sortedAttempts_In l y : In y (sortedAttempts l) <-> In y l.
Proof. induction l as [|x l IH]; [done|]. cbn. rewrite attempt_in_In. change (foldr attempt_in [] l) with (sortedAttempts l). rewrite IH. intuition congruence. Qed.
Lemma find_row_unique (p : obj -> bool) rows x :
  In x rows -> p x = true -> (forall y, In y rows -> p y = true -> y = x) -> exists i, find_row p rows = Some (i, x).
Proof.
  intros Hx Hp Hu. unfold find_row. destruct (find_index p rows) as [i|] eqn:Ei.
  - destruct (find_b p rows) as [y|] eqn:Ef.
    + apply find_b_In in Ef as [Hy Hpy]. rewrite (Hu y Hy Hpy). by exists i.
    + by rewrite (find_b_None _ _ _ Ef Hx) in Hp.
  - by rewrite (find_index_None _ _ Ei x Hx) in Hp.
Qed.

(** The record made for a release names the head and the lease. *)
Lemma positive_integer_Ok v field n : positive_integer v field = Ok n -> n = to_num v /\ is_nan n = false /\ json_num n = VNum n.
Proof.
  unfold positive_integer. destruct (_ || _); [done|]. destruct (is_integer (to_num v) && num_ltb (num_of_Z 0) (to_num v)) eqn:Ei; [|done].
  intros [= <-]. apply andb_true_iff in Ei as [E1 E2]. split; [done|]. by destruct (to_num v) as [[]|[]| |[]].
Qed.
Definition names_lease (l r : obj) : Prop :=
  NoDup (map fst r) /\ get r "pr" = get l "holderPr" /\ get r "head" = get l "holderHead" /\ get r "noMergeLeaseId" = get l "leaseId"
  /\ exists n, get l "holderPr" = VNum n /\ is_nan n = false /\ json_num n = VNum n.
Lemma no_merge_fields_named l old at_ rs c f t :
  let u := no_merge_fields cfg l old at_ rs c f t in
  NoDup (map fst u) /\ In ("pr", get l "holderPr") u /\ In ("head", get l "holderHead") u /\ In ("noMergeLeaseId", get l "leaseId") u.
Proof.
  cbn zeta. unfold no_merge_fields. destruct f; (split; [apply (bool_decide_unpack _); vm_compute; exact I|]); cbn; tauto.
Qed.
Lemma no_merge_names l previous at_ rs c f b next :
  lease_ok l -> (forall r, previous = Some r -> NoDup (map fst r)) ->
  no_merge_record cfg l previous at_ rs c f b = Ok next -> names_lease l next.
Proof.
  intros (n & h & id & Hp & Hh & _) Hold. unfold no_merge_record. intros (t & _ & H)%rbind_Ok. unfold normalizeAttemptRecord in H.
  assert (Hnd : NoDup (map fst (row_or_empty previous))) by (destruct previous; [by apply Hold | constructor]).
  destruct (no_merge_fields_named l (row_or_empty previous) at_ rs c (f && has_row previous) t) as (Hu & I1 & I2 & I3).
  generalize dependent (no_merge_fields cfg l (row_or_empty previous) at_ rs c (f && has_row previous) t). intros u H Hu I1 I2 I3.
  generalize dependent (row_or_empty previous). intros old Hnd H.
  apply rbind_Ok in H as (m & Hm & Hnext%Ok_inj). subst next.
  rewrite (get_spread_in old u "pr" _ Hu I1), Hp in Hm. apply positive_integer_Ok in Hm as (-> & Hnan & Hj). cbn [to_num] in *.
  set (s := spread old u).
  assert (Hfin : NoDup (map fst (normal_fields s n at_))) by (apply (bool_decide_unpack _); vm_compute; exact I).
  assert (Hnd2 : NoDup (map fst (spread s (normal_fields s n at_)))) by (subst s; by apply spread_NoDup, spread_NoDup).
  refine (conj Hnd2 (conj _ (conj _ (conj _ _)))).
  - rewrite (get_spread_in _ (normal_fields s n at_) "pr" (VNum n)); [done | done | by left].
  - rewrite (get_spread_in _ (normal_fields s n at_) "head" (VStr h)); [done | done |]. right. left. subst s. rewrite (get_spread_in old u "head" _ Hu I2), Hh.
    by destruct h.
  - rewrite get_spread_other; [by apply get_spread_in|]. cbn. intuition discriminate.
  - by exists n.
Qed.

Lemma with_arrival_names l next p a next' : names_lease l next -> with_arrival cfg l next p a = Ok next' -> names_lease l next'.
Proof.
  intros (Hn & Hp & Hh & Hi & Hl) H.
  assert (Hw : names_lease l (withoutCloserArrival next)).
  { unfold withoutCloserArrival. split; [by do 2 apply without_NoDup|]. by rewrite !get_without. }
  assert (Hs : forall u, (forall k, In k (map fst u) -> k = "queueArrivedAt" \/ k = "queueArrivalExpiresAt") -> names_lease l (spread next u)).
  { intros u Hu. assert (Hk : forall k, k <> "queueArrivedAt" -> k <> "queueArrivalExpiresAt" -> get (spread next u) k = get next k).
    { intros k H1 H2. apply get_spread_other. intros Hin. by destruct (Hu k Hin). }
    split; [by apply spread_NoDup|]. by rewrite !Hk. }
  unfold with_arrival in H. destruct (closer_lease l && _).
  - apply rbind_Ok in H as (t & _ & H%Ok_inj). subst next'. apply Hs. cbn. intuition.
  - destruct a as [[i a]|], p as [[j p]|]; try (by injection H as <-). destruct (_ && _); [|by injection H as <-].
    apply rbind_Ok in H as (t & _ & H%Ok_inj). subst next'. apply Hs. cbn. intuition.
Qed.

Lemma read_doc_Ok (w : World) d w' : readAttemptDoc w = (Ok d, w') -> w' = w /\ doc_rows d = file_rows (attempts (files w)).
Proof. unfold readAttemptDoc, bind, gets, lift, read_file, ret. destruct (attempts (files w)); by intros [= <- <-]. Qed.
Lemma of_env_files {A} (f : E -> A * E) (w : World) a w' : of_env f w = (Ok a, w') -> files w' = files w.
Proof. unfold of_env. destruct (f (lenv w)). by intros [= _ <-]. Qed.
Definition one_record (l : obj) (rows : list obj) : Prop :=
  forall r r', In r rows -> In r' rows -> lease_head l r = true -> lease_head l r' = true -> r = r'.
(** The head of the lease has this record, charged for the lease. *)
Definition charged_row (l : obj) (w : World) (r : obj) : Prop :=
  In r (file_rows (attempts (files w))) /\ lease_head l r = true /\ get r "noMergeLeaseId" = get l "leaseId".
Lemma find_row_In p rows i r : find_row p rows = Some (i, r) -> In r rows /\ p r = true.
Proof.
  unfold find_row. destruct (find_index p rows); [|done]. destruct (find_b p rows) eqn:Ef; [|done]. intros [= <- <-]. by apply find_b_In.
Qed.
Lemma names_lease_head l r : lease_ok l -> names_lease l r -> lease_head l (norm_fields r) = true /\ get (norm_fields r) "noMergeLeaseId" = get l "leaseId".
Proof.
  intros (n & h & id & Hp & Hh & Hs) (Hn & Rp & Rh & Ri & m & Rm & Hnan & Hj). rewrite Hp in Rm. injection Rm as <-.
  unfold lease_head. rewrite !get_norm_fields, Rp, Rh, Ri, Hp, Hh, Hs by done. split; [|done]. cbn [json_norm]. rewrite Hj. cbn.
  by rewrite num_eqb_refl, String.eqb_refl.
Qed.
Lemma charge_again l at_ rs c f (w : World) x w' stored :
  lease_ok l -> one_record l (file_rows (attempts (files w))) -> charged_row l w stored -> attemptExpired stored at_ = false ->
  charge_release cfg l at_ rs c f w = (Ok x, w') -> x = (Some stored, no_refund) /\ attempts (files w') = attempts (files w).
Proof.
  intros (n & h & id & Hp & Hh & Hs) H1 (Hin & Hhead & Hid) Hexp H. unfold charge_release, withAttemptMutationLockOnly in H.
  apply seq_Ok in H as (got & w1 & Hg & H). apply of_env_files in Hg. destruct got as [[]|]; [|done..].
  apply seq_Ok in H as (doc & w2 & H2 & H). apply read_doc_Ok in H2 as [-> Hd]. rewrite Hg in Hd.
  cbn zeta in H. rewrite Hd in H.
  destruct (find_row_unique (fun r => lease_head l r && negb (attemptExpired r at_)) (file_rows (attempts (files w))) stored) as [i Hf].
  - done.
  - by rewrite Hhead, Hexp.
  - intros y Hy [Hy1 _]%andb_true_iff. by apply H1.
  - rewrite Hf in H. cbn [Datatypes.option_map snd row_or_empty] in H. rewrite Hid, Hs in H. cbn in H. rewrite String.eqb_refl in H.
    injection H as <- <-. by rewrite Hg.
Qed.
Lemma new_charge_charges l rows previous at_ rs c f (w : World) x w' :
  lease_ok l -> Forall row_ok rows -> (forall i r, previous = Some (i, r) -> In r rows) ->
  new_charge cfg l rows previous at_ rs c f w = (Ok x, w') ->
  one_record l (file_rows (attempts (files w'))) /\ exists stored, charged_row l w' stored.
Proof.
  intros Hl Hrows Hprev H. unfold new_charge in H. apply seq_Ok in H as (ms & w1 & _ & H).
  apply seq_Ok in H as (arrival & w2 & _ & H). apply seq_Ok in H as (record & w3 & [Hr _]%lift_Ok & H).
  apply seq_Ok in H as (next & w4 & [Hn _]%lift_Ok & H). apply seq_Ok in H as ([] & w5 & Hw & H). injection H as _ <-.
  assert (Hnames : names_lease l next).
  { eapply with_arrival_names; [|exact Hn]. eapply no_merge_names; [done | | exact Hr]. intros r Hp.
    destruct previous as [[i p]|]; [|done]. injection Hp as ->. by apply (proj1 (List.Forall_forall _ _) Hrows r), (Hprev i). }
  remember (if closer_lease l || truthy (get next "parkedReason") then clearCloserArrivals rows (get l "holderPr") else rows) as kept eqn:Ek.
  apply write_inv in Hw.
  assert (Hrest : forall r, In r kept -> lease_head l (norm_fields r) = lease_head l r).
  { intros r Hin. rewrite Ek in Hin. destruct (_ || _); [by eapply cleared_head|]. pose proof (proj1 (List.Forall_forall _ _) Hrows r Hin) as Hok.
    apply lease_head_norm; [apply Hok | by apply row_get..]. }
  assert (Hall : forall r, In r (file_rows (attempts (files w5))) -> lease_head l r = true -> r = norm_fields next).
  { rewrite Hw. cbn. intros r Hin Hh. apply in_map_iff in Hin as (y & <- & Hy). apply sortedAttempts_In, in_app_iff in Hy as [Hy|[->|[]]]; [|done].
    apply filter_In in Hy as [Hy Hno]. by rewrite Hrest, (proj1 (negb_true_iff _) Hno) in Hh. }
  destruct (names_lease_head l next Hl Hnames) as [Hh Hid]. split.
  - intros r r' Hr1 Hr2 E1 E2. by rewrite (Hall r Hr1 E1), (Hall r' Hr2 E2).
  - exists (norm_fields next). split; [|done]. rewrite Hw. cbn. apply in_map, sortedAttempts_In, in_app_iff. right. by left.
Qed.
Lemma charge_charges l at_ rs c f (w : World) x w' :
  lease_ok l -> Forall row_ok (file_rows (attempts (files w))) -> one_record l (file_rows (attempts (files w))) ->
  charge_release cfg l at_ rs c f w = (Ok x, w') ->
  one_record l (file_rows (attempts (files w'))) /\ exists stored, charged_row l w' stored.
Proof.
  intros Hl Hrows H1 H. unfold charge_release, withAttemptMutationLockOnly in H.
  apply seq_Ok in H as (got & w1 & Hg & H). apply of_env_files in Hg. destruct got as [[]|]; [|done..].
  apply seq_Ok in H as (doc & w2 & H2 & H). apply read_doc_Ok in H2 as [-> Hd]. rewrite Hg in Hd. cbn zeta in H. rewrite Hd in H.
  set (rows := file_rows (attempts (files w))) in *.
  destruct (strict_eq _ (get l "leaseId")) eqn:Ecase.
  - injection H as _ <-. rewrite Hg. fold rows. split; [done|]. destruct Hl as (n & h & id & _ & _ & Hs). rewrite Hs in Ecase.
    destruct (find_row _ rows) as [[i old]|] eqn:Ef; [|done]. apply find_row_In in Ef as [Hin [Hhead _]%andb_true_iff].
    exists old. split; [by rewrite Hg|]. split; [done|]. rewrite Hs. cbn in Ecase. destruct (get old "noMergeLeaseId"); try done.
    by apply String.eqb_eq in Ecase as ->.
  - eapply new_charge_charges; [done | exact Hrows | | exact H]. intros i r Hf. by apply find_row_In in Hf as [Hin _].
Qed.

End Facts.

(** ** Concrete runs *)

#[local] Instance lane_dates : HostDate := {| host_date_parse := fun _ => None |}.
#[local] Instance idle_host : Host := {|
  host_policy := [("enabled", VBool false)]; host_loadavg := num_of_Z 1; host_cpu_count := num_of_Z 4; host_cpu_busy := VNull |}.
#[local] Instance byte_order : Collation := {| locale_after := fun a b => String.ltb b a |}.
(** A host where process 7 is dead, with a disk that takes so many writes; the
    environment counts them. *)
Definition disk (writes : nat) : LaneEnv nat := {|
  iso_now := fun e => ("2026-10-23T00:10:00.000Z", e); new_uuid := fun e => ("u", e); hostname := fun _ => "h1";
  signal_zero := fun _ z => if (z =? 7)%Z then SignalError "ESRCH" else Delivered; load_readings := fun e => ([], e);
  write_error := fun e _ => (if Nat.leb writes e then Some (PlainError "ENOSPC") else None, S e);
  others_act := fun e l => (l, e); lane_lock := fun e l => (Ok true, l, e); attempts_lock := fun e => (Ok true, e) |}.
Definition ex_lane : LaneConfig := {|
  l_repo := "acme/app"; l_base := "main"; env_deadline := VUndef; env_max_attempts := VInt 2; WATCHER_POLL_INTERVAL_MS := num_of_Z 300000 |}.
Definition empty_lane : LaneFiles := {| holder := Absent; waiters := Absent; attempts := Absent; history := Absent |}.
Definition lane_world (f : LaneFiles) : LaneWorld nat := {| files := f; lenv := 0%nat; holder_steps := []; wakes := [] |}.
Definition ex_request (pr pid : Z) (id : string) (at_ : string) (priority : val) : AcquireRequest := {|
  a_holderPr := VInt pr; a_holderHead := VStr "abc"; a_holderPid := VInt pid; a_holderHost := VStr "h1"; a_holderProcessGroup := VUndef;
  a_deadlineSeconds := VUndef; a_leaseId := VStr ("lease-" +:+ id); a_now := VStr at_; a_waiterId := VStr id; a_registerWaiter := true;
  a_waiterPriority := priority; a_prBody := VUndef; a_waiterDeadlineSeconds := VUndef; a_acquisitionPid := VUndef; a_attempt := VUndef |}.
Definition closer_request (pr pid : Z) (id at_ : string) : AcquireRequest := ex_request pr pid id at_ VUndef.

Section Runs.
Context (writes : nat).
#[local] Instance ex_disk : LaneEnv nat := disk writes.
Definition ex_acquire (r : AcquireRequest) (w : LaneWorld nat) := acquireMergeLease ex_lane r w.
Definition ex_release (r : ReleaseRequest) (w : LaneWorld nat) := releaseMergeLease ex_lane r w.
Definition ex_granted := ex_acquire (closer_request 101 42 "w1" "2026-10-23T00:00:00.000Z") (lane_world empty_lane).
(** A second request while the lease is held, and its retry once it is free. *)
Definition ex_waiting := ex_acquire (closer_request 102 43 "w2" "2026-10-23T00:01:00.000Z") (snd ex_granted).
Definition ex_held : obj := match holder (files (snd ex_waiting)) with Present l => l | _ => [] end.
Definition ex_giveback (reason : string) : ReleaseRequest := {|
  r_fence := fence_of ex_held; r_now := VStr "2026-10-23T00:02:00.000Z"; r_event := "release"; r_reason := reason;
  r_merged := false; r_terminal := false; r_yielded := false |}.
Definition ex_freed (reason : string) := ex_release (ex_giveback reason) (snd ex_waiting).
Definition ex_next (reason : string) := ex_acquire (closer_request 102 43 "w2" "2026-10-23T00:03:00.000Z") (snd (ex_freed reason)).
End Runs.

Definition kind_of (r : result AcquireReply) : string :=
  match r with
  | Ok (Acquired _ _ _ _) => "acquired" | Ok (NotReady p _ _ _) => if p then "parked" else "backoff" | Ok (Held _ _ _ _) => "held"
  | Ok (Queued _ _ _ _) => "queued" | Ok (Beaten _ _ _) => "beaten" | Throw e => error_message e
  end.
Definition has_holder (w : LaneWorld nat) : bool := match holder (files w) with Absent => false | _ => true end.

Example lane_run :
  (kind_of (fst (ex_granted 20)), kind_of (fst (ex_waiting 20)), has_holder (snd (ex_freed 20 "gate-failed")),
   kind_of (fst (ex_next 20 "gate-failed"))) = ("acquired", "held", false, "acquired").
Proof. vm_compute. reflexivity. Qed.
(** A disk that fills up: a request that throws leaves no lease, unless neither the
    queue nor the history could be written after the lease was. *)
Example full_disk :
  map (fun n => (kind_of (fst (ex_granted n)), has_holder (snd (ex_granted n)))) [0; 1; 2; 3; 4]%nat
  = [("ENOSPC", false); ("ENOSPC", false); ("ENOSPC", false); ("ENOSPC", true); ("acquired", true)].
Proof. vm_compute. reflexivity. Qed.
(** Two base branches with the same files. *)
Example bases_share_a_lane :
  rmap lk_fileSlug (deriveLeaseKey "acme/app" "release/1") = rmap lk_fileSlug (deriveLeaseKey "acme/app" "release-1").
Proof. vm_compute. reflexivity. Qed.

#[local] Instance big_disk : LaneEnv nat := disk 20.
Lemma ex_granted_pair :
  acquireMergeLease ex_lane (closer_request 101 42 "w1" "2026-10-23T00:00:00.000Z") (lane_world empty_lane)
  = (fst (ex_granted 20), snd (ex_granted 20)).
Proof. unfold ex_granted, ex_acquire, big_disk, ex_disk. apply surjective_pairing. Qed.

Lemma ex_freed_pair :
  releaseMergeLease ex_lane (ex_giveback 20 "gate-failed") (snd (ex_waiting 20))
  = (fst (ex_freed 20 "gate-failed"), snd (ex_freed 20 "gate-failed")).
Proof. unfold ex_freed, ex_release, big_disk, ex_disk. apply surjective_pairing. Qed.
Lemma lease_moves_under_its_fence_witness :
  let_go (r_fence (ex_giveback 20 "gate-failed")) (snd (ex_waiting 20)) (fst (ex_freed 20 "gate-failed")) (snd (ex_freed 20 "gate-failed"))
  /\ has_holder (snd (ex_freed 20 "gate-failed")) = false.
Proof.
  split; [|vm_compute; reflexivity].
  destruct (lease_moves_under_its_fence ex_lane) as [H _].
  exact (H (ex_giveback 20 "gate-failed") (snd (ex_waiting 20)) (fst (ex_freed 20 "gate-failed")) (snd (ex_freed 20 "gate-failed"))
    ex_freed_pair).
Defined.

(** A lease of a process that died. *)
Definition ex_dead := acquireMergeLease ex_lane (closer_request 103 7 "w3" "2026-10-23T00:00:00.000Z") (lane_world empty_lane).
Definition ex_reclaim := reclaimIfStale ex_lane (VStr "2026-10-23T00:01:00.000Z") (VStr "h1") (snd ex_dead).
Definition reclaim_word (r : result Reclaim) : option string := match r with Ok c => if rc_reclaimed c then Some (rc_reason c) else None | Throw _ => None end.
Lemma ex_reclaim_pair :
  reclaimIfStale ex_lane (VStr "2026-10-23T00:01:00.000Z") (VStr "h1") (snd ex_dead) = (fst ex_reclaim, snd ex_reclaim).
Proof. unfold ex_reclaim. apply surjective_pairing. Qed.
Lemma ex_reclaimed : reclaim_word (fst ex_reclaim) = Some "dead-holder-pid".
Proof. vm_compute. reflexivity. Qed.

Definition ex_waiter (id at_ : string) (incident : bool) : obj :=
  [("waiterId", VStr id); ("arrivedAt", VStr at_); ("updatedAt", VStr at_); ("deployIncident", VBool incident)].
Definition ex_line : File Doc := Present {| doc_updated := VNull;
  doc_rows := [ex_waiter "a" "2026-10-23T00:02:00.000Z" false; ex_waiter "b" "2026-10-23T00:03:00.000Z" true] |}.
Lemma line_is_by_incident_and_arrival_witness :
  exists x y, serviceable 0%nat (VStr "2026-10-23T00:04:00.000Z") (VStr "2026-10-23T00:04:00.000Z") (VStr "h1") ex_line = [x; y]
    /\ get x "waiterId" = VStr "b" /\ deploy_incident x = true
    /\ (deploy_incident y = deploy_incident x -> num_leb (dparse (get x "arrivedAt")) (dparse (get y "arrivedAt")) = true).
Proof.
  destruct (serviceable 0%nat (VStr "2026-10-23T00:04:00.000Z") (VStr "2026-10-23T00:04:00.000Z") (VStr "h1") ex_line) as [|x [|y [|z l]]] eqn:El;
    try (vm_compute in El; discriminate).
  exists x, y. split; [reflexivity|].
  assert (Hd : Forall dated (file_rows ex_line)) by (repeat constructor; vm_compute; reflexivity).
  pose proof (line_is_by_incident_and_arrival 0%nat _ _ _ ex_line x [y] y El Hd (or_introl eq_refl)) as [H1 H2].
  vm_compute in El. injection El as <- <-. split; [reflexivity|]. split; [reflexivity | exact H2].
Defined.

Definition ex_charge (at_ reason : string) (w : LaneWorld nat) :=
  charge_release ex_lane (ex_held 20) (VStr at_) (VStr reason) true false w.
Definition ex_charged := ex_charge "2026-10-23T00:02:00.000Z" "gate-failed" (snd (ex_waiting 20)).
Definition ex_recharged := ex_charge "2026-10-23T00:02:30.000Z" "base-advanced" (snd ex_charged).
(** The one row of the attempts file after the first charge. *)
Definition ex_row : obj := match file_rows (attempts (files (snd ex_charged))) with r :: _ => r | [] => [] end.
Definition row_of_reply (r : result (option obj * Refunded)) : option obj := match r with Ok (Some o, _) => Some o | _ => None end.
Lemma ex_charge_facts :
  lease_ok (ex_held 20) /\ file_rows (attempts (files (snd (ex_waiting 20)))) = []
  /\ file_rows (attempts (files (snd ex_charged))) = [ex_row] /\ get ex_row "noMergeReleases" = VInt 1
  /\ attemptExpired ex_row (VStr "2026-10-23T00:02:30.000Z") = false /\ is_ok (fst ex_charged) = true /\ is_ok (fst ex_recharged) = true.
Proof.
  split; [exists (num_of_Z 101), "abc", "lease-w1"; vm_compute; repeat split|]. vm_compute. repeat split.
Qed.
Lemma ok_value {A} (r : result A) : is_ok r = true -> exists a, r = Ok a.
Proof. destruct r; [by eexists | done]. Qed.
Lemma ex_charged_pair :
  charge_release ex_lane (ex_held 20) (VStr "2026-10-23T00:02:00.000Z") (VStr "gate-failed") true false (snd (ex_waiting 20))
  = (fst ex_charged, snd ex_charged).
Proof. unfold ex_charged, ex_charge. apply surjective_pairing. Qed.
Lemma ex_recharged_pair :
  charge_release ex_lane (ex_held 20) (VStr "2026-10-23T00:02:30.000Z") (VStr "base-advanced") true false (snd ex_charged)
  = (fst ex_recharged, snd ex_recharged).
Proof. unfold ex_recharged, ex_charge. apply surjective_pairing. Qed.
