(* ===== verification/BaseRevalidation.v ===== *)
(** * Whether a validated base still stands (ama/merge-lease.mjs)

    Before a merge, the base it was validated at is compared with the base of now:
    the remote branch must be the base named, and when it has advanced the files it
    changed must not meet those of the pull request. Git is a function that answers
    or fails; what it was asked and answered is kept. The diagnostic [detail] of a
    refusal is not modelled. *)

From Stdlib Require Import ZArith Lia Ascii.
From stdpp Require Import base list strings sorting.
From S2P Require Import Prelude JsState JsNum JsValue QueueHandoff.

Section Revalidation.
Context {E : Type}.

Record GitWorld := { git_env : E; git_calls : list (list string * result string) }.
Abbreviation M := (ST GitWorld).
Definition Git : Type := list string -> E -> result string * E.

Definition hex_char (a : ascii) : bool := in_range 48 57 a || in_range 65 70 a || in_range 97 102 a.
Definition normalizeGitRef (v : val) : string := trim (to_str (or_else v (VStr ""))).
Definition normalizeBaseBranch (v : val) : string :=
  let base := normalizeGitRef v in
  if String.eqb base "" || starts_with "-" base || includes ".." base || includes backslash base then "" else base.
Definition normalizeFullSha (v : val) : string :=
  let sha := normalizeGitRef v in
  if Nat.eqb (String.length sha) 40 && all_chars hex_char sha then to_lower sha else "".
Definition newline : ascii := ascii_of_N 10.
Definition splitNameOnly (stdout : string) : list string :=
  filter_b (fun l => negb (String.eqb l "")) (map trim (split_on newline stdout)).
Fixpoint once_each (l : list string) : list string :=
  match l with [] => [] | x :: l' => x :: filter_b (fun y => negb (String.eqb x y)) (once_each l') end.
Definition name_before (s t : string) : Prop := key_le s t = true.
#[export] Instance name_before_dec s t : Decision (name_before s t).
Proof. unfold name_before. apply _. Defined.
Definition uniqueSorted (l : list string) : list string := merge_sort name_before (once_each l).

Record Decision_ := {
  needsRevalidation : bool; reason : string; currentBase : option string; mainAdvancedBy : option num; overlappingFiles : list string
}.
Definition known (sha : string) : option string := if String.eqb sha "" then None else Some sha.
Definition failClosed (why : string) (current : option string) (advanced : option num) : Decision_ :=
  {| needsRevalidation := true; reason := why; currentBase := current; mainAdvancedBy := advanced; overlappingFiles := [] |}.
Definition noRevalidation (why current : string) (advanced : option num) : Decision_ :=
  {| needsRevalidation := false; reason := why; currentBase := Some current; mainAdvancedBy := advanced; overlappingFiles := [] |}.

(** [Number.parseInt(text, 10)]. *)
Definition parse_count (s : string) : option num :=
  let '(neg, t) := take_sign (trim s) in
  let '(v, n, _) := take_digits t 0 0 in
  if (n =? 0)%Z then None else Some (num_of_Z (if neg then - v else v)).

Section Asking.
Variable git : Git.
Definition ask_git (args : list string) : M (result string) :=
  fun w => let '(r, e) := git args (git_env w) in (Ok r, {| git_env := e; git_calls := git_calls w ++ [(args, r)] |}).
Definition rev_parse (ref : string) : list string := ["rev-parse"; "--verify"; ref +:+ "^{commit}"].
(** What the remote branch is: read again after each fetch that is left. *)
Fixpoint resolve_remote (fetches : nat) (baseBranch currentSha : string) : M string :=
  let! r := ask_git (rev_parse ("refs/remotes/origin/" +:+ baseBranch)) in
  let sha := match r with Ok out => normalizeFullSha (VStr (trim out)) | Throw _ => "" end in
  if String.eqb sha currentSha then ret sha
  else match fetches with
       | O => ret sha
       | S n => let! _ := ask_git ["fetch"; "--no-tags"; "origin"; baseBranch] in resolve_remote n baseBranch currentSha
       end.
Definition diff_names (range : string) : list string := ["diff"; "--name-only"; range].
Definition file_in (l : list string) (f : string) : bool := str_in f l.

(** The files the base changed and those of the pull request. *)
Definition changed_files (validationSha currentSha prRef : string) : M (result (list string * list string)) :=
  let! b := ask_git (diff_names (validationSha +:+ ".." +:+ currentSha)) in
  match b with
  | Throw e => ret (Throw e)
  | Ok base_out =>
      let! m := ask_git ["merge-base"; currentSha; prRef] in
      match m with
      | Throw e => ret (Throw e)
      | Ok mb =>
          let! p := ask_git (diff_names (trim mb +:+ ".." +:+ prRef)) in
          ret (rmap (fun pr_out => (splitNameOnly (trim base_out), splitNameOnly (trim pr_out))) p)
      end
  end.
Definition assess_drift (validationSha currentSha prRef : string) : M Decision_ :=
  let! c := ask_git ["rev-list"; "--count"; validationSha +:+ ".." +:+ currentSha] in
  match c with
  | Throw _ => ret (failClosed "unresolvable-base-drift" (Some currentSha) None)
  | Ok text =>
      let advanced := parse_count (trim text) in
      let! files := changed_files validationSha currentSha prRef in
      match files with
      | Throw _ => ret (failClosed "changed-files-unavailable" (Some currentSha) advanced)
      | Ok (base, pr) =>
          if Nat.eqb (length pr) 0 then ret (failClosed "pr-diff-empty" (Some currentSha) advanced)
          else
            let overlap := uniqueSorted (filter_b (file_in pr) base) in
            if Nat.ltb 0 (length overlap)
            then ret {| needsRevalidation := true; reason := "overlapping-files"; currentBase := Some currentSha;
                        mainAdvancedBy := advanced; overlappingFiles := overlap |}
            else ret (noRevalidation "no-overlapping-files" currentSha advanced)
      end
  end.
Definition pr_ref (changedFilesFrom : val) : string :=
  match changedFilesFrom with
  | VUndef => "HEAD"
  | v => if String.eqb (normalizeGitRef v) "" then "HEAD" else normalizeGitRef v
  end.
Definition assessMergeLeaseNeedsRevalidation (repoPath base validationBase current changedFilesFrom : val) (fetchAttempts : nat)
  : M Decision_ :=
  let baseBranch := normalizeBaseBranch base in
  let validationSha := normalizeFullSha validationBase in
  let currentSha := normalizeFullSha current in
  let prRef := pr_ref changedFilesFrom in
  if negb (truthy repoPath) then ret (failClosed "repo-path-required" (known currentSha) None)
  else if String.eqb baseBranch "" then ret (failClosed "malformed-base" (known currentSha) None)
  else if String.eqb validationSha "" then ret (failClosed "malformed-validation-base" (known currentSha) None)
  else if String.eqb currentSha "" then ret (failClosed "malformed-current-base" None None)
  else if starts_with "-" prRef || includes backslash prRef
  then ret (failClosed "malformed-changed-files-from" (Some currentSha) None)
  else
    let! exists_ := ask_git ["cat-file"; "-e"; validationSha +:+ "^{commit}"] in
    match exists_ with
    | Throw _ => ret (failClosed "unresolvable-validation-base" (Some currentSha) None)
    | Ok _ =>
        let! remote := resolve_remote fetchAttempts baseBranch currentSha in
        if negb (String.eqb remote currentSha) then ret (failClosed "unverified-current-base" (Some currentSha) None)
        else if String.eqb validationSha currentSha then ret (noRevalidation "base-not-advanced" currentSha (Some (num_of_Z 0)))
        else assess_drift validationSha currentSha prRef
    end.

(** ** What a base that stands was checked against *)

(** Git answered these arguments so. *)
Definition answered (w : GitWorld) (args : list string) (out : string) : Prop := In (args, Ok out) (git_calls w).
Definition grows (w w' : GitWorld) : Prop := exists l, git_calls w' = git_calls w ++ l.
#[export] Instance grows_preorder : PreOrder grows.
Proof.
  split; [intros w; exists []; by rewrite app_nil_r|]. intros a b c [l Hl] [k Hk]. exists (l ++ k). by rewrite Hk, Hl, (assoc_L (++)).
Qed.
Lemma answered_grows w w' args out : grows w w' -> answered w args out -> answered w' args out.
Proof. intros [l Hl] Ha. unfold answered. rewrite Hl. apply in_app_iff. by left. Qed.
Lemma ask_git_Ok args w r w' : ask_git args w = (Ok r, w') -> grows w w' /\ In (args, r) (git_calls w').
Proof.
  unfold ask_git. destruct (git _ _) as [x e]. intros [= <- <-]. split; [by eexists|]. cbn. apply in_app_iff. right. by left.
Qed.
#[export] Instance ask_git_grows args : Keeps grows (ask_git args).
Proof. intros w. unfold ask_git. destruct (git _ _). by eexists. Qed.
#[export] Instance ret_grows {A} (a : A) : Keeps grows (ret a).
Proof. intros w. reflexivity. Qed.
#[export] Instance changed_grows v c p : Keeps grows (changed_files v c p).
Proof. unfold changed_files. keeps. Qed.
Lemma resolve_remote_Ok n b cur w sha w' :
  resolve_remote n b cur w = (Ok sha, w') ->
  grows w w' /\ (sha <> "" -> exists out, answered w' (rev_parse ("refs/remotes/origin/" +:+ b)) out /\ sha = normalizeFullSha (VStr (trim out))).
Proof.
  revert w. induction n as [|n IH]; intros w; cbn [resolve_remote]; intros (r & w1 & [G1 H1]%ask_git_Ok & H)%seq_Ok.
  all: destruct (String.eqb _ cur).
  1,2,3: injection H as <- <-; split; [done|]; intros Hn; destruct r as [out|e]; [exists out; split; [exact H1 | done] | done].
  apply seq_Ok in H as (r2 & w2 & [G2 _]%ask_git_Ok & H). apply IH in H as [G3 H]. split; [|exact H].
  transitivity w1; [done|]. by transitivity w2.
Qed.
End Asking.

(** The files a name listing answers for. *)
Definition listed (out f : string) : Prop := In f (splitNameOnly (trim out)).

Lemma changed_files_Ok git v c p w base pr w' :
  changed_files git v c p w = (Ok (Ok (base, pr)), w') ->
  exists mb base_out pr_out, answered w' (diff_names (v +:+ ".." +:+ c)) base_out /\ answered w' ["merge-base"; c; p] mb
    /\ answered w' (diff_names (trim mb +:+ ".." +:+ p)) pr_out
    /\ base = splitNameOnly (trim base_out) /\ pr = splitNameOnly (trim pr_out).
Proof.
  unfold changed_files. intros (b & w1 & [G1 H1]%ask_git_Ok & H)%seq_Ok. destruct b as [base_out|e]; [|done].
  apply seq_Ok in H as (m & w2 & [G2 H2]%ask_git_Ok & H). destruct m as [mb|e]; [|done].
  apply seq_Ok in H as (q & w3 & [G3 H3]%ask_git_Ok & H). destruct q as [pr_out|e]; [|done]. injection H as <- <- <-.
  exists mb, base_out, pr_out. split; [|split; [|done]].
  - eapply answered_grows, H1. by transitivity w2.
  - by eapply answered_grows, H2.
Qed.
Lemma once_each_In l x : In x (once_each l) <-> In x l.
Proof.
  induction l as [|y l IH]; [done|]. cbn. rewrite filter_In, IH. split; [tauto|]. intros [->|H]; [by left|].
  destruct (String.eqb y x) eqn:Ey; [apply String.eqb_eq in Ey; by left | right]. by split.
Qed.
Lemma no_overlap base pr : Nat.ltb 0 (length (uniqueSorted (filter_b (file_in pr) base))) = false -> forall f, In f base -> ~ In f pr.
Proof.
  intros Hl f Hb Hp. assert (Hin : f ∈ uniqueSorted (filter_b (file_in pr) base)).
  { unfold uniqueSorted. rewrite merge_sort_Permutation. apply list_elem_of_In, once_each_In, filter_In. split; [done|]. by apply str_in_In. }
  destruct (uniqueSorted _); [by apply list_elem_of_In in Hin | done].
Qed.
Lemma assess_drift_stands git v c p w d w' :
  assess_drift git v c p w = (Ok d, w') -> needsRevalidation d = false ->
  grows w w' /\ currentBase d = Some c
  /\ exists mb base_out pr_out,
       answered w' (diff_names (v +:+ ".." +:+ c)) base_out /\ answered w' ["merge-base"; c; p] mb
       /\ answered w' (diff_names (trim mb +:+ ".." +:+ p)) pr_out
       /\ (exists f, listed pr_out f) /\ forall f, listed base_out f -> ~ listed pr_out f.
Proof.
  unfold assess_drift. intros (n & w1 & [G1 _]%ask_git_Ok & H)%seq_Ok Hd. destruct n as [text|e]; [|by injection H as <- <-].
  apply seq_Ok in H as (files & w2 & H2 & H). assert (G2 : grows w1 w2) by (eapply keeps_result; [|exact H2]; apply _).
  destruct files as [[base pr]|e]; [|by injection H as <- <-].
  destruct (Nat.eqb (length pr) 0) eqn:El; [by injection H as <- <-|].
  destruct (Nat.ltb _ _) eqn:Eo; [by injection H as <- <-|]. injection H as <- <-. split; [by transitivity w1|]. split; [done|].
  apply changed_files_Ok in H2 as (mb & bo & po & A1 & A2 & A3 & -> & ->). exists mb, bo, po. split; [done|]. split; [done|]. split; [done|].
  split; [|by apply no_overlap]. unfold listed. destruct (splitNameOnly (trim po)) as [|f l]; [done|]. exists f. by left.
Qed.

(** C21. A base stands only on evidence. When no revalidation is asked for,
    the commit validated at exists and the remote branch is the base named; and that
    base is the one validated at, or git listed the files the base changed and those
    of the pull request since their merge base, the latter has some, and no file is
    in both. *)
Theorem standing_base_is_grounded git repoPath base validationBase current from n e d w' :
  assessMergeLeaseNeedsRevalidation git repoPath base validationBase current from n {| git_env := e; git_calls := [] |} = (Ok d, w') -> needsRevalidation d = false ->
  exists sha validated,
    currentBase d = Some sha /\ normalizeFullSha current = sha /\ normalizeFullSha validationBase = validated
    /\ (exists out, answered w' ["cat-file"; "-e"; validated +:+ "^{commit}"] out)
    /\ (exists out, answered w' (rev_parse ("refs/remotes/origin/" +:+ normalizeBaseBranch base)) out /\ normalizeFullSha (VStr (trim out)) = sha)
    /\ (validated = sha
        \/ exists mb base_out pr_out,
             answered w' (diff_names (validated +:+ ".." +:+ sha)) base_out /\ answered w' ["merge-base"; sha; pr_ref from] mb
             /\ answered w' (diff_names (trim mb +:+ ".." +:+ pr_ref from)) pr_out
             /\ (exists f, listed pr_out f) /\ forall f, listed base_out f -> ~ listed pr_out f).
Proof.
  unfold assessMergeLeaseNeedsRevalidation. set (sha := normalizeFullSha current). set (validated := normalizeFullSha validationBase).
  intros H Hd.
  destruct (negb (truthy repoPath)); [by injection H as <- <-|]. destruct (String.eqb (normalizeBaseBranch base) ""); [by injection H as <- <-|].
  destruct (String.eqb validated ""); [by injection H as <- <-|]. destruct (String.eqb sha "") eqn:Es; [by injection H as <- <-|].
  destruct (_ || _); [by injection H as <- <-|].
  apply seq_Ok in H as (ex & w1 & [G1 H1]%ask_git_Ok & H). destruct ex as [out|x]; [|by injection H as <- <-].
  apply seq_Ok in H as (remote & w2 & [G2 H2]%resolve_remote_Ok & H).
  destruct (String.eqb remote sha) eqn:Er; [|by injection H as <- <-]. cbn [negb] in H. apply String.eqb_eq in Er as ->.
  destruct H2 as (rout & A2 & E2); [by intros E0; rewrite E0 in Es|]. exists sha, validated.
  destruct (String.eqb validated sha) eqn:Ev.
  - injection H as <- <-. split; [done|]. split; [done|]. split; [done|]. split; [exists out; by eapply answered_grows|].
    split; [by exists rout|]. left. by apply String.eqb_eq.
  - apply assess_drift_stands in H as (G3 & Hc & Hdr); [|done]. split; [done|]. split; [done|]. split; [done|].
    split; [exists out; eapply answered_grows; [|exact H1]; by transitivity w2|].
    split; [exists rout; split; [by eapply answered_grows | done]|]. by right.
Qed.
End Revalidation.
Arguments GitWorld E : clear implicits.
Arguments Git E : clear implicits.

(** ** Concrete runs *)

Fixpoint repeated (a : ascii) (n : nat) : string := match n with O => "" | S n => String a (repeated a n) end.
Definition ex_old : string := repeated "a" 40.
Definition ex_new : string := repeated "b" 40.
Definition ex_lines (l : list string) : string := join (String newline "") l.
(** A repository whose base changed [base.js], seen from a request that changed [files]. *)
Definition ex_git (files : list string) : Git unit := fun args e =>
  (match args with
   | "cat-file" :: _ => Ok ""
   | "rev-parse" :: _ => Ok ex_new
   | "rev-list" :: _ => Ok "3"
   | "merge-base" :: _ => Ok ex_old
   | ["diff"; _; range] => Ok (ex_lines (if String.eqb range (ex_old +:+ ".." +:+ ex_new) then ["base.js"] else files))
   | _ => Throw (PlainError "unknown")
   end, e).
Definition ex_assess (validated : string) (files : list string) : result Decision_ * GitWorld unit :=
  assessMergeLeaseNeedsRevalidation (ex_git files) (VStr "/repo") (VStr "main") (VStr validated) (VStr ex_new) VUndef 2
    {| git_env := tt; git_calls := [] |}.
Example assessments :
  map (fun r => match fst r with Ok d => (needsRevalidation d, reason d) | Throw _ => (true, "") end)
    [ex_assess ex_new []; ex_assess ex_old ["pr.js"]; ex_assess ex_old ["pr.js"; "base.js"]; ex_assess ex_old []; ex_assess "HEAD" []]
  = [(false, "base-not-advanced"); (false, "no-overlapping-files"); (true, "overlapping-files"); (true, "pr-diff-empty");
     (true, "malformed-validation-base")].
Proof. vm_compute. reflexivity. Qed.
Lemma standing_base_is_grounded_witness :
  exists d, fst (ex_assess ex_old ["pr.js"]) = Ok d /\ reason d = "no-overlapping-files"
    /\ exists out, answered (snd (ex_assess ex_old ["pr.js"])) (rev_parse "refs/remotes/origin/main") out /\ normalizeFullSha (VStr (trim out)) = ex_new.
Proof.
  destruct (fst (ex_assess ex_old ["pr.js"])) as [d|e] eqn:Ed; [|vm_compute in Ed; discriminate].
  exists d. split; [reflexivity|].
  assert (Hd : needsRevalidation d = false /\ reason d = "no-overlapping-files") by (vm_compute in Ed; injection Ed as <-; split; reflexivity).
  split; [exact (proj2 Hd)|].
  destruct (standing_base_is_grounded (ex_git ["pr.js"]) (VStr "/repo") (VStr "main") (VStr ex_old) (VStr ex_new) VUndef 2
    tt d (snd (ex_assess ex_old ["pr.js"]))) as (sha & val & _ & Hs & _ & _ & Hr & _).
  - fold (ex_assess ex_old ["pr.js"]). rewrite <- Ed. apply surjective_pairing.
  - exact (proj1 Hd).
  - destruct Hr as (out & H1 & H2). exists out. split; [exact H1|]. rewrite H2, <- Hs. vm_compute. reflexivity.
Defined.
